(* ===== verification/_CoqProject ===== *)
-Q . S2P
Prelude.v
Text.v
Regex.v
Crc.v
Frames.v
Cobs.v
Transport.v
AgentProtocol.v
AgentClient.v
Profiles.v
Events.v
HisiStandard.v
HisiV500.v
HisiCv6xx.v
Novatek.v
DownloadCmd.v
Ymodem.v
Tftp.v
RockusbCodec.v
Rockusb.v
Capture.v
Dhcp.v
Ubi.v
UbootEnv.v
Firmware.v
Layout.v
Nand.v
Session.v
Flashdump.v
UbootConsole.v
Bundle.v
Vendors.v
Install.v
Commands.v
InstallSafe.v
Ticks.v
DumpEnds.v
RouterOS.v
PoeSwitch.v
Lines.v
Rack.v
Power.v
Restore.v
RestoreSafe.v
RestoreNor.v
AgentSafe.v
PowerCycle.v
AgentCommands.v
AgentCmdSafe.v
AgentDump.v
