(* ===== verification/Prelude.v ===== *)
(** * defib: a verification development

  defib recovers IP cameras: it talks to the boot ROM of a bare or bricked SoC
  over a serial line or USB, uploads a loader, a flash agent or U-Boot, and
  reads and writes the flash through them; it installs the OpenIPC firmware,
  dumps a flash over a U-Boot console and switches the camera's power.  The
  Python package is [src/src/defib/].

  ** Parts and files

  Common ground.
  - [Prelude] (this file): bytes, Python slices and lengths, exceptions and
    results, integers on the wire ([struct]), the shared tactics and hint
    databases.
  - [Text]: [str] methods, number formats and parsing on lists of character
    codes.
  - [Regex]: Python's [re] as a backtracking matcher, sound and complete for a
    relation that says what a pattern matches.

  Bytes on the wire.
  - [Crc]: the CRC-16 of [protocol/crc.py], the XMODEM CRC of
    [recovery/ymodem.py], the CRC and RC4 of [rockusb/codec.py], [zlib.crc32].
  - [Frames]: the HEAD, DATA and TAIL frames and chunking of
    [protocol/frames.py].
  - [Cobs]: [agent/cobs.py].

  Effects.
  - [Transport]: [transport/base.py] as the class [Transport] with its laws,
    [transport/mock.py] as an instance, and the monad [M T Ob A] all protocol
    code runs in: a state (transport, the fields of [self], a ghost log of the
    transport calls) and a [res], with [try]/[except], loops and early
    returns.  It has the logics the components share: [emits] (what a
    computation leaves in the log), [outputs] (what it writes), [total] (it
    does not run out of fuel), [does] and [sends] (what it does to a
    particular device), [keeps] and [yields] (what it leaves alone, what it
    returns).  The class [AckingDevice] is a device that acknowledges frames.
  - [Capture]: [capture/format.py], [recorder.py] and [replayer.py]; the
    recorder and the replayer are further instances of [Transport].
  - [Ticks]: transports on which time passes (class [Ticking]) and the logic
    [ends] of code that waits until a deadline.
  - [Lines]: the transports of [transport/serial.py], [rfc2217.py],
    [socket.py] and [serial_platform.py] over the classes [Port] and [Sock] of
    the library calls they make; instances of [Transport].

  Boot protocols, written against [Transport].
  - [Profiles]: [profiles/schema.py] and [profiles/loader.py].
  - [Events]: stages and results of [recovery/events.py].
  - [HisiStandard], [HisiV500], [HisiCv6xx], [Novatek]: the four protocols,
    [protocol/hisilicon_standard.py], [hisilicon_v500.py],
    [hisilicon_cv6xx.py] and [novatek.py].
  - [DownloadCmd]: [protocol/hisilicon_download_cmd.py], U-Boot commands sent
    in frames.
  - [Ymodem]: [recovery/ymodem.py].
  - [Session]: [protocol/registry.py] and [recovery/session.py]: the choice
    of a protocol for a chip, power cycling, retries, the break phase.

  The flash agent.
  - [AgentProtocol]: packets and the receive loop of [agent/protocol.py].
  - [AgentClient]: the client of [agent/client.py]; [AgentSafe] cuts the log
    of a write into what was sent and what the agent answered to it.
  - [Nand]: [agent/nand.py], the NAND requests on top of the client.
  - [AgentCommands]: the [agent] commands of [cli/app.py]; [PowerCycle] the
    power cycle they start a handshake with (tasks that are cancelled are a
    transformer of transports), [AgentCmdSafe] and [AgentDump] what the
    commands do to a device and what they save.

  Network and USB.
  - [Tftp]: [network/tftp_server.py] as a state machine: one definition per
    handler, steps for arbitrary datagrams and timers.
  - [Dhcp]: [network/dhcp_server.py].
  - [RockusbCodec]: [rockusb/protocol.py], [maskrom.py], [loader.py].
  - [Rockusb]: [rockusb/device.py] and [recovery.py], over the class [Usb] of
    the pyusb calls they make.

  U-Boot consoles and installation.
  - [Ubi]: [ubi.py].
  - [UbootEnv]: [uboot_env.py] and [uboot_tftp.py].
  - [Firmware]: [firmware.py], downloads and their cache.
  - [Layout]: [install/layout.py] and [install/model.py].
  - [Bundle]: [install/firmware.py], firmware packages.
  - [Vendors]: [vendors/], the way to OpenIPC's U-Boot through a stock one.
  - [Install]: [install/orchestrator.py], the whole of [run_install];
    [InstallSafe] cuts the log of a run into its commands and proves in which
    order the flash is changed.
  - [Flashdump]: [flashdump.py]; [UbootConsole] is a device that answers its
    commands as U-Boot does, [DumpEnds] the end of a dump on any device.
  - [Commands]: the logic [asks] and [quietly] of the commands in a log, for
    [InstallSafe] and [RestoreSafe].
  - [Restore]: [defib restore] of [cli/app.py], from the dump to the reset;
    [RestoreSafe] proves what it writes on any device, [RestoreNor] runs it
    against a camera with a NOR flash.

  Power.
  - [RouterOS]: [power/routeros.py], the API client and the controller;
    [PoeSwitch] is a switch that answers it.
  - [Rack]: [power/rack.py], [recovery/rack_fastboot.py] and
    [transport/rack.py] over the class [Http].
  - [Power]: [power/base.py], [factory.py], [tasmota.py], [http.py] and
    [vectis.py].

  A method [C.m] of the source is the definition [m], prefixed where two
  components share a name; the body of a loop is a definition of its own
  ([m_body]), whose state is the local variables it changes.  A [return] in a
  loop is [Rtn], a [break] is [Brk]; [except Exception] is [is_Exception],
  which lets [CancelledError] pass.  The order of calls, guards and early
  returns is that of the code.  What the program calls and does not contain
  (pyserial, pyusb, sockets, HTTP, JSON, tar archives, the clock) is a class
  or an argument of the definitions.

  ** What the theorems show

  - Uploads are safe: [send_firmware_safe], [v500_send_safe],
    [cv6xx_send_safe], [nvt_send_safe], [ymodem_send_safe],
    [write_memory_complete], [rockusb_write_safe], [dl_send_command_safe] and,
    for a whole session, [session_safe] hold for every behaviour of the device
    and the line, and say that success is reported only after every frame was
    sent and acknowledged in order.  [write_flash_stream_safe] says that what
    is written is always a beginning of the one right stream, and that success
    needs an OK to its header, an answer to every sector and an OK as the last;
    [read_memory_integrity] that lost, repeated or reordered packets never
    give wrong data.
  - Uploads work: [send_firmware_delivers], [v500_send_delivers],
    [cv6xx_send_delivers], [nvt_recovers], [session_delivers],
    [ymodem_delivers], [rockusb_write_read], [tftp_delivers],
    [handshake_detects] run the code against a device that follows the
    protocol and say that it ends in success and that the device got exactly
    the right bytes.
  - Installing is safe: [nor_install_safe] says for every transport that the
    flash is changed by the images of the plan only, in order, each erased
    only after the copy in RAM was verified.  [hikvision_bootstrap_safe],
    [load_firmware_bundle_sound], [download_firmware_rollback] and
    [select_install_ethaddr_spec] are about what comes before.
  - Dumps are right: [dump_flash_delivers] against a console, for a flash of
    whole rows, [dump_flash_terminates] (with the size given or detected) and
    [verify_and_repair_sound] against any device, [md_output_roundtrip] for the
    parser.
  - The agent commands are safe: [agent_upload_safe] (the agent went over the
    boot protocol of the chip), [agent_flash_safe] (nothing is written before
    that, nothing but the one stream, and the CRC agrees unless that is not
    asked for),
    [agent_scan_dump] and [agent_read_saves] (what is in the file they save).
  - Restoring: [restore_safe] on any device (nothing is erased before its image
    was loaded, the boot partition comes last), [restore_nor_delivers] on a
    NOR camera (what is in its flash afterwards, or that nothing was written), [ipctool_backup_roundtrip].
  - Receiving is right however the bytes are cut: [recv_packet_refines] and
    [recv_packet_sequence] relate the receive loop to a walk over the whole
    stream; [rfc2217_read_contract] and [socket_stream_order] say that two
    transports lose, repeat and reorder nothing;
    [serial_flush_output_waits], [recv_response_skips_ready].
  - The TFTP server under arbitrary traffic: [tftp_reachable_ok] is its
    invariant, by induction on reachability, [tftp_no_flood] says that a block
    goes out exactly at the first acknowledgment of the one before it and at
    its timers.  [dhcp_answers] says which requests the DHCP
    server answers and with what.
  - Power: [power_cycles_complete] (no device is left off), [poe_off_on] (the
    port gets its mode back, no other changes), [tasmota_cycle_confirmed],
    [redact_text_hides], [sentence_roundtrip].
  - Codecs and parsers: [parse_cv6xx_boot_spec] (the parser and the set of
    well-formed images), [parse_printenv_value_equiv] (a regular expression
    and what it is meant to find), [cobs_roundtrip], [packet_roundtrip],
    [frames_roundtrip], [capture_roundtrip] and [recording_replays],
    [append_verify_crc] with its error detection, [calc_crc_equiv] (three
    routines, one function), [rc4_self_inverse], [maskrom_chunks_spec],
    [parse_loader_sound], [wrap_v500_payload_spec], [sector_bitmap_spec],
    [zero_long_ff_runs_spec], [extract_ubifs_spec], [fastboot_blob_roundtrip].
  - Defects the model showed are theorems too: [write_flash_seq_overflow],
    [tftp_block_overflow], [detect_spl_size_index_error],
    [detect_spl_size_uncapped], [recording_unread_twice],
    [macos_read_never_55], [trap_leaves_done], [power_on_forgets],
    [rack_scans_the_agent], [rack_keeps_ff_runs],
    [explicit_nor_writes_nothing], [unknown_flash_type_writes_nothing],
    [layout_without_device].

  ** Bounds and fuel

  Integers are [Z]; where the code packs them into a field, packing checks the
  width and raises [StructError].  Times are integers in microseconds.  Loops
  bounded by their data take that bound as fuel and never end in [Diverge].
  Loops that wait for the device take [fuel] as a parameter: theorems of
  safety hold for every amount, theorems of delivery and of termination say
  how much is enough.  A read over RFC 2217 takes at most one pass per 10 ms
  of its timeout and one more, flushing a serial port at most 502 looks at
  the queue; a dump on a [Ticking] transport ends within a number of passes
  fixed by its deadlines.

  ** Not modelled

  Progress callbacks, log messages and the texts of errors, except those that
  the code itself passes on or reads (failed commands of an installation,
  redacted messages of a relay).  The user interfaces (of [cli/app.py] only [restore] and the [agent]
  commands are modelled); the listing of serial ports
  ([serial_ports.py]); [network/ip_manager.py] and discovery, which run
  operating-system commands; [recovery/novatek_eth.py]; the calls that open
  ports, sockets and servers.  The C code of the agent and the web page are
  not Python. *)

From Stdlib Require Export ZArith Lia.
From stdpp Require Export tactics base numbers gmap strings option.
From stdpp Require Export list list_numbers.

#[global] Open Scope Z_scope.

(** ** Bytes *)

(** A Python [bytes]/[bytearray] value; its elements are the ints 0..255. *)
Abbreviation bytes := (list Z).

Definition is_byte (b : Z) : Prop := 0 <= b < 256.

Abbreviation is_bytes := (Forall is_byte).

#[export] Instance is_byte_dec b : Decision (is_byte b).
Proof. unfold is_byte. apply _. Defined.

(** Python's [len]. *)
Definition len {A} (l : list A) : Z := Z.of_nat (length l).

(** Python's [l[i:j]] for [0 <= i]; an empty list when [j <= i], and cut at
    the end of [l]. *)
Definition slice {A} (l : list A) (i j : Z) : list A :=
  take (Z.to_nat (j - i)) (drop (Z.to_nat i) l).

(** Python's [l[:-k]] and [l[-k:]] for [0 < k]. *)
Definition but_last {A} (k : nat) (l : list A) : list A := take (length l - k) l.
Definition last_n {A} (k : nat) (l : list A) : list A := drop (length l - k) l.

(** [l[i:i + len(d)] = d] on a bytearray that reaches that far *)
Definition splice {A} (f : list A) (at_ : Z) (d : list A) : list A :=
  take (Z.to_nat at_) f ++ d ++ drop (Z.to_nat (at_ + len d)) f.

(** [d.get(k)] of a dict given by its items *)
Definition assoc {K V} `{EqDecision K} (d : list (K * V)) (k : K) : option V :=
  snd <$> List.find (fun kv => bool_decide (fst kv = k)) d.

(** [bytes(n)], [b * n] *)
Definition brep (n : Z) (b : Z) : bytes := replicate (Z.to_nat n) b.

(** The character codes of an ASCII literal. *)
Definition codes (s : string) : bytes :=
  (fun c => Z.of_N (Ascii.N_of_ascii c)) <$> String.list_ascii_of_string s.
#[global] Arguments codes : simpl never.

(** [data.ljust(n, fill)] *)
Definition ljust (n : Z) (fill : Z) (data : bytes) : bytes :=
  data ++ brep (n - len data) fill.

(** [range(0, n, step)] for [0 < step], as the list of its values. *)
Definition range_step (n step : Z) : list Z :=
  (fun i => Z.of_nat i * step) <$> seq 0 (Z.to_nat ((n + step - 1) / step)).

(** [range(n)] *)
Definition range (n : Z) : list Z := Z.of_nat <$> seq 0 (Z.to_nat n).

(** ** Exceptions and results *)

(** The exception classes the modelled code raises or catches.
    [TransportTimeout] is a subclass of [TransportError], [YModemError] of
    [RuntimeError], [FileNotFoundError] of [OSError], [RockusbUsbError] of
    [RockusbError] and [UnicodeDecodeError] of [ValueError], see the
    predicates below. *)
Inductive exn :=
  | TransportTimeout | TransportError | ValueError | IndexError | KeyError
  | StructError | RuntimeError | NotImplementedError | FrameError
  | YModemError | RockusbError | RockusbUsbError | LoaderFormatError
  | NandError | UnicodeError | FileNotFoundError | OSError | USBError | AssertionError
  | ZeroDivisionError | ConnectionError | ProtocolError (msg : string)
  | TimeoutError | CancelledError | PowerControllerError | IPManagerError | IncompleteReadError | OverflowError | TyperExit (code : Z).

#[export] Instance exn_eq_dec : EqDecision exn.
Proof. solve_decision. Defined.

Definition is_TransportTimeout (e : exn) : bool := bool_decide (e = TransportTimeout).
Definition is_TransportError (e : exn) : bool :=
  bool_decide (e = TransportTimeout \/ e = TransportError).
Definition is_ValueError (e : exn) : bool :=
  bool_decide (e = ValueError \/ e = UnicodeError).

(** The outcome of a Python computation: a value, a raised exception, or
    [Diverge], which only loops that ran out of fuel produce. *)
Inductive res (A : Type) :=
  | Ok (a : A)
  | Raise (e : exn)
  | Diverge.
Arguments Ok {A} _.
Arguments Raise {A} _.
Arguments Diverge {A}.

Lemma pair_fst {A B} (p : A * B) a : fst p = a -> p = (a, snd p).
Proof. destruct p. cbn. congruence. Qed.

Lemma Ok_inj {A} (a b : A) : Ok a = Ok b -> a = b.
Proof. congruence. Qed.

Definition res_bind {A B} (m : res A) (f : A -> res B) : res B :=
  match m with
  | Ok a => f a
  | Raise e => Raise e
  | Diverge => Diverge
  end.

Definition of_opt {A} (e : exn) (o : option A) : res A :=
  match o with Some a => Ok a | None => Raise e end.

(** [if not c: raise e] *)
Definition guard (c : bool) (e : exn) : res unit := if c then Ok tt else Raise e.

Declare Scope py_scope.
Delimit Scope py_scope with py.
Notation "'let!' x ':=' m 'in' k" := (res_bind m (fun x => k))
  (at level 10, x pattern, m at level 100, k at level 200) : py_scope.
#[global] Open Scope py_scope.

(** [l[i]] for [0 <= i]: raises IndexError past the end. *)
Definition index {A} (l : list A) (i : Z) : res A :=
  of_opt IndexError (l !! Z.to_nat i).

(** ** Integers on the wire *)

Definition le_bytes (n : Z) (z : Z) : bytes := Z_to_little_endian n 8 z.
Definition be_bytes (n : Z) (z : Z) : bytes := rev (le_bytes n z).
(** [int.from_bytes(bs, "little")] and ["big"] *)
Definition le_int (bs : bytes) : Z := little_endian_to_Z 8 bs.
Definition be_int (bs : bytes) : Z := le_int (rev bs).

(** [struct.pack] of one unsigned field of [n] bytes: raises [struct.error]
    when the value does not fit. *)
Definition fits (n z : Z) : bool := (0 <=? z) && (z <? 2 ^ (8 * n)).
Definition pack_le (n z : Z) : res bytes :=
  if fits n z then Ok (le_bytes n z) else Raise StructError.
Definition pack_be (n z : Z) : res bytes :=
  if fits n z then Ok (be_bytes n z) else Raise StructError.

(** [struct.unpack_from] of one unsigned field of [n] bytes at [off]: raises
    [struct.error] when the buffer is too short. *)
Definition unpack_le (n : Z) (data : bytes) (off : Z) : res Z :=
  if (off + n <=? len data) then Ok (le_int (slice data off (off + n))) else Raise StructError.
Definition unpack_be (n : Z) (data : bytes) (off : Z) : res Z :=
  if (off + n <=? len data) then Ok (be_int (slice data off (off + n))) else Raise StructError.

(** [a == b] on bytes, as a bool *)
Definition beq (a b : bytes) : bool := bool_decide (a = b).

(** [data.find(pat, start, limit)] for [0 <= start] and [limit <= len(data)]:
    the first place of [pat] that lies between them, -1 when there is none. *)
Fixpoint find_go (pat l : bytes) (n : nat) (i : Z) : Z :=
  match n with
  | O => -1
  | S n' => if beq (take (length pat) l) pat then i else find_go pat (tail l) n' (i + 1)
  end.

Definition find_bytes (pat data : bytes) (start limit : Z) : Z :=
  find_go pat (drop (Z.to_nat start) data) (Z.to_nat (limit - len pat - start + 1)) start.

(** [pat in data] *)
Definition contains (pat data : bytes) : bool := 0 <=? find_bytes pat data 0 (len data).

(** Splitting a buffer into pieces of [n] bytes, as the comprehension
    [[data[i:i + n] for i in range(0, len(data), n)]] does it. *)
Definition pieces {A} (n : Z) (data : list A) : list (list A) :=
  (fun i => slice data i (i + n)) <$> range_step (len data) n.

(** ** Automation *)

Create HintDb defib discriminated.
Create Rewrite HintDb len.

(** Case analysis on the innermost [match] of the goal or of a hypothesis. *)
Ltac case_res :=
  match goal with
  | H : context [match ?x with _ => _ end] |- _ =>
      lazymatch x with context [match _ with _ => _ end] => fail | _ => destruct x eqn:? end
  | |- context [match ?x with _ => _ end] =>
      lazymatch x with context [match _ with _ => _ end] => fail | _ => destruct x eqn:? end
  end.

(** Invert a [let!] chain that ended in [Ok]. *)
Ltac inv_ok :=
  repeat match goal with
  | H : Ok _ = Ok _ |- _ => injection H as H; try subst
  | H : Raise _ = Ok _ |- _ => discriminate H
  | H : Diverge = Ok _ |- _ => discriminate H
  | H : res_bind ?m _ = Ok _ |- _ => destruct m eqn:?; cbn [res_bind] in H; try discriminate H
  | H : guard ?c _ = Ok _ |- _ => destruct c eqn:?; cbn [guard] in H; try discriminate H
  end.

(** Turn boolean tests of the code into propositions. *)
Ltac b2p :=
  repeat match goal with
  | H : andb _ _ = true |- _ => apply andb_true_iff in H as [? ?]
  | H : andb _ _ = false |- _ => apply andb_false_iff in H
  | H : orb _ _ = false |- _ => apply orb_false_iff in H as [? ?]
  | H : negb _ = true |- _ => apply negb_true_iff in H
  | H : negb _ = false |- _ => apply negb_false_iff in H
  | H : bool_decide _ = true |- _ => apply bool_decide_eq_true in H
  | H : bool_decide _ = false |- _ => apply bool_decide_eq_false in H
  | H : (_ <? _) = true |- _ => apply Z.ltb_lt in H
  | H : (_ <? _) = false |- _ => apply Z.ltb_ge in H
  | H : (_ <=? _) = true |- _ => apply Z.leb_le in H
  | H : (_ <=? _) = false |- _ => apply Z.leb_gt in H
  | H : (_ =? _) = true |- _ => apply Z.eqb_eq in H
  | H : (_ =? _) = false |- _ => apply Z.eqb_neq in H
  | H : beq _ _ = true |- _ => apply bool_decide_eq_true in H
  | H : beq _ _ = false |- _ => apply bool_decide_eq_false in H
  end.

(** Equality of integers bit by bit. *)
Create Rewrite HintDb zbits.
#[export] Hint Rewrite Z.lxor_spec Z.land_spec Z.lor_spec Z.bits_0 : zbits.
#[export] Hint Rewrite Z.shiftl_spec Z.shiftr_spec Z.lnot_spec using lia : zbits.
Ltac zbits :=
  apply Z.bits_inj'; intros ?n ?Hn; autorewrite with zbits;
  repeat match goal with |- context [Z.testbit ?x ?i] => destruct (Z.testbit x i) end;
  try reflexivity.

(** ** Lengths and slices *)

Lemma len_nonneg {A} (l : list A) : 0 <= len l.
Proof. unfold len. lia. Qed.

Lemma len_nil {A} : len (@nil A) = 0.
Proof. reflexivity. Qed.

Lemma len_cons {A} (x : A) l : len (x :: l) = 1 + len l.
Proof. unfold len. cbn [length]. lia. Qed.

Lemma len_app {A} (a b : list A) : len (a ++ b) = len a + len b.
Proof. unfold len. rewrite length_app. lia. Qed.

Lemma len_replicate {A} n (x : A) : len (replicate n x) = Z.of_nat n.
Proof. unfold len. by rewrite length_replicate. Qed.

Lemma len_brep n b : 0 <= n -> len (brep n b) = n.
Proof. intros. unfold brep. rewrite len_replicate. lia. Qed.

Lemma len_fmap {A B} (f : A -> B) l : len (f <$> l) = len l.
Proof. unfold len. by rewrite length_fmap. Qed.

Lemma len_rev {A} (l : list A) : len (rev l) = len l.
Proof. unfold len. by rewrite length_rev. Qed.

Lemma len_take {A} n (l : list A) : len (take n l) = Z.min (Z.of_nat n) (len l).
Proof. unfold len. rewrite length_take. lia. Qed.

Lemma len_drop {A} n (l : list A) : len (drop n l) = Z.max 0 (len l - Z.of_nat n).
Proof. unfold len. rewrite length_drop. lia. Qed.

Lemma len_slice {A} (l : list A) i j :
  0 <= i -> len (slice l i j) = Z.max 0 (Z.min j (len l) - i).
Proof. intros. unfold slice. rewrite len_take, len_drop. lia. Qed.

Lemma len_0_nil {A} (l : list A) : len l = 0 -> l = [].
Proof. unfold len. destruct l; cbn; [done | lia]. Qed.

#[export] Hint Rewrite @len_nil @len_cons @len_app @len_replicate @len_fmap
  @len_rev @len_take @len_drop : len.

Lemma slice_all {A} (l : list A) j : len l <= j -> slice l 0 j = l.
Proof. intros. unfold slice, len in *. rewrite drop_0. apply take_ge. lia. Qed.

Lemma slice_drop_take {A} (l : list A) i j : slice l i j = take (Z.to_nat (j - i)) (drop (Z.to_nat i) l).
Proof. reflexivity. Qed.

(** The middle of a concatenation. *)
Lemma slice_mid {A} (a b c : list A) i j :
  i = len a -> j = len a + len b -> slice (a ++ b ++ c) i j = b.
Proof.
  intros -> ->. unfold slice, len.
  rewrite Nat2Z.id, drop_app_length.
  replace (Z.to_nat _) with (length b) by lia. apply take_app_length.
Qed.

Lemma slice_prefix {A} (b c : list A) j : j = len b -> slice (b ++ c) 0 j = b.
Proof. intros ->. by apply (slice_mid []). Qed.

Lemma slice_suffix {A} (a b : list A) i j :
  i = len a -> len a + len b <= j -> slice (a ++ b) i j = b.
Proof.
  intros -> ?. unfold slice, len in *.
  rewrite Nat2Z.id, drop_app_length. apply take_ge. lia.
Qed.

Lemma slice_split {A} (l : list A) i j k :
  0 <= i <= j -> j <= k -> slice l i j ++ slice l j k = slice l i k.
Proof.
  intros. unfold slice.
  replace (Z.to_nat (k - i)) with (Z.to_nat (j - i) + Z.to_nat (k - j))%nat by lia.
  replace (Z.to_nat j) with (Z.to_nat i + Z.to_nat (j - i))%nat by lia.
  by rewrite <- drop_drop, take_take_drop.
Qed.

(** A slice that would reach past the end is cut there. *)
Lemma slice_clip {A} (l : list A) i k :
  0 <= i <= len l -> slice l i (i + Z.min k (len l - i)) = slice l i (i + k).
Proof.
  intros Hi. unfold slice. rewrite !Z.add_simpl_l. unfold len in *.
  destruct (decide (k <= Z.of_nat (length l) - i)); [by rewrite Z.min_l by lia|].
  rewrite !take_ge; [done|rewrite length_drop; lia..].
Qed.

Lemma is_bytes_slice (l : bytes) i j : is_bytes l -> is_bytes (slice l i j).
Proof. intros. unfold slice. by apply Forall_take, Forall_drop. Qed.

Lemma but_last_app {A} (l s : list A) k : k = length s -> but_last k (l ++ s) = l.
Proof.
  intros ->. unfold but_last. rewrite length_app, Nat.add_sub. apply take_app_length.
Qed.

Lemma last_n_app {A} (l s : list A) k : k = length s -> last_n k (l ++ s) = s.
Proof.
  intros ->. unfold last_n. rewrite length_app, Nat.add_sub. apply drop_app_length.
Qed.

Lemma but_last_last_n {A} k (l : list A) : but_last k l ++ last_n k l = l.
Proof. apply take_drop. Qed.

(** ** Integers on the wire *)

Lemma le_bytes_len n z : 0 <= n -> len (le_bytes n z) = n.
Proof. apply length_Z_to_little_endian. Qed.

Lemma be_bytes_len n z : 0 <= n -> len (be_bytes n z) = n.
Proof. intros. unfold be_bytes. rewrite len_rev. by apply le_bytes_len. Qed.

Lemma le_bytes_is_bytes n z : 0 <= n -> is_bytes (le_bytes n z).
Proof. intros. by apply (Z_to_little_endian_bound n 8). Qed.

Lemma be_bytes_is_bytes n z : 0 <= n -> is_bytes (be_bytes n z).
Proof. intros. unfold be_bytes. by apply Forall_rev, le_bytes_is_bytes. Qed.

Lemma fits_spec n z : fits n z = true <-> 0 <= z < 2 ^ (8 * n).
Proof. unfold fits. rewrite andb_true_iff, Z.leb_le, Z.ltb_lt. tauto. Qed.

Lemma le_int_le_bytes n z : 0 <= n -> fits n z = true -> le_int (le_bytes n z) = z.
Proof.
  intros ? [? ?]%fits_spec. unfold le_int, le_bytes.
  rewrite little_endian_to_Z_to_little_endian by lia.
  rewrite Z.mul_comm. by apply Z.mod_small.
Qed.

Lemma be_int_be_bytes n z : 0 <= n -> fits n z = true -> be_int (be_bytes n z) = z.
Proof. intros. unfold be_int, be_bytes. rewrite rev_involutive. by apply le_int_le_bytes. Qed.

Lemma le_bytes_le_int bs : is_bytes bs -> le_bytes (len bs) (le_int bs) = bs.
Proof. intros. by apply Z_to_little_endian_to_Z. Qed.

Lemma be_bytes_be_int bs : is_bytes bs -> be_bytes (len bs) (be_int bs) = bs.
Proof.
  intros. unfold be_bytes, be_int.
  rewrite <- (len_rev bs), le_bytes_le_int by by apply Forall_rev.
  apply rev_involutive.
Qed.

Lemma le_int_bound bs : is_bytes bs -> 0 <= le_int bs < 2 ^ (8 * len bs).
Proof.
  intros. unfold le_int. rewrite Z.mul_comm. unfold len.
  apply little_endian_to_Z_bound; [lia | done].
Qed.

Lemma be_int_bound bs : is_bytes bs -> 0 <= be_int bs < 2 ^ (8 * len bs).
Proof. intros. unfold be_int. rewrite <- (len_rev bs). by apply le_int_bound, Forall_rev. Qed.

Lemma unpack_le_nonneg n data off z : is_bytes data -> unpack_le n data off = Ok z -> 0 <= z.
Proof.
  unfold unpack_le. intros Hd H. case_match; [|done]. injection H as <-.
  apply le_int_bound. by apply Forall_take, Forall_drop.
Qed.

Lemma pack_le_ok n z bs : pack_le n z = Ok bs -> fits n z = true /\ bs = le_bytes n z.
Proof. unfold pack_le. destruct (fits n z); intros; inv_ok; auto. Qed.

Lemma pack_be_ok n z bs : pack_be n z = Ok bs -> fits n z = true /\ bs = be_bytes n z.
Proof. unfold pack_be. destruct (fits n z); intros; inv_ok; auto. Qed.

(** A field packed into the middle of a buffer is read back. *)
Lemma unpack_le_mid n z (a c : bytes) off :
  0 <= n -> off = len a -> fits n z = true ->
  unpack_le n (a ++ le_bytes n z ++ c) off = Ok z.
Proof.
  intros Hn -> Hf. unfold unpack_le.
  pose proof (le_bytes_len n z Hn). pose proof (len_nonneg c).
  rewrite !len_app.
  replace (_ <=? _) with true by (symmetry; apply Z.leb_le; lia).
  rewrite slice_mid by lia. by rewrite le_int_le_bytes.
Qed.

Lemma unpack_be_mid n z (a c : bytes) off :
  0 <= n -> off = len a -> fits n z = true ->
  unpack_be n (a ++ be_bytes n z ++ c) off = Ok z.
Proof.
  intros Hn -> Hf. unfold unpack_be.
  pose proof (be_bytes_len n z Hn). pose proof (len_nonneg c).
  rewrite !len_app.
  replace (_ <=? _) with true by (symmetry; apply Z.leb_le; lia).
  rewrite slice_mid by lia. by rewrite be_int_be_bytes.
Qed.

#[export] Hint Resolve is_bytes_slice le_bytes_is_bytes be_bytes_is_bytes : defib.

(** ** Pieces *)

Lemma pieces_length {A} n (data : list A) :
  length (pieces n data) = Z.to_nat ((len data + n - 1) / n).
Proof. unfold pieces, range_step. by rewrite !length_fmap, length_seq. Qed.

(** The pieces from the [k]-th one on hold exactly the rest of the data. *)
Lemma pieces_concat_from {A} n (data : list A) m k :
  0 < n -> len data <= Z.of_nat (k + m) * n ->
  concat ((fun i => slice data (Z.of_nat i * n) (Z.of_nat i * n + n)) <$> seq k m)
  = drop (Z.to_nat (Z.of_nat k * n)) data.
Proof.
  intros Hn. revert k. induction m as [|m IH]; intros k Hk; cbn.
  - symmetry. apply drop_ge. unfold len in Hk. lia.
  - change (list_fmap _ _ ?f ?l) with (f <$> l). rewrite IH by lia.
    rewrite slice_drop_take.
    replace (Z.to_nat (Z.of_nat (S k) * n))
      with (Z.to_nat (Z.of_nat k * n) + Z.to_nat n)%nat by lia.
    rewrite <- drop_drop, Z.add_simpl_l. apply take_drop.
Qed.

Lemma pieces_concat {A} n (data : list A) : 0 < n -> concat (pieces n data) = data.
Proof.
  intros Hn. unfold pieces, range_step. rewrite <- list_fmap_compose.
  etransitivity; [apply (pieces_concat_from n data _ 0 Hn) | by rewrite drop_0].
  pose proof (len_nonneg data).
  pose proof (Z.div_mod (len data + n - 1) n ltac:(lia)).
  pose proof (Z.mod_pos_bound (len data + n - 1) n Hn).
  rewrite Nat.add_0_l, Z2Nat.id by (apply Z.div_pos; lia). lia.
Qed.

Lemma pieces_lookup {A} n (data : list A) k p :
  0 < n -> pieces n data !! k = Some p ->
  p = slice data (Z.of_nat k * n) (Z.of_nat k * n + n) /\ Z.of_nat k * n < len data.
Proof.
  intros Hn. unfold pieces, range_step. rewrite !list_lookup_fmap.
  intros (x & Hx & ->)%fmap_Some.
  apply fmap_Some in Hx as (i & Hi & ->). apply lookup_seq in Hi as [-> Hi].
  split; [done|].
  pose proof (Z.div_mod (len data + n - 1) n ltac:(lia)).
  pose proof (Z.mod_pos_bound (len data + n - 1) n Hn). nia.
Qed.

(** Every piece but the last is full; the last is not empty. *)
Lemma pieces_len {A} n (data : list A) k p :
  0 < n -> pieces n data !! k = Some p ->
  len p = Z.min n (len data - Z.of_nat k * n) /\ 0 < len p <= n.
Proof.
  intros Hn [-> Hk]%pieces_lookup; [|done].
  rewrite len_slice by lia. lia.
Qed.

Lemma pieces_is_bytes n (data : bytes) : is_bytes data -> Forall is_bytes (pieces n data).
Proof. intros. unfold pieces. apply Forall_fmap, Forall_true. intros. cbn. by apply is_bytes_slice. Qed.

Lemma slice_app_l {A} (a b : list A) i j : 0 <= i -> j <= len a -> slice (a ++ b) i j = slice a i j.
Proof.
  intros Hi Hj. unfold slice, len in *. destruct (decide (j <= i)).
  { by replace (Z.to_nat (j - i)) with 0%nat by lia. }
  rewrite drop_app_le by lia. rewrite take_app_le; [done|]. rewrite length_drop. lia.
Qed.

Lemma slice_app_r {A} (a b : list A) i j : len a <= i -> slice (a ++ b) i j = slice b (i - len a) (j - len a).
Proof.
  intros Hi. unfold slice, len in *. rewrite drop_app_ge by lia. f_equal; [lia|]. f_equal. lia.
Qed.

(** Pieces of a concatenation whose first part is whole pieces. *)
Lemma pieces_app {A} n (a b : list A) k :
  0 < n -> len a = Z.of_nat k * n -> pieces n (a ++ b) = pieces n a ++ pieces n b.
Proof.
  intros Hn Ha. unfold pieces, range_step. rewrite <- !list_fmap_compose, len_app, Ha.
  replace (Z.to_nat ((Z.of_nat k * n + n - 1) / n)) with k.
  2:{ replace (Z.of_nat k * n + n - 1) with (n - 1 + Z.of_nat k * n) by lia.
      rewrite Z.div_add, Z.div_small by lia. lia. }
  replace (Z.of_nat k * n + len b + n - 1) with (len b + n - 1 + Z.of_nat k * n) by lia.
  rewrite Z.div_add by lia. pose proof (len_nonneg b).
  assert (0 <= (len b + n - 1) / n) by (apply Z.div_pos; lia).
  replace (Z.to_nat ((len b + n - 1) / n + Z.of_nat k)) with (k + Z.to_nat ((len b + n - 1) / n))%nat by lia.
  rewrite seq_app, fmap_app. f_equal.
  - apply list_fmap_ext. intros ? i Hi. unfold compose. apply lookup_seq in Hi as [-> Hi].
    rewrite slice_app_l; [done|lia|rewrite Ha; nia].
  - rewrite Nat.add_0_l, <- (Nat.add_0_r k) at 1. rewrite <- fmap_add_seq, <- list_fmap_compose.
    apply list_fmap_ext. intros ? i Hi. unfold compose.
    rewrite slice_app_r by nia. f_equal; nia.
Qed.

Lemma pieces_one {A} n (b : list A) : 0 < len b <= n -> pieces n b = [b].
Proof.
  intros Hb. unfold pieces, range_step.
  replace (Z.to_nat _) with 1%nat; [cbn; by rewrite slice_all by lia|].
  replace (len b + n - 1) with (len b - 1 + 1 * n) by lia.
  rewrite Z.div_add, Z.div_small by lia. done.
Qed.

Lemma pieces_full {A} n (a : list A) k :
  0 < n -> len a = Z.of_nat k * n -> Forall (fun p => len p = n) (pieces n a).
Proof.
  intros Hn Ha. apply Forall_lookup. intros i p Hp.
  pose proof (pieces_length n a) as Hl. apply pieces_len in Hp as Hq; [|done].
  apply lookup_lt_Some in Hp. rewrite Hl, Ha in Hp.
  replace (Z.of_nat k * n + n - 1) with (n - 1 + Z.of_nat k * n) in Hp by lia.
  rewrite Z.div_add, Z.div_small in Hp by lia. nia.
Qed.

(** ** Slice assignment *)

Lemma find_go_spec pat data n start :
  0 <= start ->
  let r := find_go pat (drop (Z.to_nat start) data) n start in
  (r = -1 /\ forall x, start <= x < start + Z.of_nat n -> slice data x (x + len pat) <> pat) \/
  (start <= r < start + Z.of_nat n /\ slice data r (r + len pat) = pat /\
   forall x, start <= x < r -> slice data x (x + len pat) <> pat).
Proof.
  revert start. induction n as [|n IH]; intros start Hs; cbn [find_go]; cbn zeta; [left; split; [done|lia]|].
  assert (Ht : take (length pat) (drop (Z.to_nat start) data) = slice data start (start + len pat)).
  { unfold slice, len. f_equal. lia. }
  rewrite Ht. destruct (beq _ pat) eqn:E; unfold beq in E.
  - apply bool_decide_eq_true in E. right. split; [lia|]. split; [done|lia].
  - apply bool_decide_eq_false in E.
    replace (tail (drop (Z.to_nat start) data)) with (drop (Z.to_nat (start + 1)) data).
    2: { replace (Z.to_nat (start + 1)) with (S (Z.to_nat start)) by lia.
         rewrite <- Nat.add_1_r, <- drop_drop. by destruct (drop _ data). }
    destruct (IH (start + 1) ltac:(lia)) as [[-> H]|(H1 & H2 & H3)].
    + left. split; [done|]. intros x Hx. destruct (decide (x = start)) as [->|]; [done|apply H; lia].
    + right. split; [lia|]. split; [done|].
      intros x Hx. destruct (decide (x = start)) as [->|]; [done|apply H3; lia].
Qed.

Lemma find_bytes_spec pat data start limit :
  0 <= start ->
  let r := find_bytes pat data start limit in
  (r = -1 /\ forall x, start <= x -> x + len pat <= limit -> slice data x (x + len pat) <> pat) \/
  (start <= r /\ r + len pat <= limit /\ slice data r (r + len pat) = pat /\
   forall x, start <= x < r -> slice data x (x + len pat) <> pat).
Proof.
  intros Hs. destruct (find_go_spec pat data (Z.to_nat (limit - len pat - start + 1)) start Hs)
    as [[H1 H2]|(H1 & H2 & H3)]; cbn zeta; unfold find_bytes.
  - left. split; [done|]. intros x Hx Hl. apply H2. lia.
  - right. split_and!; [lia|lia|done..].
Qed.

Lemma contains_spec pat data : contains pat data = true <-> exists a b, data = a ++ pat ++ b.
Proof.
  unfold contains. pose proof (find_bytes_spec pat data 0 (len data) ltac:(lia)) as Hf. cbn zeta in Hf.
  set (r := find_bytes _ _ _ _) in *. split.
  - intros Hr. b2p. destruct Hf as [[? _]|(_ & Hl & Hs & _)]; [lia|].
    exists (take (Z.to_nat r) data), (drop (length pat) (drop (Z.to_nat r) data)).
    assert (Hp : take (length pat) (drop (Z.to_nat r) data) = pat).
    { rewrite <- Hs at 2. unfold slice, len. f_equal. lia. }
    rewrite <- Hp at 1. by rewrite !take_drop.
  - intros (a & b & ->). destruct Hf as [[_ Hn]|(H0 & _)]; [|by apply Z.leb_le].
    exfalso. apply (Hn (len a)); [apply len_nonneg|rewrite !len_app; pose proof (len_nonneg b); lia|].
    by apply slice_mid.
Qed.

Lemma splice_len {A} (f : list A) at_ d : 0 <= at_ -> at_ + len d <= len f -> len (splice f at_ d) = len f.
Proof. intros. unfold splice. rewrite !len_app, len_take, len_drop. pose proof (len_nonneg d). lia. Qed.

Lemma splice_nil {A} (f : list A) at_ : 0 <= at_ -> splice f at_ [] = f.
Proof. intros. unfold splice. rewrite len_nil, Z.add_0_r. apply take_drop. Qed.

Lemma splice_splice {A} (f : list A) at_ d1 d2 :
  0 <= at_ -> at_ + len d1 + len d2 <= len f ->
  splice (splice f at_ d1) (at_ + len d1) d2 = splice f at_ (d1 ++ d2).
Proof.
  intros Ha Hl. pose proof (len_nonneg d1). pose proof (len_nonneg d2). unfold splice at 1.
  assert (E : Z.to_nat (at_ + len d1) = length (take (Z.to_nat at_) f ++ d1)).
  { rewrite length_app, length_take. unfold len in *. lia. }
  replace (take (Z.to_nat (at_ + len d1)) (splice f at_ d1)) with (take (Z.to_nat at_) f ++ d1).
  2:{ unfold splice. rewrite E, app_assoc. by rewrite take_app_length. }
  replace (drop (Z.to_nat (at_ + len d1 + len d2)) (splice f at_ d1)) with (drop (Z.to_nat (at_ + len (d1 ++ d2))) f).
  2:{ unfold splice. rewrite app_assoc.
      replace (Z.to_nat (at_ + len d1 + len d2)) with (length (take (Z.to_nat at_) f ++ d1) + Z.to_nat (len d2))%nat by lia.
      rewrite drop_app_add, drop_drop, len_app. f_equal. lia. }
  unfold splice. by rewrite <- !app_assoc.
Qed.

Lemma slice_splice {A} (f : list A) at_ d : 0 <= at_ -> at_ + len d <= len f -> slice (splice f at_ d) at_ (at_ + len d) = d.
Proof.
  intros Ha Hl. unfold splice. apply slice_mid; rewrite len_take; pose proof (len_nonneg d); lia.
Qed.

(** What lies beside the part assigned is unchanged. *)
Lemma slice_splice_other {A} (f : list A) at_ d i j :
  0 <= i -> 0 <= at_ -> at_ + len d <= len f -> j <= at_ \/ at_ + len d <= i -> slice (splice f at_ d) i j = slice f i j.
Proof.
  intros Hi Ha Hl Ho. pose proof (len_nonneg d).
  assert (Hta : len (take (Z.to_nat at_) f) = at_) by (rewrite len_take; lia).
  unfold splice. destruct (decide (j <= i)).
  { unfold slice. by replace (Z.to_nat (j - i)) with 0%nat by lia. }
  destruct Ho as [Ho|Ho].
  - rewrite slice_app_l by lia. rewrite <- (take_drop (Z.to_nat at_) f) at 2. by rewrite slice_app_l by lia.
  - rewrite app_assoc, slice_app_r by (rewrite len_app; lia). rewrite len_app, Hta.
    unfold slice. rewrite drop_drop. f_equal; [lia|]. f_equal. lia.
Qed.

Lemma lookup_splice {A} (f : list A) at_ d i :
  0 <= at_ -> at_ + len d <= len f ->
  splice f at_ d !! i =
    if decide (at_ <= Z.of_nat i < at_ + len d) then d !! (i - Z.to_nat at_)%nat else f !! i.
Proof.
  intros Ha Hl. unfold splice, len in *. assert (Ht : length (take (Z.to_nat at_) f) = Z.to_nat at_) by (rewrite length_take; lia).
  destruct (decide _) as [Hi|Hi].
  - rewrite lookup_app_r by lia. rewrite Ht. by rewrite lookup_app_l by lia.
  - destruct (decide (Z.of_nat i < at_)).
    + rewrite lookup_app_l by lia. by rewrite lookup_take_lt by lia.
    + rewrite lookup_app_r by lia. rewrite Ht, lookup_app_r by lia. rewrite lookup_drop. f_equal. lia.
Qed.

Lemma splice_comm {A} (f : list A) a d b e :
  0 <= a -> a + len d <= b -> b + len e <= len f -> splice (splice f a d) b e = splice (splice f b e) a d.
Proof.
  intros Ha Hab Hb. pose proof (len_nonneg d). pose proof (len_nonneg e). apply list_eq. intros i.
  rewrite !lookup_splice by (rewrite ?splice_len; lia).
  destruct (decide (b <= _ < _)), (decide (a <= _ < _)); done || lia.
Qed.

Lemma splice_over {A} (f : list A) a d e :
  0 <= a -> a + len d <= len f -> len e = len d -> splice (splice f a d) a e = splice f a e.
Proof.
  intros Ha Hl He. apply list_eq. intros i. rewrite !lookup_splice by (rewrite ?splice_len; lia).
  rewrite He. by destruct (decide _).
Qed.

Lemma splice_self {A} (f : list A) a b : 0 <= a -> a <= b <= len f -> splice f a (slice f a b) = f.
Proof.
  intros Ha Hb. assert (Hl : len (slice f a b) = b - a) by (rewrite len_slice; lia).
  apply list_eq. intros i. rewrite lookup_splice by lia. destruct (decide _); [|done].
  unfold slice. rewrite lookup_take_lt, lookup_drop by lia. f_equal. lia.
Qed.
