(* ===== verification/Text.v ===== *)
(** * Text

  Python [str] values of the device's output are lists of character codes, as
  the code works with them after [decode("ascii", errors="replace")].  This
  file has the string methods the components use, the number formats of their
  messages and commands, and the parsing of digits. *)

From Stdlib Require Import Ascii.
From Stdlib Require String.
From S2P Require Import Prelude.

(** [decode("ascii", errors="replace")] *)
Definition decode_replace (l : bytes) : list Z := (fun b => if b <? 128 then b else 0xFFFD) <$> l.

Definition lower_code (c : Z) : Z := if (65 <=? c) && (c <=? 90) then c + 32 else c.
Definition lower_codes (l : list Z) : list Z := lower_code <$> l.
Definition upper_code (c : Z) : Z := if (97 <=? c) && (c <=? 122) then c - 32 else c.
Definition upper_codes (l : list Z) : list Z := upper_code <$> l.

(** [str.isspace] on ASCII *)
Definition is_space_code (c : Z) : bool :=
  (c =? 32) || ((9 <=? c) && (c <=? 13)) || ((28 <=? c) && (c <=? 31)).

Fixpoint lstrip (l : list Z) : list Z :=
  match l with
  | c :: l' => if is_space_code c then lstrip l' else l
  | [] => []
  end.
Definition rstrip (l : list Z) : list Z := rev (lstrip (rev l)).
Definition strip (l : list Z) : list Z := rstrip (lstrip l).

Definition starts_with (pat l : list Z) : bool := beq (take (length pat) l) pat.
Definition ends_with (pat l : list Z) : bool := beq (last_n (length pat) l) pat.
Definition removeprefix (pat l : list Z) : list Z := if starts_with pat l then drop (length pat) l else l.

(** [l.split(sep)] for a separator of one character; [cur] is the part being
    read. *)
Fixpoint split_go (sep : Z) (l cur : list Z) : list (list Z) :=
  match l with
  | [] => [cur]
  | c :: l' => if c =? sep then cur :: split_go sep l' [] else split_go sep l' (cur ++ [c])
  end.
Definition split_on (sep : Z) (l : list Z) : list (list Z) := split_go sep l [].

(** [l.partition(sep)]; [None] when the separator is missing *)
Fixpoint partition_on (sep : Z) (l : list Z) : option (list Z * list Z) :=
  match l with
  | [] => None
  | c :: l' =>
      if c =? sep then Some ([], l')
      else match partition_on sep l' with Some (a, b) => Some (c :: a, b) | None => None end
  end.

(** [sep.join(parts)] *)
Fixpoint join (sep : list Z) (parts : list (list Z)) : list Z :=
  match parts with
  | [] => []
  | [p] => p
  | p :: ps => p ++ sep ++ join sep ps
  end.

(** [l.splitlines()] on ASCII: line ends are \n, \r, \r\n, \v, \f and the
    separators 28..30. *)
Definition is_line_end (c : Z) : bool := ((10 <=? c) && (c <=? 13)) || ((28 <=? c) && (c <=? 30)).

Fixpoint splitlines_go (l cur : list Z) : list (list Z) :=
  match l with
  | [] => match cur with [] => [] | _ => [cur] end
  | c :: l' =>
      if is_line_end c
      then cur :: match l' with
                  | d :: l'' => if (c =? 13) && (d =? 10) then splitlines_go l'' [] else splitlines_go l' []
                  | [] => []
                  end
      else splitlines_go l' (cur ++ [c])
  end.
Definition splitlines (l : list Z) : list (list Z) := splitlines_go l [].

(** ** Digits *)

Definition is_digit_code (c : Z) : bool := (48 <=? c) && (c <=? 57).

Definition hex_value (c : Z) : option Z :=
  if is_digit_code c then Some (c - 48)
  else if (97 <=? c) && (c <=? 102) then Some (c - 87)
  else if (65 <=? c) && (c <=? 70) then Some (c - 55)
  else None.
Definition is_hex_code (c : Z) : bool := bool_decide (is_Some (hex_value c)).

(** [int(digits, base)] of a run of digits *)
Definition digits_value (base : Z) (l : list Z) : Z :=
  foldl (fun acc c => acc * base + default 0 (hex_value c)) 0 l.

(** The longest prefix that satisfies [p], and the rest. *)
Fixpoint span (p : Z -> bool) (l : list Z) : list Z * list Z :=
  match l with
  | c :: l' => if p c then let (a, b) := span p l' in (c :: a, b) else ([], l)
  | [] => ([], [])
  end.

(** ** Formatting *)

Definition hex_digit (upper : bool) (d : Z) : ascii :=
  ascii_of_nat (Z.to_nat (if d <? 10 then 48 + d else if upper then 55 + d else 87 + d)).

Fixpoint hex_go (upper : bool) (fuel : nat) (n : Z) (acc : string) : string :=
  match fuel with
  | O => acc
  | S fuel' =>
      let acc := String.String (hex_digit upper (n mod 16)) acc in
      if n / 16 =? 0 then acc else hex_go upper fuel' (n / 16) acc
  end.

(** [f"{n:X}"] and [f"{n:x}"] for [0 <= n] *)
Definition hex_X (n : Z) : string := hex_go true (S (Z.to_nat (Z.log2 n))) n "".
Definition hex_x (n : Z) : string := hex_go false (S (Z.to_nat (Z.log2 n))) n "".

(** [f"{n:0<w>x}"] *)
Definition hex_0x (w : nat) (n : Z) : string :=
  String.string_of_list_ascii (replicate (w - String.length (hex_x n)) "0"%char) +:+ hex_x n.

#[global] Arguments hex_X : simpl never.
#[global] Arguments hex_x : simpl never.
#[global] Arguments hex_0x : simpl never.

(** ** Stripping *)

Lemma lstrip_id l : Forall (fun c => is_space_code c = false) l -> lstrip l = l.
Proof. destruct 1 as [|c l Hc]; cbn; [done|]. by rewrite Hc. Qed.

Lemma strip_id l : Forall (fun c => is_space_code c = false) l -> strip l = l.
Proof.
  intros Hl. unfold strip, rstrip. rewrite (lstrip_id l Hl), (lstrip_id (rev l)) by (by apply Forall_rev).
  apply rev_involutive.
Qed.

Lemma lstrip_spec l : exists a, l = a ++ lstrip l /\ Forall (fun c => is_space_code c = true) a.
Proof.
  induction l as [|c l (a & Ha & Hs)]; cbn; [by exists []|]. destruct (is_space_code c) eqn:E; [|by exists []].
  exists (c :: a). split; [by rewrite Ha at 1|by constructor].
Qed.

Lemma lstrip_head l : match lstrip l with [] => True | c :: _ => is_space_code c = false end.
Proof. induction l as [|c l IH]; cbn; [done|]. by destruct (is_space_code c) eqn:E. Qed.

Lemma lstrip_app a l : Forall (fun c => is_space_code c = true) a -> lstrip (a ++ l) = lstrip l.
Proof. induction 1 as [|c a Hc _ IH]; cbn; [done|]. by rewrite Hc. Qed.

Lemma rstrip_app l a : Forall (fun c => is_space_code c = true) a -> rstrip (l ++ a) = rstrip l.
Proof. intros Ha. unfold rstrip. rewrite rev_app_distr, lstrip_app; [done|by apply Forall_rev]. Qed.

Lemma strip_app_r l a : Forall (fun c => is_space_code c = true) a -> strip (l ++ a) = strip l.
Proof.
  intros Ha. unfold strip. induction l as [|c l IH]; cbn [app lstrip].
  - rewrite <- (app_nil_r a), (lstrip_app a []) by done. done.
  - destruct (is_space_code c); [done|]. apply (rstrip_app (c :: l) a Ha).
Qed.

Lemma lower_codes_id l : Forall (fun c => lower_code c = c) l -> lower_codes l = l.
Proof. induction 1 as [|c l Hc _ IH]; [done|]. unfold lower_codes in *. cbn. by rewrite Hc, IH. Qed.

Lemma lstrip_app_gen a l : lstrip (a ++ l) = match lstrip a with [] => lstrip l | x => x ++ l end.
Proof. induction a as [|c a IH]; cbn; [done|]. by destruct (is_space_code c). Qed.

Lemma lstrip_Forall (P : Z -> Prop) l : Forall P l -> Forall P (lstrip l).
Proof. induction 1 as [|c l Hc Hl IH]; cbn; [done|]. destruct (is_space_code c); [done|by constructor]. Qed.

Lemma strip_between c l d : is_space_code c = false -> is_space_code d = false -> strip (c :: l ++ [d]) = c :: l ++ [d].
Proof.
  intros Hc Hd. unfold strip. cbn [lstrip]. rewrite Hc. unfold rstrip. rewrite app_comm_cons, rev_app_distr. cbn [rev app lstrip].
  rewrite Hd. cbn [rev]. by rewrite rev_app_distr, rev_involutive.
Qed.

(** ** Splitting and joining *)

Lemma partition_on_spec sep l :
  match partition_on sep l with
  | Some (a, b) => l = a ++ sep :: b /\ Forall (fun c => c <> sep) a
  | None => Forall (fun c => c <> sep) l
  end.
Proof.
  induction l as [|c l IH]; cbn [partition_on]; [constructor|]. destruct (c =? sep) eqn:E; b2p; [by subst|].
  destruct (partition_on sep l) as [[a b]|]; [|by constructor]. destruct IH as [-> Ha]. split; [done|by constructor].
Qed.

Lemma split_on_partition sep l :
  split_on sep l = match partition_on sep l with Some (a, b) => a :: split_on sep b | None => [l] end.
Proof.
  unfold split_on. assert (H : forall cur, split_go sep l cur =
    match partition_on sep l with Some (a, b) => (cur ++ a) :: split_go sep b [] | None => [cur ++ l] end); [|apply (H [])].
  induction l as [|c l IH]; intros cur; cbn [split_go partition_on]; [by rewrite app_nil_r|].
  destruct (c =? sep); [by rewrite app_nil_r|]. rewrite IH. destruct (partition_on sep l) as [[a b]|]; by rewrite <- app_assoc.
Qed.

Lemma starts_with_app k t : starts_with k (k ++ t) = true.
Proof. unfold starts_with. rewrite take_app_length. by apply bool_decide_eq_true. Qed.

Lemma starts_with_inv k t : starts_with k t = true -> exists u, t = k ++ u.
Proof. unfold starts_with. intros H%bool_decide_eq_true. exists (drop (length k) t). rewrite <- H at 1. by rewrite take_drop. Qed.

Lemma partition_on_app sep a b : Forall (fun c => c <> sep) a -> partition_on sep (a ++ sep :: b) = Some (a, b).
Proof.
  induction 1 as [|c a Hc _ IH]; cbn [app partition_on]; [by rewrite Z.eqb_refl|].
  replace (c =? sep) with false by (symmetry; by apply Z.eqb_neq). by rewrite IH.
Qed.

Lemma partition_on_none sep a : Forall (fun c => c <> sep) a -> partition_on sep a = None.
Proof.
  intros Ha. pose proof (partition_on_spec sep a) as H. destruct (partition_on sep a) as [[x y]|]; [|done].
  destruct H as [-> _]. rewrite Forall_app, Forall_cons in Ha. by destruct Ha as (_ & ? & _).
Qed.

Lemma split_join sep ps : Forall (Forall (fun c => c <> sep)) ps -> ps <> [] -> split_on sep (join [sep] ps) = ps.
Proof.
  induction 1 as [|p ps Hp Hps IH]; intros Hne; [done|]. destruct ps as [|q ps]; rewrite split_on_partition.
  - by rewrite partition_on_none.
  - change (join [sep] (p :: q :: ps)) with (p ++ sep :: join [sep] (q :: ps)). rewrite partition_on_app by done. by rewrite IH.
Qed.

Lemma join_Forall (P : Z -> Prop) sep ps : Forall P sep -> Forall (Forall P) ps -> Forall P (join sep ps).
Proof.
  intros Hs. induction 1 as [|p ps Hp Hps IH]; [constructor|]. destruct ps; [done|].
  change (join sep (p :: l :: ps)) with (p ++ sep ++ join sep (l :: ps)). by repeat apply Forall_app_2.
Qed.

(** ** Hexadecimal text *)

(** A hexadecimal digit as the formats write it. *)
Definition hexc (d : Z) : Z := if d <? 10 then 48 + d else 87 + d.

Lemma hexc_cases (P : Z -> Prop) : Forall P (seqZ 0 16) -> forall d, 0 <= d < 16 -> P d.
Proof. intros HP d Hd. rewrite Forall_forall in HP. apply HP, elem_of_seqZ. lia. Qed.

Lemma code_hex_digit : forall d, 0 <= d < 16 -> Z.of_N (N_of_ascii (hex_digit false d)) = hexc d.
Proof. apply hexc_cases. repeat constructor. Qed.

(** Characters the formats write: digits of hexadecimal numbers in lower
    case. *)
Definition hex_text (l : list Z) : Prop := Forall (fun c => is_hex_code c = true /\ is_space_code c = false /\ c < 128) l.

Lemma hexc_ok : forall d, 0 <= d < 16 ->
  hex_value (hexc d) = Some d /\ (is_hex_code (hexc d) = true /\ is_space_code (hexc d) = false /\ hexc d < 128).
Proof. apply hexc_cases. repeat constructor. Qed.

Lemma digits_value_snoc base l c : digits_value base (l ++ [c]) = digits_value base l * base + default 0 (hex_value c).
Proof. unfold digits_value. by rewrite foldl_app. Qed.

Lemma codes_cons c s : codes (String.String c s) = Z.of_N (N_of_ascii c) :: codes s.
Proof. done. Qed.
Lemma codes_app a b : codes (a +:+ b) = codes a ++ codes b.
Proof. induction a as [|c a IH]; [done|].
  change (String.String c a +:+ b) with (String.String c (a +:+ b)). by rewrite !codes_cons, IH. Qed.
Lemma codes_of_list l : codes (String.string_of_list_ascii l) = (fun c => Z.of_N (N_of_ascii c)) <$> l.
Proof. unfold codes. by rewrite String.list_ascii_of_string_of_list_ascii. Qed.
Lemma codes_length s : length (codes s) = String.length s.
Proof. unfold codes. rewrite length_fmap. induction s as [|c s IH]; cbn; [done|]. by rewrite IH. Qed.

Lemma hex_go_spec fuel n acc :
  (0 < fuel)%nat -> 0 <= n < 16 ^ Z.of_nat fuel ->
  exists ds, codes (hex_go false fuel n acc) = ds ++ codes acc /\ hex_text ds /\ digits_value 16 ds = n /\
    (0 < length ds)%nat /\ forall k, (0 < k)%nat -> n < 16 ^ Z.of_nat k -> (length ds <= k)%nat.
Proof.
  revert n acc. induction fuel as [|fuel IH]; intros n acc Hf Hn; [lia|]. cbn [hex_go].
  assert (Hm : 0 <= n mod 16 < 16) by (apply Z.mod_pos_bound; lia).
  destruct (hexc_ok (n mod 16) Hm) as [Hv Hok].
  assert (Hdm : n = 16 * (n / 16) + n mod 16) by (apply Z.div_mod; lia).
  destruct (n / 16 =? 0) eqn:E; b2p.
  - exists [hexc (n mod 16)]. rewrite codes_cons, code_hex_digit by done. split_and!; [done|by constructor| |cbn; lia|cbn; lia].
    unfold digits_value. cbn. rewrite Hv. cbn. lia.
  - rewrite Nat2Z.inj_succ, Z.pow_succ_r in Hn by lia.
    assert (0 < n / 16) by (pose proof (Z.div_pos n 16); lia).
    destruct fuel as [|fuel']; [change (16 ^ Z.of_nat 0) with 1 in Hn; lia|].
    destruct (IH (n / 16) (String.String (hex_digit false (n mod 16)) acc)) as (ds & Hc & Ht & Hd & Hl & Hk); [lia|lia|].
    exists (ds ++ [hexc (n mod 16)]). rewrite Hc, codes_cons, code_hex_digit, <- app_assoc by done.
    split_and!; [done|apply Forall_app; split; [done|by apply Forall_singleton]| |rewrite length_app; cbn; lia|].
    + rewrite digits_value_snoc, Hd, Hv. cbn. lia.
    + intros [|k] Hk0 Hnk; [lia|]. rewrite length_app. cbn. rewrite Nat2Z.inj_succ, Z.pow_succ_r in Hnk by lia.
      destruct k as [|k]; [change (16 ^ Z.of_nat 0) with 1 in Hnk; lia|]. specialize (Hk (S k)). lia.
Qed.

Lemma hex_x_spec n :
  0 <= n -> hex_text (codes (hex_x n)) /\ digits_value 16 (codes (hex_x n)) = n /\ (0 < length (codes (hex_x n)))%nat /\
    forall k, (0 < k)%nat -> n < 16 ^ Z.of_nat k -> (length (codes (hex_x n)) <= k)%nat.
Proof.
  intros Hn. unfold hex_x. destruct (hex_go_spec (S (Z.to_nat (Z.log2 n))) n "") as (ds & Hc & Ht & Hd & Hl & Hk); [lia| |].
  { split; [done|]. destruct (Z.eq_dec n 0) as [->|]; [done|].
    pose proof (Z.log2_spec n ltac:(lia)) as [_ Hlt]. pose proof (Z.log2_nonneg n).
    rewrite Nat2Z.inj_succ, Z2Nat.id by lia. eapply Z.lt_le_trans; [exact Hlt|]. apply Z.pow_le_mono_l. lia. }
  rewrite app_nil_r in Hc. rewrite Hc. by split_and!.
Qed.

Lemma hex_0x_spec w n :
  (0 < w)%nat -> 0 <= n < 16 ^ Z.of_nat w ->
  hex_text (codes (hex_0x w n)) /\ digits_value 16 (codes (hex_0x w n)) = n /\ length (codes (hex_0x w n)) = w.
Proof.
  intros Hw Hn. destruct (hex_x_spec n) as (Ht & Hd & Hl & Hk); [lia|]. specialize (Hk w Hw ltac:(lia)).
  unfold hex_0x. rewrite codes_app, codes_of_list, <- codes_length, fmap_replicate.
  split_and!.
  - apply Forall_app. split; [|done]. apply Forall_replicate. by repeat constructor.
  - clear Hk Ht Hl Hn Hw. revert Hd. generalize (w - length (codes (hex_x n)))%nat as m. generalize (codes (hex_x n)) as l.
    intros l m Hd. unfold digits_value in *. rewrite foldl_app.
    replace (foldl _ 0 (replicate m _)) with 0; [done|]. symmetry. induction m as [|m IH]; [done|exact IH].
  - rewrite length_app, length_replicate. lia.
Qed.
