(* ===== verification/Regex.v ===== *)
(** * Regular expressions

  What the components use of Python's [re]: a backtracking matcher for
  character classes, sequences, alternatives, greedy and lazy repetition,
  capturing groups and zero-width tests, on texts of character codes, with
  [match], [search] and [finditer].  Alternatives are tried from left to right
  and repetitions longest (or, lazy, shortest) first, so the captured texts
  are those Python gives.  A repetition whose body matched the empty string
  ends there; no pattern of the program has such a body.

  The matcher is related to a relation [rmatches] that says which ends a
  pattern can have: it finds a match exactly when there is one. *)

From Stdlib Require Import Ascii.
From S2P Require Import Prelude Text.

Inductive re :=
  | Eps
  | Chr (p : Z -> bool)
  | Seq (a b : re)
  | Alt (a b : re)
  | Star (greedy : bool) (a : re)
  | Group (n : nat) (a : re)
  | Look (p : option Z -> list Z -> bool).    (* a test of what is before and after *)

(** A place in the text: the character before it, the text after it, and the
    groups captured so far, the latest first. *)
Record place := Place { p_prev : option Z; p_rest : list Z; p_caps : list (nat * list Z) }.

Definition capture (n : nat) (from to : place) : place :=
  Place (p_prev to) (p_rest to) ((n, take (length (p_rest from) - length (p_rest to)) (p_rest from)) :: p_caps to).

Section Match.
Context {A : Type}.

Fixpoint rmatch (r : re) (k : place -> option A) (s : place) : option A :=
  match r with
  | Eps => k s
  | Chr p =>
      match p_rest s with
      | c :: l => if p c then k (Place (Some c) l (p_caps s)) else None
      | [] => None
      end
  | Seq a b => rmatch a (rmatch b k) s
  | Alt a b => match rmatch a k s with Some x => Some x | None => rmatch b k s end
  | Group n a => rmatch a (fun s' => k (capture n s s')) s
  | Look p => if p (p_prev s) (p_rest s) then k s else None
  | Star greedy a =>
      (fix loop (n : nat) (s : place) : option A :=
         match n with
         | O => k s
         | S n' =>
             let more := rmatch a (fun s' => if (length (p_rest s') <? length (p_rest s))%nat then loop n' s' else None) in
             if greedy
             then match more s with Some x => Some x | None => k s end
             else match k s with Some x => Some x | None => more s end
         end) (length (p_rest s)) s
  end.

End Match.

(** [re.match], and [re.search] from each place in turn. *)
Definition re_match (r : re) (text : list Z) : option place := rmatch r Some (Place None text []).

Fixpoint search_from (r : re) (prev : option Z) (text : list Z) : option place :=
  match rmatch r Some (Place prev text []) with
  | Some s => Some s
  | None => match text with [] => None | c :: text' => search_from r (Some c) text' end
  end.

Definition re_search (r : re) (text : list Z) : option place := search_from r None text.

(** [re.finditer] for a pattern that does not match the empty string. *)
Fixpoint finditer_from (fuel : nat) (r : re) (prev : option Z) (text : list Z) : list place :=
  match fuel with
  | O => []
  | S fuel' =>
      match search_from r prev text with
      | Some s => s :: finditer_from fuel' r (p_prev s) (p_rest s)
      | None => []
      end
  end.

Definition re_finditer (r : re) (text : list Z) : list place := finditer_from (S (length text)) r None text.

Definition re_test (r : re) (text : list Z) : bool := match re_search r text with Some _ => true | None => false end.

(** [m.group(n)] *)
Definition group (n : nat) (s : place) : option (list Z) := snd <$> List.find (fun c => bool_decide (fst c = n)) (p_caps s).

(** ** Patterns *)

Definition chr (c : Z) : re := Chr (Z.eqb c).
Definition chri (c : Z) : re := Chr (fun d => lower_code d =? lower_code c).
Definition seqs (l : list re) : re := foldr Seq Eps l.
Definition lit (s : list Z) : re := seqs (chr <$> s).
Definition liti (s : list Z) : re := seqs (chri <$> s).
Definition opt (r : re) : re := Alt r Eps.
Definition star (r : re) : re := Star true r.
Definition plus (r : re) : re := Seq r (Star true r).
Definition star_lazy (r : re) : re := Star false r.
Definition plus_lazy (r : re) : re := Seq r (Star false r).
Definition rep (n : nat) (r : re) : re := seqs (replicate n r).
(** [r{n,m}] *)
Fixpoint upto (n : nat) (r : re) : re := match n with O => Eps | S n' => opt (Seq r (upto n' r)) end.
Definition repto (n m : nat) (r : re) : re := Seq (rep n r) (upto (m - n) r).

(** The classes [\s], [\d], [\w] (ASCII), [.] and the hexadecimal digits. *)
Definition sp : re := Chr is_space_code.
Definition dg : re := Chr is_digit_code.
Definition hexd : re := Chr is_hex_code.
Definition is_word_code (c : Z) : bool :=
  is_digit_code c || ((97 <=? lower_code c) && (lower_code c <=? 122)) || (c =? 95).
Definition wd : re := Chr is_word_code.
Definition dot : re := Chr (fun c => negb (c =? 10)).

(** [^] and [$], with and without MULTILINE, and [\b]. *)
Definition bol : re := Look (fun prev _ => match prev with None => true | _ => false end).
Definition bolm : re := Look (fun prev _ => match prev with None => true | Some c => c =? 10 end).
Definition eol : re := Look (fun _ rest => beq rest [] || beq rest [10]).
Definition eolm : re := Look (fun _ rest => match rest with [] => true | c :: _ => c =? 10 end).
Definition wordb : re := Look (fun prev rest =>
  xorb (match prev with Some c => is_word_code c | None => false end)
       (match rest with c :: _ => is_word_code c | [] => false end)).

(** ** What a pattern can match *)

Inductive rmatches : re -> place -> place -> Prop :=
  | m_eps s : rmatches Eps s s
  | m_chr p prev c l caps : p c = true -> rmatches (Chr p) (Place prev (c :: l) caps) (Place (Some c) l caps)
  | m_seq a b s s1 s2 : rmatches a s s1 -> rmatches b s1 s2 -> rmatches (Seq a b) s s2
  | m_altl a b s s' : rmatches a s s' -> rmatches (Alt a b) s s'
  | m_altr a b s s' : rmatches b s s' -> rmatches (Alt a b) s s'
  | m_group n a s s' : rmatches a s s' -> rmatches (Group n a) s (capture n s s')
  | m_look p s : p (p_prev s) (p_rest s) = true -> rmatches (Look p) s s
  | m_star_nil g a s : rmatches (Star g a) s s
  | m_star_more g a s s1 s2 :
      rmatches a s s1 -> (length (p_rest s1) < length (p_rest s))%nat -> rmatches (Star g a) s1 s2 -> rmatches (Star g a) s s2.

Create HintDb regex.
#[export] Hint Constructors rmatches : regex.

(** The repetition of the matcher, by name. *)
Definition loop {A} (greedy : bool) (a : re) (k : place -> option A) : nat -> place -> option A :=
  fix loop (n : nat) (s : place) : option A :=
    match n with
    | O => k s
    | S n' =>
        let more := rmatch a (fun s' => if (length (p_rest s') <? length (p_rest s))%nat then loop n' s' else None) in
        if greedy
        then match more s with Some x => Some x | None => k s end
        else match k s with Some x => Some x | None => more s end
    end.

Lemma rmatch_star {A} g a (k : place -> option A) s : rmatch (Star g a) k s = loop g a k (length (p_rest s)) s.
Proof. reflexivity. Qed.

(** The matcher only finds what the relation allows. *)
Lemma rmatch_sound {A} r (k : place -> option A) s x :
  rmatch r k s = Some x -> exists s', rmatches r s s' /\ k s' = Some x.
Proof.
  revert k s x. induction r as [|p|a IHa b IHb|a IHa b IHb|g a IHa|n a IHa|p]; intros k s x.
  - cbn. eauto with regex.
  - cbn. destruct s as [prev [|c l] caps]; cbn; [done|]. destruct (p c) eqn:E; [|done]. eauto with regex.
  - cbn. intros (s1 & H1 & (s2 & H2 & Hk)%IHb)%IHa. eauto with regex.
  - cbn. destruct (rmatch a k s) eqn:E; [intros [= <-]; apply IHa in E as (s' & ? & ?); eauto with regex|].
    intros (s' & ? & ?)%IHb. eauto with regex.
  - rewrite rmatch_star. generalize (length (p_rest s)) as n. intros n. revert s. induction n as [|n IHn]; intros s; cbn [loop]; [eauto with regex|].
    set (more := rmatch a _ s).
    assert (Hm : more = Some x -> exists s', rmatches (Star g a) s s' /\ k s' = Some x).
    { intros (s1 & H1 & H2)%IHa. destruct (_ <? _)%nat eqn:E; [|done]. apply Nat.ltb_lt in E.
      apply IHn in H2 as (s2 & H2 & Hk). eauto with regex. }
    destruct g.
    + destruct more eqn:Em; [intros [= ->]; by apply Hm|]. eauto with regex.
    + destruct (k s) eqn:Ek; [intros [= ->]; eauto with regex|apply Hm].
  - cbn. intros (s' & H1 & H2)%IHa. eauto with regex.
  - cbn. destruct (p _ _) eqn:E; [|done]. eauto with regex.
Qed.

(** And it finds a match when there is one. *)
Lemma rmatch_complete {A} r (k : place -> option A) s s' :
  rmatch r k s = None -> rmatches r s s' -> k s' = None.
Proof.
  revert k s s'. induction r as [|p|a IHa b IHb|a IHa b IHb|g a IHa|n a IHa|p]; intros k s s'.
  - cbn. intros Hk Hm. by inversion Hm; subst.
  - intros Hk Hm. inversion Hm; subst. cbn in Hk. rewrite H0 in Hk. done.
  - intros Hk Hm. inversion Hm; subst. cbn in Hk. eapply IHb; [|done]. by eapply IHa.
  - intros Hk Hm. cbn in Hk. destruct (rmatch a k s) eqn:E; [done|]. inversion Hm; subst; eauto.
  - rewrite rmatch_star. assert (Hle : (length (p_rest s) <= length (p_rest s))%nat) by done.
    revert Hle. generalize (length (p_rest s)) at 2 3 as n. intros n. revert s. induction n as [|n IHn]; intros s Hle Hk Hm.
    + cbn in Hk. inversion Hm; subst; [done|lia].
    + cbn [loop] in Hk. set (more := rmatch a _ s) in Hk.
      assert (Hks : k s = None /\ more = None) by (destruct g, more, (k s); done). destruct Hks as [Hks Hmore].
      inversion Hm as [| | | | | | |? ? ?|? ? ? s1 ? H1 Hlt H2]; subst; [done|].
      pose proof (IHa _ _ s1 Hmore H1) as Hl. cbn beta in Hl. apply Nat.ltb_lt in Hlt as E. rewrite E in Hl.
      eapply (IHn s1); [lia|done..].
  - intros Hk Hm. inversion Hm; subst. by eapply IHa in Hk.
  - intros Hk Hm. inversion Hm; subst. cbn in Hk. by rewrite H0 in Hk.
Qed.

(** ** Patterns by what they consume

  The character before the place once [w] has been consumed. *)
Definition after (w : list Z) (prev : option Z) : option Z := match last w with Some c => Some c | None => prev end.

Lemma after_app a b prev : after (a ++ b) prev = after b (after a prev).
Proof. unfold after. rewrite last_app. by destruct (last b), (last a). Qed.

Lemma after_cons c w prev : after (c :: w) prev = after w (Some c).
Proof. apply (after_app [c] w). Qed.

Lemma m_eps_iff s s' : rmatches Eps s s' <-> s' = s.
Proof. split; [by inversion 1|intros ->; constructor]. Qed.

Lemma m_seq_iff a b s s2 : rmatches (Seq a b) s s2 <-> exists s1, rmatches a s s1 /\ rmatches b s1 s2.
Proof. split; [inversion 1; eauto|intros (s1 & ? & ?); eauto with regex]. Qed.

Lemma m_alt_iff a b s s' : rmatches (Alt a b) s s' <-> rmatches a s s' \/ rmatches b s s'.
Proof. split; [inversion 1; auto|intros [?|?]; eauto with regex]. Qed.

Lemma m_group_iff n a s s' : rmatches (Group n a) s s' <-> exists s1, rmatches a s s1 /\ s' = capture n s s1.
Proof. split; [inversion 1; eauto|intros (s1 & ? & ->); eauto with regex]. Qed.

Lemma m_look_iff p s s' : rmatches (Look p) s s' <-> p (p_prev s) (p_rest s) = true /\ s' = s.
Proof. split; [inversion 1; eauto|intros [? ->]; eauto with regex]. Qed.

Lemma m_chr_iff p prev t caps s' :
  rmatches (Chr p) (Place prev t caps) s' <-> exists c r, t = c :: r /\ p c = true /\ s' = Place (Some c) r caps.
Proof. split; [inversion 1; eauto|intros (c & r & -> & ? & ->); by constructor]. Qed.

Lemma m_star_chr_iff g p prev t caps s' :
  rmatches (Star g (Chr p)) (Place prev t caps) s' <->
  exists w r, t = w ++ r /\ Forall (fun c => p c = true) w /\ s' = Place (after w prev) r caps.
Proof.
  split.
  - remember (Star g (Chr p)) as re eqn:Er. remember (Place prev t caps) as s eqn:Es. intros Hm. revert prev t caps Es.
    induction Hm; try done; intros prev0 t0 caps0 ->; injection Er as -> ->.
    + exists [], t0. by split_and!.
    + apply m_chr_iff in Hm1 as (c & r & -> & Hc & ->). destruct (IHHm2 eq_refl (Some c) r caps0 eq_refl) as (w & r' & -> & Hw & ->).
      exists (c :: w), r'. split_and!; [done|by constructor|]. f_equal. by rewrite after_cons.
  - intros (w & r & -> & Hw & ->). revert prev. induction Hw as [|c w Hc Hw IH]; intros prev; [apply m_star_nil|].
    eapply m_star_more; [apply m_chr_iff; by exists c, (w ++ r)|cbn; lia|]. rewrite after_cons. apply IH.
Qed.

Lemma m_lit_iff l prev t caps s' :
  rmatches (lit l) (Place prev t caps) s' <-> exists r, t = l ++ r /\ s' = Place (after l prev) r caps.
Proof.
  revert prev t. induction l as [|c l IH]; intros prev t; unfold lit in *; cbn [fmap list_fmap seqs foldr].
  - change (seqs (chr <$> [])) with Eps. rewrite m_eps_iff. split; [intros ->; by exists t|intros (r & -> & ->); done].
  - change (seqs (chr <$> c :: l)) with (Seq (chr c) (seqs (chr <$> l))). rewrite m_seq_iff. split.
    + intros (s1 & (d & r & -> & Hd & ->)%m_chr_iff & (r' & -> & ->)%IH). apply Z.eqb_eq in Hd as <-.
      exists r'. split; [done|]. by rewrite after_cons.
    + intros (r & -> & ->). exists (Place (Some c) (l ++ r) caps). split; [apply m_chr_iff; exists c, (l ++ r); by rewrite Z.eqb_refl|].
      apply IH. exists r. by rewrite after_cons.
Qed.

(** A search gives the first place, from the left, where the pattern matches. *)
Lemma search_from_some r prev text m :
  search_from r prev text = Some m ->
  exists pre post, text = pre ++ post /\ rmatch r Some (Place (after pre prev) post []) = Some m /\
    forall a b, text = a ++ b -> (length a < length pre)%nat -> rmatch r Some (Place (after a prev) b []) = None.
Proof.
  revert prev. induction text as [|c text IH]; intros prev; cbn [search_from].
  - destruct (rmatch r Some (Place prev [] [])) as [x|] eqn:E; [|done]. intros [= <-]. exists [], []. split_and!; [done|done|]. intros a b _ Hl. cbn in Hl. lia.
  - destruct (rmatch r Some (Place prev (c :: text) [])) as [x|] eqn:E.
    + intros [= <-]. exists [], (c :: text). split_and!; [done|done|]. intros a b _ Hl. cbn in Hl. lia.
    + intros (pre & post & -> & Hm & Hn)%IH. exists (c :: pre), post. split_and!; [done|by rewrite after_cons|].
      intros [|d a] b Hab Hl; cbn in *; [by subst b|]. injection Hab as <- Hab. rewrite after_cons. apply Hn; [done|lia].
Qed.

Lemma search_from_none r prev text :
  search_from r prev text = None -> forall a b, text = a ++ b -> rmatch r Some (Place (after a prev) b []) = None.
Proof.
  revert prev. induction text as [|c text IH]; intros prev; cbn [search_from].
  - destruct (rmatch r Some (Place prev [] [])) as [x|] eqn:E; [done|]. intros _ a b Hab. by destruct a, b.
  - destruct (rmatch r Some (Place prev (c :: text) [])) as [x|] eqn:E; [done|].
    intros Hn [|d a] b Hab; cbn in *; [by subst b|]. injection Hab as <- Hab. rewrite after_cons. by apply (IH (Some c)).
Qed.

(** ** Running the matcher on a text of known shape *)

Section Run.
Context {A : Type}.
Implicit Types (k : place -> option A).

Lemma rmatch_chr p k prev c r caps : p c = true -> rmatch (Chr p) k (Place prev (c :: r) caps) = k (Place (Some c) r caps).
Proof. intros Hc. cbn. by rewrite Hc. Qed.

(** A greedy run of a class takes all of it, if what follows then matches. *)
Lemma rmatch_star_all p k prev w r caps x :
  Forall (fun c => p c = true) w -> match r with [] => True | c :: _ => p c = false end ->
  k (Place (after w prev) r caps) = Some x -> rmatch (Star true (Chr p)) k (Place prev (w ++ r) caps) = Some x.
Proof.
  intros Hw Hr.
  assert (H : forall n prev, (length (w ++ r) <= n)%nat -> k (Place (after w prev) r caps) = Some x ->
    loop true (Chr p) k n (Place prev (w ++ r) caps) = Some x); [|intros Hk; rewrite rmatch_star; by apply H].
  clear prev.
  induction Hw as [|c w Hc Hw IH]; intros n prev Hn Hk.
  - destruct n as [|n]; [done|]. cbn [loop app rmatch p_rest]. destruct r as [|c r]; [done|]. by rewrite Hr.
  - destruct n as [|n]; [cbn in Hn; lia|]. cbn [loop app rmatch p_rest p_caps]. rewrite Hc.
    replace (length (w ++ r) <? length (c :: w ++ r))%nat with true by (symmetry; apply Nat.ltb_lt; cbn; lia).
    rewrite IH; [done|cbn in Hn; lia|]. by rewrite after_cons in Hk.
Qed.

Lemma rmatch_plus_all p k prev c w r caps x :
  p c = true -> Forall (fun c => p c = true) w -> match r with [] => True | c :: _ => p c = false end ->
  k (Place (after (c :: w) prev) r caps) = Some x -> rmatch (plus (Chr p)) k (Place prev (c :: w ++ r) caps) = Some x.
Proof.
  intros Hc Hw Hr Hk. unfold plus. cbn [rmatch p_rest p_caps]. rewrite Hc. apply rmatch_star_all; [done..|]. by rewrite after_cons in Hk.
Qed.

End Run.
