(* ===== verification/Crc.v ===== *)
(** * Checksums and ciphers

  Models [src/src/defib/protocol/crc.py] (the table-driven CRC-16 of the boot
  ROM frames), [crc16_xmodem] of [recovery/ymodem.py] (the bit-by-bit CRC-16),
  [rk_crc16] and [rc4] of [rockusb/codec.py], and the [zlib.crc32] of the
  Python standard library that the flash agent's packets carry.

  Python ints are unbounded, so [calc_crc] is modelled with the register that
  keeps growing and is cut to 16 bits only by the final mask. *)

From S2P Require Import Prelude.

(** ** protocol/crc.py *)

Definition CRC_TABLE : list Z :=
  [0x0000; 0x1021; 0x2042; 0x3063; 0x4084; 0x50A5; 0x60C6; 0x70E7;
   0x8108; 0x9129; 0xA14A; 0xB16B; 0xC18C; 0xD1AD; 0xE1CE; 0xF1EF;
   0x1231; 0x0210; 0x3273; 0x2252; 0x52B5; 0x4294; 0x72F7; 0x62D6;
   0x9339; 0x8318; 0xB37B; 0xA35A; 0xD3BD; 0xC39C; 0xF3FF; 0xE3DE;
   0x2462; 0x3443; 0x0420; 0x1401; 0x64E6; 0x74C7; 0x44A4; 0x5485;
   0xA56A; 0xB54B; 0x8528; 0x9509; 0xE5EE; 0xF5CF; 0xC5AC; 0xD58D;
   0x3653; 0x2672; 0x1611; 0x0630; 0x76D7; 0x66F6; 0x5695; 0x46B4;
   0xB75B; 0xA77A; 0x9719; 0x8738; 0xF7DF; 0xE7FE; 0xD79D; 0xC7BC;
   0x48C4; 0x58E5; 0x6886; 0x78A7; 0x0840; 0x1861; 0x2802; 0x3823;
   0xC9CC; 0xD9ED; 0xE98E; 0xF9AF; 0x8948; 0x9969; 0xA90A; 0xB92B;
   0x5AF5; 0x4AD4; 0x7AB7; 0x6A96; 0x1A71; 0x0A50; 0x3A33; 0x2A12;
   0xDBFD; 0xCBDC; 0xFBBF; 0xEB9E; 0x9B79; 0x8B58; 0xBB3B; 0xAB1A;
   0x6CA6; 0x7C87; 0x4CE4; 0x5CC5; 0x2C22; 0x3C03; 0x0C60; 0x1C41;
   0xEDAE; 0xFD8F; 0xCDEC; 0xDDCD; 0xAD2A; 0xBD0B; 0x8D68; 0x9D49;
   0x7E97; 0x6EB6; 0x5ED5; 0x4EF4; 0x3E13; 0x2E32; 0x1E51; 0x0E70;
   0xFF9F; 0xEFBE; 0xDFDD; 0xCFFC; 0xBF1B; 0xAF3A; 0x9F59; 0x8F78;
   0x9188; 0x81A9; 0xB1CA; 0xA1EB; 0xD10C; 0xC12D; 0xF14E; 0xE16F;
   0x1080; 0x00A1; 0x30C2; 0x20E3; 0x5004; 0x4025; 0x7046; 0x6067;
   0x83B9; 0x9398; 0xA3FB; 0xB3DA; 0xC33D; 0xD31C; 0xE37F; 0xF35E;
   0x02B1; 0x1290; 0x22F3; 0x32D2; 0x4235; 0x5214; 0x6277; 0x7256;
   0xB5EA; 0xA5CB; 0x95A8; 0x8589; 0xF56E; 0xE54F; 0xD52C; 0xC50D;
   0x34E2; 0x24C3; 0x14A0; 0x0481; 0x7466; 0x6447; 0x5424; 0x4405;
   0xA7DB; 0xB7FA; 0x8799; 0x97B8; 0xE75F; 0xF77E; 0xC71D; 0xD73C;
   0x26D3; 0x36F2; 0x0691; 0x16B0; 0x6657; 0x7676; 0x4615; 0x5634;
   0xD94C; 0xC96D; 0xF90E; 0xE92F; 0x99C8; 0x89E9; 0xB98A; 0xA9AB;
   0x5844; 0x4865; 0x7806; 0x6827; 0x18C0; 0x08E1; 0x3882; 0x28A3;
   0xCB7D; 0xDB5C; 0xEB3F; 0xFB1E; 0x8BF9; 0x9BD8; 0xABBB; 0xBB9A;
   0x4A75; 0x5A54; 0x6A37; 0x7A16; 0x0AF1; 0x1AD0; 0x2AB3; 0x3A92;
   0xFD2E; 0xED0F; 0xDD6C; 0xCD4D; 0xBDAA; 0xAD8B; 0x9DE8; 0x8DC9;
   0x7C26; 0x6C07; 0x5C64; 0x4C45; 0x3CA2; 0x2C83; 0x1CE0; 0x0CC1;
   0xEF1F; 0xFF3E; 0xCF5D; 0xDF7C; 0xAF9B; 0xBFBA; 0x8FD9; 0x9FF8;
   0x6E17; 0x7E36; 0x4E55; 0x5E74; 0x2E93; 0x3EB2; 0x0ED1; 0x1EF0].

Definition MAX_DATA_LEN : Z := 0x400.
Definition ACK_BYTE : bytes := [0xAA].
Definition ACK_VALUE : Z := 0xAA.

(** [CRC_TABLE[i]]; every use masks [i] with [0xFF]. *)
Definition crc_tbl (i : Z) : Z := nth (Z.to_nat i) CRC_TABLE 0.

(** One turn of the loop of [calc_crc]. *)
Definition crc_step (crc byte : Z) : Z :=
  Z.lxor (Z.lor (Z.shiftl crc 8) byte) (crc_tbl (Z.land (Z.shiftr crc 8) 0xFF)).

Definition calc_crc_from (data : bytes) (crc : Z) : Z :=
  let crc := foldl crc_step crc data in
  let crc := foldl crc_step crc [0; 0] in
  Z.land crc 0xFFFF.

Definition calc_crc (data : bytes) : Z := calc_crc_from data 0.

Definition append_crc (data : bytes) : bytes :=
  let crc := calc_crc data in
  data ++ [Z.land (Z.shiftr crc 8) 0xFF; Z.land crc 0xFF].

Definition append_crc_le (data : bytes) : bytes :=
  let crc := calc_crc data in
  data ++ [Z.land crc 0xFF; Z.land (Z.shiftr crc 8) 0xFF].

Definition verify_crc (frame : bytes) : bool :=
  if len frame <? 3 then false else
  let payload := but_last 2 frame in
  let expected := Z.lor (Z.shiftl (nth (length frame - 2) frame 0) 8)
                        (nth (length frame - 1) frame 0) in
  calc_crc payload =? expected.

(** ** recovery/ymodem.py: crc16_xmodem *)

Definition xmodem_bit (crc : Z) : Z :=
  if negb (Z.land crc 0x8000 =? 0)
  then Z.land (Z.lxor (Z.shiftl crc 1) 0x1021) 0xFFFF
  else Z.land (Z.shiftl crc 1) 0xFFFF.

Definition xmodem_byte (crc byte : Z) : Z :=
  Nat.iter 8 xmodem_bit (Z.lxor crc (Z.shiftl byte 8)).

Definition crc16_xmodem (data : bytes) : Z := foldl xmodem_byte 0 data.

(** ** rockusb/codec.py *)

Definition CRC16_INIT : Z := 0xFFFF.

Definition rk_crc16_step (crc byte : Z) : Z :=
  Z.lxor (Z.land (Z.shiftl crc 8) 0xFFFF)
         (crc_tbl (Z.land (Z.lxor (Z.shiftr crc 8) byte) 0xFF)).

Definition rk_crc16_from (data : bytes) (crc : Z) : Z :=
  Z.land (foldl rk_crc16_step crc data) 0xFFFF.

Definition rk_crc16 (data : bytes) : Z := rk_crc16_from data CRC16_INIT.

Definition RK_RC4_KEY : bytes :=
  [124; 78; 3; 4; 85; 5; 9; 7; 45; 44; 123; 56; 23; 13; 23; 17].

(** [s[i]] of the 256-entry permutation, and [s[i], s[j] = s[j], s[i]]. *)
Definition rc4_get (s : list Z) (i : Z) : Z := nth (Z.to_nat i) s 0.

Definition rc4_swap (s : list Z) (i j : Z) : list Z :=
  <[Z.to_nat j := rc4_get s i]> (<[Z.to_nat i := rc4_get s j]> s).

(** Key schedule: the loop over [range(256)]. *)
Definition rc4_ksa_step (key : bytes) (st : list Z * Z) (i : Z) : list Z * Z :=
  let '(s, j) := st in
  let j := Z.land (j + rc4_get s i + nth (Z.to_nat (i mod len key)) key 0) 0xFF in
  (rc4_swap s i j, j).

Definition rc4_ksa (key : bytes) : list Z :=
  fst (foldl (rc4_ksa_step key) (range 256, 0) (range 256)).

(** Keystream: the loop over the data. *)
Fixpoint rc4_stream (data : bytes) (s : list Z) (i j : Z) : bytes :=
  match data with
  | [] => []
  | byte :: data' =>
      let i := Z.land (i + 1) 0xFF in
      let j := Z.land (j + rc4_get s i) 0xFF in
      let s := rc4_swap s i j in
      Z.lxor byte (rc4_get s (Z.land (rc4_get s i + rc4_get s j) 0xFF))
        :: rc4_stream data' s i j
  end.

Definition rc4 (data key : bytes) : bytes := rc4_stream data (rc4_ksa key) 0 0.

(** ** zlib.crc32 (Python standard library): the reflected CRC-32 of RFC 1952 *)

Definition crc32_bit (c : Z) : Z :=
  if Z.testbit c 0 then Z.lxor (Z.shiftr c 1) 0xEDB88320 else Z.shiftr c 1.

Definition crc32_byte (c byte : Z) : Z := Nat.iter 8 crc32_bit (Z.lxor c byte).

(** [zlib.crc32(data, value)] *)
Definition crc32_from (data : bytes) (value : Z) : Z :=
  Z.lxor (foldl crc32_byte (Z.lxor value 0xFFFFFFFF) data) 0xFFFFFFFF.

Definition crc32 (data : bytes) : Z := crc32_from data 0.

(** ** Bit lemmas *)

Definition b16 (c : Z) : Prop := 0 <= c < 65536.

Lemma land_ones16 c : Z.land c 0xFFFF = c mod 65536.
Proof. apply (Z.land_ones c 16). lia. Qed.

Lemma land_ones8 c : Z.land c 0xFF = c mod 256.
Proof. apply (Z.land_ones c 8). lia. Qed.

Lemma land_b16 c : b16 (Z.land c 0xFFFF).
Proof. rewrite land_ones16. unfold b16. apply Z.mod_pos_bound. lia. Qed.

Lemma b16_land c : b16 c -> Z.land c 0xFFFF = c.
Proof. intros. rewrite land_ones16. by apply Z.mod_small. Qed.

Lemma lxor_b16 a b : b16 a -> b16 b -> b16 (Z.lxor a b).
Proof.
  intros Ha Hb. rewrite <- (b16_land a Ha), <- (b16_land b Hb).
  replace (Z.lxor _ _) with (Z.land (Z.lxor a b) 0xFFFF) by zbits. apply land_b16.
Qed.

Lemma land_lxor a b m : Z.land (Z.lxor a b) m = Z.lxor (Z.land a m) (Z.land b m).
Proof. zbits. Qed.

(** A value is its high part and its low byte. *)
Lemma split_byte c : c = Z.lxor (Z.shiftl (Z.shiftr c 8) 8) (Z.land c 0xFF).
Proof.
  apply Z.bits_inj'; intros n Hn. change 0xFF with (Z.ones 8).
  rewrite Z.lxor_spec, Z.shiftl_spec, Z.land_spec by lia.
  destruct (Z.lt_ge_cases n 8).
  - rewrite (Z.testbit_neg_r _ (n - 8)), Z.ones_spec_low by lia. by destruct (Z.testbit c n).
  - rewrite Z.ones_spec_high, Z.shiftr_spec, Z.sub_add by lia. by destruct (Z.testbit c n).
Qed.

Lemma is_byte_land b : is_byte b -> Z.land b 0xFF = b.
Proof. intros. rewrite land_ones8. by apply Z.mod_small. Qed.

Lemma land_is_byte b : is_byte (Z.land b 0xFF).
Proof. rewrite land_ones8. unfold is_byte. apply Z.mod_pos_bound. lia. Qed.

Lemma lor_lxor_byte c b : is_byte b -> Z.lor (Z.shiftl c 8) b = Z.lxor (Z.shiftl c 8) b.
Proof.
  intros Hb. rewrite <- (is_byte_land b Hb). apply Z.bits_inj'; intros n Hn.
  change 0xFF with (Z.ones 8). rewrite Z.lxor_spec, Z.lor_spec, Z.shiftl_spec, Z.land_spec by lia.
  destruct (Z.lt_ge_cases n 8).
  - rewrite Z.testbit_neg_r by lia. by destruct (Z.testbit b n && _).
  - rewrite Z.ones_spec_high, andb_false_r by lia. by destruct (Z.testbit c _).
Qed.

(** ** The polynomial step is linear and injective *)

Lemma land_bit15 c : negb (Z.land c 0x8000 =? 0) = Z.testbit c 15.
Proof.
  assert (Z.land c 0x8000 = if Z.testbit c 15 then 0x8000 else 0) as ->;
    [|by destruct (Z.testbit c 15)].
  apply Z.bits_inj'; intros n Hn. rewrite Z.land_spec. change 0x8000 with (2 ^ 15).
  destruct (decide (n = 15)) as [->|].
  - rewrite Z.pow2_bits_true, andb_true_r by lia. by destruct (Z.testbit c 15).
  - rewrite Z.pow2_bits_false, andb_false_r by lia.
    destruct (Z.testbit c 15); [|by rewrite Z.bits_0]. by rewrite Z.pow2_bits_false by lia.
Qed.

Lemma xmodem_bit_alt c :
  xmodem_bit c = Z.land (Z.lxor (Z.shiftl c 1) (if Z.testbit c 15 then 0x1021 else 0)) 0xFFFF.
Proof.
  unfold xmodem_bit. rewrite land_bit15.
  destruct (Z.testbit c 15); [done | by rewrite Z.lxor_0_r].
Qed.

Lemma xmodem_bit_lxor a b : xmodem_bit (Z.lxor a b) = Z.lxor (xmodem_bit a) (xmodem_bit b).
Proof.
  rewrite !xmodem_bit_alt, Z.lxor_spec, Z.shiftl_lxor, !land_lxor.
  destruct (Z.testbit a 15), (Z.testbit b 15); cbn [xorb]; zbits.
Qed.

Lemma xmodem_bit_b16 c : b16 (xmodem_bit c).
Proof. rewrite xmodem_bit_alt. apply land_b16. Qed.

Lemma xmodem_bit_0_inv c : b16 c -> xmodem_bit c = 0 -> c = 0.
Proof.
  intros Hc H. rewrite xmodem_bit_alt in H. apply Z.bits_inj'; intros n Hn. rewrite Z.bits_0.
  destruct (Z.testbit c 15) eqn:E.
  - apply (f_equal (fun z => Z.testbit z 0)) in H. revert H.
    by rewrite Z.land_spec, Z.lxor_spec, Z.shiftl_spec_low by lia.
  - destruct (Z.lt_ge_cases n 15) as [?|[?|<-]%Zle_lt_or_eq]; [|..|done].
    + apply (f_equal (fun z => Z.testbit z (n + 1))) in H. revert H.
      rewrite Z.lxor_0_r, Z.land_spec, Z.shiftl_spec, Z.bits_0, Z.add_simpl_r by lia.
      change 0xFFFF with (Z.ones 16). by rewrite Z.ones_spec_low, andb_true_r by lia.
    + rewrite <- (b16_land c Hc). change 0xFFFF with (Z.ones 16).
      by rewrite Z.land_spec, Z.ones_spec_high, andb_false_r by lia.
Qed.

(** Multiplication of the remainder by x^8: eight polynomial steps. *)
Definition mul_x8 (c : Z) : Z := Nat.iter 8 xmodem_bit c.

Lemma mul_x8_lxor a b : mul_x8 (Z.lxor a b) = Z.lxor (mul_x8 a) (mul_x8 b).
Proof. unfold mul_x8. cbn [Nat.iter nat_rect]. by rewrite !xmodem_bit_lxor. Qed.

Lemma mul_x8_b16 c : b16 (mul_x8 c).
Proof. apply xmodem_bit_b16. Qed.

Lemma mul_x8_0_inv c : b16 c -> mul_x8 c = 0 -> c = 0.
Proof.
  unfold mul_x8. cbn [Nat.iter nat_rect]. intros Hc H.
  repeat (apply xmodem_bit_0_inv in H; [|auto using xmodem_bit_b16]). done.
Qed.

(** Checking a statement on the 256 byte values. *)
Lemma byte_cases (P : Z -> bool) :
  forallb P (range 256) = true -> forall b, is_byte b -> P b = true.
Proof.
  intros H b Hb. rewrite forallb_forall in H. apply H.
  apply list_elem_of_In. unfold range. apply list_elem_of_fmap.
  exists (Z.to_nat b). unfold is_byte in Hb. split; [lia | apply elem_of_seq; lia].
Qed.

(** The table holds the remainders of the high byte: it is the table of the
    polynomial 0x1021. *)
Lemma crc_tbl_spec i : is_byte i -> crc_tbl i = mul_x8 (Z.shiftl i 8).
Proof.
  intros. apply Z.eqb_eq.
  apply (byte_cases (fun i => crc_tbl i =? mul_x8 (Z.shiftl i 8))); [by vm_compute | done].
Qed.

Lemma mul_x8_low b : is_byte b -> mul_x8 b = Z.shiftl b 8.
Proof.
  intros. apply Z.eqb_eq.
  apply (byte_cases (fun i => mul_x8 i =? Z.shiftl i 8)); [by vm_compute | done].
Qed.

Lemma xmodem_bit_mod c : xmodem_bit (Z.land c 0xFFFF) = xmodem_bit c.
Proof.
  rewrite !xmodem_bit_alt. change 0xFFFF with (Z.ones 16).
  rewrite Z.land_spec, (Z.ones_spec_low 16 15), andb_true_r by lia.
  apply Z.bits_inj'; intros n Hn. autorewrite with zbits.
  destruct (Z.lt_ge_cases n 16); [|by rewrite (Z.ones_spec_high 16 n), !andb_false_r by lia].
  destruct (Z.lt_ge_cases (n - 1) 0).
  - by rewrite !(Z.testbit_neg_r _ (n - 1)) by lia.
  - by rewrite (Z.ones_spec_low 16 (n - 1)), andb_true_r by lia.
Qed.

Lemma mul_x8_mod c : mul_x8 (Z.land c 0xFFFF) = mul_x8 c.
Proof. unfold mul_x8. cbn [Nat.iter nat_rect]. by rewrite xmodem_bit_mod. Qed.

(** One table step multiplies by x^8. *)
Lemma mul_x8_table c :
  mul_x8 c = Z.lxor (Z.land (Z.shiftl c 8) 0xFFFF) (crc_tbl (Z.land (Z.shiftr c 8) 0xFF)).
Proof.
  rewrite <- mul_x8_mod, (split_byte (Z.land c 0xFFFF)), mul_x8_lxor.
  rewrite (mul_x8_low (Z.land _ 0xFF)) by apply land_is_byte.
  rewrite crc_tbl_spec by apply land_is_byte. rewrite Z.lxor_comm. f_equal.
  - change 0xFFFF with (Z.ones 16). change 0xFF with (Z.ones 8).
    apply Z.bits_inj'; intros n Hn. autorewrite with zbits.
    destruct (Z.lt_ge_cases n 8).
    { by rewrite !(Z.testbit_neg_r _ (n - 8)) by lia. }
    destruct (Z.lt_ge_cases n 16).
    + by rewrite !Z.ones_spec_low, !andb_true_r by lia.
    + by rewrite (Z.ones_spec_high 8), (Z.ones_spec_high 16 n), !andb_false_r by lia.
  - f_equal. f_equal. change 0xFFFF with (Z.ones 16). change 0xFF with (Z.ones 8).
    apply Z.bits_inj'; intros n Hn. autorewrite with zbits.
    destruct (Z.lt_ge_cases n 8).
    + by rewrite !Z.ones_spec_low by lia.
    + by rewrite (Z.ones_spec_high 8), (Z.ones_spec_high 16), !andb_false_r by lia.
Qed.

(** ** The algorithms agree *)

(** The augmented register of [calc_crc], cut to 16 bits. *)
Definition aug_step (c b : Z) : Z := Z.lxor (mul_x8 c) b.

Lemma is_byte_b16 b : is_byte b -> b16 b.
Proof. unfold is_byte, b16. lia. Qed.

Lemma aug_step_b16 c b : is_byte b -> b16 (aug_step c b).
Proof. intros. apply lxor_b16; [apply mul_x8_b16 | by apply is_byte_b16]. Qed.

Lemma crc_step_aug c b :
  is_byte b -> Z.land (crc_step c b) 0xFFFF = aug_step c b.
Proof.
  intros Hb. unfold crc_step, aug_step. rewrite lor_lxor_byte by done.
  rewrite !land_lxor, (b16_land b) by by apply is_byte_b16.
  rewrite mul_x8_table, (b16_land (crc_tbl _)).
  - rewrite Z.lxor_assoc, (Z.lxor_comm b), <- Z.lxor_assoc. done.
  - rewrite crc_tbl_spec by apply land_is_byte. apply mul_x8_b16.
Qed.

Lemma aug_step_mod c b : aug_step (Z.land c 0xFFFF) b = aug_step c b.
Proof. unfold aug_step. by rewrite mul_x8_mod. Qed.

Lemma crc_fold_aug data c :
  is_bytes data ->
  Z.land (foldl crc_step c data) 0xFFFF = foldl aug_step (Z.land c 0xFFFF) data.
Proof.
  intros Hd. revert c. induction Hd as [|b data Hb Hd IH]; intros c; cbn [foldl]; [done|].
  rewrite IH. f_equal. rewrite crc_step_aug, aug_step_mod by done. done.
Qed.

Lemma calc_crc_from_aug data c :
  is_bytes data ->
  calc_crc_from data c = mul_x8 (mul_x8 (foldl aug_step (Z.land c 0xFFFF) data)).
Proof.
  intros Hd. unfold calc_crc_from. rewrite <- foldl_app.
  assert (is_bytes [0; 0]) by (repeat constructor; unfold is_byte; lia).
  rewrite crc_fold_aug by (by apply Forall_app).
  rewrite foldl_app. cbn. unfold aug_step. by rewrite !Z.lxor_0_r.
Qed.

Lemma xmodem_byte_mul c b : xmodem_byte c b = Z.lxor (mul_x8 c) (mul_x8 (Z.shiftl b 8)).
Proof. unfold xmodem_byte. fold (mul_x8 (Z.lxor c (Z.shiftl b 8))). apply mul_x8_lxor. Qed.

Lemma xmodem_fold_aug data c :
  is_bytes data ->
  foldl xmodem_byte (mul_x8 (mul_x8 c)) data = mul_x8 (mul_x8 (foldl aug_step c data)).
Proof.
  intros Hd. revert c. induction Hd as [|b data Hb Hd IH]; intros c; cbn [foldl]; [done|].
  rewrite <- IH. f_equal. rewrite xmodem_byte_mul. unfold aug_step.
  by rewrite !mul_x8_lxor, (mul_x8_low b).
Qed.

Lemma foldl_aug_b16 data c : is_bytes data -> b16 c -> b16 (foldl aug_step c data).
Proof.
  intros Hd. revert c. induction Hd; intros c Hc; cbn; auto using aug_step_b16.
Qed.

Lemma calc_crc_b16 data : b16 (calc_crc data).
Proof. apply land_b16. Qed.

Lemma crc_byte_parts c : b16 c ->
  is_byte (Z.land (Z.shiftr c 8) 0xFF) /\ is_byte (Z.land c 0xFF) /\
  Z.lor (Z.shiftl (Z.land (Z.shiftr c 8) 0xFF) 8) (Z.land c 0xFF) = c.
Proof.
  intros Hc. split; [apply land_is_byte|]. split; [apply land_is_byte|].
  rewrite lor_lxor_byte by apply land_is_byte.
  rewrite (land_ones8 (Z.shiftr c 8)), Z.mod_small; [by rewrite <- split_byte|].
  rewrite Z.shiftr_div_pow2 by lia. unfold b16 in Hc. change (2 ^ 8) with 256.
  split; [apply Z.div_pos; lia | apply Z.div_lt_upper_bound; lia].
Qed.

Lemma append_crc_is_bytes data : is_bytes data -> is_bytes (append_crc data).
Proof.
  intros. unfold append_crc. apply Forall_app; split; [done|].
  repeat constructor; apply land_is_byte.
Qed.

Lemma append_crc_len data : len (append_crc data) = len data + 2.
Proof. unfold append_crc. by rewrite len_app. Qed.

(** A frame verifies exactly when its augmented register is zero. *)
Lemma verify_crc_aug payload h l :
  payload <> [] -> is_bytes payload -> is_byte h -> is_byte l ->
  verify_crc (payload ++ [h; l]) = (foldl aug_step 0 (payload ++ [h; l]) =? 0).
Proof.
  intros Hne Hp Hh Hl. unfold verify_crc.
  assert (0 < len payload).
  { pose proof (len_nonneg payload). destruct (Z.eq_dec (len payload) 0); [|lia].
    by apply len_0_nil in e. }
  rewrite len_app, !len_cons, len_nil.
  replace (_ <? 3) with false by (symmetry; apply Z.ltb_ge; lia).
  rewrite but_last_app by done. rewrite length_app; cbn [length].
  rewrite !app_nth2 by lia.
  replace (length payload + 2 - 2 - length payload)%nat with 0%nat by lia.
  replace (length payload + 2 - 1 - length payload)%nat with 1%nat by lia. cbn [nth].
  unfold calc_crc. rewrite calc_crc_from_aug, foldl_app by done. cbn [foldl Z.land].
  change (Z.land 0 0xFFFF) with 0. set (R := foldl aug_step 0 payload). unfold aug_step.
  rewrite mul_x8_lxor, (mul_x8_low h), lor_lxor_byte by done.
  rewrite Z.lxor_assoc.
  apply eq_true_iff_eq. rewrite !Z.eqb_eq. symmetry. apply Z.lxor_eq_0_iff.
Qed.

Lemma aug_fold_lxor xs ys a b :
  length xs = length ys ->
  Z.lxor (foldl aug_step a xs) (foldl aug_step b ys) =
  foldl aug_step (Z.lxor a b) (zip_with Z.lxor xs ys).
Proof.
  revert ys a b. induction xs as [|x xs IH]; intros [|y ys] a b Hl; try done.
  cbn in *. rewrite IH by lia. f_equal. unfold aug_step. rewrite mul_x8_lxor. zbits.
Qed.

Lemma aug_fold_zeros n c : b16 c -> c <> 0 -> foldl aug_step c (replicate n 0) <> 0.
Proof.
  revert c. induction n as [|n IH]; intros c Hc Hn; cbn; [done|].
  apply IH; [by apply aug_step_b16|]. unfold aug_step. rewrite Z.lxor_0_r.
  contradict Hn. by apply mul_x8_0_inv.
Qed.

Lemma zip_lxor_self (l : bytes) : zip_with Z.lxor l l = replicate (length l) 0.
Proof. induction l; cbn; [done|]. by rewrite Z.lxor_nilpotent, IHl. Qed.

Lemma aug_fold_zeros_0 n : foldl aug_step 0 (replicate n 0) = 0.
Proof. induction n; [done|]. cbn [replicate foldl]. by change (aug_step 0 0) with 0. Qed.

(** Two frames that differ only in two neighbouring bytes have different
    registers. *)
Lemma aug_burst pre post x y x' y' :
  is_byte x -> is_byte y -> is_byte x' -> is_byte y' -> (x, y) <> (x', y') ->
  foldl aug_step 0 (pre ++ [x; y] ++ post) <> foldl aug_step 0 (pre ++ [x'; y'] ++ post).
Proof.
  intros Hx Hy Hx' Hy' Hne Heq. apply Z.lxor_eq_0_iff in Heq. revert Heq.
  rewrite aug_fold_lxor by (rewrite !length_app; done).
  rewrite zip_with_app by done. rewrite zip_with_app by done.
  rewrite !zip_lxor_self, !foldl_app, Z.lxor_nilpotent, aug_fold_zeros_0. cbn [zip_with foldl].
  assert (Hbx : is_byte (Z.lxor x x')).
  { rewrite <- (is_byte_land x), <- (is_byte_land x'), <- land_lxor by done. apply land_is_byte. }
  assert (Hby : is_byte (Z.lxor y y')).
  { rewrite <- (is_byte_land y), <- (is_byte_land y'), <- land_lxor by done. apply land_is_byte. }
  apply aug_fold_zeros; [by apply aug_step_b16|].
  unfold aug_step. change (mul_x8 0) with 0. rewrite Z.lxor_0_l, mul_x8_low by done.
  intros H. apply Z.lxor_eq in H. apply Hne.
  unfold is_byte in *. rewrite Z.shiftl_mul_pow2 in H by lia.
  change (2 ^ 8) with 256 in H.
  assert (Z.lxor x x' = 0 /\ Z.lxor y y' = 0) as [E1 E2].
  { revert Hbx Hby H. generalize (Z.lxor x x') (Z.lxor y y'). clear. intros. lia. }
  apply Z.lxor_eq in E1, E2. congruence.
Qed.

(** ** RC4 *)

Lemma rc4_stream_involutive data s i j :
  rc4_stream (rc4_stream data s i j) s i j = data.
Proof.
  revert s i j. induction data as [|b data IH]; intros s i j; cbn [rc4_stream]; [done|].
  rewrite IH, Z.lxor_assoc, Z.lxor_nilpotent, Z.lxor_0_r. done.
Qed.

Lemma rc4_get_is_byte s i : is_bytes s -> is_byte (rc4_get s i).
Proof.
  intros Hs. unfold rc4_get. destruct (nth_in_or_default (Z.to_nat i) s 0) as [H| ->].
  - rewrite Forall_forall in Hs. apply (Hs _). by rewrite list_elem_of_In.
  - unfold is_byte. lia.
Qed.

Lemma rc4_swap_is_bytes s i j : is_bytes s -> is_bytes (rc4_swap s i j).
Proof. intros. unfold rc4_swap. auto using Forall_insert, rc4_get_is_byte. Qed.

Lemma lxor_is_byte a b : is_byte a -> is_byte b -> is_byte (Z.lxor a b).
Proof.
  intros. rewrite <- (is_byte_land a), <- (is_byte_land b), <- land_lxor by done. apply land_is_byte.
Qed.

Lemma rc4_stream_is_bytes data s i j :
  is_bytes data -> is_bytes s -> is_bytes (rc4_stream data s i j).
Proof.
  intros Hd. revert s i j. induction Hd; intros s i j Hs; cbn [rc4_stream]; constructor;
    auto using lxor_is_byte, rc4_get_is_byte, rc4_swap_is_bytes.
Qed.

Lemma rc4_stream_length data s i j : length (rc4_stream data s i j) = length data.
Proof. revert s i j. induction data; intros; cbn; auto. Qed.

Lemma rc4_ksa_is_bytes key : is_bytes (rc4_ksa key).
Proof.
  unfold rc4_ksa.
  assert (forall l s j, is_bytes s -> is_bytes (fst (foldl (rc4_ksa_step key) (s, j) l))) as H.
  { induction l as [|i l IH]; intros s j Hs; cbn [foldl]; [done|].
    apply IH. by apply rc4_swap_is_bytes. }
  apply H. apply Forall_forall. intros x. unfold range. intros Hx.
  apply list_elem_of_fmap in Hx as (k & -> & Hk). apply elem_of_seq in Hk. unfold is_byte. lia.
Qed.

(** ** CRC-32 *)

Definition b32 (c : Z) : Prop := 0 <= c < 2 ^ 32.

Lemma land_b32 c : b32 c <-> Z.land c (Z.ones 32) = c.
Proof.
  rewrite Z.land_ones by lia. unfold b32. split; intros.
  - by apply Z.mod_small.
  - rewrite <- H. apply Z.mod_pos_bound. lia.
Qed.

Lemma lxor_b32 a b : b32 a -> b32 b -> b32 (Z.lxor a b).
Proof. rewrite !land_b32. intros Ha Hb. rewrite <- Ha, <- Hb at 2. rewrite <- Ha at 1. zbits. Qed.

Lemma crc32_bit_b32 c : b32 c -> b32 (crc32_bit c).
Proof.
  intros Hc. assert (b32 (Z.shiftr c 1)).
  { unfold b32 in *. rewrite Z.shiftr_div_pow2 by lia.
    split; [apply Z.div_pos; lia | apply Z.div_lt_upper_bound; lia]. }
  unfold crc32_bit. destruct (Z.testbit c 0); [|done]. apply lxor_b32; [done|]. by vm_compute.
Qed.

Lemma crc32_byte_b32 c b : b32 c -> is_byte b -> b32 (crc32_byte c b).
Proof.
  intros Hc Hb. unfold crc32_byte. cbn [Nat.iter nat_rect].
  assert (b32 b) by (unfold b32, is_byte in *; lia).
  repeat apply crc32_bit_b32. by apply lxor_b32.
Qed.

Lemma crc32_from_b32 data v : is_bytes data -> b32 v -> b32 (crc32_from data v).
Proof.
  intros Hd Hv. unfold crc32_from. assert (b32 0xFFFFFFFF) by by vm_compute.
  apply lxor_b32; [|done].
  assert (b32 (Z.lxor v 0xFFFFFFFF)) as Hi by by apply lxor_b32. revert Hi.
  generalize (Z.lxor v 0xFFFFFFFF). induction Hd; intros c Hc; cbn [foldl]; auto using crc32_byte_b32.
Qed.

Lemma crc32_b32 data : is_bytes data -> b32 (crc32 data).
Proof. intros. apply crc32_from_b32; [done | by vm_compute]. Qed.

(** [zlib.crc32] of a concatenation is the continued [zlib.crc32]. *)
Lemma crc32_from_app a b v : crc32_from (a ++ b) v = crc32_from b (crc32_from a v).
Proof.
  unfold crc32_from. rewrite foldl_app. f_equal.
  by rewrite Z.lxor_assoc, Z.lxor_nilpotent, Z.lxor_0_r.
Qed.

(** ** Properties *)

Lemma rk_step_xmodem c b : is_byte b -> b16 c -> rk_crc16_step c b = xmodem_byte c b.
Proof.
  intros Hb Hc. rewrite xmodem_byte_mul, <- crc_tbl_spec by done.
  unfold rk_crc16_step. rewrite mul_x8_table, Z.lxor_assoc. f_equal.
  rewrite !crc_tbl_spec by (apply land_is_byte || done).
  rewrite <- mul_x8_lxor, <- Z.shiftl_lxor, land_lxor, (is_byte_land b) by done. done.
Qed.

Lemma xmodem_byte_b16 c b : b16 (xmodem_byte c b).
Proof. rewrite xmodem_byte_mul. apply lxor_b16; apply mul_x8_b16. Qed.

Lemma rk_fold_xmodem data c :
  is_bytes data -> b16 c -> foldl rk_crc16_step c data = foldl xmodem_byte c data /\
                            b16 (foldl xmodem_byte c data).
Proof.
  intros Hd. revert c. induction Hd as [|b data Hb Hd IH]; intros c Hc; cbn [foldl]; [done|].
  rewrite rk_step_xmodem by done. apply IH, xmodem_byte_b16.
Qed.

(** The table-driven CRC of the boot ROM frames ([calc_crc], an augmented
    register that grows without bound and is masked at the end), the
    bit-by-bit CRC of YMODEM ([crc16_xmodem]) and the Rockchip CRC
    ([rk_crc16], run from seed 0) compute the same function on every byte
    string, and the result always fits 16 bits. *)
Theorem calc_crc_equiv (data : bytes) :
  is_bytes data ->
  calc_crc data = crc16_xmodem data /\ rk_crc16_from data 0 = crc16_xmodem data /\
  0 <= calc_crc data < 65536.
Proof.
  intros Hd. split; [|split; [|apply calc_crc_b16]].
  - unfold calc_crc, crc16_xmodem. rewrite calc_crc_from_aug by done.
    change (Z.land 0 0xFFFF) with 0. by rewrite <- (xmodem_fold_aug data 0).
  - destruct (rk_fold_xmodem data 0 Hd) as [H1 H2]; [by vm_compute|].
    unfold rk_crc16_from, crc16_xmodem. rewrite H1. by apply b16_land.
Qed.

Theorem calc_crc_equiv_witness :
  calc_crc [49; 50; 51] = crc16_xmodem [49; 50; 51] /\
  rk_crc16_from [49; 50; 51] 0 = crc16_xmodem [49; 50; 51] /\ 0 <= calc_crc [49; 50; 51] < 65536.
Proof. apply calc_crc_equiv. repeat constructor; unfold is_byte; lia. Defined.

Lemma append_crc_aug p : is_bytes p -> foldl aug_step 0 (append_crc p) = 0.
Proof.
  intros Hp. unfold append_crc. rewrite foldl_app. cbn [foldl].
  destruct (crc_byte_parts (calc_crc p) (calc_crc_b16 p)) as (Hh & Hl & Heq).
  unfold aug_step at 1 2. rewrite mul_x8_lxor, (mul_x8_low (Z.land _ _)) by done.
  rewrite Z.lxor_assoc, <- lor_lxor_byte, Heq by done.
  unfold calc_crc at 1. rewrite calc_crc_from_aug by done.
  change (Z.land 0 0xFFFF) with 0. apply Z.lxor_nilpotent.
Qed.

Lemma verify_append_crc p : p <> [] -> is_bytes p -> verify_crc (append_crc p) = true.
Proof.
  intros Hne Hp. unfold append_crc. rewrite verify_crc_aug; [|done|done|apply land_is_byte..].
  fold (append_crc p). by rewrite append_crc_aug.
Qed.

(** A frame built by [append_crc] passes [verify_crc], and any frame of
    the same shape that differs from it in one byte or in two neighbouring
    bytes, wherever they are (CRC field included), fails it. *)
Theorem append_verify_crc (p pre post : bytes) (x y x' y' : Z) :
  p <> [] -> is_bytes p -> append_crc p = pre ++ [x; y] ++ post ->
  is_byte x' -> is_byte y' -> (x', y') <> (x, y) ->
  verify_crc (append_crc p) = true /\ verify_crc (pre ++ [x'; y'] ++ post) = false.
Proof.
  intros Hne Hp Heq Hx' Hy' Hd.
  pose proof (append_crc_is_bytes p Hp) as Hb. pose proof (append_crc_aug p Hp) as Ha.
  assert (Hlen : length (pre ++ [x'; y'] ++ post) = S (S (length p))).
  { apply (f_equal length) in Heq. revert Heq. unfold append_crc. rewrite !length_app. cbn. lia. }
  split.
  - by apply verify_append_crc.
  - assert (Hb' : is_bytes (pre ++ [x'; y'] ++ post)).
    { rewrite Heq, !Forall_app in Hb. destruct Hb as (? & _ & ?). rewrite !Forall_app.
      split; [done|]. split; [|done]. rewrite !Forall_cons. by split; [|split]. }
    pose proof (aug_burst pre post x' y' x y) as Hburst.
    rewrite <- Heq, Ha in Hburst.
    rewrite Heq, !Forall_app, !Forall_cons in Hb. destruct Hb as (_ & (? & ? & _) & _).
    revert Hlen Hb' Hburst. generalize (pre ++ [x'; y'] ++ post). intros f Hlen Hb' Hburst.
    destruct (exists_last (l := f)) as (f1 & l & ->); [by destruct f|].
    rewrite length_app in Hlen. cbn in Hlen.
    destruct (exists_last (l := f1)) as (q & h & ->); [destruct f1; [|done]; cbn in Hlen; lia|].
    rewrite <- app_assoc in *. cbn [app] in *.
    rewrite !Forall_app, !Forall_cons in Hb'. destruct Hb' as (? & ? & ? & _).
    rewrite verify_crc_aug; [| |done..]; [by apply Z.eqb_neq, Hburst|].
    intros ->. destruct p; [done|]. cbn in Hlen. lia.
Qed.

Theorem append_verify_crc_witness :
  verify_crc (append_crc [1; 2]) = true /\ verify_crc ([1] ++ [3; 0x13] ++ [0x73]) = false.
Proof.
  apply (append_verify_crc [1; 2] [1] [0x73] 2 0x13 3 0x13); try done.
  repeat constructor; done.
Defined.

(** [rc4] is its own inverse for every key and buffer, keeps the length,
    and maps bytes to bytes, so the MaskROM upload can be decrypted by the
    same routine. *)
Theorem rc4_self_inverse (data key : bytes) :
  rc4 (rc4 data key) key = data /\ len (rc4 data key) = len data /\
  (is_bytes data -> is_bytes (rc4 data key)).
Proof.
  unfold rc4. split; [apply rc4_stream_involutive|]. split.
  - unfold len. by rewrite rc4_stream_length.
  - intros. by apply rc4_stream_is_bytes, rc4_ksa_is_bytes.
Qed.

Theorem rc4_self_inverse_witness :
  rc4 (rc4 [1; 2; 3] RK_RC4_KEY) RK_RC4_KEY = [1; 2; 3] /\
  len (rc4 [1; 2; 3] RK_RC4_KEY) = 3 /\
  (is_bytes [1; 2; 3] -> is_bytes (rc4 [1; 2; 3] RK_RC4_KEY)).
Proof. apply (rc4_self_inverse [1; 2; 3] RK_RC4_KEY). Defined.
