(* ===== verification/Frames.v ===== *)
(** * Boot ROM frames

  Models [src/src/defib/protocol/frames.py]: the HEAD, DATA and TAIL frames of
  the HiSilicon boot protocol, with their encoders and decoders, and
  [chunk_data].  [encode] of a HEAD frame can raise [struct.error], so it
  returns a [res]; the decoders raise [FrameError]. *)

From S2P Require Import Prelude Crc.

Definition HEAD_MAGIC : bytes := [0xFE; 0x00; 0xFF; 0x01].
Definition DATA_MAGIC : Z := 0xDA.
Definition TAIL_MAGIC : Z := 0xED.
Definition V500_HANDSHAKE_MAGIC : bytes := [0xBD; 0x00; 0xFF; 0x01].

(** The two CRC bytes as every encoder writes them. *)
Definition crc_be (data : bytes) : bytes :=
  let crc := calc_crc data in [Z.land (Z.shiftr crc 8) 0xFF; Z.land crc 0xFF].

(** [seq & 0xFF] and [(~seq) & 0xFF] *)
Definition seq_bytes (seq : Z) : bytes := [Z.land seq 0xFF; Z.land (Z.lnot seq) 0xFF].

Record HeadFrame := { hf_length : Z; hf_address : Z }.

Definition HeadFrame_encode (f : HeadFrame) : res bytes :=
  let! l := pack_be 4 (hf_length f) in
  let! a := pack_be 4 (hf_address f) in
  let frame := HEAD_MAGIC ++ l ++ a in
  Ok (frame ++ crc_be frame).

Definition HeadFrame_decode (data : bytes) : res HeadFrame :=
  if len data <? 14 then Raise FrameError else
  if negb (beq (slice data 0 4) HEAD_MAGIC) then Raise FrameError else
  let! l := unpack_be 4 data 4 in
  let! a := unpack_be 4 data 8 in
  Ok {| hf_length := l; hf_address := a |}.

Record DataFrame := { df_seq : Z; df_payload : bytes }.

Definition DataFrame_encode (f : DataFrame) : bytes :=
  let data := [DATA_MAGIC] ++ seq_bytes (df_seq f) ++ df_payload f in
  data ++ crc_be data.

Definition DataFrame_decode (data : bytes) : res DataFrame :=
  if len data <? 6 then Raise FrameError else
  let! b0 := index data 0 in
  if negb (b0 =? DATA_MAGIC) then Raise FrameError else
  let! seq := index data 1 in
  let expected_inv := Z.land (Z.lnot seq) 0xFF in
  let! b2 := index data 2 in
  if negb (b2 =? expected_inv) then Raise FrameError else
  Ok {| df_seq := seq; df_payload := but_last 2 (drop 3 data) |}.

Record TailFrame := { tf_seq : Z }.

Definition TailFrame_encode (f : TailFrame) : bytes :=
  let data := [TAIL_MAGIC] ++ seq_bytes (tf_seq f) in
  data ++ crc_be data.

Definition TailFrame_decode (data : bytes) : res TailFrame :=
  if len data <? 5 then Raise FrameError else
  let! b0 := index data 0 in
  if negb (b0 =? TAIL_MAGIC) then Raise FrameError else
  let! seq := index data 1 in
  Ok {| tf_seq := seq |}.

Definition chunk_data (data : bytes) (chunk_size : Z) : list bytes := pieces chunk_size data.

(** ** Lemmas *)

Lemma crc_be_append data : data ++ crc_be data = append_crc data.
Proof. reflexivity. Qed.

Lemma lnot_land_ff s : Z.land (Z.lnot (Z.land s 0xFF)) 0xFF = Z.land (Z.lnot s) 0xFF.
Proof.
  apply Z.bits_inj'; intros n Hn. autorewrite with zbits.
  destruct (Z.testbit s n), (Z.testbit 0xFF n); done.
Qed.

Lemma seq_bytes_is_bytes s : is_bytes (seq_bytes s).
Proof. repeat constructor; apply land_is_byte. Qed.

Lemma HeadFrame_encode_ok f bs :
  HeadFrame_encode f = Ok bs ->
  fits 4 (hf_length f) = true /\ fits 4 (hf_address f) = true /\
  bs = append_crc (HEAD_MAGIC ++ be_bytes 4 (hf_length f) ++ be_bytes 4 (hf_address f)).
Proof.
  unfold HeadFrame_encode. intros H. inv_ok.
  apply pack_be_ok in Heqr as [? ->], Heqr0 as [? ->]. done.
Qed.

Lemma HeadFrame_encode_fits f :
  fits 4 (hf_length f) = true -> fits 4 (hf_address f) = true ->
  HeadFrame_encode f =
    Ok (append_crc (HEAD_MAGIC ++ be_bytes 4 (hf_length f) ++ be_bytes 4 (hf_address f))).
Proof. intros H1 H2. unfold HeadFrame_encode, pack_be. by rewrite H1, H2. Qed.

Lemma HeadFrame_roundtrip f :
  fits 4 (hf_length f) = true -> fits 4 (hf_address f) = true ->
  exists bs, HeadFrame_encode f = Ok bs /\ len bs = 14 /\ HeadFrame_decode bs = Ok f.
Proof.
  intros Hl Ha. rewrite HeadFrame_encode_fits by done. eexists. split; [done|].
  set (l := be_bytes 4 _). set (a := be_bytes 4 _).
  assert (len l = 4) by (by apply be_bytes_len). assert (len a = 4) by (by apply be_bytes_len).
  assert (Hlen : len (append_crc (HEAD_MAGIC ++ l ++ a)) = 14).
  { rewrite append_crc_len, !len_app. change (len HEAD_MAGIC) with 4. lia. }
  split; [done|]. unfold HeadFrame_decode. rewrite Hlen. cbn [Z.ltb Z.compare].
  unfold append_crc. rewrite <- !app_assoc.
  rewrite (slice_prefix HEAD_MAGIC) by done.
  rewrite (proj2 (bool_decide_eq_true (HEAD_MAGIC = HEAD_MAGIC)) eq_refl : beq _ _ = true).
  cbn [negb]. unfold l at 1. rewrite unpack_be_mid by done. cbn [res_bind].
  rewrite (app_assoc HEAD_MAGIC). unfold a at 1.
  rewrite unpack_be_mid by (done || rewrite len_app; change (len HEAD_MAGIC) with 4; lia).
  by destruct f.
Qed.

Lemma DataFrame_roundtrip f :
  df_payload f <> [] ->
  DataFrame_decode (DataFrame_encode f) =
    Ok {| df_seq := Z.land (df_seq f) 0xFF; df_payload := df_payload f |}.
Proof.
  intros Hne. unfold DataFrame_decode, DataFrame_encode, seq_bytes. cbn [app].
  set (c := crc_be _). cbn [app].
  assert (Hlen : 0 < len (df_payload f)).
  { unfold len. destruct (df_payload f); [done | cbn; lia]. }
  rewrite !len_cons, len_app. change (len c) with 2.
  replace (_ <? 6) with false by (symmetry; apply Z.ltb_ge; lia).
  cbn [index of_opt lookup list_lookup Z.to_nat Pos.to_nat Pos.iter_op Nat.add res_bind].
  change (DATA_MAGIC =? DATA_MAGIC) with true. cbn [negb].
  unfold index. change (Z.to_nat 2) with 2%nat. change (Z.to_nat 1) with 1%nat.
  cbn [lookup list_lookup of_opt res_bind]. rewrite lnot_land_ff, Z.eqb_refl. cbn [negb].
  change (drop 3 _) with (df_payload f ++ c). by rewrite but_last_app by done.
Qed.

Lemma TailFrame_roundtrip f :
  TailFrame_decode (TailFrame_encode f) = Ok {| tf_seq := Z.land (tf_seq f) 0xFF |}.
Proof. reflexivity. Qed.

Lemma chunk_data_concat data n : 0 < n -> concat (chunk_data data n) = data.
Proof. apply pieces_concat. Qed.

(** ** Properties *)

(** Round trips of the three frame kinds: a HEAD frame whose two fields
    fit 32 bits encodes to 14 bytes that decode to it, a DATA frame with a
    payload and a TAIL frame decode to themselves with the sequence number
    reduced modulo 256; every encoded frame passes the CRC check. *)
Theorem frames_roundtrip (h : HeadFrame) (d : DataFrame) (t : TailFrame) :
  fits 4 (hf_length h) = true -> fits 4 (hf_address h) = true ->
  df_payload d <> [] -> is_bytes (df_payload d) ->
  (exists bs, HeadFrame_encode h = Ok bs /\ len bs = 14 /\ HeadFrame_decode bs = Ok h /\
              verify_crc bs = true) /\
  DataFrame_decode (DataFrame_encode d) =
    Ok {| df_seq := df_seq d mod 256; df_payload := df_payload d |} /\
  verify_crc (DataFrame_encode d) = true /\
  TailFrame_decode (TailFrame_encode t) = Ok {| tf_seq := tf_seq t mod 256 |} /\
  verify_crc (TailFrame_encode t) = true.
Proof.
  intros Hl Ha Hne Hb.
  pose proof verify_append_crc as Hv.
  assert (Hbm : is_bytes HEAD_MAGIC) by (repeat constructor; unfold is_byte; lia).
  split; [|split; [|split; [|split]]].
  - destruct (HeadFrame_roundtrip h Hl Ha) as (bs & He & Hlen & Hd).
    exists bs. do 3 (split; [done|]).
    apply HeadFrame_encode_ok in He as (_ & _ & ->). apply Hv; [done|].
    rewrite !Forall_app. auto with defib lia.
  - rewrite DataFrame_roundtrip by done. by rewrite land_ones8.
  - unfold DataFrame_encode. rewrite crc_be_append. apply Hv; [done|].
    rewrite !Forall_app. split; [repeat constructor; unfold is_byte, DATA_MAGIC; lia|].
    auto using seq_bytes_is_bytes.
  - rewrite TailFrame_roundtrip. by rewrite land_ones8.
  - unfold TailFrame_encode. rewrite crc_be_append. apply Hv; [done|].
    rewrite Forall_app. split; [repeat constructor; unfold is_byte, TAIL_MAGIC; lia|].
    apply seq_bytes_is_bytes.
Qed.

Theorem frames_roundtrip_witness :
  let h := {| hf_length := 64; hf_address := 0x4013000 |} in
  let d := {| df_seq := 258; df_payload := [1; 2] |} in
  let t := {| tf_seq := 3 |} in
  (exists bs, HeadFrame_encode h = Ok bs /\ len bs = 14 /\ HeadFrame_decode bs = Ok h /\
              verify_crc bs = true) /\
  DataFrame_decode (DataFrame_encode d) =
    Ok {| df_seq := df_seq d mod 256; df_payload := df_payload d |} /\
  verify_crc (DataFrame_encode d) = true /\
  TailFrame_decode (TailFrame_encode t) = Ok {| tf_seq := tf_seq t mod 256 |} /\
  verify_crc (TailFrame_encode t) = true.
Proof.
  intros h d t. apply (frames_roundtrip h d t); try done. repeat constructor; done.
Defined.

(** [chunk_data] loses nothing: the chunks in order are the data, every
    chunk but the last is exactly [chunk_size] long, none is empty, and there
    are [ceil (len data / chunk_size)] of them. *)
Theorem chunk_data_spec (data : bytes) (n : Z) :
  0 < n ->
  concat (chunk_data data n) = data /\
  len (chunk_data data n) = (len data + n - 1) / n /\
  forall k c, chunk_data data n !! k = Some c ->
    len c = Z.min n (len data - Z.of_nat k * n) /\ 0 < len c <= n.
Proof.
  intros Hn. split; [by apply chunk_data_concat|]. split.
  - unfold chunk_data, len at 1. rewrite pieces_length. apply Z2Nat.id.
    apply Z.div_pos; [pose proof (len_nonneg data)|]; lia.
  - intros k c. by apply pieces_len.
Qed.

Theorem chunk_data_spec_witness :
  concat (chunk_data [1; 2; 3; 4; 5] 2) = [1; 2; 3; 4; 5] /\
  len (chunk_data [1; 2; 3; 4; 5] 2) = (5 + 2 - 1) / 2 /\
  forall k c, chunk_data [1; 2; 3; 4; 5] 2 !! k = Some c ->
    len c = Z.min 2 (5 - Z.of_nat k * 2) /\ 0 < len c <= 2.
Proof. apply (chunk_data_spec [1; 2; 3; 4; 5] 2). lia. Defined.
