(* ===== verification/Cobs.v ===== *)
(** * COBS byte stuffing

  Models [src/src/defib/agent/cobs.py].  [encode] keeps one growing buffer in
  which the code byte of the current block is a placeholder that is patched
  later, at index [code_idx]; the model keeps that buffer and the patching.
  [decode] is a while loop over an index; its fuel is the number of input
  bytes, which is enough because every turn consumes at least one. *)

From S2P Require Import Prelude.

Record enc_state := { output : bytes; code_idx : nat; code : Z }.

Definition enc_init : enc_state := {| output := [0]; code_idx := 0; code := 1 |}.

(** [output[code_idx] = code; code_idx = len(output); output.append(0); code = 1] *)
Definition enc_close (s : enc_state) : enc_state :=
  let out := <[code_idx s := code s]> (output s) in
  {| output := out ++ [0]; code_idx := length out; code := 1 |}.

Definition enc_byte (s : enc_state) (byte : Z) : enc_state :=
  if byte =? 0 then enc_close s
  else
    let s := {| output := output s ++ [byte]; code_idx := code_idx s; code := code s + 1 |} in
    if code s =? 0xFF then enc_close s else s.

Definition encode (data : bytes) : bytes :=
  let s := foldl enc_byte enc_init data in
  <[code_idx s := code s]> (output s).

(** [for _ in range(code - 1): ...]: copies [n] bytes of the rest, or raises. *)
Fixpoint dec_block (n : nat) (rest out : bytes) : res (bytes * bytes) :=
  match n with
  | O => Ok (rest, out)
  | S n' =>
      match rest with
      | [] => Raise ValueError
      | b :: rest' => dec_block n' rest' (out ++ [b])
      end
  end.

Fixpoint dec_loop (fuel : nat) (rest out : bytes) : res bytes :=
  match rest with
  | [] => Ok out
  | c :: rest' =>
      match fuel with
      | O => Diverge
      | S fuel' =>
          if c =? 0 then Raise ValueError
          else
            let! (rest'', out') := dec_block (Z.to_nat (c - 1)) rest' out in
            let out'' :=
              if (c <? 0xFF) && negb (beq rest'' []) then out' ++ [0] else out' in
            dec_loop fuel' rest'' out''
      end
  end.

Definition decode (data : bytes) : res bytes := dec_loop (length data) data [].

(** ** Specification: a sequence of closed blocks

  [blocks e d]: the encoded bytes [e] are whole blocks, each followed by more
  input, and stand for the data [d]. *)
Inductive blocks : bytes -> bytes -> Prop :=
  | blocks_nil : blocks [] []
  | blocks_zero e d b :
      blocks e d -> Forall (fun x => x <> 0) b -> len b < 254 ->
      blocks (e ++ (len b + 1) :: b) (d ++ b ++ [0])
  | blocks_full e d b :
      blocks e d -> Forall (fun x => x <> 0) b -> len b = 254 ->
      blocks (e ++ 0xFF :: b) (d ++ b).

(** ** The encoder *)

Definition enc_inv (data : bytes) (s : enc_state) : Prop :=
  exists e d b, blocks e d /\ data = d ++ b /\ Forall (fun x => x <> 0) b /\ len b < 254 /\
    output s = e ++ 0 :: b /\ code_idx s = length e /\ code s = len b + 1.

Lemma patch_mid (e b : bytes) x y : <[length e := y]> (e ++ x :: b) = e ++ y :: b.
Proof. by rewrite insert_app_r_alt, Nat.sub_diag. Qed.

Lemma enc_step data s x : enc_inv data s -> enc_inv (data ++ [x]) (enc_byte s x).
Proof.
  intros (e & d & b & He & -> & Hb & Hl & Ho & Hi & Hc). unfold enc_byte.
  destruct (x =? 0) eqn:Hx; b2p.
  - subst x. exists (e ++ (len b + 1) :: b), (d ++ b ++ [0]), []. unfold enc_close; cbn.
    rewrite Ho, Hi, Hc, patch_mid, app_nil_r.
    split_and!; try done; [by constructor | by rewrite <- app_assoc].
  - assert (Forall (fun y => y <> 0) (b ++ [x])).
    { apply Forall_app. split; [done|]. by repeat constructor. }
    assert (len (b ++ [x]) = len b + 1) by (by rewrite len_app).
    cbn [code]. rewrite Hc. destruct (len b + 1 + 1 =? 0xFF) eqn:Hf; b2p.
    + exists (e ++ 0xFF :: b ++ [x]), (d ++ b ++ [x]), [].
      unfold enc_close; cbn [output code code_idx].
      rewrite Ho, Hi, <- !app_assoc. cbn [app]. rewrite patch_mid, Hf.
      split_and!; try done; [apply blocks_full; [done|done|lia] | by rewrite <- (app_assoc e)].
    + exists e, d, (b ++ [x]). cbn [output code code_idx]. rewrite Ho, <- !app_assoc. cbn [app].
      split_and!; try done; lia.
Qed.

Lemma enc_inv_all data : enc_inv data (foldl enc_byte enc_init data).
Proof.
  induction data as [|x data IH] using rev_ind.
  - exists [], [], []. cbn. split_and!; try done. constructor.
  - rewrite foldl_app. by apply enc_step.
Qed.

(** The shape of an encoding: closed blocks, then one open block. *)
Lemma encode_shape data :
  exists e d b, blocks e d /\ data = d ++ b /\ Forall (fun x => x <> 0) b /\ len b < 254 /\
    encode data = e ++ (len b + 1) :: b.
Proof.
  destruct (enc_inv_all data) as (e & d & b & ? & ? & ? & ? & Ho & Hi & Hc).
  exists e, d, b. unfold encode. rewrite Ho, Hi, Hc, patch_mid. done.
Qed.

(** ** The decoder *)

Lemma dec_block_app b rest out : dec_block (length b) (b ++ rest) out = Ok (rest, out ++ b).
Proof.
  revert out. induction b as [|x b IH]; intros out; cbn; [by rewrite app_nil_r|].
  by rewrite IH, <- app_assoc.
Qed.

Lemma dec_block_rest n rest out r o :
  dec_block n rest out = Ok (r, o) -> (length r <= length rest)%nat.
Proof.
  revert rest out. induction n as [|n IH]; intros [|x rest] out H; cbn in *; simplify_eq; try done.
  apply IH in H. lia.
Qed.

(** The fuel is enough. *)
Lemma dec_loop_total fuel rest out : (length rest <= fuel)%nat -> dec_loop fuel rest out <> Diverge.
Proof.
  revert rest out. induction fuel as [|fuel IH]; intros [|c rest] out H; cbn in *; try done; [lia|].
  destruct (c =? 0); [done|].
  destruct (dec_block _ rest out) as [[r o]| |] eqn:E; cbn [res_bind]; [|done|].
  - apply IH. apply dec_block_rest in E. lia.
  - exfalso. revert E. generalize (Z.to_nat (c - 1)) as n. clear. intros n. revert rest out.
    induction n as [|n IHn]; intros [|x rest] out; cbn; try done. apply IHn.
Qed.

Lemma len_to_nat (b : bytes) : Z.to_nat (len b + 1 - 1) = length b.
Proof. unfold len. lia. Qed.

Lemma dec_loop_blocks e d :
  blocks e d -> forall tl fuel out, tl <> [] -> (length (e ++ tl) <= fuel)%nat ->
  exists fuel', (length tl <= fuel')%nat /\
    dec_loop fuel (e ++ tl) out = dec_loop fuel' tl (out ++ d).
Proof.
  induction 1 as [|e d b He IH Hb Hl|e d b He IH Hb Hl]; intros tl fuel out Htl Hf.
  - exists fuel. rewrite app_nil_r. done.
  - rewrite <- app_assoc in *.
    destruct (IH (((len b + 1) :: b) ++ tl) fuel out) as ([|f'] & Hf' & ->); [done|done|cbn in Hf'; lia|].
    exists f'. cbn in Hf'. rewrite length_app in Hf'. split; [lia|].
    cbn [app dec_loop]. pose proof (len_nonneg b).
    replace (len b + 1 =? 0) with false by (symmetry; apply Z.eqb_neq; lia).
    rewrite len_to_nat, dec_block_app. cbn [res_bind].
    replace (len b + 1 <? 255) with true by (symmetry; apply Z.ltb_lt; lia).
    replace (beq tl []) with false by (symmetry; by apply bool_decide_eq_false).
    cbn [negb andb]. by rewrite <- !app_assoc.
  - rewrite <- app_assoc in *.
    destruct (IH ((0xFF :: b) ++ tl) fuel out) as ([|f'] & Hf' & ->); [done|done|cbn in Hf'; lia|].
    exists f'. cbn in Hf'. rewrite length_app in Hf'. split; [lia|].
    cbn [app dec_loop]. change (255 =? 0) with false.
    replace (Z.to_nat (255 - 1)) with (length b) by (unfold len in Hl; lia).
    rewrite dec_block_app. cbn [res_bind]. change (255 <? 255) with false. cbn [andb].
    by rewrite <- !app_assoc.
Qed.

Lemma blocks_no_zero e d : blocks e d -> Forall (fun x => x <> 0) e.
Proof.
  induction 1 as [|e d b|e d b]; [constructor|..]; rewrite Forall_app, Forall_cons;
    split_and!; try done. pose proof (len_nonneg b). lia.
Qed.

Lemma blocks_len e d : blocks e d -> exists k, 0 <= k /\ len e = len d + k /\ 254 * k <= len d.
Proof.
  induction 1 as [|e d b He (k & ? & ? & ?)|e d b He (k & ? & ? & ?)].
  - exists 0. done.
  - exists k. autorewrite with len. pose proof (len_nonneg b). lia.
  - exists (k + 1). autorewrite with len. lia.
Qed.

Lemma blocks_is_bytes e d : blocks e d -> is_bytes d -> is_bytes e.
Proof.
  induction 1 as [|e d b|e d b]; rewrite ?Forall_app; [done|..]; intros Hd; destruct_and!;
    (split; [auto|]); constructor; try done; unfold is_byte; pose proof (len_nonneg b); lia.
Qed.

(** ** Round trip and totality, as used by the packet layer *)

Lemma cobs_roundtrip_aux data :
  decode (encode data) = Ok data /\ Forall (fun b => b <> 0) (encode data).
Proof.
  destruct (encode_shape data) as (e & d & b & He & -> & Hb & Hl & Heq). rewrite Heq.
  pose proof (len_nonneg b). split.
  - unfold decode.
    destruct (dec_loop_blocks e d He ((len b + 1) :: b) _ [] ltac:(done) (Nat.le_refl _))
      as ([|f] & Hf & ->); [cbn in Hf; lia|].
    cbn [app dec_loop]. replace (len b + 1 =? 0) with false by (symmetry; apply Z.eqb_neq; lia).
    rewrite len_to_nat. pose proof (dec_block_app b [] d) as Hdb. rewrite app_nil_r in Hdb.
    rewrite Hdb. cbn [res_bind]. rewrite andb_false_r. by destruct f.
  - apply Forall_app. split; [by eapply blocks_no_zero|]. constructor; [lia | done].
Qed.

Lemma cobs_len_aux data : len data + 1 <= len (encode data) <= len data + 1 + len data / 254.
Proof.
  destruct (encode_shape data) as (e & d & b & He & -> & Hb & Hl & Heq). rewrite Heq.
  pose proof (len_nonneg b). destruct (blocks_len e d He) as (k & ? & ? & ?).
  rewrite !len_app, len_cons.
  assert (k <= (len d + len b) / 254) by (apply Z.div_le_lower_bound; lia). lia.
Qed.

Lemma cobs_total_aux data : (exists d, decode data = Ok d) \/ decode data = Raise ValueError.
Proof.
  unfold decode. pose proof (dec_loop_total (length data) data [] (Nat.le_refl _)) as Hd.
  assert (Hv : forall f r o e, dec_loop f r o = Raise e -> e = ValueError).
  { clear. induction f as [|f IH]; intros [|c r] o e; cbn; try done.
    destruct (c =? 0); [by intros [= <-]|].
    destruct (dec_block _ r o) as [[r' o']| |] eqn:E; cbn [res_bind]; [apply IH| |done].
    intros [= ->]. revert E. generalize (Z.to_nat (c - 1)) as n. intros n. revert r o.
    induction n as [|n IHn]; intros [|x r] o; cbn; try done; [by intros [= <-] | apply IHn]. }
  destruct (dec_loop _ _ _) as [d|e|] eqn:E; [by left; exists d | | done].
  right. by rewrite (Hv _ _ _ _ E).
Qed.

(** ** Properties *)

(** COBS round trip: [decode (encode data)] is [data] for every input,
    and the encoding contains no zero byte, so the 0x00 frame delimiter
    cannot occur inside a packet. *)
Theorem cobs_roundtrip (data : bytes) :
  decode (encode data) = Ok data /\ Forall (fun b => b <> 0) (encode data).
Proof. apply cobs_roundtrip_aux. Qed.

(** Size of an encoding: bytes map to bytes, at least one byte is added
    and at most [1 + floor (n / 254)]; the bound is reached at 254 non-zero
    bytes, where two bytes are added (one more than the [ceil (n / 254)] the
    module's docstring announces). *)
Theorem cobs_overhead (data : bytes) :
  len data + 1 <= len (encode data) <= len data + 1 + len data / 254 /\
  (is_bytes data -> is_bytes (encode data)) /\
  len (encode (brep 254 1)) = 254 + 2.
Proof.
  split; [apply cobs_len_aux|]. split.
  - destruct (encode_shape data) as (e & d & b & He & -> & Hb & Hl & Heq). rewrite Heq.
    pose proof (len_nonneg b). rewrite !Forall_app. intros [Hd Hbb]. split; [by eapply blocks_is_bytes|].
    constructor; [unfold is_byte; lia | done].
  - by vm_compute.
Qed.

Theorem cobs_overhead_witness :
  len [0; 1] + 1 <= len (encode [0; 1]) <= len [0; 1] + 1 + len [0; 1] / 254 /\
  (is_bytes [0; 1] -> is_bytes (encode [0; 1])) /\ len (encode (brep 254 1)) = 254 + 2.
Proof. apply (cobs_overhead [0; 1]). Defined.

(** [decode] is total: on every input it returns data or raises
    [ValueError]; the while loop never runs out of the fuel [len data]. *)
Theorem cobs_decode_total (data : bytes) :
  (exists d, decode data = Ok d) \/ decode data = Raise ValueError.
Proof. apply cobs_total_aux. Qed.
