(* ===== verification/Transport.v ===== *)
(** * Transports and the effects of the protocol code

  Models [src/src/defib/transport/base.py] (the abstract [Transport] and its
  helper methods) and [transport/mock.py] ([MockTransport]).

  The protocol code is written against the abstract [Transport]; here it is
  the class [Transport T] of a type [T] of transport states, with the clock
  ([time.monotonic], [loop.time], in microseconds) and [asyncio.sleep] that
  the code reads alongside.  Each method takes the state and returns its
  result and the new state, so a theorem that holds for every instance holds
  for every behaviour of the device and the line.

  Protocol code runs in the monad [M T Ob A]: it passes a [world] along (the
  transport, the fields of the object the method belongs to, and a ghost log
  of the transport calls made so far) and ends in a [res].  Loops without a
  static bound take fuel and end in [Diverge] when it runs out. *)

From S2P Require Import Prelude.

Class Transport (T : Type) := {
  t_read : Z -> option Z -> T -> res bytes * T;
  t_write : bytes -> T -> res unit * T;
  t_flush_input : T -> res unit * T;
  t_flush_output : T -> res unit * T;
  t_bytes_waiting : T -> res Z * T;
  t_unread : bytes -> T -> res unit * T;
  t_set_baudrate : Z -> T -> res unit * T;
  t_monotonic : T -> Z * T;
  t_sleep : Z -> T -> T
}.

(** What the docstrings of the abstract methods promise, and that a method
    call returns: [read] yields at most [size] bytes. *)
Class TransportLaws (T : Type) `{Transport T} := {
  t_read_ok n tmo t d t' :
    t_read n tmo t = (Ok d, t') -> 0 <= n -> len d <= n;
  t_read_ret n tmo t : fst (t_read n tmo t) <> Diverge;
  t_write_ret d t : fst (t_write d t) <> Diverge;
  t_flush_input_ret t : fst (t_flush_input t) <> Diverge;
  t_flush_output_ret t : fst (t_flush_output t) <> Diverge;
  t_bytes_waiting_ret t : fst (t_bytes_waiting t) <> Diverge;
  t_unread_ret d t : fst (t_unread d t) <> Diverge;
  t_set_baudrate_ret b t : fst (t_set_baudrate b t) <> Diverge
}.

(** ** The monad *)

Inductive event :=
  | EvWrite (d : bytes) (r : res unit)
  | EvRead (r : res bytes)
  | EvFlushInput (r : res unit)
  | EvFlushOutput (r : res unit)
  | EvBaud (b : Z) (r : res unit).

Record world (T Ob : Type) := World { tr : T; obj : Ob; log : list event }.
Arguments World {T Ob} _ _ _.
Arguments tr {T Ob} _.
Arguments obj {T Ob} _.
Arguments log {T Ob} _.

Definition M (T Ob A : Type) : Type := world T Ob -> res A * world T Ob.

Section Monad.
Context {T Ob : Type}.

Definition ret {A} (a : A) : M T Ob A := fun w => (Ok a, w).
Definition raise {A} (e : exn) : M T Ob A := fun w => (Raise e, w).
Definition diverge {A} : M T Ob A := fun w => (Diverge, w).
Definition lift {A} (r : res A) : M T Ob A := fun w => (r, w).

Definition bind {A B} (m : M T Ob A) (f : A -> M T Ob B) : M T Ob B :=
  fun w =>
    match m w with
    | (Ok a, w') => f a w'
    | (Raise e, w') => (Raise e, w')
    | (Diverge, w') => (Diverge, w')
    end.

(** [try: m except <class p>: h] *)
Definition try_except {A} (m : M T Ob A) (p : exn -> bool) (h : exn -> M T Ob A) : M T Ob A :=
  fun w =>
    match m w with
    | (Raise e, w') => if p e then h e w' else (Raise e, w')
    | r => r
    end.

(** The fields of [self]. *)
Definition get_obj : M T Ob Ob := fun w => (Ok (obj w), w).
Definition put_obj (o : Ob) : M T Ob unit := fun w => (Ok tt, World (tr w) o (log w)).

(** How a loop body ends: the next turn, [break], or [return] from the
    enclosing function. *)
Inductive ctl (S R : Type) := Next (s : S) | Brk (s : S) | Rtn (r : R).

End Monad.
Arguments Next {S R} _.
Arguments Brk {S R} _.
Arguments Rtn {S R} _.

Notation "'let*' x ':=' m 'in' k" := (bind m (fun x => k))
  (at level 10, x pattern, m at level 100, k at level 200) : py_scope.

Section Loops.
Context {T Ob S R : Type}.

(** [for x in l: body]; [Next] at the end is the normal exit. *)
Fixpoint foreach {X} (l : list X) (body : X -> S -> M T Ob (ctl S R)) (s : S)
    : M T Ob (ctl S R) :=
  match l with
  | [] => ret (Next s)
  | x :: l' =>
      let* c := body x s in
      match c with
      | Next s' => foreach l' body s'
      | c => ret c
      end
  end.

(** [while True: body] with fuel. *)
Fixpoint while (fuel : nat) (body : S -> M T Ob (ctl S R)) (s : S) : M T Ob (ctl S R) :=
  match fuel with
  | O => diverge
  | Datatypes.S fuel' =>
      let* c := body s in
      match c with
      | Next s' => while fuel' body s'
      | c => ret c
      end
  end.

End Loops.

Lemma foreach_app {T Ob S R X} (a b : list X) (body : X -> S -> M T Ob (ctl S R)) s w :
  foreach (a ++ b) body s w =
    (let* c := foreach a body s in match c with Next s' => foreach b body s' | c => ret c end) w.
Proof.
  revert s w. induction a as [|x a IH]; intros s w; [done|]. cbn [foreach app]. unfold bind.
  destruct (body x s w) as [[[s'|s'|r]|e|] w']; done || apply IH.
Qed.

Lemma while_rtn {T Ob S R} fuel (body : S -> M T Ob (ctl S R)) s r w w' :
  (0 < fuel)%nat -> body s w = (Ok (Rtn r), w') -> while fuel body s w = (Ok (Rtn r), w').
Proof. intros Hf Hb. destruct fuel; [lia|]. cbn [while]. unfold bind. by rewrite Hb. Qed.

Definition is_Exception (e : exn) : bool := match e with CancelledError => false | _ => true end.

(** A call that acts on what is around the program. *)
Definition effect {T Ob A} (f : T -> res A * T) : M T Ob A := fun w =>
  let (r, t) := f (tr w) in (r, World t (obj w) (log w)).

(** ** Transport calls, logged *)

Section Calls.
Context {T Ob : Type} `{Transport T}.

Definition read (n : Z) (tmo : option Z) : M T Ob bytes := fun w =>
  let (r, t) := t_read n tmo (tr w) in (r, World t (obj w) (log w ++ [EvRead r])).
Definition write (d : bytes) : M T Ob unit := fun w =>
  let (r, t) := t_write d (tr w) in (r, World t (obj w) (log w ++ [EvWrite d r])).
Definition flush_input : M T Ob unit := fun w =>
  let (r, t) := t_flush_input (tr w) in (r, World t (obj w) (log w ++ [EvFlushInput r])).
Definition flush_output : M T Ob unit := fun w =>
  let (r, t) := t_flush_output (tr w) in (r, World t (obj w) (log w ++ [EvFlushOutput r])).
Definition set_baudrate (b : Z) : M T Ob unit := fun w =>
  let (r, t) := t_set_baudrate b (tr w) in (r, World t (obj w) (log w ++ [EvBaud b r])).
Definition bytes_waiting : M T Ob Z := fun w =>
  let (r, t) := t_bytes_waiting (tr w) in (r, World t (obj w) (log w)).
Definition unread (d : bytes) : M T Ob unit := fun w =>
  let (r, t) := t_unread d (tr w) in (r, World t (obj w) (log w)).
Definition monotonic : M T Ob Z := fun w =>
  let (r, t) := t_monotonic (tr w) in (Ok r, World t (obj w) (log w)).
Definition sleep (d : Z) : M T Ob unit := fun w =>
  (Ok tt, World (t_sleep d (tr w)) (obj w) (log w)).

(** ** Transport.drain_input, drain_until_silent, read_exact *)

Definition drain_input : M T Ob bytes :=
  let* waiting := bytes_waiting in
  if 0 <? waiting then read waiting (Some 100000) else ret [].

(** State of the loop: [last_data_at] and [discarded]. *)
Definition drain_until_silent (fuel : nat) (quiet_period max_wait : Z) : M T Ob Z :=
  let* t0 := monotonic in
  let deadline := t0 + max_wait in
  let* t1 := monotonic in
  let* _ := flush_input in
  let* c := while (R := Z) fuel (fun '(last_data_at, discarded) =>
      let* now := monotonic in
      if negb (now <? deadline) then ret (Brk (last_data_at, discarded)) else
      let* now := monotonic in
      if quiet_period <=? now - last_data_at then ret (Rtn discarded) else
      try_except
        (let* chunk := read 256 (Some 50000) in
         if beq chunk [] then ret (Next (last_data_at, discarded)) else
         let* now := monotonic in
         ret (Next (now, discarded + len chunk)))
        is_TransportTimeout
        (fun _ => ret (Next (last_data_at, discarded)))) (t1, 0) in
  match c with
  | Next (_, d) | Brk (_, d) => ret d
  | Rtn d => ret d
  end.

(** [deadline = time() + timeout], and the check at the top of each turn. *)
Definition read_exact_deadline (timeout : option Z) : M T Ob (option Z) :=
  match timeout with
  | Some tmo => let* now := monotonic in ret (Some (now + tmo))
  | None => ret None
  end.

Definition read_exact_time_left (deadline : option Z) : M T Ob (option Z) :=
  match deadline with
  | Some dl =>
      let* now := monotonic in
      if dl - now <=? 0 then raise TransportTimeout else ret (Some (dl - now))
  | None => ret None
  end.

(** State of the loop: [buf] and [remaining]. *)
Definition read_exact_body (deadline : option Z) (s : bytes * Z) : M T Ob (ctl (bytes * Z) bytes) :=
  let '(buf, remaining) := s in
  if negb (0 <? remaining) then ret (Brk (buf, remaining)) else
  let* time_left := read_exact_time_left deadline in
  let* chunk := read remaining time_left in
  if beq chunk [] then raise TransportTimeout else
  ret (Next (buf ++ chunk, remaining - len chunk)).

Definition read_exact (fuel : nat) (size : Z) (timeout : option Z) : M T Ob bytes :=
  let* deadline := read_exact_deadline timeout in
  let* c := while fuel (read_exact_body deadline) ([], size) in
  match c with
  | Next (buf, _) | Brk (buf, _) => ret buf
  | Rtn b => ret b
  end.

End Calls.

(** ** MockTransport

  [clock] is the virtual time: only sleeping advances it. *)
Record MockTransport := Mock {
  rx_buffer : bytes;
  tx_log : list bytes;
  m_closed : bool;
  flush_clears : bool;
  clock : Z
}.

Definition Mock_init (flush_clears_buffer : bool) : MockTransport :=
  Mock [] [] false flush_clears_buffer 0.

Definition Mock_enqueue_rx (data : bytes) (m : MockTransport) : MockTransport :=
  Mock (rx_buffer m ++ data) (tx_log m) (m_closed m) (flush_clears m) (clock m).

Definition Mock_enqueue_rx_chunks (chunks : list bytes) (m : MockTransport) : MockTransport :=
  foldl (fun m c => Mock_enqueue_rx c m) m chunks.

Definition Mock_sleep (d : Z) (m : MockTransport) : MockTransport :=
  Mock (rx_buffer m) (tx_log m) (m_closed m) (flush_clears m) (clock m + Z.max 0 d).

Definition Mock_read (size : Z) (tmo : option Z) (m : MockTransport)
    : res bytes * MockTransport :=
  if m_closed m then (Ok [], m) else
  if beq (rx_buffer m) [] then
    match tmo with
    | Some t =>
        if t <=? 0 then (Raise TransportTimeout, m)
        else (Raise TransportTimeout, Mock_sleep (Z.min t 1000) m)
    | None => (Raise TransportTimeout, m)
    end
  else
    let count := Z.min size (len (rx_buffer m)) in
    (Ok (slice (rx_buffer m) 0 count),
     Mock (drop (Z.to_nat count) (rx_buffer m)) (tx_log m) (m_closed m) (flush_clears m) (clock m)).

Definition Mock_write (d : bytes) (m : MockTransport) : res unit * MockTransport :=
  if m_closed m then (Ok tt, m) else
  (Ok tt, Mock (rx_buffer m) (tx_log m ++ [d]) (m_closed m) (flush_clears m) (clock m)).

Definition Mock_flush_input (m : MockTransport) : res unit * MockTransport :=
  (Ok tt, if flush_clears m
          then Mock [] (tx_log m) (m_closed m) (flush_clears m) (clock m) else m).

Definition Mock_flush_output (m : MockTransport) : res unit * MockTransport := (Ok tt, m).

Definition Mock_bytes_waiting (m : MockTransport) : res Z * MockTransport :=
  (Ok (len (rx_buffer m)), m).

Definition Mock_unread (d : bytes) (m : MockTransport) : res unit * MockTransport :=
  (Ok tt, Mock (d ++ rx_buffer m) (tx_log m) (m_closed m) (flush_clears m) (clock m)).

Definition Mock_close (m : MockTransport) : MockTransport :=
  Mock (rx_buffer m) (tx_log m) true (flush_clears m) (clock m).

Definition Mock_all_tx_data (m : MockTransport) : bytes := concat (tx_log m).

(** [set_baudrate] is inherited from the abstract class. *)
Definition base_set_baudrate {T} (b : Z) (t : T) : res unit * T := (Raise NotImplementedError, t).

#[export] Instance Mock_Transport : Transport MockTransport := {|
  t_read := Mock_read;
  t_write := Mock_write;
  t_flush_input := Mock_flush_input;
  t_flush_output := Mock_flush_output;
  t_bytes_waiting := Mock_bytes_waiting;
  t_unread := Mock_unread;
  t_set_baudrate := base_set_baudrate;
  t_monotonic := fun m => (clock m, m);
  t_sleep := Mock_sleep
|}.

#[global] Arguments Mock_read : simpl never.

(** ** A trace logic

  [emits m Q]: from every world, running [m] only appends events [l] to the
  log, and the outcome and [l] satisfy [Q]. *)

Section Emits.
Context {T Ob : Type}.

Definition emits {A} (m : M T Ob A) (Q : res A -> list event -> Prop) : Prop :=
  forall w, exists l, log (snd (m w)) = log w ++ l /\ Q (fst (m w)) l.

Lemma emits_weaken {A} (m : M T Ob A) (P Q : res A -> list event -> Prop) :
  emits m P -> (forall r l, P r l -> Q r l) -> emits m Q.
Proof. intros Hm HPQ w. destruct (Hm w) as (l & ? & ?). eauto. Qed.

Lemma emits_conj {A} (m : M T Ob A) (P Q : res A -> list event -> Prop) :
  emits m P -> emits m Q -> emits m (fun r l => P r l /\ Q r l).
Proof.
  intros HP HQ w. destruct (HP w) as (l & Hl & ?), (HQ w) as (l' & Hl' & ?).
  rewrite Hl in Hl'. apply app_inv_head in Hl' as <-. eauto.
Qed.

Lemma emits_ret {A} (a : A) (Q : res A -> list event -> Prop) : Q (Ok a) [] -> emits (ret a) Q.
Proof. intros HQ w. exists []. rewrite app_nil_r. split; [done | apply HQ]. Qed.

Lemma emits_raise {A} e (Q : res A -> list event -> Prop) : Q (Raise e) [] -> emits (raise e) Q.
Proof. intros HQ w. exists []. rewrite app_nil_r. split; [done | apply HQ]. Qed.

Lemma emits_diverge {A} (Q : res A -> list event -> Prop) : Q Diverge [] -> emits diverge Q.
Proof. intros HQ w. exists []. rewrite app_nil_r. split; [done | apply HQ]. Qed.

Lemma emits_lift {A} r (Q : res A -> list event -> Prop) : Q r [] -> emits (lift r) Q.
Proof. intros HQ w. exists []. rewrite app_nil_r. split; [done | apply HQ]. Qed.

Lemma emits_get_obj (Q : res Ob -> list event -> Prop) :
  (forall o, Q (Ok o) []) -> emits get_obj Q.
Proof. intros HQ w. exists []. rewrite app_nil_r. split; [done | apply HQ]. Qed.

Lemma emits_put_obj o (Q : res unit -> list event -> Prop) : Q (Ok tt) [] -> emits (put_obj o) Q.
Proof. intros HQ w. exists []. rewrite app_nil_r. split; [done | apply HQ]. Qed.

Lemma emits_bind {A B} (m : M T Ob A) (f : A -> M T Ob B) Q :
  emits m (fun r l =>
    match r with
    | Ok a => emits (f a) (fun r' l' => Q r' (l ++ l'))
    | Raise e => Q (Raise e) l
    | Diverge => Q Diverge l
    end) ->
  emits (bind m f) Q.
Proof.
  intros Hm w. destruct (Hm w) as (l & Hl & HQ). unfold bind.
  destruct (m w) as [[a|e|] w']; cbn in *; [|by eauto..].
  destruct (HQ w') as (l' & Hl' & HQ'). exists (l ++ l'). by rewrite Hl', Hl, app_assoc.
Qed.

Lemma emits_try {A} (m : M T Ob A) (p : exn -> bool) (h : exn -> M T Ob A) (Q : res A -> list event -> Prop) :
  emits m (fun r l =>
    match r with
    | Raise e => if p e then emits (h e) (fun r' l' => Q r' (l ++ l')) else Q (Raise e) l
    | Ok a => Q (Ok a) l
    | Diverge => Q Diverge l
    end) ->
  emits (try_except m p h) Q.
Proof.
  intros Hm w. destruct (Hm w) as (l & Hl & HQ). unfold try_except.
  destruct (m w) as [[a|e|] w']; cbn in *; [by eauto| |by eauto].
  destruct (p e); [|by eauto].
  destruct (HQ w') as (l' & Hl' & HQ'). exists (l ++ l'). by rewrite Hl', Hl, app_assoc.
Qed.

Lemma emits_foreach {S R X} (I : list X -> S -> list event -> Prop) (xs : list X)
    (body : X -> S -> M T Ob (ctl S R)) s Q :
  I [] s [] ->
  (forall done x rest s l0, xs = done ++ x :: rest -> I done s l0 ->
     emits (body x s) (fun r l1 =>
       match r with
       | Ok (Next s') => I (done ++ [x]) s' (l0 ++ l1)
       | _ => Q r (l0 ++ l1)
       end)) ->
  (forall s l0, I xs s l0 -> Q (Ok (Next s)) l0) ->
  emits (foreach xs body s) Q.
Proof.
  intros HI Hb HQ.
  assert (H : forall rest done s l0, xs = done ++ rest -> I done s l0 ->
    emits (foreach rest body s) (fun r l1 => Q r (l0 ++ l1))).
  { induction rest as [|x rest IH]; intros done s0 l0 Hxs HI0; cbn [foreach].
    - apply emits_ret. rewrite app_nil_r in *. subst. auto.
    - apply emits_bind. eapply emits_weaken; [by eapply Hb|].
      intros [[s'|s'|r']|e|] l1 H1; cbn; try by (apply emits_ret; rewrite app_nil_r).
      + eapply emits_weaken; [apply (IH (done ++ [x]) s' (l0 ++ l1)); [by rewrite <- app_assoc|done]|].
        intros r l2. by rewrite app_assoc.
      + done.
      + done. }
  eapply emits_weaken; [apply (H xs [] s []); done|]. done.
Qed.

Lemma emits_while {S R} (I : S -> list event -> Prop) fuel
    (body : S -> M T Ob (ctl S R)) s Q :
  I s [] ->
  (forall s l0, I s l0 ->
     emits (body s) (fun r l1 =>
       match r with
       | Ok (Next s') => I s' (l0 ++ l1)
       | _ => Q r (l0 ++ l1)
       end)) ->
  (forall s l0, I s l0 -> Q Diverge l0) ->
  emits (while fuel body s) Q.
Proof.
  intros HI Hb HD.
  assert (H : forall fuel s l0, I s l0 -> emits (while fuel body s) (fun r l1 => Q r (l0 ++ l1))).
  { induction fuel0 as [|f IH]; intros s0 l0 HI0; cbn [while].
    - apply emits_diverge. rewrite app_nil_r. eauto.
    - apply emits_bind. eapply emits_weaken; [by eapply Hb|].
      intros [[s'|s'|r']|e|] l1 H1; cbn; try by (apply emits_ret; rewrite app_nil_r).
      + eapply emits_weaken; [apply (IH s' (l0 ++ l1)); done|].
        intros r l2. by rewrite app_assoc.
      + done.
      + done. }
  eapply emits_weaken; [apply (H fuel s []); done|]. done.
Qed.

Context `{Transport T}.

Lemma emits_read n tmo (Q : res bytes -> list event -> Prop) :
  (forall r, Q r [EvRead r]) -> emits (read n tmo) Q.
Proof. intros HQ w. unfold read. destruct (t_read _ _ _) as [r t]. exists [EvRead r]. eauto. Qed.

Lemma emits_write d (Q : res unit -> list event -> Prop) :
  (forall r, Q r [EvWrite d r]) -> emits (write d) Q.
Proof. intros HQ w. unfold write. destruct (t_write _ _) as [r t]. exists [EvWrite d r]. eauto. Qed.

Lemma emits_flush_input (Q : res unit -> list event -> Prop) :
  (forall r, Q r [EvFlushInput r]) -> emits flush_input Q.
Proof.
  intros HQ w. unfold flush_input. destruct (t_flush_input _) as [r t].
  exists [EvFlushInput r]. eauto.
Qed.

Lemma emits_flush_output (Q : res unit -> list event -> Prop) :
  (forall r, Q r [EvFlushOutput r]) -> emits flush_output Q.
Proof.
  intros HQ w. unfold flush_output. destruct (t_flush_output _) as [r t].
  exists [EvFlushOutput r]. eauto.
Qed.

Lemma emits_set_baudrate b (Q : res unit -> list event -> Prop) :
  (forall r, Q r [EvBaud b r]) -> emits (set_baudrate b) Q.
Proof.
  intros HQ w. unfold set_baudrate. destruct (t_set_baudrate _ _) as [r t].
  exists [EvBaud b r]. eauto.
Qed.

Lemma emits_bytes_waiting (Q : res Z -> list event -> Prop) :
  (forall r, Q r []) -> emits bytes_waiting Q.
Proof.
  intros HQ w. unfold bytes_waiting. destruct (t_bytes_waiting _) as [r t].
  exists []. rewrite app_nil_r. eauto.
Qed.

Lemma emits_unread d (Q : res unit -> list event -> Prop) :
  (forall r, Q r []) -> emits (unread d) Q.
Proof.
  intros HQ w. unfold unread. destruct (t_unread _ _) as [r t].
  exists []. rewrite app_nil_r. eauto.
Qed.

Lemma emits_monotonic (Q : res Z -> list event -> Prop) :
  (forall z, Q (Ok z) []) -> emits monotonic Q.
Proof.
  intros HQ w. unfold monotonic. destruct (t_monotonic _) as [r t].
  exists []. rewrite app_nil_r. eauto.
Qed.

Lemma emits_sleep d (Q : res unit -> list event -> Prop) : Q (Ok tt) [] -> emits (sleep d) Q.
Proof. intros HQ w. exists []. rewrite app_nil_r. split; [done | apply HQ]. Qed.

End Emits.

(** One step of a trace proof. *)
Ltac emits_step :=
  lazymatch goal with
  | |- emits (bind _ _) _ => apply emits_bind
  | |- emits (ret _) _ => apply emits_ret
  | |- emits (raise _) _ => apply emits_raise
  | |- emits diverge _ => apply emits_diverge
  | |- emits (lift _) _ => apply emits_lift
  | |- emits (try_except _ _ _) _ => apply emits_try
  | |- emits (read _ _) _ => apply emits_read; intros [?|?|]; cbn
  | |- emits (write _) _ => apply emits_write; intros [[]|?|]; cbn
  | |- emits flush_input _ => apply emits_flush_input; intros [[]|?|]; cbn
  | |- emits flush_output _ => apply emits_flush_output; intros [[]|?|]; cbn
  | |- emits (set_baudrate _) _ => apply emits_set_baudrate; intros [[]|?|]; cbn
  | |- emits bytes_waiting _ => apply emits_bytes_waiting; intros [?|?|]; cbn
  | |- emits (unread _) _ => apply emits_unread; intros [[]|?|]; cbn
  | |- emits monotonic _ => apply emits_monotonic; intros ?; cbn
  | |- emits (sleep _) _ => apply emits_sleep; cbn
  | |- emits get_obj _ => apply emits_get_obj; intros ?; cbn
  | |- emits (put_obj _) _ => apply emits_put_obj; cbn
  | |- emits (if ?b then _ else _) _ => destruct b eqn:?
  end.

(** ** Traces that follow the object

  [does m o Q]: from every world whose object is [o], running [m] appends [l]
  to the log, and the outcome, [l] and the object afterwards satisfy [Q]. *)

Section Does.
Context {T Ob : Type}.

Definition does {A} (m : M T Ob A) (o : Ob) (Q : res A -> list event -> Ob -> Prop) : Prop :=
  forall w, obj w = o -> exists l, log (snd (m w)) = log w ++ l /\ Q (fst (m w)) l (obj (snd (m w))).

Lemma does_weaken {A} (m : M T Ob A) o (P Q : res A -> list event -> Ob -> Prop) :
  does m o P -> (forall r l o', P r l o' -> Q r l o') -> does m o Q.
Proof. intros Hm HPQ w Hw. destruct (Hm w Hw) as (l & ? & ?). eauto. Qed.

Lemma does_emits {A} (m : M T Ob A) o Q : emits m Q -> does m o (fun r l _ => Q r l).
Proof. intros Hm w _. apply Hm. Qed.

Lemma does_both {A} (m : M T Ob A) o P Q :
  does m o P -> does m o Q -> does m o (fun r l o' => P r l o' /\ Q r l o').
Proof.
  intros HP HQ w Hw. destruct (HP w Hw) as (l & Hl & ?), (HQ w Hw) as (l' & Hl' & ?).
  rewrite Hl in Hl'. apply app_inv_head in Hl' as ->. eauto.
Qed.

Lemma does_ret {A} (a : A) o (Q : res A -> list event -> Ob -> Prop) : Q (Ok a) [] o -> does (ret a) o Q.
Proof. intros HQ w <-. exists []. by rewrite app_nil_r. Qed.

Lemma does_raise {A} e o (Q : res A -> list event -> Ob -> Prop) : Q (Raise e) [] o -> does (raise e) o Q.
Proof. intros HQ w <-. exists []. by rewrite app_nil_r. Qed.

Lemma does_diverge {A} o (Q : res A -> list event -> Ob -> Prop) : Q Diverge [] o -> does diverge o Q.
Proof. intros HQ w <-. exists []. by rewrite app_nil_r. Qed.

Lemma does_lift {A} r o (Q : res A -> list event -> Ob -> Prop) : Q r [] o -> does (lift r) o Q.
Proof. intros HQ w <-. exists []. by rewrite app_nil_r. Qed.

Lemma does_get_obj o (Q : res Ob -> list event -> Ob -> Prop) : Q (Ok o) [] o -> does get_obj o Q.
Proof. intros HQ w <-. exists []. by rewrite app_nil_r. Qed.

Lemma does_put_obj o o' (Q : res unit -> list event -> Ob -> Prop) : Q (Ok tt) [] o' -> does (put_obj o') o Q.
Proof. intros HQ w <-. exists []. by rewrite app_nil_r. Qed.

Lemma does_bind {A B} (m : M T Ob A) (f : A -> M T Ob B) o Q :
  does m o (fun r l o' =>
    match r with
    | Ok a => does (f a) o' (fun r' l' o'' => Q r' (l ++ l') o'')
    | Raise e => Q (Raise e) l o'
    | Diverge => Q Diverge l o'
    end) ->
  does (bind m f) o Q.
Proof.
  intros Hm w Hw. destruct (Hm w Hw) as (l & Hl & HQ). unfold bind.
  destruct (m w) as [[a|e|] w']; cbn in *; [|by eauto..].
  destruct (HQ w' eq_refl) as (l' & Hl' & HQ'). exists (l ++ l'). by rewrite Hl', Hl, app_assoc.
Qed.

Lemma does_bind_assoc {A B C} (m : M T Ob A) (f : A -> M T Ob B) (g : B -> M T Ob C) o Q :
  does (bind (bind m f) g) o Q -> does (bind m (fun a => bind (f a) g)) o Q.
Proof.
  intros Hm w Hw. specialize (Hm w Hw). unfold bind in *. by destruct (m w) as [[a|e|] w'].
Qed.

Lemma does_try {A} (m : M T Ob A) (p : exn -> bool) (h : exn -> M T Ob A) o Q :
  does m o (fun r l o' =>
    match r with
    | Raise e => if p e then does (h e) o' (fun r' l' o'' => Q r' (l ++ l') o'') else Q (Raise e) l o'
    | Ok a => Q (Ok a) l o'
    | Diverge => Q Diverge l o'
    end) ->
  does (try_except m p h) o Q.
Proof.
  intros Hm w Hw. destruct (Hm w Hw) as (l & Hl & HQ). unfold try_except.
  destruct (m w) as [[a|e|] w']; cbn in *; [by eauto| |by eauto].
  destruct (p e); [|by eauto].
  destruct (HQ w' eq_refl) as (l' & Hl' & HQ'). exists (l ++ l'). by rewrite Hl', Hl, app_assoc.
Qed.

Lemma does_foreach {S R X} (I : list X -> S -> list event -> Ob -> Prop) (xs : list X)
    (body : X -> S -> M T Ob (ctl S R)) s o Q :
  I [] s [] o ->
  (forall done x rest s l0 o0, xs = done ++ x :: rest -> I done s l0 o0 ->
     does (body x s) o0 (fun r l1 o1 =>
       match r with
       | Ok (Next s') => I (done ++ [x]) s' (l0 ++ l1) o1
       | _ => Q r (l0 ++ l1) o1
       end)) ->
  (forall s l0 o0, I xs s l0 o0 -> Q (Ok (Next s)) l0 o0) ->
  does (foreach xs body s) o Q.
Proof.
  intros HI Hb HQ.
  assert (H : forall rest done s l0 o0, xs = done ++ rest -> I done s l0 o0 ->
    does (foreach rest body s) o0 (fun r l1 o1 => Q r (l0 ++ l1) o1)).
  { induction rest as [|x rest IH]; intros done s0 l0 o0 Hxs HI0; cbn [foreach].
    - apply does_ret. rewrite app_nil_r in *. subst. auto.
    - apply does_bind. eapply does_weaken; [by eapply Hb|].
      intros [[s'|s'|r']|e|] l1 o1 H1; cbn; try done; try by (apply does_ret; rewrite app_nil_r).
      eapply does_weaken; [apply (IH (done ++ [x]) s' (l0 ++ l1)); [by rewrite <- app_assoc|done]|].
      intros r l2 o2. by rewrite app_assoc. }
  eapply does_weaken; [apply (H xs [] s []); done|]. done.
Qed.

Lemma does_while {S R} (I : S -> list event -> Ob -> Prop) fuel (body : S -> M T Ob (ctl S R)) s o Q :
  I s [] o ->
  (forall s l0 o0, I s l0 o0 ->
     does (body s) o0 (fun r l1 o1 =>
       match r with
       | Ok (Next s') => I s' (l0 ++ l1) o1
       | _ => Q r (l0 ++ l1) o1
       end)) ->
  (forall s l0 o0, I s l0 o0 -> Q Diverge l0 o0) ->
  does (while fuel body s) o Q.
Proof.
  intros HI Hb HD.
  assert (H : forall fuel s l0 o0, I s l0 o0 -> does (while fuel body s) o0 (fun r l1 o1 => Q r (l0 ++ l1) o1)).
  { induction fuel0 as [|f IH]; intros s0 l0 o0 HI0; cbn [while].
    - apply does_diverge. rewrite app_nil_r. eauto.
    - apply does_bind. eapply does_weaken; [by eapply Hb|].
      intros [[s'|s'|r']|e|] l1 o1 H1; cbn; try done; try by (apply does_ret; rewrite app_nil_r).
      eapply does_weaken; [apply (IH s' (l0 ++ l1)); done|].
      intros r l2 o2. by rewrite app_assoc. }
  eapply does_weaken; [apply (H fuel s []); done|]. done.
Qed.

Context `{Transport T}.

(** Transport calls leave the object alone. *)
Lemma does_read n tmo o (Q : res bytes -> list event -> Ob -> Prop) :
  (forall r, Q r [EvRead r] o) -> does (read n tmo) o Q.
Proof. intros HQ w <-. unfold read. destruct (t_read _ _ _) as [r t]. exists [EvRead r]. eauto. Qed.

Lemma does_write d o (Q : res unit -> list event -> Ob -> Prop) :
  (forall r, Q r [EvWrite d r] o) -> does (write d) o Q.
Proof. intros HQ w <-. unfold write. destruct (t_write _ _) as [r t]. exists [EvWrite d r]. eauto. Qed.

Lemma does_flush_input o (Q : res unit -> list event -> Ob -> Prop) :
  (forall r, Q r [EvFlushInput r] o) -> does flush_input o Q.
Proof. intros HQ w <-. unfold flush_input. destruct (t_flush_input _) as [r t]. exists [EvFlushInput r]. eauto. Qed.

Lemma does_flush_output o (Q : res unit -> list event -> Ob -> Prop) :
  (forall r, Q r [EvFlushOutput r] o) -> does flush_output o Q.
Proof. intros HQ w <-. unfold flush_output. destruct (t_flush_output _) as [r t]. exists [EvFlushOutput r]. eauto. Qed.

Lemma does_monotonic o (Q : res Z -> list event -> Ob -> Prop) :
  (forall z, Q (Ok z) [] o) -> does monotonic o Q.
Proof.
  intros HQ w <-. unfold monotonic. destruct (t_monotonic _) as [r t]. exists []. rewrite app_nil_r. eauto.
Qed.

Lemma does_sleep d o (Q : res unit -> list event -> Ob -> Prop) : Q (Ok tt) [] o -> does (sleep d) o Q.
Proof. intros HQ w <-. exists []. rewrite app_nil_r. eauto. Qed.

End Does.

(** One step of such a proof. *)
Ltac does_step :=
  lazymatch goal with
  | |- does (bind _ _) _ _ => apply does_bind
  | |- does (ret _) _ _ => apply does_ret
  | |- does (raise _) _ _ => apply does_raise
  | |- does diverge _ _ => apply does_diverge
  | |- does (lift _) _ _ => apply does_lift
  | |- does (try_except _ _ _) _ _ => apply does_try
  | |- does (read _ _) _ _ => apply does_read; intros [?|?|]; cbn
  | |- does (write _) _ _ => apply does_write; intros [[]|?|]; cbn
  | |- does flush_input _ _ => apply does_flush_input; intros [[]|?|]; cbn
  | |- does flush_output _ _ => apply does_flush_output; intros [[]|?|]; cbn
  | |- does monotonic _ _ => apply does_monotonic; intros ?; cbn
  | |- does (sleep _) _ _ => apply does_sleep; cbn
  | |- does get_obj _ _ => apply does_get_obj; cbn
  | |- does (put_obj _) _ _ => apply does_put_obj; cbn
  | |- does (if ?b then _ else _) _ _ => destruct b eqn:?
  end.

(** ** Invariants of the object

  [keeps P m]: from an object that satisfies [P], [m] ends with one, whatever
  its result, and only adds to the log. *)
Section Keeps.
Context {T Ob : Type} (P : Ob -> Prop).

Definition keeps {A} (m : M T Ob A) : Prop := forall o, P o -> does m o (fun _ _ o' => P o').

Lemma keeps_ret {A} (a : A) : keeps (ret a).
Proof. intros o Ho. by apply does_ret. Qed.
Lemma keeps_raise {A} e : keeps (A := A) (raise e).
Proof. intros o Ho. by apply does_raise. Qed.
Lemma keeps_diverge {A} : keeps (A := A) diverge.
Proof. intros o Ho. by apply does_diverge. Qed.
Lemma keeps_lift {A} (r : res A) : keeps (lift r).
Proof. intros o Ho. by apply does_lift. Qed.
Lemma keeps_put_obj o' : P o' -> keeps (put_obj o').
Proof. intros Ho' o Ho. by apply does_put_obj. Qed.

Lemma keeps_bind {A B} (m : M T Ob A) (f : A -> M T Ob B) : keeps m -> (forall a, keeps (f a)) -> keeps (bind m f).
Proof.
  intros Hm Hf o Ho. apply does_bind. eapply does_weaken; [by apply Hm|].
  intros [a|e|] l o' Ho'; [|done..]. by apply Hf.
Qed.

(** Reading the fields tells that they satisfy the invariant. *)
Lemma keeps_get {B} (f : Ob -> M T Ob B) : (forall o, P o -> keeps (f o)) -> keeps (bind get_obj f).
Proof. intros Hf o Ho. apply does_bind, does_get_obj. by apply Hf. Qed.

Lemma keeps_try {A} (m : M T Ob A) p h : keeps m -> (forall e, keeps (h e)) -> keeps (try_except m p h).
Proof.
  intros Hm Hh o Ho. apply does_try. eapply does_weaken; [by apply Hm|].
  intros [a|e|] l o' Ho'; try done. destruct (p e); [by apply Hh|done].
Qed.

Lemma keeps_foreach {S R X} (xs : list X) (body : X -> S -> M T Ob (ctl S R)) s :
  (forall x s, keeps (body x s)) -> keeps (foreach xs body s).
Proof.
  intros Hb o Ho. apply (does_foreach (fun _ _ _ o' => P o')); [done| |done].
  intros done x rest s0 l0 o0 _ Ho0. eapply does_weaken; [by apply Hb|]. by intros [[]|e|] l o'.
Qed.

Lemma keeps_while {S R} fuel (body : S -> M T Ob (ctl S R)) s : (forall s, keeps (body s)) -> keeps (while fuel body s).
Proof.
  intros Hb o Ho. apply (does_while (fun _ _ o' => P o')); [done| |done].
  intros s0 l0 o0 Ho0. eapply does_weaken; [by apply Hb|]. by intros [[]|e|] l o'.
Qed.

(** A run that leaves the object alone. *)
Lemma keeps_same {A} (m : M T Ob A) :
  (forall w, exists l, log (snd (m w)) = log w ++ l /\ obj (snd (m w)) = obj w) -> keeps m.
Proof. intros Hm o Ho w <-. destruct (Hm w) as (l & Hl & Ho'). exists l. by rewrite Ho'. Qed.

Context `{Transport T}.

Lemma keeps_read n tmo : keeps (read n tmo).
Proof. intros o Ho. by apply does_read. Qed.
Lemma keeps_write d : keeps (write d).
Proof. intros o Ho. by apply does_write. Qed.
Lemma keeps_flush_input : keeps flush_input.
Proof. intros o Ho. by apply does_flush_input. Qed.
Lemma keeps_flush_output : keeps flush_output.
Proof. intros o Ho. by apply does_flush_output. Qed.
Lemma keeps_monotonic : keeps monotonic.
Proof. intros o Ho. by apply does_monotonic. Qed.
Lemma keeps_sleep d : keeps (sleep d).
Proof. intros o Ho. by apply does_sleep. Qed.
Lemma keeps_bytes_waiting : keeps bytes_waiting.
Proof.
  apply keeps_same. intros w. unfold bytes_waiting. destruct (t_bytes_waiting _). exists []. by rewrite app_nil_r.
Qed.
Lemma keeps_unread d : keeps (unread d).
Proof. apply keeps_same. intros w. unfold unread. destruct (t_unread _ _). exists []. by rewrite app_nil_r. Qed.

End Keeps.

Create HintDb keeps.
#[export] Hint Resolve keeps_ret keeps_raise keeps_diverge keeps_lift keeps_read keeps_write keeps_flush_input
  keeps_flush_output keeps_monotonic keeps_sleep keeps_bytes_waiting keeps_unread : keeps.

(** Walks through the code; what is left are calls with their own lemmas and
    the writes to the object. *)
Ltac keeps_go :=
  repeat lazymatch goal with
  | |- keeps _ (bind get_obj _) => apply keeps_get; intros ? ?
  | |- keeps _ (bind _ _) => apply keeps_bind; [|intros ?]
  | |- keeps _ (try_except _ _ _) => apply keeps_try; [|intros ?]
  | |- keeps _ (foreach _ _ _) => apply keeps_foreach; intros ? ?
  | |- keeps _ (while _ _ _) => apply keeps_while; intros ?
  | |- keeps _ (put_obj _) => apply keeps_put_obj
  | |- keeps _ ((let (_, _) := ?x in _) _) => destruct x
  | |- keeps _ (let (_, _) := ?x in _) => destruct x
  | |- keeps _ (match ?x with _ => _ end) => destruct x
  | |- keeps _ _ => progress eauto with keeps nocore
  end; try done; eauto with keeps nocore.

(** What the value of a run satisfies, whatever the calls in it returned. *)
Definition yields {T Ob A} (m : M T Ob A) (Q : A -> Prop) : Prop := forall w a w', m w = (Ok a, w') -> Q a.

Lemma yields_ret {T Ob A} (a : A) (Q : A -> Prop) : Q a -> yields (T := T) (Ob := Ob) (ret a) Q.
Proof. by intros Ha w a' w' [= <- _]. Qed.
Lemma yields_bind {T Ob A B} (m : M T Ob A) (f : A -> M T Ob B) Q : (forall a, yields (f a) Q) -> yields (bind m f) Q.
Proof. intros Hf w b w'. unfold bind. destruct (m w) as [[a|e|] w1]; [apply Hf|done..]. Qed.
Lemma yields_after {T Ob A B} (m : M T Ob A) (f : A -> M T Ob B) P Q :
  yields m P -> (forall a, P a -> yields (f a) Q) -> yields (bind m f) Q.
Proof. intros Hm Hf w b w'. unfold bind. destruct (m w) as [[a|e|] w1] eqn:E; [|done..]. apply Hf. by eapply Hm. Qed.
Lemma yields_raise {T Ob A} e (Q : A -> Prop) : yields (T := T) (Ob := Ob) (raise e) Q.
Proof. by intros w a w'. Qed.
Lemma yields_diverge {T Ob A} (Q : A -> Prop) : yields (T := T) (Ob := Ob) diverge Q.
Proof. by intros w a w'. Qed.

Ltac yields_go :=
  repeat lazymatch goal with
  | |- yields (ret _) _ => apply yields_ret
  | |- yields (raise _) _ => apply yields_raise
  | |- yields diverge _ => apply yields_diverge
  | |- yields (bind _ _) _ => apply yields_bind; intros ?
  | |- yields (let (_, _) := ?x in _) _ => destruct x
  | |- yields (match ?x with _ => _ end) _ => destruct x
  end.

(** ** MockTransport satisfies the laws *)

#[export] Instance Mock_Laws : TransportLaws MockTransport.
Proof.
  split; try done.
  - cbn. unfold Mock_read. intros n tmo t d t' H Hn.
    destruct (m_closed t); [by simplify_eq|].
    destruct (beq _ _); [by repeat case_match|]. simplify_eq.
    rewrite len_slice by lia. pose proof (len_nonneg (rx_buffer t)). lia.
  - cbn. unfold Mock_read. intros n tmo t. by repeat case_match.
  - cbn. unfold Mock_write. intros d t. by case_match.
Qed.

Lemma Mock_read_some size tmo m :
  m_closed m = false -> rx_buffer m <> [] ->
  Mock_read size tmo m =
    (Ok (take (Z.to_nat (Z.min size (len (rx_buffer m)))) (rx_buffer m)),
     Mock (drop (Z.to_nat (Z.min size (len (rx_buffer m)))) (rx_buffer m))
          (tx_log m) (m_closed m) (flush_clears m) (clock m)).
Proof.
  intros Hc Hb. unfold Mock_read. rewrite Hc.
  replace (beq (rx_buffer m) []) with false by (symmetry; by apply bool_decide_eq_false).
  unfold slice. by rewrite Z.sub_0_r, drop_0.
Qed.

(** ** read_exact *)

Definition reads (l : list event) : bytes :=
  concat (omap (fun e => match e with EvRead (Ok d) => Some d | _ => None end) l).

Lemma reads_app a b : reads (a ++ b) = reads a ++ reads b.
Proof. unfold reads. by rewrite omap_app, concat_app. Qed.

Definition writes (l : list event) : list bytes :=
  omap (fun e => match e with EvWrite d _ => Some d | _ => None end) l.

Lemma writes_app a b : writes (a ++ b) = writes a ++ writes b.
Proof. unfold writes. by rewrite omap_app. Qed.

Lemma reads_cons e l : reads (e :: l) = reads [e] ++ reads l.
Proof. apply (reads_app [e]). Qed.

Lemma writes_cons e l : writes (e :: l) = writes [e] ++ writes l.
Proof. apply (writes_app [e]). Qed.

Create Rewrite HintDb trace.
#[export] Hint Rewrite reads_app writes_app @app_nil_r : trace.

(** [silent m]: running [m] writes nothing to the transport. *)
Section Silent.
Context {T Ob : Type}.

Definition silent {A} (m : M T Ob A) : Prop := emits m (fun _ l => writes l = []).

Lemma silent_bind {A B} (m : M T Ob A) (f : A -> M T Ob B) :
  silent m -> (forall a, silent (f a)) -> silent (bind m f).
Proof.
  intros Hm Hf. apply emits_bind. eapply emits_weaken; [apply Hm|].
  intros [a|e|] l Hl; [|done..]. eapply emits_weaken; [apply Hf|].
  intros r l' Hl'. cbn in *. by rewrite writes_app, Hl, Hl'.
Qed.

Lemma silent_try {A} (m : M T Ob A) p h :
  silent m -> (forall e, silent (h e)) -> silent (try_except m p h).
Proof.
  intros Hm Hh. apply emits_try. eapply emits_weaken; [apply Hm|].
  intros [a|e|] l Hl; [done| |done]. destruct (p e); [|done].
  eapply emits_weaken; [apply Hh|]. intros r l' Hl'. cbn in *. by rewrite writes_app, Hl, Hl'.
Qed.

Lemma silent_ret {A} (a : A) : silent (ret a).
Proof. by apply emits_ret. Qed.
Lemma silent_raise {A} e : silent (raise (A := A) e).
Proof. by apply emits_raise. Qed.
Lemma silent_diverge {A} : silent (diverge (A := A)).
Proof. by apply emits_diverge. Qed.
Lemma silent_lift {A} (r : res A) : silent (lift r).
Proof. by apply emits_lift. Qed.
Lemma silent_get_obj : silent get_obj.
Proof. by apply emits_get_obj. Qed.
Lemma silent_put_obj o : silent (put_obj o).
Proof. by apply emits_put_obj. Qed.

Lemma silent_foreach {S R X} (xs : list X) (body : X -> S -> M T Ob (ctl S R)) s :
  (forall x s, silent (body x s)) -> silent (foreach xs body s).
Proof.
  intros Hb. revert s. induction xs as [|x xs IH]; intros s; [apply silent_ret|].
  apply silent_bind; [done|]. intros [?|?|?]; [done|apply silent_ret..].
Qed.

Lemma silent_while {S R} fuel (body : S -> M T Ob (ctl S R)) s :
  (forall s, silent (body s)) -> silent (while fuel body s).
Proof.
  intros Hb. revert s. induction fuel as [|n IH]; intros s; [apply silent_diverge|].
  apply silent_bind; [done|]. intros [?|?|?]; [done|apply silent_ret..].
Qed.

Context `{Transport T}.

Lemma silent_read n tmo : silent (read n tmo).
Proof. by apply emits_read. Qed.
Lemma silent_flush_input : silent flush_input.
Proof. by apply emits_flush_input. Qed.
Lemma silent_flush_output : silent flush_output.
Proof. by apply emits_flush_output. Qed.
Lemma silent_set_baudrate b : silent (set_baudrate b).
Proof. by apply emits_set_baudrate. Qed.
Lemma silent_bytes_waiting : silent bytes_waiting.
Proof. by apply emits_bytes_waiting. Qed.
Lemma silent_unread d : silent (unread d).
Proof. intros w. unfold unread. destruct (t_unread _ _). exists []. by rewrite app_nil_r. Qed.
Lemma silent_monotonic : silent monotonic.
Proof. by apply emits_monotonic. Qed.
Lemma silent_sleep d : silent (sleep d).
Proof. by apply emits_sleep. Qed.

(** A silent step in front does not change what is written. *)
Lemma emits_silent {A} (m : M T Ob A) (Q : res A -> list event -> Prop) :
  silent m -> (forall r l, writes l = [] -> Q r l) -> emits m Q.
Proof. intros Hm HQ. eapply emits_weaken; [apply Hm|]. auto. Qed.

End Silent.

Create HintDb silent discriminated.
#[export] Hint Resolve silent_ret silent_raise silent_diverge silent_lift
  silent_get_obj silent_put_obj silent_read silent_flush_input silent_flush_output silent_set_baudrate silent_bytes_waiting silent_unread silent_monotonic silent_sleep : silent.

(** Proves [silent m] for code that calls no [write]. *)
Ltac silence :=
  repeat lazymatch goal with
  | |- forall _, _ => intro
  | |- silent (bind _ _) => apply silent_bind
  | |- silent (try_except _ _ _) => apply silent_try
  | |- silent (foreach _ _ _) => apply silent_foreach
  | |- silent (while _ _ _) => apply silent_while
  | |- silent (match ?x with _ => _ end) => destruct x
  | |- silent _ => solve [eauto 2 with silent]
  end.

(** [outputs m P]: the outcome of [m] and the buffers it writes satisfy [P]. *)
Section Outputs.
Context {T Ob : Type}.

Definition outputs {A} (m : M T Ob A) (P : res A -> list bytes -> Prop) : Prop :=
  emits m (fun r l => P r (writes l)).

Lemma outputs_weaken {A} (m : M T Ob A) (P Q : res A -> list bytes -> Prop) :
  outputs m P -> (forall r o, P r o -> Q r o) -> outputs m Q.
Proof. intros Hm HPQ. eapply emits_weaken; [apply Hm|]. auto. Qed.

Lemma outputs_bind {A B} (m : M T Ob A) (f : A -> M T Ob B) P :
  outputs m (fun r o =>
    match r with
    | Ok a => outputs (f a) (fun r' o' => P r' (o ++ o'))
    | Raise e => P (Raise e) o
    | Diverge => P Diverge o
    end) ->
  outputs (bind m f) P.
Proof.
  intros Hm. apply emits_bind. eapply emits_weaken; [apply Hm|].
  intros [a|e|] l Hl; [|done..]. eapply emits_weaken; [apply Hl|].
  intros r l' Hl'. cbn in *. by rewrite writes_app.
Qed.

Lemma outputs_ret {A} (a : A) (P : res A -> list bytes -> Prop) : P (Ok a) [] -> outputs (ret a) P.
Proof. intros. by apply emits_ret. Qed.

Lemma outputs_silent {A} (m : M T Ob A) (P : res A -> list bytes -> Prop) :
  silent m -> (forall r, P r []) -> outputs m P.
Proof. intros Hm HP. eapply emits_weaken; [apply Hm|]. intros r l Hl. by rewrite Hl. Qed.

Lemma outputs_silent_bind {A B} (m : M T Ob A) (f : A -> M T Ob B) P :
  silent m -> (forall e, P (Raise e) []) -> P Diverge [] -> (forall a, outputs (f a) P) ->
  outputs (bind m f) P.
Proof.
  intros Hm HR HD Hf. apply outputs_bind. apply outputs_silent; [done|]. intros [a|e|]; [|done..].
  eapply outputs_weaken; [apply Hf|]. done.
Qed.

Lemma outputs_conj {A} (m : M T Ob A) P Q :
  outputs m P -> outputs m Q -> outputs m (fun r o => P r o /\ Q r o).
Proof. intros HP HQ. eapply emits_weaken; [apply (emits_conj m _ _ HP HQ)|]. auto. Qed.

(** Loops: the invariant speaks of the buffers written so far. *)
Lemma outputs_foreach {S R X} (I : list X -> S -> list bytes -> Prop) (xs : list X)
    (body : X -> S -> M T Ob (ctl S R)) s Q :
  I [] s [] ->
  (forall done x rest s o, xs = done ++ x :: rest -> I done s o ->
     outputs (body x s) (fun r o' =>
       match r with
       | Ok (Next s') => I (done ++ [x]) s' (o ++ o')
       | _ => Q r (o ++ o')
       end)) ->
  (forall s o, I xs s o -> Q (Ok (Next s)) o) ->
  outputs (foreach xs body s) Q.
Proof.
  intros HI Hb HQ. apply (emits_foreach (fun d s l => I d s (writes l))); [done| |eauto].
  intros d x rest s0 l0 Hxs H0. eapply emits_weaken; [by eapply Hb|].
  intros [[s'|?|?]|?|] l; cbn; by rewrite writes_app.
Qed.

Lemma outputs_while {S R} (I : S -> list bytes -> Prop) fuel (body : S -> M T Ob (ctl S R)) s Q :
  I s [] ->
  (forall s o, I s o ->
     outputs (body s) (fun r o' =>
       match r with
       | Ok (Next s') => I s' (o ++ o')
       | _ => Q r (o ++ o')
       end)) ->
  (forall s o, I s o -> Q Diverge o) ->
  outputs (while fuel body s) Q.
Proof.
  intros HI Hb HQ. apply (emits_while (fun s l => I s (writes l))); [done| |eauto].
  intros s0 l0 H0. eapply emits_weaken; [by eapply Hb|].
  intros [[s'|?|?]|?|] l; cbn; by rewrite writes_app.
Qed.

End Outputs.

(** [sends P m]: everything [m] writes satisfies [P]. *)
Section Sends.
Context {T Ob : Type} `{Transport T}.
Variable P : bytes -> Prop.

Definition sends {A} (m : M T Ob A) : Prop := emits m (fun _ l => Forall P (writes l)).

Lemma sends_bind {A B} (m : M T Ob A) (f : A -> M T Ob B) : sends m -> (forall a, sends (f a)) -> sends (bind m f).
Proof.
  intros Hm Hf. apply emits_bind. eapply emits_weaken; [exact Hm|]. intros [a|e|] l Hl; [|done..].
  eapply emits_weaken; [apply Hf|]. intros r' l' Hl'. rewrite writes_app. by apply Forall_app.
Qed.

Lemma sends_try {A} (m : M T Ob A) p h : sends m -> (forall e, sends (h e)) -> sends (try_except m p h).
Proof.
  intros Hm Hh. apply emits_try. eapply emits_weaken; [exact Hm|]. intros [a|e|] l Hl; [done| |done].
  destruct (p e); [|done]. eapply emits_weaken; [apply Hh|]. intros r' l' Hl'. rewrite writes_app. by apply Forall_app.
Qed.

Lemma sends_foreach {S R X} (xs : list X) (body : X -> S -> M T Ob (ctl S R)) s :
  (forall x s, sends (body x s)) -> sends (foreach xs body s).
Proof.
  intros Hb. revert s. induction xs as [|x xs IH]; intros s; [by apply emits_ret|].
  apply sends_bind; [apply Hb|]. intros [s'|s'|r]; [apply IH|by apply emits_ret..].
Qed.

Lemma sends_while {S R} fuel (body : S -> M T Ob (ctl S R)) s : (forall s, sends (body s)) -> sends (while fuel body s).
Proof.
  intros Hb. revert s. induction fuel as [|n IH]; intros s; [by apply emits_diverge|].
  apply sends_bind; [apply Hb|]. intros [s'|s'|r]; [apply IH|by apply emits_ret..].
Qed.

Lemma sends_silent {A} (m : M T Ob A) : silent m -> sends m.
Proof. intros Hm. eapply emits_weaken; [exact Hm|]. intros r l ->. constructor. Qed.
Lemma sends_ret {A} (a : A) : sends (ret a).
Proof. by apply emits_ret. Qed.
Lemma sends_raise {A} e : sends (A := A) (raise e).
Proof. by apply emits_raise. Qed.
Lemma sends_diverge {A} : sends (A := A) diverge.
Proof. by apply emits_diverge. Qed.
Lemma sends_lift {A} (r : res A) : sends (lift r).
Proof. by apply emits_lift. Qed.
Lemma sends_get_obj : sends get_obj.
Proof. by apply emits_get_obj. Qed.
Lemma sends_put_obj o : sends (put_obj o).
Proof. by apply emits_put_obj. Qed.
Lemma sends_read n tmo : sends (read n tmo).
Proof. by apply emits_read. Qed.
Lemma sends_write d : P d -> sends (write d).
Proof. intros Hd. apply emits_write. intros r. by constructor. Qed.
Lemma sends_flush_input : sends flush_input.
Proof. by apply emits_flush_input. Qed.
Lemma sends_flush_output : sends flush_output.
Proof. by apply emits_flush_output. Qed.
Lemma sends_monotonic : sends monotonic.
Proof. by apply emits_monotonic. Qed.
Lemma sends_sleep d : sends (sleep d).
Proof. by apply emits_sleep. Qed.
Lemma sends_bytes_waiting : sends bytes_waiting.
Proof. by apply emits_bytes_waiting. Qed.

End Sends.

Create HintDb sends.
#[export] Hint Resolve sends_ret sends_raise sends_diverge sends_lift sends_get_obj sends_put_obj sends_read sends_flush_input
  sends_flush_output sends_monotonic sends_sleep sends_bytes_waiting : sends.

(** Walks through the code; what is left are the writes and the calls. *)
Ltac sends_go :=
  repeat lazymatch goal with
  | |- sends _ (bind _ _) => apply sends_bind; [|intros ?]
  | |- sends _ (try_except _ _ _) => apply sends_try; [|intros ?]
  | |- sends _ (foreach _ _ _) => apply sends_foreach; intros ? ?
  | |- sends _ (while _ _ _) => apply sends_while; intros ?
  | |- sends _ (write _) => apply sends_write
  | |- sends _ (match ?x with _ => _ end) => destruct x
  | |- sends _ _ => progress eauto with sends nocore
  end; try done; eauto with sends nocore.

(** [total m]: running [m] always ends. *)
Section Total.
Context {T Ob : Type}.

Definition total {A} (m : M T Ob A) : Prop := forall w, fst (m w) <> Diverge.

Lemma total_bind {A B} (m : M T Ob A) (f : A -> M T Ob B) :
  total m -> (forall a, total (f a)) -> total (bind m f).
Proof.
  intros Hm Hf w. unfold bind. specialize (Hm w). destruct (m w) as [[a|e|] w']; [apply Hf|done..].
Qed.

Lemma total_try {A} (m : M T Ob A) p h :
  total m -> (forall e, total (h e)) -> total (try_except m p h).
Proof.
  intros Hm Hh w. unfold try_except. specialize (Hm w). destruct (m w) as [[a|e|] w']; [done| |done].
  destruct (p e); [apply Hh|done].
Qed.

Lemma total_ret {A} (a : A) : total (ret a).
Proof. done. Qed.
Lemma total_raise {A} e : total (raise (A := A) e).
Proof. done. Qed.
Lemma total_lift {A} (r : res A) : r <> Diverge -> total (lift r).
Proof. by intros ? ?. Qed.
Lemma total_get_obj : total get_obj.
Proof. done. Qed.
Lemma total_put_obj o : total (put_obj o).
Proof. done. Qed.

Lemma total_foreach {S R X} (xs : list X) (body : X -> S -> M T Ob (ctl S R)) s :
  (forall x s, total (body x s)) -> total (foreach xs body s).
Proof.
  intros Hb. revert s. induction xs as [|x xs IH]; intros s; [apply total_ret|].
  apply total_bind; [done|]. intros [?|?|?]; [done|apply total_ret..].
Qed.

(** A loop whose turns decrease a measure ends. *)
Lemma total_while {S R} (mu : S -> nat) fuel (body : S -> M T Ob (ctl S R)) s :
  (forall s, total (body s)) ->
  (forall s w s' w', body s w = (Ok (Next s'), w') -> (mu s' < mu s)%nat) ->
  (mu s < fuel)%nat -> total (while fuel body s).
Proof.
  intros Hb Hd. revert s. induction fuel as [|n IH]; intros s Hs w; [lia|].
  cbn [while]. unfold bind. specialize (Hb s w).
  destruct (body s w) as [[[s'|?|?]|e|] w'] eqn:E; try done.
  apply IH. apply Hd in E. lia.
Qed.

Context `{TransportLaws T}.

Lemma total_read n tmo : total (read n tmo).
Proof. intros w. unfold read. pose proof (t_read_ret n tmo (tr w)). by destruct (t_read _ _ _). Qed.
Lemma total_write d : total (write d).
Proof. intros w. unfold write. pose proof (t_write_ret d (tr w)). by destruct (t_write _ _). Qed.
Lemma total_flush_input : total flush_input.
Proof. intros w. unfold flush_input. pose proof (t_flush_input_ret (tr w)). by destruct (t_flush_input _). Qed.
Lemma total_flush_output : total flush_output.
Proof. intros w. unfold flush_output. pose proof (t_flush_output_ret (tr w)). by destruct (t_flush_output _). Qed.
Lemma total_monotonic : total monotonic.
Proof. intros w. unfold monotonic. by destruct (t_monotonic _). Qed.
Lemma total_sleep d : total (sleep d).
Proof. done. Qed.
Lemma total_bytes_waiting : total bytes_waiting.
Proof. intros w. unfold bytes_waiting. pose proof (t_bytes_waiting_ret (tr w)). by destruct (t_bytes_waiting _). Qed.

End Total.

Create HintDb total discriminated.
#[export] Hint Resolve total_ret total_raise total_get_obj total_put_obj total_read total_write
  total_flush_input total_flush_output total_monotonic total_sleep total_bytes_waiting : total.

(** Proves [total m] for code without [while] loops. *)
Ltac totality :=
  repeat lazymatch goal with
  | |- forall _, _ => intro
  | |- total (bind _ _) => apply total_bind
  | |- total (try_except _ _ _) => apply total_try
  | |- total (foreach _ _ _) => apply total_foreach
  | |- total (match ?x with _ => _ end) => destruct x
  | |- total _ => solve [eauto 2 with total]
  end.

Section ReadExact.
Context {T Ob : Type} `{TransportLaws T}.

Lemma emits_silent_deadline timeout :
  emits (T := T) (Ob := Ob) (read_exact_deadline timeout) (fun r l => l = []).
Proof. destruct timeout; cbn; repeat emits_step; done. Qed.

Lemma emits_silent_time_left deadline :
  emits (T := T) (Ob := Ob) (read_exact_time_left deadline) (fun r l => l = []).
Proof. destruct deadline; cbn; repeat emits_step; done. Qed.

Lemma emits_read_exact fuel size timeout :
  emits (T := T) (Ob := Ob) (read_exact fuel size timeout)
    (fun r l => match r with Ok d => d = reads l | _ => True end).
Proof.
  unfold read_exact. emits_step. eapply emits_weaken; [apply emits_silent_deadline|].
  intros [deadline|e|] l -> ; [|done..]. emits_step.
  eapply emits_weaken; [apply (emits_while (fun '(buf, _) l => buf = reads l))
      with (Q := fun r l => match r with
        Ok (Brk (b, _)) => b = reads l | Ok _ => False | _ => True end)|].
  - done.
  - intros [buf rem] l0 ->. unfold read_exact_body. emits_step.
    + apply emits_ret. by rewrite app_nil_r.
    + emits_step. eapply emits_weaken; [apply emits_silent_time_left|].
      intros [tl|e|] l ->; [|done..]. repeat emits_step; try done.
      rewrite reads_app. unfold reads at 3. cbn. by rewrite app_nil_r.
  - done.
  - intros [[[b ?]|[b ?]|b]|e|] l Hr; try done. by apply emits_ret; rewrite app_nil_r.
Qed.

Lemma read_exact_loop fuel deadline buf rem w :
  0 <= rem ->
  match while fuel (read_exact_body (T := T) (Ob := Ob) deadline) (buf, rem) w with
  | (Ok c, _) => exists b, c = Brk b /\ len (fst b) = len buf + rem
  | (Raise _, _) => True
  | (Diverge, _) => (fuel <= Z.to_nat rem)%nat
  end.
Proof.
  revert buf rem w. induction fuel as [|fuel IH]; intros buf rem w Hr; cbn [while].
  { cbn. lia. }
  unfold bind at 1, read_exact_body at 1. destruct (negb (0 <? rem)) eqn:E; b2p.
  { cbn. exists (buf, rem). split; [done|]. cbn. lia. }
  unfold bind at 1.
  assert (Ht : fst (read_exact_time_left (T := T) (Ob := Ob) deadline w) <> Diverge).
  { unfold read_exact_time_left, bind, monotonic. destruct deadline; [|done].
    destruct (t_monotonic _). by destruct (_ <=? 0). }
  destruct (read_exact_time_left deadline w) as [[tl|e|] w3]; [|done|done].
  unfold bind at 1, read. pose proof (t_read_ret rem tl (tr w3)) as Hd.
  destruct (t_read rem tl (tr w3)) as [[ck|e|] t] eqn:Er; [|done|done].
  apply t_read_ok in Er as Hl; [|lia].
  destruct (beq ck []) eqn:Eb; [done|]. b2p. cbn [ret].
  assert (0 < len ck) by (unfold len; destruct ck; [done | cbn; lia]).
  specialize (IH (buf ++ ck) (rem - len ck)).
  match goal with |- context [while _ _ _ ?w0] => specialize (IH w0 ltac:(lia)) end.
  destruct (while _ _ _ _) as [[c|e|] w2]; [|done|lia].
  destruct IH as (b & -> & Hb). exists b. split; [done|]. rewrite Hb, len_app. lia.
Qed.

(** [read_exact] over any transport that keeps the [read] contract: with
    fuel above the requested size it always ends, and when it returns it
    returns exactly [size] bytes, which are the bytes the transport delivered
    during the call, in order. *)
Theorem read_exact_exact fuel size timeout (w : world T Ob) :
  0 <= size -> (Z.to_nat size < fuel)%nat ->
  match read_exact fuel size timeout w with
  | (Ok d, w') => len d = size /\ exists l, log w' = log w ++ l /\ d = reads l
  | (Raise _, _) => True
  | (Diverge, _) => False
  end.
Proof.
  intros Hs Hf. destruct (emits_read_exact fuel size timeout w) as (l & Hl & Hd).
  revert Hl Hd. unfold read_exact, bind.
  assert (Ht : fst (read_exact_deadline (T := T) (Ob := Ob) timeout w) <> Diverge).
  { unfold read_exact_deadline, bind, monotonic. destruct timeout; [|done].
    by destruct (t_monotonic _). }
  destruct (read_exact_deadline timeout w) as [[deadline|e|] w1]; [|done|done].
  pose proof (read_exact_loop fuel deadline [] size w1 Hs) as Hw.
  destruct (while _ _ _ _) as [[c|e|] w2]; [|done|lia].
  destruct Hw as ([b rem] & -> & Hb). cbn in *. eauto.
Qed.

End ReadExact.


Theorem read_exact_exact_witness :
  0 <= 2 /\ (Z.to_nat 2 < 3)%nat /\
  match read_exact 3 2 (Some 5000) (World (Mock [7; 8; 9] [] false true 0) tt []) with
  | (Ok d, w') => len d = 2 /\ exists l, log w' = [] ++ l /\ d = reads l
  | (Raise _, _) => True
  | (Diverge, _) => False
  end.
Proof.
  split; [lia|]. split; [vm_compute; lia|].
  apply (read_exact_exact (T := MockTransport) (Ob := unit) 3 2 (Some 5000)
           (World (Mock [7; 8; 9] [] false true 0) tt [])); [lia | vm_compute; lia].
Defined.
