(* ===== verification/AgentProtocol.v ===== *)
(** * The flash agent's packet layer

  Models [src/src/defib/agent/protocol.py]: packets are
  [COBS(cmd ++ data ++ crc32) ++ 0x00].  [_consume] walks received bytes and
  accumulates a frame; [recv_packet] drives it over an asynchronous transport
  and keeps the bytes after a packet's delimiter in a leftover buffer for the
  next call; [_recv_packet_sync] does the same over a pyserial port (a third
  party object, here the class [Port]).  The module-level buffers
  [_async_leftover] and [_port_buffers] have one entry per transport, so they
  are fields of the object the code works for, next to the fields of
  [FlashAgentClient] (see [AgentClient]). *)

From S2P Require Import Prelude Crc Cobs Transport.

Definition CMD_INFO : Z := 0x01.
Definition CMD_READ : Z := 0x02.
Definition CMD_WRITE : Z := 0x03.
Definition CMD_ERASE : Z := 0x04.
Definition CMD_CRC32 : Z := 0x05.
Definition CMD_REBOOT : Z := 0x06.
Definition CMD_SELFUPDATE : Z := 0x07.
Definition CMD_SET_BAUD : Z := 0x08.
Definition CMD_SCAN : Z := 0x09.
Definition CMD_FLASH_STREAM : Z := 0x0B.
Definition CMD_MARK_BAD : Z := 0x0C.
Definition CMD_MEMBW : Z := 0x0D.
Definition CMD_NAND : Z := 0x0E.
Definition RSP_INFO : Z := 0x81.
Definition RSP_DATA : Z := 0x82.
Definition RSP_ACK : Z := 0x83.
Definition RSP_CRC32 : Z := 0x84.
Definition RSP_READY : Z := 0x85.
Definition RSP_SCAN : Z := 0x86.
Definition RSP_MEMBW : Z := 0x87.
Definition RSP_NAND : Z := 0x88.
Definition ACK_OK : Z := 0x00.
Definition ACK_FLASH_ERROR : Z := 0x02.
Definition MAX_PACKET_SIZE : Z := 1100.

(** ** Packets *)

(** [bytes([cmd])] raises ValueError outside 0..255. *)
Definition build_packet (cmd : Z) (data : bytes) : res bytes :=
  if negb (bool_decide (is_byte cmd)) then Raise ValueError else
  let raw := cmd :: data in
  let! crc := pack_le 4 (Z.land (crc32 raw) 0xFFFFFFFF) in
  Ok (encode (raw ++ crc) ++ [0]).

Definition parse_packet (raw : bytes) : res (Z * bytes) :=
  let! decoded := decode raw in
  if len decoded <? 5 then Raise ValueError else
  let payload := but_last 4 decoded in
  let expected_crc := le_int (last_n 4 decoded) in
  let actual_crc := Z.land (crc32 payload) 0xFFFFFFFF in
  if negb (actual_crc =? expected_crc) then Raise ValueError else
  let! c := index payload 0 in
  Ok (c, drop 1 payload).

(** ** The receive walk

  [consume data frame]: the packet found, if any; the frame accumulated when
  the data ended without one; and the bytes after the delimiter of the packet
  found. *)
Fixpoint consume (data frame : bytes) : option (Z * bytes) * bytes * bytes :=
  match data with
  | [] => (None, frame, [])
  | byte :: data' =>
      if byte =? 0 then
        if negb (beq frame []) then
          match parse_packet frame with
          | Ok result => (Some result, [], data')
          | _ => consume data' []
          end
        else consume data' frame
      else
        let frame := frame ++ [byte] in
        consume data' (if MAX_PACKET_SIZE <? len frame then [] else frame)
  end.

(** ** Objects *)

(** The buffers of the packet layer and the fields of [FlashAgentClient]. *)
Record agent := Agent {
  leftover : bytes;
  portbuf : bytes;
  a_connected : bool;
  flash_size : Z;
  ram_base : Z;
  sector_size : Z;
  flash_mem : Z;
  current_baud : Z
}.

Definition set_leftover (b : bytes) (a : agent) : agent :=
  Agent b (portbuf a) (a_connected a) (flash_size a) (ram_base a) (sector_size a) (flash_mem a)
        (current_baud a).
Definition set_portbuf (b : bytes) (a : agent) : agent :=
  Agent (leftover a) b (a_connected a) (flash_size a) (ram_base a) (sector_size a) (flash_mem a)
        (current_baud a).

Section Async.
Context {T : Type} `{Transport T}.

Definition send_packet (cmd : Z) (data : bytes) : M T agent unit :=
  let* packet := lift (build_packet cmd data) in
  write packet.

(** [_consume] with its effects on [frame] (returned) and [leftover]. *)
Definition consume_m (data frame : bytes) : M T agent (option (Z * bytes) * bytes) :=
  let '(got, frame', rest) := consume data frame in
  let* a := get_obj in
  let* _ := put_obj (if beq rest [] then a else set_leftover (rest ++ leftover a) a) in
  ret (got, frame').

(** The while loop; its state is [frame]. *)
Definition recv_packet_body (deadline : Z) (frame : bytes) : M T agent (ctl bytes (Z * bytes)) :=
  let* now := monotonic in
  if negb (now <? deadline) then ret (Brk frame) else
  let* now := monotonic in
  let remaining := deadline - now in
  if remaining <=? 0 then ret (Brk frame) else
  try_except
    (let* data := read 256 (Some (Z.min remaining 1000000)) in
     let* (got, frame') := consume_m data frame in
     match got with
     | Some p => ret (Rtn p)
     | None => ret (Next frame')
     end)
    is_TransportTimeout
    (fun _ => ret (Next frame)).

Definition recv_packet (fuel : nat) (timeout : Z) : M T agent (Z * bytes) :=
  let* t0 := monotonic in
  let deadline := t0 + timeout in
  let* a := get_obj in
  let* (got, frame) :=
    if negb (beq (leftover a) []) then
      let* _ := put_obj (set_leftover [] a) in
      consume_m (leftover a) []
    else ret (None, []) in
  match got with
  | Some p => ret p
  | None =>
      let* c := while fuel (recv_packet_body deadline) frame in
      match c with
      | Rtn p => ret p
      | _ => raise TransportTimeout
      end
  end.

(** [recv_response]: skips READY packets within one deadline.  [fuel] bounds
    both the packets skipped and the reads of each [recv_packet]. *)
Definition recv_response_body (fuel : nat) (deadline : Z) (_ : unit)
    : M T agent (ctl unit (Z * bytes)) :=
  let* now := monotonic in
  let remaining := deadline - now in
  if remaining <=? 0 then ret (Brk tt) else
  let* (cmd, data) := recv_packet fuel remaining in
  if negb (cmd =? RSP_READY) then ret (Rtn (cmd, data)) else ret (Next tt).

Definition recv_response (fuel : nat) (timeout : Z) : M T agent (Z * bytes) :=
  let* t0 := monotonic in
  let* c := while fuel (recv_response_body fuel (t0 + timeout)) tt in
  match c with
  | Rtn p => ret p
  | _ => raise TransportTimeout
  end.

(** [wait_for_ready]: the drain after READY ignores every exception. *)
Definition wait_for_ready_drain : M T agent unit :=
  let* _ := sleep 100000 in
  try_except
    (let* w := bytes_waiting in
     if 0 <? w then let* _ := read w (Some 100000) in ret tt else ret tt)
    is_Exception (fun _ => ret tt).

Definition wait_for_ready_body (fuel : nat) (deadline : Z) (_ : unit)
    : M T agent (ctl unit bool) :=
  let* now := monotonic in
  if negb (now <? deadline) then ret (Brk tt) else
  let* now := monotonic in
  let remaining := deadline - now in
  if remaining <=? 0 then ret (Brk tt) else
  try_except
    (let* (cmd, data) := recv_packet fuel remaining in
     if cmd =? RSP_READY then
       let* _ := wait_for_ready_drain in ret (Rtn true)
     else ret (Next tt))
    (fun e => is_TransportTimeout e || is_ValueError e)
    (fun _ => ret (Next tt)).

Definition wait_for_ready (fuel : nat) (timeout : Z) : M T agent bool :=
  let* t0 := monotonic in
  let* c := while fuel (wait_for_ready_body fuel (t0 + timeout)) tt in
  match c with
  | Rtn b => ret b
  | _ => ret false
  end.

End Async.

(** ** The synchronous receive over a pyserial port

  [p_in_waiting], [p_read] and [p_timeout] stand for [port.in_waiting],
  [port.read] and [getattr(port, "timeout", None)] of the pyserial object. *)
Class Port (T : Type) := {
  p_in_waiting : T -> res Z * T;
  p_read : Z -> T -> res bytes * T;
  p_timeout : T -> option Z
}.

Section Sync.
Context {T : Type} `{Transport T} `{Port T}.

Definition port_call {A} (f : T -> res A * T) : M T agent A := fun w =>
  let (r, t) := f (tr w) in (r, World t (obj w) (log w)).

(** The next chunk of data; [None] is the [continue] of a blocking port that
    has nothing to read. *)
Definition sync_data : M T agent (option bytes) :=
  let* a := get_obj in
  if negb (beq (portbuf a) []) then
    let* _ := put_obj (set_portbuf [] a) in ret (Some (portbuf a))
  else
    let* waiting := port_call p_in_waiting in
    if 0 <? waiting then let* d := port_call (p_read waiting) in ret (Some d) else
    let* tmo := (fun w => (Ok (p_timeout (tr w)), w)) in
    match tmo with
    | None => let* _ := sleep 2000 in ret None
    | Some _ => let* d := port_call (p_read 1) in ret (Some d)
    end.

Definition recv_packet_sync_body (deadline : Z) (frame : bytes) : M T agent (ctl bytes (Z * bytes)) :=
  let* now := monotonic in
  if negb (now <? deadline) then ret (Brk frame) else
  let* od := sync_data in
  match od with
  | None => ret (Next frame)
  | Some data =>
      if beq data [] then ret (Next frame) else
      let '(got, frame', rest) := consume data frame in
      match got with
      | Some p =>
          let* a := get_obj in
          let* _ := put_obj (set_portbuf (portbuf a ++ rest) a) in
          ret (Rtn p)
      | None => ret (Next frame')
      end
  end.

Definition recv_packet_sync (fuel : nat) (timeout : Z) : M T agent (Z * bytes) :=
  let* t0 := monotonic in
  let* c := while fuel (recv_packet_sync_body (t0 + timeout)) [] in
  match c with
  | Rtn p => ret p
  | _ => raise TransportTimeout
  end.

End Sync.

(** ** Packets: lemmas *)

Lemma land_mask32 c : b32 c -> Z.land c 0xFFFFFFFF = c.
Proof. intros Hc. by apply land_b32 in Hc. Qed.

Lemma fits4_b32 c : b32 c -> fits 4 c = true.
Proof. intros. by apply fits_spec. Qed.

(** The part of a packet before the delimiter. *)
Definition packet_frame (cmd : Z) (data : bytes) : bytes :=
  encode ((cmd :: data) ++ le_bytes 4 (crc32 (cmd :: data))).

Lemma build_packet_eq cmd data :
  is_byte cmd -> is_bytes data -> build_packet cmd data = Ok (packet_frame cmd data ++ [0]).
Proof.
  intros Hc Hd. unfold build_packet. rewrite bool_decide_eq_true_2 by done. cbn [negb].
  assert (Hb : b32 (crc32 (cmd :: data))) by (apply crc32_b32; by constructor).
  unfold pack_le. rewrite land_mask32, fits4_b32 by done. done.
Qed.

Lemma parse_packet_frame cmd data :
  is_byte cmd -> is_bytes data -> parse_packet (packet_frame cmd data) = Ok (cmd, data).
Proof.
  intros Hc Hd. unfold parse_packet, packet_frame.
  assert (Hb : b32 (crc32 (cmd :: data))) by (apply crc32_b32; by constructor).
  destruct (cobs_roundtrip_aux ((cmd :: data) ++ le_bytes 4 (crc32 (cmd :: data)))) as [-> _].
  cbn [res_bind]. set (c := le_bytes 4 _).
  assert (Hl : len c = 4) by (by apply le_bytes_len).
  rewrite len_app, len_cons. pose proof (len_nonneg data).
  replace (_ <? 5) with false by (symmetry; apply Z.ltb_ge; lia).
  rewrite but_last_app, last_n_app by (unfold len in Hl; lia).
  unfold c. rewrite le_int_le_bytes, land_mask32, Z.eqb_refl by (done || by apply fits4_b32).
  done.
Qed.

Lemma packet_frame_nonzero cmd data : Forall (fun b => b <> 0) (packet_frame cmd data).
Proof. apply cobs_roundtrip_aux. Qed.

Lemma packet_frame_nonempty cmd data : packet_frame cmd data <> [].
Proof.
  unfold packet_frame. intros H. pose proof (cobs_len_aux ((cmd :: data) ++ le_bytes 4 (crc32 (cmd :: data)))) as Hl.
  rewrite H, len_nil in Hl. pose proof (len_nonneg ((cmd :: data) ++ le_bytes 4 (crc32 (cmd :: data)))). lia.
Qed.

(** ** The receive walk: lemmas *)

(** Walking a concatenation is walking its parts: how the bytes were cut
    into chunks does not matter. *)
Lemma consume_app a b f :
  consume (a ++ b) f =
    match consume a f with
    | (Some p, f', r) => (Some p, f', r ++ b)
    | (None, f', _) => consume b f'
    end.
Proof.
  revert f. induction a as [|x a IH]; intros f; cbn [app consume]; [done|].
  destruct (x =? 0); [|apply IH].
  destruct (negb (beq f [])); [|apply IH].
  by destruct (parse_packet f) as [p|e|].
Qed.

Lemma consume_none_rest d f f' r : consume d f = (None, f', r) -> r = [].
Proof.
  revert f. induction d as [|x d IH]; intros f; cbn; [by intros [= <- <-]|].
  repeat case_match; eauto; try done.
Qed.

Lemma consume_some_frame d f f' r p : consume d f = (Some p, f', r) -> f' = [].
Proof.
  revert f. induction d as [|x d IH]; intros f; cbn; [done|].
  repeat case_match; eauto; try done. by intros [= _ <- _].
Qed.

(** Bytes that are not delimiters extend the frame. *)
Lemma consume_bytes e rest f :
  Forall (fun b => b <> 0) e -> len f + len e <= MAX_PACKET_SIZE ->
  consume (e ++ rest) f = consume rest (f ++ e).
Proof.
  intros He. revert f. induction He as [|x e Hx He IH]; intros f Hl; cbn [app consume];
    [by rewrite app_nil_r|].
  rewrite len_cons in Hl. pose proof (len_nonneg e).
  replace (x =? 0) with false by (symmetry; by apply Z.eqb_neq).
  rewrite len_app, len_cons, len_nil.
  replace (_ <? _) with false by (symmetry; apply Z.ltb_ge; lia).
  rewrite IH; [by rewrite <- app_assoc|]. rewrite len_app, len_cons, len_nil. lia.
Qed.

Lemma consume_packet cmd data rest :
  is_byte cmd -> is_bytes data -> len (packet_frame cmd data) <= MAX_PACKET_SIZE ->
  consume (packet_frame cmd data ++ 0 :: rest) [] = (Some (cmd, data), [], rest).
Proof.
  intros Hc Hd Hl.
  rewrite consume_bytes; [|apply packet_frame_nonzero|rewrite len_nil; lia].
  cbn [app consume]. change (0 =? 0) with true.
  replace (beq _ _) with false
    by (symmetry; apply bool_decide_eq_false; apply packet_frame_nonempty).
  cbn [negb]. by rewrite parse_packet_frame.
Qed.

(** [parse_packet] raises nothing but ValueError, the exception the walk
    catches. *)
Lemma parse_packet_raise raw e : parse_packet raw = Raise e -> e = ValueError.
Proof.
  unfold parse_packet. destruct (cobs_total_aux raw) as [(d & ->)| ->]; cbn [res_bind]; [|by intros [= <-]].
  destruct (len d <? 5) eqn:Hd; [by intros [= <-]|]. b2p.
  destruct (negb _); [by intros [= <-]|].
  unfold index, but_last. assert ((0 < length d - 4)%nat) by (unfold len in Hd; lia).
  destruct (take (length d - 4) d !! Z.to_nat 0) eqn:E; [done|].
  apply lookup_ge_None in E. rewrite length_take in E. lia.
Qed.

(** ** Receiving over the mock transport *)

Section Stream.
#[local] Arguments consume_m : simpl never.
#[local] Arguments consume : simpl nomatch.

Abbreviation mworld := (world MockTransport agent).

(** The bytes received and not yet consumed. *)
Definition stream (w : mworld) : bytes := leftover (obj w) ++ rx_buffer (tr w).

(** [w'] is [w] with other bytes pending: time has not passed and nothing was
    written. *)
Definition same_line (w w' : mworld) : Prop :=
  m_closed (tr w') = m_closed (tr w) /\ clock (tr w') = clock (tr w) /\
  tx_log (tr w') = tx_log (tr w) /\
  set_leftover [] (obj w') = set_leftover [] (obj w).

#[global] Instance same_line_preorder : PreOrder same_line.
Proof. split; repeat intro; unfold same_line in *; intuition congruence. Qed.

Lemma consume_m_eq d f (w : mworld) :
  consume_m d f w =
    (Ok (fst (consume d f)),
     World (tr w) (set_leftover (snd (consume d f) ++ leftover (obj w)) (obj w)) (log w)).
Proof.
  unfold consume_m. destruct (consume d f) as [[g f'] r]. cbn.
  destruct (beq r []) eqn:E; b2p; subst; [|done].
  by destruct w as [? [] ?].
Qed.

Lemma recv_loop_some fuel dl f (w : mworld) p f' rest :
  m_closed (tr w) = false -> clock (tr w) < dl -> leftover (obj w) = [] ->
  consume (rx_buffer (tr w)) f = (Some p, f', rest) ->
  (length (rx_buffer (tr w)) < fuel)%nat ->
  exists w', while fuel (recv_packet_body dl) f w = (Ok (Rtn p), w') /\
    stream w' = rest /\ same_line w w'.
Proof.
  revert f w. induction fuel as [|fuel IH]; intros f w Hc Hdl Hlo Hcons Hf; [lia|].
  destruct w as [m a lg]. cbn in Hc, Hdl, Hlo, Hcons, Hf.
  assert (Hrx : rx_buffer m <> []) by (intros E; rewrite E in Hcons; done).
  cbn [while]. unfold bind at 1, recv_packet_body at 1. cbn.
  replace (clock m <? dl) with true by (symmetry; apply Z.ltb_lt; lia). cbn.
  replace (dl - clock m <=? 0) with false by (symmetry; apply Z.leb_gt; lia). cbn.
  unfold try_except, bind, read. cbn. rewrite Mock_read_some by done.
  set (k := Z.to_nat _).
  assert (Hk : (0 < k <= length (rx_buffer m))%nat).
  { unfold k, len. destruct (rx_buffer m); [done|cbn [length]; lia]. }
  rewrite <- (take_drop k (rx_buffer m)), consume_app in Hcons.
  cbn. rewrite consume_m_eq.
  destruct (consume (take k (rx_buffer m)) f) as [[[q|] g] r] eqn:Ec; cbn.
  - injection Hcons as -> -> <-. eexists. split; [done|].
    unfold stream, same_line. cbn. by rewrite Hlo, app_nil_r.
  - apply consume_none_rest in Ec as ->. cbn.
    destruct (IH g (World (Mock (drop k (rx_buffer m)) (tx_log m) (m_closed m) (flush_clears m) (clock m))
                 (set_leftover (leftover a) a) (lg ++ [EvRead (Ok (take k (rx_buffer m)))])))
      as (w' & Hw & Hs & Hl); cbn; try done.
    { rewrite length_drop. lia. }
    exists w'. split; [exact Hw|]. split; [done|].
    destruct Hl as (? & ? & ? & ?). unfold same_line. cbn in *. intuition congruence.
Qed.

(** With no packet in the pending bytes the loop runs to its deadline. *)
Lemma recv_loop_none fuel dl f (w : mworld) f' r :
  m_closed (tr w) = false -> leftover (obj w) = [] ->
  consume (rx_buffer (tr w)) f = (None, f', r) ->
  Z.of_nat (length (rx_buffer (tr w))) * 1000 + Z.max 0 (dl - clock (tr w)) + 1000 <= Z.of_nat fuel * 1000 ->
  exists w' g, while fuel (recv_packet_body dl) f w = (Ok (Brk g), w') /\
    dl <= clock (tr w') /\ stream w' = rx_buffer (tr w') /\
    (clock (tr w) < dl -> rx_buffer (tr w') = []).
Proof.
  revert f w. induction fuel as [|fuel IH]; intros f w Hc Hlo Hcons Hf; [lia|].
  destruct w as [m a lg]. cbn in Hc, Hlo, Hcons, Hf.
  cbn [while]. unfold bind at 1, recv_packet_body at 1. cbn.
  destruct (clock m <? dl) eqn:Ed; b2p; cbn.
  2: { do 2 eexists. split; [done|]. unfold stream. cbn. rewrite Hlo.
       split; [lia|]. split; [done|lia]. }
  replace (dl - clock m <=? 0) with false by (symmetry; apply Z.leb_gt; lia). cbn.
  unfold try_except, bind, read. cbn.
  destruct (decide (rx_buffer m = [])) as [Hrx|Hrx].
  - unfold Mock_read. rewrite Hc, Hrx. cbn.
    replace (Z.min (dl - clock m) 1000000 <=? 0) with false by (symmetry; apply Z.leb_gt; lia). cbn.
    set (d := Z.min (Z.min (dl - clock m) 1000000) 1000).
    destruct (IH f (World (Mock_sleep d m) a (lg ++ [EvRead (Raise TransportTimeout)])))
      as (w' & g & Hw & Hcl & Hst & Hcl'); cbn; try done.
    { rewrite Hrx in Hf |- *. cbn [length] in *. unfold d. lia. }
    exists w', g. split; [exact Hw|]. split; [done|]. split; [done|].
    intros _. cbn in Hcl'. destruct (decide (clock m + Z.max 0 d < dl)); [by apply Hcl'|].
    (* the deadline has been reached: the next turn stops *)
    destruct fuel as [|fuel']; [done|]. cbn [while] in Hw.
    unfold bind at 1, recv_packet_body at 1 in Hw. cbn in Hw.
    replace (clock m + Z.max 0 d <? dl) with false in Hw by (symmetry; apply Z.ltb_ge; lia).
    cbn in Hw. by injection Hw as <- <-.
  - rewrite Mock_read_some by done.
    set (k := Z.to_nat _).
    assert (Hk : (0 < k <= length (rx_buffer m))%nat).
    { unfold k, len. destruct (rx_buffer m); [done|cbn [length]; lia]. }
    rewrite <- (take_drop k (rx_buffer m)), consume_app in Hcons.
    cbn. rewrite consume_m_eq.
    destruct (consume (take k (rx_buffer m)) f) as [[[q|] g] r'] eqn:Ec; cbn; [done|].
    apply consume_none_rest in Ec as ->. cbn.
    destruct (IH g (World (Mock (drop k (rx_buffer m)) (tx_log m) (m_closed m) (flush_clears m) (clock m))
                 (set_leftover (leftover a) a) (lg ++ [EvRead (Ok (take k (rx_buffer m)))])))
      as (w' & g' & Hw & Hcl); cbn; try done.
    { rewrite length_drop. lia. }
    exists w', g'. split; [exact Hw|]. exact Hcl.
Qed.

Lemma recv_packet_some fuel tmo (w : mworld) p f' rest :
  m_closed (tr w) = false -> 0 < tmo -> consume (stream w) [] = (Some p, f', rest) ->
  (length (rx_buffer (tr w)) < fuel)%nat ->
  exists w', recv_packet fuel tmo w = (Ok p, w') /\ stream w' = rest /\ same_line w w'.
Proof.
  intros Hc Ht Hcons Hf. destruct w as [m a lg]. unfold stream in Hcons. cbn in *.
  unfold recv_packet. cbn.
  destruct (beq (leftover a) []) eqn:El; b2p; cbn.
  - rewrite El in Hcons. cbn in Hcons. unfold bind at 1. cbn.
    destruct (recv_loop_some fuel (clock m + tmo) [] (World m a lg) p f' rest)
      as (w' & Hw & Hs & Hl); cbn; try done; [lia|].
    exists w'. unfold bind. by rewrite Hw.
  - unfold bind at 1, bind at 1. cbn. rewrite consume_m_eq. cbn.
    rewrite consume_app in Hcons.
    destruct (consume (leftover a) []) as [[[q|] g] r] eqn:Ec; cbn.
    + injection Hcons as -> -> <-. eexists. split; [done|].
      unfold stream, same_line. cbn. by rewrite app_nil_r.
    + apply consume_none_rest in Ec as ->. cbn.
      destruct (recv_loop_some fuel (clock m + tmo) g (World m (set_leftover [] (set_leftover [] a)) lg) p f' rest)
        as (w' & Hw & Hs & Hl); cbn; try done; [lia|].
      exists w'. unfold bind. rewrite Hw. split; [done|]. split; [done|].
      destruct Hl as (? & ? & ? & ?). unfold same_line. cbn in *. intuition congruence.
Qed.

Lemma recv_packet_none fuel tmo (w : mworld) f' r :
  m_closed (tr w) = false -> consume (stream w) [] = (None, f', r) ->
  len (rx_buffer (tr w)) * 1000 + Z.max 0 tmo + 1000 <= Z.of_nat fuel * 1000 ->
  exists w', recv_packet fuel tmo w = (Raise TransportTimeout, w') /\
    clock (tr w) + tmo <= clock (tr w') /\ (0 < tmo -> stream w' = []).
Proof.
  intros Hc Hcons Hf. destruct w as [m a lg]. unfold stream, len in *. cbn in *.
  unfold recv_packet. cbn.
  rewrite consume_app in Hcons.
  destruct (consume (leftover a) []) as [[[q|] g] r'] eqn:Ec; cbn; [done|].
  assert (Hg : (if negb (beq (leftover a) [])
    then let* _ := put_obj (set_leftover [] a) in consume_m (leftover a) []
    else ret (T := MockTransport) (Ob := agent) (None, [])) (World m a lg)
    = (Ok (None, g), World m (set_leftover [] a) lg)).
  { destruct (beq (leftover a) []) eqn:El; b2p; cbn [negb].
    - rewrite El in Ec. cbn in Ec. injection Ec as <- <-. destruct a. cbn in *. by subst.
    - unfold bind. cbn. rewrite consume_m_eq, Ec. cbn.
      apply consume_none_rest in Ec as ->. done. }
  unfold bind at 1. rewrite Hg.
  destruct (recv_loop_none fuel (clock m + tmo) g (World m (set_leftover [] a) lg) f' r)
    as (w' & g' & Hw & Hcl & Hst & Hrx); cbn; try done; [lia|].
  exists w'. unfold bind. rewrite Hw. split; [done|]. split; [done|].
  intros ?. change (stream w' = []). rewrite Hst. apply Hrx. cbn. lia.
Qed.

End Stream.

(** ** The receive path as a whole *)

#[global] Arguments recv_packet {T _} _ _ _ : simpl never.
#[global] Arguments recv_response {T _} _ _ _ : simpl never.

Lemma stream_length (w : world MockTransport agent) :
  (length (rx_buffer (tr w)) <= length (stream w))%nat.
Proof. unfold stream. rewrite length_app. lia. Qed.

(** A packet on the wire, and the packets that fit the receive frame. *)
Definition wire (p : Z * bytes) : bytes := packet_frame (fst p) (snd p) ++ [0].
Definition packet_ok (p : Z * bytes) : Prop :=
  is_byte (fst p) /\ is_bytes (snd p) /\ len (snd p) <= 1090.

Lemma packet_ok_frame p : packet_ok p -> len (packet_frame (fst p) (snd p)) <= MAX_PACKET_SIZE.
Proof.
  intros (_ & _ & Hl). unfold packet_frame.
  pose proof (cobs_len_aux ((fst p :: snd p) ++ le_bytes 4 (crc32 (fst p :: snd p)))) as H.
  rewrite len_app, len_cons, le_bytes_len in H by lia. unfold MAX_PACKET_SIZE.
  assert ((1 + len (snd p) + 4) / 254 < 5) by (apply Z.div_lt_upper_bound; lia). lia.
Qed.

(** Noise: received bytes that end on a delimiter and hold no packet. *)
Definition noise (n : bytes) : Prop := consume n [] = (None, [], []).

Lemma consume_noise_wire n p rest :
  noise n -> packet_ok p -> consume (n ++ wire p ++ rest) [] = (Some p, [], rest).
Proof.
  intros Hn Hp. rewrite consume_app, Hn. unfold wire. rewrite <- app_assoc. cbn [app].
  destruct p as [c d]. rewrite consume_packet; [done|..]; try apply Hp. by apply packet_ok_frame.
Qed.

(** [n] calls of [recv_packet] in a row. *)
Fixpoint recv_n {T} `{Transport T} (fuel : nat) (tmo : Z) (n : nat) : M T agent (list (Z * bytes)) :=
  match n with
  | O => ret []
  | S n' => let* p := recv_packet fuel tmo in let* ps := recv_n fuel tmo n' in ret (p :: ps)
  end.

(** READY packets on the wire, each after some noise. *)
Definition ready_wire (ready : list (bytes * bytes)) : bytes :=
  concat ((fun nx => fst nx ++ wire (RSP_READY, snd nx)) <$> ready).
Definition ready_ok (nx : bytes * bytes) : Prop := noise (fst nx) /\ packet_ok (RSP_READY, snd nx).

Lemma ready_wire_length ready : (length ready <= length (ready_wire ready))%nat.
Proof.
  induction ready as [|x l IH]; cbn; [lia|]. unfold ready_wire in *. cbn. rewrite !length_app.
  unfold wire at 1. rewrite length_app. cbn. lia.
Qed.

Lemma recv_response_ready fuel dl ready (w : world MockTransport agent) n p rest turns :
  m_closed (tr w) = false -> clock (tr w) < dl ->
  Forall ready_ok ready -> noise n -> packet_ok p -> fst p <> RSP_READY ->
  stream w = ready_wire ready ++ n ++ wire p ++ rest ->
  (length (stream w) < fuel)%nat -> (length ready < turns)%nat ->
  exists w', while turns (recv_response_body fuel dl) tt w = (Ok (Rtn p), w') /\
    stream w' = rest /\ same_line w w'.
Proof.
  intros Hc Hdl Hr Hn Hp Hcmd. revert w Hc Hdl turns.
  induction Hr as [|[n' x] ready [Hn' Hx] Hr IH]; intros w Hc Hdl turns Hs Hf Ht; (destruct turns as [|turns]; [cbn in *; lia|]);
    destruct w as [m a lg]; cbn in Hc, Hdl; cbn [while]; unfold recv_response_body at 1, bind; cbn;
    replace (dl - clock m <=? 0) with false by (symmetry; apply Z.leb_gt; lia).
  - destruct (recv_packet_some fuel (dl - clock m) (World m a lg) p [] rest) as (w' & -> & Hs' & Hl); try done.
    { lia. } { rewrite Hs. by apply consume_noise_wire. }
    { pose proof (stream_length (World m a lg)). lia. }
    destruct p as [c d]. cbn. replace (c =? RSP_READY) with false by (symmetry; by apply Z.eqb_neq).
    cbn. eauto.
  - unfold ready_wire in Hs. cbn [fmap list_fmap concat fst snd] in Hs. rewrite <- !app_assoc in Hs.
    destruct (recv_packet_some fuel (dl - clock m) (World m a lg) (RSP_READY, x) []
        (ready_wire ready ++ n ++ wire p ++ rest)) as (w' & -> & Hs' & Hl); try done.
    { lia. } { rewrite Hs. by apply consume_noise_wire. }
    { pose proof (stream_length (World m a lg)). lia. }
    cbn. destruct Hl as (Hcl & Hck & Htx & Ha). cbn in *.
    destruct (IH w') with (turns := turns) as (w'' & Hw & Hs'' & Hl''); try done.
    { congruence. } { lia. }
    { rewrite Hs in Hf. rewrite Hs'. rewrite !length_app in *. unfold ready_wire. lia. } { lia. }
    exists w''. split; [exact Hw|]. split; [done|]. destruct Hl'' as (? & ? & ? & ?).
    unfold same_line. cbn. intuition congruence.
Qed.

Lemma recv_response_mail fuel tmo ready n p rest (w : world MockTransport agent) :
  m_closed (tr w) = false -> 0 < tmo ->
  Forall ready_ok ready -> noise n -> packet_ok p -> fst p <> RSP_READY ->
  stream w = ready_wire ready ++ n ++ wire p ++ rest ->
  (length (stream w) < fuel)%nat ->
  exists w', recv_response fuel tmo w = (Ok p, w') /\ stream w' = rest /\ same_line w w'.
Proof.
  intros Hc Ht Hr Hn Hp Hcmd Hs Hf. unfold recv_response.
  destruct (recv_response_ready fuel (clock (tr w) + tmo) ready w n p rest fuel)
    as (w' & Hw & Hs' & Hl); try done; [lia| |].
  { pose proof (ready_wire_length ready). rewrite Hs in Hf. rewrite !length_app in Hf. lia. }
  exists w'. unfold bind. cbn. destruct w. cbn in *. by rewrite Hw.
Qed.

(** ** Properties *)

(** Every command byte and payload is framed by [build_packet] into bytes
    whose only zero is the closing delimiter, at most [n + n/254 + 2] bytes for
    [n] bytes of command, payload and CRC, and [parse_packet] gives back
    exactly that command and payload from the bytes before the delimiter. *)
Theorem packet_roundtrip cmd data :
  is_byte cmd -> is_bytes data ->
  exists frame, build_packet cmd data = Ok (frame ++ [0]) /\
    Forall (fun b => b <> 0) frame /\
    len frame <= (len data + 5) + (len data + 5) / 254 + 1 /\
    parse_packet frame = Ok (cmd, data).
Proof.
  intros Hc Hd. exists (packet_frame cmd data).
  split; [by apply build_packet_eq|]. split; [apply packet_frame_nonzero|].
  split; [|by apply parse_packet_frame].
  unfold packet_frame.
  pose proof (cobs_len_aux ((cmd :: data) ++ le_bytes 4 (crc32 (cmd :: data)))) as H.
  rewrite len_app, len_cons, le_bytes_len in H by lia.
  replace (len data + 5) with (1 + len data + 4) by lia. lia.
Qed.

Theorem packet_roundtrip_witness :
  is_byte CMD_INFO /\ is_bytes [0; 1] /\
  exists frame, build_packet CMD_INFO [0; 1] = Ok (frame ++ [0]) /\
    Forall (fun b => b <> 0) frame /\
    len frame <= (len [0; 1] + 5) + (len [0; 1] + 5) / 254 + 1 /\
    parse_packet frame = Ok (CMD_INFO, [0; 1]).
Proof.
  assert (H1 : is_byte CMD_INFO) by (unfold is_byte, CMD_INFO; lia).
  assert (H2 : is_bytes [0; 1]) by (repeat constructor; unfold is_byte; lia).
  split; [done|]. split; [done|]. by apply packet_roundtrip.
Defined.

(** C12. [recv_packet] refines the byte-level walk [consume] of everything that
    has arrived, leftover first: if the walk finds a packet the call returns
    it, consumes exactly the bytes up to its delimiter and keeps the rest for
    the next call, without any time passing; if it finds none the call raises
    TransportTimeout once its deadline has passed.  How the bytes were cut into
    256-byte reads, and which part sat in the leftover buffer, does not matter. *)
Theorem recv_packet_refines fuel tmo (w : world MockTransport agent) :
  m_closed (tr w) = false -> 0 < tmo ->
  len (rx_buffer (tr w)) * 1000 + tmo + 1000 <= Z.of_nat fuel * 1000 ->
  match consume (stream w) [] with
  | (Some p, _, rest) => exists w', recv_packet fuel tmo w = (Ok p, w') /\ stream w' = rest /\
      clock (tr w') = clock (tr w) /\ tx_log (tr w') = tx_log (tr w)
  | (None, _, _) => exists w', recv_packet fuel tmo w = (Raise TransportTimeout, w') /\
      stream w' = [] /\ clock (tr w) + tmo <= clock (tr w')
  end.
Proof.
  intros Hc Ht Hf. destruct (consume (stream w) []) as [[[p|] f'] rest] eqn:E.
  - destruct (recv_packet_some fuel tmo w p f' rest) as (w' & Hw & Hs & Hl & Hck & Htx & _); try done.
    { unfold len in Hf. lia. }
    by exists w'.
  - destruct (recv_packet_none fuel tmo w f' rest) as (w' & Hw & Hs & Hl); try done; [lia|].
    exists w'. auto.
Qed.

Theorem recv_packet_refines_witness :
  let w := World (Mock (wire (RSP_ACK, [0]) ++ [7]) [] false true 0)
             (Agent [] [] true 0 0 0 0 115200) [] in
  m_closed (tr w) = false /\ 0 < 5000 /\
  len (rx_buffer (tr w)) * 1000 + 5000 + 1000 <= Z.of_nat 40 * 1000 /\
  exists w', recv_packet 40 5000 w = (Ok (RSP_ACK, [0]), w') /\ stream w' = [7] /\
      clock (tr w') = clock (tr w) /\ tx_log (tr w') = tx_log (tr w).
Proof.
  intros w. assert (H3 : len (rx_buffer (tr w)) * 1000 + 5000 + 1000 <= Z.of_nat 40 * 1000)
    by (vm_compute; discriminate).
  split; [done|]. split; [lia|]. split; [exact H3|].
  pose proof (recv_packet_refines 40 5000 w eq_refl ltac:(lia) H3) as H.
  replace (consume (stream w) []) with (Some (RSP_ACK, [0]), @nil Z, [7]) in H by (vm_compute; reflexivity).
  exact H.
Defined.

(** However the packets of a burst straddle reads, leftover and noise
    (received bytes up to a delimiter that hold no valid packet), as many
    calls of [recv_packet] as there are packets return exactly these packets
    in order, and leave the bytes that follow for the next call. *)
Theorem recv_packet_sequence fuel tmo (nps : list (bytes * (Z * bytes))) rest (w : world MockTransport agent) :
  m_closed (tr w) = false -> 0 < tmo ->
  Forall (fun np => noise (fst np) /\ packet_ok (snd np)) nps ->
  stream w = concat ((fun np => fst np ++ wire (snd np)) <$> nps) ++ rest ->
  (length (stream w) < fuel)%nat ->
  exists w', recv_n fuel tmo (length nps) w = (Ok (snd <$> nps), w') /\ stream w' = rest.
Proof.
  intros Hc Ht Hok. revert w Hc.
  induction Hok as [|[n p] nps [Hn Hp] Hok IH]; intros w Hc Hs Hf; cbn in *; [by exists w|].
  rewrite <- !app_assoc in Hs.
  destruct (recv_packet_some fuel tmo w p [] (concat ((fun np => fst np ++ wire (snd np)) <$> nps) ++ rest))
    as (w' & Hw & Hs' & (Hcl & _)); try done.
  { rewrite Hs. by apply consume_noise_wire. }
  { pose proof (stream_length w). lia. }
  destruct (IH w') as (w'' & Hw'' & Hr); [congruence|done| |].
  { rewrite Hs' in *. rewrite Hs in Hf. rewrite !length_app in *. lia. }
  exists w''. unfold bind. by rewrite Hw, Hw''.
Qed.

Theorem recv_packet_sequence_witness :
  let w := World (Mock (slice (wire (RSP_READY, []) ++ [65; 66; 0] ++ wire (RSP_ACK, [0]) ++ [9]) 3 99) [] false true 0)
             (Agent (slice (wire (RSP_READY, [])) 0 3) [] true 0 0 0 0 115200) [] in
  exists w', recv_n 60 5000 2 w = (Ok [(RSP_READY, []); (RSP_ACK, [0])], w') /\ stream w' = [9].
Proof.
  intros w.
  refine (recv_packet_sequence 60 5000 [([], (RSP_READY, [])); ([65; 66; 0], (RSP_ACK, [0]))] [9] w
    eq_refl _ _ _ _); [lia | | vm_compute; reflexivity | vm_compute; lia].
  repeat constructor; cbn; vm_compute; (reflexivity || discriminate || lia).
Defined.

(** [recv_response] skips any number of READY packets already pending,
    whatever noise lies between them, and returns the first other packet
    without waiting; the bytes after it stay for the next call. *)
Theorem recv_response_skips_ready fuel tmo ready n p rest (w : world MockTransport agent) :
  m_closed (tr w) = false -> 0 < tmo ->
  Forall ready_ok ready -> noise n -> packet_ok p -> fst p <> RSP_READY ->
  stream w = ready_wire ready ++ n ++ wire p ++ rest ->
  (length (stream w) < fuel)%nat ->
  exists w', recv_response fuel tmo w = (Ok p, w') /\ stream w' = rest /\ clock (tr w') = clock (tr w).
Proof.
  intros. destruct (recv_response_mail fuel tmo ready n p rest w) as (w' & ? & ? & (_ & ? & _)); eauto.
Qed.

Theorem recv_response_skips_ready_witness :
  let w := World (Mock (wire (RSP_READY, [1]) ++ wire (RSP_READY, []) ++ wire (RSP_ACK, [0])) [] false true 0)
             (Agent [] [] true 0 0 0 0 115200) [] in
  exists w', recv_response 60 5000 w = (Ok (RSP_ACK, [0]), w') /\ stream w' = [] /\
    clock (tr w') = clock (tr w).
Proof.
  intros w.
  refine (recv_response_skips_ready 60 5000 [([], [1]); ([], [])] [] (RSP_ACK, [0]) [] w
    eq_refl _ _ _ _ _ _ _); [lia | | reflexivity | | discriminate | vm_compute; reflexivity | vm_compute; lia];
  repeat constructor; cbn; vm_compute; (reflexivity || discriminate || lia).
Defined.
