(* ===== verification/AgentClient.v ===== *)
(** * The flash agent's client

  Models [src/src/defib/agent/client.py] (class [FlashAgentClient]) over a
  transport without a pyserial [_port], the path on which [send_packet] and
  [recv_packet] use the abstract [Transport].  Progress callbacks and log
  messages are left out; they do not influence the control flow.  Timeouts are
  in microseconds, those computed from a size rounded down to one. *)

From S2P Require Import Prelude Crc Cobs Transport AgentProtocol.

Definition WRITE_CHUNK_SIZE : Z := 512.
Definition WRITE_MAX_TRANSFER : Z := 16 * 1024.
Definition WRITE_WINDOW : Z := 16.
Definition DEFAULT_FAST_BAUD : Z := 921600.
Definition FALLBACK_BAUD : Z := 115200.

Inductive SectorStatus :=
  | GOOD | EMPTY | STUCK_ZERO | STUCK_PATTERN | UNSTABLE | READ_ERROR | BAD_BLOCK.

#[export] Instance SectorStatus_eq_dec : EqDecision SectorStatus.
Proof. solve_decision. Defined.

(** [SectorStatus(b)], [None] for its ValueError. *)
Definition SectorStatus_of (b : Z) : option SectorStatus :=
  match b with
  | 0 => Some GOOD | 1 => Some EMPTY | 2 => Some STUCK_ZERO | 3 => Some STUCK_PATTERN
  | 4 => Some UNSTABLE | 5 => Some READ_ERROR | 6 => Some BAD_BLOCK
  | _ => None
  end.

Record SectorResult := mkSector {
  s_index : Z; s_address : Z; s_status : SectorStatus; s_crc32 : Z
}.

Record ScanResult := mkScan {
  sc_sectors : list SectorResult; sc_flash_size : Z; sc_sector_size : Z
}.

Definition scan_with (p : SectorStatus -> bool) (r : ScanResult) : list SectorResult :=
  filter (fun s => p (s_status s) = true) (sc_sectors r).
Definition scan_total (r : ScanResult) : Z := len (sc_sectors r).
Definition scan_good : ScanResult -> list SectorResult :=
  scan_with (fun s => bool_decide (s = GOOD)).
Definition scan_empty : ScanResult -> list SectorResult :=
  scan_with (fun s => bool_decide (s = EMPTY)).
Definition scan_bad : ScanResult -> list SectorResult :=
  scan_with (fun s => bool_decide (s = STUCK_ZERO \/ s = STUCK_PATTERN \/ s = READ_ERROR)).
Definition scan_unstable : ScanResult -> list SectorResult :=
  scan_with (fun s => bool_decide (s = UNSTABLE)).
Definition scan_bad_block : ScanResult -> list SectorResult :=
  scan_with (fun s => bool_decide (s = BAD_BLOCK)).

Record MembwResult := mkMembw {
  mb_addr : Z; mb_size_bytes : Z; mb_iters : Z; mb_timer_hz : Z;
  mb_memset_ticks : Z; mb_read_ticks : Z; mb_memcpy_ticks : Z
}.

(** The dictionary [get_info] returns: absent keys are [None]; the JEDEC id is
    kept as its three bytes, not as their hex string. *)
Record info := mkInfo {
  i_jedec : bytes; i_flash_size : Z; i_ram_base : Z; i_sector_size : Z;
  i_version_caps : option (Z * Z); i_flash_mem : option Z
}.

(** [struct.pack("<II...", ...)] *)
Fixpoint pack_I (zs : list Z) : res bytes :=
  match zs with
  | [] => Ok []
  | z :: zs' => let! a := pack_le 4 z in let! b := pack_I zs' in Ok (a ++ b)
  end.

(** [cmd == RSP_ACK and resp[0] == ACK_OK]; an empty ACK raises IndexError. *)
Definition is_ack_ok (p : Z * bytes) : res bool :=
  if fst p =? RSP_ACK then let! s := index (snd p) 0 in Ok (s =? ACK_OK) else Ok false.

(** [x or d] on an int *)
Definition int_or (x d : Z) : Z := if x =? 0 then d else x.

Definition crc32_of (data : bytes) : Z := Z.land (crc32 data) 0xFFFFFFFF.

Definition FlashAgentClient_init : agent :=
  Agent [] [] false 0 0 0x10000 0x14000000 FALLBACK_BAUD.

Definition set_connected (b : bool) (a : agent) : agent :=
  Agent (leftover a) (portbuf a) b (flash_size a) (ram_base a) (sector_size a) (flash_mem a)
        (current_baud a).
Definition set_geometry (fs rb ss : Z) (a : agent) : agent :=
  Agent (leftover a) (portbuf a) (a_connected a) fs rb ss (flash_mem a) (current_baud a).
Definition set_flash_mem (m : Z) (a : agent) : agent :=
  Agent (leftover a) (portbuf a) (a_connected a) (flash_size a) (ram_base a) (sector_size a) m
        (current_baud a).
Definition set_current_baud (b : Z) (a : agent) : agent :=
  Agent (leftover a) (portbuf a) (a_connected a) (flash_size a) (ram_base a) (sector_size a)
        (flash_mem a) b.

Section Client.
Context {T : Type} `{Transport T}.

(** [fuel] bounds the reads of every receive, and the packets of the loops
    that wait for the agent to finish. *)
Variable fuel : nat.

Definition modify (f : agent -> agent) : M T agent unit :=
  let* a := get_obj in put_obj (f a).

Definition connect (timeout : Z) : M T agent bool :=
  let* ok := wait_for_ready fuel timeout in
  let* _ := modify (set_connected ok) in
  ret ok.

Definition clear_rx_buffers : M T agent unit := modify (set_portbuf []).

(** [await recv_response(self._transport, timeout)] *)
Definition recv (timeout : Z) : M T agent (Z * bytes) := recv_response fuel timeout.

Definition set_baud_revert (old_baud : Z) : M T agent bool :=
  let* _ := try_except (set_baudrate old_baud)
              (fun e => bool_decide (e = NotImplementedError)) (fun _ => ret tt) in
  ret false.

(** The verification at the new rate: flush, drop the leftover, INFO. *)
Definition set_baud_verify (baud old_baud : Z) : M T agent bool :=
  let* _ := flush_input in
  let* _ := modify (set_leftover []) in
  let* _ := sleep 50000 in
  let* ok := try_except
    (let* _ := send_packet CMD_INFO [] in
     let* (cmd, _) := recv 3000000 in
     if cmd =? RSP_INFO then let* _ := modify (set_current_baud baud) in ret true
     else ret false)
    is_Exception (fun _ => ret false) in
  if ok : bool then ret true else set_baud_revert old_baud.

(** The host side's switch; [false] when the transport cannot. *)
Definition set_baud_host (baud : Z) : M T agent bool :=
  try_except
    (let* _ := set_baudrate baud in ret true)
    (fun e => bool_decide (e = NotImplementedError))
    (fun _ =>
      let* _ := try_except
        (let* fallback := lift (pack_I [FALLBACK_BAUD]) in send_packet CMD_SET_BAUD fallback)
        is_Exception (fun _ => ret tt) in
      ret false).

Definition set_baud (baud : Z) : M T agent bool :=
  let* _ := clear_rx_buffers in
  let* a := get_obj in
  let old_baud := current_baud a in
  let* payload := lift (pack_I [baud]) in
  let* _ := send_packet CMD_SET_BAUD payload in
  let* p := recv 5000000 in
  let* ok := lift (is_ack_ok p) in
  if negb ok then ret false else
  let* _ := sleep 50000 in
  let* switched := set_baud_host baud in
  if negb switched then ret false else
  set_baud_verify baud old_baud.

Definition switch_baud (target : Z) : M T agent bool :=
  let* a := get_obj in
  if current_baud a =? target then ret true else
  let* ok := set_baud target in
  let* _ := if ok : bool then modify (set_current_baud target) else ret tt in
  ret ok.

Definition restore_baud : M T agent unit :=
  let* a := get_obj in
  if current_baud a =? FALLBACK_BAUD then ret tt else
  let* ok := set_baud FALLBACK_BAUD in
  if ok : bool then modify (set_current_baud FALLBACK_BAUD) else ret tt.

Definition get_info : M T agent (option info) :=
  let* _ := clear_rx_buffers in
  let* _ := send_packet CMD_INFO [] in
  let* (cmd, data) := recv 5000000 in
  if negb (cmd =? RSP_INFO) || (len data <? 16) then ret None else
  let jedec := slice data 0 3 in
  let* fs := lift (unpack_le 4 data 4) in
  let* rb := lift (unpack_le 4 data 8) in
  let* ss := lift (unpack_le 4 data 12) in
  let* _ := modify (set_geometry fs rb ss) in
  let* vc := if 24 <=? len data then
      let* version := lift (unpack_le 4 data 16) in
      let* caps := lift (unpack_le 4 data 20) in
      ret (Some (version, caps))
    else ret None in
  let* fm := if 28 <=? len data then
      let* m := lift (unpack_le 4 data 24) in
      let* _ := modify (set_flash_mem m) in
      ret (Some m)
    else ret None in
  ret (Some (mkInfo jedec fs rb ss vc fm)).

(** One turn of [read_memory]'s loop; its state is [received] and
    [expected_seq]. *)
Definition read_memory_body (size : Z) (s : bytes * Z) : M T agent (ctl (bytes * Z) bytes) :=
  let '(received, expected_seq) := s in
  let* (cmd, data) := recv 60000000 in
  if (cmd =? RSP_DATA) && (2 <? len data) then
    let* d0 := lift (index data 0) in
    let* d1 := lift (index data 1) in
    let seq := Z.lor d0 (Z.shiftl d1 8) in
    if negb (seq =? expected_seq) then raise RuntimeError else
    ret (Next (received ++ drop 2 data, Z.land (expected_seq + 1) 0xFFFF))
  else if cmd =? RSP_ACK then
    let* status := if negb (beq data []) then lift (index data 0) else ret 0 in
    if negb (status =? ACK_OK) then raise RuntimeError else
    if negb (len received =? size) then raise RuntimeError else
    ret (Rtn received)
  else raise RuntimeError.

Definition read_memory (addr size : Z) (fast : bool) : M T agent bytes :=
  let* _ := clear_rx_buffers in
  let* _ := if fast && (4096 <? size) then switch_baud DEFAULT_FAST_BAUD else ret true in
  let* payload := lift (pack_I [addr; size]) in
  let* _ := send_packet CMD_READ payload in
  let* c := while fuel (read_memory_body size) ([], 0) in
  match c with
  | Rtn d => ret d
  | Next (d, _) | Brk (d, _) => ret d
  end.

(** The DATA stream of [data] from packet number [seq] on: one packet per 512
    bytes.  State of the loop: the offset and [seq]; a turn of the loop
    advances the offset, so [len data + 1] turns are enough. *)
Definition send_data_body (data : bytes) (s : Z * Z) : M T agent (ctl (Z * Z) unit) :=
  let '(off, seq) := s in
  if negb (off <? len data) then ret (Brk (off, seq)) else
  let chunk := Z.min WRITE_CHUNK_SIZE (len data - off) in
  let* hdr := lift (pack_le 2 seq) in
  let* _ := send_packet RSP_DATA (hdr ++ slice data off (off + chunk)) in
  ret (Next (off + chunk, seq + 1)).

Definition send_data_stream (data : bytes) (seq : Z) : M T agent unit :=
  let* _ := while (S (length data)) (send_data_body data) (0, seq) in
  ret tt.

Definition crc_timeout (n : Z) : Z := Z.max 60000000 (n * 20).

Definition write_block (addr : Z) (data : bytes) : M T agent bool :=
  let* _ := clear_rx_buffers in
  let crc := crc32_of data in
  let* payload := lift (pack_I [addr; len data; crc]) in
  let* _ := send_packet CMD_WRITE payload in
  let* p := recv 10000000 in
  let* ok := lift (is_ack_ok p) in
  if negb ok then ret false else
  let* _ := send_data_stream data 0 in
  let* p := recv (crc_timeout (len data)) in
  lift (is_ack_ok p).

(** *** write_memory *)

(** One block of the window: header and data, no wait.  State: [offset],
    [blocks_sent]. *)
Definition write_window_body (addr : Z) (data : bytes) (_ : Z) (s : Z * Z)
    : M T agent (ctl (Z * Z) unit) :=
  let '(offset, blocks_sent) := s in
  let total := len data in
  if total <=? offset then ret (Brk (offset, blocks_sent)) else
  let block_size := Z.min WRITE_MAX_TRANSFER (total - offset) in
  let block := slice data offset (offset + block_size) in
  let* payload := lift (pack_I [addr + offset; block_size; crc32_of block]) in
  let* _ := send_packet CMD_WRITE payload in
  let* _ := send_data_stream block 0 in
  ret (Next (offset + block_size, blocks_sent + 1)).

(** The ACKs of one block: the initial one and the one after the CRC. *)
Definition write_acks_body (_ : Z) (_ : bool) : M T agent (ctl bool unit) :=
  try_except
    (let* p := recv 10000000 in
     let* ok := lift (is_ack_ok p) in
     if negb ok then ret (Brk false) else
     let* p := recv (crc_timeout WRITE_MAX_TRANSFER) in
     let* ok := lift (is_ack_ok p) in
     if negb ok then ret (Brk false) else ret (Next true))
    is_Exception (fun _ => ret (Brk false)).

(** Single-block retry of a failed window; [Rtn tt] is [return False]. *)
Definition write_retry_body (addr : Z) (data : bytes) (_ : Z) (offset : Z)
    : M T agent (ctl Z unit) :=
  let total := len data in
  if total <=? offset then ret (Brk offset) else
  let block_size := Z.min WRITE_MAX_TRANSFER (total - offset) in
  let* ok := write_block (addr + offset) (slice data offset (offset + block_size)) in
  if negb ok then ret (Rtn tt) else ret (Next (offset + block_size)).

Definition blocks_of (n : Z) : Z := (n + WRITE_MAX_TRANSFER - 1) / WRITE_MAX_TRANSFER.

(** The ACKs of a window of [blocks_sent] blocks from [window_start] to
    [offset], and the retry when one is missing. *)
Definition write_memory_acks (addr : Z) (data : bytes) (window_start window offset blocks_sent : Z)
    : M T agent (ctl (Z * Z) bool) :=
  let total := len data in
  let* c := foreach (range blocks_sent) write_acks_body true in
  let all_ok := match c with Next b | Brk b => b | Rtn _ => false end in
  if all_ok : bool then ret (Next (offset, window)) else
  let* _ := clear_rx_buffers in
  let* _ := sleep 500000 in
  let* c := foreach (range blocks_sent) (write_retry_body addr data) window_start in
  match c with
  | Rtn _ => ret (Rtn false)
  | Next offset | Brk offset =>
      ret (Next (offset, Z.min WRITE_WINDOW (blocks_of (total - offset))))
  end.

(** One turn of the outer loop; its state is [offset] and [window]. *)
Definition write_memory_body (addr : Z) (data : bytes) (s : Z * Z) : M T agent (ctl (Z * Z) bool) :=
  let '(offset, window) := s in
  let total := len data in
  if negb (offset <? total) then ret (Brk (offset, window)) else
  let window_start := offset in
  let* c := foreach (range window) (write_window_body addr data) (offset, 0) in
  match c with
  | Next (offset, blocks_sent) | Brk (offset, blocks_sent) =>
      write_memory_acks addr data window_start window offset blocks_sent
  | Rtn _ => ret (Rtn false)
  end.

Definition write_memory (addr : Z) (data : bytes) (fast : bool) : M T agent bool :=
  let* _ := clear_rx_buffers in
  let* _ := if fast && (4096 <? len data) then switch_baud DEFAULT_FAST_BAUD else ret true in
  let window := Z.min WRITE_WINDOW (blocks_of (len data)) in
  let* c := while (S (length data)) (write_memory_body addr data) (0, window) in
  match c with
  | Rtn b => ret b
  | _ => ret true
  end.

(** *** Erase and flash streaming *)

Definition erase_progress_body (_ : Z) (_ : unit) : M T agent (ctl unit unit) :=
  let* _ := recv 30000000 in ret (Next tt).

(** Progress packets are counted, not checked: their contents only feed the
    callback. *)
Definition erase_flash (addr size : Z) : M T agent bool :=
  let* payload := lift (pack_I [addr; size]) in
  let* _ := send_packet CMD_ERASE payload in
  let* p := recv 5000000 in
  let* ok := lift (is_ack_ok p) in
  if negb ok then ret false else
  let* a := get_obj in
  let sector_sz := int_or (sector_size a) 0x10000 in
  let num_sectors := size / sector_sz in
  let* _ := foreach (range num_sectors) erase_progress_body tt in
  let* p := recv 10000000 in
  lift (is_ack_ok p).

(** [bitmap[s // 8] |= 1 << (s % 8)] *)
Definition set_bit (bitmap : bytes) (s : Z) : bytes :=
  alter (fun b => Z.lor b (Z.shiftl 1 (s mod 8))) (Z.to_nat (s / 8)) bitmap.

Definition get_bit (bitmap : bytes) (s : Z) : res bool :=
  let! b := index bitmap (s / 8) in Ok (negb (Z.land b (Z.shiftl 1 (s mod 8)) =? 0)).

Definition sector_data (data : bytes) (sector_sz s : Z) : bytes :=
  slice data (s * sector_sz) ((s + 1) * sector_sz).

(** [sector_data != ff_sector[:len(sector_data)]] *)
Definition sector_used (data : bytes) (sector_sz s : Z) : bool :=
  let d := sector_data data sector_sz s in
  negb (beq d (slice (brep sector_sz 0xFF) 0 (len d))).

Definition num_sectors_of (total sector_sz : Z) : Z := (total + sector_sz - 1) / sector_sz.

Definition sector_bitmap (data : bytes) (sector_sz : Z) : bytes :=
  let num_sectors := num_sectors_of (len data) sector_sz in
  foldl (fun bm s => if sector_used data sector_sz s then set_bit bm s else bm)
    (brep ((num_sectors + 7) / 8) 0) (range num_sectors).

(** Waiting for the progress packet of one sector. *)
Definition write_flash_wait (_ : unit) : M T agent (ctl unit bool) :=
  let* (cmd, d) := recv 120000000 in
  if cmd =? RSP_DATA then
    let* _ := lift (index d 0) in let* _ := lift (index d 1) in
    let* _ := lift (index d 2) in let* _ := lift (index d 3) in
    ret (Brk tt)
  else if cmd =? RSP_ACK then
    let* s := lift (index d 0) in
    if s =? ACK_OK then ret (Rtn true) else ret (Rtn false)
  else ret (Rtn false).

Definition write_flash_sector (data : bytes) (sector_sz : Z) (bitmap : bytes) (s : Z) (offset : Z)
    : M T agent (ctl Z bool) :=
  let total := len data in
  let sector_bytes := Z.min sector_sz (total - offset) in
  let* used := lift (get_bit bitmap s) in
  let* _ := if used : bool
    then send_data_stream (slice data offset (offset + sector_bytes)) (offset / WRITE_CHUNK_SIZE)
    else ret tt in
  let offset := offset + sector_bytes in
  let* c := write_flash_wait tt in
  match c with
  | Rtn b => ret (Rtn b)
  | _ => ret (Next offset)
  end.

Definition write_flash_final (_ : unit) : M T agent (ctl unit bool) :=
  let* (cmd, d) := recv 120000000 in
  if cmd =? RSP_ACK then
    let* s := lift (index d 0) in ret (Rtn (s =? ACK_OK))
  else if cmd =? RSP_DATA then ret (Next tt)
  else ret (Brk tt).

(** [write_flash] once the sector size is known. *)
Definition write_flash_stream (addr : Z) (data : bytes) (sector_sz : Z) : M T agent bool :=
  let total := len data in
  let expected_crc := crc32_of data in
  let num_sectors := num_sectors_of total sector_sz in
  let bitmap := sector_bitmap data sector_sz in
  let* hdr := lift (pack_I [addr; total; expected_crc]) in
  let* _ := send_packet CMD_FLASH_STREAM (hdr ++ bitmap) in
  let* p := recv 10000000 in
  let* ok := lift (is_ack_ok p) in
  if negb ok then ret false else
  let* c := foreach (range num_sectors) (write_flash_sector data sector_sz bitmap) 0 in
  match c with
  | Rtn b => ret b
  | _ =>
      let* c := while fuel write_flash_final tt in
      match c with
      | Rtn b => ret b
      | _ => ret false
      end
  end.

Definition write_flash (addr : Z) (data : bytes) (fast : bool) : M T agent bool :=
  let* _ := clear_rx_buffers in
  let* _ := if fast && (4096 <? len data) then switch_baud DEFAULT_FAST_BAUD else ret true in
  let* a := get_obj in
  write_flash_stream addr data (int_or (sector_size a) 0x10000).

(** *** CRC, bandwidth, scan *)

Definition client_crc32 (addr size : Z) : M T agent Z :=
  let* _ := clear_rx_buffers in
  let* payload := lift (pack_I [addr; size]) in
  let* _ := send_packet CMD_CRC32 payload in
  let timeout := Z.max 15000000 (5000000 + size * 1000000 / (100 * 1024)) in
  let* (cmd, data) := recv timeout in
  if cmd =? RSP_ACK then raise RuntimeError else
  if negb (cmd =? RSP_CRC32) || (len data <? 4) then raise RuntimeError else
  lift (unpack_le 4 data 0).

Definition verify (addr : Z) (data : bytes) : M T agent bool :=
  let* device_crc := client_crc32 addr (len data) in
  ret (crc32_of data =? device_crc).

Definition membw (size_bytes iters addr : Z) : M T agent MembwResult :=
  let* _ := clear_rx_buffers in
  let* payload := lift (pack_I [size_bytes; iters; addr]) in
  let* _ := send_packet CMD_MEMBW payload in
  let nominal_bytes := Z.max size_bytes (4 * 1024 * 1024) * Z.max iters 8 * 3 in
  let timeout := Z.max 30000000 (5000000 + nominal_bytes * 1000000 / (50 * 1024 * 1024)) in
  let* (cmd, data) := recv timeout in
  if cmd =? RSP_ACK then raise RuntimeError else
  if negb (cmd =? RSP_MEMBW) || (len data <? 32) then raise RuntimeError else
  let* base := lift (unpack_le 4 data 0) in
  let* size := lift (unpack_le 4 data 4) in
  let* it := lift (unpack_le 4 data 8) in
  let* hz := lift (unpack_le 4 data 12) in
  let* m_ticks := lift (unpack_le 4 data 16) in
  let* r_ticks := lift (unpack_le 4 data 20) in
  let* c_ticks := lift (unpack_le 4 data 24) in
  ret (mkMembw base size it hz m_ticks r_ticks c_ticks).

(** The entries of one SCAN packet, [on_sector] being called for each.  State:
    the sectors so far and the offset; each turn advances the offset. *)
Fixpoint scan_entries (on_sector : SectorResult -> res unit) (n : nat) (data : bytes) (num_sectors sector_sz : Z)
    (sectors : list SectorResult) (offset : Z) : res (list SectorResult) :=
  match n with
  | O => Diverge
  | S n' =>
      if (offset + 5 <=? len data) && (len sectors <? num_sectors) then
        let! status_byte := index data offset in
        let! crc_val := unpack_le 4 data (offset + 1) in
        let idx := len sectors in
        let status := default READ_ERROR (SectorStatus_of status_byte) in
        let result := mkSector idx (idx * sector_sz) status crc_val in
        let! _ := on_sector result in
        scan_entries on_sector n' data num_sectors sector_sz (sectors ++ [result]) (offset + 5)
      else Ok sectors
  end.

(** State: the sectors and the last [cmd]. *)
Definition scan_flash_body (on_sector : SectorResult -> res unit) (num_sectors : Z) (s : list SectorResult * Z)
    : M T agent (ctl (list SectorResult * Z) unit) :=
  let '(sectors, cmd) := s in
  if negb (len sectors <? num_sectors) then ret (Brk (sectors, cmd)) else
  let* (cmd, data) := recv 30000000 in
  if cmd =? RSP_ACK then ret (Brk (sectors, cmd)) else
  if negb (cmd =? RSP_SCAN) then raise RuntimeError else
  let* a := get_obj in
  let* sectors := lift (scan_entries on_sector (S (length data)) data num_sectors (sector_size a) sectors 0) in
  ret (Next (sectors, cmd)).

Definition scan_compat_body (on_sector : SectorResult -> res unit) (flash_base sector_sz empty_crc : Z) (i : Z) (sectors : list SectorResult)
    : M T agent (ctl (list SectorResult) unit) :=
  let addr := flash_base + i * sector_sz in
  let* crc1 := try_except (let* c := client_crc32 addr sector_sz in ret (Some c))
                 is_Exception (fun _ => ret None) in
  match crc1 with
  | None =>
      let result := mkSector i (i * sector_sz) READ_ERROR 0 in
      let* _ := lift (on_sector result) in
      ret (Next (sectors ++ [result]))
  | Some crc1 =>
      let* status :=
        if crc1 =? empty_crc then ret EMPTY else
        let* crc2 := try_except (client_crc32 addr sector_sz) is_Exception (fun _ => ret crc1) in
        ret (if negb (crc2 =? crc1) then UNSTABLE else GOOD) in
      let result := mkSector i (i * sector_sz) status crc1 in
      let* _ := lift (on_sector result) in
      ret (Next (sectors ++ [result]))
  end.

Definition scan_flash_compat (on_sector : SectorResult -> res unit) : M T agent ScanResult :=
  let* a := get_obj in
  let sector_sz := int_or (sector_size a) 0x10000 in
  let* flash_sz := if flash_size a =? 0 then
      let* i := get_info in ret (match i with Some i => i_flash_size i | None => 0 end)
    else ret (flash_size a) in
  let num_sectors := flash_sz / sector_sz in
  let empty_crc := crc32_of (brep sector_sz 0xFF) in
  let* a := get_obj in
  let* c := foreach (range num_sectors) (scan_compat_body on_sector (flash_mem a) sector_sz empty_crc) [] in
  match c with
  | Next sectors | Brk sectors => ret (mkScan sectors flash_sz sector_sz)
  | Rtn _ => ret (mkScan [] flash_sz sector_sz)
  end.

Definition scan_flash (on_sector : SectorResult -> res unit) : M T agent ScanResult :=
  let* _ := clear_rx_buffers in
  let* _ := switch_baud DEFAULT_FAST_BAUD in
  let* _ := send_packet CMD_SCAN [] in
  let* (cmd, data) := recv 10000000 in
  if cmd =? RSP_ACK then scan_flash_compat on_sector else
  if negb (cmd =? RSP_SCAN) || (len data <? 4) then raise RuntimeError else
  let* num_sectors := lift (unpack_le 4 data 0) in
  let* c := while fuel (scan_flash_body on_sector num_sectors) ([], cmd) in
  let '(sectors, cmd) := match c with Next s | Brk s => s | Rtn _ => ([], cmd) end in
  let* _ := if negb (cmd =? RSP_ACK) then recv 5000000 else ret (cmd, []) in
  let* a := get_obj in
  ret (mkScan sectors (flash_size a) (sector_size a)).

(** *** Self update, bad blocks, reboot *)

Definition selfupdate (firmware : bytes) (load_addr : Z) : M T agent bool :=
  let* _ := clear_rx_buffers in
  let crc := crc32_of firmware in
  let* payload := lift (pack_I [load_addr; len firmware; crc]) in
  let* _ := send_packet CMD_SELFUPDATE payload in
  let* p := recv 5000000 in
  let* ok := lift (is_ack_ok p) in
  if negb ok then ret false else
  let* _ := send_data_stream firmware 0 in
  let* p := recv 30000000 in
  let* ok := lift (is_ack_ok p) in
  if negb ok then
    let* _ := lift (index (snd p) 0) in ret false
  else ret true.

Definition mark_bad_block (block : Z) : M T agent bool :=
  let* _ := clear_rx_buffers in
  let* payload := lift (pack_I [block]) in
  let* _ := send_packet CMD_MARK_BAD payload in
  let* p := recv 5000000 in
  lift (is_ack_ok p).

Definition reboot : M T agent unit :=
  let* _ := clear_rx_buffers in
  let* _ := send_packet CMD_REBOOT [] in
  try_except (let* _ := recv 5000000 in ret tt) is_Exception (fun _ => ret tt).

End Client.

(** ** The client over the mock transport *)

(** [inbox s ps]: the pending bytes [s] hold exactly the packets [ps], besides
    READY packets and noise. *)
Inductive inbox : bytes -> list (Z * bytes) -> Prop :=
  | inbox_nil s f : consume s [] = (None, f, []) -> inbox s []
  | inbox_cons ready n p s ps :
      Forall ready_ok ready -> noise n -> packet_ok p -> fst p <> RSP_READY ->
      inbox s ps -> inbox (ready_wire ready ++ n ++ wire p ++ s) (p :: ps).

(** Packets back to back, followed by nothing. *)
Lemma inbox_wire ps :
  Forall (fun p => packet_ok p /\ fst p <> RSP_READY) ps -> inbox (concat (wire <$> ps)) ps.
Proof.
  induction 1 as [|p ps [Hp Hr] _ IH]; cbn; [by econstructor|].
  by apply (inbox_cons [] []).
Qed.

Section OnMock.
Variable fuel : nat.
Abbreviation mworld := (world MockTransport agent).

(** The mock can still give a packet or time out within [fuel]. *)
Definition enough (tmo : Z) (w : mworld) : Prop :=
  m_closed (tr w) = false /\ 0 < tmo /\ len (stream w) * 1000 + tmo + 1000 <= Z.of_nat fuel * 1000.

Lemma recv_some (w : mworld) tmo p ps :
  enough tmo w -> inbox (stream w) (p :: ps) ->
  exists w', recv_response fuel tmo w = (Ok p, w') /\ inbox (stream w') ps /\ same_line w w' /\
    len (stream w') <= len (stream w).
Proof.
  intros (Hc & Ht & Hf) Hi. inversion Hi as [|ready n p' s ps' Hr Hn Hp Hcmd Hs Heq]; subst.
  destruct (recv_response_mail fuel tmo ready n p s w) as (w' & Hw & Hs' & Hl); try done.
  { unfold len in Hf. lia. }
  exists w'. split_and!; [done|by rewrite Hs'|done|].
  rewrite Hs', !len_app. pose proof (len_nonneg (ready_wire ready)). pose proof (len_nonneg n).
  pose proof (len_nonneg (wire p)). lia.
Qed.

Lemma recv_none (w : mworld) tmo :
  enough tmo w -> inbox (stream w) [] ->
  exists w', recv_response fuel tmo w = (Raise TransportTimeout, w').
Proof.
  intros (Hc & Ht & Hf) Hi. inversion Hi as [s f Hcons Heq|]; subst.
  unfold recv_response, bind. cbn. destruct w as [m a lg]. cbn in *.
  destruct fuel as [|f'] eqn:Ef; [pose proof (len_nonneg (stream (World m a lg))); lia|].
  cbn [while]. unfold recv_response_body at 1, bind. cbn.
  replace (clock m + tmo - clock m) with tmo by lia.
  replace (tmo <=? 0) with false by (symmetry; apply Z.leb_gt; lia).
  destruct (recv_packet_none fuel tmo (World m a lg) f []) as (w' & Hw & _); try done.
  { cbn. unfold stream in Hf. cbn in Hf. rewrite len_app in Hf.
    pose proof (len_nonneg (leftover a)). lia. }
  rewrite Ef in Hw. rewrite Hw. by exists w'.
Qed.

Lemma enough_same_line tmo tmo' w w' :
  enough tmo w -> same_line w w' -> len (stream w') <= len (stream w) -> 0 < tmo' <= tmo ->
  enough tmo' w'.
Proof. intros (? & ? & ?) (? & ? & ? & ?) ? ?. unfold enough. split; [congruence|lia]. Qed.

Lemma send_packet_mock cmd data (w : mworld) :
  is_byte cmd -> is_bytes data -> m_closed (tr w) = false ->
  exists w', send_packet cmd data w = (Ok tt, w') /\
    tx_log (tr w') = tx_log (tr w) ++ [wire (cmd, data)] /\
    stream w' = stream w /\ m_closed (tr w') = false /\ clock (tr w') = clock (tr w) /\
    obj w' = obj w.
Proof.
  intros Hc Hd Hm. unfold send_packet, bind, lift. rewrite build_packet_eq by done.
  unfold write. cbn. unfold Mock_write. rewrite Hm. eexists. split; [done|].
  by unfold stream.
Qed.

End OnMock.

(** The two sequence bytes of a DATA packet. *)
Lemma seq_bytes_read z d :
  0 <= z < 65536 ->
  exists d0 d1, index (le_bytes 2 z ++ d) 0 = Ok d0 /\ index (le_bytes 2 z ++ d) 1 = Ok d1 /\
    Z.lor d0 (Z.shiftl d1 8) = z /\ drop 2 (le_bytes 2 z ++ d) = d /\ len (le_bytes 2 z ++ d) = 2 + len d.
Proof.
  intros Hz. exists (Z.land z (Z.ones 8)), (Z.land (Z.shiftr z 8) (Z.ones 8)).
  split_and!; try done.
  - pose proof (le_int_le_bytes 2 z ltac:(lia)) as Hle. rewrite fits_spec in Hle.
    specialize (Hle Hz). change (le_int _) with
      (Z.lor (Z.land z (Z.ones 8)) (Z.shiftl (Z.lor (Z.land (Z.shiftr z 8) (Z.ones 8)) 0) 8)) in Hle.
    by rewrite Z.lor_0_r in Hle.
  - by rewrite len_app, le_bytes_len by lia.
Qed.

(** The answer of the agent to READ: chunk number [i], numbered modulo 2^16. *)
Definition data_packet (i : nat) (d : bytes) : Z * bytes := (RSP_DATA, le_bytes 2 (Z.of_nat i mod 65536) ++ d).

Section ReadMemory.
Variable fuel : nat.
Abbreviation mworld := (world MockTransport agent).

Lemma clear_rx_same (w : mworld) :
  exists w', clear_rx_buffers w = (Ok tt, w') /\ stream w' = stream w /\
    tr w' = tr w /\ current_baud (obj w') = current_baud (obj w).
Proof. eexists. split; [done|]. by destruct w as [? [] ?]. Qed.

(** [_switch_baud] is not needed: a short transfer, a slow one, or the link
    already at the fast rate. *)
Definition at_speed (fast : bool) (n : Z) (a : agent) : Prop :=
  fast && (4096 <? n) = false \/ current_baud a = DEFAULT_FAST_BAUD.

Lemma at_speed_noop fast n (w : mworld) :
  at_speed fast n (obj w) ->
  (if fast && (4096 <? n) then switch_baud fuel DEFAULT_FAST_BAUD else ret true) w = (Ok true, w).
Proof.
  intros [-> | Hb]; [done|]. destruct (fast && _); [|done].
  unfold switch_baud, bind. cbn. by rewrite Hb.
Qed.

(** The packets a lossy, duplicating or reordering line can deliver of an
    answer [ds]: its DATA packets, ACKs, in any order. *)
Definition from_answer (ds : list bytes) (p : Z * bytes) : Prop :=
  fst p = RSP_ACK \/ exists i d, ds !! i = Some d /\ p = data_packet i d.

(** What [read_memory] holds after any number of packets. *)
Definition read_inv (ds : list bytes) (s : bytes * Z) : Prop :=
  (exists k, (k <= length ds)%nat /\ fst s = concat (take k ds) /\ snd s = Z.of_nat k mod 65536) \/
  len (concat ds) < len (fst s).

Lemma len_concat_take_lt (ds : list bytes) k :
  Forall (fun d => d <> []) ds -> (k < length ds)%nat -> len (concat (take k ds)) < len (concat ds).
Proof.
  intros Hne. revert k. induction Hne as [|d ds Hd Hne IH]; intros k Hk; cbn in *; [lia|].
  destruct k as [|k]; cbn.
  - rewrite len_nil, len_app. unfold len. destruct d; [done|]. cbn. lia.
  - rewrite !len_app. specialize (IH k ltac:(lia)). lia.
Qed.

Lemma read_inv_step ds received seq i d :
  Forall (fun d => d <> []) ds -> len ds <= 65536 -> ds !! i = Some d ->
  read_inv ds (received, seq) -> seq = Z.of_nat i ->
  read_inv ds (received ++ d, Z.land (seq + 1) 0xFFFF).
Proof.
  intros Hne Hk Hi [(k & Hkl & Hr & Hs)|Hgt] Hseq; cbn [fst snd] in *.
  2: { right. cbn. rewrite len_app. pose proof (len_nonneg d). lia. }
  apply lookup_lt_Some in Hi as Hil. unfold len in Hk.
  destruct (decide (k < length ds)%nat) as [Hlt|].
  - left. assert (k = i) as -> by (rewrite Z.mod_small in Hs; lia).
    exists (S i). split; [lia|]. cbn. split.
    + by rewrite Hr, (take_S_r _ _ d), concat_app, concat_cons, concat_nil, app_nil_r by done.
    + change 0xFFFF with (Z.ones 16). rewrite Z.land_ones by lia. subst seq.
      change (2 ^ 16) with 65536. f_equal. lia.
  - right. cbn. rewrite Hr, take_ge, len_app by lia.
    eapply (Forall_lookup_1 (fun d => d <> []) ds) in Hne; [|done].
    unfold len. destruct d; [done|]. cbn. lia.
Qed.

Lemma read_memory_loop ds turns ps s (w : mworld) :
  Forall (fun d => d <> []) ds -> len ds <= 65536 -> Forall (from_answer ds) ps ->
  enough fuel 60000000 w -> inbox (stream w) ps -> (length ps < turns)%nat -> read_inv ds s ->
  match while turns (read_memory_body fuel (len (concat ds))) s w with
  | (Ok c, _) => c = Rtn (concat ds)
  | (Raise _, _) => True
  | (Diverge, _) => False
  end.
Proof.
  intros Hne Hk. revert ps s w. induction turns as [|turns IH]; intros ps [received seq] w Hps He Hin Ht Hinv; [lia|].
  cbn [while]. unfold bind at 1, read_memory_body at 1, bind, recv.
  destruct ps as [|p ps].
  { destruct (recv_none fuel w 60000000) as (w' & ->); done. }
  destruct (recv_some fuel w 60000000 p ps) as (w' & -> & Hin' & Hl & Hlen); [done..|].
  inversion Hps as [|? ? Hp Hps']; subst.
  destruct Hp as [Ha|(i & d & Hi & ->)].
  - destruct p as [c dd]; cbn in Ha; subst c. cbn [fst snd].
    change (RSP_ACK =? RSP_DATA) with false. change (RSP_ACK =? RSP_ACK) with true. cbn [andb].
    destruct (if negb (beq dd []) then _ else _) as [[st|e|] w''] eqn:Est; [| done |].
    2: { unfold lift, index in Est. destruct dd; done. }
    destruct (negb (st =? ACK_OK)); [done|].
    destruct (negb (len received =? len (concat ds))) eqn:El; [done|]. b2p. cbn.
    destruct Hinv as [(k & Hkl & Hr & Hs)|Hgt]; cbn in *; [|lia].
    destruct (decide (k < length ds)%nat) as [Hlt|].
    + pose proof (len_concat_take_lt ds k Hne Hlt). subst received. lia.
    + by rewrite Hr, take_ge by lia.
  - cbn [fst snd data_packet]. apply lookup_lt_Some in Hi as Hil. unfold len in Hk.
    rewrite Z.mod_small by lia.
    destruct (seq_bytes_read (Z.of_nat i) d) as (d0 & d1 & H0 & H1 & Hlor & Hdrop & Hdl); [lia|].
    change (RSP_DATA =? RSP_DATA) with true. rewrite Hdl. cbn [andb].
    eapply (Forall_lookup_1 (fun d => d <> []) ds) in Hne as Hd; [|done].
    assert (0 < len d) by (unfold len; destruct d; [done|cbn; lia]).
    replace (2 <? 2 + len d) with true by (symmetry; apply Z.ltb_lt; lia).
    unfold lift. rewrite H0, H1, Hlor, Hdrop.
    destruct (negb (Z.of_nat i =? seq)) eqn:Es; [done|]. b2p. cbn [ret].
    apply (IH ps); try done.
    + eapply enough_same_line; [exact He|done|done|lia].
    + cbn in Ht. lia.
    + by eapply read_inv_step.
Qed.

Lemma read_memory_loop_ok ds k turns tail (w : mworld) :
  Forall (fun d => d <> []) ds -> enough fuel 60000000 w ->
  inbox (stream w) (imap (fun j d => data_packet (k + j) d) (drop k ds) ++ (RSP_ACK, [ACK_OK]) :: tail) ->
  (k <= length ds)%nat -> (length ds - k < turns)%nat ->
  exists w', while turns (read_memory_body fuel (len (concat ds))) (concat (take k ds), Z.of_nat k mod 65536) w
    = (Ok (Rtn (concat ds)), w') /\ same_line w w' /\ inbox (stream w') tail.
Proof.
  intros Hne. revert k w. induction turns as [|turns IH]; intros k w He Hin Hkl Ht; [lia|].
  cbn [while]. unfold bind at 1, read_memory_body at 1, bind, recv.
  destruct (drop k ds) as [|d rest] eqn:Ed; cbn [imap app] in Hin.
  - apply (f_equal length) in Ed. rewrite length_drop in Ed. cbn in Ed.
    destruct (recv_some fuel w 60000000 (RSP_ACK, [ACK_OK]) tail) as (w' & -> & Hin' & Hl & Hlen); [done..|].
    cbn. rewrite take_ge by lia. rewrite Z.eqb_refl. cbn. eauto.
  - assert (Hi : ds !! k = Some d).
    { rewrite <- (Nat.add_0_r k), <- lookup_drop, Ed. done. }
    assert (Hr : rest = drop (S k) ds).
    { erewrite drop_S in Ed by done. by injection Ed. }
    destruct (recv_some fuel w 60000000 (data_packet (k + 0) d)
      (imap ((fun j d => data_packet (k + j) d) ∘ S) rest ++ (RSP_ACK, [ACK_OK]) :: tail))
      as (w' & -> & Hin' & Hl & Hlen); [done..|].
    rewrite Nat.add_0_r. cbn [fst snd data_packet]. apply lookup_lt_Some in Hi as Hil.
    pose proof (Z.mod_pos_bound (Z.of_nat k) 65536 ltac:(lia)).
    destruct (seq_bytes_read (Z.of_nat k mod 65536) d) as (d0 & d1 & H0 & H1 & Hlor & Hdrop & Hdl); [lia|].
    change (RSP_DATA =? RSP_DATA) with true. rewrite Hdl. cbn [andb].
    eapply (Forall_lookup_1 (fun d => d <> []) ds) in Hne as Hd; [|done].
    assert (0 < len d) by (unfold len; destruct d; [done|cbn; lia]).
    replace (2 <? 2 + len d) with true by (symmetry; apply Z.ltb_lt; lia).
    unfold lift. rewrite H0, H1, Hlor, Hdrop, Z.eqb_refl. cbn [negb ret].
    replace (concat (take k ds) ++ d) with (concat (take (S k) ds))
      by by rewrite (take_S_r _ _ d), concat_app, concat_cons, concat_nil, app_nil_r by done.
    change 0xFFFF with (Z.ones 16). rewrite Z.land_ones by lia. change (2 ^ 16) with 65536.
    rewrite Zplus_mod_idemp_l. replace (Z.of_nat k + 1) with (Z.of_nat (S k)) by lia.
    destruct (IH (S k) w') as (w'' & -> & Hl' & Hin''); [| |lia|lia|].
    + eapply enough_same_line; [exact He|done|done|lia].
    + rewrite <- Hr. erewrite imap_ext; [exact Hin'|]. intros j x _. cbn. by rewrite Nat.add_succ_r.
    + exists w''. split; [done|]. split; [by etransitivity|done].
Qed.

(** Everything of [read_memory] before its receive loop. *)
Lemma read_memory_start addr size fast (w : mworld) :
  m_closed (tr w) = false -> at_speed fast size (obj w) ->
  fits 4 addr = true -> fits 4 size = true ->
  exists w1, stream w1 = stream w /\ m_closed (tr w1) = false /\
    tx_log (tr w1) = tx_log (tr w) ++ [wire (CMD_READ, le_bytes 4 addr ++ le_bytes 4 size)] /\
    read_memory fuel addr size fast w =
      (let* c := while fuel (read_memory_body fuel size) ([], 0) in
       match c with Rtn d => ret d | Next (d, _) | Brk (d, _) => ret d end) w1.
Proof.
  intros Hc Hsp Ha Hs. unfold read_memory.
  destruct (clear_rx_same w) as (w0 & Hw0 & Hst0 & Htr0 & Hb0).
  assert (Hsp0 : at_speed fast size (obj w0)) by (unfold at_speed in *; by rewrite Hb0).
  destruct (send_packet_mock CMD_READ (le_bytes 4 addr ++ le_bytes 4 size) w0)
    as (w1 & Hw1 & Htx & Hst1 & Hc1 & _).
  { by unfold is_byte, CMD_READ. }
  { apply Forall_app; split; by apply le_bytes_is_bytes. }
  { by rewrite Htr0. }
  exists w1. split; [congruence|]. split; [done|]. split; [by rewrite Htx, Htr0|].
  unfold bind at 1. rewrite Hw0. unfold bind at 1. rewrite (at_speed_noop _ _ _ Hsp0).
  unfold bind at 1, lift. cbn [pack_I]. unfold pack_le. rewrite Ha, Hs. cbn [res_bind].
  rewrite app_nil_r. unfold bind at 1. by rewrite Hw1.
Qed.

End ReadMemory.

(** ** Traces over any transport *)

Section Traces.
Context {T : Type} `{Transport T}.
Variable fuel : nat.

Lemma silent_recv_packet fl tmo : silent (T := T) (recv_packet fl tmo).
Proof. unfold recv_packet, recv_packet_body, consume_m. silence. Qed.

#[local] Hint Resolve silent_recv_packet : silent.

Lemma silent_recv_response fl tmo : silent (T := T) (recv_response fl tmo).
Proof. unfold recv_response, recv_response_body. silence. Qed.

(** The packets of a DATA stream. *)
Definition data_wire (data : bytes) (seq : Z) : list bytes :=
  imap (fun j p => wire (RSP_DATA, le_bytes 2 (seq + Z.of_nat j) ++ p)) (pieces WRITE_CHUNK_SIZE data).

Lemma emits_send_packet cmd data :
  is_byte cmd -> is_bytes data ->
  emits (T := T) (send_packet cmd data) (fun r l => writes l = [wire (cmd, data)]).
Proof.
  intros Hc Hd. unfold send_packet. emits_step. apply emits_lift. rewrite build_packet_eq by done.
  by repeat emits_step.
Qed.

Lemma data_wire_length data seq : length (data_wire data seq) = length (pieces WRITE_CHUNK_SIZE data).
Proof. unfold data_wire. by rewrite length_imap. Qed.

Lemma data_wire_lookup data seq j :
  Z.of_nat j * WRITE_CHUNK_SIZE < len data ->
  data_wire data seq !! j = Some (wire (RSP_DATA, le_bytes 2 (seq + Z.of_nat j) ++
      slice data (Z.of_nat j * WRITE_CHUNK_SIZE) (Z.of_nat j * WRITE_CHUNK_SIZE + WRITE_CHUNK_SIZE))).
Proof.
  intros Hj. unfold data_wire. rewrite list_lookup_imap.
  destruct (pieces WRITE_CHUNK_SIZE data !! j) as [p|] eqn:Ep; cbn.
  - apply pieces_lookup in Ep as [-> _]; [done|by unfold WRITE_CHUNK_SIZE].
  - apply lookup_ge_None in Ep. rewrite pieces_length in Ep. unfold WRITE_CHUNK_SIZE in *.
    pose proof (Z.div_mod (len data + 512 - 1) 512). pose proof (Z.mod_pos_bound (len data + 512 - 1) 512). lia.
Qed.

(** [m] writes a beginning of [out], and all of it when it returns [a]. *)
Definition sends {A} (m : M T agent A) (a : A) (out : list bytes) : Prop :=
  outputs m (fun r o => o `prefix_of` out /\ (r = Ok a -> o = out)).

(** A number that does not fit its 16 bits ends the stream. *)
Lemma send_data_sends data seq0 :
  is_bytes data -> sends (send_data_stream data seq0) tt (data_wire data seq0).
Proof.
  intros Hd. unfold send_data_stream, sends, outputs. emits_step.
  set (Post := fun (r : res (ctl (Z * Z) unit)) l =>
    writes l `prefix_of` data_wire data seq0 /\ (forall c, r = Ok c -> writes l = data_wire data seq0)).
  eapply emits_weaken with (P := Post).
  2: { intros [c|e|] l [H1 H2]; [|split; [done|discriminate]..].
       apply emits_ret. rewrite app_nil_r. split; [done|]. intros _. by eapply H2. }
  apply (emits_while (fun s l => exists j, fst s = Z.min (Z.of_nat j * WRITE_CHUNK_SIZE) (len data) /\
    snd s = seq0 + Z.of_nat j /\ writes l = take j (data_wire data seq0))).
  - exists 0%nat. cbn. pose proof (len_nonneg data). split_and!; [lia|lia|done].
  - intros [off seq] l0 (j & Hoff & Hseq & Hw). cbn in Hoff, Hseq. unfold send_data_body.
    assert (Hpl := pieces_length WRITE_CHUNK_SIZE data). unfold WRITE_CHUNK_SIZE in Hpl.
    pose proof (Z.div_mod (len data + 512 - 1) 512 ltac:(lia)).
    pose proof (Z.mod_pos_bound (len data + 512 - 1) 512 ltac:(lia)).
    unfold WRITE_CHUNK_SIZE in *.
    emits_step; b2p.
    + apply emits_ret. rewrite app_nil_r. rewrite take_ge in Hw by (rewrite data_wire_length; unfold WRITE_CHUNK_SIZE; lia).
      split; [by rewrite Hw|done].
    + emits_step. apply emits_lift. unfold pack_le. destruct (fits 2 seq).
      2: { split; [rewrite app_nil_r, Hw; apply prefix_take|done]. }
      emits_step. eapply emits_weaken; [apply emits_send_packet|].
      { by unfold is_byte, RSP_DATA. }
      { apply Forall_app; split; [by apply le_bytes_is_bytes|by apply is_bytes_slice]. }
      pose proof (data_wire_lookup data seq0 j) as Hj. unfold WRITE_CHUNK_SIZE in Hj.
      rewrite Z.min_l in Hoff by lia. specialize (Hj ltac:(lia)).
      intros r l Hl. rewrite slice_clip in Hl by lia. rewrite Hoff, Hseq in Hl. cbn.
      assert (Hnext : writes (l0 ++ l) = take (S j) (data_wire data seq0)).
      { rewrite writes_app, Hw, Hl. by erewrite take_S_r. }
      destruct r as [[]|e|].
      * apply emits_ret. rewrite !app_nil_r. exists (S j). cbn. rewrite Hnext. split_and!; [lia|lia|done].
      * split; [rewrite Hnext; apply prefix_take|done].
      * split; [rewrite Hnext; apply prefix_take|done].
  - intros s l0 (j & _ & _ & Hw). split; [rewrite Hw; apply prefix_take|done].
Qed.

Lemma total_send_data `{!TransportLaws T} data seq : total (T := T) (send_data_stream data seq).
Proof.
  unfold send_data_stream. apply total_bind; [|totality].
  assert (Hb : forall s, total (T := T) (send_data_body data s)).
  { intros [off sq]. unfold send_data_body, send_packet. totality.
    - apply total_lift. unfold pack_le. by case_match.
    - apply total_lift. unfold build_packet. case_match; [done|]. unfold pack_le. by case_match. }
  apply (total_while (fun s => Z.to_nat (len data - fst s))); [done| |].
  2: { cbn. unfold len. lia. }
  intros [off sq] w s' w'. unfold send_data_body, bind. destruct (off <? len data) eqn:E; b2p; [|done].
  cbn [negb]. unfold lift. destruct (pack_le 2 sq); [|done..].
  destruct (send_packet _ _ w) as [[[]|e|] w1]; [|done..]. intros [= <- <-]. cbn.
  unfold WRITE_CHUNK_SIZE. lia.
Qed.

(** What a block looks like on the wire. *)
Definition block_wire (cmd addr : Z) (data : bytes) : list bytes :=
  wire (cmd, le_bytes 4 addr ++ le_bytes 4 (len data) ++ le_bytes 4 (crc32_of data)) :: data_wire data 0.

Lemma pack_I3 a b c :
  pack_I [a; b; c] = Ok (le_bytes 4 a ++ le_bytes 4 b ++ le_bytes 4 c) \/ pack_I [a; b; c] = Raise StructError.
Proof.
  cbn. unfold pack_le. destruct (fits 4 a); [|by right]. destruct (fits 4 b); [|by right].
  destruct (fits 4 c); [|by right]. left. cbn. by rewrite app_nil_r.
Qed.

#[local] Hint Resolve silent_recv_response : silent.

Lemma silent_clear_rx : silent (T := T) clear_rx_buffers.
Proof. unfold clear_rx_buffers, modify. silence. Qed.

Lemma silent_recv tmo : silent (T := T) (recv fuel tmo).
Proof. apply silent_recv_response. Qed.

#[local] Hint Resolve silent_clear_rx silent_recv : silent.

Lemma write_block_sends addr data :
  is_bytes data -> sends (write_block fuel addr data) true (block_wire CMD_WRITE addr data).
Proof.
  intros Hd. unfold sends, write_block.
  apply outputs_silent_bind; [silence|split; [apply prefix_nil|done]..|intros _].
  apply outputs_bind, emits_lift. destruct (pack_I3 addr (len data) (crc32_of data)) as [-> | ->]; [|split; [apply prefix_nil|done]].
  apply outputs_bind.
  eapply emits_weaken; [apply emits_send_packet|].
  { by unfold is_byte, CMD_WRITE. }
  { repeat apply Forall_app_2; by apply le_bytes_is_bytes. }
  intros r l Hw. rewrite Hw. unfold block_wire. cbn.
  destruct r as [[]|e|]; [|split; [by eexists|done]..].
  apply outputs_silent_bind; [silence|split; [by eexists|done]..|intros p].
  apply outputs_silent_bind; [silence|split; [by eexists|done]..|intros ok].
  destruct ok; cbn; [|apply outputs_ret; split; [by eexists|done]].
  apply outputs_bind. eapply outputs_weaken; [by apply send_data_sends|].
  intros r o [Hp Hok]. destruct r as [[]|e|]; [|split; [by apply prefix_cons|done]..].
  specialize (Hok eq_refl). subst o.
  apply outputs_silent; [silence|]. intros r. rewrite app_nil_r. by split; [|intros].
Qed.

(** *** write_memory *)

Variables (addr : Z) (data : bytes).
Hypothesis Hdata : is_bytes data.

Definition block (i : nat) : bytes :=
  slice data (Z.of_nat i * WRITE_MAX_TRANSFER) (Z.of_nat i * WRITE_MAX_TRANSFER + WRITE_MAX_TRANSFER).
Definition nblocks : nat := Z.to_nat (blocks_of (len data)).
(** Block number [i] on the wire. *)
Definition bw (i : nat) : list bytes :=
  block_wire CMD_WRITE (addr + Z.of_nat i * WRITE_MAX_TRANSFER) (block i).
Definition bws (js : list nat) : list bytes := concat (bw <$> js).
(** The offset before block [i]. *)
Definition boff (i : nat) : Z := Z.min (Z.of_nat i * WRITE_MAX_TRANSFER) (len data).

Lemma bws_snoc l i : bws (l ++ [i]) = bws l ++ bw i.
Proof. unfold bws. rewrite fmap_app, concat_app. cbn. by rewrite app_nil_r. Qed.

Lemma nblocks_bound i : (i < nblocks)%nat <-> Z.of_nat i * WRITE_MAX_TRANSFER < len data.
Proof.
  unfold nblocks, blocks_of, WRITE_MAX_TRANSFER. pose proof (len_nonneg data).
  pose proof (Z.div_mod (len data + 16 * 1024 - 1) (16 * 1024) ltac:(lia)).
  pose proof (Z.mod_pos_bound (len data + 16 * 1024 - 1) (16 * 1024) ltac:(lia)). lia.
Qed.

(** The facts about a block that both loops need. *)
Lemma block_facts i :
  (i < nblocks)%nat ->
  boff i = Z.of_nat i * WRITE_MAX_TRANSFER /\
  slice data (boff i) (boff i + Z.min WRITE_MAX_TRANSFER (len data - boff i)) = block i /\
  len (block i) = Z.min WRITE_MAX_TRANSFER (len data - boff i) /\
  boff i + Z.min WRITE_MAX_TRANSFER (len data - boff i) = boff (S i) /\
  is_bytes (block i) /\ boff i < len data.
Proof.
  intros Hi%nblocks_bound. assert (Hb : boff i = Z.of_nat i * WRITE_MAX_TRANSFER) by (unfold boff; lia).
  assert (Hl : len (block i) = Z.min WRITE_MAX_TRANSFER (len data - boff i)).
  { unfold block. rewrite len_slice by (unfold WRITE_MAX_TRANSFER; lia). unfold WRITE_MAX_TRANSFER in *. lia. }
  split; [done|]. split; [rewrite Hb; apply slice_clip; unfold WRITE_MAX_TRANSFER in *; lia|].
  split; [done|]. split; [unfold boff, WRITE_MAX_TRANSFER in *; lia|].
  split; [by apply is_bytes_slice|lia].
Qed.

(** What is written: whole blocks, then possibly the beginning of one. *)
Definition partial (o : list bytes) : Prop :=
  exists bs t, o = bws bs ++ t /\ Forall (fun i => (i < nblocks)%nat) bs /\
    (t = [] \/ exists j, (j < nblocks)%nat /\ t `prefix_of` bw j).

Lemma write_window_sends i xs (Hi : (i < nblocks)%nat) :
  outputs (foreach xs (write_window_body addr data) (boff i, 0)) (fun r o =>
    match r with
    | Ok (Next (off, n)) | Ok (Brk (off, n)) => exists k, (i + k <= nblocks)%nat /\
        off = boff (i + k) /\ n = Z.of_nat k /\ o = bws (seq i k) /\ (0 < length xs -> 0 < k)%nat
    | Ok (Rtn _) => False
    | _ => exists k t, (i + k < nblocks)%nat /\ o = bws (seq i k) ++ t /\ t `prefix_of` bw (i + k)
    end).
Proof.
  apply (outputs_foreach (fun done s o => exists k, (i + k <= nblocks)%nat /\
     fst s = boff (i + k) /\ snd s = Z.of_nat k /\ o = bws (seq i k) /\ (0 < length done -> 0 < k)%nat)).
  - exists 0%nat. cbn. rewrite Nat.add_0_r. split_and!; try done; lia.
  - intros done x rest [off n] o Hxs (k & Hk & Hoff & Hn & Ho & Hpos). cbn in Hoff, Hn. subst off n o.
    unfold write_window_body. cbn zeta. case_match eqn:E; b2p.
    + apply outputs_ret. rewrite app_nil_r. exists k. split_and!; try done. intros _.
      destruct k; [|lia]. rewrite Nat.add_0_r in *. apply block_facts in Hi. lia.
    + assert (Hik : (i + k < nblocks)%nat) by (apply nblocks_bound; unfold boff in E; lia).
      destruct (block_facts _ Hik) as (Hb & Hsl & Hlen & Hnext & Hbytes & _).
      rewrite Hsl, Hnext, <- Hlen.
      apply outputs_bind, emits_lift.
      destruct (pack_I3 (addr + boff (i + k)) (len (block (i + k))) (crc32_of (block (i + k)))) as [-> | ->].
      2: { exists k, []. split_and!; [done|done|apply prefix_nil]. }
      apply outputs_bind.
      eapply emits_weaken; [apply emits_send_packet|].
      { by unfold is_byte, CMD_WRITE. } { repeat apply Forall_app_2; by apply le_bytes_is_bytes. }
      intros r l Hw. rewrite Hw, Hb. cbn.
      destruct r as [[]|e|]; cbn; [|exists k; eexists; split_and!; [done|done|by eexists]..].
      apply outputs_bind. eapply outputs_weaken; [by apply send_data_sends|].
      intros r o [Hp Hok]. destruct r as [[]|e|]; cbn;
        [|exists k; eexists; split_and!; [done|done|by apply prefix_cons]..].
      rewrite (Hok eq_refl). apply outputs_ret. exists (S k). cbn [fst snd].
      rewrite Nat.add_succ_r, seq_S, bws_snoc, app_nil_r. split_and!; try done; lia.
  - intros [off n] o (k & Hk & Hoff & Hn & Ho & Hpos). exists k. by split_and!.
Qed.

Lemma write_retry_sends i k (Hk : (i + k <= nblocks)%nat) xs :
  (length xs <= k)%nat ->
  outputs (foreach xs (write_retry_body fuel addr data) (boff i)) (fun r o =>
    match r with
    | Ok (Next off) => off = boff (i + length xs) /\ o = bws (seq i (length xs))
    | Ok (Brk off) => False
    | _ => exists m t, (i + m < nblocks)%nat /\ o = bws (seq i m) ++ t /\ t `prefix_of` bw (i + m)
    end).
Proof.
  intros Hxs.
  apply (outputs_foreach (fun done s o => s = boff (i + length done) /\ o = bws (seq i (length done)))).
  - cbn. by rewrite Nat.add_0_r.
  - intros done x rest off o Heq [-> ->]. set (m := length done).
    assert (Him : (i + m < nblocks)%nat).
    { apply (f_equal length) in Heq. rewrite length_app in Heq. cbn in Heq. lia. }
    destruct (block_facts _ Him) as (Hb & Hsl & Hlen & Hnext & Hbytes & Hlt).
    unfold write_retry_body. cbn zeta.
    replace (len data <=? boff (i + m)) with false by (symmetry; apply Z.leb_gt; lia).
    rewrite Hsl, Hnext. apply outputs_bind. eapply outputs_weaken; [by apply write_block_sends|].
    rewrite Hb. intros r o [Hp Hok]. destruct r as [ok|e|].
    2-3: exists m, o; by split_and!.
    destruct ok; cbn; apply outputs_ret; rewrite app_nil_r; [|exists m, o; by split_and!].
    rewrite (Hok eq_refl), length_app. cbn [length]. fold m. rewrite Nat.add_1_r, Nat.add_succ_r.
    by rewrite seq_S, bws_snoc.
  - done.
Qed.

Lemma bws_app a b : bws (a ++ b) = bws a ++ bws b.
Proof. unfold bws. by rewrite fmap_app, concat_app. Qed.

Lemma seq_below i k : (i + k <= nblocks)%nat -> Forall (fun j => (j < nblocks)%nat) (seq i k).
Proof. intros Hk. apply Forall_forall. intros j Hj%elem_of_seq. lia. Qed.

(** Blocks sent so far, the next one being block [i]. *)
Definition progress_inv (s : Z * Z) (o : list bytes) : Prop :=
  exists i bs, (i <= nblocks)%nat /\ fst s = boff i /\ o = bws bs /\
    Forall (fun j => (j < nblocks)%nat) bs /\ (forall j, (j < i)%nat -> j ∈ bs).

Lemma progress_partial bs i k t :
  Forall (fun j => (j < nblocks)%nat) bs -> (i + k < nblocks)%nat -> t `prefix_of` bw (i + k) ->
  partial (bws bs ++ bws (seq i k) ++ t).
Proof.
  intros Hbs Hk Ht. exists (bs ++ seq i k), t. rewrite bws_app, <- app_assoc. split; [done|].
  split; [apply Forall_app; split; [done|apply seq_below; lia]|]. right. by exists (i + k)%nat.
Qed.

Lemma progress_step bs i k win off :
  (i + k <= nblocks)%nat -> off = boff (i + k) -> Forall (fun j => (j < nblocks)%nat) bs ->
  (forall j, (j < i)%nat -> j ∈ bs) ->
  forall bs', Forall (fun j => (j < nblocks)%nat) bs' ->
  progress_inv (off, win) (bws (bs ++ bs' ++ seq i k)).
Proof.
  intros Hk -> Hbs Hin bs' Hbs'. exists (i + k)%nat, (bs ++ bs' ++ seq i k). split_and!; try done.
  - repeat apply Forall_app_2; try done. by apply seq_below.
  - intros j Hj. rewrite !elem_of_app, elem_of_seq. destruct (decide (j < i)%nat); [left; auto|right; right; lia].
Qed.

Lemma write_acks_silent xs : silent (T := T) (foreach xs (write_acks_body fuel) true).
Proof. unfold write_acks_body. silence. Qed.

Definition write_result (r : res (ctl (Z * Z) bool)) (o : list bytes) : Prop :=
  partial o /\ (forall c, r = Ok c -> c <> Rtn false -> exists bs, o = bws bs /\ forall i, (i < nblocks)%nat -> i ∈ bs).

Lemma blocks_partial js : Forall (fun j => (j < nblocks)%nat) js -> partial (bws js).
Proof. intros Hj. exists js, []. rewrite app_nil_r. auto. Qed.

Lemma write_memory_acks_sends bs i k window :
  (i + k <= nblocks)%nat -> Forall (fun j => (j < nblocks)%nat) bs -> (forall j, (j < i)%nat -> j ∈ bs) ->
  outputs (write_memory_acks fuel addr data (boff i) window (boff (i + k)) (Z.of_nat k)) (fun r o' =>
    match r with
    | Ok (Next s') => progress_inv s' (bws (bs ++ seq i k) ++ o')
    | _ => write_result r (bws (bs ++ seq i k) ++ o')
    end).
Proof.
  intros Hk Hbs Hin. unfold write_memory_acks. cbn zeta.
  assert (Hbs2 : Forall (fun j => (j < nblocks)%nat) (bs ++ seq i k))
    by (apply Forall_app; split; [done|by apply seq_below]).
  assert (Hstop := blocks_partial _ Hbs2).
  apply outputs_silent_bind; [apply write_acks_silent|rewrite app_nil_r; by split..|intros c].
  cbn zeta. destruct (match c with Next b | Brk b => b | Rtn _ => false end).
  { apply outputs_ret. rewrite app_nil_r. by apply (progress_step bs i k window _ Hk eq_refl Hbs Hin []). }
  apply outputs_silent_bind; [silence|rewrite app_nil_r; by split..|intros _].
  apply outputs_silent_bind; [silence|rewrite app_nil_r; by split..|intros _].
  assert (Hlen : length (range (Z.of_nat k)) = k).
  { unfold range. rewrite length_fmap, length_seq. lia. }
  apply outputs_bind. eapply outputs_weaken; [apply (write_retry_sends i k Hk); by rewrite Hlen|].
  rewrite Hlen. intros r o Hr. destruct r as [[off|off|u]|e|]; cbn in Hr; [|done|..].
  - destruct Hr as [-> ->]. apply outputs_ret. rewrite app_nil_r, <- !bws_app, <- app_assoc.
    apply (progress_step bs i k _ _ Hk eq_refl Hbs Hin). by apply seq_below.
  - destruct Hr as (m & t & Hm & -> & Ht). apply outputs_ret. rewrite app_nil_r.
    split; [by apply progress_partial|]. by intros c' [= <-].
  - destruct Hr as (m & t & Hm & -> & Ht). split; [by apply progress_partial|done].
  - destruct Hr as (m & t & Hm & -> & Ht). split; [by apply progress_partial|done].
Qed.

Lemma write_memory_turn s o :
  progress_inv s o ->
  outputs (write_memory_body fuel addr data s) (fun r o' =>
    match r with Ok (Next s') => progress_inv s' (o ++ o') | _ => write_result r (o ++ o') end).
Proof.
  intros (i & bs & Hi & Hoff & -> & Hbs & Hin). destruct s as [offset window]. cbn in Hoff. subst offset.
  unfold write_memory_body. cbn zeta. case_match eqn:E; b2p.
  { apply outputs_ret. rewrite app_nil_r. split; [by apply blocks_partial|].
    intros c _ _. exists bs. split; [done|]. intros j Hj. apply Hin.
    apply nblocks_bound in Hj. unfold boff, WRITE_MAX_TRANSFER in *. lia. }
  assert (Hi' : (i < nblocks)%nat) by (apply nblocks_bound; unfold boff in E; lia).
  apply outputs_bind. eapply outputs_weaken; [by apply write_window_sends|].
  intros r o Hr. destruct r as [[[off n]|[off n]|u]|e|]; cbn in Hr; [| |done|..].
  - destruct Hr as (k & Hk & -> & -> & -> & _). eapply outputs_weaken; [by apply write_memory_acks_sends|].
    intros r o. by rewrite bws_app, <- app_assoc.
  - destruct Hr as (k & Hk & -> & -> & -> & _). eapply outputs_weaken; [by apply write_memory_acks_sends|].
    intros r o. by rewrite bws_app, <- app_assoc.
  - destruct Hr as (k & t & Hk & -> & Ht). split; [by apply progress_partial|done].
  - destruct Hr as (k & t & Hk & -> & Ht). split; [by apply progress_partial|done].
Qed.

End Traces.

(** ** The sector bitmap *)

Section Bitmap.

Lemma land_bit b k : 0 <= k -> negb (Z.land b (Z.shiftl 1 k) =? 0) = Z.testbit b k.
Proof.
  intros Hk. rewrite Z.shiftl_1_l. destruct (Z.testbit b k) eqn:E.
  - apply negb_true_iff, Z.eqb_neq. intros H.
    apply (f_equal (fun z => Z.testbit z k)) in H. rewrite Z.land_spec, E, Z.pow2_bits_true in H by done.
    by rewrite Z.bits_0 in H.
  - apply negb_false_iff, Z.eqb_eq. apply Z.bits_inj'. intros n Hn. rewrite Z.land_spec, Z.bits_0.
    destruct (decide (n = k)) as [->|]; [by rewrite E|]. rewrite (Z.pow2_bits_false k n) by lia. apply andb_false_r.
Qed.

Lemma get_bit_testbit bm s b :
  0 <= s -> bm !! Z.to_nat (s / 8) = Some b -> get_bit bm s = Ok (Z.testbit b (s mod 8)).
Proof.
  intros Hs Hb. unfold get_bit, index. rewrite Hb. cbn. f_equal. apply land_bit.
  apply Z.mod_pos_bound. lia.
Qed.

Lemma get_set_bit bm s t :
  0 <= s -> 0 <= t -> (Z.to_nat (s / 8) < length bm)%nat -> (Z.to_nat (t / 8) < length bm)%nat ->
  get_bit (set_bit bm s) t = if s =? t then Ok true else get_bit bm t.
Proof.
  intros Hs Ht Hls Hlt.
  destruct (lookup_lt_is_Some_2 bm _ Hlt) as [b Hb].
  pose proof (Z.mod_pos_bound s 8 ltac:(lia)). pose proof (Z.mod_pos_bound t 8 ltac:(lia)).
  pose proof (Z.div_mod s 8 ltac:(lia)). pose proof (Z.div_mod t 8 ltac:(lia)).
  pose proof (Z.div_pos s 8 Hs ltac:(lia)). pose proof (Z.div_pos t 8 Ht ltac:(lia)).
  rewrite (get_bit_testbit bm t b) by done. unfold set_bit.
  destruct (decide (s / 8 = t / 8)) as [Heq|Hne].
  - rewrite (get_bit_testbit _ t (Z.lor b (Z.shiftl 1 (s mod 8)))); [|done|].
    2: { rewrite Heq, list_lookup_alter_eq, Hb. done. }
    rewrite Z.lor_spec, Z.shiftl_1_l. destruct (s =? t) eqn:E; b2p.
    + subst t. rewrite Z.pow2_bits_true by lia. by rewrite orb_true_r.
    + rewrite (Z.pow2_bits_false (s mod 8)) by lia. by rewrite orb_false_r.
  - replace (s =? t) with false by (symmetry; apply Z.eqb_neq; intros ->; done).
    apply get_bit_testbit; [done|]. rewrite list_lookup_alter_ne; [done|]. lia.
Qed.

Lemma set_bit_length bm s : length (set_bit bm s) = length bm.
Proof. apply length_alter. Qed.

Lemma get_bit_zeros n s : 0 <= s -> s / 8 < n -> get_bit (brep n 0) s = Ok false.
Proof.
  intros Hs Hn. rewrite (get_bit_testbit _ s 0); [by rewrite Z.bits_0|done|].
  apply lookup_replicate. pose proof (Z.div_pos s 8 Hs). lia.
Qed.

Lemma bitmap_fold data ss n m t :
  0 <= t < Z.of_nat n -> (m <= n)%nat ->
  let bm := foldl (fun bm s => if sector_used data ss s then set_bit bm s else bm)
    (brep ((Z.of_nat n + 7) / 8) 0) (Z.of_nat <$> seq 0 m) in
  length bm = Z.to_nat ((Z.of_nat n + 7) / 8) /\
  get_bit bm t = Ok ((t <? Z.of_nat m) && sector_used data ss t).
Proof.
  intros Ht. cbn zeta.
  assert (Hd : forall s, 0 <= s < Z.of_nat n -> 0 <= s / 8 < (Z.of_nat n + 7) / 8).
  { intros s Hs. pose proof (Z.div_mod s 8 ltac:(lia)). pose proof (Z.mod_pos_bound s 8 ltac:(lia)).
    pose proof (Z.div_mod (Z.of_nat n + 7) 8 ltac:(lia)).
    pose proof (Z.mod_pos_bound (Z.of_nat n + 7) 8 ltac:(lia)). lia. }
  pose proof (Hd t Ht). induction m as [|m IH]; intros Hm.
  - cbn [seq fmap list_fmap foldl]. split; [by unfold brep; rewrite length_replicate|].
    replace (t <? Z.of_nat 0) with false by (symmetry; apply Z.ltb_ge; lia). apply get_bit_zeros; lia.
  - destruct (IH ltac:(lia)) as [Hl Hg]. rewrite seq_S, fmap_app, foldl_app. cbn [Nat.add fmap list_fmap foldl].
    set (bm := foldl _ _ _) in *.
    pose proof (Hd (Z.of_nat m) ltac:(lia)).
    destruct (sector_used data ss (Z.of_nat m)) eqn:Eu.
    + rewrite set_bit_length. split; [done|]. rewrite get_set_bit by lia. rewrite Hg.
      destruct (Z.of_nat m =? t) eqn:E; b2p.
      * subst t. rewrite Eu. by replace (Z.of_nat m <? Z.of_nat (S m)) with true by (symmetry; apply Z.ltb_lt; lia).
      * f_equal. f_equal. apply eq_bool_prop_intro. rewrite !Is_true_true, !Z.ltb_lt. lia.
    + split; [done|]. rewrite Hg. f_equal.
      destruct (decide (t = Z.of_nat m)) as [->|]; [by rewrite Eu, !andb_false_r|].
      f_equal. apply eq_bool_prop_intro. rewrite !Is_true_true, !Z.ltb_lt. lia.
Qed.

(** A sector not sent is all 0xFF. *)
Lemma sector_unused data ss s :
  0 <= s -> 0 < ss -> sector_used data ss s = false ->
  sector_data data ss s = brep (len (sector_data data ss s)) 0xFF.
Proof.
  intros Hs Hss H. unfold sector_used in H. b2p. rewrite H at 1.
  set (d := sector_data data ss s). assert (len d <= ss).
  { unfold d, sector_data. rewrite len_slice by lia. lia. }
  pose proof (len_nonneg d). unfold slice, brep. rewrite drop_0, take_replicate. f_equal. lia.
Qed.

End Bitmap.

#[export] Hint Resolve silent_recv_packet silent_recv_response silent_clear_rx silent_recv : silent.

Section FlashStream.
Context {T : Type} `{Transport T}.
Variables (fuel : nat) (addr : Z) (data : bytes) (ss : Z).
Hypothesis Hdata : is_bytes data.
Hypothesis Hss : 0 < ss.

Definition nsectors : nat := Z.to_nat (num_sectors_of (len data) ss).

(** The DATA packets of sector [s]: none when it is all 0xFF. *)
Definition sector_wire (s : nat) : list bytes :=
  if sector_used data ss (Z.of_nat s)
  then data_wire (sector_data data ss (Z.of_nat s)) (Z.of_nat s * ss / WRITE_CHUNK_SIZE) else [].

Definition flash_wire : list bytes :=
  wire (CMD_FLASH_STREAM, (le_bytes 4 addr ++ le_bytes 4 (len data) ++ le_bytes 4 (crc32_of data)) ++
        sector_bitmap data ss)
  :: concat (sector_wire <$> seq 0 nsectors).

Lemma nsectors_bound s : (s < nsectors)%nat <-> Z.of_nat s * ss < len data.
Proof.
  clear Hdata. unfold nsectors, num_sectors_of. pose proof (len_nonneg data).
  pose proof (Z.div_mod (len data + ss - 1) ss ltac:(lia)).
  pose proof (Z.mod_pos_bound (len data + ss - 1) ss Hss). split; intros; nia.
Qed.

Lemma bitmap_used s :
  (s < nsectors)%nat -> get_bit (sector_bitmap data ss) (Z.of_nat s) = Ok (sector_used data ss (Z.of_nat s)).
Proof.
  clear Hdata. intros Hs. destruct (bitmap_fold data ss nsectors nsectors (Z.of_nat s)) as [_ Hg]; [lia..|].
  unfold sector_bitmap, range. fold nsectors.
  assert (0 <= num_sectors_of (len data) ss)
    by (unfold num_sectors_of; pose proof (len_nonneg data); apply Z.div_pos; lia).
  replace (num_sectors_of (len data) ss) with (Z.of_nat nsectors) by (unfold nsectors; lia).
  rewrite Hg. by replace (Z.of_nat s <? Z.of_nat nsectors) with true by (symmetry; apply Z.ltb_lt; lia).
Qed.

Lemma set_bit_bytes bm s : is_bytes bm -> is_bytes (set_bit bm s).
Proof.
  intros Hb. apply Forall_alter; [done|]. intros b Hl Hb'. unfold is_byte in *.
  pose proof (Z.mod_pos_bound s 8 ltac:(lia)).
  assert (Hr : 0 <= Z.shiftl 1 (s mod 8) < 2 ^ 8).
  { rewrite Z.shiftl_1_l. split; [lia|]. apply Z.pow_lt_mono_r; lia. }
  change 256 with (2 ^ 8) in *. split; [apply Z.lor_nonneg; lia|].
  destruct (decide (Z.lor b (Z.shiftl 1 (s mod 8)) = 0)) as [->|]; [lia|].
  assert (0 < Z.lor b (Z.shiftl 1 (s mod 8))) by (pose proof (Z.lor_nonneg b (Z.shiftl 1 (s mod 8))); lia).
  apply Z.log2_lt_pow2; [done|]. rewrite Z.log2_lor by lia.
  apply Z.max_lub_lt.
  - destruct (decide (b = 0)) as [->|]; [cbn; lia|]. apply Z.log2_lt_pow2; lia.
  - apply Z.log2_lt_pow2; [rewrite Z.shiftl_1_l in *; lia|lia].
Qed.

Lemma bitmap_bytes : is_bytes (sector_bitmap data ss).
Proof.
  unfold sector_bitmap. set (l := range _). assert (H0 : is_bytes (brep ((num_sectors_of (len data) ss + 7) / 8) 0)).
  { apply Forall_replicate. unfold is_byte. lia. }
  revert H0. generalize (brep ((num_sectors_of (len data) ss + 7) / 8) 0).
  induction l as [|x l IH]; intros bm Hb; cbn; [done|]. apply IH. case_match; [by apply set_bit_bytes|done].
Qed.

(** What one turn of the loop over the sectors streams. *)
Lemma sector_sends k :
  (k < nsectors)%nat ->
  sends (T := T) (if sector_used data ss (Z.of_nat k)
    then send_data_stream (slice data (Z.of_nat k * ss) (Z.of_nat k * ss + Z.min ss (len data - Z.of_nat k * ss))) (Z.of_nat k * ss / WRITE_CHUNK_SIZE)
    else ret tt) tt (sector_wire k).
Proof.
  intros Hk. assert (Hk' := Hk). apply nsectors_bound in Hk'. rewrite slice_clip by lia.
  replace (slice data (Z.of_nat k * ss) (Z.of_nat k * ss + ss)) with (sector_data data ss (Z.of_nat k))
    by (unfold sector_data; f_equal; lia).
  unfold sector_wire. destruct (sector_used data ss (Z.of_nat k)); [|by apply outputs_ret].
  apply send_data_sends. by apply is_bytes_slice.
Qed.

Lemma write_flash_sectors_send :
  outputs (T := T) (foreach (range (num_sectors_of (len data) ss))
             (write_flash_sector fuel data ss (sector_bitmap data ss)) 0) (fun r o =>
    o `prefix_of` concat (sector_wire <$> seq 0 nsectors) /\
    (forall s, r = Ok (Next s) -> o = concat (sector_wire <$> seq 0 nsectors))).
Proof.
  unfold range. fold nsectors.
  assert (Hpre : forall k t o, (k < nsectors)%nat -> o = concat (sector_wire <$> seq 0 k) ->
    t `prefix_of` sector_wire k -> o ++ t `prefix_of` concat (sector_wire <$> seq 0 nsectors)).
  { intros k t o Hk -> Ht. replace nsectors with (k + S (nsectors - k - 1))%nat by lia.
    rewrite seq_app, fmap_app, concat_app. apply prefix_app. cbn. by apply prefix_app_r. }
  apply (outputs_foreach (fun done s o => s = Z.min (Z.of_nat (length done) * ss) (len data) /\
    o = concat (sector_wire <$> seq 0 (length done)))).
  - cbn. pose proof (len_nonneg data). split; [lia|done].
  - intros done x rest off o Hxs [-> Ho].
    set (k := length done) in *.
    assert (Hx : (k < nsectors)%nat /\ x = Z.of_nat k).
    { pose proof (f_equal (fun l => l !! k) Hxs) as Hl. rewrite list_lookup_fmap in Hl.
      unfold k in Hl at 2. rewrite list_lookup_middle in Hl by done.
      apply fmap_Some in Hl as (j & Hj & ->). apply lookup_seq in Hj as [-> Hj]. by split. }
    destruct Hx as [Hk ->]. assert (Hk' := Hk). apply nsectors_bound in Hk'.
    unfold write_flash_sector. cbn zeta. rewrite Z.min_l by lia.
    rewrite bitmap_used by done. apply outputs_bind, emits_lift, outputs_bind. cbn [app writes omap list_omap].
    eapply outputs_weaken; [by apply sector_sends|]. intros r o1 [Hp Hok].
    destruct r as [[]|e|]; [|split; [by eapply Hpre|done]..]. rewrite (Hok eq_refl).
    assert (Hstop : o ++ sector_wire k `prefix_of` concat (sector_wire <$> seq 0 nsectors)) by by eapply Hpre.
    apply outputs_silent_bind.
    { unfold write_flash_wait. silence. }
    1-2: rewrite app_nil_r; done.
    intros [?|?|b]; apply outputs_ret; rewrite app_nil_r; [|..|done].
    all: rewrite length_app; cbn [length]; rewrite Nat.add_1_r, seq_S, fmap_app, concat_app; cbn;
      rewrite app_nil_r, Ho; split; [lia|done].
  - intros s o [_ ->]. rewrite length_fmap, length_seq. done.
Qed.

Lemma write_flash_sends :
  outputs (T := T) (write_flash_stream fuel addr data ss) (fun r o => o `prefix_of` flash_wire).
Proof.
  unfold write_flash_stream. cbn zeta.
  apply outputs_bind, emits_lift. destruct (pack_I3 addr (len data) (crc32_of data)) as [-> | ->]; [|apply prefix_nil].
  apply outputs_bind.
  eapply emits_weaken; [apply emits_send_packet|].
  { by unfold is_byte, CMD_FLASH_STREAM. }
  { apply Forall_app; split; [repeat apply Forall_app_2; by apply le_bytes_is_bytes|apply bitmap_bytes]. }
  intros r l Hw. rewrite Hw. unfold flash_wire. cbn [app].
  destruct r as [[]|e|]; [|by eexists..].
  apply outputs_silent_bind; [silence|by eexists..|intros p].
  apply outputs_silent_bind; [silence|by eexists..|intros ok].
  destruct ok; cbn [negb]; [|apply outputs_ret; by eexists].
  apply outputs_bind. eapply outputs_weaken; [apply write_flash_sectors_send|].
  intros r o [Hp Hok]. cbn. destruct r as [c|e|]; [|by apply prefix_cons..].
  assert (silent (T := T) (match c with
    | Rtn b => ret b
    | _ => let* c0 := while fuel (write_flash_final fuel) tt in match c0 with Rtn b => ret b | _ => ret false end
    end)) by (unfold write_flash_final; silence).
  apply outputs_silent; [done|]. intros r. rewrite app_nil_r. by apply prefix_cons.
Qed.

End FlashStream.

(** ** Properties *)

Section Properties.

(** [read_memory] against an agent that answers with its DATA chunks [ds]
    numbered from 0 modulo 2^16 and a final ACK, whatever noise and READY
    packets arrive in between and however long the answer: it returns exactly
    the concatenation of the chunks, after sending one READ packet. *)
Theorem read_memory_delivers fuel addr ds fast (w : world MockTransport agent) tail :
  Forall (fun d => d <> []) ds -> enough fuel 60000000 w -> (length ds < fuel)%nat ->
  at_speed fast (len (concat ds)) (obj w) -> fits 4 addr = true -> fits 4 (len (concat ds)) = true ->
  inbox (stream w) (imap data_packet ds ++ (RSP_ACK, [ACK_OK]) :: tail) ->
  exists w', read_memory fuel addr (len (concat ds)) fast w = (Ok (concat ds), w') /\
    tx_log (tr w') = tx_log (tr w) ++
      [wire (CMD_READ, le_bytes 4 addr ++ le_bytes 4 (len (concat ds)))] /\
    inbox (stream w') tail.
Proof.
  intros Hne (Hc & Ht & Hf) Hfd Hsp Ha Hs Hin.
  destruct (read_memory_start fuel addr (len (concat ds)) fast w) as (w1 & Hst & Hc1 & Htx & ->); try done.
  destruct (read_memory_loop_ok fuel ds 0 fuel tail w1) as (w2 & Hw & (_ & _ & Htx2 & _) & Hin2); try done.
  - unfold enough. by rewrite Hst.
  - by rewrite Hst.
  - lia.
  - lia.
  - exists w2. unfold bind.
    change (concat (take 0 ds), Z.of_nat 0 mod 65536) with (@nil Z, 0) in Hw. rewrite Hw. by rewrite Htx2.
Qed.

(** C4. [read_memory] never returns wrong data: whatever a line makes of the
    answer by losing, repeating or reordering its packets (up to 65536 chunks),
    the call ends, and if it returns, it returns exactly the memory contents. *)
Theorem read_memory_integrity fuel addr ds fast (w : world MockTransport agent) ps :
  Forall (fun d => d <> []) ds -> len ds <= 65536 -> Forall (from_answer ds) ps ->
  inbox (stream w) ps -> enough fuel 60000000 w -> (length ps < fuel)%nat ->
  at_speed fast (len (concat ds)) (obj w) -> fits 4 addr = true -> fits 4 (len (concat ds)) = true ->
  match read_memory fuel addr (len (concat ds)) fast w with
  | (Ok d, _) => d = concat ds
  | (Raise _, _) => True
  | (Diverge, _) => False
  end.
Proof.
  intros Hne Hk Hps Hin (Hc & Ht & Hf) Hfd Hsp Ha Hs.
  destruct (read_memory_start fuel addr (len (concat ds)) fast w) as (w1 & Hst & Hc1 & _ & ->); try done.
  assert (He1 : enough fuel 60000000 w1) by (unfold enough; by rewrite Hst).
  assert (Hin1 : inbox (stream w1) ps) by by rewrite Hst.
  assert (Hinv : read_inv ds ([], 0)) by (left; exists 0%nat; split_and!; [lia|done..]).
  pose proof (read_memory_loop fuel ds fuel ps ([], 0) w1 Hne Hk Hps He1 Hin1 Hfd Hinv) as Hl. unfold bind.
  destruct (while _ _ _ _) as [[c|e|] w2]; [|done..]. by rewrite Hl.
Qed.

(** The sector bitmap of [write_flash], for any image and sector size: it
    has exactly one bit per sector rounded up to bytes, reading any sector's
    bit never fails and tells whether the sector differs from all 0xFF, and an
    erased flash with only the marked sectors programmed holds the image. *)
Theorem sector_bitmap_spec data ss :
  0 < ss ->
  (0 < len data -> length (sector_bitmap data ss) = Z.to_nat ((num_sectors_of (len data) ss + 7) / 8)) /\
  (forall s, (s < nsectors data ss)%nat ->
     get_bit (sector_bitmap data ss) (Z.of_nat s) = Ok (sector_used data ss (Z.of_nat s))) /\
  concat ((fun s => if sector_used data ss (Z.of_nat s) then sector_data data ss (Z.of_nat s)
                    else brep (len (sector_data data ss (Z.of_nat s))) 0xFF) <$> seq 0 (nsectors data ss)) = data.
Proof.
  intros Hss. split; [|split; [intros; by apply bitmap_used|]].
  - intros Hl. assert (Hn : (0 < nsectors data ss)%nat) by (apply (nsectors_bound data ss Hss 0); cbn; lia).
    destruct (bitmap_fold data ss (nsectors data ss) (nsectors data ss) 0) as [Hlen _]; [lia..|].
    unfold sector_bitmap, range. fold (nsectors data ss).
    replace (num_sectors_of (len data) ss) with (Z.of_nat (nsectors data ss)) by (unfold nsectors in *; lia).
    exact Hlen.
  - etransitivity; [|apply (pieces_concat ss data Hss)]. f_equal. unfold pieces, range_step.
    rewrite <- list_fmap_compose. apply list_fmap_ext. intros i s Hs. cbn.
    replace (slice data (Z.of_nat s * ss) (Z.of_nat s * ss + ss)) with (sector_data data ss (Z.of_nat s))
      by (unfold sector_data; f_equal; lia).
    destruct (sector_used data ss (Z.of_nat s)) eqn:E; [done|]. symmetry. apply sector_unused; [lia|done..].
Qed.

End Properties.

(** Past 32 MiB the packet number no longer fits its 16 bits: streaming a
    sector there raises [struct.error], after the sectors before it have
    already been erased and programmed. *)
Theorem write_flash_seq_overflow {T} `{Transport T} fuel data ss bitmap s off (w : world T agent) :
  get_bit bitmap s = Ok true -> 65536 * WRITE_CHUNK_SIZE <= off < len data -> 0 < ss ->
  write_flash_sector fuel data ss bitmap s off w = (Raise StructError, w).
Proof.
  intros Hb Ho Hss. unfold write_flash_sector, bind, lift. rewrite Hb.
  unfold send_data_stream, bind. cbn [while]. unfold bind at 1, send_data_body at 1.
  rewrite len_slice by (unfold WRITE_CHUNK_SIZE in Ho; lia).
  replace (0 <? _) with true by (symmetry; apply Z.ltb_lt; lia). cbn [negb].
  unfold bind, lift, pack_le. replace (fits 2 (off / WRITE_CHUNK_SIZE)) with false; [done|].
  symmetry. apply not_true_is_false. rewrite fits_spec. change (2 ^ (8 * 2)) with 65536.
  assert (65536 <= off / WRITE_CHUNK_SIZE) by (apply Z.div_le_lower_bound; unfold WRITE_CHUNK_SIZE in *; lia).
  lia.
Qed.

(** ** Witnesses *)

Definition w_mock (ps : list (Z * bytes)) : world MockTransport agent :=
  World (Mock (concat (wire <$> ps)) [] false true 0) FlashAgentClient_init [].

Definition w_fuel : nat := Z.to_nat 70000.

Ltac packets :=
  apply inbox_wire; repeat constructor; cbn; vm_compute; (reflexivity || discriminate || lia).

Theorem read_memory_delivers_witness :
  let ds := [[1; 2; 3]; [4]] in
  let w := w_mock [data_packet 0 [1; 2; 3]; data_packet 1 [4]; (RSP_ACK, [ACK_OK])] in
  exists w', read_memory w_fuel 0x41000000 (len (concat ds)) true w = (Ok [1; 2; 3; 4], w') /\
    tx_log (tr w') = tx_log (tr w) ++
      [wire (CMD_READ, le_bytes 4 0x41000000 ++ le_bytes 4 (len (concat ds)))] /\
    inbox (stream w') [].
Proof.
  intros ds w. refine (read_memory_delivers w_fuel 0x41000000 ds true w [] _ _ _ _ _ _ _).
  - repeat constructor; discriminate.
  - split; [reflexivity|]. split; [lia|]. vm_compute. discriminate.
  - unfold w_fuel, ds. cbn [length]. lia.
  - left. reflexivity.
  - reflexivity.
  - reflexivity.
  - packets.
Defined.

Theorem read_memory_integrity_witness :
  let ds := [[1; 2; 3]; [4]] in
  let w := w_mock [data_packet 0 [1; 2; 3]; data_packet 0 [1; 2; 3]; (RSP_ACK, [ACK_OK])] in
  match read_memory w_fuel 0x41000000 (len (concat ds)) true w with
  | (Ok d, _) => d = concat ds
  | (Raise _, _) => True
  | (Diverge, _) => False
  end.
Proof.
  intros ds w. refine (read_memory_integrity w_fuel 0x41000000 ds true w
    [data_packet 0 [1; 2; 3]; data_packet 0 [1; 2; 3]; (RSP_ACK, [ACK_OK])] _ _ _ _ _ _ _ _ _).
  - repeat constructor; discriminate.
  - vm_compute. discriminate.
  - repeat apply Forall_cons_2; [right; exists 0%nat, [1; 2; 3]; split; reflexivity.. | left; reflexivity | constructor].
  - packets.
  - split; [reflexivity|]. split; [lia|]. vm_compute. discriminate.
  - unfold w_fuel. cbn [length]. lia.
  - left. reflexivity.
  - reflexivity.
  - reflexivity.
Defined.

Theorem sector_bitmap_spec_witness :
  0 < 4 /\ get_bit (sector_bitmap [1; 2; 3; 4; 255; 255; 255; 255; 9] 4) 1 = Ok false.
Proof.
  split; [lia|].
  destruct (sector_bitmap_spec [1; 2; 3; 4; 255; 255; 255; 255; 9] 4) as (_ & H & _); [lia|].
  refine (H 1%nat _). vm_compute. lia.
Defined.
