(* ===== verification/Profiles.v ===== *)
(** * SoC profiles

  Models [src/src/defib/profiles/schema.py] (the fields of [SoCProfile] the
  boot protocols use and its derived properties) and [profiles/loader.py]
  (alias chains, variants).  The profiles directory is a finite map from file
  names to file texts; turning the text of a profile into a validated
  [SoCProfile] is the work of [json] and [pydantic] and is a parameter. *)

From Stdlib Require Import Ascii.
From Stdlib Require String.
From stdpp Require Import sorting.
From S2P Require Import Prelude.

(** ** Strings *)

Definition lower_ascii (c : ascii) : ascii :=
  let n := N_of_ascii c in
  if ((65 <=? n) && (n <=? 90))%N then ascii_of_N (n + 32) else c.

Fixpoint str_map (f : ascii -> ascii) (s : string) : string :=
  match s with
  | EmptyString => EmptyString
  | String c s' => String (f c) (str_map f s')
  end.

(** [s.lower()] on ASCII *)
Definition lower (s : string) : string := str_map lower_ascii s.

(** [s.split(sep, 1)] when [sep] occurs in [s]. *)
Fixpoint split_once (sep : ascii) (s : string) : option (string * string) :=
  match s with
  | EmptyString => None
  | String c s' =>
      if Ascii.eqb c sep then Some (EmptyString, s')
      else match split_once sep s' with
           | Some (a, b) => Some (String c a, b)
           | None => None
           end
  end.

(** Python's ASCII whitespace, for [split()] and [strip()]. *)
Definition is_space (c : ascii) : bool :=
  let n := N_of_ascii c in
  ((n =? 32) || ((9 <=? n) && (n <=? 13)) || ((28 <=? n) && (n <=? 31)))%N.

(** [s.split()]: [cur] is the token being read, reversed. *)
Fixpoint split_ws_go (s : list ascii) (cur : list ascii) : list (list ascii) :=
  match s with
  | [] => match cur with [] => [] | _ => [rev cur] end
  | c :: s' =>
      if is_space c
      then match cur with [] => split_ws_go s' [] | _ => rev cur :: split_ws_go s' [] end
      else split_ws_go s' (c :: cur)
  end.
Definition tokens_of (s : string) : list string :=
  String.string_of_list_ascii <$> split_ws_go (String.list_ascii_of_string s) [].

(** [tok[:-5]] when [tok.endswith(".json")]. *)
Definition strip_json (tok : string) : option string :=
  let l := String.list_ascii_of_string tok in
  if bool_decide (String.string_of_list_ascii (last_n 5 l) = ".json"%string)
  then Some (String.string_of_list_ascii (but_last 5 l)) else None.

(** ** int(s, 16) *)

Definition hex_digit (c : ascii) : option Z :=
  let n := Z.of_N (N_of_ascii c) in
  if (48 <=? n) && (n <=? 57) then Some (n - 48)
  else if (97 <=? n) && (n <=? 102) then Some (n - 87)
  else if (65 <=? n) && (n <=? 70) then Some (n - 55)
  else None.

(** Digits with single underscores between them; [after_digit] says whether
    an underscore or the end may come next. *)
Fixpoint hex_digits (l : list ascii) (after_digit : bool) (acc : Z) : option Z :=
  match l with
  | [] => if after_digit then Some acc else None
  | c :: l' =>
      if Ascii.eqb c "_" then (if after_digit then hex_digits l' false acc else None)
      else match hex_digit c with
           | Some d => hex_digits l' true (16 * acc + d)
           | None => None
           end
  end.

Definition hex_unsigned (l : list ascii) : option Z :=
  match l with
  | "0" :: ("x" | "X") :: ("_" :: ((_ :: _) as l')) => hex_digits l' false 0
  | "0" :: ("x" | "X") :: l' => hex_digits l' false 0
  | _ => hex_digits l false 0
  end%char.

Fixpoint drop_spaces (l : list ascii) : list ascii :=
  match l with
  | c :: l' => if is_space c then drop_spaces l' else l
  | [] => []
  end.

Definition int16 (s : string) : res Z :=
  let l := rev (drop_spaces (rev (drop_spaces (String.list_ascii_of_string s)))) in
  of_opt ValueError
    match l with
    | "+"%char :: l' => hex_unsigned l'
    | "-"%char :: l' => Z.opp <$> hex_unsigned l'
    | _ => hex_unsigned l
    end.

(** ** SoCProfile *)

Inductive recovery_kind := Uart | Usb.
#[export] Instance recovery_kind_eq_dec : EqDecision recovery_kind.
Proof. solve_decision. Defined.

Record FlashPartition := mkPart { lba : Z; sectors : Z }.
Definition end_lba (p : FlashPartition) : Z := lba p + sectors p.
Definition size_bytes (p : FlashPartition) : Z := sectors p * 512.

Record SoCProfile := mkProfile {
  pname : string;
  recovery : recovery_kind;
  prestep0 : option (list Z);
  prestep1 : option (list Z);
  ddrstep0 : option (list Z);
  addresses : option (list string);
  file_lengths : option (list string);
  step_lengths : option (list string);
  sram_limit : option string;
  spl_blob : option string;
  usb_recovery_ids : list Z;
  partitions : gmap string FlashPartition;
  spl_data : option bytes
}.

(** [_check_recovery_fields] *)
Definition check_recovery_fields (p : SoCProfile) : res SoCProfile :=
  if bool_decide (recovery p = Uart) then
    match ddrstep0 p, addresses p, file_lengths p, step_lengths p with
    | Some _, Some _, Some _, Some _ => Ok p
    | _, _, _, _ => Raise ValueError
    end
  else Ok p.

Definition require_uart (p : SoCProfile) : res unit :=
  guard (bool_decide (recovery p = Uart)) ValueError.

(** [bytes(list_of_ints)]: ValueError outside 0..255. *)
Definition bytes_of (l : list Z) : res bytes :=
  if forallb (fun b => bool_decide (is_byte b)) l then Ok l else Raise ValueError.

Definition address_at (p : SoCProfile) (i : Z) : res Z :=
  let! _ := require_uart p in
  let! a := of_opt AssertionError (addresses p) in
  let! s := index a i in
  int16 s.

Definition ddr_step_address (p : SoCProfile) : res Z := address_at p 0.
Definition spl_address (p : SoCProfile) : res Z := address_at p 1.
Definition uboot_address (p : SoCProfile) : res Z := address_at p 2.

Definition spl_max_size (p : SoCProfile) : res Z :=
  let! _ := require_uart p in
  let! a := of_opt AssertionError (file_lengths p) in
  let! s := index a 1 in
  int16 s.

Definition spl_sram_limit (p : SoCProfile) : res (option Z) :=
  match sram_limit p with
  | None => Ok None
  | Some s => let! z := int16 s in Ok (Some z)
  end.

Definition ddr_step_data (p : SoCProfile) : res bytes :=
  let! _ := require_uart p in
  let! d := of_opt AssertionError (ddrstep0 p) in
  bytes_of d.

Definition opt_bytes (o : option (list Z)) : res (option bytes) :=
  match o with
  | None => Ok None
  | Some d => let! b := bytes_of d in Ok (Some b)
  end.
Definition prestep_data (p : SoCProfile) : res (option bytes) := opt_bytes (prestep0 p).
Definition prestep1_data (p : SoCProfile) : res (option bytes) := opt_bytes (prestep1 p).

(** ** The loader *)

Definition MAX_ALIAS_DEPTH : nat := 23.

Definition parse_chip_variant (chip : string) : string * option string :=
  match split_once ":" chip with
  | Some (base, variant) =>
      (lower base, if bool_decide (lower variant = ""%string) then None else Some (lower variant))
  | None => (lower chip, None)
  end.

(** [recovery_mode] after [load_profile]. *)
Definition recovery_of (profile : res SoCProfile) : res recovery_kind :=
  match profile with
  | Ok p => Ok (recovery p)
  | Raise FileNotFoundError => Ok Uart
  | Raise e => Raise e
  | Diverge => Diverge
  end.

Section Loader.

(** The parsed JSON object of a profile file, its ["variants"] table and the
    operations of [dict] and [pydantic] on it. *)
Context {J : Type}.
Variable loads : string -> res J.
Variable variants_of : J -> gmap string J.
Variable update : J -> J -> J.
Variable model_validate : J -> res SoCProfile.
(** Texts of the [*.json] files, and the contents of the other files. *)
Variable dir : gmap string string.
Variable blobs : gmap string bytes.

(** A file that holds one token ending in [.json] is an alias. *)
Definition alias_target (content : string) : option string :=
  match tokens_of content with
  | [tok] => strip_json tok
  | _ => None
  end.

Definition profile_file (current : string) : option string := dir !! (current ++ ".json")%string.

(** The part of the loop after the alias test. *)
Definition load_body (content : string) (variant : option string) : res SoCProfile :=
  let! data := loads content in
  let! data := match variant with
    | None => Ok data
    | Some v =>
        match variants_of data !! v with
        | Some o => Ok (update data o)
        | None => Raise ValueError
        end
    end in
  let! profile := model_validate data in
  match spl_blob profile with
  | None => Ok profile
  | Some b =>
      if bool_decide (b = ""%string) then Ok profile else
      match blobs !! b with
      | None => Raise FileNotFoundError
      | Some d => Ok (mkProfile (pname profile) (recovery profile) (prestep0 profile)
          (prestep1 profile) (ddrstep0 profile) (addresses profile) (file_lengths profile)
          (step_lengths profile) (sram_limit profile) (spl_blob profile)
          (usb_recovery_ids profile) (partitions profile) (Some d))
      end
  end.

Fixpoint load_loop (depth : nat) (current : string) (variant : option string) : res SoCProfile :=
  match depth with
  | O => Raise ValueError
  | S d =>
      match profile_file current with
      | None => Raise FileNotFoundError
      | Some content =>
          match alias_target content with
          | Some next => load_loop d next variant
          | None => load_body content variant
          end
      end
  end.

Definition load_profile (chip_name : string) : res SoCProfile :=
  let '(base_chip, variant) := parse_chip_variant chip_name in
  load_loop MAX_ALIAS_DEPTH base_chip variant.

Definition recovery_mode (chip_name : string) : res recovery_kind := recovery_of (load_profile chip_name).

(** [_get] of the variants; the sorting of the keys is left out: a set. *)
Fixpoint variants_loop (depth : nat) (current : string) : res (gset string) :=
  match depth with
  | O => Ok ∅
  | S d =>
      match profile_file current with
      | None => Ok ∅
      | Some content =>
          match alias_target content with
          | Some next => variants_loop d next
          | None =>
              match loads content with
              | Ok data => Ok (dom (variants_of data))
              | Raise _ => Ok ∅
              | Diverge => Diverge
              end
          end
      end
  end.

(** [path.stem] of a file that the pattern [*.json] matches. *)
Definition json_stem (name : string) : option string :=
  match strip_json name with
  | Some "" => Some ".json"
  | r => r
  end%string.

(** The order of strings, and [sorted]. *)
Definition str_le (a b : string) : Prop := String.leb a b = true.
#[global] Instance str_le_dec : RelDecision str_le.
Proof. intros a b. unfold str_le. apply _. Defined.
Definition sorted (l : list string) : list string := merge_sort str_le l.

Definition list_chips : list string := sorted (omap (fun f => json_stem (fst f)) (map_to_list dir)).

Definition list_variants (chip_name : string) : res (gset string) :=
  variants_loop MAX_ALIAS_DEPTH (fst (parse_chip_variant chip_name)).

(** ** What the chains mean *)

(** [chain k a b]: following [k] aliases from [a] ends at [b], which is not
    an alias. *)
Inductive chain : nat -> string -> string -> Prop :=
  | chain_end a content :
      profile_file a = Some content -> alias_target content = None -> chain 0 a a
  | chain_step k a content next b :
      profile_file a = Some content -> alias_target content = Some next ->
      chain k next b -> chain (S k) a b.

Lemma load_loop_chain depth k a b v :
  chain k a b -> (k < depth)%nat ->
  exists content, profile_file b = Some content /\ load_loop depth a v = load_body content v.
Proof.
  intros Hc. revert depth. induction Hc as [a content Hf Ha|k a content next b Hf Ha Hc IH];
    intros [|depth] Hd; try lia; cbn [load_loop]; rewrite Hf, Ha.
  - eauto.
  - apply IH. lia.
Qed.

Lemma load_loop_deep depth k a b v :
  chain k a b -> (depth <= k)%nat -> load_loop depth a v = Raise ValueError.
Proof.
  intros Hc. revert depth. induction Hc as [a content Hf Ha|k a content next b Hf Ha Hc IH];
    intros [|depth] Hd; try lia; cbn [load_loop]; try done. rewrite Hf, Ha. apply IH. lia.
Qed.

(** An alias loop. *)
Lemma load_loop_cycle (P : string -> Prop) depth a v :
  (forall a, P a -> exists content next, profile_file a = Some content /\
     alias_target content = Some next /\ P next) ->
  P a -> load_loop depth a v = Raise ValueError.
Proof.
  intros HP. revert a. induction depth as [|d IH]; intros a Ha; [done|].
  destruct (HP a Ha) as (content & next & Hf & Hal & Hn). cbn. rewrite Hf, Hal. auto.
Qed.

(** Loading a profile follows alias files: a chain of fewer than 23 hops
    loads, validates and overrides the file it ends at, exactly as if the
    final name had been asked for; a longer chain, and any loop of aliases,
    raises ValueError; a name without a file raises FileNotFoundError. *)
Theorem load_profile_alias chip :
  let '(base, variant) := parse_chip_variant chip in
  (forall k b, chain k base b -> (k < 23)%nat ->
     exists content, profile_file b = Some content /\ load_profile chip = load_body content variant) /\
  (forall k b, chain k base b -> (23 <= k)%nat -> load_profile chip = Raise ValueError) /\
  (forall P : string -> Prop, P base ->
     (forall a, P a -> exists content next, profile_file a = Some content /\
        alias_target content = Some next /\ P next) -> load_profile chip = Raise ValueError) /\
  (profile_file base = None -> load_profile chip = Raise FileNotFoundError).
Proof.
  unfold load_profile. destruct (parse_chip_variant chip) as [base variant]. split_and!.
  - intros. by eapply load_loop_chain.
  - intros. by eapply load_loop_deep.
  - intros P Hb HP. by apply (load_loop_cycle P).
  - intros Hn. cbn [MAX_ALIAS_DEPTH load_loop]. by rewrite Hn.
Qed.

End Loader.

Example int16_examples :
  int16 "0x04013000" = Ok 0x04013000 /\ int16 " +1F " = Ok 31 /\ int16 "0x_1f" = Ok 31 /\
  int16 "1__2" = Raise ValueError /\ int16 "" = Raise ValueError /\ int16 "-0X10" = Ok (-16).
Proof. by vm_compute. Qed.

Example alias_examples :
  alias_target (String "010" "gk7205v200.json") = Some "gk7205v200"%string /\
  alias_target "{ }" = None /\ parse_chip_variant "Hi3516AV300:eMMC" = ("hi3516av300", Some "emmc")%string.
Proof. by vm_compute. Qed.
