(* ===== verification/Events.v ===== *)
(** * Events and results of recovery sessions

  Models the data types of [src/src/defib/recovery/events.py].  The
  [elapsed_ms] and [message] fields only feed the display and are left out. *)

From S2P Require Import Prelude.

Inductive Stage :=
  | POWER_CYCLE | HANDSHAKE | DDR_INIT | SPL | UBOOT | GSL | DDR_TABLE | DDR_TRAINING
  | HEAD_AREA | AUX_AREA | BOOT_IMAGE | BOARD_ID | USBPLUG | FLASH_WRITE | FLASH_READ | COMPLETE.

#[export] Instance Stage_eq_dec : EqDecision Stage.
Proof. solve_decision. Defined.

Record HandshakeResult := mkHandshake {
  hs_success : bool; hs_chip_id : option Z; hs_board_id : option Z; hs_cpu_id : option Z
}.

Definition handshake_ok : HandshakeResult := mkHandshake true None None None.

Record RecoveryResult := mkResult {
  r_success : bool; stages_completed : list Stage; r_error : option string; retryable : bool
}.

Definition failed (stages : list Stage) (e : string) : RecoveryResult :=
  mkResult false stages (Some e) true.
Definition succeeded (stages : list Stage) : RecoveryResult := mkResult true stages None true.
