(* ===== verification/HisiStandard.v ===== *)
(** * The standard HiSilicon boot protocol

  Models [src/src/defib/protocol/hisilicon_standard.py]: the boot mode
  handshake, the retried and acknowledged frames, the DDR step, SPL and U-Boot
  stages and their composition [send_firmware].  Log messages and progress
  callbacks are left out.  Loops without a static bound (they end by the clock)
  take fuel. *)

From S2P Require Import Prelude Crc Frames Transport Profiles Events.

Definition BOOTMODE_MARKER : bytes := [0x20].
Definition BOOTMODE_COUNT : Z := 5.
Definition BOOTMODE_ACK : bytes := [0xAA].
Definition FRAME_SEND_RETRIES_SHORT : Z := 16.
Definition FRAME_SEND_RETRIES_LONG : Z := 32.
Definition BURST : bytes := brep 64 0xAA.

(** ** Pure helpers *)

Definition VALID_LZMA_DICT : list Z := (fun n => Z.shiftl 1 (Z.of_nat n)) <$> seq 16 9.

(** The markers of a compressed payload at position [i]; [firmware[i + 1]] and
    [firmware[i + 2]] raise IndexError past the end. *)
Definition spl_marker (firmware : bytes) (i : Z) : res bool :=
  let! b := index firmware i in
  if b =? 0x5D then
    let ds := le_int (slice firmware (i + 1) (i + 5)) in
    Ok (bool_decide (ds ∈ VALID_LZMA_DICT))
  else if b =? 0x1F then
    let! b1 := index firmware (i + 1) in
    if b1 =? 0x8B then let! b2 := index firmware (i + 2) in Ok (b2 =? 0x08) else Ok false
  else Ok false.

(** [i & ~0x3FF] *)
Definition round_1k (i : Z) : Z := Z.land i (Z.lnot 0x3FF).

Definition cap (sram_limit : option Z) (detected : Z) : Z :=
  match sram_limit with
  | Some limit => if limit <? detected then limit else detected
  | None => detected
  end.

Fixpoint detect_loop (firmware : bytes) (profile_max : Z) (sram_limit : option Z) (idx : list Z) : res Z :=
  match idx with
  | [] => Ok profile_max
  | i :: idx' =>
      let! hit := spl_marker firmware i in
      if hit : bool then Ok (cap sram_limit (round_1k i))
      else detect_loop firmware profile_max sram_limit idx'
  end.

(** [range(0x4000, min(len(firmware), 0x10000))] *)
Definition spl_scan (firmware : bytes) : list Z :=
  (fun n => 0x4000 + Z.of_nat n) <$> seq 0 (Z.to_nat (Z.min (len firmware) 0x10000 - 0x4000)).

Definition detect_spl_size (firmware : bytes) (profile_max : Z) (sram_limit : option Z) : res Z :=
  detect_loop firmware profile_max sram_limit (spl_scan firmware).

(** [for j in range(a, b): out[j] = 0] *)
Definition zero_range (out : bytes) (a b : Z) : bytes :=
  take (Z.to_nat a) out ++ brep (b - a) 0 ++ drop (Z.to_nat b) out.

(** One step of the scan: [i], the byte, and the state [out], [run_start]. *)
Definition ff_step (threshold : Z) (s : bytes * Z) (ib : Z * Z) : bytes * Z :=
  let '(out, run_start) := s in
  let '(i, b) := ib in
  if b =? 0xFF then (out, if run_start <? 0 then i else run_start)
  else (if (0 <=? run_start) && (threshold <=? i - run_start) then zero_range out run_start i else out, -1).

(** [enumerate(out)] reads the buffer while it is zeroed; positions are only
    zeroed after they have been read, so reading the original is the same. *)
Definition ff_enum (l : bytes) : list (Z * Z) := imap (fun i b => (Z.of_nat i, b)) l.

(** [firmware.count(b"\xff" * threshold) != 0] *)
Fixpoint has_run (threshold : nat) (l : bytes) : bool :=
  bool_decide (take threshold l = replicate threshold 0xFF) && (threshold <=? length l)%nat ||
  match l with [] => false | _ :: l' => has_run threshold l' end.

Definition zero_long_ff_runs_go (firmware : bytes) (threshold : Z) : bytes :=
  let '(out, run_start) := foldl (ff_step threshold) (firmware, -1) (ff_enum firmware) in
  if (0 <=? run_start) && (threshold <=? len out - run_start) then zero_range out run_start (len out) else out.

Definition zero_long_ff_runs (firmware : bytes) (threshold : Z) : bytes :=
  if negb (has_run (Z.to_nat threshold) firmware) then firmware
  else zero_long_ff_runs_go firmware threshold.

(** ** The protocol *)

(** The fields of [HiSiliconStandard]. *)
Record hisi := Hisi { h_profile : option SoCProfile; h_continuous_ack : bool }.

Definition uses_frame_blast_handshake (h : hisi) : bool :=
  match h_profile h with
  | Some p => match prestep0 p with Some _ => true | None => false end
  | None => false
  end.

Section Protocol.
Context {T Ob : Type} `{Transport T}.
Variable fuel : nat.

(** State of the handshake loop: [flooding], [ever_saw_data], [counter]. *)
Record hs_state := HS { flooding : bool; ever_saw_data : bool; counter : Z }.

Definition handshake_byte (s : hs_state) (byte : bytes) : M T Ob (ctl hs_state HandshakeResult) :=
  if beq byte [0] then ret (Next s) else
  let counter' := if beq byte BOOTMODE_MARKER then counter s + 1 else 0 in
  (* [byte[0]] in the log message of the other branch *)
  let* _ := if beq byte BOOTMODE_MARKER then ret 0 else lift (index byte 0) in
  if BOOTMODE_COUNT <=? counter' then
    let* _ := if flooding s then ret tt else write BOOTMODE_ACK in
    let* _ := flush_input in
    ret (Rtn handshake_ok)
  else ret (Next (HS (flooding s) true counter')).

Definition handshake_body (s : hs_state) : M T Ob (ctl hs_state HandshakeResult) :=
  let* _ := if flooding s then write BURST else ret tt in
  let* byte := try_except
    (let* b := read 1 (Some (if flooding s then 50000 else 1000000)) in ret (Some b))
    is_TransportTimeout (fun _ => ret None) in
  match byte with
  | None =>
      ret (Next (HS (flooding s || ever_saw_data s) (ever_saw_data s) (counter s)))
  | Some byte => handshake_byte s byte
  end.

Definition handshake (continuous_ack : bool) : M T Ob HandshakeResult :=
  let* c := while fuel handshake_body (HS continuous_ack false 0) in
  match c with
  | Rtn r => ret r
  | _ => diverge
  end.

(** Read until the ACK byte or the deadline; [Rtn tt] is [acked]. *)
Definition ack_body (deadline : Z) (_ : unit) : M T Ob (ctl unit unit) :=
  let* now := monotonic in
  let remaining := deadline - now in
  if remaining <=? 0 then ret (Brk tt) else
  let* b := try_except (let* b := read 1 (Some remaining) in ret (Some b))
              is_TransportTimeout (fun _ => ret None) in
  match b with
  | None => ret (Brk tt)
  | Some b => if beq b ACK_BYTE then ret (Rtn tt) else ret (Next tt)
  end.

Definition attempt_body (frame_data : bytes) (timeout : Z) (_ : Z) (_ : unit) : M T Ob (ctl unit bool) :=
  try_except
    (let* _ := flush_input in
     let* _ := flush_output in
     let* _ := write frame_data in
     let* now := monotonic in
     let* c := while fuel (ack_body (now + timeout)) tt in
     match c with
     | Rtn _ => ret (Rtn true)
     | _ => ret (Next tt)
     end)
    is_Exception (fun _ => ret (Next tt)).

Definition send_frame_with_retry (frame_data : bytes) (retries timeout : Z) : M T Ob bool :=
  let* c := foreach (range retries) (attempt_body frame_data timeout) tt in
  match c with
  | Rtn b => ret b
  | _ => ret false
  end.

(** [_rehandshake]; state of the loop: [marker_count].  The last branch reads
    [data[0]] for its log message. *)
Definition rehandshake_byte (marker_count : Z) (data : bytes) : M T Ob (ctl Z bool) :=
  if beq data BOOTMODE_MARKER then
    let marker_count := marker_count + 1 in
    if BOOTMODE_COUNT <=? marker_count then
      let* _ := write BOOTMODE_ACK in ret (Rtn true)
    else ret (Next marker_count)
  else if beq data [0x0A] || beq data [0x0D] then ret (Next marker_count)
  else let* _ := lift (index data 0) in ret (Rtn true).

Definition rehandshake_body (deadline : Z) (marker_count : Z) : M T Ob (ctl Z bool) :=
  let* now := monotonic in
  if negb (now <? deadline) then ret (Brk marker_count) else
  try_except
    (let* data := read 1 (Some 200000) in rehandshake_byte marker_count data)
    is_TransportTimeout
    (fun _ =>
       (* a timeout raised by the write above sees the incremented count, but
          takes the same branch: at least one marker has been seen *)
       if 0 <? marker_count then let* _ := write BOOTMODE_ACK in ret (Rtn true)
       else ret (Rtn true)).

Definition rehandshake : M T Ob bool :=
  let* now := monotonic in
  let* c := while fuel (rehandshake_body (now + 5000000)) 0 in
  match c with
  | Rtn b => ret b
  | _ => ret false
  end.

Definition send_head (length address : Z) : M T Ob bool :=
  let* frame := lift (HeadFrame_encode {| hf_length := length; hf_address := address |}) in
  send_frame_with_retry frame FRAME_SEND_RETRIES_SHORT 150000.

Definition send_data (seq : Z) (payload : bytes) : M T Ob bool :=
  send_frame_with_retry (DataFrame_encode {| df_seq := seq; df_payload := payload |})
    FRAME_SEND_RETRIES_LONG 150000.

Definition send_tail (seq : Z) : M T Ob bool :=
  send_frame_with_retry (TailFrame_encode {| tf_seq := seq |}) FRAME_SEND_RETRIES_SHORT 150000.

Definition send_frame_for_start_body (blast : bytes) (deadline : Z) (_ : unit) : M T Ob (ctl unit bool) :=
  let* now := monotonic in
  if negb (now <? deadline) then ret (Brk tt) else
  let* _ := write blast in
  try_except
    (let* ack := read 1 (Some 50000) in
     if beq ack ACK_BYTE then let* _ := flush_input in ret (Rtn true) else ret (Next tt))
    is_TransportTimeout (fun _ => ret (Next tt)).

Definition send_frame_for_start (profile : SoCProfile) : M T Ob bool :=
  let* addr := lift (ddr_step_address profile) in
  let* head_frame := lift (HeadFrame_encode {| hf_length := 64; hf_address := addr |}) in
  let* now := monotonic in
  let* c := while fuel (send_frame_for_start_body (BOOTMODE_ACK ++ head_frame) (now + 30000000)) tt in
  match c with
  | Rtn b => ret b
  | _ => ret false
  end.

(** One of the small uploads of the DDR stage: HEAD, DATA and a TAIL whose
    missing ACK is not an error; the failing part, if any, is named. *)
Definition send_step (label : string) (length addr : Z) (data : bytes) : M T Ob (option string) :=
  let* ok := send_head length addr in
  if negb ok then ret (Some (label ++ " HEAD frame not ACKed")%string) else
  let* ok := send_data 1 data in
  if negb ok then ret (Some (label ++ " DATA frame not ACKed")%string) else
  let* _ := send_tail 2 in
  ret None.

Definition send_prestep0 (profile : SoCProfile) (addr : Z) (prestep : option bytes)
    : M T Ob (option string) :=
  match prestep with
  | None => ret None
  | Some p =>
      let* ok := send_frame_for_start profile in
      if negb ok then ret (Some "handshake (sendFrameForStart) timed out"%string) else
      send_step "PRESTEP0" 64 addr p
  end.

Definition send_ddr_step (profile : SoCProfile) : M T Ob (option string) :=
  let* addr := lift (ddr_step_address profile) in
  let* prestep := lift (prestep_data profile) in
  let* err := send_prestep0 profile addr prestep in
  match err with
  | Some e => ret (Some e)
  | None =>
      let* ddr_data := lift (ddr_step_data profile) in
      let* err := send_step "DDRSTEP0" 64 addr ddr_data in
      match err with
      | Some e => ret (Some e)
      | None =>
          let* prestep1 := lift (prestep1_data profile) in
          match prestep1 with
          | None => ret None
          | Some p1 => send_step "PRESTEP1" (len p1) addr p1
          end
      end
  end.

(** The DATA frames of an image, numbered from 1; [Rtn tt] when one of them
    was not acknowledged. *)
Definition send_chunk_body (ic : Z * bytes) (_ : unit) : M T Ob (ctl unit unit) :=
  let* ok := send_data (fst ic + 1) (snd ic) in
  if negb ok then ret (Rtn tt) else ret (Next tt).

Definition enum {A} (l : list A) : list (Z * A) := imap (fun i x => (Z.of_nat i, x)) l.

(** The size [_send_spl] announces and the bytes it sends, before the 0xFF
    runs are zeroed. *)
Definition spl_plan (firmware : bytes) (profile : SoCProfile) (spl_override : option bytes)
    : res (Z * bytes) :=
  let scan_buf := default firmware spl_override in
  let! max := spl_max_size profile in
  let! limit := spl_sram_limit profile in
  let! spl_size := detect_spl_size scan_buf max limit in
  Ok (match spl_override with
      | Some o =>
          let spl_size := if len o <? spl_size then len o else spl_size in
          (spl_size, ljust spl_size 0 (slice o 0 spl_size))
      | None => (spl_size, slice firmware 0 spl_size)
      end).

Definition send_spl (firmware : bytes) (profile : SoCProfile) (spl_override : option bytes) : M T Ob bool :=
  let* (spl_size, spl_data) := lift (spl_plan firmware profile spl_override) in
  let spl_data := zero_long_ff_runs spl_data 12 in
  let* addr := lift (spl_address profile) in
  let* ok := send_head spl_size addr in
  if negb ok then ret false else
  let chunks := chunk_data spl_data MAX_DATA_LEN in
  let* c := foreach (enum chunks) send_chunk_body tt in
  match c with
  | Rtn _ => ret false
  | _ =>
      let* ok := send_tail (len chunks + 1) in
      let* fatal := if ok : bool then ret false else
        let* prestep := lift (prestep_data profile) in
        ret (bool_decide (prestep = None)) in
      if fatal : bool then ret false else
      let* _ := sleep 300000 in
      ret true
  end.

(** The U-Boot image itself: HEAD, DATA and a TAIL whose missing ACK is not
    an error. *)
Definition send_image (firmware : bytes) (addr : Z) : M T Ob bool :=
  let total := len firmware in
  let* head := lift (HeadFrame_encode {| hf_length := total; hf_address := addr |}) in
  let* ok := send_frame_with_retry head 64 150000 in
  if negb ok then ret false else
  let chunks := chunk_data firmware MAX_DATA_LEN in
  let* c := foreach (enum chunks) send_chunk_body tt in
  match c with
  | Rtn _ => ret false
  | _ => let* _ := send_tail (len chunks + 1) in ret true
  end.

Definition send_uboot (firmware : bytes) (profile : SoCProfile) : M T Ob bool :=
  let firmware := zero_long_ff_runs firmware 12 in
  let* prestep := lift (prestep_data profile) in
  let* ok := match prestep with
    | Some _ => send_frame_for_start profile
    | None => let* _ := rehandshake in ret true
    end in
  if negb ok then ret false else
  let* addr := lift (uboot_address profile) in
  send_image firmware addr.

Definition send_firmware (profile : option SoCProfile) (firmware : bytes) (spl_override : option bytes)
    : M T Ob RecoveryResult :=
  match profile with
  | None => ret (failed [] "No profile loaded")
  | Some profile =>
      let* ddr_err := send_ddr_step profile in
      match ddr_err with
      | Some e => ret (failed [] ("DDR init failed: " ++ e))
      | None =>
          let* _ := rehandshake in
          let* ok := send_spl firmware profile spl_override in
          if negb ok then ret (failed [DDR_INIT] "Failed to send SPL") else
          let* ok := send_uboot firmware profile in
          if negb ok then ret (failed [DDR_INIT; SPL] "Failed to send U-Boot") else
          ret (succeeded [DDR_INIT; SPL; UBOOT; COMPLETE])
      end
  end.

End Protocol.

(** ** Runs of 0xFF *)

Section FFRuns.
Variable t : nat.
Hypothesis Ht : (0 < t)%nat.

(** The reference: [n] is the number of 0xFF bytes just passed. *)
Definition ff_flush (n : nat) : bytes := if (t <=? n)%nat then replicate n 0 else replicate n 0xFF.
Fixpoint ff_ref (n : nat) (l : bytes) : bytes :=
  match l with
  | [] => ff_flush n
  | b :: l' => if b =? 0xFF then ff_ref (S n) l' else ff_flush n ++ b :: ff_ref 0 l'
  end.

Lemma ff_flush_length n : length (ff_flush n) = n.
Proof. unfold ff_flush. case_match; apply length_replicate. Qed.

Lemma zero_range_mid (a m b : bytes) i j :
  i = len a -> j = len a + len m -> zero_range (a ++ m ++ b) i j = a ++ replicate (length m) 0 ++ b.
Proof.
  intros -> ->. unfold zero_range, brep, len. rewrite Nat2Z.id, take_app_length. f_equal.
  rewrite Z.add_simpl_l, Nat2Z.id. f_equal.
  replace (Z.to_nat (Z.of_nat (length a) + Z.of_nat (length m))) with (length a + length m)%nat by lia.
  rewrite <- drop_drop, drop_app_length. apply drop_app_length.
Qed.

(** The state of the scan after a prefix that ends in [n] bytes 0xFF. *)
Definition ff_start (k : Z) (n : nat) : Z := if (n =? 0)%nat then -1 else k - Z.of_nat n.

Lemma ff_fold (r : bytes) : forall (d' o' : bytes) n,
  length o' = length d' ->
  exists (o : bytes) m,
    foldl (ff_step (Z.of_nat t)) (o' ++ replicate n 0xFF ++ r, ff_start (len d' + Z.of_nat n) n)
      (imap (fun i b => (Z.of_nat (length d' + n + i), b)) r)
    = (o ++ replicate m 0xFF, ff_start (len d' + Z.of_nat n + len r) m) /\
    (len o + Z.of_nat m = len d' + Z.of_nat n + len r) /\
    o' ++ ff_ref n r = o ++ ff_flush m.
Proof.
  induction r as [|b r IH]; intros d' o' n Hlen.
  - exists o', n. cbn. rewrite app_nil_r, len_nil, Z.add_0_r. unfold len. split_and!; [done|lia|done].
  - cbn [imap foldl ff_step]. rewrite Nat.add_0_r.
    assert (Hidx : imap ((fun i b => (Z.of_nat (length d' + n + i), b)) ∘ S) r =
      imap (fun i b => (Z.of_nat (length d' + S n + i), b)) r).
    { apply imap_ext. intros i x _. cbn. f_equal. lia. }
    cbn [ff_ref]. destruct (b =? 0xFF) eqn:Eb; b2p.
    + subst b. rewrite Hidx. destruct (IH d' o' (S n) Hlen) as (o & m & Hf & Hl & Hr).
      replace (if ff_start (len d' + Z.of_nat n) n <? 0 then Z.of_nat (length d' + n) else ff_start (len d' + Z.of_nat n) n)
        with (ff_start (len d' + Z.of_nat (S n)) (S n)).
      2: { unfold ff_start, len. cbn [Nat.eqb]. destruct (n =? 0)%nat eqn:En.
           - apply Nat.eqb_eq in En. subst n. cbn. lia.
           - apply Nat.eqb_neq in En. case_match eqn:E; b2p; lia. }
      replace (o' ++ replicate n 255 ++ 255 :: r) with (o' ++ replicate (S n) 255 ++ r).
      2: { by rewrite replicate_S_end, <- (app_assoc (replicate n 255)). }
      exists o, m. rewrite Hf. split_and!; [f_equal; f_equal|..]; rewrite ?len_cons in *; try lia. done.
    + set (out := if _ : bool then _ else _).
      assert (Hout : out = (o' ++ ff_flush n ++ [b]) ++ replicate 0 255 ++ r).
      { unfold out, ff_flush, ff_start. cbn [replicate app]. rewrite <- !app_assoc. cbn [app].
        destruct (n =? 0)%nat eqn:En.
        - apply Nat.eqb_eq in En. subst n. cbn. destruct t; [lia|]. done.
        - apply Nat.eqb_neq in En. unfold len.
          replace (0 <=? Z.of_nat (length d') + Z.of_nat n - Z.of_nat n) with true by (symmetry; apply Z.leb_le; lia).
          cbn [andb]. replace (Z.of_nat t <=? _) with (t <=? n)%nat.
          2: { apply eq_bool_prop_intro. rewrite !Is_true_true, Nat.leb_le, Z.leb_le. lia. }
          destruct (t <=? n)%nat; [|done].
          rewrite zero_range_mid; [by rewrite length_replicate|unfold len; lia|unfold len; rewrite length_replicate; lia]. }
      rewrite Hout.
      destruct (IH (d' ++ replicate n 255 ++ [b]) (o' ++ ff_flush n ++ [b]) 0%nat) as (o & m & Hf & Hl & Hr).
      { rewrite !length_app, ff_flush_length, length_replicate. cbn. lia. }
      rewrite !len_app, len_replicate, len_cons, len_nil in Hf, Hl.
      exists o, m. replace (imap _ r) with (imap (fun i b0 => (Z.of_nat (length (d' ++ replicate n 255 ++ [b]) + 0 + i), b0)) r).
      2: { apply imap_ext. intros i x _. cbn. f_equal. rewrite !length_app, length_replicate. cbn. lia. }
      change (-1) with (ff_start (len d' + (Z.of_nat n + (1 + 0)) + Z.of_nat 0) 0). rewrite Hf.
      split_and!; [f_equal; f_equal; rewrite len_cons; lia|rewrite len_cons; lia|].
      rewrite <- Hr, <- !app_assoc. done.
Qed.

Lemma zero_go_ref l : zero_long_ff_runs_go l (Z.of_nat t) = ff_ref 0 l.
Proof.
  unfold zero_long_ff_runs_go, ff_enum.
  destruct (ff_fold l [] [] 0%nat eq_refl) as (o & m & Hf & Hl & Hr).
  cbn [app replicate length] in Hf, Hr. rewrite Hr.
  change (ff_start (len []  + Z.of_nat 0) 0) with (-1) in Hf.
  replace (imap _ l) with (imap (fun i b => (Z.of_nat (0 + 0 + i), b)) l) by (by apply imap_ext).
  rewrite Hf. unfold ff_start, ff_flush. rewrite len_app, len_replicate, (@len_nil Z).
  rewrite (@len_nil Z) in Hl.
  destruct (m =? 0)%nat eqn:Em.
  - apply Nat.eqb_eq in Em. subst m. cbn. destruct t; [lia|done].
  - apply Nat.eqb_neq in Em. pose proof (len_nonneg o).
    replace (0 <=? 0 + Z.of_nat 0 + len l - Z.of_nat m) with true by (symmetry; apply Z.leb_le; lia).
    cbn [andb]. replace (Z.of_nat t <=? _) with (t <=? m)%nat.
    2: { apply eq_bool_prop_intro. rewrite !Is_true_true, Nat.leb_le, Z.leb_le. lia. }
    destruct (t <=? m)%nat; [|done].
    pose proof (zero_range_mid o (replicate m 255) [] (0 + Z.of_nat 0 + len l - Z.of_nat m) (len o + Z.of_nat m)) as Hz.
    rewrite !app_nil_r, length_replicate, len_replicate in Hz. apply Hz; lia.
Qed.

Lemma ff_ref_length n l : length (ff_ref n l) = (n + length l)%nat.
Proof.
  revert n. induction l as [|b l IH]; intros n; cbn [ff_ref length].
  - rewrite ff_flush_length. lia.
  - case_match; [rewrite IH; lia|]. rewrite length_app, ff_flush_length. cbn. rewrite IH. lia.
Qed.

Lemma has_run_spec l :
  has_run t l = true <-> exists a b, l = a ++ replicate t 0xFF ++ b.
Proof.
  induction l as [|x l IH].
  - cbn. destruct t as [|t']; [lia|]. cbn. split; [done|]. intros (a & b & H). by destruct a.
  - cbn [has_run]. rewrite orb_true_iff, andb_true_iff, bool_decide_eq_true, Nat.leb_le, IH. split.
    + intros [[H1 H2]|(a & b & ->)].
      * exists [], (drop t (x :: l)). cbn [app]. by rewrite <- H1, take_drop.
      * by exists (x :: a), b.
    + intros (a & b & H). destruct a as [|y a]; cbn [app] in H.
      * left. rewrite H. split; [apply take_app_length'; by rewrite length_replicate|].
        rewrite length_app, length_replicate. lia.
      * right. injection H as -> ->. eauto.
Qed.

(** A block of equal bytes closed by another byte adds no run. *)
Lemma has_run_block n x b m :
  b <> 0xFF -> (x <> 0xFF \/ (n < t)%nat) -> has_run t m = false ->
  has_run t (replicate n x ++ b :: m) = false.
Proof.
  intros Hb Hx Hm. induction n as [|n IH]; cbn [replicate app has_run].
  - rewrite Hm, orb_false_r. apply andb_false_iff. left. apply bool_decide_eq_false.
    destruct t as [|t']; [lia|]. cbn. congruence.
  - rewrite IH by (destruct Hx; [by left|right; lia]). rewrite orb_false_r. apply andb_false_iff. left.
    apply bool_decide_eq_false. intros Heq. destruct Hx as [Hx|Hx].
    + destruct t as [|t']; [lia|]. cbn in Heq. congruence.
    + change (x :: replicate n x ++ b :: m) with (replicate (S n) x ++ b :: m) in Heq.
      apply (f_equal (fun l => l !! S n)) in Heq.
      rewrite lookup_take_lt, lookup_replicate_2 in Heq by lia.
      rewrite lookup_app_r in Heq by (rewrite length_replicate; lia).
      rewrite length_replicate, Nat.sub_diag in Heq. cbn in Heq. congruence.
Qed.

Lemma ff_ref_no_run n l : has_run t (ff_ref n l) = false.
Proof.
  revert n. induction l as [|b l IH]; intros n; cbn [ff_ref].
  - apply not_true_is_false. intros (a & b & H)%has_run_spec. unfold ff_flush in H.
    destruct (t <=? n)%nat eqn:E.
    + assert (Hin : 255 ∈ replicate n 0).
      { rewrite H, !elem_of_app. right. left. apply elem_of_replicate. split; [done|lia]. }
      apply elem_of_replicate in Hin. lia.
    + apply Nat.leb_gt in E. apply (f_equal length) in H. rewrite !length_app, !length_replicate in H. lia.
  - destruct (b =? 255) eqn:Eb; b2p; [apply IH|]. unfold ff_flush.
    destruct (t <=? n)%nat eqn:E; apply has_run_block; try done; [by left|].
    right. apply Nat.leb_gt in E. lia.
Qed.

(** Position [i] lies in [t] consecutive 0xFF bytes of [l]. *)
Definition in_run (l : bytes) (i : nat) : Prop :=
  exists a, (a <= i < a + t)%nat /\ forall j, (a <= j < a + t)%nat -> l !! j = Some 0xFF.

Lemma ff_flush_lookup n i y l :
  ff_flush n !! i = Some y ->
  (replicate n 0xFF ++ l) !! i = Some y \/ (y = 0 /\ in_run (replicate n 0xFF ++ l) i).
Proof.
  unfold ff_flush. destruct (t <=? n)%nat eqn:E; intros [-> Hi]%lookup_replicate_1.
  - apply Nat.leb_le in E. right. split; [done|]. exists (Nat.min i (n - t)). split; [lia|].
    intros j Hj. rewrite lookup_app_l by (rewrite length_replicate; lia). apply lookup_replicate_2. lia.
  - left. rewrite lookup_app_l by (rewrite length_replicate; lia). by apply lookup_replicate_2.
Qed.

Lemma ff_ref_pointwise l : forall n i y,
  ff_ref n l !! i = Some y ->
  (replicate n 0xFF ++ l) !! i = Some y \/ (y = 0 /\ in_run (replicate n 0xFF ++ l) i).
Proof.
  induction l as [|b l IH]; intros n i y; cbn [ff_ref].
  - by apply ff_flush_lookup.
  - destruct (b =? 255) eqn:Eb; b2p.
    + subst b. intros H%IH. by rewrite replicate_S_end, <- app_assoc in H.
    + intros [H|[Hge H]]%lookup_app_Some; [by apply ff_flush_lookup|].
      rewrite ff_flush_length in *. destruct (i - n)%nat as [|k] eqn:Ei; cbn in H.
      * left. rewrite lookup_app_r by (rewrite length_replicate; lia).
        by rewrite length_replicate, Ei.
      * apply IH in H. cbn [replicate app] in H. destruct H as [H|[-> (a & Ha & Hr)]].
        -- left. rewrite lookup_app_r by (rewrite length_replicate; lia).
           by rewrite length_replicate, Ei.
        -- right. split; [done|]. exists (n + 1 + a)%nat. split; [lia|]. intros j Hj.
           rewrite lookup_app_r by (rewrite length_replicate; lia). rewrite length_replicate.
           replace (j - n)%nat with (S (j - n - 1)) by lia. cbn. apply Hr. lia.
Qed.

Lemma ff_ref_id n l : has_run t (replicate n 0xFF ++ l) = false -> ff_ref n l = replicate n 0xFF ++ l.
Proof.
  intros H. apply list_eq. intros i. destruct (ff_ref n l !! i) as [y|] eqn:E.
  - destruct (ff_ref_pointwise l n i y E) as [Hy|[-> (a & Ha & Hr)]]; [done|].
    exfalso. apply not_true_iff_false in H. apply H. apply has_run_spec.
    exists (take a (replicate n 255 ++ l)), (drop (a + t) (replicate n 255 ++ l)).
    set (L := replicate n 255 ++ l) in *.
    rewrite <- (take_drop a L) at 1. f_equal. rewrite <- drop_drop, <- (take_drop t (drop a L)) at 1. f_equal.
    apply list_eq. intros k. destruct (decide (k < t)%nat).
    + rewrite lookup_take_lt, lookup_drop, lookup_replicate_2 by lia. apply Hr. lia.
    + rewrite lookup_take_ge by lia. symmetry. apply lookup_ge_None. rewrite length_replicate. lia.
  - symmetry. apply lookup_ge_None in E. apply lookup_ge_None. rewrite ff_ref_length in E.
    rewrite length_app, length_replicate. lia.
Qed.

Lemma zero_runs_ref l : zero_long_ff_runs l (Z.of_nat t) = ff_ref 0 l.
Proof.
  unfold zero_long_ff_runs. rewrite Nat2Z.id. destruct (has_run t l) eqn:E; cbn [negb].
  - apply zero_go_ref.
  - symmetry. by apply (ff_ref_id 0).
Qed.

End FFRuns.

(** [_zero_long_ff_runs], for any positive threshold [t] (the code uses
    12): the output has the input's length, holds no [t] consecutive 0xFF
    bytes, and each byte is either the input's or a zero that replaces a byte
    lying inside [t] consecutive 0xFF bytes of the input; an input without
    such a run is returned unchanged. *)
Theorem zero_long_ff_runs_spec (t : nat) (l : bytes) :
  (0 < t)%nat ->
  let out := zero_long_ff_runs l (Z.of_nat t) in
  length out = length l /\
  (forall a b, out <> a ++ replicate t 0xFF ++ b) /\
  (forall i y, out !! i = Some y -> l !! i = Some y \/ (y = 0 /\ in_run t l i)) /\
  (has_run t l = false -> out = l).
Proof.
  intros Ht. cbn zeta. rewrite zero_runs_ref by done. split_and!.
  - by apply ff_ref_length.
  - intros a b H. pose proof (ff_ref_no_run t Ht 0 l) as Hn. apply not_true_iff_false in Hn.
    apply Hn, (has_run_spec t Ht). by exists a, b.
  - intros i y Hy. by apply (ff_ref_pointwise t Ht l 0) in Hy.
  - intros. by apply (ff_ref_id t Ht 0).
Qed.

Theorem zero_long_ff_runs_spec_witness :
  (0 < 2)%nat /\ zero_long_ff_runs [1; 255; 255; 2; 255] (Z.of_nat 2) = [1; 0; 0; 2; 255] /\
  length (zero_long_ff_runs [1; 255; 255; 2; 255] (Z.of_nat 2)) = length [1; 255; 255; 2; 255].
Proof.
  split; [lia|]. split; [reflexivity|].
  apply (zero_long_ff_runs_spec 2 [1; 255; 255; 2; 255]). lia.
Defined.

(** ** The SPL boundary *)

(** The scan finds the first marker and no index error on the way. *)
Lemma detect_loop_spec firmware pmax limit idx n :
  detect_loop firmware pmax limit idx = Ok n ->
  (n = pmax /\ Forall (fun i => spl_marker firmware i = Ok false) idx) \/
  exists before i after, idx = before ++ i :: after /\ spl_marker firmware i = Ok true /\
    Forall (fun i => spl_marker firmware i = Ok false) before /\ n = cap limit (round_1k i).
Proof.
  induction idx as [|i idx IH]; cbn; [intros [= <-]; by left|].
  destruct (spl_marker firmware i) as [[]|e|] eqn:E; cbn; try done.
  - intros [= <-]. right. by exists [], i, idx.
  - intros [[-> Hf]|(b & j & a & -> & Hj & Hb & ->)]%IH; [left; by split; [|constructor]|].
    right. exists (i :: b), j, a. split_and!; try done. by constructor.
Qed.

Lemma detect_loop_ok firmware pmax limit idx :
  Forall (fun i => 0 <= i /\ i + 2 < len firmware) idx ->
  exists n, detect_loop firmware pmax limit idx = Ok n.
Proof.
  induction 1 as [|i idx [Hi0 Hi] _ IH]; cbn; [eauto|].
  assert (Hidx : forall j, 0 <= j < len firmware -> exists b, index firmware j = Ok b).
  { intros j Hj. unfold index. destruct (lookup_lt_is_Some_2 firmware (Z.to_nat j)) as [b ->]; [unfold len in Hj; lia|].
    by exists b. }
  unfold spl_marker. destruct (Hidx i) as [b ->]; [lia|]. cbn.
  destruct (b =? 0x5D); cbn; [case_match; eauto|].
  destruct (b =? 0x1F); cbn; [|done].
  destruct (Hidx (i + 1)) as [b1 ->]; [lia|]. cbn. destruct (b1 =? 0x8B); cbn; [|done].
  destruct (Hidx (i + 2)) as [b2 ->]; [lia|]. cbn. case_match; eauto.
Qed.

Lemma round_1k_spec i : 0 <= i -> round_1k i = 1024 * (i / 1024).
Proof.
  intros Hi. unfold round_1k. change (Z.lnot 0x3FF) with (Z.lnot (Z.ones 10)).
  rewrite <- Z.ldiff_land, Z.ldiff_ones_r, Z.shiftl_mul_pow2, Z.shiftr_div_pow2 by lia.
  change (2 ^ 10) with 1024. lia.
Qed.

(** [_detect_spl_size] on any firmware of at least 64 KiB + 2 bytes never
    fails, and its result is either the profile's maximum, when no LZMA or
    gzip marker lies in [0x4000, 0x10000), or the first marker rounded down
    to 1 KiB and capped by the SRAM limit: then it is at least 16 KiB unless
    capped, never past the marker, and never past the limit. *)
Theorem detect_spl_size_spec firmware pmax limit :
  0x10002 <= len firmware ->
  exists n, detect_spl_size firmware pmax limit = Ok n /\
    ((n = pmax /\ forall i, 0x4000 <= i < 0x10000 -> spl_marker firmware i = Ok false) \/
     exists i, 0x4000 <= i < 0x10000 /\ spl_marker firmware i = Ok true /\
       (forall j, 0x4000 <= j < i -> spl_marker firmware j = Ok false) /\
       n = cap limit (1024 * (i / 1024)) /\ n <= i /\
       match limit with Some m => n <= m | None => 0x4000 <= n end).
Proof.
  intros Hl. unfold detect_spl_size.
  assert (Hscan : spl_scan firmware = (fun n => 0x4000 + Z.of_nat n) <$> seq 0 (Z.to_nat 0xC000)).
  { unfold spl_scan. do 2 f_equal. lia. }
  destruct (detect_loop_ok firmware pmax limit (spl_scan firmware)) as [n Hn].
  { rewrite Hscan. apply Forall_fmap, Forall_forall. intros k Hk%elem_of_seq. cbn. lia. }
  exists n. split; [done|]. apply detect_loop_spec in Hn as [[-> Hf]|(b & i & a & Hs & Hi & Hb & ->)].
  - left. split; [done|]. intros i Hr. rewrite Hscan, Forall_fmap, Forall_forall in Hf.
    specialize (Hf (Z.to_nat (i - 0x4000))). cbn in Hf. rewrite Z2Nat.id in Hf by lia.
    replace (0x4000 + (i - 0x4000)) with i in Hf by lia. apply Hf, elem_of_seq. lia.
  - right. rewrite Hscan in Hs.
    assert (Hlk : forall (k : nat) j, (b ++ i :: a) !! k = Some j -> j = 0x4000 + Z.of_nat k /\ 0x4000 <= j < 0x10000).
    { intros k j. rewrite <- Hs, list_lookup_fmap. intros (x & Hx & ->)%fmap_Some. apply lookup_seq in Hx. lia. }
    destruct (Hlk (length b) i) as [Hib Hir]; [by apply list_lookup_middle|].
    exists i. pose proof (Z.div_mod i 1024 ltac:(lia)). pose proof (Z.mod_pos_bound i 1024 ltac:(lia)).
    assert (16 <= i / 1024) by (apply Z.div_le_lower_bound; lia).
    rewrite round_1k_spec by lia. split_and!; try done; try lia.
    + intros j Hj. eapply (Forall_lookup_1 (fun i => spl_marker firmware i = Ok false) b (Z.to_nat (j - 0x4000))); [done|].
      destruct (lookup_lt_is_Some_2 b (Z.to_nat (j - 0x4000))) as [x Hx]; [lia|]. rewrite Hx.
      destruct (Hlk (Z.to_nat (j - 0x4000)) x) as [-> _]; [by apply lookup_app_l_Some|]. f_equal. lia.
    + unfold cap. destruct limit; [case_match; b2p|]; lia.
    + unfold cap. destruct limit; [case_match; b2p|]; lia.
Qed.

Theorem detect_spl_size_spec_witness :
  0x10002 <= len (brep 0x10002 0) /\
  exists n, detect_spl_size (brep 0x10002 0) 0x6000 None = Ok n.
Proof.
  assert (H : 0x10002 <= len (brep 0x10002 0)) by (rewrite len_brep; lia).
  split; [exact H|].
  destruct (detect_spl_size_spec (brep 0x10002 0) 0x6000 None H) as (n & Hn & _). by exists n.
Defined.

(** A shorter image whose last byte is 0x1F makes the scan read past its end:
    [firmware[i + 1]] raises IndexError. *)
Theorem detect_spl_size_index_error pmax limit :
  detect_spl_size (brep 0x4000 0 ++ [0x1F]) pmax limit = Raise IndexError.
Proof. vm_compute. reflexivity. Qed.

(** Without a marker the fallback is not capped: the result can exceed the
    SRAM limit. *)
Theorem detect_spl_size_uncapped : detect_spl_size [] 0x6000 (Some 0x3B00) = Ok 0x6000.
Proof. reflexivity. Qed.

(** ** Acknowledged frames, over any transport *)

(** [l] sends [f] some times and ends with the ACK read after the last. *)
Definition acked (f : bytes) (l : list event) : Prop :=
  exists l1 l2 n, l = l1 ++ [EvWrite f (Ok tt)] ++ l2 ++ [EvRead (Ok ACK_BYTE)] /\
    writes l1 = replicate n f /\ writes l2 = [].

(** Some number of attempts at [f]. *)
Definition attempts (f : bytes) (l : list event) : Prop := exists n, writes l = replicate n f.

(** The frames [fs], each acknowledged before the next is sent. *)
Definition acked_all (fs : list bytes) (l : list event) : Prop :=
  exists ls, l = concat ls /\ Forall2 acked fs ls.

Lemma acked_after l0 f l : attempts f l0 -> acked f l -> acked f (l0 ++ l).
Proof.
  intros [n Hn] (l1 & l2 & m & -> & H1 & H2). exists (l0 ++ l1), l2, (n + m)%nat.
  rewrite <- app_assoc. split; [done|]. by rewrite writes_app, Hn, H1, replicate_add.
Qed.

Lemma acked_attempts f l : acked f l -> attempts f l.
Proof.
  intros (l1 & l2 & m & -> & H1 & H2). exists (m + 1)%nat.
  rewrite !writes_app, H1, H2. cbn. by rewrite replicate_add.
Qed.

Lemma attempts_app f a b : attempts f a -> attempts f b -> attempts f (a ++ b).
Proof. intros [n Hn] [m Hm]. exists (n + m)%nat. by rewrite writes_app, Hn, Hm, replicate_add. Qed.

Lemma acked_all_app fs gs a b : acked_all fs a -> acked_all gs b -> acked_all (fs ++ gs) (a ++ b).
Proof.
  intros (la & -> & Ha) (lb & -> & Hb). exists (la ++ lb). split; [by rewrite concat_app|].
  by apply Forall2_app.
Qed.

Lemma acked_all_one f l : acked f l -> acked_all [f] l.
Proof. intros H. exists [l]. cbn. by rewrite app_nil_r; split; [|constructor]. Qed.

Section Trace.
Context {T Ob : Type} `{Transport T}.
Variable fuel : nat.

Lemma ack_loop_emits dl :
  emits (T := T) (Ob := Ob) (while fuel (ack_body dl) tt) (fun r l => writes l = [] /\
    match r with
    | Ok (Rtn _) => exists l', l = l' ++ [EvRead (Ok ACK_BYTE)] /\ writes l' = []
    | Ok (Next _) => False
    | _ => True
    end).
Proof.
  apply (emits_while (fun _ l => writes l = [])); [done| |done].
  intros s l0 H0. unfold ack_body. repeat emits_step; autorewrite with trace; rewrite ?H0; try done.
  - b2p. subst. split; [done|]. by exists l0.
  - destruct (is_TransportTimeout e); repeat emits_step; autorewrite with trace; by rewrite ?H0.
Qed.

Lemma attempt_emits f tmo x s :
  emits (T := T) (Ob := Ob) (attempt_body fuel f tmo x s) (fun r l =>
    match r with
    | Ok (Rtn b) => b = true /\ acked f l
    | Ok (Brk _) => False
    | _ => attempts f l
    end).
Proof.
  assert (H0 : attempts f []) by by exists 0%nat.
  unfold attempt_body. emits_step. emits_step. emits_step; [|by destruct (is_Exception _); [apply emits_ret|]; exists 0%nat|by exists 0%nat].
  emits_step. emits_step; [|by destruct (is_Exception _); [apply emits_ret|]; exists 0%nat|by exists 0%nat].
  emits_step. emits_step; [|by destruct (is_Exception _); [apply emits_ret|]; exists 1%nat|by exists 1%nat].
  emits_step. emits_step. emits_step. eapply emits_weaken; [apply ack_loop_emits|].
  intros [[s'|s'|u]|e|] l [Hw Hr]; [done|..].
  - apply emits_ret. exists 1%nat. unfold writes in *. cbn. by rewrite !app_nil_r, Hw.
  - apply emits_ret. split; [done|]. destruct Hr as (l' & -> & Hl').
    exists [EvFlushInput (Ok tt); EvFlushOutput (Ok tt)], l', 0%nat. cbn.
    by rewrite !app_nil_r.
  - by destruct (is_Exception e); [apply emits_ret|]; exists 1%nat; unfold writes in *; cbn; rewrite ?app_nil_r, Hw.
  - exists 1%nat. unfold writes in *. cbn. by rewrite Hw.
Qed.

(** The retry loop: nothing but [f] is written, and it reports success only
    after an ACK. *)
Lemma send_frame_emits f retries tmo :
  emits (T := T) (Ob := Ob) (send_frame_with_retry fuel f retries tmo) (fun r l =>
    attempts f l /\ (r = Ok true -> acked f l)).
Proof.
  unfold send_frame_with_retry. emits_step.
  eapply emits_weaken; [apply (emits_foreach (fun _ _ l => attempts f l)) with
    (Q := fun r l => attempts f l /\ match r with Ok (Rtn b) => b = true /\ acked f l | Ok (Brk _) => False | _ => True end)|].
  - by exists 0%nat.
  - intros done x rest s l0 _ H0. eapply emits_weaken; [apply attempt_emits|].
    intros [[s'|s'|b]|e|] l Hl; try done.
    + by apply attempts_app.
    + destruct Hl as [-> Ha]. split; [apply attempts_app; [done|by apply acked_attempts]|].
      split; [done|by apply acked_after].
    + split; [by apply attempts_app|done].
    + split; [by apply attempts_app|done].
  - done.
  - intros [[s'|s'|b]|e|] l [Ha Hr]; try done; apply emits_ret; rewrite app_nil_r; [done|].
    by destruct Hr as [-> Hr].
Qed.

(** The DATA frames of an image. *)
Definition data_frame (ic : Z * bytes) : bytes :=
  DataFrame_encode {| df_seq := fst ic + 1; df_payload := snd ic |}.

Lemma send_chunks_emits chunks :
  emits (T := T) (Ob := Ob) (foreach chunks (send_chunk_body fuel) tt) (fun r l =>
    match r with
    | Ok (Next _) => acked_all (data_frame <$> chunks) l
    | Ok (Brk _) => False
    | _ => True
    end).
Proof.
  apply (emits_foreach (fun done _ l => acked_all (data_frame <$> done) l)).
  - by exists [].
  - intros done ic rest s l0 _ H0. unfold send_chunk_body, send_data. emits_step.
    eapply emits_weaken; [apply send_frame_emits|]. intros [[]|e|] l [Ha Hr]; try done; apply emits_ret.
    + rewrite fmap_app, app_nil_r. by apply acked_all_app, acked_all_one, Hr.
    + done.
  - done.
Qed.

(** The frames of an image after its HEAD. *)
Definition image_frames (image : bytes) : list bytes :=
  data_frame <$> enum (chunk_data image MAX_DATA_LEN).
Definition tail_frame (image : bytes) : bytes :=
  TailFrame_encode {| tf_seq := len (chunk_data image MAX_DATA_LEN) + 1 |}.

(** An image was uploaded: HEAD and DATA frames acknowledged one by one, then
    attempts at the TAIL. *)
Definition uploaded (image : bytes) (size addr : Z) (l : list event) : Prop :=
  exists head l1 l2, HeadFrame_encode {| hf_length := size; hf_address := addr |} = Ok head /\
    l = l1 ++ l2 /\ acked_all (head :: image_frames image) l1 /\ attempts (tail_frame image) l2.

Lemma send_image_emits image addr :
  emits (T := T) (Ob := Ob) (send_image fuel image addr) (fun r l =>
    r = Ok true -> uploaded image (len image) addr l).
Proof.
  unfold send_image. emits_step. apply emits_lift.
  destruct (HeadFrame_encode _) as [head|e|] eqn:Eh; [|done..].
  emits_step. eapply emits_weaken; [apply send_frame_emits|]. intros [[]|e|] l1 [_ Hh]; try done; cbn [negb app].
  2: by apply emits_ret.
  emits_step. eapply emits_weaken; [apply send_chunks_emits|]. intros [[s|s|u]|e|] l2 Hc; try done.
  2: by apply emits_ret.
  emits_step. eapply emits_weaken; [apply send_frame_emits|]. intros [b|e|] l3 [Ht _]; try done.
  apply emits_ret. intros _. exists head, (l1 ++ l2), l3. rewrite app_nil_r, app_assoc.
  split_and!; try done. apply (acked_all_app [head]); [by apply acked_all_one, Hh|done].
Qed.

(** One of the small uploads of the DDR stage. *)
Definition stepped (data : bytes) (size addr : Z) (l : list event) : Prop :=
  exists head l1 l2, HeadFrame_encode {| hf_length := size; hf_address := addr |} = Ok head /\
    l = l1 ++ l2 /\ acked_all [head; data_frame (0, data)] l1 /\
    attempts (TailFrame_encode {| tf_seq := 2 |}) l2.

Lemma send_head_emits size addr :
  emits (T := T) (Ob := Ob) (send_head fuel size addr) (fun r l =>
    r = Ok true -> exists head, HeadFrame_encode {| hf_length := size; hf_address := addr |} = Ok head /\ acked head l).
Proof.
  unfold send_head. emits_step. apply emits_lift.
  destruct (HeadFrame_encode _) as [head|e|] eqn:Eh; [|done..].
  eapply emits_weaken; [apply send_frame_emits|]. intros [[]|e|] l [_ Hl]; try done. exists head. auto.
Qed.

Lemma send_step_emits lbl size addr data :
  emits (T := T) (Ob := Ob) (send_step fuel lbl size addr data) (fun r l =>
    r = Ok None -> stepped data size addr l).
Proof.
  unfold send_step. emits_step. eapply emits_weaken; [apply send_head_emits|].
  intros [[]|e|] l1 Hh; try done; cbn [negb]; [|by apply emits_ret].
  destruct (Hh eq_refl) as (head & Eh & Ha).
  emits_step. eapply emits_weaken; [apply send_frame_emits|].
  intros [[]|e|] l2 [_ Hd]; try done; cbn [negb]; [|by apply emits_ret].
  emits_step. eapply emits_weaken; [apply send_frame_emits|]. intros [b|e|] l3 [Ht _]; try done.
  apply emits_ret. intros _. exists head, (l1 ++ l2), l3. rewrite app_nil_r, app_assoc.
  split_and!; try done. apply (acked_all_app [head] [data_frame (0, data)]); [by apply acked_all_one|by apply acked_all_one, Hd].
Qed.

(** [only f m]: [m] writes nothing but [f]. *)
Definition only {A} (f : bytes) (m : M T Ob A) : Prop := emits m (fun _ l => attempts f l).

Lemma only_silent {A} f (m : M T Ob A) : silent m -> only f m.
Proof. intros Hm. eapply emits_weaken; [apply Hm|]. intros r l Hl. by exists 0%nat. Qed.

Lemma only_write f : only f (write f).
Proof. apply emits_write. intros r. by exists 1%nat. Qed.

Lemma only_bind {A B} f (m : M T Ob A) (k : A -> M T Ob B) :
  only f m -> (forall a, only f (k a)) -> only f (bind m k).
Proof.
  intros Hm Hk. apply emits_bind. eapply emits_weaken; [apply Hm|]. intros [a|e|] l Hl; [|done..].
  eapply emits_weaken; [apply Hk|]. intros r l' Hl'. by apply attempts_app.
Qed.

Lemma only_try {A} f (m : M T Ob A) p h :
  only f m -> (forall e, only f (h e)) -> only f (try_except m p h).
Proof.
  intros Hm Hh. apply emits_try. eapply emits_weaken; [apply Hm|]. intros [a|e|] l Hl; [done| |done].
  destruct (p e); [|done]. eapply emits_weaken; [apply Hh|]. intros r l' Hl'. by apply attempts_app.
Qed.

Lemma only_while {S R} f n (body : S -> M T Ob (ctl S R)) s :
  (forall s, only f (body s)) -> only f (while n body s).
Proof.
  intros Hb. revert s. induction n as [|n IH]; intros s; [by apply only_silent, silent_diverge|].
  apply only_bind; [done|]. intros [?|?|?]; [done|by apply only_silent, silent_ret..].
Qed.

Lemma rehandshake_only : only BOOTMODE_ACK (rehandshake fuel).
Proof.
  unfold rehandshake. apply only_bind; [apply only_silent; silence|intros now].
  apply only_bind; [|intros; apply only_silent; silence].
  apply only_while. intros n. unfold rehandshake_body.
  apply only_bind; [apply only_silent; silence|intros z].
  destruct (negb _); [apply only_silent; silence|].
  apply only_try.
  - apply only_bind; [apply only_silent; silence|intros d]. unfold rehandshake_byte.
    repeat case_match; try (apply only_silent; silence; fail);
    (apply only_bind; [apply only_write|intros; apply only_silent; silence]).
  - intros _. case_match; [apply only_bind; [apply only_write|]; intros|]; apply only_silent; silence.
Qed.

(** The frame blast: 0xAA and the HEAD of the DDR step, over and over. *)
Definition blasted (profile : SoCProfile) (l : list event) : Prop :=
  exists addr head, ddr_step_address profile = Ok addr /\
    HeadFrame_encode {| hf_length := 64; hf_address := addr |} = Ok head /\
    attempts (BOOTMODE_ACK ++ head) l.

Lemma send_start_emits profile :
  emits (T := T) (Ob := Ob) (send_frame_for_start fuel profile) (fun r l => r = Ok true -> blasted profile l).
Proof.
  unfold send_frame_for_start. emits_step. apply emits_lift.
  destruct (ddr_step_address profile) as [addr|e|] eqn:Ea; [|done..].
  emits_step. apply emits_lift. destruct (HeadFrame_encode _) as [head|e|] eqn:Eh; [|done..].
  emits_step. emits_step. emits_step.
  assert (Ho : forall dl, only (BOOTMODE_ACK ++ head) (while fuel (send_frame_for_start_body (BOOTMODE_ACK ++ head) dl) tt)).
  { intros dl. apply only_while. intros s. unfold send_frame_for_start_body.
    apply only_bind; [apply only_silent; silence|intros ?]. case_match; [apply only_silent; silence|].
    apply only_bind; [apply only_write|intros _]. apply only_silent. silence. }
  eapply emits_weaken; [apply Ho|]. intros [c|e|] l Hl; [|done..].
  destruct c; apply emits_ret; intros _; exists addr, head; rewrite app_nil_r; by split_and!.
Qed.

(** The DDR stage of [profile]. *)
Definition ddr_done (profile : SoCProfile) (l : list event) : Prop :=
  exists addr pre data pre1 l0 l1 l2, l = l0 ++ l1 ++ l2 /\
    ddr_step_address profile = Ok addr /\ prestep_data profile = Ok pre /\
    ddr_step_data profile = Ok data /\ prestep1_data profile = Ok pre1 /\
    match pre with
    | None => l0 = []
    | Some p => exists la lb, l0 = la ++ lb /\ blasted profile la /\ stepped p 64 addr lb
    end /\
    stepped data 64 addr l1 /\
    match pre1 with None => l2 = [] | Some p => stepped p (len p) addr l2 end.

Lemma send_prestep0_emits profile addr pre :
  emits (T := T) (Ob := Ob) (send_prestep0 fuel profile addr pre) (fun r l => r = Ok None ->
    match pre with
    | None => l = []
    | Some p => exists la lb, l = la ++ lb /\ blasted profile la /\ stepped p 64 addr lb
    end).
Proof.
  unfold send_prestep0. destruct pre as [p|]; [|by apply emits_ret].
  emits_step. eapply emits_weaken; [apply send_start_emits|].
  intros [[]|e|] l1 Hb; try done; cbn [negb]; [|by apply emits_ret].
  eapply emits_weaken; [apply send_step_emits|]. intros r l2 Hs Hr. exists l1, l2. auto.
Qed.

Lemma send_ddr_step_emits profile :
  emits (T := T) (Ob := Ob) (send_ddr_step fuel profile) (fun r l => r = Ok None -> ddr_done profile l).
Proof.
  unfold send_ddr_step. emits_step. apply emits_lift.
  destruct (ddr_step_address profile) as [addr|e|] eqn:Ea; [|done..].
  emits_step. apply emits_lift. destruct (prestep_data profile) as [pre|e|] eqn:Ep; [|done..].
  emits_step. eapply emits_weaken; [apply send_prestep0_emits|].
  intros [[err|]|e|] l0 H0; try done; [by apply emits_ret|]. specialize (H0 eq_refl).
  emits_step. apply emits_lift. destruct (ddr_step_data profile) as [data|e|] eqn:Ed; [|done..].
  emits_step. eapply emits_weaken; [apply send_step_emits|].
  intros [[err|]|e|] l1 H1; try done; [by apply emits_ret|]. specialize (H1 eq_refl).
  emits_step. apply emits_lift. destruct (prestep1_data profile) as [pre1|e|] eqn:Ep1; [|done..].
  destruct pre1 as [p1|].
  - eapply emits_weaken; [apply send_step_emits|]. intros r l2 H2 Hr.
    exists addr, pre, data, (Some p1), l0, l1, l2. cbn. by split_and!; auto.
  - apply emits_ret. intros _. exists addr, pre, data, None, l0, l1, []. cbn. by split_and!.
Qed.

Lemma send_spl_emits firmware profile ov :
  emits (T := T) (Ob := Ob) (send_spl fuel firmware profile ov) (fun r l => r = Ok true ->
    exists size data addr, spl_plan firmware profile ov = Ok (size, data) /\ spl_address profile = Ok addr /\
      uploaded (zero_long_ff_runs data 12) size addr l).
Proof.
  unfold send_spl. emits_step. apply emits_lift.
  destruct (spl_plan firmware profile ov) as [[size data]|e|] eqn:Ep; [|done..].
  emits_step. apply emits_lift. destruct (spl_address profile) as [addr|e|] eqn:Ea; [|done..].
  emits_step. eapply emits_weaken; [apply send_head_emits|].
  intros [[]|e|] l1 Hh; try done; cbn [negb]; [|by apply emits_ret].
  destruct (Hh eq_refl) as (head & Eh & Ha).
  emits_step. eapply emits_weaken; [apply send_chunks_emits|]. intros [[s|s|u]|e|] l2 Hc; try done.
  2: by apply emits_ret.
  emits_step. eapply emits_weaken; [apply send_frame_emits|]. intros [ok|e|] l3 [Ht _]; try done.
  emits_step. eapply emits_weaken with (P := fun _ l => l = []).
  { destruct ok; [by apply emits_ret|]. emits_step. apply emits_lift.
    destruct (prestep_data profile); [by apply emits_ret|done..]. }
  intros [fatal|e|] l4 ->; try done. destruct fatal; [by apply emits_ret|].
  emits_step. emits_step. apply emits_ret. intros _. exists size, data, addr. split; [done|]. split; [done|].
  exists head, (l1 ++ l2), l3. rewrite !app_nil_r, app_assoc. cbn. split_and!; try done.
  apply (acked_all_app [head]); [by apply acked_all_one|done].
Qed.

Lemma send_uboot_emits firmware profile :
  emits (T := T) (Ob := Ob) (send_uboot fuel firmware profile) (fun r l => r = Ok true ->
    exists addr l0 l1, uboot_address profile = Ok addr /\ l = l0 ++ l1 /\
      uploaded (zero_long_ff_runs firmware 12) (len (zero_long_ff_runs firmware 12)) addr l1).
Proof.
  unfold send_uboot. emits_step. apply emits_lift.
  destruct (prestep_data profile) as [pre|e|] eqn:Ep; [|done..].
  emits_step. eapply emits_weaken with (P := fun _ _ => True).
  { destruct pre; [by eapply emits_weaken; [apply send_start_emits|]|].
    emits_step. eapply emits_weaken; [apply rehandshake_only|]. intros [b|e|] l _; [by apply emits_ret|done..]. }
  intros [ok|e|] l0 _; try done. destruct ok; cbn [negb]; [|by apply emits_ret].
  emits_step. apply emits_lift. destruct (uboot_address profile) as [addr|e|] eqn:Ea; [|done..].
  eapply emits_weaken; [apply send_image_emits|]. intros r l1 Hl Hr. exists addr, l0, l1. auto.
Qed.

End Trace.

(** The log [l] of a successful upload of [firmware] with the profile [p]. *)
Definition std_uploaded (p : SoCProfile) (firmware : bytes) (ov : option bytes) (l : list event) : Prop :=
  exists l0 l1 l2 l3 l4 size data saddr uaddr,
    l = l0 ++ l1 ++ l2 ++ l3 ++ l4 /\ ddr_done p l0 /\ attempts BOOTMODE_ACK l1 /\
    spl_plan firmware p ov = Ok (size, data) /\ spl_address p = Ok saddr /\
    uploaded (zero_long_ff_runs data 12) size saddr l2 /\ uboot_address p = Ok uaddr /\
    uploaded (zero_long_ff_runs firmware 12) (len (zero_long_ff_runs firmware 12)) uaddr l4.

Lemma send_firmware_emits {T Ob} `{Transport T} fuel profile firmware ov :
  emits (T := T) (Ob := Ob) (send_firmware fuel profile firmware ov) (fun r l => forall r', r = Ok r' ->
    r_success r' = true -> stages_completed r' = [DDR_INIT; SPL; UBOOT; COMPLETE] /\
    exists p, profile = Some p /\ std_uploaded p firmware ov l).
Proof.
  destruct profile as [p|]; [|apply emits_ret; by intros r' [= <-]].
  unfold send_firmware. emits_step. eapply emits_weaken; [apply send_ddr_step_emits|].
  intros [[err|]|e|] l0 H0; try done; [apply emits_ret; by intros r' [= <-]|]. specialize (H0 eq_refl).
  emits_step. eapply emits_weaken; [apply rehandshake_only|]. intros [b|e|] l1 H1; try done.
  emits_step. eapply emits_weaken; [apply send_spl_emits|]. intros [[]|e|] l2 H2; try done; cbn [negb].
  2: { apply emits_ret. by intros r' [= <-]. }
  destruct (H2 eq_refl) as (size & data & sa & Hp & Hsa & Hu).
  emits_step. eapply emits_weaken; [apply send_uboot_emits|]. intros [[]|e|] l3 H3; try done; cbn [negb].
  2: { apply emits_ret. by intros r' [= <-]. }
  destruct (H3 eq_refl) as (ua & la & lb & Hua & -> & Hu2).
  apply emits_ret. intros r' [= <-] _. split; [done|]. exists p. split; [done|].
  exists l0, l1, l2, la, lb, size, data, sa, ua. rewrite app_nil_r. by split_and!.
Qed.

(** C1. [send_firmware] over any transport, whatever the device answers: it
    reports success only if the log of the session consists of the DDR stage
    of the profile, at most 0xAA acknowledgments, the upload of the SPL image
    the profile prescribes and the upload of the whole firmware image (both
    with long 0xFF runs zeroed), where every HEAD and every DATA frame, in
    order, was followed by the device's ACK before the next one was sent. *)
Theorem send_firmware_safe {T Ob} `{Transport T} fuel profile firmware ov (w : world T Ob) r w' :
  send_firmware fuel profile firmware ov w = (Ok r, w') -> r_success r = true ->
  exists p l0 l1 l2 l3 l4 size data saddr uaddr,
    profile = Some p /\ log w' = log w ++ l0 ++ l1 ++ l2 ++ l3 ++ l4 /\
    stages_completed r = [DDR_INIT; SPL; UBOOT; COMPLETE] /\
    ddr_done p l0 /\ attempts BOOTMODE_ACK l1 /\
    spl_plan firmware p ov = Ok (size, data) /\ spl_address p = Ok saddr /\
    uploaded (zero_long_ff_runs data 12) size saddr l2 /\
    uboot_address p = Ok uaddr /\
    uploaded (zero_long_ff_runs firmware 12) (len (zero_long_ff_runs firmware 12)) uaddr l4.
Proof.
  intros Hrun Hs. destruct (send_firmware_emits (T := T) (Ob := Ob) fuel profile firmware ov w) as (l & Hl & HQ).
  rewrite Hrun in Hl, HQ. destruct (HQ r eq_refl Hs) as (Hst & p & -> & H').
  destruct H' as (l0 & l1 & l2 & l3 & l4 & size & data & sa & ua & -> & Hrest).
  exists p, l0, l1, l2, l3, l4, size, data, sa, ua. cbn in Hl. by rewrite Hl.
Qed.

(** ** The handshake *)

(** The results of the successful reads, in order. *)
Definition read_results (l : list event) : list bytes :=
  omap (fun e => match e with EvRead (Ok d) => Some d | _ => None end) l.

Lemma read_results_app a b : read_results (a ++ b) = read_results a ++ read_results b.
Proof. apply omap_app. Qed.

(** Without the NUL bytes the code ignores. *)
Definition non_nul (ds : list bytes) : list bytes := filter (fun d => d <> [0]) ds.

Definition hs_inv (s : hs_state) (l : list event) : Prop :=
  0 <= counter s < BOOTMODE_COUNT /\
  exists pre, non_nul (read_results l) = pre ++ replicate (Z.to_nat (counter s)) BOOTMODE_MARKER.

Lemma non_nul_read fl l d :
  read_results fl = [d] -> non_nul (read_results (l ++ fl)) = non_nul (read_results l) ++ non_nul [d].
Proof. intros Hf. unfold non_nul. by rewrite read_results_app, Hf, filter_app. Qed.

Lemma handshake_byte_emits {T Ob} `{Transport T} s d l0 :
  hs_inv s l0 ->
  emits (T := T) (Ob := Ob) (handshake_byte s d) (fun r l =>
    match r with
    | Ok (Next s') => read_results l = [] /\ forall fl, read_results fl = [d] -> hs_inv s' (l0 ++ fl)
    | Ok (Rtn h) => h = handshake_ok /\ read_results l = [] /\
        (forall fl, read_results fl = [d] ->
           exists pre, non_nul (read_results (l0 ++ fl)) = pre ++ replicate 5 BOOTMODE_MARKER) /\
        (exists l', l = l' ++ [EvFlushInput (Ok tt)] /\
           (flooding s = false -> l' = [EvWrite BOOTMODE_ACK (Ok tt)]))
    | Ok (Brk _) => False
    | _ => True
    end).
Proof.
  intros [Hc [pre Hpre]]. unfold handshake_byte. emits_step.
  { apply emits_ret. split; [done|]. intros fl Hfl. split; [done|]. exists pre.
    b2p. subst d. erewrite non_nul_read by done.
    change (non_nul [[0]]) with (@nil bytes). by rewrite app_nil_r, Hpre. }
  b2p. destruct (beq d BOOTMODE_MARKER) eqn:Em; b2p.
  - subst d. repeat emits_step; try done.
    + split_and!; try done; [|by exists []].
      intros fl Hfl. exists pre. b2p. erewrite non_nul_read by done. rewrite Hpre, <- app_assoc.
      replace (counter s) with 4 by (unfold BOOTMODE_COUNT in *; lia). done.
    + split_and!; try done; [|by exists [EvWrite BOOTMODE_ACK (Ok tt)]].
      intros fl Hfl. exists pre. b2p. erewrite non_nul_read by done. rewrite Hpre, <- app_assoc.
      replace (counter s) with 4 by (unfold BOOTMODE_COUNT in *; lia). done.
    + split; [done|]. intros fl Hfl. b2p. split; [cbn; lia|]. exists pre.
      erewrite non_nul_read by done. rewrite Hpre, <- app_assoc. cbn [counter].
      rewrite Z2Nat.inj_add by lia. by rewrite replicate_add.
  - emits_step. apply emits_lift. destruct (index d 0); [|done..].
    change (BOOTMODE_COUNT <=? 0) with false. apply emits_ret. split; [done|].
    intros fl Hfl. split; [cbn; unfold BOOTMODE_COUNT; lia|]. cbn. eexists. by rewrite app_nil_r.
Qed.

Lemma handshake_emits {T Ob} `{Transport T} fuel cont :
  emits (T := T) (Ob := Ob) (handshake fuel cont) (fun r l => forall h, r = Ok h ->
    h = handshake_ok /\
    (exists pre, non_nul (read_results l) = pre ++ replicate 5 BOOTMODE_MARKER) /\
    (exists l1 a l2, l = l1 ++ [EvWrite a (Ok tt)] ++ l2 ++ [EvFlushInput (Ok tt)] /\
       Forall (fun b => b = 0xAA) a /\ a <> [])).
Proof.
  unfold handshake. emits_step.
  eapply emits_weaken; [apply (emits_while hs_inv) with (Q := fun r l => forall h, r = Ok (Rtn h) ->
    h = handshake_ok /\
    (exists pre, non_nul (read_results l) = pre ++ replicate 5 BOOTMODE_MARKER) /\
    (exists l1 a l2, l = l1 ++ [EvWrite a (Ok tt)] ++ l2 ++ [EvFlushInput (Ok tt)] /\
       Forall (fun b => b = 0xAA) a /\ a <> []))|].
  - split; [done|]. by exists [].
  - intros s l0 Hinv. unfold handshake_body. emits_step.
    eapply emits_weaken with (P := fun r l => (r = Ok tt -> l = if flooding s then [EvWrite BURST (Ok tt)] else [])
      /\ read_results l = []).
    { destruct (flooding s); [apply emits_write; intros [[]|?|]; by split|by apply emits_ret]. }
    intros [[]|e|] la [Hla Hra]; try done. specialize (Hla eq_refl). emits_step.
    assert (Hinv' : forall f e, hs_inv (HS f e (counter s)) (l0 ++ la ++ [EvRead (Raise TransportTimeout)])).
    { intros f e. destruct Hinv as [Hc [pre Hpre]]. split; [done|]. exists pre.
      by rewrite !read_results_app, Hra, app_nil_r. }
    repeat emits_step; try done.
    + eapply emits_weaken; [by apply handshake_byte_emits|].
      intros [[s'|s'|h]|e|] lb Hb; try done.
      * destruct Hb as [Hlb Hb]. change (EvRead (Ok a) :: [] ++ lb) with ([EvRead (Ok a)] ++ lb). specialize (Hb (la ++ [EvRead (Ok a)])).
        rewrite read_results_app, Hra in Hb. specialize (Hb eq_refl).
        destruct Hb as [Hc [pre Hpre]]. split; [done|]. exists pre. rewrite <- Hpre.
        rewrite !read_results_app, Hlb. by rewrite !app_nil_r.
      * destruct Hb as (-> & Hlb & Hb & l' & -> & Hfl).
        change (EvRead (Ok a) :: [] ++ l' ++ [EvFlushInput (Ok ())]) with ([EvRead (Ok a)] ++ l' ++ [EvFlushInput (Ok tt)]). intros h [= <-]. split; [done|]. split.
        -- destruct (Hb (la ++ [EvRead (Ok a)])) as [pre Hpre]; [by rewrite read_results_app, Hra|].
           exists pre. etransitivity; [|exact Hpre].
           change (EvRead (Ok a) :: l' ++ [EvFlushInput (Ok ())]) with ([EvRead (Ok a)] ++ l' ++ [EvFlushInput (Ok tt)]).
           rewrite !read_results_app in *. by rewrite Hlb, !app_nil_r.
        -- destruct (flooding s).
           ++ subst la. exists l0, BURST, ([EvRead (Ok a)] ++ l'). rewrite <- !app_assoc. split; [done|].
              split; [|done]. by apply Forall_replicate.
           ++ subst la. rewrite (Hfl eq_refl). exists (l0 ++ [EvRead (Ok a)]), BOOTMODE_ACK, [].
              rewrite <- !app_assoc. split; [done|]. split; [by constructor|done].
    + unfold is_TransportTimeout. case_bool_decide; [|done]. subst e. repeat emits_step. cbn. apply Hinv'.
  - done.
  - intros [[s|s|h]|e|] l Hl; try done; [..|apply emits_ret; rewrite app_nil_r; intros h' [= <-]; by apply Hl].
    all: by apply emits_diverge.
Qed.

(** The handshake over any transport, in both modes: it reports boot mode
    only after the last five bytes read, NUL bytes apart, were all the 0x20
    marker, and then a non-empty run of 0xAA bytes has been written and the
    input flushed. *)
Theorem handshake_sound {T Ob} `{Transport T} fuel cont (w : world T Ob) h w' :
  handshake fuel cont w = (Ok h, w') ->
  exists l, log w' = log w ++ l /\ hs_success h = true /\
    (exists pre, non_nul (read_results l) = pre ++ replicate 5 BOOTMODE_MARKER) /\
    (exists l1 a l2, l = l1 ++ [EvWrite a (Ok tt)] ++ l2 ++ [EvFlushInput (Ok tt)] /\
       Forall (fun b => b = 0xAA) a /\ a <> []).
Proof.
  intros Hr. destruct (handshake_emits fuel cont w) as (l & Hl & HQ). rewrite Hr in Hl, HQ. cbn in Hl, HQ.
  destruct (HQ h eq_refl) as (-> & H1 & H2). by exists l.
Qed.

Theorem handshake_sound_witness :
  let w := World (Mock [7; 0x20; 0x20; 0; 0x20; 0x20; 0x20; 9] [] false true 0) tt [] in
  let r := handshake 20 false w in
  r = (Ok handshake_ok, snd r) /\
  exists l, log (snd r) = log w ++ l /\ hs_success handshake_ok = true /\
    (exists pre, non_nul (read_results l) = pre ++ replicate 5 BOOTMODE_MARKER) /\
    (exists l1 a l2, l = l1 ++ [EvWrite a (Ok tt)] ++ l2 ++ [EvFlushInput (Ok tt)] /\
       Forall (fun b => b = 0xAA) a /\ a <> []).
Proof.
  intros w r. assert (H : r = (Ok handshake_ok, snd r)) by (vm_compute; reflexivity).
  split; [exact H|]. exact (handshake_sound 20 false w handshake_ok (snd r) H).
Defined.

(** ** The handshake on the mock transport *)

Definition next_counter (c b : Z) : Z := if b =? 0 then c else if b =? 0x20 then c + 1 else 0.

Lemma handshake_turn {Ob} (s : hs_state) b rx tx fc ck (o : Ob) lg :
  counter s < 5 ->
  exists s' tx' lg', handshake_body s (World (Mock (b :: rx) tx false fc ck) o lg) =
    (if 5 <=? next_counter (counter s) b
     then (Ok (Rtn handshake_ok), World (Mock (if fc then [] else rx) tx' false fc ck) o lg')
     else (Ok (Next s'), World (Mock rx tx' false fc ck) o lg')) /\
  (next_counter (counter s) b < 5 -> counter s' = next_counter (counter s) b).
Proof.
  intros Hc5.
  assert (Hread : forall tx tmo, Mock_read 1 tmo (Mock (b :: rx) tx false fc ck) = (Ok [b], Mock rx tx false fc ck)).
  { intros. rewrite Mock_read_some by done. cbn [rx_buffer]. rewrite len_cons. pose proof (len_nonneg rx).
    by replace (Z.to_nat (Z.min 1 (1 + len rx))) with 1%nat by lia. }
  unfold handshake_body, bind, try_except, next_counter.
  assert (Hw : exists tx' lg', (if flooding s then write BURST else ret tt) (World (Mock (b :: rx) tx false fc ck) o lg)
    = (Ok tt, World (Mock (b :: rx) tx' false fc ck) o lg')).
  { destruct (flooding s); cbn; eauto. }
  destruct Hw as (tx' & lg' & Hw). rewrite Hw. unfold read. cbn. rewrite Hread. cbn.
  unfold handshake_byte, beq, BOOTMODE_MARKER.
  destruct (decide (b = 0)) as [->|Hb].
  { cbn. replace (5 <=? counter s) with false by (symmetry; apply Z.leb_gt; lia). by eexists s, tx', _. }
  rewrite (bool_decide_eq_false_2 ([b] = [0])) by congruence.
  replace (b =? 0) with false by (symmetry; by apply Z.eqb_neq).
  destruct (decide (b = 0x20)) as [->|Hm].
  - rewrite bool_decide_eq_true_2 by done. cbn. change BOOTMODE_COUNT with 5.
    destruct (5 <=? counter s + 1) eqn:E.
    + unfold bind. destruct (flooding s), fc; cbn; eexists s, _, _; (split; [reflexivity|b2p; lia]).
    + by eexists (HS _ _ _), _, _.
  - rewrite bool_decide_eq_false_2 by congruence.
    replace (b =? 32) with false by (symmetry; by apply Z.eqb_neq). cbn. by eexists (HS _ _ _), _, _.
Qed.

Lemma next_counter_bound c b : 0 <= c -> 0 <= next_counter c b.
Proof. unfold next_counter. repeat case_match; lia. Qed.

Lemma handshake_markers {Ob} k : forall s fuel rest tx fc ck (o : Ob) lg,
  0 <= counter s < 5 -> 5 <= Z.of_nat k + counter s -> (k < fuel)%nat ->
  exists tx' rx' lg', while fuel handshake_body s (World (Mock (replicate k 0x20 ++ rest) tx false fc ck) o lg)
    = (Ok (Rtn handshake_ok), World (Mock rx' tx' false fc ck) o lg').
Proof.
  induction k as [|k IHk]; intros s fuel rest tx fc ck o lg Hc Hk Hf; [lia|]. destruct fuel as [|fuel]; [lia|].
  cbn [app replicate while]. unfold bind at 1.
  destruct (handshake_turn s 0x20 (replicate k 0x20 ++ rest) tx fc ck o lg) as (s' & tx' & lg' & -> & Hs'); [lia|].
  change (next_counter (counter s) 32) with (counter s + 1) in *.
  destruct (5 <=? counter s + 1) eqn:E; b2p; [eauto|].
  specialize (Hs' ltac:(lia)). apply (IHk s' fuel rest); lia.
Qed.

(** Five markers somewhere in the input end the loop, wherever it stands. *)
Lemma handshake_loop {Ob} (junk : bytes) : forall s fuel rest tx fc ck (o : Ob) lg,
  0 <= counter s < 5 -> (length junk + 5 < fuel)%nat ->
  exists tx' rx' lg', while fuel handshake_body s (World (Mock (junk ++ replicate 5 0x20 ++ rest) tx false fc ck) o lg)
    = (Ok (Rtn handshake_ok), World (Mock rx' tx' false fc ck) o lg').
Proof.
  induction junk as [|b junk IH]; intros s fuel rest tx fc ck o lg Hc Hf.
  - apply handshake_markers; cbn in *; lia.
  - destruct fuel as [|fuel]; [lia|]. cbn [app while]. unfold bind at 1.
    destruct (handshake_turn s b (junk ++ replicate 5 0x20 ++ rest) tx fc ck o lg) as (s' & tx' & lg' & -> & Hs'); [lia|].
    destruct (5 <=? next_counter (counter s) b) eqn:E; b2p; [eauto|].
    specialize (Hs' ltac:(lia)). pose proof (next_counter_bound (counter s) b).
    apply (IH s' fuel rest); cbn in *; lia.
Qed.

(** The handshake finds the boot ROM: on a line that delivers any noise
    and then five marker bytes in a row, in either mode, it returns success
    (with more fuel than bytes up to there), without waiting. *)
Theorem handshake_detects {Ob} fuel cont junk rest (w : world MockTransport Ob) :
  m_closed (tr w) = false -> rx_buffer (tr w) = junk ++ replicate 5 0x20 ++ rest ->
  (length junk + 5 < fuel)%nat ->
  exists w', handshake fuel cont w = (Ok handshake_ok, w') /\ clock (tr w') = clock (tr w).
Proof.
  intros Hc Hrx Hf. destruct w as [[rx tx cl fc ck] o lg]. cbn [tr rx_buffer m_closed] in Hc, Hrx. subst.
  destruct (handshake_loop junk (HS cont false 0) fuel rest tx fc ck o lg) as (tx' & rx' & lg' & Hw); [cbn; lia|lia|].
  unfold handshake, bind. rewrite Hw. eexists. by split.
Qed.

Theorem handshake_detects_witness :
  let w := World (Mock ([1; 0x20; 2] ++ replicate 5 0x20 ++ [3]) [] false true 0) tt [] in
  exists w', handshake 20 true w = (Ok handshake_ok, w') /\ clock (tr w') = clock (tr w).
Proof.
  intros w. apply (handshake_detects 20 true [1; 0x20; 2] [3] w); [reflexivity|reflexivity|cbn; lia].
Defined.

(** ** A device that acknowledges *)

(** It keeps the buffers it receives and answers each with one ACK byte. *)
Record AckDevice := AckDev { ad_pending : bool; ad_frames : list bytes; ad_clock : Z }.

Definition ad_read (n : Z) (tmo : option Z) (d : AckDevice) : res bytes * AckDevice :=
  if ad_pending d && (0 <? n) then (Ok ACK_BYTE, AckDev false (ad_frames d) (ad_clock d))
  else (Raise TransportTimeout, AckDev (ad_pending d) (ad_frames d) (ad_clock d + Z.max 0 (default 0 tmo))).

#[export] Instance AckDevice_Transport : Transport AckDevice := {|
  t_read := ad_read;
  t_write d a := (Ok tt, AckDev true (ad_frames a ++ [d]) (ad_clock a));
  t_flush_input a := (Ok tt, AckDev false (ad_frames a) (ad_clock a));
  t_flush_output a := (Ok tt, a);
  t_bytes_waiting a := (Ok (if ad_pending a then 1 else 0), a);
  t_unread d a := (Raise NotImplementedError, a);
  t_set_baudrate b a := (Raise NotImplementedError, a);
  t_monotonic a := (ad_clock a, a);
  t_sleep d a := AckDev (ad_pending a) (ad_frames a) (ad_clock a + Z.max 0 d)
|}.

(** What the uploads ask of a boot ROM: in its idle state it acknowledges each
    frame of its kind with one byte and keeps it. *)
Class AckingDevice (T : Type) `{Transport T} := {
  dev_idle : T -> Prop;
  dev_frames : T -> list bytes;
  dev_takes : bytes -> Prop;
  dev_ack f t : dev_idle t -> dev_takes f ->
    exists t1 t2 c, t_write f t = (Ok tt, t1) /\ t_monotonic t1 = (c, t1) /\
      (forall tmo, t_read 1 tmo t1 = (Ok ACK_BYTE, t2)) /\
      dev_idle t2 /\ dev_frames t2 = dev_frames t ++ [f]
}.

#[export] Instance AckDevice_Acking : AckingDevice AckDevice.
Proof.
  refine {| dev_idle d := ad_pending d = false; dev_frames := ad_frames; dev_takes _ := True |}.
  intros f [pn fr ck] Hi _. cbn in Hi. subst pn. do 3 eexists. by split_and!.
Defined.

Section AcceptsAny.
Context {T Ob : Type} `{AckingDevice T}.

(** [accepts m a out]: on an acknowledging device that is idle, [m] returns
    [a], the device receives exactly [out] and is idle again, and the fields
    of the object are as before. *)
Definition accepts {A} (m : M T Ob A) (a : A) (out : list bytes) : Prop :=
  forall w, dev_idle (tr w) -> exists w', m w = (Ok a, w') /\ (dev_idle (tr w') /\ obj w' = obj w) /\
    dev_frames (tr w') = dev_frames (tr w) ++ out.

Lemma accepts_bind {A B} (m : M T Ob A) (f : A -> M T Ob B) a b o1 o2 :
  accepts m a o1 -> accepts (f a) b o2 -> accepts (bind m f) b (o1 ++ o2).
Proof.
  intros Hm Hf w Hw. destruct (Hm w Hw) as (w1 & E1 & [Hw1 Hob1] & Ho1).
  destruct (Hf w1 Hw1) as (w2 & E2 & [Hw2 Hob2] & Ho2). exists w2. unfold bind. rewrite E1.
  split; [done|]. split; [by rewrite Hob2|]. by rewrite Ho2, Ho1, app_assoc.
Qed.

Lemma accepts_ret {A} (a : A) : accepts (ret a) a [].
Proof. intros w Hw. exists w. by rewrite app_nil_r. Qed.

Lemma accepts_lift {A} (r : res A) a : r = Ok a -> accepts (lift r) a [].
Proof. intros -> w Hw. exists w. by rewrite app_nil_r. Qed.

(** Steps that send nothing. *)
Lemma accepts_bind0 {A B} (m : M T Ob A) (f : A -> M T Ob B) a b o :
  accepts m a [] -> accepts (f a) b o -> accepts (bind m f) b o.
Proof. intros. by apply (accepts_bind m f a b [] o). Qed.

End AcceptsAny.

Section Accepts.
Context {Ob : Type}.
Variable fuel : nat.
Hypothesis Hfuel : (0 < fuel)%nat.
Abbreviation accepts := (accepts (T := AckDevice) (Ob := Ob)).

Lemma accepts_frame f retries tmo :
  0 < retries -> 0 < tmo -> accepts (send_frame_with_retry fuel f retries tmo) true [f].
Proof.
  intros Hr Ht [[pn fr ck] o lg] Hw. cbn in Hw. subst pn. unfold send_frame_with_retry, range.
  destruct (Z.to_nat retries) as [|n] eqn:En; [lia|]. cbn [seq fmap list_fmap foreach].
  destruct fuel as [|n']; [lia|].
  unfold bind at 1. unfold bind at 1. unfold attempt_body at 1, try_except. unfold bind. cbn.
  unfold bind, ack_body at 1, try_except. cbn.
  replace (ck + tmo - ck <=? 0) with false by (symmetry; apply Z.leb_gt; lia). cbn.
  eexists. split; [reflexivity|]. done.
Qed.

Lemma accepts_rehandshake : accepts (rehandshake fuel) true [].
Proof.
  intros [[pn fr ck] o lg] Hw. cbn in Hw. subst pn. unfold rehandshake, bind. cbn.
  destruct fuel as [|n']; [lia|]. cbn [while]. unfold rehandshake_body at 1, bind, try_except. cbn.
  replace (ck <? ck + 5000000) with true by (symmetry; apply Z.ltb_lt; lia). cbn.
  eexists. split; [reflexivity|]. cbn. by rewrite app_nil_r.
Qed.

Lemma accepts_start profile addr head :
  ddr_step_address profile = Ok addr ->
  HeadFrame_encode {| hf_length := 64; hf_address := addr |} = Ok head ->
  accepts (send_frame_for_start fuel profile) true [BOOTMODE_ACK ++ head].
Proof.
  intros Ha Hh [[pn fr ck] o lg] Hw. cbn in Hw. subst pn. unfold send_frame_for_start. rewrite Ha.
  unfold bind at 1, lift. rewrite Hh. unfold bind, monotonic. cbn.
  destruct fuel as [|n']; [lia|]. cbn [while]. unfold send_frame_for_start_body at 1, bind, try_except. cbn.
  replace (ck <? ck + 30000000) with true by (symmetry; apply Z.ltb_lt; lia). cbn.
  eexists. split; [reflexivity|]. done.
Qed.

Lemma accepts_head size addr head :
  HeadFrame_encode {| hf_length := size; hf_address := addr |} = Ok head ->
  accepts (send_head fuel size addr) true [head].
Proof. intros Hh. eapply accepts_bind0; [by apply accepts_lift|]. by apply accepts_frame. Qed.

Lemma accepts_step lbl size addr data head :
  HeadFrame_encode {| hf_length := size; hf_address := addr |} = Ok head ->
  accepts (send_step fuel lbl size addr data) None
    [head; data_frame (0, data); TailFrame_encode {| tf_seq := 2 |}].
Proof.
  intros Hh. apply (accepts_bind _ _ true None [head]); [by apply accepts_head|]. cbn [negb].
  eapply (accepts_bind _ _ true None [_] [_]); [by apply accepts_frame|]. cbn [negb].
  eapply (accepts_bind _ _ true None [_] []); [by apply accepts_frame|apply accepts_ret].
Qed.

Lemma accepts_chunks chunks : accepts (foreach chunks (send_chunk_body fuel) tt) (Next tt) (data_frame <$> chunks).
Proof.
  induction chunks as [|ic chunks IH]; [apply accepts_ret|].
  change (data_frame <$> ic :: chunks) with ([data_frame ic] ++ (data_frame <$> chunks)).
  apply (accepts_bind _ _ (Next tt)); [|done].
  eapply (accepts_bind _ _ true _ [_] []); [by apply accepts_frame|apply accepts_ret].
Qed.

Lemma accepts_image image addr head :
  HeadFrame_encode {| hf_length := len image; hf_address := addr |} = Ok head ->
  accepts (send_image fuel image addr) true (head :: image_frames image ++ [tail_frame image]).
Proof.
  intros Hh. eapply accepts_bind0; [by apply accepts_lift|].
  apply (accepts_bind _ _ true true [head]); [by apply accepts_frame|]. cbn [negb].
  eapply (accepts_bind _ _ (Next tt)); [apply accepts_chunks|].
  eapply (accepts_bind _ _ true _ [_] []); [by apply accepts_frame|apply accepts_ret].
Qed.

(** What a UART profile has to provide for one firmware. *)
Record ready_profile (p : SoCProfile) (firmware : bytes) (ov : option bytes) := {
  rp_addr : Z; rp_pre : option bytes; rp_ddr : bytes; rp_pre1 : option bytes;
  rp_size : Z; rp_data : bytes; rp_saddr : Z; rp_uaddr : Z;
  rp_h64 : bytes; rp_h1 : bytes; rp_hs : bytes; rp_hu : bytes;
  rp_addr_ok : ddr_step_address p = Ok rp_addr;
  rp_pre_ok : prestep_data p = Ok rp_pre;
  rp_ddr_ok : ddr_step_data p = Ok rp_ddr;
  rp_pre1_ok : prestep1_data p = Ok rp_pre1;
  rp_plan_ok : spl_plan firmware p ov = Ok (rp_size, rp_data);
  rp_saddr_ok : spl_address p = Ok rp_saddr;
  rp_uaddr_ok : uboot_address p = Ok rp_uaddr;
  rp_h64_ok : HeadFrame_encode {| hf_length := 64; hf_address := rp_addr |} = Ok rp_h64;
  rp_h1_ok : HeadFrame_encode {| hf_length := len (default [] rp_pre1); hf_address := rp_addr |} = Ok rp_h1;
  rp_hs_ok : HeadFrame_encode {| hf_length := rp_size; hf_address := rp_saddr |} = Ok rp_hs;
  rp_hu_ok : HeadFrame_encode {| hf_length := len (zero_long_ff_runs firmware 12);
                                 hf_address := rp_uaddr |} = Ok rp_hu
}.

(** The buffers of the DDR stage. *)
Definition step_frames (head data : bytes) : list bytes :=
  [head; data_frame (0, data); TailFrame_encode {| tf_seq := 2 |}].
Definition blast_frames {p fw ov} (r : ready_profile p fw ov) : list bytes :=
  match rp_pre _ _ _ r with Some _ => [BOOTMODE_ACK ++ rp_h64 _ _ _ r] | None => [] end.
Definition ddr_frames {p fw ov} (r : ready_profile p fw ov) : list bytes :=
  blast_frames r ++
  match rp_pre _ _ _ r with Some d => step_frames (rp_h64 _ _ _ r) d | None => [] end ++
  step_frames (rp_h64 _ _ _ r) (rp_ddr _ _ _ r) ++
  match rp_pre1 _ _ _ r with Some d => step_frames (rp_h1 _ _ _ r) d | None => [] end.
Definition upload_frames (head image : bytes) : list bytes :=
  head :: image_frames image ++ [tail_frame image].

Lemma accepts_ddr p fw ov (r : ready_profile p fw ov) :
  accepts (send_ddr_step fuel p) None (ddr_frames r).
Proof.
  destruct r as [addr pre ddr pre1 size data sa ua h64 h1 hs hu Ha Hp Hd Hp1 Hpl Hsa Hua H64 H1 Hs Hu].
  unfold send_ddr_step, ddr_frames, blast_frames. cbn [rp_pre rp_h64 rp_ddr rp_pre1 rp_h1].
  rewrite Ha, Hp. eapply accepts_bind0; [by apply accepts_lift|]. eapply accepts_bind0; [by apply accepts_lift|].
  rewrite app_assoc. eapply (accepts_bind _ _ None).
  { destruct pre as [d|]; [|apply accepts_ret]. unfold send_prestep0.
    eapply (accepts_bind _ _ true); [by apply (accepts_start p addr)|]. cbn [negb]. by apply accepts_step. }
  rewrite Hd. eapply accepts_bind0; [by apply accepts_lift|].
  eapply (accepts_bind _ _ None); [by apply accepts_step|].
  rewrite Hp1. eapply accepts_bind0; [by apply accepts_lift|].
  destruct pre1; [by apply accepts_step|apply accepts_ret].
Qed.

Lemma accepts_spl p fw ov (r : ready_profile p fw ov) :
  accepts (send_spl fuel fw p ov) true
    (upload_frames (rp_hs _ _ _ r) (zero_long_ff_runs (rp_data _ _ _ r) 12)).
Proof.
  destruct r as [addr pre ddr pre1 size data sa ua h64 h1 hs hu Ha Hp Hd Hp1 Hpl Hsa Hua H64 H1 Hs Hu].
  cbn [rp_hs rp_data]. unfold send_spl, upload_frames. rewrite Hpl, Hsa.
  eapply accepts_bind0; [by apply accepts_lift|]. eapply accepts_bind0; [by apply accepts_lift|].
  apply (accepts_bind _ _ true true [hs]); [by apply accepts_head|]. cbn [negb].
  eapply (accepts_bind _ _ (Next tt)); [apply accepts_chunks|].
  eapply (accepts_bind _ _ true _ [_] []); [by apply accepts_frame|].
  eapply accepts_bind0; [apply accepts_ret|].
  intros w Hw. eexists. split; [reflexivity|]. cbn. by rewrite app_nil_r.
Qed.

End Accepts.

Lemma send_firmware_accepts {Ob} fuel p firmware ov (r : ready_profile p firmware ov) :
  (0 < fuel)%nat ->
  accepts (T := AckDevice) (Ob := Ob) (send_firmware fuel (Some p) firmware ov)
    (succeeded [DDR_INIT; SPL; UBOOT; COMPLETE]) (ddr_frames r ++
      upload_frames (rp_hs _ _ _ r) (zero_long_ff_runs (rp_data _ _ _ r) 12) ++
      blast_frames r ++ upload_frames (rp_hu _ _ _ r) (zero_long_ff_runs firmware 12)).
Proof.
  intros Hf. unfold send_firmware. eapply (accepts_bind _ _ None); [by apply accepts_ddr|].
    eapply accepts_bind0; [by apply accepts_rehandshake|].
    eapply (accepts_bind _ _ true); [by apply accepts_spl|]. cbn [negb].
    rewrite <- (app_nil_r (blast_frames r ++ _)).
    eapply (accepts_bind _ _ true); [|apply accepts_ret].
    destruct r as [addr pre ddr pre1 size data sa ua h64 h1 hs hu Ha Hp Hd Hp1 Hpl Hsa Hua H64 H1 Hs Hu].
    unfold send_uboot, blast_frames. cbn [rp_pre rp_h64 rp_hu]. rewrite Hp.
    eapply accepts_bind0; [by apply accepts_lift|].
    eapply (accepts_bind _ _ true).
    { destruct pre; [by apply (accepts_start fuel Hf p addr)|].
      eapply (accepts_bind0 _ _ true); [by apply accepts_rehandshake|apply accepts_ret]. }
    cbn [negb]. rewrite Hua. eapply accepts_bind0; [by apply accepts_lift|]. by apply accepts_image.
Qed.

(** C2. Against a device that acknowledges every frame, the whole upload
    succeeds: with a UART profile whose fields are well formed for the
    firmware, [send_firmware] returns success with all its stages, and the
    device has received exactly the frames of the DDR stage, of the SPL and of
    the firmware image, each once and in order. *)
Theorem send_firmware_delivers {Ob} fuel p firmware ov (r : ready_profile p firmware ov)
    (w : world AckDevice Ob) :
  (0 < fuel)%nat -> ad_pending (tr w) = false ->
  exists w', send_firmware fuel (Some p) firmware ov w
      = (Ok (succeeded [DDR_INIT; SPL; UBOOT; COMPLETE]), w') /\
    ad_frames (tr w') = ad_frames (tr w) ++ ddr_frames r ++
      upload_frames (rp_hs _ _ _ r) (zero_long_ff_runs (rp_data _ _ _ r) 12) ++
      blast_frames r ++ upload_frames (rp_hu _ _ _ r) (zero_long_ff_runs firmware 12).
Proof.
  intros Hf Hw. destruct (send_firmware_accepts (Ob := Ob) fuel p firmware ov r Hf w Hw) as (w' & Hr & _ & Ho).
  by exists w'.
Qed.

(** A profile with a PRESTEP0, as on hi3516av200. *)
Definition example_profile : SoCProfile :=
  mkProfile "example" Uart (Some [1; 2]) None (Some [3; 4; 5])
    (Some ["0x04013000"; "0x04010500"; "0x81000000"]%string) (Some ["0x0040"; "0x4F00"]%string)
    (Some ["0x40"; "0x4F00"]%string) None None [] ∅ None.

Definition example_ready : ready_profile example_profile [7; 8; 9] None.
Proof.
  eapply (Build_ready_profile _ _ _ 0x04013000 (Some [1; 2]) [3; 4; 5] None 0x4F00 [7; 8; 9] 0x04010500 0x81000000);
    vm_compute; reflexivity.
Defined.

Theorem send_firmware_delivers_witness :
  let w := World (AckDev false [] 0) tt [] in
  exists w', send_firmware 3 (Some example_profile) [7; 8; 9] None w
      = (Ok (succeeded [DDR_INIT; SPL; UBOOT; COMPLETE]), w') /\
    ad_frames (tr w') = [] ++ ddr_frames example_ready ++
      upload_frames (rp_hs _ _ _ example_ready) (zero_long_ff_runs (rp_data _ _ _ example_ready) 12) ++
      blast_frames example_ready ++ upload_frames (rp_hu _ _ _ example_ready) (zero_long_ff_runs [7; 8; 9] 12).
Proof.
  intros w. apply (send_firmware_delivers 3 example_profile [7; 8; 9] None example_ready w); [lia|reflexivity].
Defined.

Theorem send_firmware_safe_witness :
  let w := World (AckDev false [] 0) tt [] in
  let res := send_firmware 3 (Some example_profile) [7; 8; 9] None w in
  exists p l0 l1 l2 l3 l4 size data saddr uaddr,
    Some example_profile = Some p /\ log (snd res) = [] ++ l0 ++ l1 ++ l2 ++ l3 ++ l4 /\
    stages_completed (succeeded [DDR_INIT; SPL; UBOOT; COMPLETE]) = [DDR_INIT; SPL; UBOOT; COMPLETE] /\
    ddr_done p l0 /\ attempts BOOTMODE_ACK l1 /\
    spl_plan [7; 8; 9] p None = Ok (size, data) /\ spl_address p = Ok saddr /\
    uploaded (zero_long_ff_runs data 12) size saddr l2 /\
    uboot_address p = Ok uaddr /\
    uploaded (zero_long_ff_runs [7; 8; 9] 12) (len (zero_long_ff_runs [7; 8; 9] 12)) uaddr l4.
Proof.
  intros w res.
  apply (send_firmware_safe 3 (Some example_profile) [7; 8; 9] None w
           (succeeded [DDR_INIT; SPL; UBOOT; COMPLETE]) (snd res)); vm_compute; reflexivity.
Defined.
