(* ===== verification/HisiV500.v ===== *)
(** * The V500 boot protocol

  Models [src/src/defib/protocol/hisilicon_v500.py]: wrapping a payload into a
  V500 boot image, the chip id handshake, the acknowledged frames and
  [send_firmware].  The object's only field, the chip id, is the state of the
  handshake.  Progress callbacks and log messages are left out. *)

From Stdlib Require Import Ascii.
From Stdlib Require String.
From S2P Require Import Prelude Crc Frames Transport Events Profiles HisiStandard.

Definition HANDSHAKE_BURST_FRAMES : nat := 8.
Definition HANDSHAKE_REPLY_LEN : Z := 14.
Definition CHUNK_ACK_TIMEOUT : Z := 4000000.
Definition MAX_NAK_RETRIES : Z := 10.
Definition BOOT_LOAD_ADDR : Z := 0x41000000.
Definition V500_KEY_AREA_LEN : Z := 0x2000.
Definition V500_AUX_AREA_LEN_OFF : Z := 0x400.
Definition V500_BOOT_CODE_LEN_OFF : Z := 0x404.
Definition V500_TOTAL_BOOT_LEN_OFF : Z := 0x408.
Definition V500_BOOT_TAIL_LEN : Z := 0x200.
Definition V500_BOOT_CODE_ALIGN : Z := 0x400.
Definition V500_AGENT_LOAD_ADDR : Z := 0x41007000.

Definition V500_SOCS : list string :=
  ["gk7205v500"; "gk7205v510"; "gk7205v530"; "xm7205v500"; "xm7205v510"; "xm7205v530"]%string.

(** [chip.lower().split(":", 1)[0]] *)
Definition base_chip (chip : string) : string :=
  match split_once ":"%char (lower chip) with Some (a, _) => a | None => lower chip end.

Definition v500_member (chip : string) : option string :=
  let base := base_chip chip in
  if bool_decide (base ∈ V500_SOCS)
  then Some (String.string_of_list_ascii (last_n 4 (String.list_ascii_of_string base))) else None.

Definition v500_matches (chip_name : string) : bool := bool_decide (lower chip_name ∈ V500_SOCS).

(** [struct.pack_into("<I", image, off, v)] *)
Definition pack_into_le4 (image : bytes) (off v : Z) : res bytes :=
  let! b := pack_le 4 v in
  if off + 4 <=? len image
  then Ok (take (Z.to_nat off) image ++ b ++ drop (Z.to_nat (off + 4)) image)
  else Raise StructError.

Definition wrap_v500_payload (donor payload : bytes) (load_addr : Z) : res bytes :=
  if len donor <? V500_TOTAL_BOOT_LEN_OFF + 4 then Raise ValueError else
  let! aux_len := unpack_le 4 donor V500_AUX_AREA_LEN_OFF in
  let code_pos := V500_KEY_AREA_LEN + aux_len in
  if (aux_len =? 0) || negb (aux_len mod V500_BOOT_CODE_ALIGN =? 0) || (len donor <? code_pos)
  then Raise ValueError else
  if negb (BOOT_LOAD_ADDR + code_pos =? load_addr) then Raise ValueError else
  let code := payload ++ brep ((- len payload) mod V500_BOOT_CODE_ALIGN) 0 in
  let image := slice donor 0 code_pos ++ code ++ brep V500_BOOT_TAIL_LEN 0 in
  let! image := pack_into_le4 image V500_BOOT_CODE_LEN_OFF (len code) in
  pack_into_le4 image V500_TOTAL_BOOT_LEN_OFF (len code + V500_BOOT_TAIL_LEN).

(** [buffer.find(b"\xbd\x00")], -1 when absent *)
Fixpoint find_bd00 (i : Z) (l : bytes) : Z :=
  match l with
  | a :: ((b :: _) as l') => if (a =? 0xBD) && (b =? 0) then i else find_bd00 (i + 1) l'
  | _ => -1
  end.

Section V500.
Context {T : Type} `{Transport T}.
Variable fuel : nat.

(** The object: [_chip_id]. *)
Abbreviation M5 := (M T (option Z)).

Definition v500_burst : bytes :=
  concat (replicate HANDSHAKE_BURST_FRAMES (append_crc (V500_HANDSHAKE_MAGIC ++ brep 8 0))).

(** The bytes that arrived; a timeout leaves the buffer as it is. *)
Definition v500_poll (buffer : bytes) : M5 bytes :=
  try_except
    (let* waiting := bytes_waiting in
     if 0 <? waiting then let* d := read waiting (Some 10000) in ret (buffer ++ d) else ret buffer)
    is_TransportTimeout (fun _ => ret buffer).

Definition v500_handshake_body (buffer : bytes) : M5 (ctl bytes HandshakeResult) :=
  let* _ := write v500_burst in
  let* buffer := v500_poll buffer in
  let idx := find_bd00 0 buffer in
  if negb (idx =? -1) && (HANDSHAKE_REPLY_LEN <=? len buffer - idx) then
    let* chip_id := lift (unpack_be 4 (slice buffer (idx + 8) (idx + 12)) 0) in
    let* _ := put_obj (Some chip_id) in
    let* _ := try_except flush_output is_TransportError (fun _ => ret tt) in
    let* _ := sleep 100000 in
    let* _ := flush_input in
    ret (Rtn (mkHandshake true (Some chip_id) None None))
  else if idx =? -1
  then ret (Next (drop (Z.to_nat (Z.max 0 (len buffer - 1))) buffer))
  else ret (Next (drop (Z.to_nat idx) buffer)).

Definition v500_handshake : M5 HandshakeResult :=
  let* c := while fuel v500_handshake_body [] in
  match c with
  | Rtn r => ret r
  | _ => diverge
  end.

End V500.

(** The acknowledged frames; they leave the object alone. *)
Section Frames.
Context {T Ob : Type} `{Transport T}.
Variable fuel : nat.

(** One turn of the wait; state: [retries]. *)
Definition v500_ack_body (data : bytes) (start timeout : Z) (retries : Z) : M T Ob (ctl Z bool) :=
  let* now := monotonic in
  if negb ((now - start <? timeout) && (retries <? MAX_NAK_RETRIES)) then ret (Brk retries) else
  let* response := try_except (let* b := read 1 (Some timeout) in ret (Some b))
                     is_TransportTimeout (fun _ => ret None) in
  match response with
  | None => ret (Rtn false)
  | Some response =>
      if beq response ACK_BYTE then ret (Rtn true)
      else if beq response [0x55] then let* _ := write data in ret (Next (retries + 1))
      else ret (Next retries)
  end.

Definition send_frame_wait_ack (data : bytes) (timeout : Z) : M T Ob bool :=
  let* _ := write data in
  let* start := monotonic in
  let* c := while fuel (v500_ack_body data start timeout) 0 in
  match c with
  | Rtn b => ret b
  | _ => ret false
  end.

Definition v500_head (total address : Z) : res bytes :=
  let! t := pack_be 4 total in
  let! a := pack_be 4 address in
  Ok (append_crc ([0xFE; 0x00; 0xFF; 0x01] ++ t ++ a)).

Definition v500_data (idx : Z) (chunk : bytes) : bytes :=
  append_crc ([0xDA; Z.land idx 0xFF; Z.land (Z.lnot idx) 0xFF] ++ chunk).

Definition v500_tail (count : Z) : bytes :=
  append_crc [0xED; Z.land count 0xFF; Z.land (Z.lnot count) 0xFF].

(** State of the data loop: [idx], [pos], [remaining]; [Rtn tt] when a chunk
    was not acknowledged.  Each turn sends a byte at least. *)
Definition v500_data_body (data : bytes) (s : Z * Z * Z) : M T Ob (ctl (Z * Z * Z) unit) :=
  let '(idx, pos, remaining) := s in
  if negb (0 <? remaining) then ret (Brk s) else
  let idx := idx + 1 in
  let chunk_size := Z.min 1024 remaining in
  let chunk := slice data pos (pos + chunk_size) in
  let* ok := send_frame_wait_ack (v500_data idx chunk) CHUNK_ACK_TIMEOUT in
  if negb ok then ret (Rtn tt) else ret (Next (idx, pos + chunk_size, remaining - chunk_size)).

Definition send_data_to_bootrom (data : bytes) (address : Z) : M T Ob bool :=
  let total := len data in
  let* head := lift (v500_head total address) in
  let* ok := send_frame_wait_ack head CHUNK_ACK_TIMEOUT in
  if negb ok then ret false else
  let* c := while (S (length data)) (v500_data_body data) (0, 0, total) in
  match c with
  | Rtn _ => ret false
  | _ =>
      let count := (total + 1023) / 1024 + 1 in
      let* ok := send_frame_wait_ack (v500_tail count) CHUNK_ACK_TIMEOUT in
      ret ok
  end.

End Frames.

Definition v500_send_firmware {T} `{Transport T} (fuel : nat) (firmware : bytes)
    : M T (option Z) RecoveryResult :=
  let* ok := send_data_to_bootrom fuel (slice firmware 0 8192) 0 in
  if negb ok then ret (failed [] "Failed to send HEAD area") else
  let* aux_len := lift (unpack_le 4 (slice firmware 1024 1028) 0) in
  let aux_data := slice firmware 8192 (8192 + aux_len) in
  let* ok := send_data_to_bootrom fuel aux_data 8192 in
  if negb ok then ret (failed [HEAD_AREA] "Failed to send AUX area") else
  let* _ := sleep 100000 in
  let* ok := send_data_to_bootrom fuel firmware BOOT_LOAD_ADDR in
  if negb ok then ret (failed [HEAD_AREA; AUX_AREA] "Failed to send boot image") else
  ret (succeeded [HEAD_AREA; AUX_AREA; BOOT_IMAGE; COMPLETE]).

(** ** The frames are those of [frames.py] *)

Lemma v500_head_encode total address :
  v500_head total address = HeadFrame_encode {| hf_length := total; hf_address := address |}.
Proof.
  unfold v500_head, HeadFrame_encode. cbn [hf_length hf_address].
  destruct (pack_be 4 total); [|done..]. cbn. by destruct (pack_be 4 address).
Qed.

Lemma v500_data_encode idx chunk :
  v500_data (idx + 1) chunk = data_frame (idx, chunk).
Proof. reflexivity. Qed.

Lemma v500_tail_encode (data : bytes) :
  v500_tail ((len data + 1023) / 1024 + 1) = tail_frame data.
Proof.
  unfold tail_frame, v500_tail, chunk_data.
  replace (len (pieces MAX_DATA_LEN data)) with ((len data + 1023) / 1024); [reflexivity|].
  unfold len at 2. rewrite pieces_length. change MAX_DATA_LEN with 1024.
  rewrite Z2Nat.id by (apply Z.div_pos; pose proof (len_nonneg data); lia). f_equal. lia.
Qed.

(** ** Traces over any transport *)

Section Trace.
Context {T Ob : Type} `{Transport T}.
Variable fuel : nat.

(** [f] was written some times, and nothing else since. *)
Definition sent (f : bytes) (l : list event) : Prop :=
  exists l1 l2 n, l = l1 ++ [EvWrite f (Ok tt)] ++ l2 /\ writes l1 = replicate n f /\ writes l2 = [].

Lemma sent_quiet f l l' : sent f l -> writes l' = [] -> sent f (l ++ l').
Proof.
  intros (l1 & l2 & n & -> & H1 & H2) Hl. exists l1, (l2 ++ l'), n. rewrite <- !app_assoc.
  split; [done|]. split; [done|]. by rewrite writes_app, H2.
Qed.

Lemma sent_attempts f l : sent f l -> attempts f l.
Proof.
  intros (l1 & l2 & n & -> & H1 & H2). exists (n + 1)%nat. rewrite !writes_app, H1, H2, app_nil_r.
  by rewrite replicate_add.
Qed.

Lemma sent_again f l l' : sent f l -> writes l' = [] -> sent f (l ++ l' ++ [EvWrite f (Ok tt)]).
Proof.
  intros Hs Hl. destruct (sent_attempts f l Hs) as [n Hn]. exists (l ++ l'), [], n.
  rewrite <- app_assoc. split; [done|]. by rewrite writes_app, Hn, Hl, app_nil_r.
Qed.

Lemma sent_acked f l : sent f l -> acked f (l ++ [EvRead (Ok ACK_BYTE)]).
Proof. intros (l1 & l2 & n & -> & H1 & H2). exists l1, l2, n. by rewrite <- !app_assoc. Qed.

Definition first_write (f : bytes) : list event := [EvWrite f (Ok tt)].
#[local] Arguments first_write : simpl never.

Lemma wait_loop_emits f start tmo k0 :
  emits (T := T) (Ob := Ob) (while fuel (v500_ack_body f start tmo) k0) (fun r l =>
    attempts f (first_write f ++ l) /\ (r = Ok (Rtn true) -> acked f (first_write f ++ l))).
Proof.
  apply (emits_while (fun _ l => sent f (first_write f ++ l))).
  - by exists [], [], 0%nat.
  - intros k l0 H0. unfold v500_ack_body.
    assert (Hn : forall l, writes l = [] -> sent f (first_write f ++ l0 ++ l)).
    { intros l Hl. rewrite app_assoc. by apply sent_quiet. }
    assert (Hw : forall l n, writes l = replicate n f -> attempts f (first_write f ++ l0 ++ l)).
    { intros l n Hl. rewrite app_assoc. apply attempts_app; [by apply sent_attempts|]. by exists n. }
    repeat emits_step; rewrite ?app_nil_r; try (split; [by eapply (Hw _ 0%nat)|done]); try by apply Hn.
    + split; [by apply sent_attempts|done].
    + b2p. subst. split; [by eapply (Hw _ 0%nat)|]. intros _. rewrite app_assoc. by apply sent_acked.
    + rewrite app_assoc. by apply (sent_again f _ [EvRead (Ok a)]).
    + split; [by eapply (Hw _ 1%nat)|done].
    + split; [by eapply (Hw _ 1%nat)|done].
    + destruct (is_TransportTimeout e); repeat emits_step; (split; [by eapply (Hw _ 0%nat)|done]).
  - intros k l0 H0. split; [by apply sent_attempts|done].
Qed.

Lemma wait_ack_emits f tmo :
  emits (T := T) (Ob := Ob) (send_frame_wait_ack fuel f tmo) (fun r l =>
    attempts f l /\ (r = Ok true -> acked f l)).
Proof.
  unfold send_frame_wait_ack. emits_step. emits_step; [|by split; [exists 1%nat|]..].
  emits_step. emits_step. emits_step. eapply emits_weaken; [apply wait_loop_emits|].
  intros [c|e|] l [Ha Hr]; cbn; [|by split..].
  destruct c as [k|k|b]; apply emits_ret; rewrite app_nil_r; (split; [done|]); try done.
  intros [= ->]. by apply Hr.
Qed.

(** The frames of one area. *)
Definition area_frames (head data : bytes) : list bytes := head :: image_frames data ++ [tail_frame data].

Definition area_sent (data : bytes) (address : Z) (l : list event) : Prop :=
  exists head, HeadFrame_encode {| hf_length := len data; hf_address := address |} = Ok head /\
    acked_all (area_frames head data) l.

Lemma v500_chunks_lookup (data : bytes) i :
  Z.of_nat i * 1024 < len data ->
  image_frames data !! i = Some (v500_data (Z.of_nat i + 1)
    (slice data (Z.of_nat i * 1024) (Z.of_nat i * 1024 + 1024))).
Proof.
  intros Hi. unfold image_frames, enum, chunk_data. rewrite list_lookup_fmap, list_lookup_imap.
  destruct (pieces MAX_DATA_LEN data !! i) as [p|] eqn:Ep; cbn.
  - apply pieces_lookup in Ep as [-> _]; [done|by unfold MAX_DATA_LEN].
  - apply lookup_ge_None in Ep. rewrite pieces_length in Ep. change MAX_DATA_LEN with 1024 in Ep.
    pose proof (Z.div_mod (len data + 1024 - 1) 1024). pose proof (Z.mod_pos_bound (len data + 1024 - 1) 1024). lia.
Qed.

Lemma image_frames_length (data : bytes) : length (image_frames data) = Z.to_nat ((len data + 1024 - 1) / 1024).
Proof. unfold image_frames, enum, chunk_data. by rewrite length_fmap, length_imap, pieces_length. Qed.

Lemma v500_data_emits data :
  emits (T := T) (Ob := Ob) (while (S (length data)) (v500_data_body fuel data) (0, 0, len data)) (fun r l =>
    match r with Ok (Brk _) => acked_all (image_frames data) l | Ok (Next _) => False | _ => True end).
Proof.
  apply (emits_while (fun s l => exists i, fst (fst s) = Z.of_nat i /\
    snd (fst s) = Z.min (Z.of_nat i * 1024) (len data) /\ snd s = len data - snd (fst s) /\
    acked_all (take i (image_frames data)) l)).
  - exists 0%nat. cbn. pose proof (len_nonneg data). split_and!; try lia. by exists [].
  - intros [[idx pos] rem] l0 (i & Hi & Hp & Hr & Ha). cbn in Hi, Hp, Hr. unfold v500_data_body.
    assert (Hlen := image_frames_length data).
    pose proof (Z.div_mod (len data + 1024 - 1) 1024 ltac:(lia)).
    pose proof (Z.mod_pos_bound (len data + 1024 - 1) 1024 ltac:(lia)).
    destruct (negb (0 <? rem)) eqn:E; b2p.
    + apply emits_ret. rewrite app_nil_r. by rewrite take_ge in Ha by lia.
    + emits_step. eapply emits_weaken; [apply wait_ack_emits|].
      rewrite Z.min_l in Hp by lia. pose proof (v500_chunks_lookup data i ltac:(lia)) as Hl.
      subst idx pos rem. rewrite slice_clip by lia.
      intros [[]|e|] l [_ Hok]; try done; cbn [negb]; apply emits_ret; rewrite ?app_nil_r; [|done].
      exists (S i). cbn [fst snd]. split_and!; try lia. erewrite take_S_r by done.
      apply acked_all_app; [done|]. apply acked_all_one. by apply Hok.
  - done.
Qed.

Lemma send_area_emits data address :
  emits (T := T) (Ob := Ob) (send_data_to_bootrom fuel data address) (fun r l => r = Ok true -> area_sent data address l).
Proof.
  unfold send_data_to_bootrom. rewrite v500_head_encode, v500_tail_encode. emits_step. apply emits_lift.
  destruct (HeadFrame_encode _) as [head|e|] eqn:Eh; [|done..].
  emits_step. eapply emits_weaken; [apply wait_ack_emits|].
  intros [[]|e|] l1 [_ H1]; try done; cbn [negb]; [|by apply emits_ret].
  emits_step. eapply emits_weaken; [apply v500_data_emits|]. intros [[s|s|u]|e|] l2 H2; try done; [|by apply emits_ret].
  emits_step. eapply emits_weaken; [apply wait_ack_emits|]. intros [b|e|] l3 [_ H3]; try done.
  apply emits_ret. intros [= ->]. exists head. split; [done|]. cbn [app]. rewrite app_nil_r.
  apply (acked_all_app [head]); [by apply acked_all_one, H1|].
  apply acked_all_app; [done|by apply acked_all_one, H3].
Qed.

End Trace.

(** The log of a successful upload. *)
Definition v500_uploaded (firmware : bytes) (l : list event) : Prop :=
  exists aux_len l1 l2 l3, l = l1 ++ l2 ++ l3 /\
    unpack_le 4 (slice firmware 1024 1028) 0 = Ok aux_len /\
    area_sent (slice firmware 0 8192) 0 l1 /\
    area_sent (slice firmware 8192 (8192 + aux_len)) 8192 l2 /\
    area_sent firmware BOOT_LOAD_ADDR l3.

Lemma v500_send_emits {T} `{Transport T} fuel firmware :
  emits (T := T) (v500_send_firmware fuel firmware) (fun r l => forall r', r = Ok r' ->
    r_success r' = true -> stages_completed r' = [HEAD_AREA; AUX_AREA; BOOT_IMAGE; COMPLETE] /\
    v500_uploaded firmware l).
Proof.
  unfold v500_send_firmware. emits_step. eapply emits_weaken; [apply send_area_emits|].
  intros [[]|e|] l1 H1; try done; cbn [negb]; [|apply emits_ret; by intros r' [= <-]].
  emits_step. apply emits_lift. destruct (unpack_le 4 _ 0) as [al|e|] eqn:Ea; [|done..].
  emits_step. eapply emits_weaken; [apply send_area_emits|].
  intros [[]|e|] l2 H2; try done; cbn [negb]; [|apply emits_ret; by intros r' [= <-]].
  emits_step. emits_step. emits_step. eapply emits_weaken; [apply send_area_emits|].
  intros [[]|e|] l3 H3; try done; cbn [negb]; [|apply emits_ret; by intros r' [= <-]].
  apply emits_ret. intros r' [= <-] _. split; [done|]. exists al, l1, l2, l3. rewrite app_nil_r. cbn [app].
  split_and!; try done; auto.
Qed.

(** The V500 upload over any transport, whatever the boot ROM answers: it
    reports success only if the session's log is the upload of the first 8 KiB
    to address 0, of the aux area whose length the image's parameters give,
    and of the whole image to the load address, where every HEAD, DATA and
    TAIL frame in order was acknowledged before the next one was sent; the
    frames are the ones [frames.py] encodes. *)
Theorem v500_send_safe {T} `{Transport T} fuel firmware (w : world T (option Z)) r w' :
  v500_send_firmware fuel firmware w = (Ok r, w') -> r_success r = true ->
  exists aux_len l1 l2 l3, log w' = log w ++ l1 ++ l2 ++ l3 /\
    stages_completed r = [HEAD_AREA; AUX_AREA; BOOT_IMAGE; COMPLETE] /\
    unpack_le 4 (slice firmware 1024 1028) 0 = Ok aux_len /\
    area_sent (slice firmware 0 8192) 0 l1 /\
    area_sent (slice firmware 8192 (8192 + aux_len)) 8192 l2 /\
    area_sent firmware BOOT_LOAD_ADDR l3.
Proof.
  intros Hrun Hs. destruct (v500_send_emits (T := T) fuel firmware w) as (l & Hl & HQ). rewrite Hrun in Hl, HQ.
  destruct (HQ r eq_refl Hs) as (Hst & al & l1 & l2 & l3 & -> & Hrest). by exists al, l1, l2, l3.
Qed.

(** ** Against a device that acknowledges *)

(** HEAD, DATA and TAIL frames, by their first byte. *)
Definition boot_frame (f : bytes) : Prop := exists b, head f = Some b /\ b ∈ [0xFE; 0xDA; 0xED].

Lemma area_frames_boot head data address :
  HeadFrame_encode {| hf_length := len data; hf_address := address |} = Ok head ->
  Forall boot_frame (area_frames head data).
Proof.
  intros Hh. apply HeadFrame_encode_ok in Hh as (_ & _ & ->). constructor; [by exists 0xFE; split; [|set_solver]|].
  apply Forall_app_2; [|constructor; [by exists 0xED; split; [|set_solver]|done]].
  apply Forall_fmap, Forall_forall. intros ic _. exists 0xDA. split; [done|set_solver].
Qed.

Section Delivers.
Context {T Ob : Type} `{AckingDevice T}.
Variable fuel : nat.
Hypothesis Hfuel : (0 < fuel)%nat.
Hypothesis Htakes : forall f, boot_frame f -> dev_takes f.
Abbreviation accepts := (accepts (T := T) (Ob := Ob)).

Lemma accepts_wait_ack f : boot_frame f -> accepts (send_frame_wait_ack fuel f CHUNK_ACK_TIMEOUT) true [f].
Proof using Hfuel Htakes.
  intros Hf [t o lg] Hw. destruct (dev_ack f t Hw (Htakes f Hf)) as (t1 & t2 & c & E1 & E2 & E3 & Hi & Hr).
  unfold send_frame_wait_ack, bind, write. cbn. rewrite E1. unfold monotonic. cbn. rewrite E2.
  destruct fuel as [|n']; [lia|]. cbn [while]. unfold v500_ack_body at 1, bind, try_except, monotonic, read. cbn.
  rewrite E2, Z.sub_diag. cbn. rewrite E3. cbn. eexists. split; [reflexivity|]. done.
Qed.

Definition v500_state (data : bytes) (i : nat) : Z * Z * Z :=
  (Z.of_nat i, Z.min (Z.of_nat i * 1024) (len data), len data - Z.min (Z.of_nat i * 1024) (len data)).

Lemma accepts_v500_data data turns i :
  Forall boot_frame (image_frames data) ->
  (i <= length (image_frames data))%nat -> (length (image_frames data) - i < turns)%nat ->
  accepts (while turns (v500_data_body fuel data) (v500_state data i))
    (Brk (v500_state data (length (image_frames data)))) (drop i (image_frames data)).
Proof using Hfuel Htakes.
  intros Hb. assert (Hlen := image_frames_length data).
  pose proof (Z.div_mod (len data + 1024 - 1) 1024 ltac:(lia)).
  pose proof (Z.mod_pos_bound (len data + 1024 - 1) 1024 ltac:(lia)). pose proof (len_nonneg data).
  revert i. induction turns as [|turns IH]; intros i Hi Ht; [lia|]. cbn [while].
  unfold v500_data_body at 1, v500_state at 1.
  destruct (decide (i = length (image_frames data))) as [->|Hne].
  - rewrite drop_ge by lia. apply (accepts_bind0 _ _ (Brk (v500_state data (length (image_frames data)))));
      [|apply accepts_ret].
    replace (0 <? _) with false by (symmetry; apply Z.ltb_ge; lia). apply accepts_ret.
  - replace (0 <? _) with true by (symmetry; apply Z.ltb_lt; lia). cbn [negb].
    rewrite Z.min_l by lia. rewrite slice_clip by lia.
    pose proof (v500_chunks_lookup data i ltac:(lia)) as Hl. rewrite (drop_S _ _ _ Hl).
    eapply (accepts_bind _ _ (Next (v500_state data (S i))) _ [_]); [|apply IH; lia].
    eapply (accepts_bind _ _ true _ [_] []).
    { apply accepts_wait_ack. by apply (Forall_lookup_1 _ _ _ _ Hb Hl). }
    cbn [negb].
    replace (Z.of_nat i + 1, Z.of_nat i * 1024 + Z.min 1024 (len data - Z.of_nat i * 1024),
      len data - Z.of_nat i * 1024 - Z.min 1024 (len data - Z.of_nat i * 1024)) with (v500_state data (S i)).
    { apply accepts_ret. }
    unfold v500_state. f_equal; [f_equal|]; lia.
Qed.

Lemma accepts_area data address head :
  HeadFrame_encode {| hf_length := len data; hf_address := address |} = Ok head ->
  accepts (send_data_to_bootrom fuel data address) true (area_frames head data).
Proof using Hfuel Htakes.
  intros Hh. pose proof (area_frames_boot _ _ _ Hh) as [Hb1 [Hb2 Hb3]%Forall_app]%Forall_cons.
  apply Forall_inv in Hb3. unfold send_data_to_bootrom. rewrite v500_head_encode, v500_tail_encode.
  eapply accepts_bind0; [by apply accepts_lift|].
  apply (accepts_bind _ _ true true [head]); [by apply accepts_wait_ack|]. cbn [negb].
  assert (Hw : accepts (while (S (length data)) (v500_data_body fuel data) (0, 0, len data))
    (Brk (v500_state data (length (image_frames data)))) (image_frames data)).
  { pose proof (len_nonneg data). pose proof (accepts_v500_data data (S (length data)) 0) as Hd.
    replace (v500_state data 0) with (0, 0, len data) in Hd by (unfold v500_state; f_equal; [f_equal|]; lia).
    apply Hd; [done|lia|]. rewrite image_frames_length. unfold len in *.
    assert ((Z.of_nat (length data) + 1024 - 1) / 1024 < Z.of_nat (length data) + 1)
      by (apply Z.div_lt_upper_bound; lia). lia. }
  eapply accepts_bind; [apply Hw|].
  eapply (accepts_bind _ _ true _ [_] []); [exact (accepts_wait_ack _ Hb3)|apply accepts_ret].
Qed.

End Delivers.

(** Against a boot ROM that acknowledges every frame, the V500 upload of
    an image (long enough to hold its parameters, lengths in 32 bits) succeeds,
    and the boot ROM has received exactly the frames of the three areas, each
    once and in order. *)
Theorem v500_send_delivers fuel firmware aux_len h1 h2 h3 (w : world AckDevice (option Z)) :
  (0 < fuel)%nat -> ad_pending (tr w) = false ->
  unpack_le 4 (slice firmware 1024 1028) 0 = Ok aux_len ->
  HeadFrame_encode {| hf_length := len (slice firmware 0 8192); hf_address := 0 |} = Ok h1 ->
  HeadFrame_encode {| hf_length := len (slice firmware 8192 (8192 + aux_len)); hf_address := 8192 |} = Ok h2 ->
  HeadFrame_encode {| hf_length := len firmware; hf_address := BOOT_LOAD_ADDR |} = Ok h3 ->
  exists w', v500_send_firmware fuel firmware w
      = (Ok (succeeded [HEAD_AREA; AUX_AREA; BOOT_IMAGE; COMPLETE]), w') /\
    ad_frames (tr w') = ad_frames (tr w) ++ area_frames h1 (slice firmware 0 8192) ++
      area_frames h2 (slice firmware 8192 (8192 + aux_len)) ++ area_frames h3 firmware.
Proof.
  intros Hf Hw Ha H1 H2 H3.
  assert (Hany : forall f, boot_frame f -> dev_takes (T := AckDevice) f) by done.
  assert (Hacc : accepts (v500_send_firmware fuel firmware)
    (succeeded [HEAD_AREA; AUX_AREA; BOOT_IMAGE; COMPLETE])
    (area_frames h1 (slice firmware 0 8192) ++
      area_frames h2 (slice firmware 8192 (8192 + aux_len)) ++ area_frames h3 firmware)).
  { unfold v500_send_firmware. eapply (accepts_bind _ _ true); [by apply (accepts_area fuel Hf Hany)|]. cbn [negb].
    rewrite Ha. eapply accepts_bind0; [by apply accepts_lift|].
    eapply (accepts_bind _ _ true); [by apply (accepts_area fuel Hf Hany)|]. cbn [negb].
    eapply (accepts_bind0 _ _ tt).
    { intros w0 Hw0. eexists. split; [reflexivity|]. cbn. by rewrite app_nil_r. }
    rewrite <- (app_nil_r (area_frames h3 firmware)).
    eapply (accepts_bind _ _ true); [by apply (accepts_area fuel Hf Hany)|apply accepts_ret]. }
  destruct (Hacc w Hw) as (w' & Hr & _ & Ho). by exists w'.
Qed.

(** ** Wrapping a payload *)

Lemma pack_into_ok image off v out :
  pack_into_le4 image off v = Ok out -> 0 <= off ->
  fits 4 v = true /\ len out = len image /\ slice out off (off + 4) = le_bytes 4 v /\
  (forall i, ~ off <= Z.of_nat i < off + 4 -> out !! i = image !! i).
Proof.
  unfold pack_into_le4. intros H Ho. destruct (pack_le 4 v) as [b|e|] eqn:Eb; [|done..].
  apply pack_le_ok in Eb as [Hf Hb]. cbn [res_bind] in H.
  destruct (off + 4 <=? len image) eqn:E; [|done]. b2p. injection H as H. rewrite <- H, <- Hb. unfold len in E.
  assert (Hl4 : length b = 4%nat) by (pose proof (le_bytes_len 4 v); subst b; unfold len in *; lia).
  split; [done|]. split.
  { unfold len. rewrite !length_app, length_take, length_drop, Hl4. lia. }
  split.
  { apply slice_mid; unfold len; rewrite length_take, ?Hl4; lia. }
  intros i Hi. destruct (decide (Z.of_nat i < off)).
  - rewrite lookup_app_l by (rewrite length_take; lia). by rewrite lookup_take_lt by lia.
  - rewrite lookup_app_r by (rewrite length_take; lia). rewrite lookup_app_r by (rewrite length_take, Hl4; lia).
    rewrite lookup_drop, length_take, Hl4. f_equal. lia.
Qed.

(** [wrap_v500_payload], whenever it accepts a donor: the image is the
    donor up to its boot code, except for the two length fields, then the
    payload padded with zeros to 1 KiB, then a 512 byte tail; both length
    fields read back as the padded code length and that plus the tail; and the
    payload lies at the offset where the boot ROM will run it, at [load_addr]. *)
Theorem wrap_v500_payload_spec donor payload load_addr image :
  is_bytes donor -> wrap_v500_payload donor payload load_addr = Ok image ->
  exists aux_len pad, unpack_le 4 donor V500_AUX_AREA_LEN_OFF = Ok aux_len /\
    let code_pos := V500_KEY_AREA_LEN + aux_len in
    let code := payload ++ brep pad 0 in
    0 <= pad < 1024 /\ len code mod 1024 = 0 /\
    BOOT_LOAD_ADDR + code_pos = load_addr /\ code_pos <= len donor /\
    len image = code_pos + len code + 512 /\
    slice image code_pos (code_pos + len payload) = payload /\
    unpack_le 4 image V500_BOOT_CODE_LEN_OFF = Ok (len code) /\
    unpack_le 4 image V500_TOTAL_BOOT_LEN_OFF = Ok (len code + 512) /\
    (forall i, Z.of_nat i < code_pos -> ~ 0x404 <= Z.of_nat i < 0x40C -> image !! i = donor !! i).
Proof.
  unfold wrap_v500_payload. intros Hb H. destruct (len donor <? _) eqn:E1; [done|]. b2p.
  destruct (unpack_le 4 donor V500_AUX_AREA_LEN_OFF) as [aux|e|] eqn:Ea; [|done..]. cbn [res_bind] in H.
  destruct (_ || _ || _) eqn:E2; [done|]. destruct (negb (BOOT_LOAD_ADDR + _ =? load_addr)) eqn:E3; [done|]. b2p.
  unfold V500_KEY_AREA_LEN, V500_BOOT_CODE_ALIGN, V500_BOOT_TAIL_LEN, V500_BOOT_CODE_LEN_OFF,
    V500_TOTAL_BOOT_LEN_OFF in *.
  set (pad := (- len payload) mod 1024) in *. set (code := payload ++ brep pad 0) in *.
  assert (Hpad : 0 <= pad < 1024) by (apply Z.mod_pos_bound; lia).
  assert (Hcl : len code = len payload + pad) by (unfold code; rewrite len_app, len_brep; lia).
  assert (Haux : 0 <= aux) by (by eapply (unpack_le_nonneg 4 donor)).
  set (img0 := slice donor 0 (0x2000 + aux) ++ code ++ brep 512 0) in *.
  assert (Hs0 : len (slice donor 0 (0x2000 + aux)) = 0x2000 + aux) by (rewrite len_slice by lia; lia).
  pose proof (len_nonneg payload).
  assert (Hl0 : len img0 = 0x2000 + aux + len code + 512).
  { unfold img0. rewrite !len_app, Hs0, len_brep by lia. lia. }
  destruct (pack_into_le4 img0 0x404 (len code)) as [img1|e|] eqn:E4; [|done..]. cbn [res_bind] in H.
  apply pack_into_ok in E4 as (Hf1 & Hl1 & Hv1 & Hk1); [|lia]. apply pack_into_ok in H as (Hf2 & Hl2 & Hv2 & Hk2); [|lia].
  assert (Hsame : forall i j, 0 <= i -> 0x40C <= i -> slice image i j = slice img0 i j).
  { intros i j Hi Hi2. unfold slice. f_equal. apply list_eq. intros k. rewrite !lookup_drop.
    rewrite Hk2, Hk1 by lia. done. }
  exists aux, pad. split; [done|]. cbn zeta. fold code. split; [done|]. split.
  { rewrite Hcl. unfold pad. rewrite Zplus_mod_idemp_r. by replace (len payload + - len payload) with 0 by lia. }
  split; [done|]. split; [lia|]. split; [lia|]. split.
  { rewrite Hsame by lia. unfold img0, code. rewrite <- app_assoc. apply slice_mid; lia. }
  assert (Hv1' : slice image 0x404 0x408 = le_bytes 4 (len code)).
  { rewrite <- Hv1. apply list_eq. intros k. destruct (decide (k < 4)%nat).
    - unfold slice. rewrite !lookup_take_lt, !lookup_drop by lia. apply Hk2. lia.
    - rewrite !lookup_ge_None_2; [done|..]; unfold slice; rewrite length_take; lia. }
  assert (Hun : forall off v, 0 <= off -> off + 4 <= len image -> fits 4 v = true ->
    slice image off (off + 4) = le_bytes 4 v -> unpack_le 4 image off = Ok v).
  { intros off v Ho Hlen Hf Hsl. unfold unpack_le. replace (off + 4 <=? len image) with true by (symmetry; apply Z.leb_le; lia).
    by rewrite Hsl, le_int_le_bytes. }
  split; [by apply Hun; try lia|]. split; [by apply Hun; try lia|].
  intros i Hi Hn. rewrite Hk2, Hk1 by lia. unfold img0. rewrite lookup_app_l by (unfold len in Hs0; lia).
  unfold slice. rewrite lookup_take_lt, drop_0 by lia. done.
Qed.

(** The smallest donor: an aux area of 1 KiB. *)
Definition example_donor : bytes := brep 0x400 1 ++ [0; 4; 0; 0] ++ brep 0x1FFC 2.

Theorem wrap_v500_payload_spec_witness :
  let image := match wrap_v500_payload example_donor [7; 8; 9] 0x41002400 with Ok i => i | _ => [] end in
  is_bytes example_donor /\ wrap_v500_payload example_donor [7; 8; 9] 0x41002400 = Ok image /\
  exists aux_len pad, unpack_le 4 example_donor V500_AUX_AREA_LEN_OFF = Ok aux_len /\
    let code_pos := V500_KEY_AREA_LEN + aux_len in
    let code := [7; 8; 9] ++ brep pad 0 in
    0 <= pad < 1024 /\ len code mod 1024 = 0 /\
    BOOT_LOAD_ADDR + code_pos = 0x41002400 /\ code_pos <= len example_donor /\
    len image = code_pos + len code + 512 /\
    slice image code_pos (code_pos + len [7; 8; 9]) = [7; 8; 9] /\
    unpack_le 4 image V500_BOOT_CODE_LEN_OFF = Ok (len code) /\
    unpack_le 4 image V500_TOTAL_BOOT_LEN_OFF = Ok (len code + 512) /\
    (forall i, Z.of_nat i < code_pos -> ~ 0x404 <= Z.of_nat i < 0x40C -> image !! i = example_donor !! i).
Proof.
  intros image.
  assert (Hb : is_bytes example_donor).
  { unfold example_donor, brep. repeat apply Forall_app_2; try apply Forall_replicate; repeat constructor; lia. }
  assert (Hi : wrap_v500_payload example_donor [7; 8; 9] 0x41002400 = Ok image) by (vm_compute; reflexivity).
  split; [exact Hb|]. split; [exact Hi|].
  exact (wrap_v500_payload_spec example_donor [7; 8; 9] 0x41002400 image Hb Hi).
Defined.

Definition v500_image : bytes := brep 1024 7 ++ [3; 0; 0; 0] ++ brep 7164 8 ++ [1; 2; 3; 4].

Theorem v500_send_delivers_witness :
  let w := World (AckDev false [] 0) None [] in
  exists h1 h2 h3 w', v500_send_firmware 3 v500_image w
      = (Ok (succeeded [HEAD_AREA; AUX_AREA; BOOT_IMAGE; COMPLETE]), w') /\
    ad_frames (tr w') = [] ++ area_frames h1 (slice v500_image 0 8192) ++
      area_frames h2 (slice v500_image 8192 (8192 + 3)) ++ area_frames h3 v500_image.
Proof.
  intros w. do 3 eexists.
  apply (v500_send_delivers 3 v500_image 3 _ _ _ w); [lia|reflexivity|vm_compute; reflexivity..].
Defined.

Theorem v500_send_safe_witness :
  let w := World (AckDev false [] 0) None [] in
  let w' := snd (v500_send_firmware 3 v500_image w) in
  exists aux_len l1 l2 l3, log w' = log w ++ l1 ++ l2 ++ l3 /\
    stages_completed (succeeded [HEAD_AREA; AUX_AREA; BOOT_IMAGE; COMPLETE])
      = [HEAD_AREA; AUX_AREA; BOOT_IMAGE; COMPLETE] /\
    unpack_le 4 (slice v500_image 1024 1028) 0 = Ok aux_len /\
    area_sent (slice v500_image 0 8192) 0 l1 /\
    area_sent (slice v500_image 8192 (8192 + aux_len)) 8192 l2 /\
    area_sent v500_image BOOT_LOAD_ADDR l3.
Proof.
  intros w w'.
  apply (v500_send_safe 3 v500_image w (succeeded [HEAD_AREA; AUX_AREA; BOOT_IMAGE; COMPLETE]) w');
    vm_compute; reflexivity.
Defined.
