(* ===== verification/HisiCv6xx.v ===== *)
(** * The CV6xx boot protocol

  Models [src/src/defib/protocol/hisilicon_cv6xx.py]: the parser of composite
  boot images, the DDR table of a board, wrapping a payload, the handshake, the
  board id query, the acknowledged frames and [send_firmware] with its wait for
  the DDR training.  The SPL's text is kept as the list of its character
  codes.  Progress callbacks and log messages are left out. *)

From Stdlib Require Import Ascii.
From Stdlib Require String.
From S2P Require Import Prelude Text Crc Frames Transport Events Profiles HisiStandard HisiV500.

Definition CV6XX_HANDSHAKE_MAGIC : bytes := [0xEF; 0xBE; 0xAD; 0xDE; 0x12; 0x00; 0xF0; 0x0F].
Definition CV6XX_BOARDID_MAGIC : bytes := [0xCE; 0x00; 0xFF; 0x01].
Definition CV6XX_GSL_MAGIC : Z := 0x4BB4D22D.
Definition CV6XX_DDR_PARAMS_MAGIC : Z := 0x4B87A52D.
Definition CV6XX_UBOOT_MAGIC : Z := 0x4BF01E2D.

Definition CV6XX_SOCS : list string :=
  ["hi3516cv608"; "hi3516cv610"; "hi3516cv613"; "hi3516dv500"; "hi3519dv500"]%string.
Definition GSL_LOAD_ADDR : Z := 0x04021A00.
Definition DDR_LOAD_ADDR : Z := 0x41000000.
Definition UBOOT_LOAD_ADDR : Z := 0x41000000.
Definition DDR_TRAINING_WAIT : Z := 1500000.
Definition DDR_TRAINING_TIMEOUT : Z := 10000000.
Definition SPL_TABLE_HEADER : bytes := codes "boot table file name".
Definition SPL_DDR_TRAINED : bytes := codes "DDR size".
Definition SPL_TABLE_REJECTED : bytes := codes "The table is incorrect".
Definition IMAGE_ALIGNMENT : Z := 0x100.
Definition CODE_ALIGNMENT : Z := 0x200.
Definition IMAGE_HEADER_FIELDS_SIZE : Z := 40.
Definition DDR_PARAMS_FIELDS_SIZE : Z := 308.
Definition MAX_GSL_HEADER_OFFSET : Z := 0x10000.
Definition MAX_SECTION_GAP : Z := 0x1000.
Definition MAX_DDR_TABLES : Z := 8.

Record CV6xxBootParts := mkParts {
  gsl_data : bytes; gsl_size : Z; params_start : Z; first_table_offset : Z; table_count : Z;
  table_size : Z; board_mapping : bytes; uboot_data : bytes; file_data : bytes
}.

Record CodeImage := mkCode { ci_offset : Z; ci_structure_length : Z; ci_payload_length : Z }.

Definition ci_end (i : CodeImage) : Z := ci_offset i + ci_structure_length i + ci_payload_length i.

Record DdrParamsImage := mkDdr {
  dp_offset : Z; dp_structure_length : Z; dp_table_offset : Z; dp_table_size : Z;
  dp_table_count : Z; dp_board_mapping : bytes
}.

Definition tables_end (p : DdrParamsImage) : Z := dp_table_offset p + dp_table_size p * dp_table_count p.

(** The generator, as the list of what it yields.  Each turn of its loop finds
    a later place, so the length of the file bounds the turns. *)
Fixpoint magic_offsets_go (fuel : nat) (file_data magic_bytes : bytes) (limit offset : Z) : list Z :=
  match fuel with
  | O => []
  | S fuel' =>
      if 0 <=? offset then
        (if offset mod IMAGE_ALIGNMENT =? 0 then [offset] else []) ++
        magic_offsets_go fuel' file_data magic_bytes limit
          (find_bytes magic_bytes file_data (offset + 1) limit)
      else []
  end.

Definition magic_offsets (file_data : bytes) (magic start : Z) (end_ : option Z) : list Z :=
  let magic_bytes := le_bytes 4 magic in
  let limit := match end_ with None => len file_data | Some e => Z.min e (len file_data) end in
  magic_offsets_go (S (length file_data)) file_data magic_bytes limit
    (find_bytes magic_bytes file_data start limit).

Definition perr (what : string) (offset : Z) : exn := ProtocolError (what +:+ " at 0x" +:+ hex_X offset).

Definition parse_code_image (file_data : bytes) (offset magic : Z) (name : string) : res CodeImage :=
  if len file_data <? offset + IMAGE_HEADER_FIELDS_SIZE
  then Raise (perr ("Truncated " +:+ name +:+ " header") offset) else
  let! image_magic := unpack_le 4 file_data offset in
  let! version := unpack_le 4 file_data (offset + 4) in
  let! structure_length := unpack_le 4 file_data (offset + 8) in
  let! signature_length := unpack_le 4 file_data (offset + 12) in
  let! payload_length := unpack_le 4 file_data (offset + 36) in
  if negb (image_magic =? magic) then Raise (perr ("Invalid " +:+ name +:+ " magic") offset) else
  if version =? 0 then Raise (perr ("Invalid " +:+ name +:+ " structure version") offset) else
  if (structure_length <? IMAGE_HEADER_FIELDS_SIZE)
     || negb (structure_length mod IMAGE_ALIGNMENT =? 0)
     || (signature_length =? 0)
     || (structure_length <? signature_length)
  then Raise (perr ("Invalid " +:+ name +:+ " structure bounds") offset) else
  if (payload_length =? 0) || negb (payload_length mod CODE_ALIGNMENT =? 0)
  then Raise (perr ("Invalid " +:+ name +:+ " payload length") offset) else
  let image := mkCode offset structure_length payload_length in
  if len file_data <? ci_end image then Raise (perr ("Truncated " +:+ name +:+ " payload") offset) else
  Ok image.

Definition parse_ddr_params (file_data : bytes) (offset : Z) : res DdrParamsImage :=
  if len file_data <? offset + DDR_PARAMS_FIELDS_SIZE
  then Raise (perr "Truncated DDR params header" offset) else
  let! magic := unpack_le 4 file_data offset in
  let! version := unpack_le 4 file_data (offset + 4) in
  let! structure_length := unpack_le 4 file_data (offset + 8) in
  let! signature_length := unpack_le 4 file_data (offset + 12) in
  let! params_area_offset := unpack_le 4 file_data (offset + 32) in
  let! table_size := unpack_le 4 file_data (offset + 36) in
  let! table_count := unpack_le 4 file_data (offset + 40) in
  let board_mapping := slice file_data (offset + 300) (offset + 308) in
  if negb (magic =? CV6XX_DDR_PARAMS_MAGIC) then Raise (perr "Invalid DDR params magic" offset) else
  if version =? 0 then Raise (perr "Invalid DDR params structure version" offset) else
  if (structure_length <? DDR_PARAMS_FIELDS_SIZE)
     || negb (structure_length mod IMAGE_ALIGNMENT =? 0)
     || (signature_length =? 0)
     || (structure_length <? signature_length)
     || negb (params_area_offset mod IMAGE_ALIGNMENT =? 0)
  then Raise (perr "Invalid DDR params structure bounds" offset) else
  if (table_size =? 0)
     || negb (table_size mod IMAGE_ALIGNMENT =? 0)
     || negb ((1 <=? table_count) && (table_count <=? MAX_DDR_TABLES))
  then Raise (perr "Invalid DDR table dimensions" offset) else
  if negb (existsb (fun index => index <? table_count) board_mapping)
  then Raise (perr "DDR board mapping has no valid table" offset) else
  if existsb (fun index => negb (index =? 0xFF) && (table_count <=? index)) board_mapping
  then Raise (perr "DDR board mapping is out of range" offset) else
  let table_offset := offset + structure_length + params_area_offset in
  let params := mkDdr offset structure_length table_offset table_size table_count board_mapping in
  if len file_data <? tables_end params then Raise (perr "Truncated DDR tables" offset) else
  Ok params.

(** [try: m except ProtocolError: continue], [None] for the [continue]. *)
Definition except_protocol {A} (m : res A) : res (option A) :=
  match m with
  | Ok a => Ok (Some a)
  | Raise (ProtocolError _) => Ok None
  | Raise e => Raise e
  | Diverge => Diverge
  end.

(** [for x in l: <append what f gives>] *)
Fixpoint collect {A} (f : Z -> res (list A)) (l : list Z) : res (list A) :=
  match l with
  | [] => Ok []
  | x :: l' =>
      let! a := f x in
      let! b := collect f l' in
      Ok (a ++ b)
  end.

(** The body of the inner loop: one DDR header candidate. *)
Definition try_params (file_data : bytes) (gsl : CodeImage) (params_offset : Z)
    : res (list CV6xxBootParts) :=
  let! o := except_protocol
    (let! params := parse_ddr_params file_data params_offset in
     let! uboot := parse_code_image file_data (tables_end params) CV6XX_UBOOT_MAGIC "U-Boot" in
     Ok (params, uboot)) in
  match o with
  | None => Ok []
  | Some (params, uboot) =>
      Ok [mkParts (slice file_data 0 (ci_end gsl)) (ci_end gsl) (dp_offset params)
            (dp_table_offset params) (dp_table_count params) (dp_table_size params)
            (dp_board_mapping params) (slice file_data (ci_offset uboot) (ci_end uboot)) file_data]
  end.

(** The body of the outer loop: one GSL header candidate. *)
Definition try_gsl (file_data : bytes) (gsl_offset : Z) : res (list CV6xxBootParts) :=
  let! o := except_protocol (parse_code_image file_data gsl_offset CV6XX_GSL_MAGIC "GSL") in
  match o with
  | None => Ok []
  | Some gsl =>
      let params_scan_end := Z.min (len file_data) (ci_end gsl + MAX_SECTION_GAP + 4) in
      collect (try_params file_data gsl)
        (magic_offsets file_data CV6XX_DDR_PARAMS_MAGIC (ci_end gsl) (Some params_scan_end))
  end.

Definition parse_cv6xx_boot (file_data : bytes) : res CV6xxBootParts :=
  let gsl_scan_end := Z.min (len file_data) (MAX_GSL_HEADER_OFFSET + 4) in
  let! layouts := collect (try_gsl file_data)
    (magic_offsets file_data CV6XX_GSL_MAGIC 0 (Some gsl_scan_end)) in
  match layouts with
  | [] => Raise (ProtocolError "No structurally valid CV6xx GSL/DDR/U-Boot layout found")
  | [parts] => Ok parts
  | _ => Raise (ProtocolError "Ambiguous CV6xx boot image: multiple valid GSL layouts found")
  end.

Definition wrap_cv6xx_payload (header_source payload : bytes) : res bytes :=
  if len header_source <? 1024 then Raise ValueError else
  let header := slice header_source 0 1024 in
  let! header := pack_into_le4 header 36 (len payload) in
  Ok (header ++ payload).

Definition build_ddr_table (parts : CV6xxBootParts) (board_id : Z) : res bytes :=
  let mapping := board_mapping parts in
  let mapped_index := if board_id <? len mapping then board_id else 0 in
  let! mapped_index := index mapping mapped_index in
  let mapped_index := if table_count parts <=? mapped_index then 0 else mapped_index in
  let ddr_buf := slice (file_data parts) (gsl_size parts) (first_table_offset parts) in
  let table_offset := first_table_offset parts + mapped_index * table_size parts in
  Ok (ddr_buf ++ slice (file_data parts) table_offset (table_offset + table_size parts)).

Definition cv6xx_matches (chip_name : string) : bool := bool_decide (lower chip_name ∈ CV6XX_SOCS).

(** ** The object *)

Record HiSiliconCV6xx := mkCv {
  cv_board_id : Z; cv_cpu_id : option Z; ddr_training_wait : Z; ddr_training_timeout : Z
}.

Definition cv6xx_init (wait timeout : Z) : HiSiliconCV6xx := mkCv 0 None wait timeout.

Section CV6xx.
Context {T : Type} `{Transport T}.
Variable fuel : nat.
Abbreviation M6 := (M T HiSiliconCV6xx).

Definition cv6xx_handshake_frame : bytes :=
  append_crc_le (CV6XX_HANDSHAKE_MAGIC ++ le_bytes 4 115200 ++ [8; 1; 0; 9]).

(** What the two polling loops read in a turn, [None] for nothing or a
    timeout. *)
Definition poll_chunk (tmo : Z) : M6 (option bytes) :=
  try_except
    (let* waiting := bytes_waiting in
     if 0 <? waiting then let* chunk := read waiting (Some tmo) in ret (Some chunk) else ret None)
    is_TransportTimeout (fun _ => ret None).

#[global] Arguments cv6xx_handshake_frame : simpl never.

(** State of the loop: [buffer]. *)
Definition cv6xx_handshake_body (buffer : bytes) : M6 (ctl bytes HandshakeResult) :=
  let* _ := write cv6xx_handshake_frame in
  let* _ := sleep 10000 in
  let* got := poll_chunk 10000 in
  match got with
  | None => ret (Next buffer)
  | Some chunk =>
      let buffer := buffer ++ chunk in
      if contains (codes "uart ddr") buffer || contains (codes "uart flash") buffer then
        try_except
          (let* _ := sleep 500000 in
           let* _ := flush_input in
           ret (Rtn handshake_ok))
          is_TransportTimeout (fun _ => ret (Next buffer))
      else ret (Next buffer)
  end.

Definition cv6xx_handshake : M6 HandshakeResult :=
  let* c := while fuel cv6xx_handshake_body [] in
  match c with
  | Rtn r => ret r
  | _ => diverge
  end.

(** [int(time.time())] is the parameter [unix_time]. *)
Definition board_id_frame (unix_time : Z) : res bytes :=
  let! t_bytes := pack_be 4 unix_time in
  Ok (append_crc (CV6XX_BOARDID_MAGIC ++ t_bytes ++ t_bytes)).

(** The reply in the buffer: the CPU id, the board id and what follows. *)
Definition board_reply (buf : bytes) : res (option (Z * Z * bytes)) :=
  if contains [0xCE] buf then
    let idx := find_bytes [0xCE] buf 0 (len buf) in
    if negb (idx + 11 <=? len buf) then Ok None else
    let! b10 := index buf (idx + 10) in
    if b10 =? 0xAA then
      let resp := slice buf idx (idx + 11) in
      let! cpu_id := index resp 1 in
      let! board_id := unpack_be 4 (slice resp 4 8) 0 in
      Ok (Some (cpu_id, board_id, drop (Z.to_nat (idx + 11)) buf))
    else Ok None
  else Ok None.

(** Pushing back what follows the reply; [false] when the transport timed out,
    which the loop takes for a turn without a reply. *)
Definition push_back (remaining : bytes) : M6 bool :=
  try_except
    (if beq remaining [] then ret true else
     let* _ := try_except (unread remaining)
                 (fun e => bool_decide (e = NotImplementedError)) (fun _ => ret tt) in
     ret true)
    is_TransportTimeout (fun _ => ret false).

(** State of the loop: [buf]. *)
Definition board_id_body (start : Z) (buf : bytes) : M6 (ctl bytes Z) :=
  let* now := monotonic in
  if negb (now - start <? 2000000) then ret (Brk buf) else
  let* got := poll_chunk 100000 in
  let next buf := let* _ := sleep 10000 in ret (Next buf) in
  match got with
  | None => next buf
  | Some chunk =>
      let buf := buf ++ chunk in
      let* reply := lift (board_reply buf) in
      match reply with
      | None => next buf
      | Some (cpu_id, board_id, remaining) =>
          let* o := get_obj in
          let* _ := put_obj (mkCv board_id (Some cpu_id) (ddr_training_wait o) (ddr_training_timeout o)) in
          let* ok := push_back remaining in
          if ok then ret (Rtn board_id) else next buf
      end
  end.

Definition get_board_id (unix_time : Z) : M6 Z :=
  let* frame_bytes := lift (board_id_frame unix_time) in
  let* _ := flush_input in
  let* _ := write frame_bytes in
  let* start := monotonic in
  let* c := while fuel (board_id_body start) [] in
  match c with
  | Rtn board_id => ret board_id
  | _ => ret 0
  end.

(** ** Acknowledged frames *)

(** State of the loop: [retries]. *)
Definition cv6xx_ack_body (data : bytes) (start timeout : Z) (retries : Z) : M6 (ctl Z bool) :=
  let* now := monotonic in
  if negb ((now - start <? timeout) && (retries <? 10)) then ret (Brk retries) else
  let* response := try_except (let* b := read 1 (Some timeout) in ret (Some b))
                     is_TransportTimeout (fun _ => ret None) in
  match response with
  | None => ret (Rtn false)
  | Some response =>
      if beq response ACK_BYTE then ret (Rtn true)
      else if beq response [0x55] then let* _ := write data in ret (Next (retries + 1))
      else ret (Next retries)
  end.

Definition cv6xx_send_frame_wait_ack (data : bytes) (timeout : Z) : M6 bool :=
  let* _ := write data in
  let* start := monotonic in
  let* c := while fuel (cv6xx_ack_body data start timeout) 0 in
  match c with
  | Rtn b => ret b
  | _ => ret false
  end.

(** State of the loop: [idx], [pos], [remaining]. *)
Definition cv6xx_data_body (data : bytes) (s : Z * Z * Z) : M6 (ctl (Z * Z * Z) unit) :=
  let '(idx, pos, remaining) := s in
  if negb (0 <? remaining) then ret (Brk s) else
  let idx := idx + 1 in
  let chunk_size := Z.min 1024 remaining in
  let chunk := slice data pos (pos + chunk_size) in
  let frame := append_crc ([0xDA; Z.land idx 0xFF; Z.land (Z.lnot idx) 0xFF] ++ chunk) in
  let* ok := cv6xx_send_frame_wait_ack frame 4000000 in
  if negb ok then ret (Rtn tt) else ret (Next (idx, pos + chunk_size, remaining - chunk_size)).

Definition cv6xx_send_data_to_bootrom (data : bytes) (address : Z) : M6 bool :=
  let total := len data in
  let* head := lift (let! t := pack_be 4 total in let! a := pack_be 4 address in
                     Ok (append_crc ([0xFE; 0x00; 0xFF; 0x01] ++ t ++ a))) in
  let* ok := cv6xx_send_frame_wait_ack head 4000000 in
  if negb ok then ret false else
  let* c := while (S (length data)) (cv6xx_data_body data) (0, 0, total) in
  match c with
  | Rtn _ => ret false
  | _ =>
      let count := (total + 1023) / 1024 + 1 in
      let tail := append_crc [0xED; Z.land count 0xFF; Z.land (Z.lnot count) 0xFF] in
      let* ok := cv6xx_send_frame_wait_ack tail 4000000 in
      ret ok
  end.

(** ** Waiting for the DDR training *)

(** The characters the code keeps: printable ones and line ends. *)
Definition spl_char (b : Z) : bool := ((32 <=? b) && (b <=? 126)) || (b =? 10) || (b =? 13).
Definition spl_text (d : bytes) : bytes := filter (fun b => spl_char b = true) d.

Definition training_pending (text : bytes) : bool :=
  contains SPL_TABLE_HEADER text && negb (contains SPL_DDR_TRAINED text)
  && negb (contains SPL_TABLE_REJECTED text).

(** State of the loop: [spl_text]. *)
Definition training_body (start : Z) (text : bytes) : M6 (ctl bytes unit) :=
  let* now := monotonic in
  let elapsed := now - start in
  let* o := get_obj in
  if (ddr_training_wait o <=? elapsed)
     && (negb (training_pending text) || (ddr_training_wait o + ddr_training_timeout o <=? elapsed))
  then ret (Brk text) else
  let* text :=
    try_except
      (let* waiting := bytes_waiting in
       if 0 <? waiting then
         let* chunk := read (Z.min waiting 256) (Some 50000) in
         ret (text ++ spl_text chunk)
       else ret text)
      is_TransportTimeout (fun _ => ret text) in
  let* _ := sleep 50000 in
  ret (Next text).

Definition training_wait : M6 bytes :=
  let* start := monotonic in
  let* c := while fuel (training_body start) [] in
  match c with
  | Brk text | Next text => ret text
  | Rtn _ => diverge
  end.

(** [text] in double quotes *)
Definition quoted (text : string) : string :=
  let q := String.String (ascii_of_nat 34) "" in q +:+ text +:+ q.

Definition table_rejected_error : string :=
  "The SPL rejected the DDR table (" +:+ quoted "The table is incorrect" +:+
  "): this boot image is for another chip or variant. The SPL fell back to the boot table in flash and starts the U-Boot there, so it will not take an upload.".
Definition not_trained_error : string :=
  "DDR training did not finish: the SPL accepted the DDR table and went silent without printing " +:+
  quoted "DDR size" +:+
  ". This table does not train this board's memory; try another variant, or the boot table from the board's own flash.".

Definition cv6xx_send_firmware (unix_time : Z) (firmware : bytes) (uboot_override : option bytes)
    : M6 RecoveryResult :=
  match parse_cv6xx_boot firmware with
  | Raise (ProtocolError e) => ret (failed [] e)
  | Raise e => raise e
  | Diverge => diverge
  | Ok parts =>
      let uboot_payload := default (uboot_data parts) uboot_override in
      let* ok := cv6xx_send_data_to_bootrom (gsl_data parts) GSL_LOAD_ADDR in
      if negb ok then ret (failed [] "Failed to send GSL") else
      let* board_id := get_board_id unix_time in
      let* ddr_table := lift (build_ddr_table parts board_id) in
      let* ok := cv6xx_send_data_to_bootrom ddr_table DDR_LOAD_ADDR in
      if negb ok then ret (failed [GSL] "Failed to send DDR table") else
      let* text := training_wait in
      if contains SPL_TABLE_REJECTED text then
        ret (mkResult false [GSL; DDR_TABLE] (Some table_rejected_error) false) else
      if contains SPL_TABLE_HEADER text && negb (contains SPL_DDR_TRAINED text) then
        ret (failed [GSL; DDR_TABLE] not_trained_error) else
      let* ok := cv6xx_send_data_to_bootrom uboot_payload UBOOT_LOAD_ADDR in
      if negb ok then ret (failed [GSL; DDR_TABLE; DDR_TRAINING] "Failed to send U-Boot") else
      ret (succeeded [GSL; DDR_TABLE; DDR_TRAINING; UBOOT; COMPLETE])
  end.

End CV6xx.

(** ** What a composite image is *)

Definition u32 (file : bytes) (off : Z) : Z := le_int (slice file off (off + 4)).

(** A GSL or U-Boot image at [off]. *)
Record code_image_at (file : bytes) (off magic : Z) (i : CodeImage) : Prop := {
  ca_offset : ci_offset i = off;
  ca_magic : u32 file off = magic;
  ca_version : u32 file (off + 4) <> 0;
  ca_structure : u32 file (off + 8) = ci_structure_length i /\ 40 <= ci_structure_length i /\
    ci_structure_length i mod 256 = 0;
  ca_signature : 0 < u32 file (off + 12) <= ci_structure_length i;
  ca_payload : u32 file (off + 36) = ci_payload_length i /\ 0 < ci_payload_length i /\
    ci_payload_length i mod 512 = 0;
  ca_end : ci_end i <= len file
}.

(** A DDR parameter image at [off]: up to eight tables, and a board map whose
    entries are tables or 0xFF, one a table at least. *)
Record ddr_params_at (file : bytes) (off : Z) (p : DdrParamsImage) : Prop := {
  da_offset : dp_offset p = off;
  da_magic : u32 file off = CV6XX_DDR_PARAMS_MAGIC;
  da_version : u32 file (off + 4) <> 0;
  da_structure : u32 file (off + 8) = dp_structure_length p /\ 308 <= dp_structure_length p /\
    dp_structure_length p mod 256 = 0;
  da_signature : 0 < u32 file (off + 12) <= dp_structure_length p;
  da_area : u32 file (off + 32) mod 256 = 0 /\
    dp_table_offset p = off + dp_structure_length p + u32 file (off + 32);
  da_table_size : u32 file (off + 36) = dp_table_size p /\ 0 < dp_table_size p /\
    dp_table_size p mod 256 = 0;
  da_table_count : u32 file (off + 40) = dp_table_count p /\ 1 <= dp_table_count p <= 8;
  da_mapping : dp_board_mapping p = slice file (off + 300) (off + 308) /\
    (exists x, x ∈ dp_board_mapping p /\ x < dp_table_count p) /\
    (forall x, x ∈ dp_board_mapping p -> x = 0xFF \/ x < dp_table_count p);
  da_end : tables_end p <= len file
}.

(** A whole layout: a GSL header within 64 KiB, the DDR header within 4 KiB of
    the GSL's end, the U-Boot right after the tables. *)
Record layout_at (file : bytes) (g p : Z) (parts : CV6xxBootParts) : Prop := {
  la_g : 0 <= g <= 0x10000 /\ g mod 256 = 0;
  la_p : p mod 256 = 0;
  la_images : exists gsl params uboot,
    code_image_at file g CV6XX_GSL_MAGIC gsl /\
    ci_end gsl <= p <= ci_end gsl + 0x1000 /\
    ddr_params_at file p params /\
    code_image_at file (tables_end params) CV6XX_UBOOT_MAGIC uboot /\
    parts = mkParts (slice file 0 (ci_end gsl)) (ci_end gsl) p (dp_table_offset params)
      (dp_table_count params) (dp_table_size params) (dp_board_mapping params)
      (slice file (tables_end params) (ci_end uboot)) file
}.

Lemma u32_nonneg file off : is_bytes file -> 0 <= u32 file off.
Proof. intros Hb. by apply le_int_bound, is_bytes_slice. Qed.

Lemma unpack_u32 file off : off + 4 <= len file -> unpack_le 4 file off = Ok (u32 file off).
Proof. intros Ho. unfold unpack_le. by replace (off + 4 <=? len file) with true by (symmetry; by apply Z.leb_le). Qed.

(** The next check of a parser. *)
Ltac next_check E :=
  lazymatch goal with
  | |- (exists i, (if ?b then Raise _ else _) = Ok i /\ _) \/ _ => destruct b eqn:E
  end.

(** A failing branch of a parser whose condition is a disjunction. *)
Ltac refute_or E :=
  right; split; [by eexists|]; intros ? []; rewrite ?orb_true_iff in E; destruct_or? E; b2p; destruct_and?; congruence || lia.

Lemma parse_code_image_cases file off magic name :
  is_bytes file ->
  (exists i, parse_code_image file off magic name = Ok i /\ code_image_at file off magic i) \/
  ((exists m, parse_code_image file off magic name = Raise (ProtocolError m)) /\
   forall i, ~ code_image_at file off magic i).
Proof.
  intros Hb. unfold parse_code_image, IMAGE_HEADER_FIELDS_SIZE, IMAGE_ALIGNMENT, CODE_ALIGNMENT, perr.
  next_check E0; b2p.
  { right. split; [by eexists|]. intros i []. destruct i as [o s n]. unfold ci_end in *. cbn in *. lia. }
  rewrite !unpack_u32 by lia. cbn [res_bind].
  pose proof (u32_nonneg file (off + 12) Hb). pose proof (u32_nonneg file (off + 36) Hb).
  next_check E1; [right; split; [by eexists|]; intros i []; b2p; lia|].
  next_check E2; [right; split; [by eexists|]; intros i []; b2p; lia|].
  next_check E3.
  { refute_or E3. }
  next_check E4.
  { refute_or E4. }
  next_check E5.
  { right. split; [by eexists|]. intros [o s n] []. unfold ci_end in *. cbn in *. b2p; lia. }
  left. eexists. split; [reflexivity|]. b2p. split; cbn; unfold ci_end; cbn; try done; lia.
Qed.

Lemma parse_ddr_params_cases file off :
  is_bytes file -> 0 <= off ->
  (exists p, parse_ddr_params file off = Ok p /\ ddr_params_at file off p) \/
  ((exists m, parse_ddr_params file off = Raise (ProtocolError m)) /\
   forall p, ~ ddr_params_at file off p).
Proof.
  intros Hb Ho. unfold parse_ddr_params, DDR_PARAMS_FIELDS_SIZE, IMAGE_ALIGNMENT, MAX_DDR_TABLES, perr.
  pose proof (u32_nonneg file (off + 12) Hb). pose proof (u32_nonneg file (off + 36) Hb).
  pose proof (u32_nonneg file (off + 32) Hb).
  next_check E0; b2p.
  { right. split; [by eexists|]. intros p []. unfold tables_end in *. destruct p as [? ? ? ts tc ?]. cbn in *.
    assert (0 <= ts * tc) by (apply Z.mul_nonneg_nonneg; lia). lia. }
  rewrite !unpack_u32 by lia. cbn [res_bind].
  next_check E1; [right; split; [by eexists|]; intros i []; b2p; lia|].
  next_check E2; [right; split; [by eexists|]; intros i []; b2p; lia|].
  next_check E3; [refute_or E3|].
  next_check E4.
  { right. split; [by eexists|]. intros p []. rewrite ?orb_true_iff in E4.
    destruct_or? E4; b2p; destruct_or?; b2p; destruct_and?; congruence || lia. }
  next_check E5.
  { right. split; [by eexists|]. intros p [? ? ? ? ? ? ? [Htc _] (Hm & (x & Hx & Hlt) & _) ?].
    apply negb_true_iff, not_true_iff_false in E5. apply E5, existsb_exists. exists x.
    rewrite <- Hm, Htc. split; [by apply list_elem_of_In|by apply Z.ltb_lt]. }
  next_check E6.
  { right. split; [by eexists|]. intros p [? ? ? ? ? ? ? [Htc _] (Hm & _ & Hx) ?].
    apply existsb_exists in E6 as (x & Hin%list_elem_of_In & Hb2). rewrite <- Hm in Hin. b2p.
    destruct (Hx x Hin); lia. }
  next_check E7.
  { right. split; [by eexists|]. intros p []. unfold tables_end in *. b2p.
    destruct p. cbn in *. destruct_and!. subst. lia. }
  left. eexists. split; [reflexivity|]. b2p. split; cbn; try done; try lia; unfold tables_end; cbn; try lia.
  split; [done|]. split.
  - apply existsb_exists in E5 as (x & Hin%list_elem_of_In & Hlt). b2p. eauto.
  - intros x Hx. destruct (decide (x = 0xFF)) as [|Hne]; [by left|]. right. apply Z.nle_gt. intros Hle.
    apply not_true_iff_false in E6. apply E6, existsb_exists. exists x. split; [by apply list_elem_of_In|].
    apply andb_true_iff. split; [apply negb_true_iff; by apply Z.eqb_neq|by apply Z.leb_le].
Qed.

(** ** The scan finds every aligned magic once *)

Lemma magic_offsets_go_spec fuel file mb limit start :
  0 <= start -> limit - start < Z.of_nat fuel -> len mb = 4 ->
  let l := magic_offsets_go fuel file mb limit (find_bytes mb file start limit) in
  NoDup l /\ forall x, x ∈ l <-> start <= x /\ x + 4 <= limit /\ slice file x (x + 4) = mb /\ x mod 256 = 0.
Proof.
  intros Hs Hf Hm. cbn zeta. revert start Hs Hf.
  induction fuel as [|fuel IH]; intros start Hs Hf; cbn [magic_offsets_go].
  { split; [constructor|]. intros x. rewrite elem_of_nil. split; [done|lia]. }
  destruct (find_bytes_spec mb file start limit Hs) as [[-> Hn]|(H1 & H2 & H3 & H4)]; rewrite Hm in *.
  { split; [constructor|]. intros x. rewrite elem_of_nil. split; [done|]. intros (? & ? & Hx & _). by apply (Hn x). }
  set (r := find_bytes mb file start limit) in *.
  replace (0 <=? r) with true by (symmetry; apply Z.leb_le; lia).
  destruct (IH (r + 1) ltac:(lia) ltac:(lia)) as [Hnd Hin]. unfold IMAGE_ALIGNMENT.
  assert (Hcase : forall x, start <= x /\ slice file x (x + 4) = mb <-> x = r \/ (r + 1 <= x /\ slice file x (x + 4) = mb)).
  { intros x. split; [|intros [->|[? ?]]; (split; [lia|done])].
    intros [Hx1 Hx2]. destruct (Z.lt_trichotomy x r) as [Hlt|[->|Hgt]]; [by destruct (H4 x)|by left|right; split; [lia|done]]. }
  split.
  - destruct (r mod 256 =? 0); cbn; [|done]. constructor; [|done]. rewrite Hin. lia.
  - intros x. rewrite elem_of_app, Hin. specialize (Hcase x). split.
    + destruct (r mod 256 =? 0) eqn:E; b2p; rewrite ?list_elem_of_singleton, ?elem_of_nil;
        [intros [->|(? & ? & ? & ?)]|intros [[]|(? & ? & ? & ?)]]; split_and!; try done; lia.
    + intros (Hx1 & Hx2 & Hx3 & Hx4). destruct (proj1 Hcase (conj Hx1 Hx3)) as [->|[? _]]; [left|right; by split_and!].
      replace (r mod 256 =? 0) with true by (symmetry; by apply Z.eqb_eq). by apply list_elem_of_singleton.
Qed.

Lemma magic_offsets_spec file magic start e :
  0 <= start ->
  let l := magic_offsets file magic start (Some e) in
  NoDup l /\ forall x, x ∈ l <-> start <= x /\ x + 4 <= Z.min e (len file) /\
    slice file x (x + 4) = le_bytes 4 magic /\ x mod 256 = 0.
Proof. intros Hs. apply magic_offsets_go_spec; [done|unfold len; lia|by apply le_bytes_len]. Qed.

Lemma u32_magic file x magic :
  is_bytes file -> 0 <= x -> x + 4 <= len file -> 0 <= magic < 2 ^ 32 ->
  slice file x (x + 4) = le_bytes 4 magic <-> u32 file x = magic.
Proof.
  intros Hb H0 Hx Hm. unfold u32. assert (Hl : len (slice file x (x + 4)) = 4) by (rewrite len_slice; lia).
  split; [intros ->; apply le_int_le_bytes; [lia|by apply fits_spec]|].
  intros <-. rewrite <- Hl at 2. by rewrite le_bytes_le_int by (by apply is_bytes_slice).
Qed.

(** ** The parser and the layouts *)

Section Bind.
Context {A : Type} (h : Z -> list A).

Lemma bind_nil_iff xs : xs ≫= h = [] <-> forall x, x ∈ xs -> h x = [].
Proof.
  induction xs as [|y xs IH]; cbn; [split; [by intros _ x ?%elem_of_nil|done]|].
  rewrite app_nil, IH. split.
  - intros [Hy Hr] x [->|Hx]%elem_of_cons; auto.
  - intros Hx. split; [by apply Hx; left|]. intros x Hin. apply Hx. by right.
Qed.

Lemma bind_one_iff xs a :
  NoDup xs ->
  xs ≫= h = [a] <-> exists x, x ∈ xs /\ h x = [a] /\ forall y, y ∈ xs -> y <> x -> h y = [].
Proof.
  induction 1 as [|x0 xs Hn Hnd IH]; cbn.
  { split; [done|]. by intros (x & ?%elem_of_nil & _). }
  split.
  - intros [[Hx Hr]|[Hx Hr]]%app_eq_unit; rewrite ?bind_nil_iff, ?IH in Hr.
    + destruct Hr as (x & Hin & Ha & Hy). exists x. split; [by right|]. split; [done|].
      intros y [->|Hiny]%elem_of_cons Hne; auto.
    + exists x0. split; [left|]. split; [done|]. intros y [->|Hiny]%elem_of_cons Hne; [done|auto].
  - intros (x & [->|Hin]%elem_of_cons & Ha & Hy).
    + rewrite Ha. replace (xs ≫= h) with (@nil A); [done|]. symmetry. apply bind_nil_iff.
      intros y Hiny. apply Hy; [by right|]. by intros ->.
    + rewrite (Hy x0); [|left|by intros ->]. apply IH. exists x. split; [done|]. split; [done|].
      intros y Hiny. apply Hy. by right.
Qed.

Lemma collect_bind f xs : (forall x, x ∈ xs -> f x = Ok (h x)) -> collect f xs = Ok (xs ≫= h).
Proof.
  induction xs as [|x xs IH]; intros Hf; cbn; [done|].
  rewrite (Hf x) by left. cbn. rewrite IH; [done|]. intros y Hy. apply Hf. by right.
Qed.

End Bind.

Definition params_at (file : bytes) (gsl : CodeImage) (p : Z) (parts : CV6xxBootParts) : Prop :=
  exists params uboot, ddr_params_at file p params /\
    code_image_at file (tables_end params) CV6XX_UBOOT_MAGIC uboot /\
    parts = mkParts (slice file 0 (ci_end gsl)) (ci_end gsl) p (dp_table_offset params)
      (dp_table_count params) (dp_table_size params) (dp_board_mapping params)
      (slice file (tables_end params) (ci_end uboot)) file.

Lemma try_params_cases file gsl p :
  is_bytes file -> 0 <= p ->
  (exists parts, try_params file gsl p = Ok [parts] /\ params_at file gsl p parts) \/
  (try_params file gsl p = Ok [] /\ forall parts, ~ params_at file gsl p parts).
Proof.
  intros Hb Hp. unfold try_params, params_at.
  destruct (parse_ddr_params_cases file p Hb Hp) as [(d & -> & Hd)|[[m ->] Hn]]; cbn [res_bind].
  2: { right. split; [done|]. intros parts (d & u & Hd & _). by apply (Hn d). }
  destruct (parse_code_image_cases file (tables_end d) CV6XX_UBOOT_MAGIC "U-Boot" Hb)
    as [(u & -> & Hu)|[[m ->] Hn]]; cbn [res_bind].
  - left. eexists. split; [done|]. exists d, u. split; [done|]. split; [done|].
    by rewrite (da_offset _ _ _ Hd), (ca_offset _ _ _ _ Hu).
  - right. split; [done|]. intros parts (d' & u & Hd' & Hu & _). apply (Hn u).
    replace (tables_end d) with (tables_end d'); [done|].
    unfold tables_end. destruct Hd as [? ? ? [Hs _] ? [_ Ho] [Hz _] [Hc _] ? ?].
    destruct Hd' as [? ? ? [Hs' _] ? [_ Ho'] [Hz' _] [Hc' _] ? ?]. by rewrite Ho, Ho', <- Hs, <- Hs', <- Hz, <- Hz', <- Hc, <- Hc'.
Qed.

Lemma code_image_at_fun file off magic i j :
  code_image_at file off magic i -> code_image_at file off magic j -> i = j.
Proof.
  intros [Ho _ _ [Hs _] _ [Hp _] _] [Ho' _ _ [Hs' _] _ [Hp' _] _]. destruct i, j. cbn in *. congruence.
Qed.

Lemma params_at_fun file gsl p a b : params_at file gsl p a -> params_at file gsl p b -> a = b.
Proof.
  intros (d & u & [] & [] & ->) (d' & u' & [] & [] & ->). destruct d, d', u, u'. unfold tables_end, ci_end in *.
  cbn in *. destruct_and?. subst. reflexivity.
Qed.

(** What the inner loop gives for one GSL image. *)
Definition gsl_layouts (file : bytes) (gsl : CodeImage) : list CV6xxBootParts :=
  magic_offsets file CV6XX_DDR_PARAMS_MAGIC (ci_end gsl)
    (Some (Z.min (len file) (ci_end gsl + MAX_SECTION_GAP + 4))) ≫=
  (fun p => match try_params file gsl p with Ok l => l | _ => [] end).

Section Layouts.
Variables (file : bytes) (g : Z) (gsl : CodeImage).
Hypothesis Hb : is_bytes file.
Hypothesis Hg : 0 <= g <= 0x10000 /\ g mod 256 = 0.
Hypothesis Hgsl : code_image_at file g CV6XX_GSL_MAGIC gsl.

Lemma gsl_end_nonneg : 0 <= ci_end gsl.
Proof using Hg Hgsl. destruct Hgsl. unfold ci_end. lia. Qed.

Lemma params_in_scan p parts :
  layout_at file g p parts <->
  p ∈ magic_offsets file CV6XX_DDR_PARAMS_MAGIC (ci_end gsl)
    (Some (Z.min (len file) (ci_end gsl + MAX_SECTION_GAP + 4))) /\ params_at file gsl p parts.
Proof using Hb Hg Hgsl.
  pose proof gsl_end_nonneg as H0. destruct (magic_offsets_spec file CV6XX_DDR_PARAMS_MAGIC (ci_end gsl)
    (Z.min (len file) (ci_end gsl + MAX_SECTION_GAP + 4)) H0) as [_ Hin]. rewrite Hin. clear Hin.
  unfold MAX_SECTION_GAP. split.
  - intros [_ Hp (gsl' & d & u & Hgsl' & Hpr & Hd & Hu & ->)].
    assert (gsl' = gsl) as ->.
    { exact (code_image_at_fun _ _ _ _ _ Hgsl' Hgsl). }
    assert (Hpe : p + 308 <= len file).
    { destruct Hd. unfold tables_end in *. pose proof (u32_nonneg file (p + 32) Hb). destruct d as [? ? ? ts tc ?].
      cbn in *. assert (0 <= ts * tc) by (apply Z.mul_nonneg_nonneg; lia). lia. }
    split; [|by exists d, u]. split_and!; [lia|lia| |done].
    exact (proj2 (u32_magic file p CV6XX_DDR_PARAMS_MAGIC Hb ltac:(lia) ltac:(lia) ltac:(by vm_compute)) (da_magic _ _ _ Hd)).
  - intros [(H1 & H2 & H3 & H4) (d & u & Hd & Hu & ->)]. split; [exact Hg|exact H4|]. exists gsl, d, u. split_and!; [done|lia|lia|done..].
Qed.

Lemma gsl_layouts_collect :
  collect (try_params file gsl) (magic_offsets file CV6XX_DDR_PARAMS_MAGIC (ci_end gsl)
    (Some (Z.min (len file) (ci_end gsl + MAX_SECTION_GAP + 4)))) = Ok (gsl_layouts file gsl).
Proof using Hb Hg Hgsl.
  pose proof gsl_end_nonneg as H0. apply collect_bind. intros p Hp.
  apply magic_offsets_spec in Hp; [|done].
  by destruct (try_params_cases file gsl p Hb ltac:(lia)) as [(? & -> & _)|[-> _]].
Qed.

Lemma gsl_layouts_nil : gsl_layouts file gsl = [] <-> forall p parts, ~ layout_at file g p parts.
Proof using Hb Hg Hgsl.
  pose proof gsl_end_nonneg as H0. unfold gsl_layouts. rewrite bind_nil_iff. split.
  - intros Hn p parts [Hin Hp]%params_in_scan. specialize (Hn p Hin). cbn in Hn.
    apply magic_offsets_spec in Hin; [|done].
    destruct (try_params_cases file gsl p Hb ltac:(lia)) as [(? & Ht & _)|[_ Ht]]; [by rewrite Ht in Hn|by apply (Ht parts)].
  - intros Hn p Hin. pose proof Hin as Hin'. apply magic_offsets_spec in Hin'; [|done].
    destruct (try_params_cases file gsl p Hb ltac:(lia)) as [(parts & -> & Hp)|[-> _]]; [|done].
    exfalso. apply (Hn p parts). by apply params_in_scan.
Qed.

Lemma gsl_layouts_one parts :
  gsl_layouts file gsl = [parts] <->
  exists p, layout_at file g p parts /\ forall p' parts', layout_at file g p' parts' -> p' = p.
Proof using Hb Hg Hgsl.
  pose proof gsl_end_nonneg as H0. unfold gsl_layouts. rewrite bind_one_iff by (by apply magic_offsets_spec).
  split.
  - intros (p & Hin & Ht & Hn). exists p. pose proof Hin as Hin'. apply magic_offsets_spec in Hin'; [|done].
    destruct (try_params_cases file gsl p Hb ltac:(lia)) as [(parts' & E & Hp)|[E _]]; rewrite E in Ht; [|done].
    injection Ht as ->. split; [by apply params_in_scan|]. intros p' parts' [Hin2 Hp2]%params_in_scan.
    destruct (decide (p' = p)); [done|]. specialize (Hn p' Hin2 ltac:(done)). cbn in Hn.
    apply magic_offsets_spec in Hin2; [|done].
    destruct (try_params_cases file gsl p' Hb ltac:(lia)) as [(? & E2 & _)|[_ E2]]; [by rewrite E2 in Hn|by destruct (E2 parts')].
  - intros (p & [Hin Hp]%params_in_scan & Hu). exists p. split; [done|].
    pose proof Hin as Hin'. apply magic_offsets_spec in Hin'; [|done]. split.
    + destruct (try_params_cases file gsl p Hb ltac:(lia)) as [(parts' & -> & Hp')|[_ E]]; [|by destruct (E parts)].
      by rewrite (params_at_fun _ _ _ _ _ Hp Hp').
    + intros p' Hin2 Hne. pose proof Hin2 as Hin3. apply magic_offsets_spec in Hin3; [|done].
      destruct (try_params_cases file gsl p' Hb ltac:(lia)) as [(parts' & _ & Hp')|[-> _]]; [|done].
      destruct Hne. apply (Hu p' parts'). by apply params_in_scan.
Qed.

End Layouts.

Lemma try_gsl_cases file g :
  is_bytes file -> 0 <= g <= 0x10000 /\ g mod 256 = 0 ->
  exists l, try_gsl file g = Ok l /\
    (l = [] <-> forall p parts, ~ layout_at file g p parts) /\
    (forall parts, l = [parts] <->
      exists p, layout_at file g p parts /\ forall p' parts', layout_at file g p' parts' -> p' = p).
Proof.
  intros Hb Hg. unfold try_gsl.
  destruct (parse_code_image_cases file g CV6XX_GSL_MAGIC "GSL" Hb) as [(gsl & -> & Hi)|[[m ->] Hn]]; cbn [res_bind except_protocol].
  - rewrite (gsl_layouts_collect file g gsl) by done. eexists. split; [done|].
    split; [by apply gsl_layouts_nil|]. intros parts. by apply gsl_layouts_one.
  - assert (Hno : forall p parts, ~ layout_at file g p parts).
    { intros p parts [_ _ (gsl & _ & _ & Hi & _)]. by apply (Hn gsl). }
    exists []. split; [done|]. split; [done|]. intros parts. split; [done|].
    intros (p & Hp & _). by destruct (Hno p parts).
Qed.

Lemma gsl_in_scan file g p parts :
  is_bytes file -> layout_at file g p parts ->
  g ∈ magic_offsets file CV6XX_GSL_MAGIC 0 (Some (Z.min (len file) (MAX_GSL_HEADER_OFFSET + 4))).
Proof.
  intros Hb [Hg _ (gsl & d & u & Hi & _)]. apply magic_offsets_spec; [lia|]. unfold MAX_GSL_HEADER_OFFSET.
  assert (g + 4 <= len file) by (destruct Hi; unfold ci_end in *; lia).
  split_and!; [lia|lia| |lia].
  exact (proj2 (u32_magic file g CV6XX_GSL_MAGIC Hb ltac:(lia) ltac:(lia) ltac:(by vm_compute)) (ca_magic _ _ _ _ Hi)).
Qed.

Lemma gsl_scan_range file g :
  g ∈ magic_offsets file CV6XX_GSL_MAGIC 0 (Some (Z.min (len file) (MAX_GSL_HEADER_OFFSET + 4))) ->
  0 <= g <= 0x10000 /\ g mod 256 = 0.
Proof. intros Hg%magic_offsets_spec; [|lia]. unfold MAX_GSL_HEADER_OFFSET in Hg. lia. Qed.

(** The layout of a file that has exactly one. *)
Definition sole_layout (file : bytes) (parts : CV6xxBootParts) : Prop :=
  exists g p, layout_at file g p parts /\
    forall g' p' parts', layout_at file g' p' parts' -> g' = g /\ p' = p.

Definition all_layouts (file : bytes) : list CV6xxBootParts :=
  magic_offsets file CV6XX_GSL_MAGIC 0 (Some (Z.min (len file) (MAX_GSL_HEADER_OFFSET + 4))) ≫=
  (fun g => match try_gsl file g with Ok l => l | _ => [] end).

Section Parse.
Variable file : bytes.
Hypothesis Hb : is_bytes file.

Lemma all_layouts_collect :
  collect (try_gsl file) (magic_offsets file CV6XX_GSL_MAGIC 0
    (Some (Z.min (len file) (MAX_GSL_HEADER_OFFSET + 4)))) = Ok (all_layouts file).
Proof using Hb.
  apply collect_bind. intros g Hg%gsl_scan_range. by destruct (try_gsl_cases file g Hb Hg) as (l & -> & _).
Qed.

Lemma all_layouts_nil : all_layouts file = [] <-> forall g p parts, ~ layout_at file g p parts.
Proof using Hb.
  unfold all_layouts. rewrite bind_nil_iff. split.
  - intros Hn g p parts Hl. pose proof (gsl_in_scan _ _ _ _ Hb Hl) as Hin. specialize (Hn g Hin). cbn in Hn.
    destruct (try_gsl_cases file g Hb (gsl_scan_range _ _ Hin)) as (l & E & Hnil & _). rewrite E in Hn.
    by destruct (proj1 Hnil Hn p parts).
  - intros Hn g Hin. destruct (try_gsl_cases file g Hb (gsl_scan_range _ _ Hin)) as (l & -> & Hnil & _).
    apply Hnil. by apply Hn.
Qed.

Lemma all_layouts_one parts : all_layouts file = [parts] <-> sole_layout file parts.
Proof using Hb.
  unfold all_layouts. rewrite bind_one_iff by (by apply magic_offsets_spec). split.
  - intros (g & Hin & E & Hn). destruct (try_gsl_cases file g Hb (gsl_scan_range _ _ Hin)) as (l & El & _ & Hone).
    rewrite El in E. destruct (proj1 (Hone parts) E) as (p & Hp & Hu). exists g, p. split; [done|].
    intros g' p' parts' Hl. pose proof (gsl_in_scan _ _ _ _ Hb Hl) as Hin'.
    destruct (decide (g' = g)) as [->|Hne]; [split; [done|by eapply Hu]|].
    specialize (Hn g' Hin' Hne). cbn in Hn.
    destruct (try_gsl_cases file g' Hb (gsl_scan_range _ _ Hin')) as (l' & El' & Hnil & _). rewrite El' in Hn.
    by destruct (proj1 Hnil Hn p' parts').
  - intros (g & p & Hl & Hu). pose proof (gsl_in_scan _ _ _ _ Hb Hl) as Hin. exists g. split; [done|]. split.
    + destruct (try_gsl_cases file g Hb (gsl_scan_range _ _ Hin)) as (l & -> & _ & Hone). apply Hone.
      exists p. split; [done|]. intros p' parts' Hl'. by apply (Hu g p' parts').
    + intros g' Hin' Hne. destruct (try_gsl_cases file g' Hb (gsl_scan_range _ _ Hin')) as (l & -> & Hnil & _).
      apply Hnil. intros p' parts' Hl'. by destruct (Hu _ _ _ Hl').
Qed.

Lemma parse_cv6xx_layout parts : parse_cv6xx_boot file = Ok parts -> exists g p, layout_at file g p parts.
Proof using Hb.
  unfold parse_cv6xx_boot. rewrite all_layouts_collect. cbn [res_bind]. intros H.
  assert (E : all_layouts file = [parts]) by (destruct (all_layouts file) as [|a [|b l]]; by inversion H).
  apply all_layouts_one in E as (g & p & Hl & _). eauto.
Qed.

End Parse.

(** C22. The composite image parser decides a declarative notion of layout: it
    returns [parts] exactly when the file has one place for the GSL and one
    for the DDR header whose headers, tables and U-Boot are all well formed
    and within the file, and [parts] are its sections; it says that there is
    no layout exactly when there is none; and it ends in no other way than a
    result or a [ProtocolError] (no header it reads is past the end). *)
Theorem parse_cv6xx_boot_spec file :
  is_bytes file ->
  (forall parts, parse_cv6xx_boot file = Ok parts <-> sole_layout file parts) /\
  (parse_cv6xx_boot file = Raise (ProtocolError "No structurally valid CV6xx GSL/DDR/U-Boot layout found") <->
   forall g p parts, ~ layout_at file g p parts) /\
  ((exists parts, parse_cv6xx_boot file = Ok parts) \/
   exists m, parse_cv6xx_boot file = Raise (ProtocolError m)).
Proof.
  intros Hb. unfold parse_cv6xx_boot. rewrite all_layouts_collect by done. cbn [res_bind].
  pose proof (all_layouts_one file Hb) as H1. pose proof (all_layouts_nil file Hb) as H0.
  split; [|split].
  - intros parts. rewrite <- H1. by destruct (all_layouts file) as [|a [|b l]]; split; intros [= ->].
  - rewrite <- H0. destruct (all_layouts file) as [|a [|b l]]; by split.
  - destruct (all_layouts file) as [|a [|b l]]; eauto.
Qed.

(** The smallest composite image: a GSL of 512 bytes at 0, one DDR table, a
    U-Boot of 512 bytes. *)
Definition code_header (magic payload : Z) : bytes :=
  le_bytes 4 magic ++ le_bytes 4 1 ++ le_bytes 4 256 ++ le_bytes 4 64 ++ brep 20 0 ++ le_bytes 4 payload ++ brep 216 0.
Definition ddr_header : bytes :=
  le_bytes 4 CV6XX_DDR_PARAMS_MAGIC ++ le_bytes 4 1 ++ le_bytes 4 512 ++ le_bytes 4 64 ++ brep 16 0 ++
  le_bytes 4 0 ++ le_bytes 4 256 ++ le_bytes 4 1 ++ brep 256 0 ++ [0xFF; 0; 0; 0xFF; 0; 0; 0; 0] ++ brep 204 0.
Definition cv6xx_image : bytes :=
  (code_header CV6XX_GSL_MAGIC 512 ++ brep 512 1) ++ ddr_header ++ brep 256 2 ++
  code_header CV6XX_UBOOT_MAGIC 512 ++ brep 512 3.
Definition cv6xx_parts : CV6xxBootParts :=
  mkParts (slice cv6xx_image 0 768) 768 768 1280 1 256 [0xFF; 0; 0; 0xFF; 0; 0; 0; 0]
    (slice cv6xx_image 1536 2304) cv6xx_image.

Lemma cv6xx_image_bytes : is_bytes cv6xx_image.
Proof.
  unfold cv6xx_image, code_header, ddr_header, brep.
  repeat apply Forall_app_2; try apply Forall_replicate; try (by apply le_bytes_is_bytes); repeat constructor; lia.
Qed.

Theorem parse_cv6xx_boot_spec_witness :
  is_bytes cv6xx_image /\ parse_cv6xx_boot cv6xx_image = Ok cv6xx_parts /\ sole_layout cv6xx_image cv6xx_parts.
Proof.
  split; [exact cv6xx_image_bytes|]. assert (E : parse_cv6xx_boot cv6xx_image = Ok cv6xx_parts) by (vm_compute; reflexivity).
  split; [exact E|]. apply (proj1 (parse_cv6xx_boot_spec cv6xx_image cv6xx_image_bytes)). exact E.
Defined.

(** ** The DDR table of a board *)

(** For every parsed image and every board id a device can report, the DDR
    table is built: it is the image from the end of the GSL to the first
    table (so it starts with the key area and holds the DDR header where the
    parser found it), followed by one whole table of the image; the table is
    the one the board map gives for the board id (for board 0 past the end of
    the map), and table 0 when the map has no table for it. *)
Theorem build_ddr_table_spec file parts board_id :
  is_bytes file -> parse_cv6xx_boot file = Ok parts -> 0 <= board_id ->
  exists x k out, board_mapping parts !! Z.to_nat (if board_id <? 8 then board_id else 0) = Some x /\
    k = (if x <? table_count parts then x else 0) /\ 0 <= k < table_count parts /\
    build_ddr_table parts board_id = Ok out /\
    let off := first_table_offset parts + k * table_size parts in
    out = slice file (gsl_size parts) (first_table_offset parts) ++ slice file off (off + table_size parts) /\
    off + table_size parts <= len file /\
    len out = first_table_offset parts - gsl_size parts + table_size parts /\
    unpack_le 4 out (params_start parts - gsl_size parts) = Ok CV6XX_DDR_PARAMS_MAGIC.
Proof.
  intros Hb Hp Hbid. destruct (parse_cv6xx_layout file Hb parts Hp) as (g & p & [Hg _ (gsl & d & u & Hi & Hgap & Hd & _ & ->)]).
  cbn [board_mapping table_count table_size gsl_size first_table_offset params_start file_data].
  assert (0 <= ci_end gsl) by (by apply (gsl_end_nonneg file g gsl Hg Hi)).
  destruct Hd as [_ Hmag _ (_ & Hst & _) _ (_ & Hto) (_ & Hts & _) (_ & Htc) (Hm & _) Hend].
  unfold tables_end in Hend. pose proof (u32_nonneg file (p + 32) Hb).
  set (ts := dp_table_size d) in *. set (tc := dp_table_count d) in *. set (fto := dp_table_offset d) in *.
  assert (0 <= ts * tc) by (apply Z.mul_nonneg_nonneg; lia).
  assert (Hml : length (dp_board_mapping d) = 8%nat).
  { rewrite Hm. apply Nat2Z.inj. change (len (slice file (p + 300) (p + 308)) = 8). rewrite len_slice; lia. }
  set (bi := if board_id <? 8 then board_id else 0).
  assert (Hbi : 0 <= bi < 8) by (unfold bi; destruct (board_id <? 8) eqn:E; b2p; lia).
  destruct (dp_board_mapping d !! Z.to_nat bi) as [x|] eqn:Ex; [|apply lookup_ge_None in Ex; lia].
  assert (Hx : 0 <= x).
  { apply list_elem_of_lookup_2 in Ex. rewrite Hm in Ex. 
    assert (Hsb : is_bytes (slice file (p + 300) (p + 308))) by (by apply is_bytes_slice).
    exact (proj1 (proj1 (Forall_forall _ _) Hsb x Ex)). }
  assert (Hk : 0 <= (if x <? tc then x else 0) < tc) by (destruct (x <? tc) eqn:E; b2p; lia).
  assert (Hkt : (if x <? tc then x else 0) * ts + ts <= ts * tc) by nia.
  set (k := if x <? tc then x else 0) in *. exists x, k. eexists. split; [done|]. split; [done|]. split; [done|]. split.
  { unfold build_ddr_table. cbn. unfold len. rewrite Hml. change (Z.of_nat 8) with 8. fold bi. unfold index. rewrite Ex.
    cbn. rewrite Z.leb_antisym. fold tc ts fto. replace (if negb (x <? tc) then 0 else x) with k by (unfold k; by destruct (x <? tc)).
    reflexivity. }
  cbn zeta. split; [done|]. split; [lia|].
  assert (Hl : len (slice file (ci_end gsl) fto) = fto - ci_end gsl) by (rewrite len_slice; lia).
  split.
  { rewrite len_app, Hl, len_slice by lia. assert (0 <= k * ts) by nia. lia. }
  unfold unpack_le. rewrite len_app, Hl, len_slice by lia. assert (0 <= k * ts) by nia.
  replace (_ <=? _) with true by (symmetry; apply Z.leb_le; lia). f_equal.
  rewrite slice_app_l by lia. unfold u32 in Hmag. rewrite <- Hmag. f_equal.
  unfold slice. rewrite skipn_firstn_comm, take_take, drop_drop. f_equal; [lia|]. f_equal. lia.
Qed.

(** ** Traces over any transport *)

Section Trace.
Context {T : Type} `{Transport T}.
Variable fuel : nat.
Abbreviation M6 := (M T HiSiliconCV6xx).
Abbreviation emits := (emits (T := T) (Ob := HiSiliconCV6xx)).

(** The frame sending code is that of [hisilicon_v500.py], line by line. *)
Lemma cv6xx_send_data_v500 data address :
  cv6xx_send_data_to_bootrom (T := T) fuel data address = send_data_to_bootrom fuel data address.
Proof. reflexivity. Qed.

Lemma cv6xx_area_emits data address :
  emits (cv6xx_send_data_to_bootrom fuel data address) (fun r l => r = Ok true -> area_sent data address l).
Proof. rewrite cv6xx_send_data_v500. apply send_area_emits. Qed.

Lemma poll_chunk_emits tmo :
  emits (poll_chunk tmo) (fun r l => writes l = [] /\
    match r with Ok (Some d) => reads l = d | Ok None => reads l = [] | _ => True end).
Proof.
  unfold poll_chunk. repeat emits_step; cbn; rewrite ?app_nil_r; try done;
    destruct (is_TransportTimeout _); repeat emits_step; done.
Qed.

(** A reply to the board id query in the bytes received: the first 0xCE starts
    eleven bytes that end in the ACK. *)
Definition board_reported (rx : bytes) (cpu_id board_id : Z) (rest : bytes) : Prop :=
  exists pre resp, rx = pre ++ resp ++ rest /\ (0xCE ∉ pre) /\ len resp = 11 /\
    resp !! 0%nat = Some 0xCE /\ resp !! 1%nat = Some cpu_id /\ resp !! 10%nat = Some 0xAA /\
    board_id = be_int (slice resp 4 8).

Lemma slice1_lookup (l : bytes) i b : 0 <= i -> (slice l i (i + 1) = [b] <-> l !! Z.to_nat i = Some b).
Proof.
  intros Hi. unfold slice. replace (Z.to_nat (i + 1 - i)) with 1%nat by lia.
  rewrite <- (Nat.add_0_r (Z.to_nat i)) at 2. rewrite <- lookup_drop.
  destruct (drop _ l) as [|a l']; cbn; naive_solver.
Qed.

Lemma board_reply_some buf cpu_id board_id rest :
  board_reply buf = Ok (Some (cpu_id, board_id, rest)) -> board_reported buf cpu_id board_id rest.
Proof.
  unfold board_reply, contains. pose proof (find_bytes_spec [0xCE] buf 0 (len buf) ltac:(lia)) as Hf. cbn zeta in Hf.
  set (i := find_bytes _ _ _ _) in *. destruct (0 <=? i) eqn:Ei; [|done]. b2p.
  destruct Hf as [[? _]|(_ & _ & Hi & Hb)]; [lia|]. change (len [0xCE]) with 1 in *.
  destruct (negb (i + 11 <=? len buf)) eqn:E1; [done|]. b2p. unfold index at 1.
  destruct (buf !! Z.to_nat (i + 10)) as [b10|] eqn:E2; [|done]. cbn [of_opt res_bind].
  destruct (b10 =? 0xAA) eqn:E3; [|done]. b2p. subst b10. intros Hr.
  assert (Hlk : forall k, (k < 11)%nat -> slice buf i (i + 11) !! k = buf !! (Z.to_nat i + k)%nat).
  { intros k Hk. unfold slice. rewrite lookup_take_lt, lookup_drop by lia. done. }
  destruct (index (slice buf i (i + 11)) 1) as [c|e|] eqn:Ec; [|done..]. cbn [res_bind] in Hr.
  destruct (unpack_be 4 _ 0) as [b|e|] eqn:Eb; [|done..]. injection Hr as -> -> <-.
  exists (take (Z.to_nat i) buf), (slice buf i (i + 11)). split_and!.
  - unfold slice. replace (Z.to_nat (i + 11 - i)) with 11%nat by lia.
    replace (Z.to_nat (i + 11)) with (Z.to_nat i + 11)%nat by lia. rewrite <- drop_drop, !take_drop. done.
  - intros (k & Hk)%list_elem_of_lookup. apply lookup_take_Some in Hk as [Hk Hlt].
    apply (Hb (Z.of_nat k)); [lia|]. apply slice1_lookup; [lia|]. by rewrite Nat2Z.id.
  - rewrite len_slice; lia.
  - rewrite Hlk by lia. rewrite Nat.add_0_r. by apply slice1_lookup.
  - unfold index in Ec. change (Z.to_nat 1) with 1%nat in Ec. by destruct (_ !! 1%nat); inversion Ec.
  - rewrite Hlk by lia. rewrite <- E2. f_equal. lia.
  - unfold unpack_be in Eb. destruct (_ <=? _); [|done]. injection Eb as <-. f_equal.
    apply slice_all. unfold slice, len. rewrite length_take. lia.
Qed.

Lemma push_back_emits rem :
  emits (push_back rem) (fun r l => writes l = [] /\ reads l = []).
Proof.
  unfold push_back. repeat emits_step; try done;
    destruct (bool_decide _); repeat emits_step; try done; destruct (is_TransportTimeout _); repeat emits_step; done.
Qed.

Lemma board_loop_emits start :
  emits (while fuel (board_id_body start) []) (fun r l => writes l = [] /\
    match r with Ok (Rtn b) => exists cpu rest, board_reported (reads l) cpu b rest | _ => True end).
Proof.
  apply (emits_while (fun buf l => writes l = [] /\ reads l = buf)); [done| |by intros ? ? []].
  intros buf l0 [Hw Hr]. unfold board_id_body. emits_step. emits_step. emits_step.
  { apply emits_ret. rewrite !app_nil_r. done. }
  emits_step. eapply emits_weaken; [apply poll_chunk_emits|]. intros [[chunk|]|e|] l [Hlw Hlr]; cbn.
  2: { emits_step. emits_step. emits_step. autorewrite with trace. by rewrite Hw, Hr, Hlw, Hlr, !app_nil_r. }
  2, 3: by autorewrite with trace; rewrite Hw, Hlw.
  emits_step. emits_step. destruct (board_reply (buf ++ chunk)) as [[[[c b] rest]|]|e|] eqn:E; cbn.
  - apply board_reply_some in E. emits_step. emits_step. emits_step. emits_step.
    emits_step. eapply emits_weaken; [apply push_back_emits|]. intros [[]|e|] l' [Hw' Hr']; cbn;
      repeat emits_step; autorewrite with trace; rewrite Hw, Hlw, Hw', ?Hr, ?Hlr, ?Hr', ?app_nil_r; try done.
    split; [done|]. eauto.
  - repeat emits_step. autorewrite with trace. by rewrite Hw, Hr, Hlw, Hlr.
  - autorewrite with trace. by rewrite Hw, Hlw.
  - autorewrite with trace. by rewrite Hw, Hlw.
Qed.

Lemma get_board_id_emits unix_time :
  emits (get_board_id fuel unix_time) (fun r l => forall b, r = Ok b ->
    (exists f, board_id_frame unix_time = Ok f /\ writes l = [f]) /\
    (b = 0 \/ exists cpu rest, board_reported (reads l) cpu b rest)).
Proof.
  unfold get_board_id. emits_step. emits_step. destruct (board_id_frame unix_time) as [f|e|] eqn:Ef; [|done..].
  emits_step. emits_step; [|done..]. emits_step. emits_step; [|done..]. emits_step. emits_step. emits_step.
  eapply emits_weaken; [apply board_loop_emits|]. intros [[s|s|b]|e|] l [Hw Hr]; cbn; try done;
    apply emits_ret; rewrite app_nil_r; intros b' [= <-];
    (split; [exists f; split; [done|]; cbn; by f_equal|]); eauto.
Qed.

Lemma training_emits :
  emits (training_wait fuel) (fun r l => forall text, r = Ok text -> writes l = [] /\ text = spl_text (reads l)).
Proof.
  unfold training_wait. emits_step. emits_step. emits_step.
  eapply emits_weaken; [apply (emits_while (fun text l => writes l = [] /\ text = spl_text (reads l)) _ _ _
    (fun r l => match r with Ok (Brk t) => writes l = [] /\ t = spl_text (reads l) | Ok (Next t) => False | _ => True end)); [done| |done]|].
  2: { intros [[t|t|[]]|e|] l Hl; cbn; try done; apply emits_ret || apply emits_diverge; rewrite app_nil_r;
       by intros text [= <-]. }
  intros text l0 [Hw Ht]. unfold training_body. emits_step. emits_step. emits_step. emits_step. emits_step.
  { apply emits_ret. by rewrite !app_nil_r. }
  emits_step. eapply (emits_weaken _ (fun r l => writes l = [] /\
    match r with Ok t => t = text ++ spl_text (reads l) | _ => True end)).
  - repeat emits_step; cbn; rewrite ?app_nil_r; try done;
      destruct (is_TransportTimeout _); repeat emits_step; cbn; rewrite ?app_nil_r; done.
  - intros [t|e|] l [Hlw Hlt]; cbn; [|done..]. repeat emits_step. autorewrite with trace. rewrite Hw, Hlw, Hlt, Ht.
    unfold spl_text. by rewrite filter_app.
Qed.

End Trace.

(** The session up to the end of the DDR training: the GSL, the board id
    query, the DDR table of the board that answered, and a wait in which the
    SPL printed [text]. *)
Definition table_sent (unix_time : Z) (parts : CV6xxBootParts) (l : list event) (text : bytes) : Prop :=
  exists l1 l2 l3 l4 query board_id table, l = l1 ++ l2 ++ l3 ++ l4 /\
    area_sent (gsl_data parts) GSL_LOAD_ADDR l1 /\
    board_id_frame unix_time = Ok query /\ writes l2 = [query] /\
    (board_id = 0 \/ exists cpu rest, board_reported (reads l2) cpu board_id rest) /\
    build_ddr_table parts board_id = Ok table /\
    area_sent table DDR_LOAD_ADDR l3 /\
    writes l4 = [] /\ text = spl_text (reads l4).

(** What the log says for a result. *)
Definition cv6xx_outcome (unix_time : Z) (parts : CV6xxBootParts) (uboot : bytes)
    (r : RecoveryResult) (l : list event) : Prop :=
  (r_success r = true ->
    stages_completed r = [GSL; DDR_TABLE; DDR_TRAINING; UBOOT; COMPLETE] /\
    exists l0 l5 text, l = l0 ++ l5 /\ table_sent unix_time parts l0 text /\
      contains SPL_TABLE_REJECTED text = false /\
      (contains SPL_TABLE_HEADER text = true -> contains SPL_DDR_TRAINED text = true) /\
      area_sent uboot UBOOT_LOAD_ADDR l5) /\
  (retryable r = false ->
    stages_completed r = [GSL; DDR_TABLE] /\
    exists text, table_sent unix_time parts l text /\ contains SPL_TABLE_REJECTED text = true).

Lemma cv6xx_outcome_failed unix_time parts uboot stages e l : cv6xx_outcome unix_time parts uboot (failed stages e) l.
Proof. by split. Qed.

Lemma cv6xx_send_emits {T} `{Transport T} fuel unix_time firmware parts override :
  parse_cv6xx_boot firmware = Ok parts ->
  emits (T := T) (cv6xx_send_firmware fuel unix_time firmware override) (fun r l => forall r', r = Ok r' ->
    cv6xx_outcome unix_time parts (default (uboot_data parts) override) r' l).
Proof.
  intros Hp. unfold cv6xx_send_firmware. rewrite Hp.
  assert (Hf : forall stages e (l : list event) Q, emits (T := T) (Ob := HiSiliconCV6xx) (ret (failed stages e))
    (fun r l' => forall r', r = Ok r' -> cv6xx_outcome unix_time parts Q r' (l ++ l'))).
  { intros stages e l Q. apply emits_ret. intros r' [= <-]. apply cv6xx_outcome_failed. }
  emits_step. eapply emits_weaken; [apply cv6xx_area_emits|].
  intros [[]|e|] l1 H1; cbn [negb]; [|apply Hf|done..].
  emits_step. eapply emits_weaken; [apply get_board_id_emits|]. intros [b|e|] l2 H2; [|done..].
  destruct (H2 b eq_refl) as [(query & Hq & Hw2) Hb]. clear H2.
  emits_step. emits_step. destruct (build_ddr_table parts b) as [table|e|] eqn:Et; [|done..].
  emits_step. eapply emits_weaken; [apply cv6xx_area_emits|].
  intros [[]|e|] l3 H3; cbn [negb]; [|repeat emits_step; by intros r' [= <-]|done..].
  emits_step. eapply emits_weaken; [apply training_emits|]. intros [text|e|] l4 H4; [|done..].
  destruct (H4 text eq_refl) as [Hw4 Htext].
  assert (Hsent : table_sent unix_time parts (l1 ++ l2 ++ l3 ++ l4) text).
  { exists l1, l2, l3, l4, query, b, table. split_and!; try done; auto. }
  destruct (contains SPL_TABLE_REJECTED text) eqn:Er.
  { emits_step. intros r' [= <-]. rewrite !app_nil_r. split; [done|]. intros _. split; [done|]. exists text. by split. }
  destruct (contains SPL_TABLE_HEADER text && negb (contains SPL_DDR_TRAINED text)) eqn:Eh.
  { emits_step. by intros r' [= <-]. }
  emits_step. eapply emits_weaken; [apply cv6xx_area_emits|].
  intros [[]|e|] l5 H5; cbn [negb]; [|repeat emits_step; by intros r' [= <-]|done..].
  emits_step. intros r' [= <-]. split; [|done]. intros _. split; [done|].
  exists (l1 ++ l2 ++ l3 ++ l4), l5, text. rewrite <- !app_assoc, app_nil_r. split_and!; auto.
  intros Hh. rewrite Hh in Eh. cbn in Eh. by apply negb_false_iff in Eh.
Qed.

(** C20. The CV6xx upload over any transport, whatever the device answers.  It
    reports success only if the firmware parsed, and the log is: the GSL
    uploaded to its address with every frame acknowledged in order, one board
    id query, the DDR table of the board id found in the replies (0 without a
    reply), a wait without writes in which the SPL did not reject the table
    and, if it named one, reported the DDR size (an SPL that stays silent is
    taken to have trained the DDR), and the U-Boot (or the override)
    uploaded.  It reports a failure as final only if the SPL
    rejected the table, and then nothing was sent after the table. *)
Theorem cv6xx_send_safe {T} `{Transport T} fuel unix_time firmware override (w : world T HiSiliconCV6xx) r w' :
  cv6xx_send_firmware fuel unix_time firmware override w = (Ok r, w') ->
  r_success r = true \/ retryable r = false ->
  exists parts l, parse_cv6xx_boot firmware = Ok parts /\ log w' = log w ++ l /\
    cv6xx_outcome unix_time parts (default (uboot_data parts) override) r l.
Proof.
  intros Hrun Hr. destruct (parse_cv6xx_boot firmware) as [parts|e|] eqn:Hp.
  - destruct (cv6xx_send_emits (T := T) fuel unix_time firmware parts override Hp w) as (l & Hl & HQ).
    rewrite Hrun in Hl, HQ. exists parts, l. split; [done|]. split; [done|]. by apply HQ.
  - unfold cv6xx_send_firmware in Hrun. rewrite Hp in Hrun.
    destruct e; try done; injection Hrun as <- <-; by destruct Hr.
  - unfold cv6xx_send_firmware in Hrun. by rewrite Hp in Hrun.
Qed.

(** ** The handshake *)

(** The CV6xx handshake over any transport returns only after the boot ROM
    has announced itself: the bytes it received contain [uart ddr] or
    [uart flash], every write was the handshake frame, and the receive buffer
    was flushed after the announcement. *)
Theorem cv6xx_handshake_sound {T} `{Transport T} fuel (w : world T HiSiliconCV6xx) r w' :
  cv6xx_handshake fuel w = (Ok r, w') ->
  exists l n, log w' = log w ++ l ++ [EvFlushInput (Ok tt)] /\ r = handshake_ok /\
    writes l = replicate n cv6xx_handshake_frame /\
    exists a b, reads l = a ++ codes "uart ddr" ++ b \/ reads l = a ++ codes "uart flash" ++ b.
Proof.
  intros Hrun.
  assert (He : emits (T := T) (cv6xx_handshake fuel) (fun r l => forall r', r = Ok r' ->
    r' = handshake_ok /\ exists l' n, l = l' ++ [EvFlushInput (Ok tt)] /\
      writes l' = replicate n cv6xx_handshake_frame /\
      contains (codes "uart ddr") (reads l') || contains (codes "uart flash") (reads l') = true)).
  2: { destruct (He w) as (l & Hl & HQ). rewrite Hrun in Hl, HQ. destruct (HQ r eq_refl) as (-> & l' & n & -> & Hw & Hc).
       exists l', n. split; [done|]. split; [done|]. split; [done|].
       apply orb_true_iff in Hc as [(a & b & Hc)%contains_spec|(a & b & Hc)%contains_spec]; exists a, b; auto. }
  unfold cv6xx_handshake. emits_step.
  eapply emits_weaken; [apply (emits_while (fun buf l => attempts cv6xx_handshake_frame l /\ reads l = buf) _ _ _
    (fun r l => match r with Ok (Rtn r') => r' = handshake_ok /\ exists l' n, l = l' ++ [EvFlushInput (Ok tt)] /\
      writes l' = replicate n cv6xx_handshake_frame /\
      contains (codes "uart ddr") (reads l') || contains (codes "uart flash") (reads l') = true | _ => True end));
    [by split; [exists 0%nat|]| |done]|].
  2: { intros [[t|t|x]|e|] l Hl; cbn; try done; emits_step; rewrite ?app_nil_r; try done. by intros ? [= <-]. }
  clear. intros buf l0 [[n Hn] Hr]. unfold cv6xx_handshake_body. emits_step. emits_step; [|done..].
  emits_step. emits_step. emits_step. eapply emits_weaken; [apply poll_chunk_emits|].
  assert (Ha : forall l, writes l = [] -> writes (l0 ++ EvWrite cv6xx_handshake_frame (Ok tt) :: l) = replicate (n + 1) cv6xx_handshake_frame).
  { intros l Hl. rewrite writes_app, Hn. cbn. fold (writes l). by rewrite Hl, replicate_add. }
  intros [[chunk|]|e|] l [Hlw Hlr]; cbn; try done.
  2: { emits_step. split; [exists (n + 1)%nat; by rewrite app_nil_r, Ha|]. rewrite app_nil_r, reads_app, Hr. cbn. fold (reads l). by rewrite Hlr, app_nil_r. }
  assert (Hrd : forall l', reads (l0 ++ EvWrite cv6xx_handshake_frame (Ok tt) :: l ++ l') = (buf ++ chunk) ++ reads l').
  { intros l'. rewrite reads_app, Hr. change (reads (EvWrite _ _ :: l ++ l')) with (reads (l ++ l')). by rewrite reads_app, Hlr, app_assoc. }
  destruct (_ || _) eqn:Ec; [|emits_step; split; [exists (n + 1)%nat; rewrite Ha; [done|]; by rewrite app_nil_r|by rewrite Hrd, app_nil_r]].
  emits_step. emits_step. emits_step. emits_step. emits_step; cbn.
  - emits_step. cbn. split; [done|]. exists (l0 ++ EvWrite cv6xx_handshake_frame (Ok tt) :: l), (n + 1)%nat.
    split; [exact (app_assoc l0 (EvWrite cv6xx_handshake_frame (Ok tt) :: l) [EvFlushInput (Ok tt)])|].
    rewrite Ha by done. split; [done|].
    specialize (Hrd []). rewrite app_nil_r in Hrd. rewrite Hrd. cbn. by rewrite app_nil_r.
  - destruct (is_TransportTimeout _); [|done]. emits_step. split; [exists (n + 1)%nat; rewrite Ha; [done|]|].
    + rewrite !writes_app, Hlw. done.
    + rewrite Hrd. cbn. by rewrite app_nil_r.
  - done.
Qed.

(** ** A boot ROM that acknowledges frames and answers the board id query *)

Record CvDevice (reply : bytes) := CvDev { cd_rx : bytes; cd_frames : list bytes; cd_clock : Z }.
Arguments CvDev {reply} _ _ _.
Arguments cd_rx {reply} _.
Arguments cd_frames {reply} _.
Arguments cd_clock {reply} _.

#[export] Instance CvDevice_Transport reply : Transport (CvDevice reply) := {|
  t_read n tmo d :=
    if beq (cd_rx d) []
    then (Raise TransportTimeout, CvDev [] (cd_frames d) (cd_clock d + Z.max 0 (default 0 tmo)))
    else (Ok (take (Z.to_nat n) (cd_rx d)), CvDev (drop (Z.to_nat n) (cd_rx d)) (cd_frames d) (cd_clock d));
  t_write f d :=
    (Ok tt, CvDev (cd_rx d ++ (if bool_decide (head f = Some 0xCE) then reply else ACK_BYTE))
              (cd_frames d ++ [f]) (cd_clock d));
  t_flush_input d := (Ok tt, CvDev [] (cd_frames d) (cd_clock d));
  t_flush_output d := (Ok tt, d);
  t_bytes_waiting d := (Ok (len (cd_rx d)), d);
  t_unread x d := (Ok tt, CvDev (x ++ cd_rx d) (cd_frames d) (cd_clock d));
  t_set_baudrate _ d := (Raise NotImplementedError, d);
  t_monotonic d := (cd_clock d, d);
  t_sleep x d := CvDev (cd_rx d) (cd_frames d) (cd_clock d + Z.max 0 x)
|}.

#[export] Instance CvDevice_Acking reply : AckingDevice (CvDevice reply).
Proof.
  refine {| dev_idle d := cd_rx d = []; dev_frames := cd_frames; dev_takes := boot_frame |}.
  intros f [rx fr ck] Hi (b & Hb & Hin). cbn in Hi. subst rx. do 3 eexists. split; [reflexivity|].
  split; [reflexivity|]. cbn. rewrite Hb.
  replace (bool_decide (Some b = Some 0xCE)) with false; [by split_and!|].
  symmetry. apply bool_decide_eq_false. intros [= ->].
  rewrite !elem_of_cons, elem_of_nil in Hin. lia.
Defined.

(** A reply: the magic, the CPU id, two bytes, the board id, two bytes, ACK. *)
Definition board_answer (cpu x y board_id u v : Z) : bytes :=
  [0xCE; cpu; x; y] ++ be_bytes 4 board_id ++ [u; v; 0xAA].

Lemma board_reply_answer cpu x y board_id u v :
  fits 4 board_id = true ->
  board_reply (board_answer cpu x y board_id u v) = Ok (Some (cpu, board_id, [])).
Proof.
  intros Hf. unfold board_answer. pose proof (be_int_be_bytes 4 board_id ltac:(lia) Hf) as Hb.
  pose proof (be_bytes_len 4 board_id ltac:(lia)) as Hl.
  destruct (be_bytes 4 board_id) as [|b0 [|b1 [|b2 [|b3 [|]]]]]; unfold len in Hl; cbn in Hl; try lia.
  rewrite <- Hb. reflexivity.
Qed.

Section Delivers.
Variables (reply : bytes) (cpu board_id : Z).
Hypothesis Hlen : len reply = 11.
Hypothesis Hreply : board_reply reply = Ok (Some (cpu, board_id, [])).
Abbreviation W := (world (CvDevice reply) HiSiliconCV6xx).

Lemma cv6xx_accepts_area fuel data address head :
  (0 < fuel)%nat -> HeadFrame_encode {| hf_length := len data; hf_address := address |} = Ok head ->
  accepts (T := CvDevice reply) (cv6xx_send_data_to_bootrom fuel data address) true (area_frames head data).
Proof.
  intros Hf Hh. assert (Hany : forall f, boot_frame f -> dev_takes (T := CvDevice reply) f) by done.
  rewrite cv6xx_send_data_v500. by apply accepts_area.
Qed.

Lemma board_query_delivers fuel unix_time query (w : W) :
  (0 < fuel)%nat -> board_id_frame unix_time = Ok query -> cd_rx (tr w) = [] ->
  exists w', get_board_id fuel unix_time w = (Ok board_id, w') /\ cd_rx (tr w') = [] /\
    cd_frames (tr w') = cd_frames (tr w) ++ [query] /\
    obj w' = mkCv board_id (Some cpu) (ddr_training_wait (obj w)) (ddr_training_timeout (obj w)).
Proof using Hlen Hreply.
  intros Hf Hq Hi. destruct w as [[rx fr ck] o lg]. cbn in Hi. subst rx.
  assert (Hce : head query = Some 0xCE).
  { unfold board_id_frame in Hq. destruct (pack_be 4 unix_time); [|done..]. by injection Hq as <-. }
  unfold get_board_id. rewrite Hq. unfold bind at 1, lift. unfold bind, flush_input, write, monotonic. cbn. rewrite Hce.
  rewrite bool_decide_eq_true_2 by done. destruct fuel as [|n]; [lia|]. cbn [while].
  unfold bind at 1, board_id_body at 1, bind, poll_chunk, try_except, monotonic, bytes_waiting, read. cbn -[board_reply].
  rewrite Z.sub_diag. cbn -[board_reply]. rewrite Hlen. cbn -[board_reply]. unfold bind. cbn -[board_reply].
  replace (beq reply []) with false by (symmetry; apply bool_decide_eq_false; by intros ->).
  cbn -[board_reply]. rewrite (take_ge reply), (drop_ge reply) by (unfold len in Hlen; lia).
  unfold lift. rewrite Hreply. cbn. eexists. split; [reflexivity|]. done.
Qed.

Lemma training_delivers fuel n start (w : W) :
  cd_rx (tr w) = [] -> ddr_training_wait (obj w) - (cd_clock (tr w) - start) <= Z.of_nat n * 50000 -> (n < fuel)%nat ->
  exists w', while fuel (training_body start) [] w = (Ok (Brk []), w') /\ cd_rx (tr w') = [] /\
    cd_frames (tr w') = cd_frames (tr w) /\ obj w' = obj w.
Proof.
  revert fuel w. induction n as [|n IH]; intros fuel [[rx fr ck] o lg] Hi Hn Hf; cbn in Hi, Hn; subst rx;
    (destruct fuel as [|fuel]; [lia|]); cbn [while];
    unfold bind at 1, training_body at 1, bind, monotonic, get_obj, try_except, bytes_waiting, sleep; cbn.
  - replace (ddr_training_wait o <=? ck - start) with true by (symmetry; apply Z.leb_le; lia). cbn.
    eexists. by split.
  - destruct (ddr_training_wait o <=? ck - start); cbn; [eexists; by split|]. change (0 <? len (@nil Z)) with false. cbn.
    destruct (IH fuel (World (CvDev [] fr (ck + Z.max 0 50000)) o lg)) as (w' & -> & H1 & H2 & H3); cbn; [done|lia|lia|].
    exists w'. by split_and!.
Qed.

End Delivers.

(** C21. Against a boot ROM that acknowledges every frame and answers the board
    id query, and an SPL that prints nothing, the CV6xx upload of a parsed
    image succeeds: the device has received exactly the frames of the GSL, the
    query, the frames of the DDR table of the board it reported, and those of
    the U-Boot (or the override), each once and in order; and the object keeps
    the board and CPU id. *)
Theorem cv6xx_send_delivers cpu x y board_id u v fuel unix_time firmware override parts query table h1 h2 h3
    (w : world (CvDevice (board_answer cpu x y board_id u v)) HiSiliconCV6xx) :
  fits 4 board_id = true -> (0 < fuel)%nat -> ddr_training_wait (obj w) < Z.of_nat fuel * 50000 - 50000 ->
  cd_rx (tr w) = [] ->
  parse_cv6xx_boot firmware = Ok parts -> board_id_frame unix_time = Ok query ->
  build_ddr_table parts board_id = Ok table ->
  HeadFrame_encode {| hf_length := len (gsl_data parts); hf_address := GSL_LOAD_ADDR |} = Ok h1 ->
  HeadFrame_encode {| hf_length := len table; hf_address := DDR_LOAD_ADDR |} = Ok h2 ->
  HeadFrame_encode {| hf_length := len (default (uboot_data parts) override); hf_address := UBOOT_LOAD_ADDR |} = Ok h3 ->
  exists w', cv6xx_send_firmware fuel unix_time firmware override w
      = (Ok (succeeded [GSL; DDR_TABLE; DDR_TRAINING; UBOOT; COMPLETE]), w') /\
    cd_frames (tr w') = cd_frames (tr w) ++ area_frames h1 (gsl_data parts) ++ [query] ++
      area_frames h2 table ++ area_frames h3 (default (uboot_data parts) override) /\
    cv_board_id (obj w') = board_id /\ cv_cpu_id (obj w') = Some cpu.
Proof.
  intros Hb Hf Hwait Hi Hp Hq Ht H1 H2 H3. unfold cv6xx_send_firmware. rewrite Hp.
  pose proof (board_reply_answer cpu x y board_id u v Hb) as Hr.
  assert (Hl : len (board_answer cpu x y board_id u v) = 11).
  { unfold board_answer. rewrite !len_app, be_bytes_len by lia. done. }
  set (reply := board_answer cpu x y board_id u v) in *. clearbody reply.
  destruct (cv6xx_accepts_area reply fuel _ _ _ Hf H1 w Hi) as (w1 & E1 & [Hi1 Ho1] & Hf1).
  destruct (board_query_delivers reply cpu board_id Hl Hr fuel unix_time query w1 Hf Hq Hi1) as (w2 & E2 & Hi2 & Hf2 & Ho2).
  destruct (cv6xx_accepts_area reply fuel _ _ _ Hf H2 w2 Hi2) as (w3 & E3 & [Hi3 Ho3] & Hf3).
  destruct (training_delivers reply fuel (fuel - 1) (cd_clock (tr w3)) w3 Hi3) as (w4 & E4 & Hi4 & Hf4 & Ho4);
    [rewrite Ho3, Ho2; cbn; rewrite Ho1; lia|lia|].
  destruct (cv6xx_accepts_area reply fuel _ _ _ Hf H3 w4 Hi4) as (w5 & E5 & [Hi5 Ho5] & Hf5).
  exists w5. split.
  - unfold bind at 1. rewrite E1. cbn [negb]. unfold bind at 1. rewrite E2. unfold bind at 1, lift. rewrite Ht.
    unfold bind at 1. rewrite E3. cbn [negb]. unfold bind at 1. unfold training_wait, bind at 1, monotonic. cbn [t_monotonic CvDevice_Transport].
    unfold bind at 1. destruct w3 as [t3 o3 lg3]. cbn [tr obj log] in *. rewrite E4. cbn [ret].
    change (contains SPL_TABLE_REJECTED []) with false. change (contains SPL_TABLE_HEADER []) with false. cbn [andb].
    unfold ret at 1. unfold bind at 1. rewrite E5. reflexivity.
  - cbn in Hf1, Hf3, Hf5. rewrite Hf5, Hf4, Hf3, Hf2, Hf1, Ho5, Ho4, Ho3, Ho2, <- !app_assoc. done.
Qed.

(** ** Wrapping a payload *)

(** [wrap_cv6xx_payload]: with at least 1 KiB of header source and a
    payload whose length fits 32 bits it returns an image, otherwise it raises;
    the image is the first 1 KiB of the source, except for the length field,
    then the payload, at the offset the boot ROM jumps to; the length field
    reads back as the payload's length. *)
Theorem wrap_cv6xx_payload_spec source payload :
  match wrap_cv6xx_payload source payload with
  | Ok image =>
      1024 <= len source /\ fits 4 (len payload) = true /\ len image = 1024 + len payload /\
      drop 1024 image = payload /\ unpack_le 4 image 36 = Ok (len payload) /\
      (forall i, (i < 1024)%nat -> ~ 36 <= Z.of_nat i < 40 -> image !! i = source !! i)
  | Raise ValueError => len source < 1024
  | Raise StructError => 1024 <= len source /\ fits 4 (len payload) = false
  | _ => False
  end.
Proof.
  unfold wrap_cv6xx_payload. destruct (len source <? 1024) eqn:E; b2p; [done|].
  assert (Hl : len (slice source 0 1024) = 1024) by (rewrite len_slice; lia).
  destruct (pack_into_le4 (slice source 0 1024) 36 (len payload)) as [h|e|] eqn:Ep; cbn [res_bind].
  - apply pack_into_ok in Ep as (Hf & Hlen & Hv & Hk); [|lia]. rewrite Hl in Hlen.
    assert (Hn : length h = 1024%nat) by (unfold len in Hlen; lia).
    split; [done|]. split; [done|]. split; [rewrite len_app; lia|]. split.
    { rewrite drop_app_ge by lia. by rewrite Hn. }
    split.
    + unfold unpack_le. rewrite len_app, Hlen. pose proof (len_nonneg payload).
      replace (_ <=? _) with true by (symmetry; apply Z.leb_le; lia).
      rewrite slice_app_l by lia. rewrite Hv, le_int_le_bytes by (done || lia). done.
    + intros i Hi Hne. rewrite lookup_app_l by lia. rewrite Hk by done.
      unfold slice. rewrite lookup_take_lt, drop_0 by lia. done.
  - unfold pack_into_le4, pack_le in Ep. rewrite Hl in Ep. destruct (fits 4 (len payload)); [done|]. by injection Ep as <-.
  - unfold pack_into_le4, pack_le in Ep. rewrite Hl in Ep. by destruct (fits 4 (len payload)).
Qed.

(** ** Witnesses *)

Theorem build_ddr_table_spec_witness :
  exists x k out, board_mapping cv6xx_parts !! Z.to_nat 2 = Some x /\
    k = (if x <? table_count cv6xx_parts then x else 0) /\ 0 <= k < table_count cv6xx_parts /\
    build_ddr_table cv6xx_parts 2 = Ok out /\
    let off := first_table_offset cv6xx_parts + k * table_size cv6xx_parts in
    out = slice cv6xx_image (gsl_size cv6xx_parts) (first_table_offset cv6xx_parts) ++
          slice cv6xx_image off (off + table_size cv6xx_parts) /\
    off + table_size cv6xx_parts <= len cv6xx_image /\
    len out = first_table_offset cv6xx_parts - gsl_size cv6xx_parts + table_size cv6xx_parts /\
    unpack_le 4 out (params_start cv6xx_parts - gsl_size cv6xx_parts) = Ok CV6XX_DDR_PARAMS_MAGIC.
Proof.
  apply (build_ddr_table_spec cv6xx_image cv6xx_parts 2);
    [exact cv6xx_image_bytes|vm_compute; reflexivity|lia].
Defined.

(** A session with a board that answers. *)
Definition cv_reply : bytes := board_answer 0x10 0 0 1 0 0.
Definition cv_world : world (CvDevice cv_reply) HiSiliconCV6xx := World (CvDev [] [] 0) (cv6xx_init 100000 50000) [].

Theorem cv6xx_send_delivers_witness :
  exists query table h1 h2 h3 w', cv6xx_send_firmware 5 1700000000 cv6xx_image None cv_world
      = (Ok (succeeded [GSL; DDR_TABLE; DDR_TRAINING; UBOOT; COMPLETE]), w') /\
    cd_frames (tr w') = [] ++ area_frames h1 (gsl_data cv6xx_parts) ++ [query] ++
      area_frames h2 table ++ area_frames h3 (uboot_data cv6xx_parts) /\
    cv_board_id (obj w') = 1 /\ cv_cpu_id (obj w') = Some 0x10.
Proof.
  do 5 eexists.
  apply (cv6xx_send_delivers 0x10 0 0 1 0 0 5 1700000000 cv6xx_image None cv6xx_parts _ _ _ _ _ cv_world);
    [reflexivity|lia|cbn; lia|reflexivity|vm_compute; reflexivity..].
Defined.

Theorem cv6xx_send_safe_witness :
  let w' := snd (cv6xx_send_firmware 5 1700000000 cv6xx_image None cv_world) in
  let r := succeeded [GSL; DDR_TABLE; DDR_TRAINING; UBOOT; COMPLETE] in
  exists parts l, parse_cv6xx_boot cv6xx_image = Ok parts /\ log w' = log cv_world ++ l /\
    cv6xx_outcome 1700000000 parts (default (uboot_data parts) None) r l.
Proof.
  intros w' r. apply (cv6xx_send_safe 5 1700000000 cv6xx_image None cv_world r w'); [vm_compute; reflexivity|by left].
Defined.

Theorem cv6xx_handshake_sound_witness :
  let w := World (Mock ([0; 13] ++ codes "uart ddr" ++ [10]) [] false true 0) (cv6xx_init 0 0) [] in
  let w' := snd (cv6xx_handshake 2 w) in
  exists l n, log w' = log w ++ l ++ [EvFlushInput (Ok tt)] /\ handshake_ok = handshake_ok /\
    writes l = replicate n cv6xx_handshake_frame /\
    exists a b, reads l = a ++ codes "uart ddr" ++ b \/ reads l = a ++ codes "uart flash" ++ b.
Proof.
  intros w w'. apply (cv6xx_handshake_sound 2 w handshake_ok w'). vm_compute. reflexivity.
Defined.
