(* ===== verification/Novatek.v ===== *)
(** * The Novatek boot protocol

  Models [src/src/defib/protocol/novatek.py]: the 16-byte commands, the write
  loader made safe for the mask ROM, the choice of a set from the recovery
  archive, the handshake and the two stages of [send_firmware].  Reading the
  archive is [tarfile]'s: a parameter that gives its members.  Progress
  callbacks, log messages and elapsed times are left out. *)

From stdpp Require Import pretty.
From Stdlib Require Import Ascii.
From Stdlib Require String.
From S2P Require Import Prelude Text Transport Events Profiles HisiV500.

Definition NOVATEK_DIES : list (string * Z) :=
  [("nt98560", 0x70210000); ("nt98561", 0x70210000); ("nt98562", 0x70210000); ("nt98566", 0x70210000);
   ("nt98321", 0x81200000); ("nt98323", 0x81200000);
   ("nt98532", 0x55210000); ("nt98533", 0x55210000)]%string.
Definition NOVATEK_SOCS : list string := NOVATEK_DIES.*1.
Definition DIE_SRAM : list (Z * Z) :=
  [(0x70210000, 0xF07C0000); (0x81200000, 0xFE080000); (0x55210000, 0xF07C0000)].

Definition OPSET : Z := 0xC0.
Definition OP_OPEN_DEVICE : Z := 0x01.
Definition OP_WRLOADER : Z := 0x02.
Definition OP_ADDR_WRITE : Z := 0x03.
Definition OP_MEM_WRITE : Z := 0x04.
Definition OP_IS_NVT : Z := 0x81.
Definition OP_WAIT_DONE : Z := 0x82.
Definition OP_GET_TMP_ADDR : Z := 0x85.
Definition OP_UBOOT : Z := 0x87.
Definition CDB_SIZE : Z := 16.
Definition CDB_STATUS : Z := 13.
Definition CDB_ECHO : Z := 13.
Definition ROM_CHUNK : Z := 0x10000.
Definition WRITE_PIECE : Z := 0x1000.
Definition PACK_CHUNK : Z := 0x1000.
Definition HANDSHAKE_TIMEOUT : Z := 180000000.
Definition HANDSHAKE_INTERVAL : Z := 250000.
Definition ROM_STUCK_ON_TFTP : bytes := codes "S3S4".
Definition REPLY_TIMEOUT : Z := 30000000.
Definition LOADER_START_DELAY : Z := 3000000.

(** ** Commands *)

(** [sum(w + i for i, w in enumerate(struct.unpack("<8H", cdb)))] *)
Definition word_sum (cdb : bytes) : Z :=
  foldr Z.add 0 (imap (fun i w => le_int w + Z.of_nat i) (pieces 2 cdb)).

Definition build_cdb (op addr size : Z) : res bytes :=
  let! o := pack_le 1 op in
  let! a := pack_le 4 addr in
  let! s := pack_le 4 size in
  let cdb := ljust CDB_SIZE 0 ([OPSET] ++ o ++ a ++ s) in
  let total := word_sum cdb in
  Ok (take 14 cdb ++ le_bytes 2 (Z.land (- total) 0xFFFF)).

Definition rom_takes_as_command (chunk : bytes) : bool :=
  let word := le_int (slice chunk 0 4) in
  let half := Z.land word 0xFFFF in
  (word =? 0x81C0) || (word =? 0x01C0) || (word =? 0x82C0)
  || ((half =? 0x83C0) || (half =? 0x03C0) || (half =? 0x02C0)).

(** One turn of the loop over the 16 byte chunks; state: [image], [patches]. *)
Definition defuse_step (s : bytes * list (Z * Z)) (off : Z) : bytes * list (Z * Z) :=
  let (image, patches) := s in
  if rom_takes_as_command (slice image off (off + CDB_SIZE)) then
    (splice image off (brep CDB_SIZE 0),
     patches ++ ((fun i => (off + i, le_int (slice image (off + i) (off + i + 4)))) <$> [0; 4; 8; 12]))
  else s.

(** [loader.ljust(-(-len(loader) // 16) * 16, b"\0")] *)
Definition pad16 (loader : bytes) : bytes :=
  ljust (- (- len loader / CDB_SIZE) * CDB_SIZE) 0 loader.

Definition defuse_loader (loader : bytes) : bytes * list (Z * Z) :=
  let image := pad16 loader in
  foldl defuse_step (image, []) (range_step (len image) CDB_SIZE).

(** ** The recovery archive *)

(** A regular member: its name and what reading it gives, or the text of the
    error. *)
Abbreviation member := (bytes * (string + bytes))%type.

Section Archive.

(** [tarfile.open], [getmembers] and [extractfile().read()]: the regular
    members in order, or the text of the error. *)
Variable tar_members : bytes -> string + list member.

(** The dict by name: a later member of the same name replaces the value and
    keeps the place. *)
Fixpoint files_set (k : bytes) (v : string + bytes) (d : list member) : list member :=
  match d with
  | [] => [(k, v)]
  | (k', v') :: d' => if beq k k' then (k, v) :: d' else (k', v') :: files_set k v d'
  end.

Definition files_of (ms : list member) : list member :=
  foldl (fun d m => files_set (removeprefix (codes "./") (fst m)) (snd m) d) [] ms.

Definition read_member (files : list member) (path : bytes) : res bytes :=
  match assoc files path with
  | Some (inr b) => Ok b
  | Some (inl e) => Raise (ProtocolError ("not a recovery archive: " +:+ e))
  | None => Raise KeyError
  end.

Definition recovery_folder (chip flash_type : string) : string :=
  "recovery-" +:+ base_chip chip +:+ "-" +:+ flash_type.

Definition load_recovery_set (archive : bytes) (chip flash_type loader : string) : res (bytes * bytes) :=
  let folder := recovery_folder chip flash_type in
  match tar_members archive with
  | inl e => Raise (ProtocolError ("not a recovery archive: " +:+ e))
  | inr ms =>
      let files := files_of ms in
      let wrloader := codes (folder +:+ "/" +:+ loader) in
      let packs := filter (fun n => starts_with (codes (folder +:+ "/FW")) n &&
                                    ends_with (codes "T.BIN") (upper_codes n)) files.*1 in
      if negb (bool_decide (wrloader ∈ files.*1)) || negb (bool_decide (length packs = 1%nat))
      then Raise (ProtocolError ("the recovery archive has no " +:+ loader +:+ " set " +:+ folder)) else
      let! image := read_member files wrloader in
      let! pack := read_member files (default [] (head packs)) in
      if beq image [] || beq pack []
      then Raise (ProtocolError ("the recovery archive has an empty file in " +:+ folder)) else
      Ok (image, pack)
  end.

(** ** The object *)

Record Novatek := mkNvt {
  nv_chip : string; nv_flash_type : string; nv_rx : bytes; nv_chip_word : Z; nv_loader_running : bool
}.
Definition Novatek_init : Novatek := mkNvt "" "nor" [] 0 false.

Definition novatek_matches (chip_name : string) : bool := bool_decide (base_chip chip_name ∈ NOVATEK_SOCS).

Definition set_target (chip flash_type : string) (o : Novatek) : Novatek :=
  mkNvt (base_chip chip) flash_type (nv_rx o) (nv_chip_word o) (nv_loader_running o).
Definition set_rx (rx : bytes) (o : Novatek) : Novatek :=
  mkNvt (nv_chip o) (nv_flash_type o) rx (nv_chip_word o) (nv_loader_running o).
Definition set_chip_word (w : Z) (o : Novatek) : Novatek :=
  mkNvt (nv_chip o) (nv_flash_type o) (nv_rx o) w (nv_loader_running o).

(** [str(e)] of the exceptions whose message is not in the model. *)
Variable str_exn : exn -> string.
Definition exn_text (e : exn) : string := match e with ProtocolError m => m | _ => str_exn e end.
Definition is_ProtocolError (e : exn) : bool := match e with ProtocolError _ => true | _ => false end.

Section Session.
Context {T : Type} `{Transport T}.
Variable fuel : nat.
Abbreviation MN := (M T Novatek).

(** One turn of the wait for the echo; [Rtn at] when it is there. *)
Definition command_body (cdb : bytes) (reply deadline : Z) (_ : unit) : MN (ctl unit Z) :=
  let* o := get_obj in
  let at_ := find_bytes (slice cdb 0 CDB_ECHO) (nv_rx o) 0 (len (nv_rx o)) in
  if (0 <=? at_) && (at_ + CDB_SIZE + reply <=? len (nv_rx o)) then ret (Rtn at_) else
  let* now := monotonic in
  let left := deadline - now in
  if left <=? 0 then raise TransportError else
  let* got := try_except (read 4096 (Some (Z.min left 500000))) is_TransportTimeout (fun _ => ret []) in
  let* _ := put_obj (set_rx (nv_rx o ++ got) o) in
  ret (Next tt).

Definition command (op addr size : Z) (data : bytes) (reply timeout : Z) : MN bytes :=
  let* cdb := lift (build_cdb op addr size) in
  let* _ := write (cdb ++ slice data 0 WRITE_PIECE) in
  let* _ := foreach (S := unit) (R := Empty_set) (drop 1 (range_step (len data) WRITE_PIECE)) (fun off _ =>
      let* _ := write (slice data off (off + WRITE_PIECE)) in ret (Next tt)) tt in
  let* _ := flush_output in
  let* now := monotonic in
  let* c := while fuel (command_body cdb reply (now + timeout)) tt in
  match c with
  | Rtn at_ =>
      let* o := get_obj in
      let* status := lift (index (nv_rx o) (at_ + CDB_STATUS)) in
      let out := slice (nv_rx o) (at_ + CDB_SIZE) (at_ + CDB_SIZE + reply) in
      let* _ := put_obj (set_rx (drop (Z.to_nat (at_ + CDB_SIZE + reply)) (nv_rx o)) o) in
      if negb (status =? 0)
      then raise (ProtocolError ("command 0x" +:+ hex_0x 2 op +:+ " refused: status " +:+ pretty status))
      else ret out
  | _ => diverge
  end.

(** One turn of the handshake loop.  State: nothing; [Brk] when the time is
    up, [Rtn] with the chip's word or the failure. *)
Definition nvt_handshake_body (deadline : Z) (_ : unit) : MN (ctl unit (option Z)) :=
  let* now := monotonic in
  if negb (now <? deadline) then ret (Brk tt) else
  let* got := try_except
    (let* b := command OP_IS_NVT 0 0 [] 4 HANDSHAKE_INTERVAL in ret (Some b))
    is_TransportError (fun _ => ret None) in
  match got with
  | None =>
      let* o := get_obj in
      if contains ROM_STUCK_ON_TFTP (nv_rx o) then ret (Rtn None) else
      let* _ := put_obj (set_rx (last_n (Z.to_nat (CDB_SIZE * 2)) (nv_rx o)) o) in
      let* _ := write [0] in
      ret (Next tt)
  | Some b =>
      let* word := lift (unpack_le 4 b 0) in
      ret (Rtn (Some word))
  end.

Definition nvt_failed (chip_id : option Z) : HandshakeResult := mkHandshake false chip_id None None.

Definition nvt_handshake : MN HandshakeResult :=
  let* _ := flush_input in
  let* o := get_obj in
  let* _ := put_obj (set_rx [] o) in
  let* now := monotonic in
  let* c := while fuel (nvt_handshake_body (now + HANDSHAKE_TIMEOUT)) tt in
  match c with
  | Rtn (Some word) =>
      let* o := get_obj in
      let* _ := put_obj (set_chip_word word o) in
      if negb (bool_decide (Some word = assoc NOVATEK_DIES (nv_chip o))) then ret (nvt_failed (Some word)) else
      let* _ := command OP_OPEN_DEVICE 0 0 [] 0 REPLY_TIMEOUT in
      ret (mkHandshake true (Some word) None None)
  | _ => ret (nvt_failed None)
  end.

Definition send_loader (loader : bytes) : MN unit :=
  if len loader <? 8 then raise (ProtocolError "the write loader is too short") else
  if ROM_CHUNK <? len loader
  then raise (ProtocolError ("the write loader is " +:+ pretty (len loader) +:+
                             " bytes, more than the ROM's 0x" +:+ hex_x ROM_CHUNK)) else
  let* base := lift (unpack_le 4 loader 4) in
  let* o := get_obj in
  let want := assoc DIE_SRAM (nv_chip_word o) in
  if negb (bool_decide (Some base = want))
  then raise (ProtocolError ("the write loader is linked at 0x" +:+ hex_0x 8 base +:+
                             ", this die's SRAM is at 0x" +:+ hex_0x 8 (default 0 want))) else
  let (image, patches) := defuse_loader loader in
  let* _ := command OP_WRLOADER base (len image) image 0 REPLY_TIMEOUT in
  let* _ := foreach (S := unit) (R := Empty_set) patches (fun '(off, word) _ =>
      let* _ := command OP_ADDR_WRITE (base + off) word [] 0 REPLY_TIMEOUT in ret (Next tt)) tt in
  let* _ := command OP_WAIT_DONE 0 0 [] 0 REPLY_TIMEOUT in
  sleep LOADER_START_DELAY.

(** [struct.unpack("<i", ...)] of an unsigned reading *)
Definition signed32 (z : Z) : Z := if z <? 0x80000000 then z else z - 0x100000000.

Definition send_pack (pack : bytes) : MN unit :=
  let* b := command OP_GET_TMP_ADDR 0 4 [] 4 REPLY_TIMEOUT in
  let* tmp := lift (unpack_le 4 b 0) in
  let* _ := foreach (S := unit) (R := Empty_set) (range_step (len pack) PACK_CHUNK) (fun off _ =>
      let part := slice pack off (off + PACK_CHUNK) in
      let* _ := command OP_MEM_WRITE (tmp + off) (len part) part 0 REPLY_TIMEOUT in ret (Next tt)) tt in
  let* b := command OP_UBOOT 0 4 [] 4 REPLY_TIMEOUT in
  let* status := lift (unpack_le 4 b 0) in
  let status := signed32 status in
  if negb (status =? 0)
  then raise (ProtocolError ("the write loader refuses the pack: " +:+ pretty status)) else
  let* _ := command OP_WAIT_DONE 0 0 [] 0 REPLY_TIMEOUT in
  ret tt.

(** [except (ProtocolError, TransportError)] around one stage: the stage's
    failure as the result with the stages before it. *)
Definition stage_of (done : list Stage) (m : MN unit) (k : MN RecoveryResult) : MN RecoveryResult :=
  let* r := try_except (let* _ := m in ret None)
    (fun e => is_ProtocolError e || is_TransportError e) (fun e => ret (Some (exn_text e))) in
  match r with
  | Some e => ret (failed done e)
  | None => k
  end.

Definition nvt_send_firmware (firmware : bytes) : MN RecoveryResult :=
  let* o := get_obj in
  match load_recovery_set firmware (nv_chip o) (nv_flash_type o) "wrloader.bin" with
  | Raise (ProtocolError e) => ret (failed [HANDSHAKE] e)
  | Raise e => raise e
  | Diverge => diverge
  | Ok (loader, pack) =>
      let upload done :=
        stage_of done (send_pack pack) (ret (succeeded (done ++ [UBOOT; COMPLETE]))) in
      if nv_loader_running o then upload [HANDSHAKE]
      else stage_of [HANDSHAKE] (send_loader loader) (upload [HANDSHAKE; SPL])
  end.

End Session.
End Archive.

(** ** Commands *)

Lemma word_sum_app (a w : bytes) :
  len a = 14 -> len w = 2 -> word_sum (a ++ w) = word_sum a + le_int w + 7.
Proof.
  intros Ha Hw. unfold word_sum. rewrite (pieces_app 2 a w 7) by lia.
  assert (Hl : length (pieces 2 a) = 7%nat) by (rewrite pieces_length, Ha; done).
  rewrite imap_app, Hl, (pieces_one 2 w) by lia. cbn. rewrite foldr_app. cbn.
  generalize (imap (fun i w0 => le_int w0 + Z.of_nat i) (pieces 2 a)) as l. intros l.
  induction l as [|x l IH]; cbn; lia.
Qed.

(** A command: its fields in place and a checksum that makes its words and
    their indices add up to 0. *)
Lemma build_cdb_ok op addr size cdb :
  build_cdb op addr size = Ok cdb ->
  fits 1 op = true /\ fits 4 addr = true /\ fits 4 size = true /\
  exists ck, len ck = 2 /\ cdb = [OPSET] ++ le_bytes 1 op ++ le_bytes 4 addr ++ le_bytes 4 size ++ brep 4 0 ++ ck /\
    word_sum cdb mod 65536 = 0.
Proof.
  unfold build_cdb. destruct (pack_le 1 op) as [o|e|] eqn:Eo; [|done..]. destruct (pack_le 4 addr) as [a|e|] eqn:Ea; [|done..].
  destruct (pack_le 4 size) as [z|e|] eqn:Ez; [|done..]. cbn [res_bind]. intros H%Ok_inj. rewrite <- H. clear H cdb.
  apply pack_le_ok in Eo as [Hop ->], Ea as [Ha ->], Ez as [Hs ->].
  split; [done|]. split; [done|]. split; [done|].
  assert (Hl : len ([OPSET] ++ le_bytes 1 op ++ le_bytes 4 addr ++ le_bytes 4 size) = 10)
    by (rewrite !len_app, !le_bytes_len by lia; done).
  set (body := [OPSET] ++ le_bytes 1 op ++ le_bytes 4 addr ++ le_bytes 4 size) in *.
  assert (Hj : ljust CDB_SIZE 0 body = (body ++ brep 4 0) ++ brep 2 0).
  { unfold ljust, CDB_SIZE. rewrite Hl, <- app_assoc. done. }
  rewrite Hj in *. assert (H14 : len (body ++ brep 4 0) = 14) by (rewrite len_app, Hl; done).
  replace (take 14 ((body ++ brep 4 0) ++ brep 2 0)) with (body ++ brep 4 0)
    by (rewrite take_app_length'; [done|unfold len in H14; lia]).
  set (total := word_sum _). exists (le_bytes 2 (Z.land (- total) 0xFFFF)).
  split; [by apply le_bytes_len|]. split; [unfold body; by rewrite <- !app_assoc|].
  rewrite word_sum_app by (done || by apply le_bytes_len).
  assert (Ht : total = word_sum (body ++ brep 4 0) + 7).
  { unfold total. rewrite word_sum_app by done. change (le_int (brep 2 0)) with 0. lia. }
  change 0xFFFF with (Z.ones 16). rewrite Z.land_ones by lia.
  rewrite le_int_le_bytes by (try lia; apply fits_spec; apply Z.mod_pos_bound; lia).
  replace (_ + _ + 7) with (total + (- total) mod 2 ^ 16) by lia.
  change 65536 with (2 ^ 16). rewrite Zplus_mod_idemp_r. by rewrite Z.add_opp_diag_r.
Qed.

(** ** The write loader made safe *)

(** What the ROM has in SRAM after the words are written back. *)
Definition apply_patches (image : bytes) (patches : list (Z * Z)) : bytes :=
  foldl (fun im p => splice im (fst p) (le_bytes 4 (snd p))) image patches.

Definition patches_below (n : Z) (patches : list (Z * Z)) : Prop :=
  Forall (fun p => 0 <= fst p /\ fst p + 4 <= n /\ fits 4 (snd p) = true) patches.

Lemma apply_patches_len n image patches :
  patches_below n patches -> n <= len image -> len (apply_patches image patches) = len image.
Proof.
  intros Hp. revert image. induction Hp as [|[o w] ps (H0 & H4 & _) Hp IH]; intros image Hn; [done|].
  cbn in *. rewrite IH by (rewrite splice_len; rewrite ?le_bytes_len; lia).
  apply splice_len; rewrite ?le_bytes_len; lia.
Qed.

Lemma apply_patches_splice n image patches b e :
  patches_below n patches -> n <= b -> b + len e <= len image ->
  apply_patches (splice image b e) patches = splice (apply_patches image patches) b e.
Proof.
  intros Hp. revert image. induction Hp as [|[o w] ps (H0 & H4 & _) Hp IH]; intros image Hn Hb; [done|].
  pose proof (len_nonneg e). unfold apply_patches in *. cbn [foldl fst snd] in *.
  rewrite <- splice_comm by (rewrite ?le_bytes_len; lia).
  apply IH; [done|rewrite splice_len; rewrite ?le_bytes_len; lia].
Qed.

Lemma apply_patches_app image p q : apply_patches image (p ++ q) = apply_patches (apply_patches image p) q.
Proof. apply foldl_app. Qed.

Lemma le_word_slice image o :
  is_bytes image -> 0 <= o -> o + 4 <= len image -> le_bytes 4 (le_int (slice image o (o + 4))) = slice image o (o + 4).
Proof.
  intros Hb Ho Hl. assert (E : len (slice image o (o + 4)) = 4) by (rewrite len_slice; lia).
  rewrite <- E at 1. apply le_bytes_le_int. by apply is_bytes_slice.
Qed.

Lemma le_word_fits image o : is_bytes image -> fits 4 (le_int (slice image o (o + 4))) = true.
Proof.
  intros Hb. apply fits_spec. pose proof (le_int_bound (slice image o (o + 4)) ltac:(by apply is_bytes_slice)) as Hle.
  split; [lia|]. eapply Z.lt_le_trans; [apply Hle|]. apply Z.pow_le_mono_r; [lia|].
  unfold slice. rewrite len_take. lia.
Qed.

(** The four words of a chunk put it back. *)
Lemma four_patches f image off :
  is_bytes image -> 0 <= off -> off + 16 <= len image -> len f = len image ->
  apply_patches f ((fun i => (off + i, le_int (slice image (off + i) (off + i + 4)))) <$> [0; 4; 8; 12])
    = splice f off (slice image off (off + 16)).
Proof.
  intros Hb H0 Hl Hf. unfold apply_patches. cbn [fmap list_fmap foldl fst snd].
  rewrite !le_word_slice by (done || lia).
  assert (E : forall o, 0 <= o -> o + 4 <= len image -> len (slice image o (o + 4)) = 4)
    by (intros o ? ?; rewrite len_slice; lia).
  rewrite <- (slice_split image off (off + 4) (off + 16)), <- (slice_split image (off + 4) (off + 8) (off + 16)),
    <- (slice_split image (off + 8) (off + 12) (off + 16)) by lia.
  rewrite Z.add_0_r. pose proof (E off). pose proof (E (off + 4)). pose proof (E (off + 8)). pose proof (E (off + 12)).
  replace (off + 4 + 4) with (off + 8) in * by lia. replace (off + 8 + 4) with (off + 12) in * by lia.
  replace (off + 12 + 4) with (off + 16) in * by lia.
  specialize (H ltac:(lia) ltac:(lia)). specialize (H1 ltac:(lia) ltac:(lia)).
  specialize (H2 ltac:(lia) ltac:(lia)). specialize (H3 ltac:(lia) ltac:(lia)). clear E.
  set (a := slice image off _) in *. set (b := slice image (off + 4) _) in *.
  set (c := slice image (off + 8) _) in *. set (d := slice image (off + 12) _) in *.
  assert (L1 : len (splice f off a) = len f) by (apply splice_len; lia).
  assert (L2 : len (splice (splice f off a) (off + len a) b) = len f) by (rewrite splice_len; lia).
  rewrite <- (splice_splice f off a), <- (splice_splice _ (off + len a) b), <- (splice_splice _ (off + len a + len b) c)
    by (rewrite ?len_app, ?L2, ?L1; lia).
  rewrite H, H1, H2. repeat (f_equal; try lia).
Qed.

Lemma zero_chunk_is_no_command : rom_takes_as_command (brep CDB_SIZE 0) = false.
Proof. reflexivity. Qed.

(** After the chunks below [16 * k]. *)
Record defused (img0 : bytes) (k : nat) (s : bytes * list (Z * Z)) : Prop := {
  df_len : len (fst s) = len img0;
  df_bytes : is_bytes (fst s);
  df_safe : forall j, (j < k)%nat -> rom_takes_as_command (slice (fst s) (16 * Z.of_nat j) (16 * Z.of_nat j + 16)) = false;
  df_rest : forall i, 16 * Z.of_nat k <= Z.of_nat i -> fst s !! i = img0 !! i;
  df_patches : patches_below (16 * Z.of_nat k) (snd s);
  df_back : apply_patches (fst s) (snd s) = img0
}.

Lemma slice_ext {A} (l l' : list A) i j : 0 <= i -> (forall k, i <= Z.of_nat k < j -> l !! k = l' !! k) -> slice l i j = slice l' i j.
Proof.
  intros Hi Hk. apply list_eq. intros n. unfold slice. destruct (decide (n < Z.to_nat (j - i))%nat).
  - rewrite !lookup_take_lt, !lookup_drop by lia. apply Hk. lia.
  - rewrite !lookup_take_ge by lia. done.
Qed.

Lemma defuse_step_ok img0 k s :
  is_bytes img0 -> 16 * Z.of_nat k + 16 <= len img0 -> defused img0 k s -> defused img0 (S k) (defuse_step s (16 * Z.of_nat k)).
Proof.
  intros Hb0 Hk [Hl Hb Hs Hr Hp Hback]. destruct s as [image patches]. cbn [fst snd] in *.
  unfold defuse_step, CDB_SIZE in *. set (off := 16 * Z.of_nat k) in *.
  assert (Hoff : 16 * Z.of_nat (S k) = off + 16) by lia.
  destruct (rom_takes_as_command (slice image off (off + 16))) eqn:E.
  - assert (Hz : len (brep 16 0) = 16) by done.
    assert (Hl' : len (splice image off (brep 16 0)) = len img0) by (rewrite splice_len; lia).
    split; cbn [fst snd]; rewrite ?Hoff.
    + done.
    + unfold splice. repeat apply Forall_app_2; [by apply Forall_take| |by apply Forall_drop].
      apply Forall_replicate. unfold is_byte. lia.
    + intros j Hj. destruct (decide (j = k)) as [->|Hne].
      * fold off. rewrite <- Hz at 2. rewrite slice_splice by lia. reflexivity.
      * rewrite slice_splice_other by lia. apply Hs. lia.
    + intros i Hi. rewrite lookup_splice by lia. destruct (decide _); [lia|]. apply Hr. lia.
    + apply Forall_app_2; [eapply Forall_impl; [exact Hp|]; intros [o w] (Ho & Ho4 & Hw); cbn [fst snd] in *; split_and!; [lia|lia|done]|].
      repeat (apply Forall_cons_2; [cbn [fst snd]; split; [lia|]; split; [lia|]; by apply le_word_fits|]). by apply Forall_nil_2.
    + assert (Hf : len (splice img0 off (brep 16 0)) = len image) by (rewrite splice_len; lia).
      rewrite apply_patches_app, (apply_patches_splice off) by (done || lia). rewrite Hback.
      rewrite four_patches by (done || lia).
      rewrite splice_over by (rewrite ?len_slice; lia).
      rewrite (slice_ext image img0) by (try lia; intros; apply Hr; lia). by apply splice_self; lia.
  - split; cbn [fst snd]; rewrite ?Hoff; try done.
    + intros j Hj. destruct (decide (j = k)) as [->|Hne]; [done|]. apply Hs. lia.
    + intros i Hi. apply Hr. lia.
    + eapply Forall_impl; [exact Hp|]. intros [o w] (Ho & Ho4 & Hw); cbn [fst snd] in *; split_and!; [lia|lia|done].
Qed.

Lemma pad16_spec loader :
  exists n, len (pad16 loader) = 16 * Z.of_nat n /\ pad16 loader = loader ++ brep (16 * Z.of_nat n - len loader) 0 /\
    len loader <= 16 * Z.of_nat n < len loader + 16.
Proof.
  unfold pad16, ljust, CDB_SIZE. pose proof (len_nonneg loader). set (m := - (- len loader / 16)).
  pose proof (Z.div_mod (- len loader) 16 ltac:(lia)). pose proof (Z.mod_pos_bound (- len loader) 16 ltac:(lia)).
  assert (0 <= m) by lia. exists (Z.to_nat m). rewrite Z2Nat.id by lia. replace (16 * m) with (m * 16) by lia.
  split; [rewrite len_app, len_brep by lia; lia|]. split; [done|lia].
Qed.

Lemma pad16_bytes loader : is_bytes loader -> is_bytes (pad16 loader).
Proof. intros Hb. apply Forall_app_2; [done|]. apply Forall_replicate. unfold is_byte. lia. Qed.

Lemma defuse_loader_defused loader n :
  is_bytes loader -> len (pad16 loader) = 16 * Z.of_nat n -> defused (pad16 loader) n (defuse_loader loader).
Proof.
  intros Hb Hn. apply pad16_bytes in Hb. unfold defuse_loader. set (img := pad16 loader) in *. unfold range_step, CDB_SIZE. rewrite Hn.
  replace (Z.to_nat ((16 * Z.of_nat n + 16 - 1) / 16)) with n.
  2: { replace (16 * Z.of_nat n + 16 - 1) with (15 + Z.of_nat n * 16) by lia. rewrite Z.div_add, Z.div_small by lia. lia. }
  assert (H : forall k, (k <= n)%nat -> defused img k (foldl defuse_step (img, []) ((fun i => Z.of_nat i * 16) <$> seq 0 k))).
  { induction k as [|k IH]; intros Hk.
    - split; cbn [fst snd seq fmap list_fmap foldl]; try done; [intros j Hj; lia|constructor].
    - rewrite seq_S, fmap_app, foldl_app. cbn [fmap list_fmap foldl].
      replace (Z.of_nat (0 + k) * 16) with (16 * Z.of_nat k) by lia. apply defuse_step_ok; [done|lia|apply IH; lia]. }
  by apply H.
Qed.

(** ** A mask ROM and a write loader

  The device as the source's comments describe it.  The mask ROM takes every
  16 bytes as a command; while it receives a loader it stores them and still
  runs those it recognises.  WAIT_DONE starts the loader, which answers the
  same commands, and takes the data of a MEM_WRITE as it comes. *)

Record NvtDevice := NvtDev {
  nd_mem : Z -> Z;                     (* the address space *)
  nd_cur : Z; nd_left : Z;             (* where the payload goes, how much is due *)
  nd_in : bytes; nd_out : bytes;       (* less than a command; what is not read yet *)
  nd_loader : bool;                    (* the write loader runs *)
  nd_word : Z; nd_tmp : Z;             (* the die's version word; the loader's buffer *)
  nd_started : option (Z -> Z);        (* memory when the ROM started the loader *)
  nd_booted : option (Z -> Z);         (* memory when the loader started U-Boot *)
  nd_clock : Z
}.

Definition store (m : Z -> Z) (a : Z) (d : bytes) : Z -> Z :=
  fun x => if (a <=? x) && (x <? a + len d) then nth (Z.to_nat (x - a)) d 0 else m x.

Definition nd_set (m : Z -> Z) (cur left : Z) (out : bytes) (d : NvtDevice) : NvtDevice :=
  NvtDev m cur left (nd_in d) out (nd_loader d) (nd_word d) (nd_tmp d) (nd_started d) (nd_booted d) (nd_clock d).
Definition nd_say (u : bytes) (d : NvtDevice) : NvtDevice := nd_set (nd_mem d) (nd_cur d) (nd_left d) (nd_out d ++ u) d.
Definition nd_buffer (b : bytes) (d : NvtDevice) : NvtDevice :=
  NvtDev (nd_mem d) (nd_cur d) (nd_left d) b (nd_out d) (nd_loader d) (nd_word d) (nd_tmp d) (nd_started d) (nd_booted d) (nd_clock d).

(** One command, as the part that is running answers it. *)
Definition nd_exec (u : bytes) (d : NvtDevice) : NvtDevice :=
  let op := nth 1 u 0 in
  let addr := le_int (slice u 2 6) in
  let size := le_int (slice u 6 10) in
  if negb (nth 0 u 0 =? OPSET) then d else
  if op =? OP_WAIT_DONE then
    if nd_loader d then
      nd_say u (NvtDev (nd_mem d) (nd_cur d) (nd_left d) (nd_in d) (nd_out d) true (nd_word d) (nd_tmp d)
                  (nd_started d) (Some (nd_mem d)) (nd_clock d))
    else
      nd_say u (NvtDev (nd_mem d) (nd_cur d) (nd_left d) (nd_in d) (nd_out d) true (nd_word d) (nd_tmp d)
                  (Some (nd_mem d)) (nd_booted d) (nd_clock d))
  else if op =? OP_IS_NVT then nd_say (u ++ le_bytes 4 (nd_word d)) d
  else if op =? OP_OPEN_DEVICE then nd_say u d
  else if nd_loader d then
    if op =? OP_GET_TMP_ADDR then nd_say (u ++ le_bytes 4 (nd_tmp d)) d
    else if op =? OP_UBOOT then nd_say (u ++ le_bytes 4 0) d
    else if op =? OP_MEM_WRITE then nd_set (nd_mem d) addr size (nd_out d ++ u) d
    else d
  else
    if op =? OP_WRLOADER then nd_set (nd_mem d) addr size (nd_out d ++ u) d
    else if op =? OP_ADDR_WRITE then nd_set (store (nd_mem d) addr (le_bytes 4 size)) (nd_cur d) (nd_left d) (nd_out d ++ u) d
    else d.

(** 16 bytes to the ROM. *)
Definition rom_unit (u : bytes) (d : NvtDevice) : NvtDevice :=
  if 0 <? nd_left d then
    let d' := nd_set (store (nd_mem d) (nd_cur d) u) (nd_cur d + 16) (nd_left d - 16) (nd_out d) d in
    if rom_takes_as_command u then nd_exec u d' else d'
  else nd_exec u d.

Fixpoint nd_feed (fuel : nat) (buf : bytes) (d : NvtDevice) : NvtDevice :=
  match fuel with
  | O => d
  | S fuel' =>
      if nd_loader d && (0 <? nd_left d) then
        if beq buf [] then nd_buffer [] d else
        let n := Z.min (nd_left d) (len buf) in
        nd_feed fuel' (drop (Z.to_nat n) buf)
          (nd_set (store (nd_mem d) (nd_cur d) (slice buf 0 n)) (nd_cur d + n) (nd_left d - n) (nd_out d) d)
      else if len buf <? 16 then nd_buffer buf d
      else nd_feed fuel' (drop 16 buf)
             (if nd_loader d then nd_exec (take 16 buf) d else rom_unit (take 16 buf) d)
  end.

Definition nd_write (b : bytes) (d : NvtDevice) : NvtDevice :=
  let buf := nd_in d ++ b in nd_feed (S (S (length buf))) buf d.

Definition nd_tick (x : Z) (d : NvtDevice) : NvtDevice :=
  NvtDev (nd_mem d) (nd_cur d) (nd_left d) (nd_in d) (nd_out d) (nd_loader d) (nd_word d) (nd_tmp d) (nd_started d) (nd_booted d)
    (nd_clock d + Z.max 0 x).

#[export] Instance NvtDevice_Transport : Transport NvtDevice := {|
  t_read n tmo d :=
    if beq (nd_out d) [] then (Raise TransportTimeout, nd_tick (default 0 tmo) d)
    else (Ok (take (Z.to_nat n) (nd_out d)),
          nd_set (nd_mem d) (nd_cur d) (nd_left d) (drop (Z.to_nat n) (nd_out d)) d);
  t_write b d := (Ok tt, nd_write b d);
  t_flush_input d := (Ok tt, nd_set (nd_mem d) (nd_cur d) (nd_left d) [] d);
  t_flush_output d := (Ok tt, d);
  t_bytes_waiting d := (Ok (len (nd_out d)), d);
  t_unread x d := (Ok tt, nd_set (nd_mem d) (nd_cur d) (nd_left d) (x ++ nd_out d) d);
  t_set_baudrate _ d := (Raise NotImplementedError, d);
  t_monotonic d := (nd_clock d, d);
  t_sleep x d := nd_tick x d
|}.

(** ** One command against the device *)

(** What [_command] writes. *)
Definition data_writes (cdb data : bytes) : list bytes :=
  (cdb ++ slice data 0 WRITE_PIECE) ::
  ((fun off => slice data off (off + WRITE_PIECE)) <$> drop 1 (range_step (len data) WRITE_PIECE)).

Definition nd_writes (ws : list bytes) (d : NvtDevice) : NvtDevice := foldl (fun d w => nd_write w d) d ws.

Lemma cdb_shape op addr size cdb :
  build_cdb op addr size = Ok cdb ->
  len cdb = 16 /\ nth 0 cdb 0 = OPSET /\ nth 1 cdb 0 = op /\ le_int (slice cdb 2 6) = addr /\
  le_int (slice cdb 6 10) = size /\ cdb !! 13%nat = Some 0.
Proof.
  intros H. apply build_cdb_ok in H as (Ho & Ha & Hs & ck & Hck & Hc & _).
  assert (H1 : le_bytes 1 op = [op]).
  { apply fits_spec in Ho. unfold le_bytes. change 1 with (Z.succ 0) at 1.
    rewrite Z_to_little_endian_succ, Z_to_little_endian_0, Z.land_ones by lia.
    by rewrite Z.mod_small by lia. }
  rewrite H1 in Hc. pose proof (le_bytes_len 4 addr ltac:(lia)) as La. pose proof (le_bytes_len 4 size ltac:(lia)) as Ls.
  split; [rewrite Hc, !len_app, La, Ls, Hck; done|]. split; [by rewrite Hc|]. split; [by rewrite Hc|].
  split; [|split].
  - rewrite <- (le_int_le_bytes 4 addr) by (done || lia). f_equal. rewrite Hc, app_assoc. apply slice_mid; [done|by rewrite La].
  - rewrite <- (le_int_le_bytes 4 size) by (done || lia). f_equal. rewrite Hc. rewrite (app_assoc [OPSET]), (app_assoc _ (le_bytes 4 addr)).
    apply slice_mid; [rewrite !len_app, La; done|by rewrite !len_app, La, Ls].
  - rewrite Hc. unfold len in *. rewrite (app_assoc [OPSET]), (app_assoc _ (le_bytes 4 addr)), (app_assoc _ (le_bytes 4 size)).
    rewrite lookup_app_r by (rewrite !length_app; cbn; lia). rewrite !length_app.
    replace (13 - _)%nat with 3%nat by (cbn; lia). done.
Qed.

Lemma find_at_0 pat rest : find_bytes pat (pat ++ rest) 0 (len (pat ++ rest)) = 0.
Proof.
  destruct (find_bytes_spec pat (pat ++ rest) 0 (len (pat ++ rest)) ltac:(lia)) as [[H1 H2]|(H1 & H2 & H3 & H4)].
  - exfalso. apply (H2 0); [lia|rewrite len_app; pose proof (len_nonneg rest); lia|]. by apply slice_prefix.
  - destruct (Z.lt_trichotomy (find_bytes pat (pat ++ rest) 0 (len (pat ++ rest))) 0) as [|[|Hgt]]; [lia|done|].
    exfalso. apply (H4 0); [lia|]. by apply slice_prefix.
Qed.

Section Device.
Variable fuel : nat.
Hypothesis Hfuel : (2 <= fuel)%nat.
Abbreviation W := (world NvtDevice Novatek).

Lemma write_all data offs (w : W) :
  exists w', foreach (S := unit) (R := Empty_set) offs (fun off _ =>
      let* _ := write (slice data off (off + WRITE_PIECE)) in ret (Next tt)) tt w = (Ok (Next tt), w') /\
    tr w' = nd_writes ((fun off => slice data off (off + WRITE_PIECE)) <$> offs) (tr w) /\ obj w' = obj w.
Proof.
  revert w. induction offs as [|o offs IH]; intros w; cbn [foreach]; [by exists w|].
  unfold bind at 1. unfold bind at 1, write. cbn [t_write NvtDevice_Transport ret]. unfold ret at 1.
  destruct (IH (World (nd_write (slice data o (o + WRITE_PIECE)) (tr w)) (obj w)
    (log w ++ [EvWrite (slice data o (o + WRITE_PIECE)) (Ok tt)]))) as (w' & E & Ht & Ho).
  exists w'. split; [exact E|]. done.
Qed.

(** The wait: one turn reads the answer, the next finds it. *)
Lemma wait_run cdb rep tmo (w : W) :
  len cdb = 16 -> nv_rx (obj w) = [] -> 0 < tmo -> len rep <= 4000 -> nd_out (tr w) = cdb ++ rep ->
  exists w', while fuel (command_body cdb (len rep) (nd_clock (tr w) + tmo)) tt w = (Ok (Rtn 0), w') /\
    tr w' = nd_set (nd_mem (tr w)) (nd_cur (tr w)) (nd_left (tr w)) [] (tr w) /\ obj w' = set_rx (cdb ++ rep) (obj w).
Proof using Hfuel.
  intros Hlc Hrx Htmo Hlr Hout. destruct fuel as [|[|n]]; [lia..|]. destruct w as [t o lg]. cbn [obj tr] in *.
  assert (Hne : beq (nd_out t) [] = false).
  { apply bool_decide_eq_false. rewrite Hout. intros E%(f_equal len). rewrite len_app, len_nil, Hlc in E.
    pose proof (len_nonneg rep). lia. }
  assert (Hlo : (length (cdb ++ rep) <= Z.to_nat 4096)%nat).
  { pose proof (len_nonneg rep). rewrite length_app. unfold len in *. lia. }
  cbn [while]. unfold bind at 1, command_body at 1. unfold bind at 1, get_obj. cbn [obj]. rewrite Hrx.
  replace (find_bytes (slice cdb 0 CDB_ECHO) [] 0 (len [])) with (-1).
  2: { destruct (find_bytes_spec (slice cdb 0 CDB_ECHO) [] 0 (len (@nil Z)) ltac:(lia)) as [[-> _]|(H1 & H2 & _)]; [done|].
       assert (len (slice cdb 0 CDB_ECHO) = 13) by (rewrite len_slice by lia; unfold CDB_ECHO; lia).
       assert (len (@nil Z) = 0) by done. lia. }
  cbn [Z.leb Z.compare andb]. unfold bind at 1, monotonic. cbn [t_monotonic NvtDevice_Transport tr obj log].
  replace (nd_clock t + tmo - nd_clock t <=? 0) with false by (symmetry; apply Z.leb_gt; lia).
  unfold bind at 1, try_except, read. cbn [t_read NvtDevice_Transport tr obj log]. rewrite Hne, Hout.
  rewrite take_ge, drop_ge by exact Hlo. unfold bind at 1, put_obj. cbn [tr obj log app]. unfold ret at 1.
  cbn [app while]. unfold bind at 1, command_body at 1. unfold bind at 1, get_obj. cbn [obj nv_rx set_rx].
  replace (find_bytes (slice cdb 0 CDB_ECHO) (cdb ++ rep) 0 (len (cdb ++ rep))) with 0.
  2: { symmetry. replace (cdb ++ rep) with (slice cdb 0 CDB_ECHO ++ (slice cdb CDB_ECHO 16 ++ rep)).
       - apply find_at_0.
       - rewrite app_assoc, slice_split by (unfold CDB_ECHO; lia). rewrite slice_all by lia. done. }
  cbn [Z.leb Z.compare]. rewrite len_app, Hlc. unfold CDB_SIZE.
  replace (0 + 16 + len rep <=? 16 + len rep) with true by (symmetry; apply Z.leb_le; lia). cbn [andb].
  eexists. split; [reflexivity|]. done.
Qed.

(** The device has answered with the echo and [rep]. *)
Lemma command_run op addr size data rep tmo cdb (w : W) d1 :
  build_cdb op addr size = Ok cdb -> nv_rx (obj w) = [] -> 0 < tmo -> len rep <= 4000 ->
  nd_writes (data_writes cdb data) (tr w) = d1 -> nd_out d1 = cdb ++ rep ->
  exists w', command fuel op addr size data (len rep) tmo w = (Ok rep, w') /\
    tr w' = nd_set (nd_mem d1) (nd_cur d1) (nd_left d1) [] d1 /\ obj w' = obj w.
Proof using Hfuel.
  intros Hc Hrx Htmo Hlr Hd Hout. destruct (cdb_shape _ _ _ _ Hc) as (Hlc & _ & _ & _ & _ & H13).
  unfold command. rewrite Hc. unfold bind at 1, lift. unfold bind at 1. unfold write at 1. cbn [t_write NvtDevice_Transport].
  destruct (write_all data (drop 1 (range_step (len data) WRITE_PIECE))
    (World (nd_write (cdb ++ slice data 0 WRITE_PIECE) (tr w)) (obj w)
      (log w ++ [EvWrite (cdb ++ slice data 0 WRITE_PIECE) (Ok tt)]))) as (w1 & E & Ht & Ho).
  cbn [tr obj] in Ht, Ho. assert (tr w1 = d1) as Ht1 by (rewrite <- Hd, Ht; done).
  unfold bind at 1. rewrite E. unfold bind at 1, flush_output. cbn [t_flush_output NvtDevice_Transport].
  unfold bind at 1, monotonic. cbn [t_monotonic NvtDevice_Transport tr obj log].
  destruct (wait_run cdb rep tmo (World (tr w1) (obj w1) (log w1 ++ [EvFlushOutput (Ok tt)]))) as (w2 & E2 & Ht2 & Ho2);
    cbn [tr obj] in *; [done|by rewrite Ho|done|done|by rewrite Ht1|].
  unfold bind at 1. rewrite E2. unfold bind at 1, get_obj. rewrite Ho2, Ho. cbn [nv_rx set_rx].
  unfold bind at 1, lift, index. change (Z.to_nat (0 + CDB_STATUS)) with 13%nat.
  rewrite lookup_app_l by (unfold len in Hlc; lia). rewrite H13. cbn [of_opt].
  unfold bind at 1, put_obj. cbn [Z.eqb negb tr obj log]. unfold CDB_SIZE.
  rewrite slice_suffix by (done || rewrite ?len_app, Hlc; lia).
  eexists. split; [reflexivity|]. cbn [tr obj]. split; [by rewrite Ht2, Ht1|].
  destruct (obj w) as [ch fl rx cw lr]. cbn in *. subst rx. unfold set_rx. cbn. f_equal.
  apply drop_ge. rewrite length_app. unfold len in *. lia.
Qed.

End Device.

(** ** What the commands do to the device *)

Lemma nd_feed_nil f d : nd_feed (S f) [] d = nd_buffer [] d.
Proof. cbn. by destruct (nd_loader d && (0 <? nd_left d)). Qed.

Lemma nd_write_command cdb rest d :
  len cdb = 16 -> nd_in d = [] -> nd_left d = 0 ->
  nd_write (cdb ++ rest) d = nd_feed (S (length (cdb ++ rest))) rest (nd_exec cdb d).
Proof.
  intros Hl Hi H0. unfold nd_write. rewrite Hi. cbn [app]. set (n := length (cdb ++ rest)). cbn [nd_feed].
  rewrite H0. cbn [Z.ltb Z.compare]. rewrite andb_false_r.
  replace (len (cdb ++ rest) <? 16) with false by (symmetry; apply Z.ltb_ge; rewrite len_app; pose proof (len_nonneg rest); lia).
  assert (Hn : length cdb = 16%nat) by (unfold len in Hl; lia).
  rewrite take_app_length', drop_app_length' by done. unfold rom_unit. rewrite H0. cbn [Z.ltb Z.compare]. by destruct (nd_loader d).
Qed.

Definition safe16 (l : bytes) : Prop :=
  forall j, 16 * Z.of_nat j + 16 <= len l -> rom_takes_as_command (slice l (16 * Z.of_nat j) (16 * Z.of_nat j + 16)) = false.

Lemma safe16_app a b k : len a = 16 * Z.of_nat k -> safe16 (a ++ b) -> safe16 a /\ safe16 b.
Proof.
  intros Ha Hs. split; intros j Hj.
  - specialize (Hs j). rewrite len_app in Hs. pose proof (len_nonneg b). rewrite slice_app_l in Hs by lia. apply Hs. lia.
  - specialize (Hs (k + j)%nat). rewrite len_app in Hs. rewrite slice_app_r in Hs by lia.
    replace (16 * Z.of_nat (k + j) - len a) with (16 * Z.of_nat j) in Hs by lia.
    replace (16 * Z.of_nat (k + j) + 16 - len a) with (16 * Z.of_nat j + 16) in Hs by lia. apply Hs. lia.
Qed.

(** [b] went to memory and nothing else happened. *)
Record stored (b : bytes) (d d' : NvtDevice) : Prop := {
  st_mem : forall x, nd_mem d' x = store (nd_mem d) (nd_cur d) b x;
  st_cur : nd_cur d' = nd_cur d + len b;
  st_left : nd_left d' = nd_left d - len b;
  st_in : nd_in d' = [];
  st_out : nd_out d' = nd_out d;
  st_rest : (nd_loader d', nd_word d', nd_tmp d', nd_started d', nd_booted d', nd_clock d') =
            (nd_loader d, nd_word d, nd_tmp d, nd_started d, nd_booted d, nd_clock d)
}.

Lemma store_app m a x y z : store (store m a x) (a + len x) y z = store m a (x ++ y) z.
Proof.
  unfold store. rewrite len_app. pose proof (len_nonneg x). pose proof (len_nonneg y).
  destruct ((a + len x <=? z) && (z <? a + len x + len y)) eqn:E1, ((a <=? z) && (z <? a + len x)) eqn:E2,
    ((a <=? z) && (z <? a + (len x + len y))) eqn:E3; b2p; try (destruct_or?; b2p; lia); try done.
  - rewrite app_nth2 by (unfold len in *; lia). f_equal. unfold len in *. lia.
  - rewrite app_nth1 by (unfold len in *; lia). done.
Qed.

Lemma store_ext m m' a d x : (forall y, m y = m' y) -> store m a d x = store m' a d x.
Proof. intros Hm. unfold store. by destruct (_ && _). Qed.

Lemma stored_app a b d1 d2 d3 : stored a d1 d2 -> stored b d2 d3 -> stored (a ++ b) d1 d3.
Proof.
  intros [] []. split; rewrite ?len_app; try congruence; try lia.
  intros x. rewrite <- store_app. rewrite st_mem1, st_cur0. by apply store_ext.
Qed.

Lemma stored_nil d : nd_in d = [] -> stored [] d d.
Proof.
  intros Hi. split; rewrite ?len_nil; try lia; try done. intros x. unfold store.
  destruct (_ && _) eqn:E; [|done]. b2p. change (len (@nil Z)) with 0 in *. lia.
Qed.

Lemma rom_payload f k b d :
  nd_loader d = false -> len b = 16 * Z.of_nat k -> 16 * Z.of_nat k <= nd_left d -> safe16 b -> (k < f)%nat ->
  stored b d (nd_feed f b d).
Proof.
  revert f b d. induction k as [|k IH]; intros f b d Hld Hb Hleft Hs Hf.
  - apply len_0_nil in Hb as ->. destruct f; [lia|]. rewrite nd_feed_nil.
    destruct d. split; cbn; rewrite ?len_nil; try lia; try done. intros x. unfold store.
    destruct (_ && _) eqn:E; [|done]. b2p. change (len (@nil Z)) with 0 in *. lia.
  - destruct f as [|f]; [lia|]. rewrite <- (take_drop 16 b) in Hs |- *. set (u := take 16 b) in *. set (r := drop 16 b) in *.
    assert (Hu : len u = 16) by (unfold u; rewrite len_take; lia). assert (Hr : len r = 16 * Z.of_nat k) by (unfold r; rewrite len_drop; lia).
    destruct (safe16_app u r 1 ltac:(lia) Hs) as [Hsu Hsr].
    assert (Hcmd : rom_takes_as_command u = false).
    { specialize (Hsu 0%nat). cbn in Hsu. rewrite slice_all in Hsu by lia. apply Hsu. lia. }
    cbn [nd_feed]. rewrite Hld. cbn [andb].
    replace (len (u ++ r) <? 16) with false by (symmetry; apply Z.ltb_ge; rewrite len_app; lia).
    assert (Hn : length u = 16%nat) by (unfold len in Hu; lia). rewrite take_app_length', drop_app_length' by done.
    unfold rom_unit. replace (0 <? nd_left d) with true by (symmetry; apply Z.ltb_lt; lia). rewrite Hcmd.
    set (d' := nd_set _ _ _ _ d).
    destruct (IH f r d' ltac:(by destruct d) Hr ltac:(cbn; lia) Hsr ltac:(lia)) as [].
    split; try done; rewrite ?len_app.
    + intros x. rewrite <- store_app, st_mem0. unfold d'. cbn [nd_mem nd_cur nd_set]. by rewrite Hu.
    + rewrite st_cur0. unfold d'. cbn. lia.
    + rewrite st_left0. unfold d'. cbn. lia.
Qed.

Lemma rom_writes ws d :
  nd_loader d = false -> nd_in d = [] -> Forall (fun p => exists k, len p = 16 * Z.of_nat k) ws ->
  safe16 (concat ws) -> len (concat ws) <= nd_left d -> stored (concat ws) d (nd_writes ws d).
Proof.
  intros Hld Hi Hw. revert d Hld Hi. induction Hw as [|p ws [k Hk] Hw IH]; intros d Hld Hi Hs Hleft; [by apply stored_nil|].
  cbn [concat nd_writes foldl] in *. rewrite len_app in Hleft. pose proof (len_nonneg (concat ws)).
  destruct (safe16_app p (concat ws) k Hk Hs) as [Hp Hr].
  assert (Hst : stored p d (nd_write p d)).
  { unfold nd_write. rewrite Hi. apply (rom_payload _ k); [done|done|lia|done|]. cbn. unfold len in Hk. lia. }
  destruct (st_rest _ _ _ Hst). eapply stored_app; [exact Hst|]. destruct Hst. apply IH; [congruence|done|done|lia].
Qed.

Lemma data_writes_pieces cdb data :
  0 < len data -> exists p0 rest, pieces WRITE_PIECE data = p0 :: rest /\ data_writes cdb data = (cdb ++ p0) :: rest.
Proof.
  intros Hd. unfold data_writes, pieces, range_step, WRITE_PIECE in *.
  destruct (Z.to_nat ((len data + 0x1000 - 1) / 0x1000)) as [|n] eqn:En.
  { assert (1 <= (len data + 0x1000 - 1) / 0x1000) by (apply Z.div_le_lower_bound; lia). lia. }
  cbn [seq fmap list_fmap]. do 2 eexists. split; [reflexivity|]. cbn [drop]. done.
Qed.

Lemma data_writes_nil cdb : data_writes cdb [] = [cdb].
Proof. unfold data_writes. cbn. by rewrite app_nil_r. Qed.

(** The ROM in its command loop. *)
Record rom_idle (d : NvtDevice) : Prop := {
  ri_loader : nd_loader d = false; ri_in : nd_in d = []; ri_out : nd_out d = []; ri_left : nd_left d = 0
}.

Lemma wrloader_writes base image cdb d :
  rom_idle d -> build_cdb OP_WRLOADER base (len image) = Ok cdb -> 0 < len image ->
  (exists n, len image = 16 * Z.of_nat n) -> safe16 image ->
  let d' := nd_writes (data_writes cdb image) d in
  nd_out d' = cdb /\ nd_left d' = 0 /\ nd_in d' = [] /\ nd_loader d' = false /\
  (forall x, nd_mem d' x = store (nd_mem d) base image x) /\
  (nd_word d', nd_tmp d', nd_booted d', nd_clock d') = (nd_word d, nd_tmp d, nd_booted d, nd_clock d).
Proof.
  intros [Hld Hi Ho Hleft] Hc Hpos [n Hn] Hs. destruct (cdb_shape _ _ _ _ Hc) as (Hl & H0 & H1 & Ha & Hz & _).
  destruct (data_writes_pieces cdb image Hpos) as (p0 & rest & Hp & ->). cbn zeta. cbn [nd_writes foldl].
  rewrite nd_write_command by done.
  set (d0 := nd_exec cdb d).
  assert (Hd0 : d0 = nd_set (nd_mem d) base (len image) cdb d).
  { unfold d0, nd_exec. rewrite H0, H1, Ha, Hz, Hld, Ho. reflexivity. }
  assert (Hcat : concat (p0 :: rest) = image) by (rewrite <- Hp; apply pieces_concat; by unfold WRITE_PIECE).
  assert (H16 : Forall (fun p => exists k, len p = 16 * Z.of_nat k) (p0 :: rest)).
  { apply Forall_lookup. intros i p Hip. rewrite <- Hp in Hip. apply pieces_lookup in Hip as [-> Hi0]; [|by unfold WRITE_PIECE].
    rewrite len_slice by (unfold WRITE_PIECE; lia). unfold WRITE_PIECE in *.
    exists (Z.to_nat (Z.min (16 * Z.of_nat n - Z.of_nat i * 4096) 4096 / 16)).
    rewrite Z2Nat.id by (apply Z.div_pos; lia). rewrite Hn. rewrite Z.max_r by lia.
    replace (Z.min (Z.of_nat i * 4096 + 4096) (16 * Z.of_nat n) - Z.of_nat i * 4096)
      with (Z.min (16 * Z.of_nat n - Z.of_nat i * 4096) 4096) by lia.
    apply Z_div_exact_2; [lia|]. destruct (Z.min_spec (16 * Z.of_nat n - Z.of_nat i * 4096) 4096) as [[_ ->]|[_ ->]]; [|done].
    replace (16 * Z.of_nat n - Z.of_nat i * 4096) with ((Z.of_nat n - Z.of_nat i * 256) * 16) by lia. apply Z_mod_mult. }
  apply Forall_cons in H16 as [[k Hk] Hrest]. cbn [concat] in Hcat.
  rewrite <- Hcat in Hs. destruct (safe16_app p0 (concat rest) k Hk Hs) as [Hs0 Hsr].
  assert (Hlen : len p0 + len (concat rest) = len image) by (rewrite <- len_app, Hcat; done). pose proof (len_nonneg (concat rest)).
  assert (St0 : stored p0 d0 (nd_feed (S (length (cdb ++ p0))) p0 d0)).
  { apply (rom_payload _ k); rewrite ?Hd0; cbn; [done|done|lia|done|]. rewrite length_app. unfold len in Hk, Hl. lia. }
  set (d1 := nd_feed _ _ d0) in *.
  assert (St : stored image d0 (nd_writes rest d1)).
  { rewrite <- Hcat. eapply stored_app; [exact St0|]. destruct St0 as [_ _ Hleft1 Hin1 _ Hr1].
    assert (Hld0 : nd_loader d0 = false) by (by rewrite Hd0). injection Hr1 as Hld1 _ _ _ _ _.
    apply rom_writes; [by rewrite Hld1|done|done|done|]. rewrite Hleft1, Hd0. cbn. lia. }
  clear St0. clearbody d1. destruct St as [Hm _ Hlf Hin Hout Hrst]. rewrite Hd0 in Hm, Hlf, Hout, Hrst. cbn in Hm, Hlf, Hout, Hrst.
  injection Hrst as H1' H2' H3' _ H4' H5'. unfold nd_writes in *. split_and!; try done; try lia; congruence.
Qed.

Lemma build_cdb_fits op addr size :
  fits 1 op = true -> fits 4 addr = true -> fits 4 size = true -> exists cdb, build_cdb op addr size = Ok cdb.
Proof. intros H1 H2 H3. unfold build_cdb, pack_le. rewrite H1, H2, H3. cbn [res_bind]. eauto. Qed.

(** A command without data, to a device that waits for one. *)
Lemma plain_writes cdb d :
  len cdb = 16 -> nd_in d = [] -> nd_left d = 0 -> nd_writes (data_writes cdb []) d = nd_buffer [] (nd_exec cdb d).
Proof.
  intros Hl Hi H0. rewrite data_writes_nil. cbn [nd_writes foldl]. rewrite <- (app_nil_r cdb) at 1.
  rewrite nd_write_command by done. apply nd_feed_nil.
Qed.

(** [l] is in memory at [a]. *)
Definition holds (m : Z -> Z) (a : Z) (l : bytes) : Prop := forall i b, l !! i = Some b -> m (a + Z.of_nat i) = b.

Lemma holds_store_self m a l : holds (store m a l) a l.
Proof.
  intros i b Hi. unfold store. pose proof (lookup_lt_Some _ _ _ Hi).
  replace ((a <=? a + Z.of_nat i) && (a + Z.of_nat i <? a + len l)) with true.
  - replace (Z.to_nat (a + Z.of_nat i - a)) with i by lia. by apply nth_lookup_Some.
  - symmetry. apply andb_true_iff. split; [apply Z.leb_le|apply Z.ltb_lt]; unfold len; lia.
Qed.

Lemma holds_splice m a l off d :
  holds m a l -> 0 <= off -> off + len d <= len l -> holds (store m (a + off) d) a (splice l off d).
Proof.
  intros Hm Ho Hl i b Hi. rewrite lookup_splice in Hi by done. unfold store. destruct (decide _).
  - replace ((a + off <=? a + Z.of_nat i) && (a + Z.of_nat i <? a + off + len d)) with true.
    + replace (Z.to_nat (a + Z.of_nat i - (a + off))) with (i - Z.to_nat off)%nat by lia. by apply nth_lookup_Some.
    + symmetry. apply andb_true_iff. split; [apply Z.leb_le|apply Z.ltb_lt]; lia.
  - replace ((a + off <=? a + Z.of_nat i) && (a + Z.of_nat i <? a + off + len d)) with false; [by apply Hm|].
    symmetry. apply andb_false_iff. destruct (Z.leb_spec (a + off) (a + Z.of_nat i)); [right; apply Z.ltb_ge|left]; lia || done.
Qed.

Lemma holds_ext m m' a l : (forall x, m x = m' x) -> holds m a l -> holds m' a l.
Proof. intros He Hm i b Hi. rewrite <- He. by apply Hm. Qed.

Section Stages.
Variable fuel : nat.
Hypothesis Hfuel : (2 <= fuel)%nat.
Abbreviation W := (world NvtDevice Novatek).

Lemma patch_run base image ps (w : W) :
  rom_idle (tr w) -> nv_rx (obj w) = [] -> 0 <= base -> base + len image <= 2 ^ 32 -> patches_below (len image) ps ->
  holds (nd_mem (tr w)) base image ->
  exists w', foreach (S := unit) (R := Empty_set) ps (fun '(off, word) _ =>
      let* _ := command fuel OP_ADDR_WRITE (base + off) word [] 0 REPLY_TIMEOUT in ret (Next tt)) tt w = (Ok (Next tt), w') /\
    rom_idle (tr w') /\ obj w' = obj w /\ holds (nd_mem (tr w')) base (apply_patches image ps) /\
    (nd_tmp (tr w'), nd_booted (tr w')) = (nd_tmp (tr w), nd_booted (tr w)).
Proof using Hfuel.
  intros Hi Hrx Hb Hmax Hp. revert image w Hi Hrx Hmax Hp.
  induction ps as [|[o word] ps IH]; intros image w Hi Hrx Hmax Hp Hm; cbn [foreach]; [by exists w|].
  apply Forall_cons in Hp as [(H0 & H4 & Hf) Hp]. cbn [fst snd] in *.
  destruct (build_cdb_fits OP_ADDR_WRITE (base + o) word) as [cdb Hc]; [done|apply fits_spec; lia|done|].
  destruct (cdb_shape _ _ _ _ Hc) as (Hl & Hn0 & Hn1 & Ha & Hz & _).
  destruct Hi as [Hld Hin Hout Hleft].
  destruct (command_run fuel Hfuel OP_ADDR_WRITE (base + o) word [] [] REPLY_TIMEOUT cdb w _ Hc Hrx ltac:(done) ltac:(done) eq_refl) as (w1 & E1 & Ht1 & Ho1);
    [|change (len (@nil Z)) with 0 in E1].
  { rewrite plain_writes by done. unfold nd_exec. rewrite Hn0, Hn1, Hld. cbn. by rewrite Hout, app_nil_r. }
  rewrite plain_writes in Ht1 by done. unfold nd_exec in Ht1. rewrite Hn0, Hn1, Ha, Hz, Hld in Ht1. cbn in Ht1.
  assert (Hsp : len (splice image o (le_bytes 4 word)) = len image) by (apply splice_len; rewrite ?le_bytes_len; lia).
  destruct (IH (splice image o (le_bytes 4 word)) w1) as (w2 & E2 & Hi2 & Ho2 & Hm2 & Hc2).
  - by rewrite Ht1.
  - by rewrite Ho1.
  - by rewrite Hsp.
  - by rewrite Hsp.
  - rewrite Ht1. cbn. apply holds_splice; rewrite ?le_bytes_len; try done; lia.
  - exists w2. unfold bind at 1. unfold bind at 1. rewrite E1. unfold ret at 1. split; [exact E2|].
    split; [done|]. split; [by rewrite Ho2|]. split; [done|]. rewrite Hc2, Ht1. done.
Qed.

Lemma wait_done_run (w : W) :
  nd_in (tr w) = [] -> nd_out (tr w) = [] -> nd_left (tr w) = 0 -> nv_rx (obj w) = [] ->
  exists w', command fuel OP_WAIT_DONE 0 0 [] 0 REPLY_TIMEOUT w = (Ok [], w') /\ obj w' = obj w /\
    nd_in (tr w') = [] /\ nd_out (tr w') = [] /\ nd_left (tr w') = 0 /\ nd_loader (tr w') = true /\
    nd_mem (tr w') = nd_mem (tr w) /\ nd_tmp (tr w') = nd_tmp (tr w) /\
    (nd_started (tr w'), nd_booted (tr w')) =
      (if nd_loader (tr w) then (nd_started (tr w), Some (nd_mem (tr w))) else (Some (nd_mem (tr w)), nd_booted (tr w))).
Proof using Hfuel.
  intros Hin Hout Hleft Hrx. destruct (build_cdb_fits OP_WAIT_DONE 0 0) as [cdb Hc]; [done..|].
  destruct (cdb_shape _ _ _ _ Hc) as (Hl & Hn0 & Hn1 & _ & _ & _).
  destruct (command_run fuel Hfuel OP_WAIT_DONE 0 0 [] [] REPLY_TIMEOUT cdb w _ Hc Hrx ltac:(done) ltac:(done) eq_refl) as (w1 & E1 & Ht1 & Ho1);
    [|change (len (@nil Z)) with 0 in E1].
  { rewrite plain_writes by done. unfold nd_exec. rewrite Hn0, Hn1. cbn. destruct (nd_loader (tr w)); cbn; by rewrite Hout, app_nil_r. }
  rewrite plain_writes in Ht1 by done. unfold nd_exec in Ht1. rewrite Hn0, Hn1 in Ht1. cbn in Ht1.
  exists w1. split; [exact E1|]. split; [done|]. rewrite Ht1. by destruct (nd_loader (tr w)); cbn; split_and!.
Qed.

Lemma send_loader_run loader base (w : W) :
  is_bytes loader -> 8 <= len loader <= ROM_CHUNK -> unpack_le 4 loader 4 = Ok base ->
  assoc DIE_SRAM (nv_chip_word (obj w)) = Some base -> rom_idle (tr w) -> nv_rx (obj w) = [] ->
  exists w' m, send_loader fuel loader w = (Ok tt, w') /\ obj w' = obj w /\
    nd_in (tr w') = [] /\ nd_out (tr w') = [] /\ nd_left (tr w') = 0 /\ nd_loader (tr w') = true /\
    nd_started (tr w') = Some m /\ holds m base loader /\
    (nd_tmp (tr w'), nd_booted (tr w')) = (nd_tmp (tr w), nd_booted (tr w)).
Proof using Hfuel.
  intros Hb Hlen Hbase Hdie Hidle Hrx. unfold send_loader.
  replace (len loader <? 8) with false by (symmetry; apply Z.ltb_ge; lia).
  replace (ROM_CHUNK <? len loader) with false by (symmetry; apply Z.ltb_ge; lia).
  unfold bind at 1, lift. rewrite Hbase. unfold bind at 1, get_obj. rewrite Hdie.
  rewrite bool_decide_eq_true_2 by done. cbn [negb].
  destruct (pad16_spec loader) as (n & Hn & Hpad & Hbnd). pose proof (defuse_loader_defused loader n Hb Hn) as Hdf.
  destruct (defuse_loader loader) as [image patches] eqn:Ed. destruct Hdf as [Hl Hib Hsafe _ Hpt Hback]. cbn [fst snd] in *.
  assert (Hb32 : 0 <= base /\ base + 0x10010 <= 2 ^ 32).
  { unfold assoc, DIE_SRAM in Hdie. cbn in Hdie. repeat (destruct (bool_decide _) in Hdie; [injection Hdie as <-; lia|]). done. }
  unfold ROM_CHUNK in *. rewrite Hn in Hl.
  destruct (build_cdb_fits OP_WRLOADER base (len image)) as [cdb Hc]; [done|apply fits_spec; lia..|].
  destruct (wrloader_writes base image cdb (tr w) Hidle Hc) as (Ho & Hleft & Hin & Hld & Hmem & Hcst); [lia|by exists n| |].
  { intros j Hj. apply Hsafe. lia. }
  destruct (command_run fuel Hfuel OP_WRLOADER base (len image) image [] REPLY_TIMEOUT cdb w _ Hc Hrx ltac:(done) ltac:(done) eq_refl) as (w1 & E1 & Ht1 & Ho1);
    [|change (len (@nil Z)) with 0 in E1].
  { by rewrite Ho, app_nil_r. }
  unfold bind at 1. rewrite E1.
  injection Hcst as Hcw Hct Hcb Hcc.
  destruct (patch_run base image patches w1) as (w2 & E2 & Hi2 & Ho2 & Hm2 & Hc2).
  { by rewrite Ht1. } { by rewrite Ho1. } { lia. } { lia. } { by rewrite Hl. }
  { rewrite Ht1. cbn. eapply holds_ext; [intros x; symmetry; apply Hmem|]. apply holds_store_self. }
  unfold bind at 1. rewrite E2. destruct Hi2 as [Hld2 Hin2 Hout2 Hleft2].
  destruct (wait_done_run w2) as (w3 & E3 & Ho3 & Hin3 & Hout3 & Hleft3 & Hld3 & Hmem3 & Htmp3 & Hst3); [done..|by rewrite Ho2, Ho1|].
  unfold bind at 1. rewrite E3. rewrite Hld2 in Hst3. injection Hst3 as Hs3 Hb3. injection Hc2 as Ht2 Hb2.
  eexists. exists (nd_mem (tr w2)). split; [reflexivity|]. cbn. rewrite Ho3, Ho2, Ho1. split_and!; try done.
  - rewrite Hback, Hpad in Hm2. intros i b Hib2. apply Hm2. by apply lookup_app_l_Some.
  - rewrite Htmp3, Ht2, Hb3, Hb2, Ht1. cbn [nd_tmp nd_booted nd_set]. f_equal; [exact Hct|exact Hcb].
Qed.

(** Commands that are answered with a word. *)
Lemma word_command_run op size v tmo (w : W) :
  nd_in (tr w) = [] -> nd_out (tr w) = [] -> nd_left (tr w) = 0 -> nv_rx (obj w) = [] -> 0 < tmo ->
  fits 1 op = true -> fits 4 size = true ->
  (forall cdb, build_cdb op 0 size = Ok cdb -> nd_exec cdb (tr w) = nd_say (cdb ++ le_bytes 4 v) (tr w)) ->
  exists w', command fuel op 0 size [] 4 tmo w = (Ok (le_bytes 4 v), w') /\ obj w' = obj w /\ tr w' = tr w.
Proof using Hfuel.
  intros Hin Hout Hleft Hrx Htmo Hop Hsz Hex. destruct (build_cdb_fits op 0 size Hop eq_refl Hsz) as [cdb Hc].
  destruct (cdb_shape _ _ _ _ Hc) as (Hl & _). assert (L4 : len (le_bytes 4 v) = 4) by (by apply le_bytes_len).
  destruct (command_run fuel Hfuel op 0 size [] (le_bytes 4 v) tmo cdb w _ Hc Hrx Htmo ltac:(lia) eq_refl) as (w1 & E1 & Ht1 & Ho1);
    rewrite plain_writes, Hex in * by done; cbn; [by rewrite Hout|]. rewrite L4 in E1.
  exists w1. split; [exact E1|]. split; [done|]. rewrite Ht1. destruct (tr w). cbn in *. by subst.
Qed.

Lemma holds_app m a l d : holds m a l -> holds (store m (a + len l) d) a (l ++ d).
Proof.
  intros Hm i b Hi. unfold store. apply lookup_app_Some in Hi as [Hi|[Hge Hi]].
  - pose proof (lookup_lt_Some _ _ _ Hi).
    replace (a + len l <=? a + Z.of_nat i) with false by (symmetry; apply Z.leb_gt; unfold len; lia). by apply Hm.
  - pose proof (lookup_lt_Some _ _ _ Hi).
    replace ((a + len l <=? a + Z.of_nat i) && (a + Z.of_nat i <? a + len l + len d)) with true.
    + replace (Z.to_nat (a + Z.of_nat i - (a + len l))) with (i - length l)%nat by (unfold len; lia). by apply nth_lookup_Some.
    + symmetry. apply andb_true_iff. split; [apply Z.leb_le|apply Z.ltb_lt]; unfold len; lia.
Qed.

(** The loader in its command loop. *)
Record loader_idle (d : NvtDevice) : Prop := {
  li_loader : nd_loader d = true; li_in : nd_in d = []; li_out : nd_out d = []; li_left : nd_left d = 0
}.

Lemma mem_write_run addr part (w : W) :
  loader_idle (tr w) -> nv_rx (obj w) = [] -> fits 4 addr = true -> 0 < len part <= WRITE_PIECE ->
  exists w', command fuel OP_MEM_WRITE addr (len part) part 0 REPLY_TIMEOUT w = (Ok [], w') /\ obj w' = obj w /\
    loader_idle (tr w') /\ (forall x, nd_mem (tr w') x = store (nd_mem (tr w)) addr part x) /\
    (nd_tmp (tr w'), nd_started (tr w')) = (nd_tmp (tr w), nd_started (tr w)).
Proof using Hfuel.
  intros [Hld Hin Hout Hleft] Hrx Ha [Hp Hmax]. unfold WRITE_PIECE in Hmax.
  destruct (build_cdb_fits OP_MEM_WRITE addr (len part)) as [cdb Hc]; [done|done|apply fits_spec; lia|].
  destruct (cdb_shape _ _ _ _ Hc) as (Hl & Hn0 & Hn1 & Had & Hsz & _).
  assert (Hw : nd_writes (data_writes cdb part) (tr w) =
    nd_buffer [] (nd_set (store (nd_mem (tr w)) addr part) (addr + len part) 0 cdb (tr w))).
  { destruct (data_writes_pieces cdb part Hp) as (p0 & rest & Hpp & ->). rewrite pieces_one in Hpp by (unfold WRITE_PIECE; lia).
    injection Hpp as <- <-. cbn [nd_writes foldl]. rewrite nd_write_command by done.
    assert (Hx : nd_exec cdb (tr w) = nd_set (nd_mem (tr w)) addr (len part) cdb (tr w)).
    { unfold nd_exec. rewrite Hn0, Hn1, Had, Hsz, Hld, Hout. reflexivity. }
    rewrite Hx. rewrite length_app. unfold len in Hl, Hp. destruct (length cdb) as [|[|n]]; [lia..|]. cbn [plus].
    cbn [nd_feed nd_loader nd_left nd_set nd_mem nd_cur nd_out]. rewrite Hld. cbn [andb].
    replace (0 <? len part) with true by (symmetry; apply Z.ltb_lt; unfold len; lia).
    replace (beq part []) with false by (symmetry; apply bool_decide_eq_false; intros ->; cbn in Hp; lia).
    rewrite Z.min_id, slice_all, drop_ge by (unfold len; lia). rewrite Z.sub_diag. by destruct (_ && _). }
  destruct (command_run fuel Hfuel OP_MEM_WRITE addr (len part) part [] REPLY_TIMEOUT cdb w _ Hc Hrx ltac:(done) ltac:(done) eq_refl)
    as (w1 & E1 & Ht1 & Ho1); rewrite Hw in *; cbn; [by rewrite app_nil_r|]. change (len (@nil Z)) with 0 in E1.
  exists w1. rewrite Ht1. by split_and!.
Qed.

Lemma pack_run tmp pack n (w : W) :
  loader_idle (tr w) -> nv_rx (obj w) = [] -> 0 <= tmp -> tmp + len pack <= 2 ^ 32 ->
  Z.of_nat n * PACK_CHUNK < len pack + PACK_CHUNK ->
  exists w', foreach (S := unit) (R := Empty_set) ((fun i => Z.of_nat i * PACK_CHUNK) <$> seq 0 n) (fun off _ =>
      let part := slice pack off (off + PACK_CHUNK) in
      let* _ := command fuel OP_MEM_WRITE (tmp + off) (len part) part 0 REPLY_TIMEOUT in ret (Next tt)) tt w = (Ok (Next tt), w') /\
    obj w' = obj w /\ loader_idle (tr w') /\ holds (nd_mem (tr w')) tmp (slice pack 0 (Z.of_nat n * PACK_CHUNK)) /\
    (nd_tmp (tr w'), nd_started (tr w')) = (nd_tmp (tr w), nd_started (tr w)).
Proof using Hfuel.
  intros Hi Hrx H0 Hmax. unfold PACK_CHUNK. induction n as [|n IH]; intros Hn.
  { exists w. split; [done|]. split; [done|]. split; [done|]. split; [|done]. unfold slice. cbn. by intros i b ?. }
  destruct (IH ltac:(lia)) as (w1 & E1 & Ho1 & Hi1 & Hm1 & Hc1).
  rewrite seq_S, fmap_app, foreach_app. unfold bind at 1. rewrite E1. cbn [fmap list_fmap foreach].
  set (off := Z.of_nat (0 + n) * 4096). assert (Hoff : off = Z.of_nat n * 4096) by (unfold off; lia).
  set (part := slice pack off (off + 4096)). assert (Hpl : 0 < len part <= 4096) by (unfold part; rewrite len_slice; lia).
  destruct (mem_write_run (tmp + off) part w1) as (w2 & E2 & Ho2 & Hi2 & Hm2 & Hc2).
  { done. } { by rewrite Ho1. } { apply fits_spec. lia. } { done. }
  unfold bind at 1. unfold bind at 1. rewrite E2. unfold ret at 1. cbn. exists w2. split; [done|].
  split; [by rewrite Ho2|]. split; [done|]. split; [|by rewrite Hc2].
  replace (Z.of_nat (S n) * 4096) with (off + 4096) by lia. rewrite <- (slice_split pack 0 off (off + 4096)) by lia.
  eapply holds_ext; [intros x; symmetry; apply Hm2|].
  replace (tmp + off) with (tmp + len (slice pack 0 off)) by (rewrite len_slice; lia).
  apply holds_app. by rewrite Hoff.
Qed.

Lemma send_pack_run pack (w : W) :
  loader_idle (tr w) -> nv_rx (obj w) = [] -> 0 <= nd_tmp (tr w) -> nd_tmp (tr w) + len pack <= 2 ^ 32 -> 0 < len pack ->
  exists w' m, send_pack fuel pack w = (Ok tt, w') /\ obj w' = obj w /\
    nd_booted (tr w') = Some m /\ holds m (nd_tmp (tr w)) pack /\ nd_started (tr w') = nd_started (tr w).
Proof using Hfuel.
  intros Hi Hrx H0 Hmax Hpos. pose proof Hi as [Hld Hin Hout Hleft]. unfold send_pack.
  assert (Hfits : fits 4 (nd_tmp (tr w)) = true) by (apply fits_spec; lia).
  assert (Hun : forall v, fits 4 v = true -> unpack_le 4 (le_bytes 4 v) 0 = Ok v).
  { intros v Hv. unfold unpack_le. rewrite le_bytes_len by lia. cbn [Z.leb Z.add Z.compare].
    rewrite slice_all by (rewrite le_bytes_len; lia). by rewrite le_int_le_bytes by (done || lia). }
  destruct (word_command_run OP_GET_TMP_ADDR 4 (nd_tmp (tr w)) REPLY_TIMEOUT w) as (w1 & E1 & Ho1 & Ht1); [done..| |].
  { intros cdb Hc. destruct (cdb_shape _ _ _ _ Hc) as (_ & Hn0 & Hn1 & _). unfold nd_exec. by rewrite Hn0, Hn1, Hld. }
  unfold bind at 1. rewrite E1. unfold bind at 1, lift. rewrite Hun by done.
  set (n := Z.to_nat ((len pack + PACK_CHUNK - 1) / PACK_CHUNK)).
  pose proof (Z.div_mod (len pack + PACK_CHUNK - 1) PACK_CHUNK ltac:(done)).
  pose proof (Z.mod_pos_bound (len pack + PACK_CHUNK - 1) PACK_CHUNK ltac:(done)).
  assert (Hn : Z.of_nat n = (len pack + PACK_CHUNK - 1) / PACK_CHUNK).
  { unfold n. rewrite Z2Nat.id; [done|]. apply Z.div_pos; unfold PACK_CHUNK; lia. }
  destruct (pack_run (nd_tmp (tr w)) pack n w1) as (w2 & E2 & Ho2 & Hi2 & Hm2 & Hc2); rewrite ?Ht1, ?Ho1; try done.
  { unfold PACK_CHUNK in *. lia. }
  unfold bind at 1. unfold range_step. fold n. cbn zeta in E2. rewrite E2. pose proof Hi2 as [Hld2 Hin2 Hout2 Hleft2].
  destruct (word_command_run OP_UBOOT 4 0 REPLY_TIMEOUT w2) as (w3 & E3 & Ho3 & Ht3); try done; [by rewrite Ho2, Ho1| |].
  { intros cdb Hc. destruct (cdb_shape _ _ _ _ Hc) as (_ & Hn0 & Hn1 & _). unfold nd_exec. by rewrite Hn0, Hn1, Hld2. }
  unfold bind at 1. rewrite E3. unfold bind at 1, lift. rewrite Hun by done. cbn [signed32 Z.ltb Z.compare Z.eqb negb].
  destruct (wait_done_run w3) as (w4 & E4 & Ho4 & _ & _ & _ & _ & _ & _ & Hst4); rewrite ?Ht3; [done..|by rewrite Ho3, Ho2, Ho1|].
  unfold bind at 1. rewrite E4. rewrite Ht3, Hld2 in Hst4. injection Hst4 as Hs4 Hb4. injection Hc2 as _ Hs2.
  exists w4, (nd_mem (tr w2)). split; [done|]. split; [by rewrite Ho4, Ho3, Ho2, Ho1|]. split; [done|].
  split; [|by rewrite Hs4, Hs2, Ht1]. rewrite slice_all in Hm2; [done|]. unfold PACK_CHUNK in *. lia.
Qed.

Lemma nvt_handshake_run chip word (w : W) :
  rom_idle (tr w) -> nv_chip (obj w) = chip -> nd_word (tr w) = word -> fits 4 word = true ->
  assoc NOVATEK_DIES chip = Some word ->
  exists w', nvt_handshake fuel w = (Ok (mkHandshake true (Some word) None None), w') /\
    obj w' = mkNvt chip (nv_flash_type (obj w)) [] word (nv_loader_running (obj w)) /\ tr w' = tr w.
Proof using Hfuel.
  intros [Hld Hin Hout Hleft] Hchip Hword Hfits Hdie. unfold nvt_handshake.
  unfold bind at 1, flush_input. cbn [t_flush_input NvtDevice_Transport]. unfold bind at 1, get_obj. cbn [obj].
  unfold bind at 1, put_obj. cbn [tr obj log]. unfold bind at 1, monotonic. cbn [t_monotonic NvtDevice_Transport tr obj log].
  set (w0 := World _ _ _). assert (Ht0 : tr w0 = tr w) by (unfold w0; cbn; destruct (tr w); cbn in *; by subst).
  assert (Hrx0 : nv_rx (obj w0) = []) by done.
  assert (Hun : unpack_le 4 (le_bytes 4 word) 0 = Ok word).
  { unfold unpack_le. rewrite le_bytes_len by lia. cbn [Z.leb Z.add Z.compare].
    rewrite slice_all by (rewrite le_bytes_len; lia). by rewrite le_int_le_bytes by (done || lia). }
  destruct (word_command_run OP_IS_NVT 0 word HANDSHAKE_INTERVAL w0) as (w1 & E1 & Ho1 & Ht1); rewrite ?Ht0; try done.
  { intros cdb Hc. destruct (cdb_shape _ _ _ _ Hc) as (_ & Hn0 & Hn1 & _). unfold nd_exec. by rewrite Hn0, Hn1, Hword. }
  assert (Hturn : nvt_handshake_body fuel (nd_clock (tr w) + HANDSHAKE_TIMEOUT) tt w0 = (Ok (Rtn (Some word)), w1)).
  { unfold nvt_handshake_body. unfold bind at 1, monotonic. cbn [t_monotonic NvtDevice_Transport]. rewrite Ht0.
    replace (nd_clock (tr w) <? nd_clock (tr w) + HANDSHAKE_TIMEOUT) with true
      by (symmetry; apply Z.ltb_lt; unfold HANDSHAKE_TIMEOUT; lia). cbn [negb].
    unfold bind at 1, try_except. unfold bind at 1.
    replace (World (tr w) (obj w0) (log w0)) with w0 by (rewrite <- Ht0; by destruct w0).
    rewrite E1. unfold ret at 1. unfold bind at 1, lift. by rewrite Hun. }
  unfold bind at 1. cbn [nd_clock nd_set]. assert (Hf0 : (0 < fuel)%nat) by lia.
  rewrite (while_rtn fuel _ _ _ _ _ Hf0 Hturn).
  unfold bind at 1, get_obj.
  unfold bind at 1, put_obj. rewrite Ho1.
  rewrite bool_decide_eq_true_2 by (change (nv_chip (obj w0)) with (nv_chip (obj w)); by rewrite Hchip, Hdie). cbn [negb].
  set (w2 := World _ _ _).
  destruct (build_cdb_fits OP_OPEN_DEVICE 0 0) as [cdb Hc]; [done..|].
  destruct (cdb_shape _ _ _ _ Hc) as (Hl & Hn0 & Hn1 & _).
  assert (Ht2 : tr w2 = tr w) by (unfold w2; cbn; by rewrite Ht1).
  destruct (command_run fuel Hfuel OP_OPEN_DEVICE 0 0 [] [] REPLY_TIMEOUT cdb w2 _ Hc ltac:(done) ltac:(done) ltac:(done) eq_refl) as (w3 & E3 & Ht3 & Ho3).
  { rewrite Ht2, plain_writes by done. unfold nd_exec. rewrite Hn0, Hn1. cbn. by rewrite Hout, app_nil_r. }
  change (len (@nil Z)) with 0 in E3. unfold bind at 1. rewrite E3. exists w3. split; [done|]. rewrite Ho3, Ht3. split.
  - rewrite <- Hchip. done.
  - rewrite Ht2, plain_writes by done. unfold nd_exec. rewrite Hn0, Hn1. cbn. destruct (tr w). cbn in *. by subst.
Qed.

End Stages.

Lemma load_recovery_set_nonempty tar_members archive chip flash loader a b :
  load_recovery_set tar_members archive chip flash loader = Ok (a, b) -> 0 < len a /\ 0 < len b.
Proof.
  unfold load_recovery_set. destruct (tar_members archive) as [e|ms]; [done|]. destruct (_ || _); [done|].
  destruct (read_member _ _) as [x|e|]; [|done..]. cbn [res_bind]. destruct (read_member _ _) as [y|e|]; [|done..]. cbn [res_bind].
  destruct (beq x [] || beq y []) eqn:E; [done|]. intros [= <- <-]. b2p. pose proof (len_nonneg x). pose proof (len_nonneg y).
  split; apply Z.le_neq; (split; [done|]); intros E; symmetry in E; apply len_0_nil in E; done.
Qed.

Lemma die_fits chip word : assoc NOVATEK_DIES chip = Some word -> fits 4 word = true.
Proof.
  unfold assoc. destruct (List.find _ NOVATEK_DIES) as [[k v]|] eqn:E; [|done]. cbn. intros [= <-].
  apply List.find_some in E as [Hin _]. unfold NOVATEK_DIES in Hin. cbn in Hin. destruct_or? Hin; by simplify_eq.
Qed.

(** C23. Against a mask ROM that takes every 16 bytes as a command, also while
    it receives the loader, and the write loader it then starts: the handshake
    succeeds, and the upload of a recovery set succeeds with all its stages.
    When the ROM starts the loader, its SRAM holds exactly the write loader
    (the parts that look like commands included), and when the loader starts
    U-Boot, its buffer holds exactly the pack. *)
Theorem nvt_recovers tar_members str_exn fuel chip firmware word base loader pack (w : world NvtDevice Novatek) :
  (2 <= fuel)%nat -> rom_idle (tr w) -> nv_chip (obj w) = chip -> nv_loader_running (obj w) = false ->
  nd_word (tr w) = word -> assoc NOVATEK_DIES chip = Some word -> assoc DIE_SRAM word = Some base ->
  load_recovery_set tar_members firmware chip (nv_flash_type (obj w)) "wrloader.bin" = Ok (loader, pack) ->
  is_bytes loader -> 8 <= len loader <= ROM_CHUNK -> unpack_le 4 loader 4 = Ok base ->
  0 <= nd_tmp (tr w) -> nd_tmp (tr w) + len pack <= 2 ^ 32 ->
  exists w1 w2 m1 m2,
    nvt_handshake fuel w = (Ok (mkHandshake true (Some word) None None), w1) /\
    nvt_send_firmware tar_members str_exn fuel firmware w1 = (Ok (succeeded [HANDSHAKE; SPL; UBOOT; COMPLETE]), w2) /\
    nd_started (tr w2) = Some m1 /\ holds m1 base loader /\
    nd_booted (tr w2) = Some m2 /\ holds m2 (nd_tmp (tr w)) pack.
Proof.
  intros Hf Hidle Hchip Hrun Hword Hdie Hsram Hset Hb Hlen Hbase Ht0 Htm.
  destruct (load_recovery_set_nonempty _ _ _ _ _ _ _ Hset) as [_ Hpos].
  destruct (nvt_handshake_run fuel Hf chip word w Hidle Hchip Hword (die_fits _ _ Hdie) Hdie) as (w1 & E1 & Ho1 & Ht1).
  destruct (send_loader_run fuel Hf loader base w1 Hb Hlen Hbase) as (w2 & m1 & E2 & Ho2 & Hin2 & Hout2 & Hl2 & Hld2 & Hst2 & Hm2 & Hc2);
    [by rewrite Ho1|by rewrite Ht1|by rewrite Ho1|]. injection Hc2 as Htmp2 Hbt2. rewrite Ht1 in Htmp2.
  destruct (send_pack_run fuel Hf pack w2) as (w3 & m2 & E3 & Ho3 & Hbt3 & Hm3 & Hst3);
    [by split|by rewrite Ho2, Ho1|by rewrite Htmp2..|done|].
  exists w1, w3, m1, m2. split; [done|]. split.
  - unfold nvt_send_firmware. unfold bind at 1, get_obj. rewrite Ho1. cbn [nv_chip nv_flash_type nv_loader_running].
    rewrite Hset, Hrun. unfold stage_of at 1. unfold bind at 1, try_except. unfold bind at 1. rewrite E2. unfold ret at 1.
    unfold stage_of. unfold bind at 1, try_except. unfold bind at 1. rewrite E3. done.
  - rewrite <- Htmp2, Hst3. by split_and!.
Qed.

(** A set whose loader holds a WRLOADER command. *)
Definition nvt_loader : bytes :=
  [1; 2; 3; 4] ++ le_bytes 4 0xF07C0000 ++ brep 8 9 ++ [0xC0; 0x02; 0; 0; 0; 0; 1; 0; 0; 0; 7; 7; 7; 7; 7; 7] ++ [5; 6].
Definition nvt_pack : bytes := [0xAA; 0xBB; 0xCC].
Definition nvt_tar (archive : bytes) : string + list member :=
  inr [(codes "./recovery-nt98562-nor/wrloader.bin", inr nvt_loader); (codes "recovery-nt98562-nor/FW98562T.bin", inr nvt_pack)].
Definition nvt_device : NvtDevice := NvtDev (fun _ => 0) 0 0 [] [] false 0x70210000 0x1000000 None None 0.
Definition nvt_world : world NvtDevice Novatek := World nvt_device (set_target "NT98562" "nor" Novatek_init) [].

Theorem nvt_recovers_witness :
  exists w1 w2 m1 m2,
    nvt_handshake 2 nvt_world = (Ok (mkHandshake true (Some 0x70210000) None None), w1) /\
    nvt_send_firmware nvt_tar (fun _ => ""%string) 2 [1] w1 = (Ok (succeeded [HANDSHAKE; SPL; UBOOT; COMPLETE]), w2) /\
    nd_started (tr w2) = Some m1 /\ holds m1 0xF07C0000 nvt_loader /\
    nd_booted (tr w2) = Some m2 /\ holds m2 0x1000000 nvt_pack.
Proof.
  apply (nvt_recovers nvt_tar (fun _ => ""%string) 2 "nt98562" [1] 0x70210000 0xF07C0000 nvt_loader nvt_pack nvt_world);
    try (vm_compute; reflexivity); try (cbn; lia); [done| | |vm_compute; discriminate].
  - unfold nvt_loader, brep. repeat apply Forall_app_2; try apply Forall_replicate; try (by apply le_bytes_is_bytes);
      repeat constructor; lia.
  - vm_compute. split; discriminate.
Defined.

(** ** Over any transport *)

(** A command: opcode, address, size, data and the answer's payload. *)
Record exchange := Exch { x_op : Z; x_addr : Z; x_size : Z; x_data : bytes; x_reply : bytes }.

(** From [rx] bytes kept, the log [l] sends the command with its data, and what
    was kept and read holds its echo with status 0 and the payload; [rx'] is
    what follows. *)
Definition answered (rx : bytes) (x : exchange) (l : list event) (rx' : bytes) : Prop :=
  exists cdb pre echo, build_cdb (x_op x) (x_addr x) (x_size x) = Ok cdb /\
    concat (writes l) = cdb ++ x_data x /\
    rx ++ reads l = pre ++ echo ++ x_reply x ++ rx' /\
    len echo = 16 /\ take 13 echo = take 13 cdb /\ echo !! 13%nat = Some 0.

(** A sequence of them, each answered before the next is sent. *)
Inductive session : bytes -> list exchange -> list event -> bytes -> Prop :=
  | session_nil rx : session rx [] [] rx
  | session_snoc rx xs l rx1 x l1 rx2 :
      session rx xs l rx1 -> answered rx1 x l1 rx2 -> session rx (xs ++ [x]) (l ++ l1) rx2.

Lemma session_one rx x l rx' : answered rx x l rx' -> session rx [x] l rx'.
Proof. intros Ha. apply (session_snoc rx [] [] rx x l rx'); [constructor|done]. Qed.

Lemma session_app rx xs l rx1 ys l' rx2 :
  session rx xs l rx1 -> session rx1 ys l' rx2 -> session rx (xs ++ ys) (l ++ l') rx2.
Proof.
  intros H1 H2. induction H2 as [|rx1 ys l2 rx2 y l3 rx3 H2 IH Ha]; [by rewrite !app_nil_r|].
  rewrite !app_assoc. by eapply session_snoc; [apply IH|].
Qed.

Lemma session_cons rx x l rx1 xs l' rx2 :
  answered rx x l rx1 -> session rx1 xs l' rx2 -> session rx (x :: xs) (l ++ l') rx2.
Proof. intros Ha Hs. apply (session_app rx [x] l rx1); [by apply session_one|done]. Qed.

Section Any.
Context {T : Type} `{Transport T}.
Variable fuel : nat.
Abbreviation MN := (M T Novatek).

Lemma drop_writes_does data offs (o : Novatek) :
  does (T := T) (foreach (S := unit) (R := Empty_set) offs (fun off _ =>
      let* _ := write (slice data off (off + WRITE_PIECE)) in ret (Next tt)) tt) o
    (fun r l o' => forall c, r = Ok c -> o' = o /\ reads l = [] /\
       writes l = (fun off => slice data off (off + WRITE_PIECE)) <$> offs).
Proof.
  apply (does_foreach (fun done _ l o' => o' = o /\ reads l = [] /\
    writes l = (fun off => slice data off (off + WRITE_PIECE)) <$> done)); [done| |by intros ? l o0 HI c [= <-]].
  intros done x rest [] l0 o0 -> (-> & Hr & Hw). repeat does_step; try done.
  autorewrite with trace. rewrite Hr, Hw, fmap_app. done.
Qed.

Lemma data_writes_concat cdb data :
  concat (data_writes cdb data) = cdb ++ data.
Proof.
  destruct (decide (len data = 0)) as [E|E].
  - apply len_0_nil in E as ->. rewrite data_writes_nil. cbn. done.
  - pose proof (len_nonneg data). destruct (data_writes_pieces cdb data ltac:(lia)) as (p0 & rest & Hp & ->).
    cbn [concat]. rewrite <- app_assoc. f_equal. change (p0 ++ concat rest) with (concat (p0 :: rest)).
    rewrite <- Hp. by apply pieces_concat.
Qed.

Lemma wait_does cdb reply deadline (o : Novatek) :
  len cdb = 16 -> 0 <= reply ->
  does (T := T) (while fuel (command_body cdb reply deadline) tt) o (fun r l o' =>
    writes l = [] /\
    match r with
    | Ok (Rtn at_) => o' = set_rx (nv_rx o ++ reads l) o /\ 0 <= at_ /\ at_ + 16 + reply <= len (nv_rx o') /\
        slice (nv_rx o') at_ (at_ + 13) = take 13 cdb
    | _ => True
    end).
Proof.
  intros Hl Hr0.
  apply (does_while (fun _ l o' => writes l = [] /\ o' = set_rx (nv_rx o ++ reads l) o)); [|  |by intros [] l o0 [Hw _]].
  { split; [done|]. rewrite app_nil_r. by destruct o. }
  intros [] l0 o0 [Hw ->]. unfold command_body. does_step. does_step. cbn [nv_rx set_rx].
  set (rx := nv_rx o ++ reads l0) in *. unfold CDB_ECHO, CDB_SIZE.
  destruct (_ && _) eqn:Ea.
  { does_step. rewrite !app_nil_r. split; [done|]. b2p. fold rx.
    destruct (find_bytes_spec (slice cdb 0 13) rx 0 (len rx) ltac:(lia)) as [[E _]|(_ & _ & Hs & _)]; [rewrite E in *; lia|].
    assert (Hl13 : len (slice cdb 0 13) = 13) by (rewrite len_slice; lia). rewrite Hl13 in Hs.
    split; [done|]. split; [done|]. split; [done|]. cbn. rewrite Hs. unfold slice. by rewrite drop_0. }
  does_step. does_step. does_step; [does_step; by rewrite !app_nil_r|].
  does_step. does_step. does_step.
  - does_step. does_step. does_step. autorewrite with trace. rewrite Hw. split; [done|].
    unfold set_rx. cbn. by rewrite app_assoc, app_nil_r.
  - destruct (is_TransportTimeout _); [|by autorewrite with trace; rewrite Hw].
    repeat does_step. autorewrite with trace. rewrite Hw. split; [done|]. unfold set_rx. cbn. by rewrite ?app_nil_r.
  - by autorewrite with trace; rewrite Hw.
Qed.

Lemma command_does op addr size data reply tmo (o : Novatek) :
  0 <= reply ->
  does (T := T) (command fuel op addr size data reply tmo) o (fun r l o' => forall out, r = Ok out ->
    len out = reply /\ answered (nv_rx o) (Exch op addr size data out) l (nv_rx o') /\ o' = set_rx (nv_rx o') o).
Proof.
  intros Hr0. unfold command. does_step. does_step. destruct (build_cdb op addr size) as [cdb|e|] eqn:Hc; [|done..].
  destruct (cdb_shape _ _ _ _ Hc) as (Hl & _).
  does_step. does_step; [|done..]. does_step. eapply does_weaken; [apply drop_writes_does|].
  intros [c|e|] l1 o1 H1; [|done..]. destruct (H1 c eq_refl) as (-> & Hr1 & Hw1). clear H1.
  does_step. does_step; [|done..]. does_step. does_step. does_step.
  eapply does_weaken; [apply (wait_does cdb reply _ o Hl Hr0)|].
  intros [[s|s|at_]|e|] l2 o2 [Hw2 Hrtn]; try done; [by does_step..|].
  destruct Hrtn as (-> & Ha0 & Hal & Hs). does_step. does_step. does_step. does_step.
  cbn [nv_rx set_rx] in *. set (rx := nv_rx o ++ reads l2) in *.
  unfold index. destruct (rx !! Z.to_nat (at_ + CDB_STATUS)) as [st|] eqn:Est; [|done]. cbn [of_opt].
  does_step. does_step. does_step; [by does_step|]. does_step. intros out [= <-]. unfold CDB_SIZE, CDB_STATUS in *. b2p. subst st.
  split; [rewrite len_slice; lia|]. split; [|by destruct o].
  exists cdb, (take (Z.to_nat at_) rx), (slice rx at_ (at_ + 16)). split; [done|]. split.
  - cbn [x_data]. rewrite <- (data_writes_concat cdb data). f_equal. rewrite (app_nil_r l2).
    rewrite (writes_cons _ (l1 ++ _)), writes_app, (writes_cons _ l2), Hw1, Hw2. by rewrite !app_nil_r.
  - split.
    + cbn [x_reply nv_rx set_rx]. rewrite (app_nil_r l2). rewrite (reads_cons _ (l1 ++ _)), reads_app, (reads_cons _ l2), Hr1.
      change (rx = take (Z.to_nat at_) rx ++ slice rx at_ (at_ + 16) ++ slice rx (at_ + 16) (at_ + 16 + reply) ++
        drop (Z.to_nat (at_ + 16 + reply)) rx).
      rewrite <- (take_drop (Z.to_nat at_) rx) at 1. f_equal.
      rewrite app_assoc, slice_split by lia. unfold slice.
      replace (Z.to_nat (at_ + 16 + reply)) with (Z.to_nat at_ + Z.to_nat (at_ + 16 + reply - at_))%nat by lia.
      rewrite <- drop_drop. by rewrite take_drop.
    + split; [rewrite len_slice; lia|]. split.
      * rewrite <- Hs. unfold slice. rewrite take_take. f_equal. lia.
      * unfold slice. rewrite lookup_take_lt, lookup_drop by lia. rewrite <- Est. f_equal. lia.
Qed.

(** Commands with no payload in their answers, one after the other. *)
Lemma commands_does {X} (op : Z) (addr size : X -> Z) (data : X -> bytes) xs (body : X -> unit -> M T Novatek (ctl unit Empty_set))
    (o : Novatek) :
  (forall x, body x tt = let* _ := command fuel op (addr x) (size x) (data x) 0 REPLY_TIMEOUT in ret (Next tt)) ->
  does (foreach xs body tt) o
    (fun r l o' => forall c, r = Ok c ->
       session (nv_rx o) ((fun x => Exch op (addr x) (size x) (data x) []) <$> xs) l (nv_rx o') /\ o' = set_rx (nv_rx o') o).
Proof.
  intros Hbody. apply (does_foreach (fun done _ l o' =>
    session (nv_rx o) ((fun x => Exch op (addr x) (size x) (data x) []) <$> done) l (nv_rx o') /\ o' = set_rx (nv_rx o') o));
    [split; [constructor|by destruct o]| |by intros ? l o0 HI c [= <-]].
  intros done x rest [] l0 o0 -> [Hs Ho]. rewrite Hbody. does_step. eapply does_weaken; [by apply command_does|].
  intros [out|e|] l1 o1 Hc; try done. destruct (Hc out eq_refl) as (H0 & Ha & Ho1).
  apply len_0_nil in H0 as ->. does_step. rewrite app_nil_r, fmap_app.
  split; [by eapply session_snoc|]. rewrite Ho1, Ho. by destruct o.
Qed.

(** The commands of [_send_loader] and of [_send_pack]. *)
Definition loader_session (base : Z) (image : bytes) (patches : list (Z * Z)) : list exchange :=
  [Exch OP_WRLOADER base (len image) image []] ++
  ((fun p => Exch OP_ADDR_WRITE (base + fst p) (snd p) [] []) <$> patches) ++ [Exch OP_WAIT_DONE 0 0 [] []].

Definition pack_session (tmp : Z) (buffer status pack : bytes) : list exchange :=
  [Exch OP_GET_TMP_ADDR 0 4 [] buffer] ++
  ((fun off => Exch OP_MEM_WRITE (tmp + off) (len (slice pack off (off + PACK_CHUNK))) (slice pack off (off + PACK_CHUNK)) [])
     <$> range_step (len pack) PACK_CHUNK) ++
  [Exch OP_UBOOT 0 4 [] status] ++ [Exch OP_WAIT_DONE 0 0 [] []].

Lemma send_loader_does loader (o : Novatek) :
  does (T := T) (send_loader fuel loader) o (fun r l o' => forall c, r = Ok c ->
    exists base, unpack_le 4 loader 4 = Ok base /\ assoc DIE_SRAM (nv_chip_word o) = Some base /\
      session (nv_rx o) (loader_session base (fst (defuse_loader loader)) (snd (defuse_loader loader))) l (nv_rx o') /\
      o' = set_rx (nv_rx o') o).
Proof.
  unfold send_loader. does_step; [by does_step|]. does_step; [by does_step|]. does_step. does_step.
  destruct (unpack_le 4 loader 4) as [base|e|] eqn:Eb; [|done..]. does_step. does_step. does_step; [by does_step|]. b2p.
  match goal with Hx : Some base = _ |- _ => rename Hx into Hbase end. destruct (defuse_loader loader) as [image patches]. cbn [fst snd].
  does_step. eapply does_weaken; [by apply command_does|]. intros [b1|e|] l1 o1 H1; [|done..].
  destruct (H1 b1 eq_refl) as (H0 & Ha1 & Ho1). apply len_0_nil in H0 as ->. clear H1.
  does_step. eapply does_weaken; [apply (commands_does OP_ADDR_WRITE (fun p => base + fst p) snd (fun _ => []) patches); by intros []|].
  intros [c|e|] l2 o2 H2; [|done..]. destruct (H2 c eq_refl) as (Hs2 & Ho2). clear H2.
  does_step. eapply does_weaken; [by apply command_does|]. intros [b3|e|] l3 o3 H3; [|done..].
  destruct (H3 b3 eq_refl) as (H0 & Ha3 & Ho3). apply len_0_nil in H0 as ->. clear H3.
  apply does_sleep. intros c' _. exists base. split; [done|]. split; [by rewrite Hbase|]. split.
  - rewrite ?(app_nil_r l3), ?(app_nil_r l4). apply session_cons with (nv_rx o1); [done|].
    apply session_app with (nv_rx o2); [done|by apply session_one].
  - rewrite Ho3, Ho2, Ho1. by destruct o.
Qed.


Lemma send_pack_does pack (o : Novatek) :
  does (T := T) (send_pack fuel pack) o (fun r l o' => forall c, r = Ok c ->
    exists tmp buffer status, unpack_le 4 buffer 0 = Ok tmp /\ (exists st, unpack_le 4 status 0 = Ok st /\ signed32 st = 0) /\
      session (nv_rx o) (pack_session tmp buffer status pack) l (nv_rx o')).
Proof.
  unfold send_pack. does_step. eapply does_weaken; [by apply command_does|]. intros [b1|e|] l1 o1 H1; [|done..].
  destruct (H1 b1 eq_refl) as (_ & Ha1 & Ho1). clear H1. does_step. does_step.
  destruct (unpack_le 4 b1 0) as [tmp|e|] eqn:Eb; [|done..].
  does_step. eapply does_weaken; [by apply (commands_does OP_MEM_WRITE (fun off => tmp + off)
    (fun off => len (slice pack off (off + PACK_CHUNK))) (fun off => slice pack off (off + PACK_CHUNK)))|].
  intros [c|e|] l2 o2 H2; [|done..]. destruct (H2 c eq_refl) as (Hs2 & _). clear H2.
  does_step. eapply does_weaken; [by apply command_does|]. intros [b3|e|] l3 o3 H3; [|done..].
  destruct (H3 b3 eq_refl) as (_ & Ha3 & _). clear H3. does_step. does_step.
  destruct (unpack_le 4 b3 0) as [st|e|] eqn:Es; [|done..]. does_step; [by does_step|].
  does_step. eapply does_weaken; [by apply command_does|]. intros [b4|e|] l4 o4 H4; [|done..].
  destruct (H4 b4 eq_refl) as (H0 & Ha4 & _). apply len_0_nil in H0 as ->. clear H4.
  does_step. intros c' _. exists tmp, b1, b3. split; [done|]. split.
  - exists st. by b2p.
  - rewrite ?(app_nil_r l3), ?(app_nil_r l4). apply session_cons with (nv_rx o1); [done|].
    rewrite (app_nil_l (l2 ++ _)), (app_nil_l l4). apply session_app with (nv_rx o2); [done|].
    apply session_cons with (nv_rx o3); [done|by apply session_one].
Qed.

Lemma stage_of_does str_exn done (m : M T Novatek unit) k (o : Novatek) (P : list event -> Novatek -> Prop) Q :
  does m o (fun r l o' => forall c, r = Ok c -> P l o') ->
  (forall l o', P l o' -> does k o' (fun r' l' o'' => Q r' (l ++ l') o'')) ->
  (forall r l o', (forall rec, r = Ok rec -> r_success rec = false) -> Q r l o') ->
  does (stage_of str_exn done m k) o Q.
Proof.
  intros Hm Hk Hfail. unfold stage_of. does_step. does_step. does_step. eapply does_weaken; [exact Hm|].
  intros [c|e|] l o' Hp.
  - does_step. rewrite app_nil_r. apply Hk. by eapply Hp.
  - destruct (_ || _).
    + does_step. does_step. apply Hfail. by intros rec [= <-].
    + by apply Hfail.
  - by apply Hfail.
Qed.

Lemma nvt_send_does tar_members str_exn firmware (o : Novatek) :
  does (T := T) (nvt_send_firmware tar_members str_exn fuel firmware) o (fun r l o' => forall rec, r = Ok rec -> r_success rec = true ->
    exists loader pack tmp buffer status first,
      load_recovery_set tar_members firmware (nv_chip o) (nv_flash_type o) "wrloader.bin" = Ok (loader, pack) /\
      unpack_le 4 buffer 0 = Ok tmp /\ (exists st, unpack_le 4 status 0 = Ok st /\ signed32 st = 0) /\
      (if nv_loader_running o then first = []
       else exists base, unpack_le 4 loader 4 = Ok base /\ assoc DIE_SRAM (nv_chip_word o) = Some base /\
         first = loader_session base (fst (defuse_loader loader)) (snd (defuse_loader loader))) /\
      session (nv_rx o) (first ++ pack_session tmp buffer status pack) l (nv_rx o')).
Proof.
  unfold nvt_send_firmware. does_step. does_step.
  destruct (load_recovery_set _ _ _ _ _) as [[loader pack]|e|] eqn:Eset; [|by destruct e; does_step; intros rec [= <-]|by does_step].
  assert (Hfail : forall (r : res RecoveryResult) (P : Prop), (forall rec, r = Ok rec -> r_success rec = false) ->
    forall rec, r = Ok rec -> r_success rec = true -> P) by (intros r P Hr rec Hrec; rewrite (Hr rec Hrec); done).
  does_step.
  - apply (stage_of_does _ _ _ _ _ _ _ (send_pack_does pack o)); [|by intros; eapply Hfail].
    intros l o' (tmp & buffer & status & Hb & Hst & Hs). does_step. intros rec [= <-] _.
    exists loader, pack, tmp, buffer, status, []. rewrite app_nil_r. by split_and!.
  - apply (stage_of_does _ _ _ _ _ _ _ (send_loader_does loader o)); [|by intros; eapply Hfail].
    intros l1 o1 (base & Hbase & Hsram & Hs1 & Ho1).
    apply (stage_of_does _ _ _ _ _ _ _ (send_pack_does pack o1)); [|by intros; eapply Hfail].
    intros l o' (tmp & buffer & status & Hb & Hst & Hs). does_step. intros rec [= <-] _.
    exists loader, pack, tmp, buffer, status, (loader_session base (fst (defuse_loader loader)) (snd (defuse_loader loader))).
    rewrite app_nil_r. split_and!; [done..|by exists base|]. by eapply session_app.
Qed.

(** C24. What a successful [send_firmware] of the Novatek protocol means, over
    any transport: the archive held the set for the chip and the flash, the
    log of the call is, in order, the loader sent to the die's SRAM with the
    words put back and started (unless a loader was running), the pack written
    to the address the loader gave in its answer, UBOOT answered with 0 and
    WAIT_DONE; and each of these commands was answered with its own echo and
    status 0 before the next was sent. *)
Theorem nvt_send_safe tar_members str_exn firmware (w w' : world T Novatek) rec :
  nvt_send_firmware tar_members str_exn fuel firmware w = (Ok rec, w') -> r_success rec = true ->
  exists loader pack tmp buffer status first l,
    load_recovery_set tar_members firmware (nv_chip (obj w)) (nv_flash_type (obj w)) "wrloader.bin" = Ok (loader, pack) /\
    unpack_le 4 buffer 0 = Ok tmp /\ (exists st, unpack_le 4 status 0 = Ok st /\ signed32 st = 0) /\
    (if nv_loader_running (obj w) then first = []
     else exists base, unpack_le 4 loader 4 = Ok base /\ assoc DIE_SRAM (nv_chip_word (obj w)) = Some base /\
       first = loader_session base (fst (defuse_loader loader)) (snd (defuse_loader loader))) /\
    log w' = log w ++ l /\
    session (nv_rx (obj w)) (first ++ pack_session tmp buffer status pack) l (nv_rx (obj w')).
Proof.
  intros E Hok. destruct (nvt_send_does tar_members str_exn firmware (obj w) w eq_refl) as (l & Hl & HQ). rewrite E in Hl, HQ.
  destruct (HQ rec eq_refl Hok) as (loader & pack & tmp & buffer & status & first & H1 & H2 & H3 & H4 & H5).
  exists loader, pack, tmp, buffer, status, first, l. by split_and!.
Qed.

End Any.

(** The protocol after the handshake. *)
Definition nvt_ready : world NvtDevice Novatek := World nvt_device (mkNvt "nt98562" "nor" [] 0x70210000 false) [].
Abbreviation nvt_run := (nvt_send_firmware nvt_tar (fun _ => ""%string) 2 [1] nvt_ready).

Theorem nvt_send_safe_witness :
  exists loader pack tmp buffer status first l,
    load_recovery_set nvt_tar [1] "nt98562" "nor" "wrloader.bin" = Ok (loader, pack) /\
    unpack_le 4 buffer 0 = Ok tmp /\ (exists st, unpack_le 4 status 0 = Ok st /\ signed32 st = 0) /\
    (exists base, unpack_le 4 loader 4 = Ok base /\ assoc DIE_SRAM 0x70210000 = Some base /\
       first = loader_session base (fst (defuse_loader loader)) (snd (defuse_loader loader))) /\
    log (snd nvt_run) = l /\
    session [] (first ++ pack_session tmp buffer status pack) l (nv_rx (obj (snd nvt_run))).
Proof.
  refine (nvt_send_safe 2 nvt_tar (fun _ => ""%string) [1] nvt_ready (snd nvt_run)
    (succeeded [HANDSHAKE; SPL; UBOOT; COMPLETE]) (pair_fst nvt_run _ _) eq_refl). vm_compute. reflexivity.
Defined.
