(* ===== verification/DownloadCmd.v ===== *)
(** * U-Boot's download mode

  Models [src/src/defib/protocol/download_cmd.py]: the client that runs U-Boot
  commands through the XHEAD/XCMD frames of [download_process()].  A command
  and the device's output are lists of character codes.  Log messages are left
  out. *)

From S2P Require Import Prelude Text Crc Transport.

Definition XHEAD : Z := 0xAB.
Definition XCMD : Z := 0xCD.
Definition ACK : Z := 0xAA.
Definition NAK : Z := 0x55.

Definition EOT_OK : list Z := codes "[EOT](OK)".
Definition EOT_ERROR : list Z := codes "[EOT](ERROR)".

(** [cmd.encode("ascii")] *)
Definition encode_ascii (s : list Z) : res bytes :=
  if forallb (fun c => c <? 128) s then Ok s else Raise UnicodeError.

Definition xhead_frame (cmd : bytes) : bytes :=
  let xcmd_frame_len := 1 + len cmd + 2 in
  let length := xcmd_frame_len - 3 in
  let head := [XHEAD; Z.land (Z.shiftr length 8) 0xFF; Z.land length 0xFF] in
  let crc := calc_crc head in
  head ++ [Z.land (Z.shiftr crc 8) 0xFF; Z.land crc 0xFF].

Definition xcmd_frame (cmd : bytes) : bytes :=
  let xcmd := XCMD :: cmd in
  let crc := calc_crc xcmd in
  xcmd ++ [Z.land (Z.shiftr crc 8) 0xFF; Z.land crc 0xFF].

(** [text[:text.index(pat)]] for a text that holds [pat] *)
Definition text_before (pat text : list Z) : list Z := take (Z.to_nat (find_bytes pat text 0 (len text))) text.

Section Client.
Context {T Ob : Type} `{Transport T}.
Variable fuel : nat.
Abbreviation MC := (M T Ob).

Definition wait_body (deadline : Z) (buf : bytes) : MC (ctl bytes bool) :=
  let* now := monotonic in
  if negb (now <? deadline) then ret (Rtn false) else
  try_except
    (let* data := read 256 (Some 500000) in
     let buf := buf ++ data in
     if contains (codes "start download process") buf then ret (Rtn true) else ret (Next buf))
    is_TransportTimeout (fun _ => ret (Next buf)).

Definition wait_for_download_mode (timeout : Z) : MC bool :=
  let* now := monotonic in
  let* c := while fuel (wait_body (now + timeout)) [] in
  match c with
  | Rtn b => ret b
  | _ => ret false
  end.

(** One attempt to get XHEAD acknowledged. *)
Definition xhead_attempt (head : bytes) (_ : Z) (_ : unit) : MC (ctl unit unit) :=
  let* _ := flush_input in
  let* _ := write head in
  try_except
    (let* ack := read 1 (Some 2000000) in
     let* b := lift (index ack 0) in
     if b =? ACK then ret (Brk tt) else ret (Next tt))
    is_TransportTimeout (fun _ => ret (Next tt)).

(** Whether XCMD is acknowledged. *)
Definition xcmd_acked : MC bool :=
  try_except
    (let* ack := read 1 (Some 2000000) in
     let* b := lift (index ack 0) in
     if negb (b =? ACK) then ret false else ret true)
    is_TransportTimeout (fun _ => ret false).

Definition result_body (deadline : Z) (buf : bytes) : MC (ctl bytes (bool * list Z)) :=
  let* now := monotonic in
  if negb (now <? deadline) then ret (Brk buf) else
  try_except
    (let* data := read 256 (Some 1000000) in
     let buf := buf ++ data in
     let text := decode_replace buf in
     if contains EOT_OK text then ret (Rtn (true, text_before EOT_OK text)) else
     if contains EOT_ERROR text then ret (Rtn (false, text_before EOT_ERROR text)) else
     ret (Next buf))
    is_TransportTimeout (fun _ => ret (Next buf)).

Definition send_command (cmd : list Z) (timeout : Z) : MC (bool * list Z) :=
  let* cmd_bytes := lift (encode_ascii cmd) in
  let* c := foreach (range 3) (xhead_attempt (xhead_frame cmd_bytes)) tt in
  match c with
  | Brk _ =>
      let* _ := write (xcmd_frame cmd_bytes) in
      let* acked := xcmd_acked in
      if negb acked then ret (false, []) else
      let* now := monotonic in
      let* c := while fuel (result_body (now + timeout)) [] in
      match c with
      | Rtn r => ret r
      | Brk buf | Next buf => ret (false, decode_replace buf)
      end
  | _ => ret (false, [])
  end.

(** ** Safety *)

Lemma xhead_does head (o : Ob) :
  does (foreach (range 3) (xhead_attempt head) tt) o (fun r l o' => o' = o /\
    forall s, r = Ok (Brk s) -> exists k l1 rest, (k <= 2)%nat /\ writes l1 = replicate k head /\
      l = l1 ++ [EvFlushInput (Ok tt); EvWrite head (Ok tt); EvRead (Ok (ACK :: rest))]).
Proof.
  apply (does_foreach (fun done _ l o' => o' = o /\ writes l = replicate (length done) head)); [done| |by intros ? l o0 [-> _]].
  intros done x rest [] l0 o0 Hd [-> Hw]. unfold xhead_attempt.
  assert (Hk : (length done <= 2)%nat).
  { apply (f_equal length) in Hd. rewrite length_app in Hd. change (length (range 3)) with 3%nat in Hd. cbn in Hd. lia. }
  assert (Hn : forall l1, writes l1 = [head] -> writes (l0 ++ l1) = replicate (length (done ++ [x])) head).
  { intros l1 Hl1. rewrite writes_app, Hw, Hl1, length_app. cbn. rewrite replicate_add. done. }
  does_step. does_step; [|done..]. does_step. does_step; [|done..]. does_step. does_step. does_step.
  - does_step. does_step. destruct a as [|b ack]; [done|]. change (index (b :: ack) 0) with (Ok b). cbv beta iota. does_step; does_step.
    + split; [done|]. intros s [= <-]. exists (length done), l0, ack. b2p. by subst.
    + split; [done|]. by apply Hn.
  - destruct (is_TransportTimeout _); [does_step|done]. split; [done|]. by apply Hn.
  - done.
Qed.

Lemma result_does deadline (o : Ob) :
  does (while fuel (result_body deadline) []) o (fun r l o' => o' = o /\
    forall out, r = Ok (Rtn (true, out)) -> writes l = [] /\ contains EOT_OK (decode_replace (reads l)) = true /\
      out = text_before EOT_OK (decode_replace (reads l))).
Proof.
  apply (does_while (fun buf l o' => o' = o /\ writes l = [] /\ buf = reads l)); [done| |by intros ? ? ? (-> & _)].
  intros buf l0 o0 (-> & Hw & ->). unfold result_body. does_step. does_step. does_step; [by does_step|].
  assert (Hn : forall r, writes (l0 ++ [EvRead r]) = []) by (intros r; by rewrite writes_app, Hw).
  assert (Hr : forall d, reads (l0 ++ [EvRead (Ok d)]) = reads l0 ++ d)
    by (intros d; rewrite reads_app; cbn; by rewrite app_nil_r).
  does_step. does_step. does_step.
  - rewrite <- Hr. does_step; [does_step|does_step; does_step].
    + split; [done|]. by intros out [= <-].
    + done.
    + by split_and!.
  - destruct (is_TransportTimeout _); [does_step|done]. split_and!; [done..|]. rewrite reads_app. cbn. by rewrite app_nil_r.
  - done.
Qed.

(** The log of a command that was run: at most two XHEAD frames in vain, an
    XHEAD and the XCMD frame each answered by ACK, and an answer with the OK
    mark after [out]. *)
Definition command_log (cmd : bytes) (l : list event) (out : list Z) : Prop :=
  exists k l1 a b l2, (k <= 2)%nat /\ writes l1 = replicate k (xhead_frame cmd) /\
    l = l1 ++ [EvFlushInput (Ok tt); EvWrite (xhead_frame cmd) (Ok tt); EvRead (Ok (ACK :: a));
               EvWrite (xcmd_frame cmd) (Ok tt); EvRead (Ok (ACK :: b))] ++ l2 /\
    writes l2 = [] /\ contains EOT_OK (decode_replace (reads l2)) = true /\
    out = text_before EOT_OK (decode_replace (reads l2)).

Lemma send_command_does cmd timeout (o : Ob) :
  does (send_command cmd timeout) o (fun r l o' => o' = o /\ forall out, r = Ok (true, out) ->
    forallb (fun c => c <? 128) cmd = true /\ command_log cmd l out).
Proof.
  unfold send_command, encode_ascii. does_step. does_step. destruct (forallb _ _) eqn:Ea; [|done].
  does_step. eapply does_weaken; [apply xhead_does|]. intros [[s|s|r]|e|] l1 o1 [-> Hx]; try done; [by does_step| |by does_step].
  destruct (Hx s eq_refl) as (k & l0 & rest & Hk & Hw & ->). clear Hx.
  does_step. does_step; [|done..]. does_step. unfold xcmd_acked. does_step. does_step. does_step.
  - does_step. does_step. destruct a as [|b ack]; [done|]. change (index (b :: ack) 0) with (Ok b). cbv beta iota.
    does_step; does_step; cbn [negb]; [by does_step|]. b2p. subst b. does_step. does_step. does_step.
    eapply does_weaken; [apply result_does|]. intros [[s'|s'|[ok out]]|e|] l2 o2 [-> Hr]; try done; [by does_step..|].
    does_step. split; [done|]. intros out' [= -> ->]. destruct (Hr out' eq_refl) as (Hw2 & Hc & Ho).
    split; [done|]. exists k, l0, rest, ack, l2. split_and!; try done. rewrite !app_nil_r, <- app_assoc. done.
  - destruct (is_TransportTimeout _); [|done]. does_step. cbn [negb]. by does_step.
  - done.
Qed.

(** What a successful [send_command] means, over any transport: the log of
    the call is at most two unanswered XHEAD frames of the command, then an
    XHEAD answered by ACK, the XCMD frame of the command answered by ACK, and
    reads with no further write whose text holds the OK mark; the output is
    the text before the first such mark. *)
Theorem dl_send_command_safe cmd timeout out (w w' : world T Ob) :
  send_command cmd timeout w = (Ok (true, out), w') ->
  forallb (fun c => c <? 128) cmd = true /\ obj w' = obj w /\
  exists l, log w' = log w ++ l /\ command_log cmd l out.
Proof.
  intros E. destruct (send_command_does cmd timeout (obj w) w eq_refl) as (l & Hl & Ho & HQ). rewrite E in Hl, Ho, HQ.
  destruct (HQ out eq_refl) as [Ha Hc]. split; [done|]. split; [done|]. by exists l.
Qed.

End Client.

Lemma keeps_dl_send {T Ob} `{Transport T} fuel P c tmo : keeps (T := T) (Ob := Ob) P (send_command fuel c tmo).
Proof. unfold send_command, xhead_attempt, xcmd_acked, result_body. keeps_go. Qed.

(** ** A device in download mode

  As the module's docstring describes it: it checks the CRC of a frame,
  answers ACK or NAK, runs a command through [shell] and prints the output and
  the mark.  It may miss the first [dl_deaf] frames. *)

Section Device.
Variable shell : bytes -> bool * list Z.

Record DlDevice := DlDev {
  dl_expect : option Z;     (* the length an XHEAD announced *)
  dl_deaf : nat;
  dl_out : bytes;
  dl_ran : list bytes
}.

Definition dl_say (b : bytes) (d : DlDevice) : DlDevice := DlDev (dl_expect d) (dl_deaf d) (dl_out d ++ b) (dl_ran d).

Definition dl_mark (ok : bool) : bytes := (if ok then EOT_OK else EOT_ERROR) ++ [10].

Definition dl_write (b : bytes) (d : DlDevice) : DlDevice :=
  match dl_deaf d with
  | S n => DlDev (dl_expect d) n (dl_out d) (dl_ran d)
  | O =>
      match dl_expect d with
      | None =>
          if (len b =? 5) && (nth 0 b 0 =? XHEAD) && verify_crc b
          then DlDev (Some (be_int (slice b 1 3))) 0 (dl_out d ++ [ACK]) (dl_ran d)
          else dl_say [NAK] d
      | Some n =>
          if (len b =? n + 3) && (nth 0 b 0 =? XCMD) && verify_crc b
          then let cmd := slice b 1 (1 + n) in
               DlDev None 0 (dl_out d ++ [ACK] ++ snd (shell cmd) ++ dl_mark (fst (shell cmd))) (dl_ran d ++ [cmd])
          else dl_say [NAK] (DlDev None 0 (dl_out d) (dl_ran d))
      end
  end.

#[local] Instance DlDevice_Transport : Transport DlDevice := {|
  t_read n tmo d :=
    if beq (dl_out d) [] then (Raise TransportTimeout, d)
    else (Ok (take (Z.to_nat n) (dl_out d)), DlDev (dl_expect d) (dl_deaf d) (drop (Z.to_nat n) (dl_out d)) (dl_ran d));
  t_write b d := (Ok tt, dl_write b d);
  t_flush_input d := (Ok tt, DlDev (dl_expect d) (dl_deaf d) [] (dl_ran d));
  t_flush_output d := (Ok tt, d);
  t_bytes_waiting d := (Ok (len (dl_out d)), d);
  t_unread x d := (Ok tt, DlDev (dl_expect d) (dl_deaf d) (x ++ dl_out d) (dl_ran d));
  t_set_baudrate _ d := (Raise NotImplementedError, d);
  t_monotonic d := (0, d);
  t_sleep _ d := d
|}.

(** Text of ASCII codes with no mark in it. *)
Definition plain (out : list Z) : Prop :=
  Forall (fun c => 0 <= c < 128) out /\ contains (codes "[EOT](") out = false.

Lemma decode_plain out : Forall (fun c => 0 <= c < 128) out -> decode_replace out = out.
Proof.
  induction 1 as [|c l Hc _ IH]; [done|]. unfold decode_replace in *. cbn [fmap list_fmap]. rewrite IH. f_equal.
  destruct (c <? 128) eqn:E; b2p; lia.
Qed.

(** A mark begins with this, and has its bracket only there. *)
Definition stem : list Z := codes "[EOT](".

Lemma stem_unique out rest x :
  contains stem out = false -> 91 ∉ rest -> 0 <= x ->
  slice (out ++ stem ++ rest) x (x + 6) = stem -> x = len out.
Proof.
  intros Hc Hr Hx Hs. set (data := out ++ stem ++ rest) in *. pose proof (len_nonneg out) as Hlo.
  assert (Hat : forall i, (i < 6)%nat -> data !! (Z.to_nat x + i)%nat = stem !! i).
  { intros i Hi. rewrite <- Hs. unfold slice. rewrite lookup_take_lt, lookup_drop by lia. done. }
  assert (Hno : forall j : nat, len out < Z.of_nat j -> data !! j <> Some 91).
  { intros j Hj. unfold data. rewrite lookup_app_r by (unfold len in *; lia).
    destruct (j - length out)%nat as [|k] eqn:Ek; [unfold len in *; lia|].
    change (stem ++ rest) with (91 :: codes "EOT](" ++ rest). cbn [lookup list_lookup]. intros Hl%list_elem_of_lookup_2.
    apply elem_of_app in Hl as [Hl|Hl]; [|done]. revert Hl. change (91 ∉ codes "EOT]("). by apply (bool_decide_unpack _). }
  destruct (Z.lt_trichotomy x (len out)) as [Hlt|[Heq|Hgt]]; [|done|].
  - destruct (Z.le_gt_cases (x + 6) (len out)) as [Hin|Hover].
    + unfold data in Hs. rewrite slice_app_l in Hs by lia. unfold contains in Hc. b2p.
      destruct (find_bytes_spec stem out 0 (len out) ltac:(lia)) as [[_ Hn]|(Hf & _)]; [|lia].
      by destruct (Hn x Hx Hin).
    + assert (Hk : exists k, (k < 5)%nat /\ len out = x + Z.of_nat (S k)) by (exists (Z.to_nat (len out - x - 1)); lia).
      destruct Hk as (k & Hk & Hlen). specialize (Hat (S k) ltac:(lia)).
      replace (Z.to_nat x + S k)%nat with (length out) in Hat by (unfold len in *; lia).
      unfold data in Hat. rewrite lookup_app_r, Nat.sub_diag in Hat by done.
      change ((stem ++ rest) !! 0%nat) with (Some 91) in Hat. by do 5 (destruct k as [|k]; [done|]); lia.
  - exfalso. apply (Hno (Z.to_nat x)); [lia|]. specialize (Hat 0%nat ltac:(lia)). by rewrite Nat.add_0_r in Hat.
Qed.

Lemma mark_found out ok buf rest :
  contains stem out = false -> buf ++ rest = out ++ dl_mark ok ->
  let found := len out + len (dl_mark ok) - 1 <=? len buf in
  contains EOT_OK buf = found && ok /\ contains EOT_ERROR buf = found && negb ok /\
  (found = true -> text_before (if ok then EOT_OK else EOT_ERROR) buf = out).
Proof.
  intros Hc Hd found. pose proof (len_nonneg out) as Hlo. pose proof (len_nonneg buf) as Hlb.
  assert (Hm : exists t, dl_mark ok = stem ++ t /\ 91 ∉ t).
  { destruct ok; [exists (codes "OK)" ++ [10])|exists (codes "ERROR)" ++ [10])]; (split; [done|by apply (bool_decide_unpack _)]). }
  destruct Hm as (t & Ht & Hnt).
  (* an occurrence of a mark in [buf] *)
  assert (Hocc : forall pat x, take 6 pat = stem -> 0 <= x -> x + len pat <= len buf -> slice buf x (x + len pat) = pat ->
    x = len out /\ take (length pat) (dl_mark ok) = pat).
  { intros pat x Hp Hx Hl Hs. rewrite <- (slice_app_l buf rest), Hd in Hs by lia.
    assert (H6 : 6 <= len pat) by (apply (f_equal length) in Hp; rewrite length_take in Hp; change (length stem) with 6%nat in Hp; unfold len; lia).
    assert (x = len out) as ->.
    { apply (stem_unique out t); [done..|]. rewrite <- Ht, <- Hp, <- Hs. unfold slice. rewrite take_take. f_equal. lia. }
    split; [done|]. rewrite <- Hs at 2. unfold slice. rewrite drop_app_length' by (unfold len; lia). f_equal. unfold len. lia. }
  assert (Hno : forall pat, take 6 pat = stem -> take (length pat) (dl_mark ok) <> pat -> contains pat buf = false).
  { intros pat Hp Hne. unfold contains. destruct (find_bytes_spec pat buf 0 (len buf) ltac:(lia)) as [[-> _]|(H1 & H2 & H3 & _)]; [done|].
    exfalso. by destruct (Hocc pat _ Hp H1 H2 H3). }
  set (mark := if ok then EOT_OK else EOT_ERROR).
  assert (Hmk : dl_mark ok = mark ++ [10]) by (unfold mark; by destruct ok).
  assert (H6 : take 6 mark = stem) by (unfold mark; by destruct ok).
  assert (Hyes : found = true -> find_bytes mark buf 0 (len buf) = len out).
  { intros Hf. unfold found in Hf. b2p. rewrite Hmk, len_app in Hf. change (len [10]) with 1 in Hf.
    destruct (find_bytes_spec mark buf 0 (len buf) ltac:(lia)) as [[_ Hn]|(H1 & H2 & H3 & _)]; [|by destruct (Hocc mark _ H6 H1 H2 H3)].
    exfalso. apply (Hn (len out)); [lia..|]. rewrite <- (slice_app_l buf rest), Hd, Hmk by lia. by apply slice_mid. }
  assert (Hnot : found = false -> contains mark buf = false).
  { intros Hf. unfold found in Hf. b2p. rewrite Hmk, len_app in Hf. change (len [10]) with 1 in Hf. unfold contains.
    destruct (find_bytes_spec mark buf 0 (len buf) ltac:(lia)) as [[-> _]|(H1 & H2 & H3 & _)]; [done|].
    destruct (Hocc mark _ H6 H1 H2 H3) as [E _]. lia. }
  assert (Hcm : contains mark buf = found).
  { destruct found eqn:Ef; [|by apply Hnot]. unfold contains. rewrite Hyes by done. by apply Z.leb_le. }
  assert (Hother : contains (if ok then EOT_ERROR else EOT_OK) buf = false) by (apply Hno; by destruct ok).
  assert (Htext : found = true -> text_before mark buf = out).
  { intros Hf. unfold text_before. rewrite Hyes by done. unfold found in Hf. b2p. rewrite Hmk, len_app in Hf.
    change (len [10]) with 1 in Hf. pose proof (len_nonneg mark).
    rewrite <- (take_app_le buf rest), Hd by (unfold len in *; lia). rewrite take_app_length'; [done|unfold len; lia]. }
  split_and!; [| |done]; unfold mark in Hcm; destruct ok; rewrite ?andb_true_r, ?andb_false_r; done.
Qed.

(** The frames of a command are the ones the device expects. *)
Lemma xhead_frame_ok cmd :
  len cmd < 65536 ->
  len (xhead_frame cmd) = 5 /\ nth 0 (xhead_frame cmd) 0 = XHEAD /\ verify_crc (xhead_frame cmd) = true /\
  be_int (slice (xhead_frame cmd) 1 3) = len cmd.
Proof.
  intros Hl. unfold xhead_frame. replace (1 + len cmd + 2 - 3) with (len cmd) by lia. split; [done|]. split; [done|]. split.
  - apply (verify_append_crc [XHEAD; Z.land (Z.shiftr (len cmd) 8) 0xFF; Z.land (len cmd) 0xFF]); [done|]. repeat apply Forall_cons_2; try apply land_is_byte; done.
  - change (be_int (be_bytes 2 (len cmd)) = len cmd). pose proof (len_nonneg cmd). apply be_int_be_bytes; [lia|].
    apply fits_spec. lia.
Qed.

Lemma xcmd_frame_ok cmd :
  is_bytes cmd ->
  len (xcmd_frame cmd) = len cmd + 3 /\ nth 0 (xcmd_frame cmd) 0 = XCMD /\ verify_crc (xcmd_frame cmd) = true /\
  slice (xcmd_frame cmd) 1 (1 + len cmd) = cmd.
Proof.
  intros Hb. unfold xcmd_frame. split; [rewrite len_app, len_cons; change (len [_; _]) with 2; lia|]. split; [done|]. split.
  - apply (verify_append_crc (XCMD :: cmd)); [done|]. apply Forall_cons_2; [unfold is_byte, XCMD; lia|done].
  - change ([XCMD] ++ cmd) with (XCMD :: cmd). apply (slice_mid [XCMD] cmd); done.
Qed.

Abbreviation W Ob := (world DlDevice Ob).

Lemma result_run {Ob} fuel deadline out ok buf (w : W Ob) :
  plain out -> 0 < deadline -> buf ++ dl_out (tr w) = out ++ dl_mark ok ->
  len buf < len out + len (dl_mark ok) - 1 -> (length (dl_out (tr w)) < fuel)%nat ->
  exists w', while fuel (result_body deadline) buf w = (Ok (Rtn (ok, out)), w') /\
    dl_ran (tr w') = dl_ran (tr w) /\ dl_expect (tr w') = dl_expect (tr w) /\ dl_deaf (tr w') = dl_deaf (tr w) /\ obj w' = obj w.
Proof.
  intros [Hasc Hplain] Hdl. revert buf w. induction fuel as [|fuel IH]; intros buf w Hd Hlen Hf; [lia|].
  cbn [while]. unfold bind at 1, result_body at 1. unfold bind at 1, monotonic. cbn [t_monotonic DlDevice_Transport].
  replace (negb (0 <? deadline)) with false by (symmetry; apply negb_false_iff, Z.ltb_lt; lia).
  set (rest := dl_out (tr w)) in *.
  assert (Hne : beq rest [] = false).
  { apply bool_decide_eq_false. intros E. rewrite E, app_nil_r in Hd. apply (f_equal len) in Hd. rewrite len_app in Hd. lia. }
  unfold try_except, bind at 1, read. cbn [t_read DlDevice_Transport tr]. fold rest. rewrite Hne.
  change (Z.to_nat 256) with 256%nat. set (chunk := take 256 rest).
  assert (Hcut : (buf ++ chunk) ++ drop 256 rest = out ++ dl_mark ok) by (rewrite <- app_assoc; unfold chunk; by rewrite take_drop).
  assert (Hdec : decode_replace (buf ++ chunk) = buf ++ chunk).
  { apply decode_plain. eapply proj1. apply Forall_app. rewrite Hcut.
    apply Forall_app_2; [done|]. destruct ok; apply (bool_decide_unpack _); done. }
  rewrite Hdec. destruct (mark_found out ok (buf ++ chunk) (drop 256 rest) Hplain Hcut) as (H1 & H2 & H3).
  rewrite H1, H2. set (found := _ <=? _) in *. destruct found eqn:Ef.
  - cbn [andb]. specialize (H3 eq_refl).
    destruct ok; cbn [negb] in *; rewrite H3; eexists; (split; [reflexivity|done]).
  - cbn [andb]. cbv beta iota. unfold ret at 1. apply Z.leb_gt in Ef.
    destruct (IH (buf ++ chunk) (World (DlDev (dl_expect (tr w)) (dl_deaf (tr w)) (drop 256 rest) (dl_ran (tr w))) (obj w)
      (log w ++ [EvRead (Ok chunk)]))) as (w' & E & Hw'); [done|done| |].
    { cbn [tr dl_out]. rewrite length_drop. apply bool_decide_eq_false in Hne. destruct rest; [done|cbn in *; lia]. }
    exists w'. split; [exact E|done].
Qed.

Lemma dl_write_head cmd out ran :
  len cmd < 65536 -> dl_write (xhead_frame cmd) (DlDev None 0 out ran) = DlDev (Some (len cmd)) 0 (out ++ [ACK]) ran.
Proof.
  intros Hl. destruct (xhead_frame_ok cmd Hl) as (H5 & Hx & Hv & Hn). unfold dl_write. cbn [dl_deaf dl_expect dl_out dl_ran].
  by rewrite H5, Hx, Hv, Hn.
Qed.

Lemma dl_write_cmd cmd out ran :
  is_bytes cmd -> dl_write (xcmd_frame cmd) (DlDev (Some (len cmd)) 0 out ran) =
    DlDev None 0 (out ++ [ACK] ++ snd (shell cmd) ++ dl_mark (fst (shell cmd))) (ran ++ [cmd]).
Proof.
  intros Hb. destruct (xcmd_frame_ok cmd Hb) as (H5 & Hx & Hv & Hn). unfold dl_write. cbn [dl_deaf dl_expect dl_out dl_ran].
  by rewrite H5, Hx, Hv, Hn, !Z.eqb_refl.
Qed.

Lemma xhead_run {Ob} cmd (l : list Z) (w : W Ob) :
  len cmd < 65536 -> dl_expect (tr w) = None -> (dl_deaf (tr w) < length l)%nat ->
  exists w', foreach l (xhead_attempt (xhead_frame cmd)) tt w = (Ok (Brk tt), w') /\
    tr w' = DlDev (Some (len cmd)) 0 [] (dl_ran (tr w)) /\ obj w' = obj w.
Proof.
  intros Hl. revert w. induction l as [|x l IH]; intros w He Hdeaf; [cbn in Hdeaf; lia|].
  destruct w as [[ex deaf out ran] o lg]. cbn [tr dl_expect dl_deaf dl_ran obj] in *. subst ex.
  cbn [foreach]. unfold bind at 1, xhead_attempt at 1.
  unfold bind at 1, flush_input. cbn [t_flush_input DlDevice_Transport tr obj log dl_expect dl_deaf dl_ran].
  unfold bind at 1, write. cbn [t_write DlDevice_Transport tr obj log].
  unfold try_except, bind at 1, read. cbn [t_read DlDevice_Transport tr obj log].
  destruct deaf as [|n].
  - rewrite dl_write_head by done. eexists. by split.
  - cbn [dl_write dl_deaf dl_out]. change (beq [] []) with true. cbv beta iota. cbn [is_TransportTimeout].
    destruct (IH (World (DlDev None n [] ran) o (((lg ++ [EvFlushInput (Ok tt)]) ++ [EvWrite (xhead_frame cmd) (Ok tt)]) ++
      [EvRead (Raise TransportTimeout)]))) as (w' & E & Hw'); [done|cbn in *; lia|].
    exists w'. split; [exact E|done].
Qed.

(** [send_command] against a device in download mode that misses at most
    two frames: for every ASCII command shorter than 65536 characters and every
    output without a mark, the device runs exactly that command once, the call
    returns what the command returned and printed, however the output is cut by
    reads, and the device waits for the next command. *)
Theorem dl_command_runs {Ob} fuel cmd timeout (w : W Ob) :
  Forall (fun c => 0 <= c < 128) cmd -> len cmd < 65536 -> plain (snd (shell cmd)) -> 0 < timeout ->
  dl_expect (tr w) = None -> (dl_deaf (tr w) <= 2)%nat -> (length (snd (shell cmd)) + 13 < fuel)%nat ->
  exists w', send_command fuel cmd timeout w = (Ok (shell cmd), w') /\
    dl_ran (tr w') = dl_ran (tr w) ++ [cmd] /\ dl_expect (tr w') = None /\ dl_deaf (tr w') = 0%nat /\ obj w' = obj w.
Proof.
  intros Hasc Hl Hp Ht He Hdeaf Hf. unfold send_command, encode_ascii.
  replace (forallb _ cmd) with true.
  2: { symmetry. apply forallb_forall. intros c Hc. apply Z.ltb_lt. rewrite Forall_forall in Hasc.
       apply (Hasc c), list_elem_of_In, Hc. }
  unfold bind at 1, lift. destruct (xhead_run cmd (range 3) w Hl He ltac:(change (length (range 3)) with 3%nat; lia)) as (w1 & E1 & Ht1 & Ho1).
  unfold bind at 1. rewrite E1. unfold bind at 1, write. cbn [t_write DlDevice_Transport]. rewrite Ht1.
  rewrite dl_write_cmd by (eapply Forall_impl; [exact Hasc|]; unfold is_byte; intros; cbn in *; lia).
  unfold bind at 1, xcmd_acked, try_except. unfold bind at 1, read. cbn [t_read DlDevice_Transport tr obj log app dl_out dl_expect dl_deaf dl_ran].
  destruct (shell cmd) as [ok out] eqn:Esh. cbn [fst snd] in *.
  set (w2 := World (DlDev None 0 (out ++ dl_mark ok) (dl_ran (tr w) ++ [cmd])) (obj w1)
    ((log w1 ++ [EvWrite (xcmd_frame cmd) (Ok tt)]) ++ [EvRead (Ok [ACK])])).
  destruct (result_run fuel timeout out ok [] w2) as (w3 & E3 & Hr & Hx & Hd & Ho); [done|done|done| | |].
  - pose proof (len_nonneg out). destruct ok; change (len (dl_mark _)) with 10 || change (len (dl_mark _)) with 13; change (len []) with 0; lia.
  - cbn [w2 tr dl_out]. rewrite length_app.
    destruct ok; [change (length (dl_mark true)) with 10%nat|change (length (dl_mark false)) with 13%nat]; lia.
  - exists w3. split.
    + transitivity ((let* c := while fuel (result_body timeout) [] in
        match c with Rtn r => ret r | Brk buf | Next buf => ret (false, decode_replace buf) end) w2); [reflexivity|].
      unfold bind. by rewrite E3.
    + rewrite Hr, Hx, Hd, Ho. by split_and!.
Qed.

End Device.

(** A shell that knows one command; a device that misses two frames. *)
Definition dl_shell (cmd : bytes) : bool * list Z := if beq cmd (codes "sf probe 0") then (true, codes "flash ok") else (false, codes "?").
Definition dl_device : DlDevice := DlDev None 2 [] [].

#[local] Instance dl_shell_Transport : Transport DlDevice := DlDevice_Transport dl_shell.

Theorem dl_send_command_safe_witness :
  exists l, log (snd (send_command 30 (codes "sf probe 0") 1 (World dl_device tt []))) = l /\
    command_log (codes "sf probe 0") l (codes "flash ok").
Proof.
  apply (dl_send_command_safe 30 (codes "sf probe 0") 1 (codes "flash ok") (World dl_device tt [])
    (snd (send_command 30 (codes "sf probe 0") 1 (World dl_device tt [])))). apply pair_fst. vm_compute. reflexivity.
Defined.

Theorem dl_command_runs_witness :
  exists w', send_command (H := DlDevice_Transport dl_shell) 30 (codes "sf probe 0") 1 (World dl_device tt []) =
      (Ok (true, codes "flash ok"), w') /\
    dl_ran (tr w') = [codes "sf probe 0"] /\ dl_expect (tr w') = None /\ dl_deaf (tr w') = 0%nat /\ obj w' = tt.
Proof.
  apply (dl_command_runs dl_shell 30 (codes "sf probe 0") 1 (World dl_device tt [])); try done;
    try (apply (bool_decide_unpack _); vm_compute; done).
Defined.
