(* ===== verification/Ymodem.v ===== *)
(** * The YMODEM sender

  Models [src/src/defib/recovery/ymodem.py]: packets, the retried send of a
  packet, the end of transmission and [YModemSender.send].  The object's only
  mutable field, [_retries], is the state of the monad; the timeouts and the
  retry count are parameters.  Log and progress callbacks are left out. *)

From stdpp Require Import pretty.
From Stdlib Require Import Ascii.
From Stdlib Require String.
From S2P Require Import Prelude Crc Transport.

Definition SOH : Z := 0x01.
Definition STX : Z := 0x02.
Definition EOT : Z := 0x04.
Definition ACK : Z := 0x06.
Definition NAK : Z := 0x15.
Definition CAN : Z := 0x18.
Definition CRC_REQUEST : Z := 0x43.
Definition CPMEOF : Z := 0x1A.

Record YModemStats := mkStats { bytes_sent : Z; data_packets : Z; y_retries : Z }.

Definition make_packet (sequence : Z) (payload : bytes) : res bytes :=
  let! marker :=
    if len payload =? 128 then Ok SOH
    else if len payload =? 1024 then Ok STX
    else Raise ValueError in
  let seq := Z.land sequence 0xFF in
  let crc := crc16_xmodem payload in
  Ok ([marker; seq; 0xFF - seq] ++ payload ++ be_bytes 2 crc).

(** [str(n).encode("ascii")] *)
Definition dec_bytes (n : Z) : bytes :=
  (fun c => Z.of_N (N_of_ascii c)) <$> String.list_ascii_of_string (pretty n).

(** [filename] as its list of code points. *)
Definition make_header (filename : list Z) (size : Z) : res bytes :=
  if negb (forallb (fun c => (0 <=? c) && (c <? 128)) filename) then Raise ValueError else
  if bool_decide (0 ∈ filename) then Raise ValueError else
  let metadata := filename ++ [0] ++ dec_bytes size ++ [0] in
  if 128 <? len metadata then Raise ValueError else
  make_packet 0 (ljust 128 0 metadata).

Definition is_YModemError (e : exn) : bool := bool_decide (e = YModemError).

Section Sender.
Context {T : Type} `{Transport T}.
Variable fuel : nat.
Variables (control_timeout start_timeout packet_retries : Z).

(** The object: [_retries]. *)
Abbreviation MY := (M T Z).

Definition read_control_body (allowed : list Z) (deadline : Z) (_ : unit) : MY (ctl unit Z) :=
  let* now := monotonic in
  if negb (now <? deadline) then ret (Brk tt) else
  let* now := monotonic in
  let remaining := deadline - now in
  let* data := try_except (let* d := read 1 (Some remaining) in ret (Some d))
                 is_TransportTimeout (fun _ => ret None) in
  match data with
  | None => ret (Brk tt)
  | Some data =>
      if beq data [] then ret (Next tt) else
      let* value := lift (index data 0) in
      if bool_decide (value ∈ allowed) then ret (Rtn value) else ret (Next tt)
  end.

Definition read_control (allowed : list Z) (timeout : Z) : MY Z :=
  let* now := monotonic in
  let* c := while fuel (read_control_body allowed (now + timeout)) tt in
  match c with
  | Rtn v => ret v
  | _ => raise YModemError
  end.

Definition wait_crc_request (timeout : Z) : MY unit :=
  let* value := read_control [CRC_REQUEST; CAN] timeout in
  if value =? CAN then raise YModemError else ret tt.

(** One attempt; [Rtn tt] is the [return] on ACK. *)
Definition send_attempt (packet : bytes) (_ : Z) (_ : unit) : MY (ctl unit unit) :=
  let* value := try_except
    (let* _ := flush_input in
     let* _ := write packet in
     let* _ := flush_output in
     read_control [ACK; NAK; CRC_REQUEST; CAN] control_timeout)
    (fun e => is_YModemError e || is_TransportTimeout e)
    (fun _ => ret (-1)) in
  if value =? ACK then ret (Rtn tt) else
  if value =? CAN then raise YModemError else
  let* r := get_obj in
  let* _ := put_obj (r + 1) in
  ret (Next tt).

Definition y_send_packet (packet : bytes) : MY unit :=
  let* c := foreach (range packet_retries) (send_attempt packet) tt in
  match c with
  | Rtn _ => ret tt
  | _ => raise YModemError
  end.

(** The second EOT, after a NAK. *)
Definition finish_second : MY unit :=
  let* _ := write [EOT] in
  let* _ := flush_output in
  let* second := read_control [ACK; CAN; NAK; CRC_REQUEST] control_timeout in
  if second =? CAN then raise YModemError else
  if negb (second =? ACK) then raise YModemError else
  wait_crc_request control_timeout.

(** [_finish] up to the receiver's request for the final header. *)
Definition finish_eot : MY unit :=
  let* _ := flush_input in
  let* _ := write [EOT] in
  let* _ := flush_output in
  let* first := read_control [ACK; NAK; CAN; CRC_REQUEST] control_timeout in
  if first =? CAN then raise YModemError else
  if first =? NAK then finish_second
  else if first =? ACK then wait_crc_request control_timeout
  else if negb (first =? CRC_REQUEST) then raise YModemError
  else ret tt.

Definition finish : MY unit :=
  let* _ := finish_eot in
  let* packet := lift (make_packet 0 (brep 128 0)) in
  y_send_packet packet.

(** State of the data loop: [sent], [sequence], [packets]. *)
Definition send_chunk (data : bytes) (offset : Z) (s : Z * Z * Z) : MY (ctl (Z * Z * Z) unit) :=
  let '(sent, sequence, packets) := s in
  let chunk := slice data offset (offset + 1024) in
  let useful := len chunk in
  let payload := ljust 1024 CPMEOF chunk in
  let* packet := lift (make_packet sequence payload) in
  let* _ := y_send_packet packet in
  ret (Next (sent + useful, Z.land (sequence + 1) 0xFF, packets + 1)).

Definition send (data : bytes) (filename : list Z) : MY YModemStats :=
  let* _ := put_obj 0 in
  let* _ := wait_crc_request start_timeout in
  let* header := lift (make_header filename (len data)) in
  let* _ := y_send_packet header in
  let* _ := wait_crc_request control_timeout in
  let* c := foreach (range_step (len data) 1024) (send_chunk data) (0, 1, 0) in
  match c with
  | Next (sent, _, packets) | Brk (sent, _, packets) =>
      let* _ := finish in
      let* r := get_obj in
      ret (mkStats sent packets r)
  | Rtn _ => ret (mkStats 0 0 0)
  end.

End Sender.

(** ** Packets *)

Lemma make_packet_1024 seq payload :
  len payload = 1024 ->
  make_packet seq payload =
    Ok ([STX; Z.land seq 0xFF; 0xFF - Z.land seq 0xFF] ++ payload ++ be_bytes 2 (crc16_xmodem payload)).
Proof. intros H. unfold make_packet. by rewrite H. Qed.

Lemma make_packet_128 seq payload :
  len payload = 128 ->
  make_packet seq payload =
    Ok ([SOH; Z.land seq 0xFF; 0xFF - Z.land seq 0xFF] ++ payload ++ be_bytes 2 (crc16_xmodem payload)).
Proof. intros H. unfold make_packet. by rewrite H. Qed.

(** Data packet number [i] (from 0) of a file. *)
Definition y_payload (data : bytes) (i : nat) : bytes :=
  ljust 1024 CPMEOF (slice data (Z.of_nat i * 1024) (Z.of_nat i * 1024 + 1024)).
Definition y_packet (data : bytes) (i : nat) : bytes :=
  let seq := Z.land (Z.of_nat i + 1) 0xFF in
  [STX; seq; 0xFF - seq] ++ y_payload data i ++ be_bytes 2 (crc16_xmodem (y_payload data i)).
Definition y_count (data : bytes) : nat := Z.to_nat ((len data + 1024 - 1) / 1024).
Definition y_final : bytes := [SOH; 0; 0xFF] ++ brep 128 0 ++ be_bytes 2 (crc16_xmodem (brep 128 0)).

Lemma y_payload_len data i : len (y_payload data i) = 1024.
Proof.
  unfold y_payload, ljust. rewrite len_app, len_brep; rewrite len_slice by lia; lia.
Qed.

(** The payloads carry the file, then padding. *)
Lemma y_payloads_file data :
  take (length data) (concat (y_payload data <$> seq 0 (y_count data))) = data.
Proof.
  assert (Hp : forall k m, (k + m = y_count data)%nat ->
    concat (y_payload data <$> seq k m) = drop (Z.to_nat (Z.of_nat k * 1024)) data ++
      brep (Z.of_nat (y_count data) * 1024 - Z.max (len data) (Z.of_nat k * 1024)) CPMEOF).
  { assert (Hy : Z.of_nat (y_count data) = (len data + 1024 - 1) / 1024).
    { unfold y_count. rewrite Z2Nat.id; [done|]. apply Z.div_pos; pose proof (len_nonneg data); lia. }
    pose proof (Z.div_mod (len data + 1024 - 1) 1024 ltac:(lia)).
    pose proof (Z.mod_pos_bound (len data + 1024 - 1) 1024 ltac:(lia)).
    intros k m. revert k. induction m as [|m IH]; intros k Hk.
    - cbn. rewrite drop_ge by (unfold len in *; lia). cbn. unfold brep.
      replace (Z.to_nat _) with 0%nat by lia. done.
    - cbn [seq fmap list_fmap concat]. change (list_fmap _ _ ?f ?l) with (f <$> l). rewrite IH by lia.
      unfold y_payload, ljust. set (c := slice data _ _).
      assert (Hc : c ++ drop (Z.to_nat (Z.of_nat (S k) * 1024)) data = drop (Z.to_nat (Z.of_nat k * 1024)) data).
      { unfold c, slice. replace (Z.to_nat (Z.of_nat (S k) * 1024)) with (Z.to_nat (Z.of_nat k * 1024) + 1024)%nat by lia.
        rewrite <- drop_drop, Z.add_simpl_l. apply take_drop. }
      rewrite <- Hc. assert (Hlc : len c = Z.max 0 (Z.min (Z.of_nat k * 1024 + 1024) (len data) - Z.of_nat k * 1024))
        by (unfold c; rewrite len_slice; lia).
      destruct (decide (len c = 1024)) as [Hfull|Hpart].
      + rewrite Hfull. replace (brep (1024 - 1024) CPMEOF) with (@nil Z) by done. rewrite app_nil_r, <- !app_assoc.
        do 3 f_equal. lia.
      + rewrite (drop_ge data) by (unfold len in *; lia). rewrite app_nil_r. cbn [app]. rewrite <- app_assoc. f_equal.
        unfold brep. rewrite <- replicate_add. f_equal. lia. }
  rewrite (Hp 0%nat (y_count data) eq_refl), drop_0. apply take_app_length.
Qed.

(** ** Traces over any transport *)

(** [l] sends [f] some times and ends with a read whose first byte is the ACK,
    the last thing written before it being [f]. *)
Definition y_acked (f : bytes) (l : list event) : Prop :=
  exists l1 l2 d n, l = l1 ++ [EvWrite f (Ok tt)] ++ l2 ++ [EvRead (Ok (ACK :: d))] /\
    writes l1 = replicate n f /\ writes l2 = [].

Definition y_acked_all (fs : list bytes) (l : list event) : Prop :=
  exists ls, l = concat ls /\ Forall2 y_acked fs ls.

Lemma y_acked_all_snoc fs f l l' : y_acked_all fs l -> y_acked f l' -> y_acked_all (fs ++ [f]) (l ++ l').
Proof.
  intros (ls & -> & Hls) Hf. exists (ls ++ [l']). rewrite concat_app. cbn. rewrite app_nil_r.
  split; [done|]. apply Forall2_app; [done|]. by constructor.
Qed.

Section Trace.
Context {T : Type} `{Transport T}.
Variable fuel : nat.
Variables (ct st pr : Z).

Lemma read_control_emits allowed tmo :
  emits (T := T) (read_control fuel allowed tmo) (fun r l => writes l = [] /\
    forall v, r = Ok v -> v ∈ allowed /\ exists l' d, l = l' ++ [EvRead (Ok (v :: d))]).
Proof.
  unfold read_control. emits_step. emits_step. emits_step.
  eapply emits_weaken; [apply (emits_while (fun _ l => writes l = [])) with (Q := fun r l => writes l = [] /\
    forall v, r = Ok (Rtn v) -> v ∈ allowed /\ exists l' d, l = l' ++ [EvRead (Ok (v :: d))])|].
  - done.
  - intros s l0 H0. unfold read_control_body.
    repeat emits_step; autorewrite with trace; rewrite ?H0; try done.
    + destruct a as [|v d]; [done|]. change (index (v :: d) 0) with (Ok v). cbn iota beta.
      emits_step; apply emits_ret; autorewrite with trace; rewrite ?H0; [|done].
      b2p. split; [done|]. intros v' [= <-]. split; [done|]. by exists l0, d.
    + destruct (is_TransportTimeout e); repeat emits_step; autorewrite with trace; by rewrite ?H0.
  - done.
  - intros [[s|s|v]|e|] l [Hw Hv]; cbn; [apply emits_raise|apply emits_raise|apply emits_ret|done..];
      rewrite ?app_nil_r; (split; [done|]); try done.
    intros v' [= <-]. by apply Hv.
Qed.

Lemma silent_wait tmo : silent (T := T) (wait_crc_request fuel tmo).
Proof.
  unfold wait_crc_request. apply silent_bind; [|silence].
  eapply emits_weaken; [apply read_control_emits|]. by intros r l [Hw _].
Qed.

Lemma y_attempt_emits f x s :
  emits (T := T) (send_attempt fuel ct f x s) (fun r l =>
    (exists n, writes l = replicate n f) /\
    match r with Ok (Rtn _) => y_acked f l | Ok (Brk _) => False | _ => True end).
Proof.
  unfold send_attempt. emits_step.
  eapply emits_weaken with (P := fun r l => (exists n, writes l = replicate n f) /\
    (r = Ok ACK -> y_acked f l)).
  - emits_step. emits_step. emits_step;
      [|case_match; [apply emits_ret|]; (split; [by exists 0%nat|done])|split; [by exists 0%nat|done]].
    emits_step. emits_step;
      [|case_match; [apply emits_ret|]; (split; [by exists 1%nat|done])|split; [by exists 1%nat|done]].
    emits_step. emits_step;
      [|case_match; [apply emits_ret|]; (split; [by exists 1%nat|done])|split; [by exists 1%nat|done]].
    eapply emits_weaken; [apply read_control_emits|].
    assert (Hone : forall l, writes l = [] ->
      exists n, writes ([EvFlushInput (Ok tt); EvWrite f (Ok tt); EvFlushOutput (Ok tt)] ++ l) = replicate n f).
    { intros l Hl. exists 1%nat. by rewrite writes_app, Hl. }
    intros [v|e|] l [Hw Hv]; cbn.
    + split; [by apply Hone|]. intros [= ->]. destruct (Hv ACK eq_refl) as [_ (l' & d & ->)].
      exists [EvFlushInput (Ok tt)], (EvFlushOutput (Ok tt) :: l'), d, 0%nat. split; [done|]. split; [done|].
      rewrite writes_app in Hw. by apply app_eq_nil in Hw as [Hw _].
    + case_match; [apply emits_ret; rewrite app_nil_r|]; (split; [by apply Hone|done]).
    + split; [by apply Hone|done].
  - intros [v|e|] l [Hn Ha]; [|by split..]. emits_step.
    + apply emits_ret. rewrite app_nil_r. b2p. subst v. split; [done|]. by apply Ha.
    + repeat emits_step; by rewrite app_nil_r.
Qed.

Lemma y_send_packet_emits f :
  emits (T := T) (y_send_packet fuel ct pr f) (fun r l =>
    (exists n, writes l = replicate n f) /\ (r = Ok tt -> y_acked f l)).
Proof.
  unfold y_send_packet. emits_step.
  eapply emits_weaken; [apply (emits_foreach (fun _ _ l => exists n, writes l = replicate n f)) with
    (Q := fun r l => (exists n, writes l = replicate n f) /\
      match r with Ok (Rtn _) => y_acked f l | Ok (Brk _) => False | _ => True end)|].
  - by exists 0%nat.
  - intros done x rest s l0 _ [n Hn]. eapply emits_weaken; [apply y_attempt_emits|].
    intros r l [[m Hm] Hr].
    assert (Hnm : exists k, writes (l0 ++ l) = replicate k f).
    { exists (n + m)%nat. by rewrite writes_app, Hn, Hm, replicate_add. }
    destruct r as [[s'|s'|u]|e|]; try done.
    split; [done|]. destruct Hr as (l1 & l2 & d & k & -> & H1 & H2).
    exists (l0 ++ l1), l2, d, (n + k)%nat. rewrite <- app_assoc. split; [done|].
    by rewrite writes_app, Hn, H1, replicate_add.
  - done.
  - intros [[s'|s'|u]|e|] l [Hn Hr]; cbn; [apply emits_raise|done|apply emits_ret|by split..];
      rewrite app_nil_r; by split.
Qed.

Lemma silent_read_control allowed tmo : silent (T := T) (read_control fuel allowed tmo).
Proof. eapply emits_weaken; [apply read_control_emits|]. by intros r l [Hw _]. Qed.

#[local] Hint Resolve silent_wait silent_read_control : silent.

(** One or two EOT bytes, and nothing else. *)
Lemma finish_eot_outputs :
  outputs (T := T) (finish_eot fuel ct) (fun r o => o = [] \/ o = [[EOT]] \/ o = [[EOT]; [EOT]]) /\
  outputs (T := T) (finish_eot fuel ct) (fun r o => r = Ok tt -> o <> []).
Proof.
  assert (Hw : forall (P : res unit -> list bytes -> Prop) (k : M T Z unit),
    outputs k (fun r o => P r ([EOT] :: o)) -> (forall e, P (Raise e) [[EOT]]) -> P Diverge [[EOT]] ->
    outputs (let* _ := write [EOT] in k) P).
  { intros P k Hk HR HD. apply outputs_bind, emits_write. intros [[]|e|]; cbn; auto. }
  assert (H2 : outputs (T := T) (finish_second fuel ct) (fun _ o => o = [] \/ o = [[EOT]])).
  { apply Hw; [|by right..]. apply outputs_silent; [silence|]. intros r. by right. }
  split; unfold finish_eot.
  - apply outputs_silent_bind; [silence|auto|auto|intros _]. apply Hw; [|auto|auto].
    apply outputs_silent_bind; [silence|auto|auto|intros _]. apply outputs_silent_bind; [silence|auto|auto|intros first].
    destruct (first =? CAN); [apply outputs_silent; [silence|auto]|].
    destruct (first =? NAK); [|apply outputs_silent; [silence|auto]].
    eapply outputs_weaken; [apply H2|]. intros r o [->| ->]; auto.
  - apply outputs_silent_bind; [silence|done|done|intros _]. apply Hw; [|done|done].
    apply outputs_silent_bind; [silence|done|done|intros _]. apply outputs_silent_bind; [silence|done|done|intros first].
    destruct (first =? CAN); [apply outputs_silent; [silence|done]|].
    destruct (first =? NAK); [|apply outputs_silent; [silence|done]].
    eapply outputs_weaken; [apply H2|]. done.
Qed.

(** What the end of a successful transfer wrote. *)
Definition y_finished (l : list event) : Prop :=
  exists l1 l2, l = l1 ++ l2 /\ (writes l1 = [[EOT]] \/ writes l1 = [[EOT]; [EOT]]) /\ y_acked y_final l2.

Lemma finish_emits : emits (T := T) (finish fuel ct pr) (fun r l => r = Ok tt -> y_finished l).
Proof.
  unfold finish. emits_step. destruct finish_eot_outputs as [Ho1 Ho2].
  eapply emits_weaken; [apply (outputs_conj _ _ _ Ho1 Ho2)|]. intros [[]|e|] l1 [Hw Hne]; try done.
  emits_step. apply emits_lift. rewrite make_packet_128 by done.
  eapply emits_weaken; [apply y_send_packet_emits|]. intros r l2 [_ Hr] ->. exists l1, l2. split; [done|].
  split; [|by apply Hr]. specialize (Hne eq_refl). destruct Hw as [Hw|Hw]; [done|exact Hw].
Qed.

Lemma chunks_emits data :
  emits (T := T) (foreach (range_step (len data) 1024) (send_chunk fuel ct pr data) (0, 1, 0)) (fun r l =>
    match r with
    | Ok (Next s) => s = (len data, Z.land (Z.of_nat (y_count data) + 1) 0xFF, Z.of_nat (y_count data)) /\
        y_acked_all (y_packet data <$> seq 0 (y_count data)) l
    | Ok _ => False
    | _ => True
    end).
Proof.
  assert (Hy : Z.of_nat (y_count data) = (len data + 1024 - 1) / 1024).
  { unfold y_count. rewrite Z2Nat.id; [done|]. apply Z.div_pos; pose proof (len_nonneg data); lia. }
  pose proof (Z.div_mod (len data + 1024 - 1) 1024 ltac:(lia)).
  pose proof (Z.mod_pos_bound (len data + 1024 - 1) 1024 ltac:(lia)). pose proof (len_nonneg data).
  unfold range_step. fold (y_count data).
  apply (emits_foreach (fun done s l => let k := length done in (k <= y_count data)%nat /\
    s = (Z.min (Z.of_nat k * 1024) (len data), Z.land (Z.of_nat k + 1) 0xFF, Z.of_nat k) /\
    y_acked_all (y_packet data <$> seq 0 k) l)).
  - cbn. split; [lia|]. split; [|by exists []]. f_equal. f_equal. lia.
  - intros done x rest s l0 Hxs (Hk & -> & Ha). set (k := length done) in *.
    assert (Hx : (k < y_count data)%nat /\ x = Z.of_nat k * 1024).
    { pose proof (f_equal (fun l => l !! k) Hxs) as Hl. rewrite list_lookup_fmap in Hl.
      unfold k in Hl at 2. rewrite list_lookup_middle in Hl by done.
      apply fmap_Some in Hl as (j & Hj & ->). apply lookup_seq in Hj as [-> Hj]. by split. }
    destruct Hx as [Hk' ->]. unfold send_chunk. fold (y_payload data k).
    rewrite make_packet_1024 by apply y_payload_len. emits_step. apply emits_lift. emits_step.
    eapply emits_weaken; [apply y_send_packet_emits|]. intros [[]|e|] l [_ Hl]; try done. apply emits_ret.
    rewrite app_nil_r, length_app. cbn [length]. rewrite Nat.add_1_r. split; [lia|]. split.
    + rewrite len_slice by lia. change 0xFF with (Z.ones 8). rewrite !Z.land_ones by lia.
      rewrite Zplus_mod_idemp_l. f_equal; [f_equal; [lia|]|lia]. f_equal. lia.
    + rewrite seq_S, fmap_app. apply y_acked_all_snoc; [done|]. specialize (Hl eq_refl).
      unfold y_packet. cbn [Nat.add]. replace (Z.land (Z.land (Z.of_nat k + 1) 0xFF) 0xFF)
        with (Z.land (Z.of_nat k + 1) 0xFF) in Hl; [done|]. rewrite <- Z.land_assoc. done.
  - intros s l0 (Hk & -> & Ha). rewrite length_fmap, length_seq in *. split; [|done]. f_equal. f_equal. lia.
Qed.

(** What a successful transfer of [data] leaves in the log. *)
Definition y_transfer (data filename : bytes) (s : YModemStats) (l : list event) : Prop :=
  exists header l0 lh l1 ld lf, l = l0 ++ lh ++ l1 ++ ld ++ lf /\
    bytes_sent s = len data /\ data_packets s = Z.of_nat (y_count data) /\
    make_header filename (len data) = Ok header /\
    writes l0 = [] /\ y_acked header lh /\ writes l1 = [] /\
    y_acked_all (y_packet data <$> seq 0 (y_count data)) ld /\ y_finished lf.

Lemma send_emits data filename :
  emits (T := T) (send fuel ct st pr data filename) (fun r l => forall s, r = Ok s -> y_transfer data filename s l).
Proof.
  unfold send. emits_step. emits_step. emits_step.
  eapply emits_weaken; [apply silent_wait|]. intros [[]|e|] l0 H0; try done.
  emits_step. apply emits_lift. destruct (make_header filename (len data)) as [header|e|] eqn:Eh; try done.
  emits_step. eapply emits_weaken; [apply y_send_packet_emits|]. intros [[]|e|] lh [_ Hh]; try done.
  emits_step. eapply emits_weaken; [apply silent_wait|]. intros [[]|e|] l1 H1; try done.
  emits_step. eapply emits_weaken; [apply chunks_emits|]. intros [[s|s|u]|e|] ld Hd; try done.
  destruct Hd as [-> Hd]. emits_step. eapply emits_weaken; [apply finish_emits|]. intros [[]|e|] lf Hf; try done.
  emits_step. emits_step. apply emits_ret. intros s [= <-]. exists header, l0, lh, l1, ld, lf.
  rewrite ?app_nil_r. cbn [app]. split_and!; try done; auto.
Qed.

End Trace.

(** C19. The YMODEM sender over any transport, whatever the receiver answers:
    it returns only if the session's log consists of the request for the file,
    the header packet, one data packet per 1024 bytes of the file in order,
    each acknowledged before the next was written, one or two EOTs and the
    final empty header, acknowledged too; the statistics count exactly the
    file's bytes and packets, and the payloads concatenated are the file with
    padding behind it. *)
Theorem ymodem_send_safe {T} `{Transport T} fuel ct st pr data filename (w : world T Z) stats w' :
  send fuel ct st pr data filename w = (Ok stats, w') ->
  exists header l0 lh l1 ld lf, log w' = log w ++ l0 ++ lh ++ l1 ++ ld ++ lf /\
    bytes_sent stats = len data /\ data_packets stats = Z.of_nat (y_count data) /\
    make_header filename (len data) = Ok header /\
    writes l0 = [] /\ y_acked header lh /\ writes l1 = [] /\
    y_acked_all (y_packet data <$> seq 0 (y_count data)) ld /\ y_finished lf /\
    take (length data) (concat (y_payload data <$> seq 0 (y_count data))) = data.
Proof.
  intros Hrun. destruct (send_emits (T := T) fuel ct st pr data filename w) as (l & Hl & HQ). rewrite Hrun in Hl, HQ. cbn in Hl, HQ.
  destruct (HQ stats eq_refl) as (h & l0 & lh & l1 & ld & lf & -> & ? & ? & ? & ? & ? & ? & ? & ?).
  exists h, l0, lh, l1, ld, lf. split_and!; try done. apply y_payloads_file.
Qed.

(** ** A YMODEM receiver *)

Inductive y_phase := WaitHeader | Receiving (seq : Z) | WaitFinal | Done.

Record YReceiver := YRx {
  rx_phase : y_phase; rx_out : bytes; rx_header : bytes; rx_blocks : list bytes; rx_clock : Z
}.

(** Checks marker, sequence complement, length and CRC of a packet. *)
Definition check_packet (d : bytes) : option (Z * bytes) :=
  match d with
  | m :: s :: c :: rest =>
      let n := if m =? SOH then 128 else 1024 in
      let payload := slice rest 0 n in
      if ((m =? SOH) || (m =? STX)) && (c =? 0xFF - s) && (len rest =? n + 2)
         && beq (slice rest n (n + 2)) (be_bytes 2 (crc16_xmodem payload))
      then Some (s, payload) else None
  | _ => None
  end.

Definition rx_write (d : bytes) (r : YReceiver) : YReceiver :=
  match rx_phase r with
  | WaitHeader =>
      match check_packet d with
      | Some (0, p) => YRx (Receiving 1) [ACK; CRC_REQUEST] p [] (rx_clock r)
      | _ => YRx WaitHeader [NAK] (rx_header r) (rx_blocks r) (rx_clock r)
      end
  | Receiving n =>
      if beq d [EOT] then YRx WaitFinal [ACK; CRC_REQUEST] (rx_header r) (rx_blocks r) (rx_clock r) else
      match check_packet d with
      | Some (s, p) =>
          if s =? n
          then YRx (Receiving (Z.land (n + 1) 0xFF)) [ACK] (rx_header r) (rx_blocks r ++ [p]) (rx_clock r)
          else YRx (Receiving n) [NAK] (rx_header r) (rx_blocks r) (rx_clock r)
      | None => YRx (Receiving n) [NAK] (rx_header r) (rx_blocks r) (rx_clock r)
      end
  | WaitFinal =>
      match check_packet d with
      | Some (0, _) => YRx Done [ACK] (rx_header r) (rx_blocks r) (rx_clock r)
      | _ => YRx WaitFinal [NAK] (rx_header r) (rx_blocks r) (rx_clock r)
      end
  | Done => r
  end.

#[export] Instance YReceiver_Transport : Transport YReceiver := {|
  t_read n tmo r :=
    match rx_out r with
    | b :: out => (Ok [b], YRx (rx_phase r) out (rx_header r) (rx_blocks r) (rx_clock r))
    | [] => (Raise TransportTimeout,
             YRx (rx_phase r) [] (rx_header r) (rx_blocks r) (rx_clock r + Z.max 0 (default 0 tmo)))
    end;
  t_write d r := (Ok tt, rx_write d r);
  t_flush_input r := (Ok tt, YRx (rx_phase r) [] (rx_header r) (rx_blocks r) (rx_clock r));
  t_flush_output r := (Ok tt, r);
  t_bytes_waiting r := (Ok (len (rx_out r)), r);
  t_unread d r := (Raise NotImplementedError, r);
  t_set_baudrate b r := (Raise NotImplementedError, r);
  t_monotonic r := (rx_clock r, r);
  t_sleep d r := YRx (rx_phase r) (rx_out r) (rx_header r) (rx_blocks r) (rx_clock r + Z.max 0 d)
|}.

#[local] Arguments rx_write : simpl never.
#[local] Arguments read_control : simpl never.
#[local] Arguments wait_crc_request : simpl never.

(** [rsteps m s a s']: with the receiver in [s], [m] returns [a], leaves it in
    [s'] and the retry count as it was. *)
Definition rsteps {A} (m : M YReceiver Z A) (s : YReceiver) (a : A) (s' : YReceiver) : Prop :=
  forall o lg, exists lg', m (World s o lg) = (Ok a, World s' o lg').

Lemma rsteps_bind {A B} (m : M YReceiver Z A) (f : A -> M YReceiver Z B) s s1 s2 a b :
  rsteps m s a s1 -> rsteps (f a) s1 b s2 -> rsteps (bind m f) s b s2.
Proof.
  intros Hm Hf o lg. destruct (Hm o lg) as [lg1 E1]. destruct (Hf o lg1) as [lg2 E2].
  exists lg2. unfold bind. by rewrite E1.
Qed.

Lemma rsteps_ret {A} (a : A) s : rsteps (ret a) s a s.
Proof. intros o lg. by exists lg. Qed.

Lemma rsteps_lift {A} (r : res A) a s : r = Ok a -> rsteps (lift r) s a s.
Proof. intros -> o lg. by exists lg. Qed.

Lemma check_packet_ok marker s payload n :
  (marker = SOH /\ n = 128 \/ marker = STX /\ n = 1024) -> len payload = n ->
  check_packet ([marker; s; 0xFF - s] ++ payload ++ be_bytes 2 (crc16_xmodem payload)) = Some (s, payload).
Proof.
  intros Hm Hl. cbn [app check_packet].
  assert (H2 : len (be_bytes 2 (crc16_xmodem payload)) = 2) by by apply be_bytes_len.
  replace (if marker =? SOH then 128 else 1024) with n by (destruct Hm as [[-> ->]|[-> ->]]; done).
  rewrite (slice_prefix payload) by done. rewrite (slice_suffix payload) by lia.
  rewrite Z.eqb_refl, len_app, Hl, H2, Z.eqb_refl. unfold beq. rewrite bool_decide_eq_true_2 by done.
  destruct Hm as [[-> _]|[-> _]]; done.
Qed.

Section Delivers.
Variable fuel : nat.
Hypothesis Hfuel : (0 < fuel)%nat.
Variables (ct st pr : Z).
Hypothesis Hct : 0 < ct.
Hypothesis Hst : 0 < st.
Hypothesis Hpr : 0 < pr.

Lemma rsteps_control allowed tmo ph b out h bl ck :
  0 < tmo -> b ∈ allowed ->
  rsteps (read_control fuel allowed tmo) (YRx ph (b :: out) h bl ck) b (YRx ph out h bl ck).
Proof.
  intros Ht Hb o lg. unfold read_control, bind. cbn. destruct fuel as [|n]; [lia|]. cbn [while].
  unfold read_control_body at 1, bind, try_except. cbn.
  replace (ck <? ck + tmo) with true by (symmetry; apply Z.ltb_lt; lia). cbn.
  change (beq [b] []) with false. change (index [b] 0) with (Ok b). cbn.
  rewrite (bool_decide_eq_true_2 (b ∈ allowed)) by done. eexists. reflexivity.
Qed.

Lemma rsteps_wait tmo ph out h bl ck :
  0 < tmo -> rsteps (wait_crc_request fuel tmo) (YRx ph (CRC_REQUEST :: out) h bl ck) tt (YRx ph out h bl ck).
Proof.
  intros Ht. eapply rsteps_bind; [apply rsteps_control; [done|]|apply rsteps_ret].
  apply elem_of_cons. by left.
Qed.

(** A packet the receiver answers with ACK. *)
Lemma rsteps_packet p ph out h bl ck ph' out' h' bl' ck' :
  rx_write p (YRx ph [] h bl ck) = YRx ph' (ACK :: out') h' bl' ck' ->
  rsteps (y_send_packet fuel ct pr p) (YRx ph out h bl ck) tt (YRx ph' out' h' bl' ck').
Proof.
  intros Hw o lg. unfold y_send_packet, range. destruct (Z.to_nat pr) as [|n] eqn:En; [lia|].
  cbn [seq fmap list_fmap foreach].
  assert (Ha : rsteps (send_attempt fuel ct p (Z.of_nat 0) tt) (YRx ph out h bl ck) (Rtn tt) (YRx ph' out' h' bl' ck')).
  { assert (Hc : rsteps (try_except
      (let* _ := flush_input in let* _ := write p in let* _ := flush_output in
       read_control fuel [ACK; NAK; CRC_REQUEST; CAN] ct)
      (fun e => is_YModemError e || is_TransportTimeout e) (fun _ => ret (-1)))
      (YRx ph out h bl ck) ACK (YRx ph' out' h' bl' ck')).
    { intros o0 lg0. unfold try_except, bind. cbn. rewrite Hw.
      edestruct (rsteps_control [ACK; NAK; CRC_REQUEST; CAN] ct ph' ACK out' h' bl' ck' Hct) as [lg1 E1].
      { apply elem_of_cons. by left. }
      rewrite E1. eexists. reflexivity. }
    eapply rsteps_bind; [apply Hc|]. apply rsteps_ret. }
  destruct (Ha o lg) as [lg1 E1]. unfold bind. rewrite E1. eexists. reflexivity.
Qed.

Lemma rsteps_chunks data h ck k bl :
  (k <= y_count data)%nat ->
  rsteps (foreach ((fun i => Z.of_nat i * 1024) <$> seq k (y_count data - k)) (send_chunk fuel ct pr data)
      (Z.min (Z.of_nat k * 1024) (len data), Z.land (Z.of_nat k + 1) 0xFF, Z.of_nat k))
    (YRx (Receiving (Z.land (Z.of_nat k + 1) 0xFF)) [] h bl ck)
    (Next (len data, Z.land (Z.of_nat (y_count data) + 1) 0xFF, Z.of_nat (y_count data)))
    (YRx (Receiving (Z.land (Z.of_nat (y_count data) + 1) 0xFF)) [] h
       (bl ++ (y_payload data <$> seq k (y_count data - k))) ck).
Proof.
  assert (Hy : Z.of_nat (y_count data) = (len data + 1024 - 1) / 1024).
  { unfold y_count. rewrite Z2Nat.id; [done|]. apply Z.div_pos; pose proof (len_nonneg data); lia. }
  pose proof (Z.div_mod (len data + 1024 - 1) 1024 ltac:(lia)).
  pose proof (Z.mod_pos_bound (len data + 1024 - 1) 1024 ltac:(lia)). pose proof (len_nonneg data).
  remember (y_count data - k)%nat as m eqn:Hm. revert k bl Hm. induction m as [|m IH]; intros k bl Hm Hk.
  - cbn. rewrite app_nil_r. replace k with (y_count data) by lia.
    replace (Z.min (Z.of_nat (y_count data) * 1024) (len data)) with (len data) by lia. apply rsteps_ret.
  - cbn [seq fmap list_fmap foreach]. eapply rsteps_bind.
    + unfold send_chunk. fold (y_payload data k). rewrite make_packet_1024 by apply y_payload_len.
      eapply rsteps_bind; [by apply rsteps_lift|]. eapply rsteps_bind; [|apply rsteps_ret].
      apply (rsteps_packet _ (Receiving (Z.land (Z.of_nat k + 1) 255)) [] h bl ck
        (Receiving (Z.land (Z.of_nat (S k) + 1) 0xFF)) [] h (bl ++ [y_payload data k]) ck).
      unfold rx_write. cbn [rx_phase rx_header rx_blocks rx_clock]. set (sq := Z.land (Z.of_nat k + 1) 255).
      replace (beq _ [EOT]) with false by (symmetry; by apply bool_decide_eq_false).
      replace (Z.land sq 255) with sq by (unfold sq; rewrite <- Z.land_assoc; done).
      rewrite (check_packet_ok STX sq (y_payload data k) 1024); [|by right|apply y_payload_len].
      rewrite Z.eqb_refl. f_equal. f_equal. unfold sq. change 0xFF with (Z.ones 8). rewrite !Z.land_ones by lia.
      rewrite Zplus_mod_idemp_l. f_equal. lia.
    + cbn iota beta. rewrite len_slice by lia.
      replace (Z.min (Z.of_nat k * 1024) (len data) + Z.max 0 (Z.min (Z.of_nat k * 1024 + 1024) (len data) - Z.of_nat k * 1024))
        with (Z.min (Z.of_nat (S k) * 1024) (len data)) by lia.
      replace (Z.land (Z.land (Z.of_nat k + 1) 255 + 1) 255) with (Z.land (Z.of_nat (S k) + 1) 255).
      2: { change 255 with (Z.ones 8). rewrite !Z.land_ones, Zplus_mod_idemp_l by lia. f_equal. lia. }
      replace (Z.of_nat k + 1) with (Z.of_nat (S k)) at 1 by lia.
      change (list_fmap _ _ ?f ?l) with (f <$> l).
      replace (bl ++ y_payload data k :: (y_payload data <$> seq (S k) m))
        with ((bl ++ [y_payload data k]) ++ (y_payload data <$> seq (S k) m)) by by rewrite <- app_assoc.
      apply (IH (S k) (bl ++ [y_payload data k])); lia.
Qed.

Lemma rsteps_finish n h bl ck :
  rsteps (finish fuel ct pr) (YRx (Receiving n) [] h bl ck) tt (YRx Done [] h bl ck).
Proof.
  unfold finish. apply (rsteps_bind _ _ _ (YRx WaitFinal [] h bl ck) _ tt).
  - intros o lg. unfold finish_eot, bind. cbn. unfold rx_write. cbn.
    edestruct (rsteps_control [ACK; NAK; CAN; CRC_REQUEST] ct WaitFinal ACK [CRC_REQUEST] h bl ck Hct) as [lg1 E1].
    { apply elem_of_cons. by left. }
    rewrite E1. cbn. apply (rsteps_wait ct WaitFinal [] h bl ck Hct).
  - eapply rsteps_bind; [by apply rsteps_lift, make_packet_128|].
    apply (rsteps_packet _ WaitFinal [] h bl ck Done [] h bl ck). unfold rx_write. cbn [rx_phase].
    change (Z.land 0 255) with 0. by rewrite (check_packet_ok SOH 0 (brep 128 0) 128 ltac:(by left)).
Qed.

End Delivers.

(** The metadata block of a file. *)
Definition y_metadata (filename : list Z) (size : Z) : bytes :=
  ljust 128 0 (filename ++ [0] ++ dec_bytes size ++ [0]).

Lemma make_header_ok filename size header :
  make_header filename size = Ok header ->
  header = [SOH; 0; 0xFF] ++ y_metadata filename size ++ be_bytes 2 (crc16_xmodem (y_metadata filename size)) /\
  len (y_metadata filename size) = 128.
Proof.
  unfold make_header. intros H. do 2 (case_match; [done|]). destruct (128 <? _) eqn:E; [done|]. b2p.
  fold (y_metadata filename size) in H.
  assert (Hl : len (y_metadata filename size) = 128).
  { unfold y_metadata, ljust. rewrite len_app, len_brep; lia. }
  rewrite make_packet_128 in H by done. injection H as <-. done.
Qed.

(** C18. Against a receiver that follows YMODEM (it checks marker, sequence
    number and its complement, length and CRC of each packet before storing
    it), sending any file succeeds without a retry: the receiver ends the
    session with the name and size block and with blocks whose concatenation,
    cut to the file's length, is the file. *)
Theorem ymodem_delivers fuel ct st pr data filename header o lg :
  (0 < fuel)%nat -> 0 < ct -> 0 < st -> 0 < pr ->
  make_header filename (len data) = Ok header ->
  exists w', send fuel ct st pr data filename (World (YRx WaitHeader [CRC_REQUEST] [] [] 0) o lg)
      = (Ok (mkStats (len data) (Z.of_nat (y_count data)) 0), w') /\
    rx_phase (tr w') = Done /\ rx_header (tr w') = y_metadata filename (len data) /\
    take (length data) (concat (rx_blocks (tr w'))) = data.
Proof.
  intros Hf Hct Hst Hpr Hh. pose proof (make_header_ok _ _ _ Hh) as [Hhdr Hlm].
  set (h := y_metadata filename (len data)) in *.
  set (bl := y_payload data <$> seq 0 (y_count data)).
  assert (Hs : rsteps (let* _ := wait_crc_request fuel st in
      let* header := lift (make_header filename (len data)) in
      let* _ := y_send_packet fuel ct pr header in
      let* _ := wait_crc_request fuel ct in
      foreach (range_step (len data) 1024) (send_chunk fuel ct pr data) (0, 1, 0))
    (YRx WaitHeader [CRC_REQUEST] [] [] 0)
    (Next (len data, Z.land (Z.of_nat (y_count data) + 1) 0xFF, Z.of_nat (y_count data)))
    (YRx (Receiving (Z.land (Z.of_nat (y_count data) + 1) 0xFF)) [] h bl 0)).
  { eapply rsteps_bind; [by apply rsteps_wait|]. eapply rsteps_bind; [by apply rsteps_lift|].
    eapply rsteps_bind.
    - apply (rsteps_packet fuel Hf ct pr Hct Hpr header WaitHeader [] [] [] 0 (Receiving 1) [CRC_REQUEST] h [] 0).
      unfold rx_write. cbn [rx_phase].
      assert (Hck : check_packet header = Some (0, h)).
      { rewrite Hhdr. apply (check_packet_ok SOH 0 h 128); [by left|done]. }
      by rewrite Hck.
    - eapply rsteps_bind; [by apply rsteps_wait|].
      pose proof (rsteps_chunks fuel Hf ct pr Hct Hpr data h 0 0 [] ltac:(lia)) as Hc.
      rewrite Nat.sub_0_r in Hc. pose proof (len_nonneg data).
      replace (Z.min (Z.of_nat 0 * 1024) (len data)) with 0 in Hc by lia. exact Hc. }
  destruct (Hs 0 lg) as [lg1 E1]. unfold bind, lift in E1.
  destruct (rsteps_finish fuel Hf ct pr Hct Hpr (Z.land (Z.of_nat (y_count data) + 1) 0xFF) h bl 0 0 lg1) as [lg2 E2].
  exists (World (YRx Done [] h bl 0) 0 lg2). split; [|split; [done|split; [done|apply y_payloads_file]]].
  unfold send, bind, lift, put_obj, get_obj. cbn [tr obj log].
  destruct (wait_crc_request fuel st _) as [[[]|e|] wa]; [|done..].
  rewrite Hh in *.
  destruct (y_send_packet fuel ct pr header wa) as [[[]|e|] wb]; [|done..].
  destruct (wait_crc_request fuel ct wb) as [[[]|e|] wc]; [|done..].
  rewrite E1, E2. done.
Qed.

Theorem ymodem_delivers_witness :
  exists w', send 3 5000000 15000000 32 [1; 2; 3] [117; 46; 98]
      (World (YRx WaitHeader [CRC_REQUEST] [] [] 0) 0 [])
      = (Ok (mkStats (len [1; 2; 3]) (Z.of_nat (y_count [1; 2; 3])) 0), w') /\
    rx_phase (tr w') = Done /\ rx_header (tr w') = y_metadata [117; 46; 98] (len [1; 2; 3]) /\
    take (length [1; 2; 3]) (concat (rx_blocks (tr w'))) = [1; 2; 3].
Proof.
  eapply (ymodem_delivers 3 5000000 15000000 32 [1; 2; 3] [117; 46; 98]); [lia..|vm_compute; reflexivity].
Defined.

Theorem ymodem_send_safe_witness :
  let w := World (YRx WaitHeader [CRC_REQUEST] [] [] 0) 0 [] in
  let w' := snd (send 3 5000000 15000000 32 [1; 2; 3] [117] w) in
  exists header l0 lh l1 ld lf, log w' = log w ++ l0 ++ lh ++ l1 ++ ld ++ lf /\
    bytes_sent (mkStats 3 1 0) = len [1; 2; 3] /\
    data_packets (mkStats 3 1 0) = Z.of_nat (y_count [1; 2; 3]) /\
    make_header [117] (len [1; 2; 3]) = Ok header /\
    writes l0 = [] /\ y_acked header lh /\ writes l1 = [] /\
    y_acked_all (y_packet [1; 2; 3] <$> seq 0 (y_count [1; 2; 3])) ld /\ y_finished lf /\
    take (length [1; 2; 3]) (concat (y_payload [1; 2; 3] <$> seq 0 (y_count [1; 2; 3]))) = [1; 2; 3].
Proof.
  intros w w'. apply (ymodem_send_safe 3 5000000 15000000 32 [1; 2; 3] [117] w (mkStats 3 1 0) w').
  vm_compute. reflexivity.
Defined.
