(* ===== verification/Tftp.v ===== *)
(** * The TFTP server

  Models [src/src/defib/network/tftp_server.py], class [TFTPServerProtocol]:
  the reaction of the server to one datagram and to one retransmit timer.  The
  network and the event loop are the environment: [sent] is the ghost list of
  the datagrams handed to [sendto], a timer is a flag of its transfer, and the
  order of datagrams and timers is arbitrary.  A transfer carries an identity
  ([t_id]), since [_retransmit] compares transfers with [is].  File names and
  option texts are lists of character codes.  The progress callback, the log
  and the operator's advice on bind errors are left out. *)

From stdpp Require Import pretty.
From Stdlib Require Import Ascii.
From Stdlib Require String.
From S2P Require Import Prelude Text.

Definition OPCODE_RRQ : Z := 1.
Definition OPCODE_DATA : Z := 3.
Definition OPCODE_ACK : Z := 4.
Definition OPCODE_ERROR : Z := 5.
Definition OPCODE_OACK : Z := 6.
Definition ERR_NOT_DEFINED : Z := 0.
Definition ERR_FILE_NOT_FOUND : Z := 1.
Definition ERR_ILLEGAL_OP : Z := 4.
Definition DEFAULT_BLOCKSIZE : Z := 512.
Definition MAX_BLOCKSIZE : Z := 65464.
Definition MAX_RETRIES : Z := 10.
Definition MAX_TRANSFERS : Z := 8.

(** ** Text *)

(** [data.split(b"\x00")]; [cur] is the part being read. *)
Fixpoint split0_go (l cur : bytes) : list bytes :=
  match l with
  | [] => [cur]
  | b :: l' => if b =? 0 then cur :: split0_go l' [] else split0_go l' (cur ++ [b])
  end.
Definition split0 (l : bytes) : list bytes := split0_go l [].

Definition is_ascii (l : bytes) : bool := forallb (fun b => b <? 128) l.

(** Decimal digits with single underscores between them. *)
Fixpoint dec_digits (l : list Z) (after_digit : bool) (acc : Z) : option Z :=
  match l with
  | [] => if after_digit then Some acc else None
  | c :: l' =>
      if c =? 95 then (if after_digit then dec_digits l' false acc else None)
      else if is_digit_code c then dec_digits l' true (10 * acc + (c - 48)) else None
  end.

(** [int(text)] on ASCII text, [None] for its ValueError: the interpreter
    refuses more than 4300 digits. *)
Definition int10 (l : list Z) : option Z :=
  if 4300 <? len (List.filter is_digit_code l) then None else
  match strip l with
  | c :: l' =>
      if c =? 43 then dec_digits l' false 0
      else if c =? 45 then Z.opp <$> dec_digits l' false 0
      else dec_digits (c :: l') false 0
  | [] => None
  end.

(** [str(n).encode()] *)
Definition str_int (n : Z) : bytes := codes (pretty n).

(** [posixpath.basename]: what follows the last slash. *)
Fixpoint basename_go (l cur : list Z) : list Z :=
  match l with
  | [] => cur
  | c :: l' => if c =? 47 then basename_go l' [] else basename_go l' (cur ++ [c])
  end.
Definition basename (l : list Z) : list Z := basename_go l [].

(** ** State *)

Definition addr : Type := string * Z.

Record TFTPTransfer := mkTransfer {
  t_id : Z;
  t_data : bytes;
  t_filename : list Z;
  blocksize : Z;
  block_num : Z;
  complete : bool;
  retries : Z;
  last_packet : bytes;
  timer : bool
}.

Record TFTPServerStats := mkStats {
  requests : Z; st_bytes_sent : Z; transfers_complete : Z; errors : Z; files_complete : list (list Z)
}.

Record server := mkServer {
  transfers : gmap addr TFTPTransfer;
  stats : TFTPServerStats;
  done_event : bool;
  max_blocksize : Z;
  next_id : Z;
  sent : list (addr * bytes)
}.

(** What the constructor fixes. *)
Record config := mkConfig {
  files : list (list Z * bytes);
  default_data : option bytes;
  done_file : option (list Z);
  done_count : Z;
  max_retries : Z
}.

Definition server_init : server := mkServer ∅ (mkStats 0 0 0 0 []) false MAX_BLOCKSIZE 0 [].

Definition set_max_blocksize (bs : Z) (s : server) : server :=
  mkServer (transfers s) (stats s) (done_event s) (Z.max 8 (Z.min bs MAX_BLOCKSIZE)) (next_id s) (sent s).

Definition set_transfers (ts : gmap addr TFTPTransfer) (s : server) : server :=
  mkServer ts (stats s) (done_event s) (max_blocksize s) (next_id s) (sent s).
Definition set_stats (st : TFTPServerStats) (s : server) : server :=
  mkServer (transfers s) st (done_event s) (max_blocksize s) (next_id s) (sent s).
Definition set_done (s : server) : server :=
  mkServer (transfers s) (stats s) true (max_blocksize s) (next_id s) (sent s).
Definition fresh_id (s : server) : server :=
  mkServer (transfers s) (stats s) (done_event s) (max_blocksize s) (next_id s + 1) (sent s).
Definition send_to (a : addr) (d : bytes) (s : server) : server :=
  mkServer (transfers s) (stats s) (done_event s) (max_blocksize s) (next_id s) (sent s ++ [(a, d)]).

Definition add_request (st : TFTPServerStats) : TFTPServerStats :=
  mkStats (requests st + 1) (st_bytes_sent st) (transfers_complete st) (errors st) (files_complete st).
Definition add_error (st : TFTPServerStats) : TFTPServerStats :=
  mkStats (requests st) (st_bytes_sent st) (transfers_complete st) (errors st + 1) (files_complete st).
Definition add_complete (t : TFTPTransfer) (st : TFTPServerStats) : TFTPServerStats :=
  mkStats (requests st) (st_bytes_sent st + len (t_data t)) (transfers_complete st + 1) (errors st)
    (files_complete st ++ [t_filename t]).

(** ** Operations: each returns its result and the new state, so that what
    happened before an exception stays. *)

Section Server.
Variable cfg : config.

Definition send_error (a : addr) (code : Z) (msg : list Z) (s : server) : res unit * server :=
  let s := set_stats (add_error (stats s)) s in
  (Ok tt, send_to a (be_bytes 2 OPCODE_ERROR ++ be_bytes 2 code ++ msg ++ [0]) s).

(** [_send_tracked], with the timer armed. *)
Definition send_tracked (a : addr) (t : TFTPTransfer) (packet : bytes) (s : server) : server :=
  let t := mkTransfer (t_id t) (t_data t) (t_filename t) (blocksize t) (block_num t) (complete t)
             (retries t) packet true in
  send_to a packet (set_transfers (<[a := t]> (transfers s)) s).

Definition block_data (t : TFTPTransfer) (n : Z) : bytes :=
  slice (t_data t) ((n - 1) * blocksize t) ((n - 1) * blocksize t + blocksize t).

Definition with_block (n : Z) (t : TFTPTransfer) : TFTPTransfer :=
  mkTransfer (t_id t) (t_data t) (t_filename t) (blocksize t) n (complete t) (retries t)
    (last_packet t) (timer t).
Definition with_complete (t : TFTPTransfer) : TFTPTransfer :=
  mkTransfer (t_id t) (t_data t) (t_filename t) (blocksize t) (block_num t) true (retries t)
    (last_packet t) (timer t).
Definition with_retries (r : Z) (t : TFTPTransfer) : TFTPTransfer :=
  mkTransfer (t_id t) (t_data t) (t_filename t) (blocksize t) (block_num t) (complete t) r
    (last_packet t) (timer t).
Definition with_timer (b : bool) (t : TFTPTransfer) : TFTPTransfer :=
  mkTransfer (t_id t) (t_data t) (t_filename t) (blocksize t) (block_num t) (complete t) (retries t)
    (last_packet t) b.

(** [_send_data_block]: the block number is counted up before it is packed,
    so the count stays when packing fails. *)
Definition send_data_block (a : addr) (t : TFTPTransfer) (s : server) : res unit * server :=
  let t := with_block (block_num t + 1) t in
  let s := set_transfers (<[a := t]> (transfers s)) s in
  let d := block_data t (block_num t) in
  match pack_be 2 (block_num t) with
  | Ok nb =>
      let s := send_tracked a t (be_bytes 2 OPCODE_DATA ++ nb ++ d) s in
      (Ok tt,
       if len d <? blocksize t
       then set_transfers (alter with_complete a (transfers s)) s else s)
  | Raise e => (Raise e, s)
  | Diverge => (Diverge, s)
  end.

Definition resolve_file (filename : list Z) : option bytes :=
  if bool_decide (files cfg = []) then default_data cfg else
  let find (p : list Z -> bool) := snd <$> List.find (fun kd => p (fst kd)) (files cfg) in
  match find (fun k => bool_decide (k = filename)) with
  | Some d => Some d
  | None =>
      let base := basename filename in
      match find (fun k => bool_decide (k = base)) with
      | Some d => Some d
      | None =>
          match find (fun k => bool_decide (lower_codes k = lower_codes filename) ||
                               bool_decide (lower_codes k = lower_codes base)) with
          | Some d => Some d
          | None => default_data cfg
          end
      end
  end.

(** The options after file name and mode, later ones first. *)
Fixpoint parse_options (parts : list bytes) (acc : list (list Z * list Z)) : list (list Z * list Z) :=
  match parts with
  | name :: value :: rest =>
      parse_options rest ((lower_codes (decode_replace name), decode_replace value) :: acc)
  | _ => acc
  end.

Definition option_blksize (parts : list bytes) : option Z :=
  match List.find (fun kv => bool_decide (fst kv = codes "blksize")) (parse_options (drop 2 parts) []) with
  | Some (_, v) => int10 v
  | None => None
  end.

Definition negotiate (s : server) (parts : list bytes) : Z * bool :=
  match option_blksize parts with
  | Some requested => (Z.max 8 (Z.min requested (max_blocksize s)), true)
  | None => (DEFAULT_BLOCKSIZE, false)
  end.

Definition oack (bs : Z) : bytes :=
  be_bytes 2 OPCODE_OACK ++ codes "blksize" ++ [0] ++ str_int bs ++ [0].

Definition handle_rrq (data : bytes) (a : addr) (s : server) : res unit * server :=
  let s := set_stats (add_request (stats s)) s in
  let parts := split0 (drop 2 data) in
  let filename := default [] (parts !! 0%nat) in
  if negb (is_ascii filename && is_ascii (default [] (parts !! 1%nat)))
  then send_error a ERR_NOT_DEFINED (codes "Malformed RRQ") s else
  if bool_decide (transfers s !! a = None) && (MAX_TRANSFERS <=? Z.of_nat (size (transfers s)))
  then (Ok tt, s) else
  match resolve_file filename with
  | None => send_error a ERR_FILE_NOT_FOUND (codes "File not found: " ++ filename) s
  | Some serve_data =>
      let '(bs, negotiated) := negotiate s parts in
      let t := mkTransfer (next_id s) serve_data filename bs 0 false 0 [] false in
      let s := fresh_id (set_transfers (<[a := t]> (transfers s)) s) in
      if negotiated : bool then (Ok tt, send_tracked a t (oack bs) s) else send_data_block a t s
  end.

(** The transfer's last block was acknowledged. *)
Definition finish_transfer (a : addr) (t : TFTPTransfer) (s : server) : server :=
  let s := set_stats (add_complete t (stats s)) s in
  let s := set_transfers (delete a (transfers s)) s in
  match done_file cfg with
  | Some f => if bool_decide (t_filename t = f) then set_done s else s
  | None => if done_count cfg <=? transfers_complete (stats s) then set_done s else s
  end.

Definition handle_ack (data : bytes) (a : addr) (s : server) : res unit * server :=
  if len data <? 4 then (Ok tt, s) else
  let n := be_int (slice data 2 4) in
  match transfers s !! a with
  | None => (Ok tt, s)
  | Some t =>
      if (n =? 0) && (block_num t =? 0) then send_data_block a (with_retries 0 t) s else
      if n =? block_num t then
        let t := with_timer false (with_retries 0 t) in
        let s := set_transfers (<[a := t]> (transfers s)) s in
        if complete t then (Ok tt, finish_transfer a t s) else send_data_block a t s
      else (Ok tt, s)
  end.

Definition handle_error (a : addr) (s : server) : res unit * server :=
  let s := set_stats (add_error (stats s)) s in
  (Ok tt, set_transfers (delete a (transfers s)) s).

Definition datagram_received (data : bytes) (a : addr) (s : server) : res unit * server :=
  if len data <? 2 then (Ok tt, s) else
  let opcode := be_int (slice data 0 2) in
  if opcode =? OPCODE_RRQ then handle_rrq data a s
  else if opcode =? OPCODE_ACK then handle_ack data a s
  else if opcode =? OPCODE_ERROR then handle_error a s
  else send_error a ERR_ILLEGAL_OP (codes "Unsupported operation") s.

(** The retransmit timer of the transfer with identity [id] fires. *)
Definition retransmit (a : addr) (id : Z) (s : server) : server :=
  match transfers s !! a with
  | Some t =>
      if negb (t_id t =? id) then s else
      if max_retries cfg <=? retries t
      then set_stats (add_error (stats s)) (set_transfers (delete a (transfers s)) s)
      else
        let t := with_timer true (with_retries (retries t + 1) t) in
        send_to a (last_packet t) (set_transfers (<[a := t]> (transfers s)) s)
  | None => s
  end.

Definition connection_lost (s : server) : server := set_transfers ∅ s.

(** ** Steps: any datagram from anywhere, an armed timer, or a call of the
    owner. *)

Inductive step : server -> server -> Prop :=
  | step_datagram data a s r s' : is_bytes data -> datagram_received data a s = (r, s') -> step s s'
  | step_timer a t s : transfers s !! a = Some t -> timer t = true -> step s (retransmit a (t_id t) s)
  | step_set_max bs s : step s (set_max_blocksize bs s)
  | step_lost s : step s (connection_lost s).

Inductive reachable : server -> Prop :=
  | reach_init : reachable server_init
  | reach_step s s' : reachable s -> step s s' -> reachable s'.

(** ** What the server promises *)

(** The number of DATA blocks a file takes: the last one is short, and empty
    when the block size divides the length. *)
Definition blocks (data : bytes) (bs : Z) : Z := len data / bs + 1.

Definition data_packet (data : bytes) (bs n : Z) : bytes :=
  be_bytes 2 OPCODE_DATA ++ be_bytes 2 n ++ slice data ((n - 1) * bs) ((n - 1) * bs + bs).

(** What is sent at block [n] of a transfer: block 0 is the OACK. *)
Definition packet_at (data : bytes) (bs n : Z) : bytes :=
  if n =? 0 then oack bs else data_packet data bs n.

Record transfer_ok (t : TFTPTransfer) : Prop := {
  tok_served : resolve_file (t_filename t) = Some (t_data t);
  tok_blocksize : 8 <= blocksize t <= MAX_BLOCKSIZE;
  tok_block : 0 <= block_num t <= Z.min 65536 (blocks (t_data t) (blocksize t));
  tok_complete : complete t = bool_decide (block_num t = blocks (t_data t) (blocksize t) /\ block_num t <= 65535);
  tok_packet : block_num t <= 65535 -> last_packet t = packet_at (t_data t) (blocksize t) (block_num t);
  tok_timer : timer t = (block_num t <=? 65535);
  tok_retries : 0 <= retries t <= Z.max 0 (max_retries cfg)
}.

(** The datagrams the server may send. *)
Inductive packet_ok : bytes -> Prop :=
  | po_error code msg : packet_ok (be_bytes 2 OPCODE_ERROR ++ be_bytes 2 code ++ msg ++ [0])
  | po_block f data bs n :
      resolve_file f = Some data -> 8 <= bs <= MAX_BLOCKSIZE ->
      0 <= n <= Z.min 65535 (blocks data bs) -> packet_ok (packet_at data bs n).

Record server_ok (s : server) : Prop := {
  sok_size : Z.of_nat (size (transfers s)) <= MAX_TRANSFERS;
  sok_transfers : map_Forall (fun _ => transfer_ok) (transfers s);
  sok_max : 8 <= max_blocksize s <= MAX_BLOCKSIZE;
  sok_sent : Forall (fun ad => packet_ok ad.2) (sent s);
  sok_stats : transfers_complete (stats s) = len (files_complete (stats s))
}.

(** ** Schedules of one client *)

Inductive event := Ack (n : Z) | Timer.

(** An acknowledgment carries a 16-bit number. *)
Definition valid_event (e : event) : Prop :=
  match e with Ack n => 0 <= n < 65536 | Timer => True end.

Definition ack_packet (n : Z) : bytes := be_bytes 2 OPCODE_ACK ++ be_bytes 2 n.

Definition react (a : addr) (s : server) (e : event) : server :=
  match e with
  | Ack n => (datagram_received (ack_packet n) a s).2
  | Timer =>
      match transfers s !! a with
      | Some t => if timer t then retransmit a (t_id t) s else s
      | None => s
      end
  end.

Definition run (a : addr) (evs : list event) (s : server) : server := foldl (react a) s evs.

(** Block [k] sent [r] times, then block [k + 1], and so on. *)
Fixpoint burst (pkt : Z -> bytes) (k : Z) (rs : list nat) : list bytes :=
  match rs with
  | [] => []
  | r :: rs' => replicate r (pkt k) ++ burst pkt (k + 1) rs'
  end.

(** What a client does, cut at its acknowledgments: [seg] until it acknowledges
    block [k], then the first of [more] until it acknowledges block [k + 1],
    and so on. *)
Fixpoint rounds (k : Z) (seg : list event) (more : list (list event)) : list event :=
  seg ++ (match more with [] => [] | seg' :: more' => Ack k :: rounds (k + 1) seg' more' end).

(** Each cut is at the first acknowledgment of its block. *)
Fixpoint cut_first (k : Z) (seg : list event) (more : list (list event)) : Prop :=
  (Ack k ∉ seg) /\ (match more with [] => True | seg' :: more' => cut_first (k + 1) seg' more' end).

Definition timers (seg : list event) : nat :=
  length (List.filter (fun e => match e with Timer => true | Ack _ => false end) seg).

(** The client has no transfer that would still react to anything. *)
Definition over (a : addr) (s : server) : Prop :=
  forall t, transfers s !! a = Some t -> timer t = false /\ block_num t = 65536.

(** A client that acknowledges the blocks from [k] on: before the
    acknowledgment of each block the timer fires [l] times (the block or its
    acknowledgment was lost), and [d] duplicates follow it. *)
Fixpoint schedule (k : Z) (ls : list (nat * nat)) : list event :=
  match ls with
  | [] => []
  | (l, d) :: ls' => replicate l Timer ++ Ack k :: replicate d (Ack k) ++ schedule (k + 1) ls'
  end.

End Server.


Section Facts.
Variable cfg : config.


(** ** Blocks of a file *)

Lemma blocks_bounds data bs :
  0 < bs -> 1 <= blocks data bs /\ (blocks data bs - 1) * bs <= len data < blocks data bs * bs.
Proof.
  intros Hb. unfold blocks. pose proof (len_nonneg data).
  pose proof (Z.div_mod (len data) bs ltac:(lia)).
  pose proof (Z.mod_pos_bound (len data) bs Hb).
  pose proof (Z.div_pos (len data) bs ltac:(lia) Hb). nia.
Qed.

(** A block is short exactly when it is the last one. *)
Lemma block_short t n :
  8 <= blocksize t -> 1 <= n <= blocks (t_data t) (blocksize t) ->
  (len (block_data t n) <? blocksize t) = bool_decide (n = blocks (t_data t) (blocksize t)).
Proof.
  intros Hb Hn. destruct (blocks_bounds (t_data t) (blocksize t)) as [H1 [H2 H3]]; [lia|].
  unfold block_data. rewrite len_slice by nia.
  set (B := blocks _ _) in *. set (b := blocksize t) in *. set (L := len _) in *.
  destruct (decide (n = B)) as [->|].
  - rewrite bool_decide_true by done. apply Z.ltb_lt. lia.
  - rewrite bool_decide_false by done. apply Z.ltb_ge.
    assert (n * b <= (B - 1) * b) by nia. lia.
Qed.

(** The payloads of the blocks from [k] on are the rest of the file. *)
Lemma blocks_concat data bs :
  8 <= bs ->
  concat ((fun n => slice data ((n - 1) * bs) ((n - 1) * bs + bs)) <$>
          ((fun i => Z.of_nat i + 1) <$> seq 0 (Z.to_nat (blocks data bs)))) = data.
Proof.
  intros Hb. destruct (blocks_bounds data bs) as [H1 [H2 H3]]; [lia|].
  rewrite <- list_fmap_compose.
  etransitivity; [|apply (pieces_concat_from bs data (Z.to_nat (blocks data bs)) 0); [lia|]].
  - f_equal. apply list_fmap_ext. intros _ i _. unfold compose. by rewrite Z.add_simpl_r.
  - rewrite Nat.add_0_l, Z2Nat.id by lia. lia.
Qed.

(** ** One operation at a time *)

(** The transfer after its next block went out. *)
Definition sent_block (t : TFTPTransfer) : TFTPTransfer :=
  let n := block_num t + 1 in
  mkTransfer (t_id t) (t_data t) (t_filename t) (blocksize t) n
    (bool_decide (n = blocks (t_data t) (blocksize t))) (retries t)
    (packet_at (t_data t) (blocksize t) n) true.

Definition put (a : addr) (t : TFTPTransfer) (s : server) : server :=
  set_transfers (<[a := t]> (transfers s)) s.

Lemma put_put a t t' s : put a t (put a t' s) = put a t s.
Proof. unfold put, set_transfers; cbn. by rewrite insert_insert_eq. Qed.

Lemma put_lookup a t s : transfers (put a t s) !! a = Some t.
Proof. apply lookup_insert_eq. Qed.

Lemma send_data_block_sends a t s :
  8 <= blocksize t -> complete t = false ->
  0 <= block_num t < Z.min 65535 (blocks (t_data t) (blocksize t)) ->
  send_data_block a t s
  = (Ok tt, send_to a (packet_at (t_data t) (blocksize t) (block_num t + 1)) (put a (sent_block t) s)).
Proof.
  intros Hb Hc Hn. unfold send_data_block. cbn [with_block block_num].
  unfold pack_be. replace (fits 2 _) with true by (symmetry; apply fits_spec; lia).
  pose proof (block_short (with_block (block_num t + 1) t) (block_num t + 1)) as Hs.
  cbn in Hs. unfold block_data in *. cbn in Hs |- *. rewrite Hs by lia.
  unfold sent_block, put, send_tracked, send_to, set_transfers, packet_at; cbn.
  replace (block_num t + 1 =? 0) with false by (symmetry; apply Z.eqb_neq; lia).
  rewrite !insert_insert_eq. unfold data_packet. rewrite Hc.
  case_bool_decide; cbn; [|done].
  by rewrite alter_insert_eq.
Qed.

Lemma send_data_block_overflows a t s :
  block_num t = 65535 ->
  send_data_block a t s = (Raise StructError, put a (with_block 65536 t) s).
Proof. intros Hn. unfold send_data_block. cbn. by rewrite Hn. Qed.

Lemma datagram_ack n a s :
  0 <= n < 65536 -> datagram_received cfg (ack_packet n) a s = handle_ack cfg (ack_packet n) a s.
Proof. reflexivity. Qed.

Lemma ack_packet_num n : 0 <= n < 65536 -> be_int (slice (ack_packet n) 2 4) = n.
Proof.
  intros Hn. unfold ack_packet.
  rewrite slice_suffix by (rewrite ?be_bytes_len; lia).
  apply be_int_be_bytes; [lia|]. apply fits_spec. lia.
Qed.

Definition acked (t : TFTPTransfer) : TFTPTransfer := with_timer false (with_retries 0 t).

(** The reaction to an acknowledgment, by what it acknowledges. *)
Lemma ack_other n a s t :
  0 <= n < 65536 -> transfers s !! a = Some t -> n <> block_num t -> react cfg a s (Ack n) = s.
Proof.
  intros Hn Ht Hne. cbn. rewrite datagram_ack by done. unfold handle_ack.
  rewrite ack_packet_num by done. rewrite Ht.
  replace (n =? block_num t) with false by (symmetry; by apply Z.eqb_neq).
  destruct (n =? 0) eqn:E0; b2p; [|done]. subst.
  by replace (block_num t =? 0) with false by (symmetry; apply Z.eqb_neq; lia).
Qed.

Lemma react_absent a s e : transfers s !! a = None -> react cfg a s e = s.
Proof.
  intros H. destruct e; cbn; [|by rewrite H].
  unfold datagram_received, handle_ack. cbn [len].
  change (be_int (slice (ack_packet n) 0 2)) with 4. cbn. by rewrite H.
Qed.

Lemma run_absent a evs s : transfers s !! a = None -> run cfg a evs s = s.
Proof.
  intros H. induction evs as [|e evs IH]; [done|]. cbn. by rewrite react_absent.
Qed.

Lemma ack_last a s t :
  transfer_ok cfg t -> transfers s !! a = Some t -> block_num t <= 65535 ->
  block_num t = blocks (t_data t) (blocksize t) ->
  react cfg a s (Ack (block_num t)) = finish_transfer cfg a (acked t) (put a (acked t) s).
Proof.
  intros Ht Hl Hle Hn. pose proof (tok_blocksize _ _ Ht).
  destruct (blocks_bounds (t_data t) (blocksize t)) as [Hb _]; [lia|].
  cbn [react]. rewrite datagram_ack by lia. unfold handle_ack.
  rewrite ack_packet_num by lia. rewrite Hl.
  replace (block_num t =? 0) with false by (symmetry; apply Z.eqb_neq; lia).
  rewrite Z.eqb_refl, andb_false_r. cbn.
  rewrite (tok_complete _ _ Ht), bool_decide_true by done. done.
Qed.

Lemma ack_next a s t :
  transfer_ok cfg t -> transfers s !! a = Some t ->
  block_num t < Z.min 65535 (blocks (t_data t) (blocksize t)) ->
  react cfg a s (Ack (block_num t))
  = send_to a (packet_at (t_data t) (blocksize t) (block_num t + 1)) (put a (sent_block (with_retries 0 t)) s).
Proof.
  intros Ht Hl Hlt. pose proof (tok_blocksize _ _ Ht). pose proof (tok_block _ _ Ht).
  assert (Hc : complete t = false).
  { rewrite (tok_complete _ _ Ht). apply bool_decide_false. lia. }
  cbn [react]. rewrite datagram_ack by lia. unfold handle_ack.
  rewrite ack_packet_num by lia. rewrite Hl. cbn.
  destruct (block_num t =? 0) eqn:E0; b2p.
  - rewrite (send_data_block_sends a (with_retries 0 t)) by (cbn; try done; lia). done.
  - rewrite Z.eqb_refl. cbn. rewrite Hc.
    rewrite (send_data_block_sends a (with_timer false (with_retries 0 t))) by (cbn; try done; lia).
    cbn. fold (put a (with_timer false (with_retries 0 t)) s). rewrite put_put. done.
Qed.

(** The acknowledgment of block 65535 when the file has more blocks: packing
    the next number fails and the transfer is left without a timer. *)
Lemma ack_overflow a s t :
  transfer_ok cfg t -> transfers s !! a = Some t -> block_num t = 65535 ->
  65535 < blocks (t_data t) (blocksize t) ->
  datagram_received cfg (ack_packet (block_num t)) a s
  = (Raise StructError, put a (with_block 65536 (acked t)) s).
Proof.
  intros Ht Hl Hn Hlt.
  assert (Hc : complete t = false).
  { rewrite (tok_complete _ _ Ht). apply bool_decide_false. lia. }
  rewrite datagram_ack by lia. unfold handle_ack.
  rewrite ack_packet_num by lia. rewrite Hl, Hn. cbn. rewrite Hc.
  fold (acked t). rewrite (send_data_block_overflows a (acked t)) by done.
  f_equal. apply put_put.
Qed.

(** ** Transfers stay well formed *)

Lemma sent_block_ok t :
  transfer_ok cfg t -> block_num t < Z.min 65535 (blocks (t_data t) (blocksize t)) ->
  transfer_ok cfg (sent_block (with_retries 0 t)).
Proof.
  intros [? ? ? ? ? ? ?] ?. constructor; cbn; try done; try lia.
  apply bool_decide_ext. lia.
Qed.

Lemma overflow_ok t :
  transfer_ok cfg t -> block_num t = 65535 -> 65535 < blocks (t_data t) (blocksize t) ->
  transfer_ok cfg (with_block 65536 (acked t)).
Proof.
  intros [? ? ? Hc ? ? ?] Hn ?. constructor; cbn; try done; try lia.
  rewrite Hc. apply bool_decide_ext. lia.
Qed.

Lemma resend_ok t :
  transfer_ok cfg t -> timer t = true -> retries t < max_retries cfg ->
  transfer_ok cfg (with_timer true (with_retries (retries t + 1) t)).
Proof. intros [? ? ? ? ? ? ?] ? ?. constructor; cbn; try done; try lia. by rewrite <- tok_timer0. Qed.

(** ** The server stays well formed *)

Lemma put_ok a t s :
  server_ok cfg s -> transfer_ok cfg t ->
  is_Some (transfers s !! a) \/ Z.of_nat (size (transfers s)) < MAX_TRANSFERS ->
  server_ok cfg (put a t s).
Proof.
  intros [H1 H2 H3 H4 H5] Ht Hs. constructor; cbn; try done.
  - destruct (transfers s !! a) as [t'|] eqn:E.
    + by rewrite map_size_insert_Some by eauto.
    + destruct Hs as [[? ?]|]; [done|]. rewrite map_size_insert_None by done. lia.
  - by apply map_Forall_insert_2.
Qed.

Lemma send_to_ok a d s : server_ok cfg s -> packet_ok cfg d -> server_ok cfg (send_to a d s).
Proof. intros [? ? ? ? ?] ?. constructor; cbn; try done. apply Forall_app; auto. Qed.

Lemma drop_ok a s : server_ok cfg s -> server_ok cfg (set_transfers (delete a (transfers s)) s).
Proof.
  intros [? ? ? ? ?]. constructor; cbn; try done; [|by apply map_Forall_delete].
  rewrite map_size_delete. case_match; cbn; lia.
Qed.

Lemma add_error_ok s : server_ok cfg s -> server_ok cfg (set_stats (add_error (stats s)) s).
Proof. by intros [? ? ? ? ?]. Qed.

Lemma add_request_ok s : server_ok cfg s -> server_ok cfg (set_stats (add_request (stats s)) s).
Proof. by intros [? ? ? ? ?]. Qed.

Lemma fresh_id_ok s : server_ok cfg s -> server_ok cfg (fresh_id s).
Proof. by intros [? ? ? ? ?]. Qed.

Lemma set_done_ok s : server_ok cfg s -> server_ok cfg (set_done s).
Proof. by intros [? ? ? ? ?]. Qed.

Lemma send_error_ok a c m s : server_ok cfg s -> server_ok cfg (send_error a c m s).2.
Proof. intros. apply send_to_ok; [by apply add_error_ok | constructor]. Qed.

Lemma finish_ok a t s : server_ok cfg s -> server_ok cfg (finish_transfer cfg a t s).
Proof.
  intros H. assert (Hs : server_ok cfg (set_stats (add_complete t (stats s)) s)).
  { destruct H as [? ? ? ? H5]. constructor; cbn; try done. rewrite len_app, H5. reflexivity. }
  unfold finish_transfer. repeat case_match; auto using drop_ok, set_done_ok.
Qed.

Lemma packet_at_ok t : transfer_ok cfg t -> block_num t <= 65535 -> packet_ok cfg (packet_at (t_data t) (blocksize t) (block_num t)).
Proof. intros [? ? ? ? ? ? ?] ?. econstructor; [done..|lia]. Qed.

Lemma finish_put a t t' s : finish_transfer cfg a t (put a t' s) = finish_transfer cfg a t s.
Proof.
  unfold finish_transfer, put, set_transfers, set_stats; cbn. by rewrite delete_insert_eq.
Qed.

Lemma react_ok a s e :
  valid_event e ->
  server_ok cfg s -> server_ok cfg (react cfg a s e).
Proof.
  intros He Hs. destruct (transfers s !! a) as [t|] eqn:El; [|by rewrite react_absent].
  pose proof (sok_transfers _ _ Hs a t El) as Ht. cbn in Ht.
  destruct e as [n|]; cbn in He.
  - destruct (decide (n = block_num t)) as [->|]; [|by erewrite ack_other].
    pose proof (tok_block _ _ Ht).
    destruct (decide (block_num t < Z.min 65535 (blocks (t_data t) (blocksize t)))) as [Hlt|].
    { pose proof (sent_block_ok t Ht Hlt) as Ht'.
      rewrite ack_next by done. apply send_to_ok; [apply put_ok; eauto|].
      apply (packet_at_ok _ Ht'). cbn. lia. }
    destruct (decide (block_num t = blocks (t_data t) (blocksize t))).
    + rewrite ack_last, finish_put by (done || lia). by apply finish_ok.
    + cbn [react]. rewrite ack_overflow by (done || lia). apply put_ok; eauto.
      apply overflow_ok; [done|lia..].
  - cbn. rewrite El. destruct (timer t) eqn:Etm; [|done]. unfold retransmit.
    rewrite El, Z.eqb_refl. cbn. case_match; b2p.
    + by apply (add_error_ok (set_transfers _ s)), drop_ok.
    + pose proof (tok_timer _ _ Ht) as Htm. rewrite Etm in Htm. symmetry in Htm. b2p.
      apply send_to_ok; [apply put_ok; eauto using resend_ok|].
      cbn. rewrite (tok_packet _ _ Ht) by done. by apply packet_at_ok.
Qed.

Lemma handle_ack_ok data a s : is_bytes data -> server_ok cfg s -> server_ok cfg (handle_ack cfg data a s).2.
Proof.
  intros Hd Hs. destruct (len data <? 4) eqn:El; [unfold handle_ack; by rewrite El|]. b2p.
  set (n := be_int (slice data 2 4)).
  assert (Hn : 0 <= n < 65536).
  { pose proof (be_int_bound (slice data 2 4) ltac:(by apply is_bytes_slice)) as Hb.
    rewrite len_slice in Hb by lia. replace (Z.max _ _) with 2 in Hb by lia. exact Hb. }
  pose proof (react_ok a s (Ack n) Hn Hs) as H. cbn [react] in H.
  rewrite datagram_ack in H by done. unfold handle_ack in *.
  rewrite (proj2 (Z.ltb_ge _ _) El). rewrite ack_packet_num in H by done. exact H.
Qed.

(** The transfer a read request creates. *)
Definition opened (s : server) (f data : bytes) (bs : Z) (negotiated : bool) : TFTPTransfer :=
  let n := if negotiated then 0 else 1 in
  mkTransfer (next_id s) data f bs n (bool_decide (n = blocks data bs)) 0 (packet_at data bs n) true.

Lemma opened_ok s f data bs neg :
  resolve_file cfg f = Some data -> 8 <= bs <= MAX_BLOCKSIZE -> transfer_ok cfg (opened s f data bs neg).
Proof.
  intros Hf Hb. destruct (blocks_bounds data bs) as [? _]; [lia|].
  constructor; cbn; destruct neg; cbn; try done; try lia; apply bool_decide_ext; lia.
Qed.

Lemma negotiate_bounds s parts bs neg :
  8 <= max_blocksize s <= MAX_BLOCKSIZE -> negotiate s parts = (bs, neg) -> 8 <= bs <= MAX_BLOCKSIZE.
Proof.
  unfold negotiate, DEFAULT_BLOCKSIZE, MAX_BLOCKSIZE. intros ? H. case_match; injection H as <- <-; lia.
Qed.

Lemma handle_rrq_serves data a s f serve bs neg :
  let parts := split0 (drop 2 data) in
  f = default [] (parts !! 0%nat) ->
  is_ascii f && is_ascii (default [] (parts !! 1%nat)) = true ->
  is_Some (transfers s !! a) \/ Z.of_nat (size (transfers s)) < MAX_TRANSFERS ->
  resolve_file cfg f = Some serve -> negotiate s parts = (bs, neg) ->
  8 <= max_blocksize s <= MAX_BLOCKSIZE ->
  let t := opened s f serve bs neg in
  handle_rrq cfg data a s
  = (Ok tt, send_to a (last_packet t) (put a t (fresh_id (set_stats (add_request (stats s)) s)))).
Proof.
  intros parts -> Ha Hroom Hf Hneg Hm. cbn zeta. unfold handle_rrq. fold parts. rewrite Ha. cbn [negb].
  assert (Hr : bool_decide (transfers s !! a = None) && (MAX_TRANSFERS <=? Z.of_nat (size (transfers s))) = false).
  { apply andb_false_iff. destruct Hroom as [[x Hx]|?].
    - left. apply bool_decide_false. by rewrite Hx.
    - right. by apply Z.leb_gt. }
  cbn [transfers set_stats]. rewrite Hr, Hf.
  change (negotiate (set_stats _ s) parts) with (negotiate s parts). rewrite Hneg.
  pose proof (negotiate_bounds _ _ _ _ Hm Hneg).
  destruct (blocks_bounds serve bs) as [Hb1 _]; [lia|].
  destruct neg.
  - unfold send_tracked, opened, put, send_to, set_transfers; cbn.
    rewrite insert_insert_eq. by rewrite bool_decide_false by lia.
  - rewrite send_data_block_sends by (cbn; try done; lia).
    unfold put, send_to, set_transfers; cbn. by rewrite insert_insert_eq.
Qed.

Lemma handle_rrq_ok data a s : server_ok cfg s -> server_ok cfg (handle_rrq cfg data a s).2.
Proof.
  intros Hs. set (parts := split0 (drop 2 data)). set (f := default [] (parts !! 0%nat)).
  pose proof (add_request_ok s Hs) as Hs1.
  destruct (is_ascii f && is_ascii (default [] (parts !! 1%nat))) eqn:Ha.
  2:{ unfold handle_rrq. fold parts f. rewrite Ha. by apply send_error_ok. }
  destruct (bool_decide (transfers s !! a = None) && (MAX_TRANSFERS <=? Z.of_nat (size (transfers s)))) eqn:Hr.
  { unfold handle_rrq. fold parts f. rewrite Ha. cbn [negb transfers set_stats]. by rewrite Hr. }
  destruct (resolve_file cfg f) as [serve|] eqn:Hf.
  2:{ unfold handle_rrq. fold parts f. rewrite Ha. cbn [negb transfers set_stats]. rewrite Hr, Hf.
      by apply send_error_ok. }
  destruct (negotiate s parts) as [bs neg] eqn:Hneg.
  assert (Hroom : is_Some (transfers s !! a) \/ Z.of_nat (size (transfers s)) < MAX_TRANSFERS).
  { apply andb_false_iff in Hr as [Hr|Hr]; b2p; [|by right]. left. by apply not_eq_None_Some. }
  pose proof (sok_max _ _ Hs) as Hm.
  assert (Hok : transfer_ok cfg (opened s f serve bs neg))
    by (apply opened_ok; eauto using negotiate_bounds).
  rewrite (handle_rrq_serves data a s f serve bs neg) by done.
  apply send_to_ok; [apply put_ok; [by apply fresh_id_ok | done | done]|].
  apply (packet_at_ok _ Hok). cbn. destruct neg; lia.
Qed.

Lemma step_ok s s' : step cfg s s' -> server_ok cfg s -> server_ok cfg s'.
Proof.
  intros [data a s0 r s0' Hd Hr|a t s0 Hl Ht|bs s0|s0] Hs.
  - change s0' with ((r, s0').2). rewrite <- Hr. unfold datagram_received.
    repeat case_match; try exact Hs; auto using handle_rrq_ok, handle_ack_ok, send_error_ok.
    by apply (drop_ok a (set_stats _ s0)), add_error_ok.
  - pose proof (react_ok a s0 Timer I Hs) as H. cbn in H. by rewrite Hl, Ht in H.
  - destruct Hs as [? ? ? ? ?]. constructor; cbn; try done. lia.
  - destruct Hs as [? ? ? ? ?]. by constructor.
Qed.

Lemma reachable_server_ok s : reachable cfg s -> server_ok cfg s.
Proof. induction 1 as [|s s' _ IH Hst]; [by constructor | by eapply step_ok]. Qed.

(** ** Runs of one client *)

Definition send_all (a : addr) (ds : list bytes) (s : server) : server :=
  mkServer (transfers s) (stats s) (done_event s) (max_blocksize s) (next_id s)
    (sent s ++ ((fun d => (a, d)) <$> ds)).

Lemma send_all_app a d1 d2 s : send_all a d2 (send_all a d1 s) = send_all a (d1 ++ d2) s.
Proof. unfold send_all; cbn. by rewrite fmap_app, app_assoc. Qed.

Lemma put_id a t s : transfers s !! a = Some t -> put a t s = s.
Proof. intros H. unfold put, set_transfers. rewrite insert_id by done. by destruct s. Qed.

Lemma send_all_nil a s : send_all a [] s = s.
Proof. unfold send_all. cbn. rewrite app_nil_r. by destruct s. Qed.

Lemma run_app a e1 e2 s : run cfg a (e1 ++ e2) s = run cfg a e2 (run cfg a e1 s).
Proof. apply foldl_app. Qed.

Definition resent (l : nat) (t : TFTPTransfer) : TFTPTransfer := with_retries (retries t + Z.of_nat l) t.

Lemma timer_resends a s t :
  transfers s !! a = Some t -> timer t = true -> retries t < max_retries cfg ->
  react cfg a s Timer = send_all a [last_packet t] (put a (resent 1 t) s).
Proof.
  intros Hl Ht Hr. cbn. rewrite Hl, Ht. unfold retransmit. rewrite Hl, Z.eqb_refl. cbn.
  replace (max_retries cfg <=? retries t) with false by (symmetry; by apply Z.leb_gt).
  unfold resent, with_timer, with_retries; cbn. by rewrite Ht.
Qed.

Lemma timers_resend a l s t :
  transfers s !! a = Some t -> timer t = true -> retries t + Z.of_nat l <= max_retries cfg ->
  run cfg a (replicate l Timer) s = send_all a (replicate l (last_packet t)) (put a (resent l t) s).
Proof.
  revert s t. induction l as [|l IH]; intros s t Hl Ht Hr.
  - cbn [run foldl replicate]. rewrite send_all_nil. unfold resent. cbn.
    rewrite Z.add_0_r. rewrite put_id; [done|]. rewrite Hl. by destruct t.
  - change (run cfg a (replicate (S l) Timer) s) with (run cfg a (replicate l Timer) (react cfg a s Timer)).
    rewrite (timer_resends a s t) by (done || lia).
    rewrite (IH _ (resent 1 t)); [|apply lookup_insert_eq|done|cbn; lia].
    change (put a (resent l (resent 1 t)) (send_all a [last_packet t] (put a (resent 1 t) s)))
      with (send_all a [last_packet t] (put a (resent l (resent 1 t)) (put a (resent 1 t) s))).
    rewrite put_put, send_all_app. cbn [last_packet resent with_retries].
    f_equal. f_equal. unfold resent, with_retries; cbn. f_equal. lia.
Qed.

Lemma resent_ok l t :
  transfer_ok cfg t -> retries t + Z.of_nat l <= Z.max 0 (max_retries cfg) -> transfer_ok cfg (resent l t).
Proof. intros [? ? ? ? ? ? ?] ?. constructor; cbn; try done; lia. Qed.

Lemma dups_ignored a d k s t :
  transfers s !! a = Some t -> 0 <= k < 65536 -> k <> block_num t -> run cfg a (replicate d (Ack k)) s = s.
Proof.
  intros Hl Hk Hne. induction d as [|d IH]; [done|].
  change (run cfg a (replicate (S d) (Ack k)) s) with (run cfg a (replicate d (Ack k)) (react cfg a s (Ack k))).
  by erewrite ack_other.
Qed.

(** A round that is not the last sends the next block once. *)
Lemma round_next a l d s t k :
  transfer_ok cfg t -> transfers s !! a = Some t -> k = block_num t -> retries t = 0 ->
  k < Z.min 65535 (blocks (t_data t) (blocksize t)) -> Z.of_nat l <= max_retries cfg ->
  run cfg a (replicate l Timer ++ Ack k :: replicate d (Ack k)) s
  = send_all a (replicate l (last_packet t) ++ [packet_at (t_data t) (blocksize t) (k + 1)])
      (put a (sent_block (with_retries 0 t)) s).
Proof.
  intros Ht Hl -> Hr Hlt Hm. rewrite run_app. pose proof (tok_block _ _ Ht).
  assert (timer t = true) by (rewrite (tok_timer _ _ Ht); apply Z.leb_le; lia).
  rewrite (timers_resend a l s t) by (done || lia).
  pose proof (resent_ok l t Ht ltac:(lia)) as Ht'.
  cbn [run foldl].
  change (block_num t) with (block_num (resent l t)).
  rewrite (ack_next a _ (resent l t)); [|done|apply lookup_insert_eq|done].
  change (foldl (react cfg a) ?x ?evs) with (run cfg a evs x).
  erewrite (dups_ignored a); [|apply lookup_insert_eq|cbn; lia|cbn; lia].
  rewrite <- send_all_app. cbn [block_num resent with_retries t_data blocksize].
  unfold send_to, put, send_all, set_transfers; cbn. by rewrite insert_insert_eq.
Qed.

Lemma finish_same a t t' s :
  t_data t = t_data t' -> t_filename t = t_filename t' ->
  finish_transfer cfg a t s = finish_transfer cfg a t' s.
Proof. intros H1 H2. unfold finish_transfer, add_complete. by rewrite H1, H2. Qed.

Lemma finish_absent a t s : transfers (finish_transfer cfg a t s) !! a = None.
Proof. unfold finish_transfer. repeat case_match; apply lookup_delete_eq. Qed.

Lemma round_last a l d s t k :
  transfer_ok cfg t -> transfers s !! a = Some t -> k = block_num t -> retries t = 0 ->
  k <= 65535 -> k = blocks (t_data t) (blocksize t) -> Z.of_nat l <= max_retries cfg ->
  run cfg a (replicate l Timer ++ Ack k :: replicate d (Ack k)) s
  = finish_transfer cfg a t (send_all a (replicate l (last_packet t)) s).
Proof.
  intros Ht Hl -> Hr Hle Hlast Hm. rewrite run_app. pose proof (tok_block _ _ Ht).
  assert (timer t = true) by (rewrite (tok_timer _ _ Ht); apply Z.leb_le; lia).
  rewrite (timers_resend a l s t) by (done || lia).
  pose proof (resent_ok l t Ht ltac:(lia)) as Ht'.
  cbn [run foldl].
  change (block_num t) with (block_num (resent l t)).
  rewrite (ack_last a _ (resent l t)); [|done|apply lookup_insert_eq|done|done].
  rewrite finish_put.
  change (foldl (react cfg a) ?x ?evs) with (run cfg a evs x).
  rewrite run_absent by apply finish_absent.
  rewrite (finish_same a _ t) by done.
  change (send_all a ?ds (put a ?t' s)) with (put a t' (send_all a ds s)).
  apply finish_put.
Qed.

Lemma rounds_complete a ls : forall s t k,
  transfer_ok cfg t -> transfers s !! a = Some t -> k = block_num t -> retries t = 0 ->
  let N := blocks (t_data t) (blocksize t) in
  N <= 65535 -> len ls = N - k + 1 -> Forall (fun ld => Z.of_nat ld.1 <= max_retries cfg) ls ->
  run cfg a (schedule k ls) s
  = finish_transfer cfg a t
      (send_all a (drop 1 (burst (packet_at (t_data t) (blocksize t)) k ((fun ld => S ld.1) <$> ls))) s).
Proof.
  induction ls as [|[l d] ls IH]; intros s t k Ht Hl Hk Hr N HN Hlen Hm; subst N.
  - pose proof (tok_block _ _ Ht). rewrite len_nil in Hlen. lia.
  - apply Forall_cons in Hm as [Hm0 Hm]. cbn in Hm0. rewrite len_cons in Hlen.
    pose proof (tok_block _ _ Ht) as Hb. pose proof (tok_packet _ _ Ht ltac:(lia)) as Hp.
    cbn [schedule]. rewrite app_comm_cons, app_assoc, run_app.
    destruct ls as [|ld ls].
    + rewrite (round_last a l d s t k) by (done || (rewrite ?len_nil in *; lia)).
      cbn. rewrite app_nil_r, Hp, Hk. done.
    + assert (Hlt : k < blocks (t_data t) (blocksize t))
        by (rewrite len_cons in Hlen; pose proof (len_nonneg ls); lia).
      rewrite (round_next a l d s t k) by (done || lia).
      assert (Ht' : transfer_ok cfg (sent_block (with_retries 0 t))) by (apply sent_block_ok; [done|lia]).
      rewrite (IH _ (sent_block (with_retries 0 t)) (k + 1) Ht');
        [|apply lookup_insert_eq|cbn; lia|done|cbn; lia|cbn [sent_block t_data blocksize with_retries]; lia|done].
      rewrite (finish_same a _ t) by done. cbn [sent_block t_data blocksize with_retries].
      rewrite send_all_app.
      change (send_all a ?ds (put a ?t' s)) with (put a t' (send_all a ds s)). rewrite finish_put.
      f_equal. f_equal. rewrite Hp, Hk. cbn. rewrite <- app_assoc. done.
Qed.

(** A transfer whose block number overflowed reacts to nothing any more. *)
Lemma run_stuck a evs s t :
  Forall valid_event evs ->
  transfer_ok cfg t -> transfers s !! a = Some t -> block_num t = 65536 -> run cfg a evs s = s.
Proof.
  intros Hev Ht Hl Hn. induction Hev as [|e evs He Hev IH]; [done|].
  cbn [run foldl]. change (foldl (react cfg a) ?x ?evs) with (run cfg a evs x).
  replace (react cfg a s e) with s; [done|]. destruct e as [n|].
  - cbn in He. by rewrite (ack_other n a s t) by (done || lia).
  - cbn. rewrite Hl, (tok_timer _ _ Ht), Hn. done.
Qed.

(** Blocks go out in order: the current one once for every timer, and each
    further one at the first acknowledgment of the one before and once for
    every timer until its own. *)
Definition in_rounds (a : addr) (s : server) (t : TFTPTransfer) (evs : list event) (sends : list bytes) : Prop :=
  exists seg more rest,
    evs = rounds (block_num t) seg more ++ rest /\ cut_first (block_num t) seg more
    /\ sends = burst (packet_at (t_data t) (blocksize t)) (block_num t) (timers seg :: ((fun seg => S (timers seg)) <$> more))
    /\ Z.of_nat (timers seg) + retries t <= Z.max 0 (max_retries cfg)
    /\ Forall (fun seg => Z.of_nat (timers seg) <= Z.max 0 (max_retries cfg)) more
    /\ block_num t + len more <= Z.min 65536 (blocks (t_data t) (blocksize t))
    /\ (rest = [] \/ over a (run cfg a (rounds (block_num t) seg more ++ take 1 rest) s)).

Lemma in_rounds_end a s t e evs :
  transfer_ok cfg t -> (evs = [] /\ e = [] \/ exists x, e = x :: evs /\ over a (react cfg a s x)) -> in_rounds a s t e [].
Proof.
  intros Ht He. pose proof (tok_retries _ _ Ht). pose proof (tok_block _ _ Ht).
  exists [], [], e. cbn. split_and!; [done|apply not_elem_of_nil|done|done|lia|constructor|rewrite len_nil; lia|].
  destruct He as [[-> ->]|(x & -> & Ho)]; [by left|by right].
Qed.

Lemma in_rounds_other a s t n evs sends :
  transfers s !! a = Some t -> 0 <= n < 65536 -> n <> block_num t -> in_rounds a s t evs sends -> in_rounds a s t (Ack n :: evs) sends.
Proof.
  intros Hl Hn Hne (seg & more & rest & -> & Hcut & -> & Hr & Hrs & Hb & Ho).
  exists (Ack n :: seg), more, rest.
  assert (Hrun : forall x, run cfg a (Ack n :: x) s = run cfg a x s).
  { intros x. change (run cfg a (Ack n :: x) s) with (run cfg a x (react cfg a s (Ack n))). by erewrite ack_other. }
  assert (Heq : rounds (block_num t) (Ack n :: seg) more = Ack n :: rounds (block_num t) seg more) by by destruct more.
  rewrite Heq. split_and!; try done.
  - destruct more; destruct Hcut as [Hc Hm]; (split; [|exact Hm]); rewrite not_elem_of_cons; (split; [by intros [= E]|done]).
  - destruct Ho as [Ho|Ho]; [by left|right]. change ((Ack n :: ?x) ++ ?y) with (Ack n :: x ++ y). by rewrite Hrun.
Qed.

Lemma in_rounds_resend a s t evs sends :
  transfers s !! a = Some t -> timer t = true -> retries t < max_retries cfg ->
  in_rounds a (react cfg a s Timer) (resent 1 t) evs sends ->
  in_rounds a s t (Timer :: evs) (packet_at (t_data t) (blocksize t) (block_num t) :: sends).
Proof.
  intros Hl Ht Hlt (seg & more & rest & -> & Hcut & -> & Hr & Hrs & Hb & Ho). cbn [resent with_retries block_num t_data blocksize retries] in *.
  exists (Timer :: seg), more, rest.
  assert (Heq : rounds (block_num t) (Timer :: seg) more = Timer :: rounds (block_num t) seg more) by by destruct more.
  assert (Htm : timers (Timer :: seg) = S (timers seg)) by done.
  rewrite Heq, Htm. split_and!; try done; [|lia].
  destruct more; destruct Hcut as [Hc Hm]; (split; [|exact Hm]); rewrite not_elem_of_cons; by split.
Qed.

Lemma in_rounds_next a s t evs sends :
  transfer_ok cfg t -> in_rounds a (react cfg a s (Ack (block_num t))) (sent_block (with_retries 0 t)) evs sends ->
  in_rounds a s t (Ack (block_num t) :: evs) (packet_at (t_data t) (blocksize t) (block_num t + 1) :: sends).
Proof.
  intros Ht (seg & more & rest & -> & Hcut & -> & Hr & Hrs & Hb & Ho). pose proof (tok_retries _ _ Ht).
  cbn [sent_block with_retries block_num t_data blocksize retries] in *.
  exists [], (seg :: more), rest. rewrite len_cons. split_and!; try done; [|cbn; lia|constructor; [lia|done]|lia].
  split; [apply not_elem_of_nil|exact Hcut].
Qed.

Lemma run_rounds a evs : forall s t,
  Forall valid_event evs -> transfer_ok cfg t -> transfers s !! a = Some t ->
  exists sends, sent (run cfg a evs s) = sent s ++ ((fun d => (a, d)) <$> sends) /\ in_rounds a s t evs sends.
Proof.
  induction evs as [|e evs IH]; intros s t Hev Ht Hl.
  { exists []. split; [symmetry; apply app_nil_r | apply (in_rounds_end a s t [] []); [done|by left]]. }
  apply Forall_cons in Hev as [He Hev]. pose proof (tok_block _ _ Ht).
  assert (Hend : over a (react cfg a s e) -> sent (react cfg a s e) = sent s -> run cfg a evs (react cfg a s e) = react cfg a s e ->
    exists sends, sent (run cfg a (e :: evs) s) = sent s ++ ((fun d => (a, d)) <$> sends) /\ in_rounds a s t (e :: evs) sends).
  { intros Ho Hsent Hrun. exists []. cbn [run foldl]. change (foldl (react cfg a) ?x ?evs) with (run cfg a evs x).
    rewrite Hrun, Hsent. split; [symmetry; apply app_nil_r | apply (in_rounds_end a s t _ evs); [done|right; by exists e]]. }
  cbn [run foldl]. change (foldl (react cfg a) ?x ?evs) with (run cfg a evs x).
  destruct e as [n|]; cbn in He.
  - destruct (decide (n = block_num t)) as [->|Hne].
    2: { rewrite (ack_other n a s t) by done. destruct (IH s t Hev Ht Hl) as (sends & Hs & Hi). exists sends. split; [done|by apply in_rounds_other]. }
    destruct (decide (block_num t < Z.min 65535 (blocks (t_data t) (blocksize t)))) as [Hlt|].
    { pose proof (ack_next a s t Ht Hl Hlt) as Hnext.
      destruct (IH (react cfg a s (Ack (block_num t))) (sent_block (with_retries 0 t)) Hev) as (sends & Hs & Hi);
        [by apply sent_block_ok | rewrite Hnext; apply lookup_insert_eq |].
      eexists. split; [|by apply in_rounds_next]. rewrite Hs, Hnext. cbn. by rewrite <- app_assoc. }
    apply Hend.
    all: destruct (decide (block_num t = blocks (t_data t) (blocksize t)));
      [rewrite (ack_last a s t), finish_put by (done || lia)|cbn [react]; rewrite (ack_overflow a s t) by (done || lia); cbn [snd]].
    + intros t' Ht'. by rewrite finish_absent in Ht'.
    + intros t' Ht'. cbn in Ht'. rewrite lookup_insert_eq in Ht'. by injection Ht' as <-.
    + unfold finish_transfer. by repeat case_match.
    + done.
    + apply run_absent, finish_absent.
    + eapply run_stuck; [done| |apply lookup_insert_eq|done]. apply overflow_ok; (done || lia).
  - destruct (timer t) eqn:Etm.
    2: { pose proof (tok_timer _ _ Ht) as Htm. rewrite Etm in Htm. symmetry in Htm. b2p.
         assert (Hr : react cfg a s Timer = s) by (cbn [react]; by rewrite Hl, Etm).
         apply Hend; rewrite Hr; [|done|eapply run_stuck; [done|exact Ht|done|lia]].
         intros t' Ht'. rewrite Hl in Ht'. injection Ht' as <-. split; [done|lia]. }
    destruct (decide (retries t < max_retries cfg)).
    + pose proof (timer_resends a s t Hl Etm ltac:(done)) as Hre. pose proof (tok_timer _ _ Ht) as Htm. rewrite Etm in Htm. symmetry in Htm. b2p.
      destruct (IH (react cfg a s Timer) (resent 1 t) Hev) as (sends & Hs & Hi);
        [apply resent_ok; [done|lia] | rewrite Hre; apply lookup_insert_eq |].
      eexists. split; [|by apply in_rounds_resend]. rewrite Hs, Hre. rewrite (tok_packet _ _ Ht) by done. cbn. by rewrite <- app_assoc.
    + assert (Hgone : transfers (react cfg a s Timer) !! a = None /\ sent (react cfg a s Timer) = sent s).
      { cbn [react]. rewrite Hl, Etm. unfold retransmit. rewrite Hl, Z.eqb_refl. cbn. rewrite (proj2 (Z.leb_le _ _)) by lia.
        split; [apply lookup_delete_eq|done]. }
      destruct Hgone as [Hg Hs]. apply Hend; [|done|by apply run_absent]. intros t' Ht'. by rewrite Hg in Ht'.
Qed.

End Facts.

(** C15.  Whatever datagrams arrive from whatever addresses and whichever
    timers fire, in any order: at most eight transfers are open; each serves
    the file its name resolves to with a block size of 8..65464, has its
    current block (or the OACK) as the packet to resend, is marked complete
    exactly at its last block, has a live timer unless its block number
    overflowed, and has been resent at most [max_retries] times in a row; and
    every datagram sent is an error, an OACK or a block of a served file. *)
Theorem tftp_reachable_ok cfg s : reachable cfg s -> server_ok cfg s.
Proof. apply reachable_server_ok. Qed.

(** C13.  A read request for a served file of at most 65535 blocks, with a free
    slot for it, followed by any schedule in which
    every packet gets through within [max_retries] resends (timers for lost
    packets, then the acknowledgment, then any number of duplicates of it),
    completes: the packets sent are the OACK if a block size was negotiated
    and then each block in order, once plus once per timer, the payloads of
    the blocks are the file, the transfer is closed and counted once. *)
Theorem tftp_delivers cfg s req a f data bs neg ls :
  let parts := split0 (drop 2 req) in
  let k := if neg : bool then 0 else 1 in
  let s' := run cfg a (schedule k ls) (datagram_received cfg req a s).2 in
  reachable cfg s ->
  2 <= len req -> be_int (slice req 0 2) = OPCODE_RRQ ->
  f = default [] (parts !! 0%nat) -> is_ascii f && is_ascii (default [] (parts !! 1%nat)) = true ->
  transfers s !! a = None -> Z.of_nat (size (transfers s)) < MAX_TRANSFERS ->
  resolve_file cfg f = Some data -> negotiate s parts = (bs, neg) ->
  blocks data bs <= 65535 -> len ls = blocks data bs - k + 1 ->
  Forall (fun ld => Z.of_nat ld.1 <= max_retries cfg) ls ->
  transfers s' = transfers s
  /\ sent s' = sent s ++ ((fun d => (a, d)) <$> burst (packet_at data bs) k ((fun ld => S ld.1) <$> ls))
  /\ concat ((fun n => drop 4 (packet_at data bs n)) <$>
       ((fun i => Z.of_nat i + 1) <$> seq 0 (Z.to_nat (blocks data bs)))) = data
  /\ transfers_complete (stats s') = transfers_complete (stats s) + 1
  /\ files_complete (stats s') = files_complete (stats s) ++ [f]
  /\ errors (stats s') = errors (stats s)
  /\ (done_file cfg = Some f -> done_event s' = true).
Proof.
  intros parts k s' Hreach Hlen Hop Hf Ha Hfree Hroom Hres Hneg HN Hls Hm.
  pose proof (reachable_server_ok cfg s Hreach) as Hs.
  pose proof (sok_max _ _ Hs) as Hmax. pose proof (negotiate_bounds _ _ _ _ Hmax Hneg) as Hbs.
  set (t := opened s f data bs neg).
  assert (Ht : transfer_ok cfg t) by by apply opened_ok.
  assert (Hs' : s' = finish_transfer cfg a t (send_all a
      (burst (packet_at data bs) k ((fun ld => S ld.1) <$> ls))
      (put a t (fresh_id (set_stats (add_request (stats s)) s))))).
  { subst s'. unfold datagram_received. rewrite (proj2 (Z.ltb_ge _ _) Hlen), Hop. cbn [Z.eqb OPCODE_RRQ Pos.eqb].
    rewrite (handle_rrq_serves cfg req a s f data bs neg) by (done || (right; lia)). cbn [snd]. fold t.
    rewrite (rounds_complete cfg a ls _ t k);
      [|done|apply lookup_insert_eq|by destruct neg|done|done|done|done].
    change (send_to a ?d ?x) with (send_all a [d] x). rewrite send_all_app. f_equal. f_equal.
    destruct ls as [|[l d] ls]; [|done].
    destruct (blocks_bounds data bs) as [? _]; [lia|]. rewrite len_nil in Hls. subst k. destruct neg; lia. }
  assert (Hput : transfers s' = transfers s).
  { rewrite Hs'. unfold finish_transfer. repeat case_match; cbn; rewrite delete_insert_eq; by apply delete_id. }
  split_and!; [exact Hput|..]; rewrite ?Hs'.
  1, 3, 4, 5: unfold finish_transfer; repeat case_match; done.
  - etransitivity; [|apply (blocks_concat data bs); lia]. f_equal.
    rewrite <- !list_fmap_compose. apply list_fmap_ext. intros _ i _. unfold compose, packet_at.
    replace (Z.of_nat i + 1 =? 0) with false by (symmetry; apply Z.eqb_neq; lia). done.
  - intros Hd. unfold finish_transfer. rewrite Hd. by rewrite bool_decide_true by done.
Qed.

(** C14.  No client makes the server flood: whatever acknowledgments (stale,
    duplicated, out of order) and timers follow on an open transfer, its
    blocks go out in order, the current one once for every timer and each
    further one exactly at the first acknowledgment of the one before it and
    once for every timer until its own; all other acknowledgments, which are
    the ones within the cuts, send nothing.  No more than [max_retries] timers
    count for a block, and once the transfer is over (its last block
    acknowledged, given up, or past block 65535) nothing is sent any more. *)
Theorem tftp_no_flood cfg s a t evs :
  reachable cfg s -> transfers s !! a = Some t -> Forall valid_event evs ->
  exists seg more rest,
    evs = rounds (block_num t) seg more ++ rest /\ cut_first (block_num t) seg more
    /\ sent (run cfg a evs s)
       = sent s ++ ((fun d => (a, d)) <$> burst (packet_at (t_data t) (blocksize t)) (block_num t)
           (timers seg :: ((fun seg => S (timers seg)) <$> more)))
    /\ Z.of_nat (timers seg) + retries t <= Z.max 0 (max_retries cfg)
    /\ Forall (fun seg => Z.of_nat (timers seg) <= Z.max 0 (max_retries cfg)) more
    /\ block_num t + len more <= Z.min 65536 (blocks (t_data t) (blocksize t))
    /\ (rest = [] \/ over a (run cfg a (rounds (block_num t) seg more ++ take 1 rest) s)).
Proof.
  intros Hreach Hl Hev.
  pose proof (reachable_server_ok cfg s Hreach) as Hs.
  destruct (run_rounds cfg a evs s t Hev) as (sends & Hsent & seg & more & rest & He & Hc & -> & Hr);
    [exact (sok_transfers _ _ Hs a t Hl) | done |].
  by exists seg, more, rest.
Qed.

(** ** A concrete server *)

Definition demo_file : bytes := [1; 2; 3; 4; 5; 6; 7; 8; 9; 10; 11; 12; 13; 14; 15; 16; 17; 18; 19; 20].
Definition demo_cfg : config := mkConfig [(codes "u-boot.bin", demo_file)] None (Some (codes "u-boot.bin")) 1 10.
Definition demo_req : bytes :=
  [0; 1] ++ codes "u-boot.bin" ++ [0] ++ codes "octet" ++ [0] ++ codes "blksize" ++ [0] ++ codes "8" ++ [0].
Definition demo_client : addr := ("192.168.1.10"%string, 2000).
Definition demo_open : server := (datagram_received demo_cfg demo_req demo_client server_init).2.

Lemma demo_open_reachable : reachable demo_cfg demo_open.
Proof.
  eapply reach_step; [apply reach_init|]. eapply (step_datagram _ demo_req demo_client); [|reflexivity].
  by apply (bool_decide_unpack _).
Qed.

Lemma tftp_reachable_ok_witness : reachable demo_cfg demo_open /\ server_ok demo_cfg demo_open.
Proof. split; [apply demo_open_reachable | apply tftp_reachable_ok, demo_open_reachable]. Defined.

Lemma tftp_delivers_witness :
  let ls := [(0, 1); (2, 0); (0, 3); (1, 1)]%nat in
  let s' := run demo_cfg demo_client (schedule 0 ls) demo_open in
  transfers_complete (stats s') = 1 /\ len (sent s') = 7 /\ done_event s' = true.
Proof.
  intros ls s'.
  destruct (tftp_delivers demo_cfg server_init demo_req demo_client (codes "u-boot.bin") demo_file 8 true ls)
    as (_ & Hsent & _ & Hc & _ & _ & Hd).
  1: apply reach_init.
  11: by apply (bool_decide_unpack _).
  1, 9: vm_compute; discriminate.
  1-8: vm_compute; reflexivity.
  change (datagram_received demo_cfg demo_req demo_client server_init).2 with demo_open in Hsent, Hc, Hd.
  change (run demo_cfg demo_client (schedule 0 ls) demo_open) with s' in Hsent, Hc, Hd.
  split_and!; [rewrite Hc; reflexivity | rewrite Hsent; vm_compute; reflexivity | apply Hd; reflexivity].
Defined.

Lemma tftp_no_flood_witness :
  let evs := [Ack 0; Ack 0; Ack 7; Timer; Ack 1; Ack 1] in
  exists seg more rest,
    evs = rounds 0 seg more ++ rest /\ cut_first 0 seg more /\
    sent (run demo_cfg demo_client evs demo_open)
    = sent demo_open ++ ((fun d => (demo_client, d)) <$> burst (packet_at demo_file 8) 0 (timers seg :: ((fun seg => S (timers seg)) <$> more))).
Proof.
  intros evs. destruct (tftp_no_flood demo_cfg demo_open demo_client
    (opened server_init (codes "u-boot.bin") demo_file 8 true) evs)
    as (seg & more & rest & He & Hc & Hs & _); [apply demo_open_reachable|reflexivity| |exists seg, more, rest; by split_and!].
  unfold evs. repeat first [apply Forall_nil | apply Forall_cons; split; [cbn; lia || exact I|]]; exact I.
Defined.

(** A file of more than 65534 full blocks cannot be served: at the
    acknowledgment of block 65535 packing the next block number raises
    [struct.error], and the transfer stays open without a timer. *)
Theorem tftp_block_overflow cfg s a t :
  reachable cfg s -> transfers s !! a = Some t -> block_num t = 65535 ->
  65535 * blocksize t <= len (t_data t) ->
  exists s' t',
    datagram_received cfg (ack_packet 65535) a s = (Raise StructError, s')
    /\ transfers s' !! a = Some t' /\ timer t' = false /\ complete t' = false
    /\ (forall evs, Forall valid_event evs -> run cfg a evs s' = s').
Proof.
  intros Hreach Hl Hn Hbig. pose proof (reachable_server_ok cfg s Hreach) as Hs.
  pose proof (sok_transfers _ _ Hs a t Hl) as Ht. cbn in Ht. pose proof (tok_blocksize _ _ Ht).
  assert (Hov : 65535 < blocks (t_data t) (blocksize t)).
  { destruct (blocks_bounds (t_data t) (blocksize t)) as [? [? ?]]; [lia|]. nia. }
  pose proof (overflow_ok cfg t Ht Hn Hov) as Ht'.
  exists (put a (with_block 65536 (acked t)) s), (with_block 65536 (acked t)).
  split_and!; [rewrite <- Hn at 1; by apply ack_overflow|apply lookup_insert_eq|done| |].
  - rewrite (tok_complete _ _ Ht'). apply bool_decide_false. cbn. lia.
  - intros evs Hev. eapply run_stuck; [done|exact Ht'|apply lookup_insert_eq|done].
Qed.
