(* ===== verification/RockusbCodec.v ===== *)
(** * Rockchip USB: pure framing

  Models [src/src/defib/rockusb/protocol.py] (the bulk stage's command and
  status wrappers), [rockusb/maskrom.py] (the control-transfer chunks of the
  boot ROM stage) and [rockusb/loader.py] (the RKBOOT container).  The CRC and
  RC4 of [rockusb/codec.py] are in [Crc]. *)

From S2P Require Import Prelude Crc.

(** ** protocol.py *)

Definition CBW_SIGNATURE : bytes := [85; 83; 66; 67].
Definition CSW_SIGNATURE : bytes := [85; 83; 66; 83].
Definition CBW_LENGTH : Z := 31.
Definition CSW_LENGTH : Z := 13.
Definition SECTOR_SIZE : Z := 512.
Definition MAX_SECTORS_PER_TRANSFER : Z := 512.
Definition DIRECTION_IN : Z := 0x80.
Definition DIRECTION_OUT : Z := 0x00.

(** [Opcode] is an [IntEnum]: its members are these integers. *)
Definition TEST_UNIT_READY : Z := 0x00.
Definition READ_FLASH_ID : Z := 0x01.
Definition ERASE_NORMAL : Z := 0x06.
Definition READ_LBA : Z := 0x14.
Definition WRITE_LBA : Z := 0x15.
Definition READ_FLASH_INFO : Z := 0x1A.
Definition READ_CHIP_INFO : Z := 0x1B.
Definition ERASE_LBA : Z := 0x25.
Definition READ_CAPABILITY : Z := 0xAA.
Definition RESET_DEVICE : Z := 0xFF.

Definition CDB_LENGTH_SHORT : Z := 6.
Definition CDB_LENGTH_ADDRESSED : Z := 10.

Definition ADDRESSED_OPCODES : list Z := [READ_LBA; WRITE_LBA; ERASE_LBA].

Definition cdb_length (opcode : Z) : Z :=
  if bool_decide (opcode ∈ ADDRESSED_OPCODES) then CDB_LENGTH_ADDRESSED else CDB_LENGTH_SHORT.

Definition FLASH_INFO_LENGTH : Z := 11.

Record FlashInfo := mkFlashInfo {
  fi_sectors : Z; block_sectors : Z; page_sectors : Z; ecc_bits : Z;
  access_time : Z; manufacturer : Z; flash_mask : Z
}.

Definition size_bytes (i : FlashInfo) : Z := fi_sectors i * SECTOR_SIZE.
Definition block_bytes (i : FlashInfo) : Z := block_sectors i * SECTOR_SIZE.
Definition page_bytes (i : FlashInfo) : Z := page_sectors i * SECTOR_SIZE.

Definition parse_flash_info (data : bytes) : res FlashInfo :=
  if len data <? FLASH_INFO_LENGTH then Raise RockusbError else
  let! sectors := unpack_le 4 data 0 in
  let! block := unpack_le 2 data 4 in
  let! page := unpack_le 1 data 6 in
  let! ecc := unpack_le 1 data 7 in
  let! access := unpack_le 1 data 8 in
  let! mfr := unpack_le 1 data 9 in
  let! mask := unpack_le 1 data 10 in
  if sectors =? 0 then Raise RockusbError else
  Ok (mkFlashInfo sectors block page ecc access mfr mask).

Definition residue_is_meaningful (opcode : Z) : bool := bool_decide (opcode ∈ ADDRESSED_OPCODES).

Definition RESET_NORMAL : Z := 0.
Definition RESET_MASKROM : Z := 3.
Definition STATUS_OK : Z := 0.

(** [build_cbw]; the transfer length 0 stands for "from the count". *)
Definition cbw_transfer_length (opcode count transfer_length : Z) : Z :=
  if (transfer_length =? 0) && negb (count =? 0) &&
     negb (bool_decide (opcode ∈ [ERASE_LBA; ERASE_NORMAL]))
  then count * SECTOR_SIZE else transfer_length.

Definition build_cbw (tag opcode subcode address count transfer_length : Z) (direction_in : bool) : res bytes :=
  let transfer_length := cbw_transfer_length opcode count transfer_length in
  let! op := pack_be 1 opcode in
  let! sub := pack_be 1 subcode in
  let! adr := pack_be 4 address in
  let! cnt := pack_be 2 count in
  let cdb := op ++ sub ++ adr ++ [0] ++ cnt ++ brep 7 0 in
  if negb (len cdb =? 16) then Raise AssertionError else
  let! tg := pack_le 4 (Z.land tag 0xFFFFFFFF) in
  let! tl := pack_le 4 transfer_length in
  Ok (CBW_SIGNATURE ++ tg ++ tl
      ++ [if direction_in then DIRECTION_IN else DIRECTION_OUT; 0x00; cdb_length opcode] ++ cdb).

Definition parse_csw (data : bytes) (expected_tag : option Z) : res (Z * Z * Z) :=
  if len data <? CSW_LENGTH then Raise RockusbError else
  if negb (beq (slice data 0 4) CSW_SIGNATURE) then Raise RockusbError else
  let! tag := unpack_le 4 data 4 in
  let! residue := unpack_le 4 data 8 in
  let! status := unpack_le 1 data 12 in
  match expected_tag with
  | Some t => if negb (tag =? Z.land t 0xFFFFFFFF) then Raise RockusbError else Ok (tag, residue, status)
  | None => Ok (tag, residue, status)
  end.

(** The loop of [split_lba_transfers]; every turn takes a sector at least, so
    [total_sectors] turns are enough. *)
Fixpoint split_loop (fuel : nat) (lba remaining max_sectors : Z) : list (Z * Z) :=
  match fuel with
  | O => []
  | S fuel' =>
      if 0 <? remaining then
        let count := Z.min remaining max_sectors in
        (lba, count) :: split_loop fuel' (lba + count) (remaining - count) max_sectors
      else []
  end.

Definition split_lba_transfers (start_lba total_sectors max_sectors : Z) : res (list (Z * Z)) :=
  if total_sectors <? 0 then Raise ValueError else
  if max_sectors <=? 0 then Raise ValueError else
  Ok (split_loop (Z.to_nat total_sectors) start_lba total_sectors max_sectors).

(** ** maskrom.py *)

Definition CODE_471 : Z := 0x0471.
Definition CODE_472 : Z := 0x0472.
Definition CHUNK_SIZE : Z := 4096.

Definition maskrom_payload (blob : bytes) (use_rc4 : bool) : bytes :=
  let payload := if len blob mod CHUNK_SIZE =? CHUNK_SIZE - 1 then blob ++ [0x00] else blob in
  if use_rc4 then rc4 payload RK_RC4_KEY else payload.

Definition build_maskrom_chunks (blob : bytes) (use_rc4 : bool) : res (list bytes) :=
  let needs_terminator := len blob mod CHUNK_SIZE =? CHUNK_SIZE - 2 in
  let payload := maskrom_payload blob use_rc4 in
  let! crc := pack_be 2 (rk_crc16 payload) in
  let chunks := pieces CHUNK_SIZE (payload ++ crc) in
  Ok (if needs_terminator then chunks ++ [[0x00]] else chunks).

(** ** loader.py *)

Definition TAG_BOOT : bytes := [66; 79; 79; 84].
Definition TAG_LOADER : bytes := [76; 68; 82; 32].
Definition ENTRY_TRAILER : Z := 12.
Definition ENTRY_NAME_BYTES : Z := 40.

(** [name] is the text's list of code points. *)
Record LoaderEntry := mkEntry { le_name : list Z; le_data : bytes; delay_ms : Z }.

Record LoaderBlobs := mkBlobs { lb_ddr : list LoaderEntry; lb_usbplug : list LoaderEntry; rc4_disabled : bool }.

Definition use_rc4 (b : LoaderBlobs) : bool := negb (rc4_disabled b).

Definition raw_blobs (ddr usbplug : bytes) (rc4 : bool) : res LoaderBlobs :=
  if bool_decide (ddr = []) || bool_decide (usbplug = []) then Raise LoaderFormatError else
  Ok (mkBlobs [mkEntry [100; 100; 114] ddr 0] [mkEntry [117; 115; 98; 112; 108; 117; 103] usbplug 0] (negb rc4)).

(** [decode("utf-16-le", errors="replace")] of whole code units *)
Fixpoint utf16_units (l : bytes) : list Z :=
  match l with
  | a :: b :: l' => (a + 256 * b) :: utf16_units l'
  | _ => []
  end.

Definition is_high (u : Z) : bool := (0xD800 <=? u) && (u <=? 0xDBFF).
Definition is_low (u : Z) : bool := (0xDC00 <=? u) && (u <=? 0xDFFF).

Fixpoint utf16_decode (l : list Z) : list Z :=
  match l with
  | [] => []
  | u :: l' =>
      if is_high u then
        match l' with
        | v :: l'' =>
            if is_low v
            then (0x10000 + (u - 0xD800) * 0x400 + (v - 0xDC00)) :: utf16_decode l''
            else 0xFFFD :: utf16_decode l'
        | [] => [0xFFFD]
        end
      else if is_low u then 0xFFFD :: utf16_decode l'
      else u :: utf16_decode l'
  end.

(** [text.rstrip("\x00")] *)
Fixpoint lstrip_nul (l : list Z) : list Z :=
  match l with
  | c :: l' => if c =? 0 then lstrip_nul l' else l
  | [] => []
  end.
Definition rstrip_nul (l : list Z) : list Z := rev (lstrip_nul (rev l)).

Definition parse_entry (data : bytes) (offset entry_size i : Z) : res LoaderEntry :=
  let base := offset + i * entry_size in
  if len data <? base + entry_size then Raise LoaderFormatError else
  let name_at := base + entry_size - ENTRY_TRAILER - ENTRY_NAME_BYTES in
  let name := rstrip_nul (utf16_decode (utf16_units (slice data name_at (name_at + ENTRY_NAME_BYTES)))) in
  let! data_offset := unpack_le 4 data (base + entry_size - ENTRY_TRAILER) in
  let! data_size := unpack_le 4 data (base + entry_size - ENTRY_TRAILER + 4) in
  let! delay := unpack_le 4 data (base + entry_size - ENTRY_TRAILER + 8) in
  if len data <? data_offset + data_size then Raise LoaderFormatError else
  Ok (mkEntry name (slice data data_offset (data_offset + data_size)) delay).

Fixpoint parse_entry_list (data : bytes) (offset entry_size : Z) (idxs : list Z) : res (list LoaderEntry) :=
  match idxs with
  | [] => Ok []
  | i :: idxs' =>
      let! e := parse_entry data offset entry_size i in
      let! es := parse_entry_list data offset entry_size idxs' in
      Ok (e :: es)
  end.

Definition parse_entries (data : bytes) (offset entry_size count : Z) : res (list LoaderEntry) :=
  if entry_size <? ENTRY_TRAILER + ENTRY_NAME_BYTES then Raise LoaderFormatError else
  parse_entry_list data offset entry_size (range count).

Definition table_at : Z := 4 + 2 + 4 + 4 + 7 + 4.

Definition parse_loader (data : bytes) : res LoaderBlobs :=
  if len data <? 64 then Raise LoaderFormatError else
  if negb (beq (slice data 0 4) TAG_BOOT || beq (slice data 0 4) TAG_LOADER)
  then Raise LoaderFormatError else
  let! n471 := unpack_le 1 data table_at in
  let! off471 := unpack_le 4 data (table_at + 1) in
  let! size471 := unpack_le 1 data (table_at + 5) in
  let! n472 := unpack_le 1 data (table_at + 6) in
  let! off472 := unpack_le 4 data (table_at + 7) in
  let! size472 := unpack_le 1 data (table_at + 11) in
  let! rc4_flag := index data (table_at + 6 + 6 + 6 + 1) in
  if (n471 =? 0) || (n472 =? 0) then Raise LoaderFormatError else
  let! ddr := parse_entries data off471 size471 n471 in
  let! usbplug := parse_entries data off472 size472 n472 in
  Ok (mkBlobs ddr usbplug (negb (rc4_flag =? 0))).

(** ** The boot ROM's checksum *)

Lemma be_bytes_2 c : b16 c -> be_bytes 2 c = [Z.land (Z.shiftr c 8) 0xFF; Z.land c 0xFF].
Proof. reflexivity. Qed.

(** Running the CRC over a payload and its CRC leaves zero. *)
Lemma xmodem_residue c :
  b16 c -> foldl xmodem_byte c [Z.land (Z.shiftr c 8) 0xFF; Z.land c 0xFF] = 0.
Proof.
  intros Hc. cbn [foldl]. rewrite !xmodem_byte_mul, <- !mul_x8_lxor.
  assert (Z.land (Z.shiftr c 8) 0xFF = Z.shiftr c 8) as ->.
  { apply is_byte_land. unfold is_byte, b16 in *. rewrite Z.shiftr_div_pow2 by lia.
    split; [apply Z.div_pos; lia | apply Z.div_lt_upper_bound; lia]. }
  rewrite (split_byte c) at 1.
  rewrite (Z.lxor_comm (Z.shiftl _ 8)), Z.lxor_assoc, Z.lxor_nilpotent, Z.lxor_0_r.
  rewrite (mul_x8_low (Z.land c 0xFF)) by apply land_is_byte.
  by rewrite Z.lxor_nilpotent.
Qed.

Lemma rk_crc16_b16 data : b16 (rk_crc16 data).
Proof. apply land_b16. Qed.

Lemma rk_crc16_residue data :
  is_bytes data -> rk_crc16 (data ++ be_bytes 2 (rk_crc16 data)) = 0.
Proof.
  intros Hd. assert (Hi : b16 CRC16_INIT) by by vm_compute.
  destruct (rk_fold_xmodem data CRC16_INIT Hd Hi) as [Hf Hb].
  assert (Hc : rk_crc16 data = foldl xmodem_byte CRC16_INIT data).
  { unfold rk_crc16, rk_crc16_from. rewrite Hf. by apply b16_land. }
  rewrite be_bytes_2 by apply rk_crc16_b16. rewrite Hc.
  set (c := foldl xmodem_byte CRC16_INIT data) in *.
  destruct (rk_fold_xmodem (data ++ [Z.land (Z.shiftr c 8) 0xFF; Z.land c 0xFF]) CRC16_INIT) as [Hf' _]; [|done|].
  { apply Forall_app. split; [done|]. repeat constructor; apply land_is_byte. }
  unfold rk_crc16, rk_crc16_from. rewrite Hf', foldl_app. fold c.
  by rewrite xmodem_residue.
Qed.

Lemma maskrom_payload_len blob rc :
  let r := len blob mod CHUNK_SIZE in
  len (maskrom_payload blob rc) = len blob + (if r =? CHUNK_SIZE - 1 then 1 else 0) /\
  len (maskrom_payload blob rc) mod CHUNK_SIZE = (if r =? CHUNK_SIZE - 1 then 0 else r).
Proof.
  cbn zeta. assert (Hl : len (maskrom_payload blob rc) = len blob + (if len blob mod CHUNK_SIZE =? CHUNK_SIZE - 1 then 1 else 0)).
  { unfold maskrom_payload. destruct rc.
    - unfold len at 1, rc4. rewrite rc4_stream_length.
      case_match; [rewrite length_app; cbn|]; unfold len; lia.
    - case_match; [rewrite len_app; reflexivity | lia]. }
  split; [done|]. rewrite Hl. unfold CHUNK_SIZE.
  destruct (len blob mod 4096 =? 4096 - 1) eqn:E; b2p; [|by rewrite Z.add_0_r].
  rewrite Z.add_mod, E by lia. done.
Qed.

Lemma maskrom_payload_is_bytes blob rc : is_bytes blob -> is_bytes (maskrom_payload blob rc).
Proof.
  intros Hb. assert (is_bytes (if len blob mod CHUNK_SIZE =? CHUNK_SIZE - 1 then blob ++ [0] else blob)).
  { case_match; [|done]. apply Forall_app. split; [done|]. repeat constructor; by compute. }
  unfold maskrom_payload. destruct rc; [|done]. apply rc4_stream_is_bytes; [done|]. apply rc4_ksa_is_bytes.
Qed.

(**  The chunks of a boot ROM upload: all but the closing ones are full,
    the CRC ends one chunk and is never cut by a chunk boundary, the last
    chunk sent is short (so the transfer is seen to end) and not empty, the
    chunks before the terminator are the (padded, perhaps encrypted) blob and
    its CRC, and the boot ROM's check over them gives zero. *)
Theorem maskrom_chunks_spec blob rc :
  is_bytes blob ->
  let payload := maskrom_payload blob rc in
  let crc := be_bytes 2 (rk_crc16 payload) in
  exists full fin term,
    build_maskrom_chunks blob rc = Ok (full ++ [fin ++ crc] ++ term)
    /\ Forall (fun c => len c = CHUNK_SIZE) full
    /\ concat full ++ fin = payload
    /\ rk_crc16 (payload ++ crc) = 0
    /\ (if len blob mod CHUNK_SIZE =? CHUNK_SIZE - 2
        then len fin + 2 = CHUNK_SIZE /\ term = [[0]]
        else len fin + 2 < CHUNK_SIZE /\ term = []).
Proof.
  intros Hb payload crc.
  destruct (maskrom_payload_len blob rc) as [_ Hmod]. fold payload in Hmod.
  set (k := len payload / CHUNK_SIZE). pose proof (len_nonneg payload) as Hp.
  assert (Hk : 0 <= k) by (apply Z.div_pos; [done | by compute]).
  pose proof (Z.div_mod (len payload) CHUNK_SIZE ltac:(done)) as Hdm. fold k in Hdm.
  pose proof (Z.mod_pos_bound (len blob) CHUNK_SIZE ltac:(done)) as Hr.
  pose proof (Z.mod_pos_bound (len payload) CHUNK_SIZE ltac:(done)) as Hr'.
  set (a := take (Z.to_nat (k * CHUNK_SIZE)) payload). set (fin := drop (Z.to_nat (k * CHUNK_SIZE)) payload).
  unfold CHUNK_SIZE in *.
  assert (Ha : len a = Z.of_nat (Z.to_nat k) * 4096) by (unfold a; rewrite len_take; lia).
  assert (Hf : len fin = len payload mod 4096) by (unfold fin; rewrite len_drop; lia).
  assert (Hc : len crc = 2) by (apply be_bytes_len; lia).
  exists (pieces 4096 a), fin, (if len blob mod 4096 =? 4096 - 2 then [[0]] else []). split_and!.
  - unfold build_maskrom_chunks. fold payload. unfold pack_be.
    replace (fits 2 (rk_crc16 payload)) with true
      by (symmetry; apply fits_spec; pose proof (rk_crc16_b16 payload); unfold b16 in *; lia).
    cbn [res_bind]. fold crc. unfold CHUNK_SIZE.
    replace (payload ++ crc) with (a ++ fin ++ crc) by (unfold a, fin; by rewrite app_assoc, take_drop).
    rewrite (pieces_app 4096 a _ (Z.to_nat k)) by (done || lia).
    rewrite (pieces_one 4096 (fin ++ crc)) by (rewrite len_app; case_match; b2p; lia).
    destruct (len blob mod 4096 =? 4096 - 2); [by rewrite <- app_assoc | done].
  - apply (pieces_full 4096 a (Z.to_nat k)); [lia|done].
  - rewrite pieces_concat by lia. apply take_drop.
  - apply rk_crc16_residue. by apply maskrom_payload_is_bytes.
  - destruct (len blob mod 4096 =? 4096 - 2) eqn:E; b2p; (split; [|done]); case_match; b2p; lia.
Qed.

Lemma maskrom_chunks_spec_witness :
  exists full fin term,
    build_maskrom_chunks (brep 5000 7) true = Ok (full ++ [fin ++ be_bytes 2 (rk_crc16 (maskrom_payload (brep 5000 7) true))] ++ term)
    /\ term = [].
Proof.
  destruct (maskrom_chunks_spec (brep 5000 7) true) as (full & fin & term & H & _ & _ & _ & Ht).
  - apply Forall_replicate. by compute.
  - assert (E : (len (brep 5000 7) mod CHUNK_SIZE =? CHUNK_SIZE - 2) = false) by (vm_compute; reflexivity).
    rewrite E in Ht. exists full, fin, term. split; [exact H | exact (proj2 Ht)].
Defined.

(** ** The container *)

(** [r] is a value with [P], or the loader's own error. *)
Definition or_format_error {A} (P : A -> Prop) (r : res A) : Prop :=
  match r with Ok a => P a | Raise e => e = LoaderFormatError | Diverge => False end.

Lemma or_format_error_bind {A B} (P : A -> Prop) (Q : B -> Prop) (m : res A) f :
  or_format_error P m -> (forall a, P a -> or_format_error Q (f a)) -> or_format_error Q (res_bind m f).
Proof. destruct m; cbn; auto. Qed.

Lemma or_format_error_unpack n data off :
  0 <= n -> off + n <= len data -> is_bytes data ->
  or_format_error (fun z => unpack_le n data off = Ok z /\ 0 <= z) (unpack_le n data off).
Proof.
  intros Hn Hl Hd. destruct (unpack_le n data off) as [z|e|] eqn:E; cbn.
  - split; [done|]. by eapply unpack_le_nonneg.
  - revert E. unfold unpack_le. rewrite (proj2 (Z.leb_le _ _) Hl). done.
  - revert E. unfold unpack_le. rewrite (proj2 (Z.leb_le _ _) Hl). done.
Qed.

(** An entry's blob is a part of the file. *)
Definition entry_in (data : bytes) (e : LoaderEntry) : Prop :=
  exists off, 0 <= off /\ off + len (le_data e) <= len data /\
    le_data e = slice data off (off + len (le_data e)).

Lemma parse_entry_sound data offset size i :
  is_bytes data -> ENTRY_TRAILER + ENTRY_NAME_BYTES <= size -> 0 <= offset -> 0 <= i ->
  or_format_error (entry_in data) (parse_entry data offset size i).
Proof.
  unfold ENTRY_TRAILER, ENTRY_NAME_BYTES. intros Hd Hs Ho Hi. unfold parse_entry.
  destruct (len data <? _) eqn:E; [done|]. b2p. unfold ENTRY_TRAILER.
  eapply or_format_error_bind; [apply or_format_error_unpack; (done || nia)|]. intros o [_ Hoff].
  eapply or_format_error_bind; [apply or_format_error_unpack; (done || nia)|]. intros sz [_ Hsz].
  eapply or_format_error_bind; [apply or_format_error_unpack; (done || nia)|]. intros d _.
  destruct (len data <? _) eqn:E2; [done|]. b2p. cbn. exists o. cbn.
  rewrite len_slice by lia. replace (Z.max _ _) with sz by lia. split_and!; (done || lia).
Qed.

Lemma parse_entry_list_sound data offset size idxs :
  is_bytes data -> ENTRY_TRAILER + ENTRY_NAME_BYTES <= size -> 0 <= offset -> Forall (fun i => 0 <= i) idxs ->
  or_format_error (fun es => length es = length idxs /\ Forall (entry_in data) es)
    (parse_entry_list data offset size idxs).
Proof.
  intros Hd Hs Ho Hi. induction Hi as [|i idxs Hi Hidxs IH]; [done|]. cbn [parse_entry_list].
  eapply or_format_error_bind; [by apply parse_entry_sound|]. intros e He.
  eapply or_format_error_bind; [exact IH|]. intros es [Hl Hes]. cbn. split; [lia|]. by constructor.
Qed.

Lemma parse_entries_sound data offset size count :
  is_bytes data -> 0 <= offset ->
  or_format_error (fun es => length es = Z.to_nat count /\ Forall (entry_in data) es)
    (parse_entries data offset size count).
Proof.
  intros Hd Ho. unfold parse_entries. destruct (size <? _) eqn:E; [done|]. b2p.
  replace (Z.to_nat count) with (length (range count)) by (unfold range; by rewrite length_fmap, length_seq).
  apply parse_entry_list_sound; [done|done|done|].
  unfold range. apply Forall_fmap, Forall_true. intros. cbn. lia.
Qed.

(**  Whatever file is given as a loader, parsing returns blobs or raises
    [LoaderFormatError], never another exception; what it returns has as many
    DDR and usbplug entries as the header declares, at least one of each, and
    every blob is a part of the file, none reaches past its end. *)
Theorem parse_loader_sound data :
  is_bytes data ->
  match parse_loader data with
  | Ok b =>
      (exists n471 n472, unpack_le 1 data 25 = Ok n471 /\ unpack_le 1 data 31 = Ok n472
        /\ 0 < n471 /\ 0 < n472 /\ len (lb_ddr b) = n471 /\ len (lb_usbplug b) = n472)
      /\ Forall (entry_in data) (lb_ddr b) /\ Forall (entry_in data) (lb_usbplug b)
  | Raise e => e = LoaderFormatError
  | Diverge => False
  end.
Proof.
  intros Hd. match goal with |- match _ with Ok b => @?P b | _ => _ end =>
    change (or_format_error P (parse_loader data)) end.
  unfold parse_loader. destruct (len data <? 64) eqn:E; [done|]. b2p.
  destruct (negb _); [done|].
  eapply or_format_error_bind; [apply or_format_error_unpack; (done || unfold table_at; lia)|]. intros n1 [Hn1 ?].
  eapply or_format_error_bind; [apply or_format_error_unpack; (done || unfold table_at; lia)|]. intros o1 [_ ?].
  eapply or_format_error_bind; [apply or_format_error_unpack; (done || unfold table_at; lia)|]. intros s1 _.
  eapply or_format_error_bind; [apply or_format_error_unpack; (done || unfold table_at; lia)|]. intros n2 [Hn2 ?].
  eapply or_format_error_bind; [apply or_format_error_unpack; (done || unfold table_at; lia)|]. intros o2 [_ ?].
  eapply or_format_error_bind; [apply or_format_error_unpack; (done || unfold table_at; lia)|]. intros s2 _.
  assert (exists f, index data (table_at + 6 + 6 + 6 + 1) = Ok f) as [f ->].
  { unfold index. destruct (data !! Z.to_nat (table_at + 6 + 6 + 6 + 1)) eqn:Ef; [by eexists|].
    apply lookup_ge_None in Ef. unfold table_at, len in *. lia. }
  cbn [res_bind]. destruct ((n1 =? 0) || (n2 =? 0)) eqn:En; [done|]. b2p.
  eapply or_format_error_bind; [by apply parse_entries_sound|]. intros ddr [Hl1 Hddr].
  eapply or_format_error_bind; [by apply parse_entries_sound|]. intros plug [Hl2 Hplug].
  cbn. split; [|done]. exists n1, n2. unfold len. split_and!; (done || lia).
Qed.

Definition example_loader : bytes :=
  TAG_BOOT ++ brep 21 0 ++ [1; 64; 0; 0; 0; 57] ++ [1; 121; 0; 0; 0; 57] ++ brep 6 0 ++ [0; 1] ++ brep 19 0
  ++ brep 45 0 ++ [178; 0; 0; 0; 3; 0; 0; 0; 0; 0; 0; 0]
  ++ brep 45 0 ++ [181; 0; 0; 0; 2; 0; 0; 0; 10; 0; 0; 0] ++ [1; 2; 3; 4; 5].

Lemma parse_loader_sound_witness :
  exists b, parse_loader example_loader = Ok b /\ le_data <$> lb_ddr b = [[1; 2; 3]]
    /\ le_data <$> lb_usbplug b = [[4; 5]] /\ Forall (entry_in example_loader) (lb_ddr b).
Proof.
  pose proof (parse_loader_sound example_loader) as H.
  assert (Hb : is_bytes example_loader) by (apply (bool_decide_unpack _); vm_compute; exact I).
  specialize (H Hb). destruct (parse_loader example_loader) as [b|e|] eqn:E; [|vm_compute in E; discriminate E..].
  exists b. destruct H as (_ & H1 & _). vm_compute in E. injection E as <-.
  split_and!; [reflexivity|reflexivity|reflexivity|exact H1].
Defined.

(** ** Block ranges *)

(** The transfers are consecutive, not empty, at most [max] long and cover the
    range. *)
Fixpoint covers (start total max : Z) (l : list (Z * Z)) : Prop :=
  match l with
  | [] => total = 0
  | (lba, count) :: l' => lba = start /\ 0 < count <= max /\ count <= total /\ covers (start + count) (total - count) max l'
  end.

Lemma split_loop_covers fuel start total max :
  0 < max -> 0 <= total <= Z.of_nat fuel -> covers start total max (split_loop fuel start total max).
Proof.
  intros Hm. revert start total. induction fuel as [|fuel IH]; intros start total Ht; cbn; [lia|].
  destruct (0 <? total) eqn:E; b2p; cbn; [|lia]. split_and!; [done|lia|lia|lia|]. apply IH. lia.
Qed.

Lemma split_lba_transfers_covers start total max :
  0 <= total -> 0 < max ->
  exists l, split_lba_transfers start total max = Ok l /\ covers start total max l.
Proof.
  intros Ht Hm. unfold split_lba_transfers.
  replace (total <? 0) with false by (symmetry; apply Z.ltb_ge; lia).
  replace (max <=? 0) with false by (symmetry; apply Z.leb_gt; lia).
  eexists. split; [done|]. apply split_loop_covers; lia.
Qed.
