(* ===== verification/Rockusb.v ===== *)
(** * Rockchip USB: the device and the recovery

  Models [src/src/defib/rockusb/device.py] (finding a device, opening it, the
  control and bulk transfers, [command]) and [rockusb/recovery.py] (the loader
  upload, block reads and writes, reset).  pyusb, which is not part of the
  repository, is the class [Usb]: one field per call the code makes, with no
  law assumed.  The mutable fields of [RockusbDevice] are the object of the
  monad, beside a ghost list of the transfers made; the recovery's own field
  is the device it currently holds.  Times are in microseconds.  Progress
  callbacks and log messages are left out. *)

From stdpp Require Import pretty.
From S2P Require Import Prelude Crc Transport RockusbCodec.

(** ** Devices on the bus *)

Inductive DeviceMode := MASKROM | LOADER.

#[export] Instance DeviceMode_eq_dec : EqDecision DeviceMode.
Proof. solve_decision. Defined.

(** What the code reads of a [usb.core.Device]; [ud_id] is the handle. *)
Record UsbDev := mkUsbDev {
  ud_id : Z; idProduct : Z; iProduct : Z; iManufacturer : Z; ud_bus : Z; ud_address : Z; ud_ports : list Z
}.

Record FoundDevice := mkFound {
  fd_mode : DeviceMode; fd_bus : Z; fd_address : Z; product_id : Z; handle : UsbDev; port_numbers : list Z
}.

Fixpoint join_dots (l : list Z) : string :=
  match l with
  | [] => ""
  | [p] => pretty p
  | p :: l' => (pretty p +:+ "." +:+ join_dots l')%string
  end.

Definition usb_path (d : FoundDevice) : string :=
  if bool_decide (port_numbers d = []) then (pretty (fd_bus d) +:+ "-?")%string
  else (pretty (fd_bus d) +:+ "-" +:+ join_dots (port_numbers d))%string.

Definition classify (dev : UsbDev) : DeviceMode :=
  if negb (iProduct dev =? 0) || negb (iManufacturer dev =? 0) then LOADER else MASKROM.

(** [recovery_ids] empty or None: no restriction. *)
Definition is_recovery_id (recovery_ids : list Z) (dev : UsbDev) : bool :=
  bool_decide (recovery_ids = []) || bool_decide (idProduct dev ∈ recovery_ids).

Definition found_of (dev : UsbDev) : FoundDevice :=
  mkFound (classify dev) (ud_bus dev) (ud_address dev) (idProduct dev) dev (ud_ports dev).

(** [find_devices] on what the scan of the vendor's devices returned. *)
Definition find_devices (path : option string) (recovery_ids : list Z) (scan : list UsbDev) : list FoundDevice :=
  List.filter (fun f => match path with None => true | Some p => bool_decide (usb_path f = p) end)
    (found_of <$> List.filter (is_recovery_id recovery_ids) scan).

Definition find_device (path : option string) (recovery_ids : list Z) (scan : list UsbDev) : res (option FoundDevice) :=
  match find_devices path recovery_ids scan with
  | [] => Ok None
  | [d] => Ok (Some d)
  | _ => Raise RockusbUsbError
  end.

(** ** USB calls *)

(** An endpoint, as far as the code looks: its address and its
    [wMaxPacketSize], 0 if it has none. *)
Record Endpoint := mkEp { ep_address : Z; wMaxPacketSize : Z }.

(** An interface of the active configuration, with what [find_descriptor]
    returns for its bulk OUT and bulk IN endpoint. *)
Record Intf := mkIntf { bInterfaceNumber : Z; bulk_out : option Endpoint; bulk_in : option Endpoint }.

Class Usb (D : Type) := {
  u_find : D -> res (list UsbDev) * D;
  u_get_configuration : UsbDev -> D -> res (list Intf) * D;
  u_set_configuration : UsbDev -> D -> res unit * D;
  u_driver_active : UsbDev -> Z -> D -> res bool * D;
  u_detach : UsbDev -> Z -> D -> res unit * D;
  u_attach : UsbDev -> Z -> D -> res unit * D;
  u_claim : UsbDev -> Z -> D -> res unit * D;
  u_release : UsbDev -> Z -> D -> res unit * D;
  u_dispose : UsbDev -> D -> res unit * D;
  u_clear_halt : Endpoint -> D -> res unit * D;
  u_read : Endpoint -> Z -> Z -> D -> res bytes * D;
  u_write : Endpoint -> bytes -> Z -> D -> res Z * D;
  u_ctrl_transfer : UsbDev -> Z -> Z -> Z -> Z -> bytes -> Z -> D -> res Z * D;
  u_randbits : D -> Z * D;
  u_time : D -> Z * D;
  u_sleep : Z -> D -> D
}.

(** Transfers made, with their outcome. *)
Inductive uevent :=
  | UWrite (d : bytes) (r : res Z)
  | URead (n : Z) (r : res bytes)
  | UCtrl (code : Z) (d : bytes) (r : res Z).

Record RockusbDevice := mkDevice {
  rd_found : FoundDevice;
  timeout_ms : Z;
  rd_interface : option Z;
  ep_in : option Endpoint;
  ep_out : option Endpoint;
  detached_interface : option Z;
  ulog : list uevent
}.

Definition new_device (found : FoundDevice) (l : list uevent) : RockusbDevice :=
  mkDevice found 5000 None None None None l.

Definition set_bulk (i : Z) (pin pout : Endpoint) (d : RockusbDevice) : RockusbDevice :=
  mkDevice (rd_found d) (timeout_ms d) (Some i) (Some pin) (Some pout) (detached_interface d) (ulog d).
Definition set_detached (o : option Z) (d : RockusbDevice) : RockusbDevice :=
  mkDevice (rd_found d) (timeout_ms d) (rd_interface d) (ep_in d) (ep_out d) o (ulog d).
Definition record_event (e : uevent) (d : RockusbDevice) : RockusbDevice :=
  mkDevice (rd_found d) (timeout_ms d) (rd_interface d) (ep_in d) (ep_out d) (detached_interface d) (ulog d ++ [e]).

Definition is_USBError (e : exn) : bool := bool_decide (e = USBError).
Definition is_RockusbUsbError (e : exn) : bool := bool_decide (e = RockusbUsbError).

Section Device.
Context {D : Type} `{Usb D}.
Variable fuel : nat.

Abbreviation MU := (M D RockusbDevice).

(** A call that only changes the bus. *)
Definition call {A} (f : D -> res A * D) : MU A := fun w =>
  let (r, d) := f (tr w) in (r, World d (obj w) (log w)).
Definition randbits : MU Z := call (fun d => let (z, d) := u_randbits d in (Ok z, d)).
Definition loop_time : MU Z := call (fun d => let (z, d) := u_time d in (Ok z, d)).
Definition usleep (t : Z) : MU unit := call (fun d => (Ok tt, u_sleep t d)).

Definition logged {A} (ev : res A -> uevent) (f : D -> res A * D) : MU A := fun w =>
  let (r, d) := f (tr w) in (r, World d (record_event (ev r) (obj w)) (log w)).

Definition wait_body (mode : option DeviceMode) (path : option string) (recovery_ids : list Z)
    (poll_interval deadline : Z) (_ : unit) : MU (ctl unit FoundDevice) :=
  let* now := loop_time in
  if negb (now <? deadline) then ret (Brk tt) else
  let* scan := call u_find in
  let* found := lift (find_device path recovery_ids scan) in
  match found with
  | Some f =>
      if bool_decide (mode = None \/ mode = Some (fd_mode f)) then ret (Rtn f)
      else let* _ := usleep poll_interval in ret (Next tt)
  | None => let* _ := usleep poll_interval in ret (Next tt)
  end.

Definition wait_for_device (timeout : Z) (mode : option DeviceMode) (poll_interval : Z) (path : option string)
    (recovery_ids : list Z) : MU FoundDevice :=
  let* now := loop_time in
  let* c := while fuel (wait_body mode path recovery_ids poll_interval (now + timeout)) tt in
  match c with
  | Rtn f => ret f
  | _ => raise RockusbUsbError
  end.

(** ** RockusbDevice *)

Definition reattach_kernel_driver : MU unit :=
  let* d := get_obj in
  match detached_interface d with
  | None => ret tt
  | Some n =>
      let* _ := try_except (call (u_attach (handle (rd_found d)) n)) is_Exception (fun _ => ret tt) in
      let* d := get_obj in
      put_obj (set_detached None d)
  end.

Definition mps_of (e : Endpoint) : Z := if wMaxPacketSize e =? 0 then 512 else wMaxPacketSize e.

Definition ep_read (n timeout : Z) : MU bytes :=
  let* d := get_obj in
  match ep_in d with
  | Some e => logged (URead n) (u_read e n timeout)
  | None => raise RuntimeError
  end.

Definition ep_write (data : bytes) : MU Z :=
  let* d := get_obj in
  match ep_out d with
  | Some e => logged (UWrite data) (u_write e data (timeout_ms d))
  | None => raise RuntimeError
  end.

Definition clear_stalls : MU unit :=
  let* d := get_obj in
  let* _ := foreach (R := unit) [ep_out d; ep_in d] (fun ep _ =>
    match ep with
    | None => ret (Next tt)
    | Some e => let* _ := try_except (call (u_clear_halt e)) is_Exception (fun _ => ret tt) in ret (Next tt)
    end) tt in
  ret tt.

Definition drain_stale_input : MU unit :=
  let* d := get_obj in
  match ep_in d with
  | None => ret tt
  | Some e =>
      let* _ := foreach (R := unit) (range 8) (fun _ _ =>
        let* stale := try_except (let* b := ep_read (mps_of e) 50 in ret (Some b)) is_Exception (fun _ => ret None) in
        match stale with
        | None | Some [] => ret (Rtn tt)
        | Some _ => ret (Next tt)
        end) tt in
      ret tt
  end.

(** The first interface with both bulk endpoints. *)
Fixpoint find_bulk (cfg : list Intf) : option (Z * Endpoint * Endpoint) :=
  match cfg with
  | [] => None
  | i :: cfg' =>
      match bulk_in i, bulk_out i with
      | Some pin, Some pout => Some (bInterfaceNumber i, pin, pout)
      | _, _ => find_bulk cfg'
      end
  end.

Definition open_claim (number : Z) : MU unit :=
  let* d := get_obj in
  let dev := handle (rd_found d) in
  let* _ := try_except
    (let* active := call (u_driver_active dev number) in
     if active : bool then
       let* _ := call (u_detach dev number) in
       let* d := get_obj in
       put_obj (set_detached (Some number) d)
     else ret tt)
    (fun e => bool_decide (e = NotImplementedError) || is_USBError e) (fun _ => ret tt) in
  try_except
    (let* _ := call (u_claim dev number) in
     let* _ := clear_stalls in
     drain_stale_input)
    is_USBError
    (fun _ => let* _ := reattach_kernel_driver in raise RockusbUsbError).

Definition device_open : MU unit :=
  let* d := get_obj in
  let dev := handle (rd_found d) in
  let* cfg := try_except (call (u_get_configuration dev)) is_USBError (fun _ =>
    let* _ := try_except (call (u_set_configuration dev)) is_USBError (fun _ => raise RockusbUsbError) in
    call (u_get_configuration dev)) in
  let* _ := match find_bulk cfg with
            | Some (i, pin, pout) => put_obj (set_bulk i pin pout d)
            | None => ret tt
            end in
  let* d := get_obj in
  match rd_interface d with
  | None => if bool_decide (fd_mode (rd_found d) = MASKROM) then ret tt else raise RockusbUsbError
  | Some number => open_claim number
  end.

Definition device_close : MU unit :=
  let* d := get_obj in
  let dev := handle (rd_found d) in
  let* _ := try_except
    (let* _ := match rd_interface d with Some n => call (u_release dev n) | None => ret tt end in
     call (u_dispose dev)) is_Exception (fun _ => ret tt) in
  reattach_kernel_driver.

Definition control_write (code : Z) (payload : bytes) : MU Z :=
  let* d := get_obj in
  try_except
    (let* written := logged (UCtrl code payload)
       (u_ctrl_transfer (handle (rd_found d)) 0x40 0x0C 0x0000 code payload (timeout_ms d)) in
     if negb (written =? len payload) then raise RockusbUsbError else ret written)
    is_Exception (fun _ => raise RockusbUsbError).

Definition read_bulk (length : Z) : MU bytes :=
  let* d := get_obj in
  match ep_in d with
  | None => raise RuntimeError
  | Some e =>
      let mps := mps_of e in
      let rounded := ((length + mps - 1) / mps) * mps in
      let* data := ep_read rounded (timeout_ms d) in
      ret (slice data 0 length)
  end.

Definition write_bulk (data : bytes) : MU unit :=
  let* written := try_except (ep_write data) is_Exception (fun _ => raise RockusbUsbError) in
  if negb (written =? len data) then raise RockusbUsbError else ret tt.

Definition require_bulk : MU unit :=
  let* d := get_obj in
  if bool_decide (ep_in d = None) || bool_decide (ep_out d = None) then raise RockusbUsbError else ret tt.

(** The data phase of a command. *)
Definition data_phase (data_out : bytes) (read_length : Z) : MU bytes :=
  if 0 <? read_length then read_bulk read_length
  else if negb (bool_decide (data_out = [])) then let* _ := write_bulk data_out in ret []
  else ret [].

(** [command]; [data_out] is empty for None, which the code treats alike. *)
Definition command (opcode subcode address count : Z) (data_out : bytes) (read_length : Z)
    (tolerate_disconnect : bool) : MU bytes :=
  let* _ := require_bulk in
  let* tag := randbits in
  let direction_in := 0 <? read_length in
  let transfer_length := if direction_in then read_length else len data_out in
  let* cbw := lift (build_cbw tag opcode subcode address count transfer_length direction_in) in
  let* _ := write_bulk cbw in
  let* payload := try_except (data_phase data_out read_length) is_Exception (fun _ => raise RockusbUsbError) in
  let* d := get_obj in
  let* csw := try_except (let* b := ep_read CSW_LENGTH (timeout_ms d) in ret (Some b)) is_Exception
    (fun _ => if tolerate_disconnect then ret None else raise RockusbUsbError) in
  match csw with
  | None => ret []
  | Some csw =>
      let* p := lift (parse_csw csw (Some tag)) in
      let '(_, residue, status) := p in
      if negb (status =? STATUS_OK) then raise RockusbUsbError else
      if negb (residue =? 0) && residue_is_meaningful opcode then raise RockusbUsbError else
      if direction_in && negb (len payload =? read_length) then raise RockusbUsbError else
      ret payload
  end.

(** ** RockchipRecovery *)

Definition USBPLUG_SETTLE : Z := 1000000.

Definition upload (code : Z) (blob : bytes) (use_rc4 : bool) : MU unit :=
  let* chunks := lift (build_maskrom_chunks blob use_rc4) in
  let* _ := foreach (R := unit) chunks (fun chunk _ =>
    let* _ := control_write code chunk in ret (Next tt)) tt in
  ret tt.

Definition upload_entries (code : Z) (rc4 : bool) (es : list LoaderEntry) : MU unit :=
  let* _ := foreach (R := unit) es (fun e _ =>
    let* _ := upload code (le_data e) rc4 in
    if negb (delay_ms e =? 0) then let* _ := usleep (delay_ms e * 1000) in ret (Next tt)
    else ret (Next tt)) tt in
  ret tt.

(** The wait for the re-enumerated device, which becomes the held one. *)
Definition reacquire (timeout : Z) (mode : DeviceMode) (path : option string) (recovery_ids : list Z) : MU unit :=
  let* _ := device_close in
  let* _ := usleep USBPLUG_SETTLE in
  let* found := wait_for_device timeout (Some mode) 250000 path recovery_ids in
  let* d := get_obj in
  let* _ := put_obj (new_device found (ulog d)) in
  device_open.

Definition download_boot (blobs : LoaderBlobs) (reenumerate_timeout : Z) (path : option string)
    (recovery_ids : list Z) : MU unit :=
  let* d := get_obj in
  if negb (bool_decide (fd_mode (rd_found d) = MASKROM)) then ret tt else
  let* _ := upload_entries CODE_471 (use_rc4 blobs) (lb_ddr blobs) in
  let* _ := upload_entries CODE_472 (use_rc4 blobs) (lb_usbplug blobs) in
  reacquire reenumerate_timeout LOADER path recovery_ids.

Definition pad_sector (data : bytes) : bytes :=
  if negb (len data mod SECTOR_SIZE =? 0)
  then data ++ brep (SECTOR_SIZE - len data mod SECTOR_SIZE) 0 else data.

Definition write_transfer (start_lba : Z) (data : bytes) (x : Z * Z) (_ : unit) : MU (ctl unit unit) :=
  let '(lba, count) := x in
  let offset := (lba - start_lba) * SECTOR_SIZE in
  let* _ := command WRITE_LBA 0 lba count (slice data offset (offset + count * SECTOR_SIZE)) 0 false in
  ret (Next tt).

Definition write_image (start_lba : Z) (data : bytes) : MU unit :=
  let data := pad_sector data in
  let total := len data / SECTOR_SIZE in
  let* l := lift (split_lba_transfers start_lba total MAX_SECTORS_PER_TRANSFER) in
  let* _ := foreach l (write_transfer start_lba data) tt in
  ret tt.

Definition read_transfer (x : Z * Z) (out : bytes) : MU (ctl bytes unit) :=
  let '(lba, count) := x in
  let* b := command READ_LBA 0 lba count [] (count * SECTOR_SIZE) false in
  ret (Next (out ++ b)).

Definition read_image (start_lba sectors : Z) : MU bytes :=
  let* l := lift (split_lba_transfers start_lba sectors MAX_SECTORS_PER_TRANSFER) in
  let* c := foreach l read_transfer [] in
  match c with
  | Next out | Brk out => ret out
  | Rtn _ => ret []
  end.

(** [dump_image]: the chunks handed to [sink], and the count returned. *)
Definition dump_transfer (x : Z * Z) (s : list bytes * Z) : MU (ctl (list bytes * Z) unit) :=
  let '(lba, count) := x in
  let '(chunks, done) := s in
  let* chunk := command READ_LBA 0 lba count [] (count * SECTOR_SIZE) false in
  ret (Next (chunks ++ [chunk], done + len chunk)).

Definition dump_image (start_lba sectors : Z) : MU (list bytes * Z) :=
  let* l := lift (split_lba_transfers start_lba sectors MAX_SECTORS_PER_TRANSFER) in
  let* c := foreach l dump_transfer ([], 0) in
  match c with
  | Next s | Brk s => ret s
  | Rtn _ => ret ([], 0)
  end.

Definition read_flash_info : MU FlashInfo :=
  let* b := command READ_FLASH_INFO 0 0 0 [] FLASH_INFO_LENGTH false in
  lift (parse_flash_info b).

Definition read_flash_id : MU bytes := command READ_FLASH_ID 0 0 0 [] 5 false.

Definition reset (subcode : Z) : MU unit :=
  let* _ := command RESET_DEVICE subcode 0 0 [] 0 true in ret tt.

Definition return_to_maskrom (path : option string) (recovery_ids : list Z) (timeout : Z) : MU unit :=
  let* d := get_obj in
  if bool_decide (fd_mode (rd_found d) = MASKROM) then ret tt else
  let* _ := reset RESET_MASKROM in
  reacquire timeout MASKROM path recovery_ids.

End Device.

(** ** What a command does on any bus *)

Section Traces.
Context {D : Type} `{Usb D}.
Abbreviation W := (world D RockusbDevice).

(** [w'] is [w] with the transfers [l] made and nothing else changed. *)
Definition did (w w' : W) (l : list uevent) : Prop :=
  exists d, w' = World d (foldl (fun o e => record_event e o) (obj w) l) (log w).

Lemma did_nil w d : did w (World d (obj w) (log w)) [].
Proof. by exists d. Qed.

Lemma did_trans w w' w'' l l' : did w w' l -> did w' w'' l' -> did w w'' (l ++ l').
Proof. intros [d ->] [d' ->]. exists d'. cbn. by rewrite foldl_app. Qed.

Lemma did_ulog w w' l : did w w' l -> ulog (obj w') = ulog (obj w) ++ l.
Proof.
  intros [d ->]. cbn. revert w. induction l as [|e l IH]; intros [t o lg]; cbn; [by rewrite app_nil_r|].
  pose proof (IH (World t (record_event e o) lg)) as IH'. cbn in IH'. rewrite IH'. by rewrite <- app_assoc.
Qed.

Lemma record_fields l o :
  let o' := foldl (fun o e => record_event e o) o l in
  ep_in o' = ep_in o /\ ep_out o' = ep_out o /\ timeout_ms o' = timeout_ms o.
Proof. cbn. revert o. induction l as [|e l IH]; intros o; cbn; [done|]. apply (IH (record_event e o)). Qed.

Lemma ep_read_did n t w b w' :
  ep_read n t w = (Ok b, w') -> did w w' [URead n (Ok b)].
Proof.
  unfold ep_read, bind, get_obj. cbn. destruct (ep_in (obj w)); [|done]. unfold logged.
  destruct (u_read _ _ _ _) as [r d]. intros [= -> <-]. by exists d.
Qed.

Lemma write_bulk_did data w w' :
  write_bulk data w = (Ok tt, w') -> did w w' [UWrite data (Ok (len data))].
Proof.
  unfold write_bulk, bind, try_except, ep_write, get_obj. cbn.
  unfold bind. cbn. destruct (ep_out (obj w)); [|done]. unfold logged.
  destruct (u_write _ _ _ _) as [[n|x|] d]; cbn; [|by destruct (is_Exception x)|done].
  destruct (n =? len data) eqn:E; cbn; [|done]. b2p. subst. intros [= <-]. by exists d.
Qed.

Lemma read_bulk_did length w b w' :
  read_bulk length w = (Ok b, w') -> exists n data, b = slice data 0 length /\ did w w' [URead n (Ok data)].
Proof.
  unfold read_bulk, bind at 1, get_obj. cbn. destruct (ep_in (obj w)); [|done].
  unfold bind. destruct (ep_read _ _ w) as [[data| |] w1] eqn:E; [|done..]. intros [= <- <-].
  eexists _, data. split; [done|]. by eapply ep_read_did.
Qed.

(** The transfers of a command that succeeded: the wrapper went out whole, the
    data phase moved exactly what was asked, and the status that came back
    carries the tag of the wrapper, no error and, where it counts, nothing
    left to move. *)
Definition exchange (opcode subcode address count : Z) (data_out : bytes) (read_length : Z)
    (payload : bytes) (l : list uevent) : Prop :=
  exists tag cbw phase csw t residue,
    build_cbw tag opcode subcode address count
      (if 0 <? read_length then read_length else len data_out) (0 <? read_length) = Ok cbw
    /\ l = UWrite cbw (Ok (len cbw)) :: phase ++ [URead CSW_LENGTH (Ok csw)]
    /\ parse_csw csw (Some tag) = Ok (t, residue, STATUS_OK)
    /\ (residue_is_meaningful opcode = true -> residue = 0)
    /\ (if 0 <? read_length
        then len payload = read_length /\ exists n data, phase = [URead n (Ok data)] /\ payload = slice data 0 read_length
        else payload = [] /\ phase = (if bool_decide (data_out = []) then [] else [UWrite data_out (Ok (len data_out))])).

Lemma data_phase_did data_out read_length w payload w' :
  data_phase data_out read_length w = (Ok payload, w') ->
  exists phase, did w w' phase /\
    (if 0 <? read_length
     then exists n data, phase = [URead n (Ok data)] /\ payload = slice data 0 read_length
     else payload = [] /\ phase = (if bool_decide (data_out = []) then [] else [UWrite data_out (Ok (len data_out))])).
Proof.
  unfold data_phase. destruct (0 <? read_length).
  - intros (n & data & -> & Hd)%read_bulk_did. eauto 10.
  - destruct (bool_decide (data_out = [])); cbn.
    + unfold ret. intros [= <- <-]. exists []. split; [|done]. by exists (tr w); destruct w.
    + unfold bind. destruct (write_bulk data_out w) as [[[]| |] w1] eqn:E; [|done..].
      intros [= <- <-]. apply write_bulk_did in E. eauto.
Qed.

Lemma command_did opcode subcode address count data_out read_length w payload w' :
  command opcode subcode address count data_out read_length false w = (Ok payload, w') ->
  exists l, did w w' l /\ exchange opcode subcode address count data_out read_length payload l.
Proof.
  unfold command, bind at 1, require_bulk, bind at 1, get_obj at 1.
  destruct (_ || _); cbn; [done|].
  unfold bind at 1, randbits, call. destruct (u_randbits (tr w)) as [tag d1].
  set (w1 := World d1 (obj w) (log w)). intros Hc. unfold bind at 1, lift at 1 in Hc.
  destruct (build_cbw _ _ _ _ _ _ _) as [cbw| |] eqn:Ecbw; [|done..].
  unfold bind at 1 in Hc. destruct (write_bulk cbw w1) as [[[]| |] w2] eqn:E2; [|done..].
  unfold bind at 1, try_except at 1 in Hc.
  destruct (data_phase data_out read_length w2) as [[p|x|] w3] eqn:E3; [|by destruct (is_Exception x)|done].
  unfold bind at 1, get_obj in Hc. unfold bind at 1, try_except, bind at 1 in Hc.
  destruct (ep_read CSW_LENGTH _ w3) as [[csw|x|] w4] eqn:E4; [|by destruct (is_Exception x)|done]. cbn [ret] in Hc.
  unfold bind at 1, lift in Hc.
  destruct (parse_csw csw (Some tag)) as [[[t residue] status]| |] eqn:E5; [|done..].
  destruct (negb (status =? STATUS_OK)) eqn:Es; [done|].
  destruct (negb (residue =? 0) && residue_is_meaningful opcode) eqn:Er; [done|].
  destruct ((0 <? read_length) && negb (len p =? read_length)) eqn:El; [done|].
  injection Hc as <- <-. apply write_bulk_did in E2. apply ep_read_did in E4.
  apply data_phase_did in E3 as (phase & E3 & Hp).
  exists ([UWrite cbw (Ok (len cbw))] ++ phase ++ [URead CSW_LENGTH (Ok csw)]). split.
  { eapply did_trans; [|eapply did_trans; eauto]. destruct E2 as [d2 E2]. by exists d2. }
  exists tag, cbw, phase, csw, t, residue. b2p. subst. split_and!; [done|done|done| |].
  - intros Hm. rewrite Hm in Er. destruct Er as [Er|Er]; b2p; done.
  - destruct (0 <? read_length); [|done]. cbn in El. destruct El as [El|El]; b2p; done.
Qed.

Lemma foreach_writes start data l w c w' :
  foreach l (write_transfer start data) tt w = (Ok c, w') ->
  exists ls, did w w' (concat ls) /\
    Forall2 (fun x l => exchange WRITE_LBA 0 x.1 x.2
      (slice data ((x.1 - start) * SECTOR_SIZE) ((x.1 - start) * SECTOR_SIZE + x.2 * SECTOR_SIZE)) 0 [] l) l ls.
Proof.
  revert w. induction l as [|[lba count] l IH]; intros w.
  - intros [= <- <-]. exists []. split; [by exists (tr w); destruct w|constructor].
  - cbn [foreach]. unfold bind at 1, write_transfer at 1, bind at 1.
    destruct (command _ _ _ _ _ _ _ w) as [[p| |] w1] eqn:E; [|done..]. unfold ret at 1.
    intros (ls & Hd & Hls)%IH. apply command_did in E as (l0 & Hd0 & Hx).
    exists (l0 :: ls). split; [by eapply did_trans|]. constructor; [|done]. cbn [fst snd].
    assert (p = []) as <-; [|done].
    destruct Hx as (? & ? & ? & ? & ? & ? & ? & ? & ? & ? & Hp). cbn in Hp. by destruct Hp.
Qed.

End Traces.

(** ** Chunks of an image *)

Lemma pad_sector_spec data :
  len (pad_sector data) = (len (pad_sector data) / SECTOR_SIZE) * SECTOR_SIZE /\
  exists n, 0 <= n < SECTOR_SIZE /\ pad_sector data = data ++ brep n 0.
Proof.
  unfold pad_sector, SECTOR_SIZE. pose proof (len_nonneg data).
  pose proof (Z.div_mod (len data) 512 ltac:(lia)) as Hdm. pose proof (Z.mod_pos_bound (len data) 512 ltac:(lia)).
  destruct (len data mod 512 =? 0) eqn:E; b2p; cbn [negb].
  - split; [lia|]. exists 0. split; [lia|]. by rewrite app_nil_r.
  - split; [|eexists; split; [|done]; lia].
    rewrite len_app, len_brep by lia.
    replace (len data + (512 - len data mod 512)) with ((len data / 512 + 1) * 512) by lia.
    by rewrite Z.div_mul.
Qed.

(** What transfer [x] carries of an image that starts at sector [start]. *)
Definition chunk_of (start : Z) (data : bytes) (x : Z * Z) : bytes :=
  slice data ((x.1 - start) * SECTOR_SIZE) ((x.1 - start) * SECTOR_SIZE + x.2 * SECTOR_SIZE).

Lemma covers_concat start data l : forall at_ total,
  start <= at_ -> covers at_ total MAX_SECTORS_PER_TRANSFER l ->
  len data = (at_ - start + total) * SECTOR_SIZE ->
  concat (chunk_of start data <$> l) = drop (Z.to_nat ((at_ - start) * SECTOR_SIZE)) data.
Proof.
  induction l as [|[lba count] l IH]; intros at_ total Ha Hc Hl; cbn [covers] in Hc.
  - subst. symmetry. apply drop_ge. unfold len in Hl. lia.
  - destruct Hc as (-> & Hcount & Ht & Hc). rewrite fmap_cons. cbn [concat].
    rewrite (IH (at_ + count) (total - count)); [|lia|done|rewrite Hl; f_equal; lia].
    unfold chunk_of, SECTOR_SIZE. cbn [fst snd]. rewrite slice_drop_take, Z.add_simpl_l.
    replace (Z.to_nat ((at_ + count - start) * 512))
      with (Z.to_nat ((at_ - start) * 512) + Z.to_nat (count * 512))%nat by lia.
    rewrite <- drop_drop. apply take_drop.
Qed.

(** C17.  Over any USB bus: when [write_image] returns, the image, zero-padded
    to whole sectors, went out as consecutive transfers of at most 512
    sectors, each a command wrapper and a chunk that the device took whole,
    answered by a status wrapper with the command's tag, status OK and nothing
    left over; a short transfer or an error never counts as written. *)
Theorem rockusb_write_safe {D} `{Usb D} start data (w : world D RockusbDevice) w' :
  write_image start data w = (Ok tt, w') ->
  exists l ls,
    covers start (len (pad_sector data) / SECTOR_SIZE) MAX_SECTORS_PER_TRANSFER l
    /\ concat (chunk_of start (pad_sector data) <$> l) = pad_sector data
    /\ (exists n, 0 <= n < SECTOR_SIZE /\ pad_sector data = data ++ brep n 0)
    /\ ulog (obj w') = ulog (obj w) ++ concat ls
    /\ Forall2 (fun x evs => exchange WRITE_LBA 0 x.1 x.2 (chunk_of start (pad_sector data) x) 0 [] evs) l ls.
Proof.
  destruct (pad_sector_spec data) as [Hlen Hpad]. pose proof (len_nonneg (pad_sector data)) as Hnn.
  destruct (split_lba_transfers_covers start (len (pad_sector data) / SECTOR_SIZE) MAX_SECTORS_PER_TRANSFER)
    as (l & Hl & Hc); [apply Z.div_pos; [done|by compute]|by compute|].
  unfold write_image. rewrite Hl. unfold bind at 1, lift. unfold bind.
  destruct (foreach _ _ _ w) as [[c| |] w1] eqn:E; [|done..]. intros [= <-].
  apply foreach_writes in E as (ls & Hd & Hx). exists l, ls. split_and!; [done| |done|by apply did_ulog|exact Hx].
  rewrite (covers_concat start _ l start _ ltac:(lia) Hc) by (rewrite Z.sub_diag; done).
  by rewrite Z.sub_diag.
Qed.

(** ** A usbplug *)

(** A loader-stage device: its flash, the write it is waiting for, and the
    transfers it has ready to be read.  It reads the wrapper at the offsets of
    the mass-storage layout. *)
Record Plug := mkPlug { flash : bytes; awaiting : option (Z * Z * Z); ready : list bytes; next_tag : Z }.

Definition cbw_tag (d : bytes) : Z := le_int (slice d 4 8).
Definition cbw_opcode (d : bytes) : Z := be_int (slice d 15 16).
Definition cbw_lba (d : bytes) : Z := be_int (slice d 17 21).
Definition cbw_count (d : bytes) : Z := be_int (slice d 22 24).
Definition csw_ok (tag : Z) : bytes := CSW_SIGNATURE ++ le_bytes 4 tag ++ le_bytes 4 0 ++ [0].

Definition plug_write (d : bytes) (p : Plug) : res Z * Plug :=
  match awaiting p with
  | Some (tag, lba, count) =>
      if len d =? count * SECTOR_SIZE
      then (Ok (len d), mkPlug (splice (flash p) (lba * SECTOR_SIZE) d) None (ready p ++ [csw_ok tag]) (next_tag p))
      else (Raise USBError, p)
  | None =>
      if (len d =? CBW_LENGTH) && beq (slice d 0 4) CBW_SIGNATURE &&
         ((cbw_lba d + cbw_count d) * SECTOR_SIZE <=? len (flash p)) then
        if cbw_opcode d =? WRITE_LBA
        then (Ok (len d), mkPlug (flash p) (Some (cbw_tag d, cbw_lba d, cbw_count d)) (ready p) (next_tag p))
        else if cbw_opcode d =? READ_LBA
        then (Ok (len d), mkPlug (flash p) None
               (ready p ++ [slice (flash p) (cbw_lba d * SECTOR_SIZE) (cbw_lba d * SECTOR_SIZE + cbw_count d * SECTOR_SIZE);
                            csw_ok (cbw_tag d)]) (next_tag p))
        else (Raise USBError, p)
      else (Raise USBError, p)
  end.

Definition plug_read (n : Z) (p : Plug) : res bytes * Plug :=
  match ready p with
  | q :: qs => if len q <=? n then (Ok q, mkPlug (flash p) (awaiting p) qs (next_tag p)) else (Raise USBError, p)
  | [] => (Raise USBError, p)
  end.

Arguments plug_write : simpl never.
Arguments plug_read : simpl never.

#[export] Instance Plug_usb : Usb Plug := {
  u_find := fun p => (Ok [], p);
  u_get_configuration := fun _ p => (Ok [], p);
  u_set_configuration := fun _ p => (Ok tt, p);
  u_driver_active := fun _ _ p => (Ok false, p);
  u_detach := fun _ _ p => (Ok tt, p);
  u_attach := fun _ _ p => (Ok tt, p);
  u_claim := fun _ _ p => (Ok tt, p);
  u_release := fun _ _ p => (Ok tt, p);
  u_dispose := fun _ p => (Ok tt, p);
  u_clear_halt := fun _ p => (Ok tt, p);
  u_read := fun _ n _ p => plug_read n p;
  u_write := fun _ d _ p => plug_write d p;
  u_ctrl_transfer := fun _ _ _ _ _ _ _ p => (Raise USBError, p);
  u_randbits := fun p => (next_tag p, mkPlug (flash p) (awaiting p) (ready p) (Z.land (next_tag p * 1103515245 + 12345) 0xFFFFFFFF));
  u_time := fun p => (0, p);
  u_sleep := fun _ p => p
}.

(** The wrapper as the device reads it. *)
Lemma build_cbw_fields tag op lba count tl dir :
  0 <= op < 256 -> 0 <= lba < 2 ^ 32 -> 0 <= count < 2 ^ 16 -> 0 <= cbw_transfer_length op count tl < 2 ^ 32 ->
  exists cbw, build_cbw tag op 0 lba count tl dir = Ok cbw /\ len cbw = CBW_LENGTH
    /\ slice cbw 0 4 = CBW_SIGNATURE /\ cbw_tag cbw = Z.land tag 0xFFFFFFFF /\ cbw_opcode cbw = op
    /\ cbw_lba cbw = lba /\ cbw_count cbw = count.
Proof.
  intros Hop Hlba Hc Htl. unfold build_cbw.
  assert (Ht : 0 <= Z.land tag 0xFFFFFFFF < 2 ^ 32).
  { change 0xFFFFFFFF with (Z.ones 32). rewrite Z.land_ones by lia. apply Z.mod_pos_bound. lia. }
  unfold pack_be, pack_le.
  rewrite (proj2 (fits_spec 1 op)), (proj2 (fits_spec 1 0)), (proj2 (fits_spec 4 lba)),
    (proj2 (fits_spec 2 count)), (proj2 (fits_spec 4 (Z.land _ _))),
    (proj2 (fits_spec 4 (cbw_transfer_length _ _ _))) by lia.
  eexists. split; [reflexivity|]. split_and!; [reflexivity|reflexivity| | | |].
  - change (le_int (le_bytes 4 (Z.land tag 0xFFFFFFFF)) = Z.land tag 0xFFFFFFFF).
    apply le_int_le_bytes; [lia|]. by apply fits_spec.
  - change (be_int (be_bytes 1 op) = op). apply be_int_be_bytes; [lia|]. by apply fits_spec.
  - change (be_int (be_bytes 4 lba) = lba). apply be_int_be_bytes; [lia|]. by apply fits_spec.
  - change (be_int (be_bytes 2 count) = count). apply be_int_be_bytes; [lia|]. by apply fits_spec.
Qed.

Lemma parse_csw_ok tag :
  parse_csw (csw_ok (Z.land tag 0xFFFFFFFF)) (Some tag) = Ok (Z.land tag 0xFFFFFFFF, 0, STATUS_OK).
Proof.
  assert (Ht : 0 <= Z.land tag 0xFFFFFFFF < 2 ^ 32).
  { change 0xFFFFFFFF with (Z.ones 32). rewrite Z.land_ones by lia. apply Z.mod_pos_bound. lia. }
  unfold parse_csw.
  change (unpack_le 4 (csw_ok (Z.land tag 0xFFFFFFFF)) 4)
    with (Ok (le_int (le_bytes 4 (Z.land tag 0xFFFFFFFF)))).
  rewrite le_int_le_bytes by (by apply fits_spec || lia). cbn -[Z.land]. by rewrite Z.eqb_refl.
Qed.

(** The device is idle with flash [f], and the host holds its endpoints. *)
Definition idle (f : bytes) (w : world Plug RockusbDevice) : Prop :=
  (exists tag, tr w = mkPlug f None [] tag)
  /\ (exists e, ep_in (obj w) = Some e /\ 0 <= wMaxPacketSize e) /\ is_Some (ep_out (obj w)).

Lemma mps_pos e : 0 <= wMaxPacketSize e -> 0 < mps_of e.
Proof. unfold mps_of. intros. case_match; b2p; lia. Qed.

Lemma round_up n m : 0 < m -> n <= (n + m - 1) / m * m.
Proof.
  intros. pose proof (Z.div_mod (n + m - 1) m ltac:(lia)). pose proof (Z.mod_pos_bound (n + m - 1) m). lia.
Qed.

(** A command whose phases succeed, succeeds. *)
Lemma command_runs {D} `{Usb D} opcode address count data_out read_length
    (w : world D RockusbDevice) tag d cbw w2 payload w3 csw w4 t :
  is_Some (ep_in (obj w)) -> is_Some (ep_out (obj w)) ->
  u_randbits (tr w) = (tag, d) ->
  build_cbw tag opcode 0 address count
    (if 0 <? read_length then read_length else len data_out) (0 <? read_length) = Ok cbw ->
  write_bulk cbw (World d (obj w) (log w)) = (Ok tt, w2) ->
  data_phase data_out read_length w2 = (Ok payload, w3) ->
  ep_read CSW_LENGTH (timeout_ms (obj w3)) w3 = (Ok csw, w4) ->
  parse_csw csw (Some tag) = Ok (t, 0, STATUS_OK) ->
  ((0 <? read_length) = true -> len payload = read_length) ->
  command opcode 0 address count data_out read_length false w = (Ok payload, w4).
Proof.
  intros [ei Hi] [eo Ho] Hr Hcbw H2 H3 H4 Hp Hl.
  unfold command, bind at 1, require_bulk, bind at 1, get_obj at 1. rewrite Hi, Ho. cbn [bool_decide].
  rewrite !bool_decide_false by done. cbn [orb]. unfold ret at 1.
  unfold bind at 1, randbits, call. rewrite Hr. unfold bind at 1, lift at 1. rewrite Hcbw.
  unfold bind at 1. rewrite H2. unfold bind at 1, try_except at 1. rewrite H3.
  unfold bind at 1, get_obj. unfold bind at 1, try_except, bind at 1. rewrite H4. unfold ret at 1.
  unfold bind at 1, lift. rewrite Hp. cbn.
  destruct (0 <? read_length); [|done]. by rewrite (Hl eq_refl), Z.eqb_refl.
Qed.

Lemma plug_write_bulk d p p' o lg :
  is_Some (ep_out o) -> plug_write d p = (Ok (len d), p') ->
  write_bulk d (World p o lg) = (Ok tt, World p' (record_event (UWrite d (Ok (len d))) o) lg).
Proof.
  intros [e He] Hp. unfold write_bulk, bind at 1, try_except, ep_write, bind at 1, get_obj. cbn.
  rewrite He. unfold logged. cbn. rewrite Hp. by rewrite Z.eqb_refl.
Qed.

Lemma plug_ep_read n t p p' o lg b :
  is_Some (ep_in o) -> plug_read n p = (Ok b, p') ->
  ep_read n t (World p o lg) = (Ok b, World p' (record_event (URead n (Ok b)) o) lg).
Proof. intros [e He] Hp. unfold ep_read, bind, get_obj. cbn. rewrite He. unfold logged. cbn. by rewrite Hp. Qed.

Lemma plug_takes_command cbw f q tag op :
  len cbw = CBW_LENGTH -> slice cbw 0 4 = CBW_SIGNATURE -> cbw_opcode cbw = op ->
  (cbw_lba cbw + cbw_count cbw) * SECTOR_SIZE <= len f -> op = WRITE_LBA \/ op = READ_LBA ->
  plug_write cbw (mkPlug f None q tag) = (Ok (len cbw),
    if op =? WRITE_LBA then mkPlug f (Some (cbw_tag cbw, cbw_lba cbw, cbw_count cbw)) q tag
    else mkPlug f None (q ++ [slice f (cbw_lba cbw * SECTOR_SIZE) (cbw_lba cbw * SECTOR_SIZE + cbw_count cbw * SECTOR_SIZE);
                             csw_ok (cbw_tag cbw)]) tag).
Proof.
  intros Hl Hs Hop Hfit Hor. unfold plug_write. cbn [awaiting flash ready next_tag].
  rewrite Hl, Hs, Hop, (proj2 (Z.leb_le _ _) Hfit), Z.eqb_refl.
  unfold beq. rewrite bool_decide_true by done. cbn [andb].
  by destruct Hor as [-> | ->].
Qed.

Lemma write_command lba count chunk f w :
  idle f w -> 0 <= lba -> 0 < count <= MAX_SECTORS_PER_TRANSFER ->
  len chunk = count * SECTOR_SIZE -> (lba + count) * SECTOR_SIZE <= len f -> len f <= 2 ^ 32 * SECTOR_SIZE ->
  exists w', command WRITE_LBA 0 lba count chunk 0 false w = (Ok [], w')
    /\ idle (splice f (lba * SECTOR_SIZE) chunk) w'.
Proof.
  destruct w as [p o lg]. intros ([tag Hp] & (e & He & Hmps) & Heo) Hlba Hcount Hlen Hfit Hf.
  cbn in Hp, He, Heo. subst p. unfold MAX_SECTORS_PER_TRANSFER in Hcount.
  assert (Hlba' : lba < 2 ^ 32) by (unfold SECTOR_SIZE in *; lia).
  assert (Hlen' : 0 < len chunk < 2 ^ 32) by (rewrite Hlen; unfold SECTOR_SIZE; lia).
  destruct (build_cbw_fields tag WRITE_LBA lba count (len chunk) false)
    as (cbw & Hcbw & Hl & Hsig & Htag & Hop & Hlb & Hct); [by compute|lia|lia| |].
  { unfold cbw_transfer_length. replace (len chunk =? 0) with false by (symmetry; apply Z.eqb_neq; lia). cbn. lia. }
  assert (Hne : bool_decide (chunk = []) = false) by (apply bool_decide_false; intros ->; unfold len in Hlen'; cbn in Hlen'; lia).
  eexists. split.
  - eapply command_runs; cbn [obj tr log]; [by rewrite He|done|reflexivity|exact Hcbw| | | | |done].
    + apply plug_write_bulk; [done|]. cbn [flash awaiting ready next_tag].
      apply plug_takes_command; [done|done|exact Hop|by rewrite Hlb, Hct|by left].
    + unfold data_phase. cbn [Z.ltb Z.compare]. rewrite Hne. cbn [negb]. unfold bind.
      erewrite plug_write_bulk; [reflexivity|done|].
      rewrite Z.eqb_refl. unfold plug_write. cbn [awaiting]. rewrite Hct, Hlen, Z.eqb_refl. reflexivity.
    + apply plug_ep_read; [cbn; by rewrite He|]. reflexivity.
    + rewrite Htag. apply parse_csw_ok.
  - split_and!; [by rewrite Hlb; eexists|cbn; eauto|done].
Qed.

Lemma read_command lba count f w :
  idle f w -> 0 <= lba -> 0 < count <= MAX_SECTORS_PER_TRANSFER ->
  (lba + count) * SECTOR_SIZE <= len f -> len f <= 2 ^ 32 * SECTOR_SIZE ->
  exists w', command READ_LBA 0 lba count [] (count * SECTOR_SIZE) false w
      = (Ok (slice f (lba * SECTOR_SIZE) (lba * SECTOR_SIZE + count * SECTOR_SIZE)), w')
    /\ idle f w'.
Proof.
  destruct w as [p o lg]. intros ([tag Hp] & (e & He & Hmps) & Heo) Hlba Hcount Hfit Hf.
  cbn in Hp, He, Heo. subst p. unfold MAX_SECTORS_PER_TRANSFER in Hcount.
  assert (Hlba' : lba < 2 ^ 32) by (unfold SECTOR_SIZE in *; lia).
  assert (Hlen' : 0 < count * SECTOR_SIZE < 2 ^ 32) by (unfold SECTOR_SIZE; lia).
  assert (Hpos : (0 <? count * SECTOR_SIZE) = true) by (apply Z.ltb_lt; lia).
  set (data := slice f (lba * SECTOR_SIZE) (lba * SECTOR_SIZE + count * SECTOR_SIZE)).
  assert (Hdata : len data = count * SECTOR_SIZE).
  { unfold data. rewrite len_slice by (unfold SECTOR_SIZE; lia). lia. }
  destruct (build_cbw_fields tag READ_LBA lba count (count * SECTOR_SIZE) true)
    as (cbw & Hcbw & Hl & Hsig & Htag & Hop & Hlb & Hct); [by compute|lia|lia| |].
  { unfold cbw_transfer_length. replace (count * SECTOR_SIZE =? 0) with false by (symmetry; apply Z.eqb_neq; lia).
    cbn [andb]. lia. }
  eexists. split.
  - eapply command_runs; cbn [obj tr log]; [by rewrite He|done|reflexivity|rewrite Hpos; exact Hcbw| | | | |done].
    + apply plug_write_bulk; [done|]. cbn [flash awaiting ready next_tag].
      apply plug_takes_command; [done|done|exact Hop|by rewrite Hlb, Hct|by right].
    + unfold data_phase. rewrite Hpos. unfold read_bulk, bind, get_obj. cbn [obj record_event ep_in]. rewrite He.
      erewrite plug_ep_read; [|cbn; by rewrite He|].
      2:{ cbn [Z.eqb READ_LBA WRITE_LBA Pos.eqb]. rewrite Hlb, Hct. fold data. unfold plug_read. cbn [ready app].
          rewrite (proj2 (Z.leb_le _ _)); [reflexivity|]. rewrite Hdata. apply round_up, mps_pos, Hmps. }
      unfold ret. by rewrite slice_all by lia.
    + apply plug_ep_read; [cbn; by rewrite He|]. reflexivity.
    + rewrite Htag. apply parse_csw_ok.
  - split_and!; [by eexists|cbn; eauto|done].
Qed.

Lemma write_loop start data f l : forall at_ total w,
  idle f w -> 0 <= start <= at_ -> covers at_ total MAX_SECTORS_PER_TRANSFER l ->
  len data = (at_ - start + total) * SECTOR_SIZE ->
  (at_ + total) * SECTOR_SIZE <= len f -> len f <= 2 ^ 32 * SECTOR_SIZE ->
  exists w', foreach l (write_transfer start data) tt w = (Ok (Next tt), w')
    /\ idle (splice f (at_ * SECTOR_SIZE) (drop (Z.to_nat ((at_ - start) * SECTOR_SIZE)) data)) w'.
Proof.
  revert f. induction l as [|[lba count] l IH]; intros f at_ total w Hw Hs Hc Hlen Hfit Hf; cbn [covers] in Hc.
  - subst. exists w. split; [done|]. rewrite drop_ge by (unfold len in Hlen; lia).
    by rewrite splice_nil by (unfold SECTOR_SIZE; lia).
  - destruct Hc as (-> & Hcount & Ht & Hc).
    set (chunk := slice data ((at_ - start) * SECTOR_SIZE) ((at_ - start) * SECTOR_SIZE + count * SECTOR_SIZE)).
    assert (Hchunk : len chunk = count * SECTOR_SIZE).
    { unfold chunk. rewrite len_slice by (unfold SECTOR_SIZE; lia). unfold SECTOR_SIZE in *. lia. }
    destruct (write_command at_ count chunk f w) as (w1 & Hcmd & Hw1);
      [done|lia|done|done|unfold SECTOR_SIZE in *; lia|done|].
    assert (Hlf : len (splice f (at_ * SECTOR_SIZE) chunk) = len f).
    { apply splice_len; rewrite ?Hchunk; unfold SECTOR_SIZE in *; lia. }
    destruct (IH _ (at_ + count) (total - count) w1 Hw1) as (w' & Hrun & Hw');
      [lia|done|rewrite Hlen; f_equal; lia|rewrite Hlf; unfold SECTOR_SIZE in *; lia|by rewrite Hlf|].
    exists w'. split.
    + cbn [foreach]. unfold bind at 1, write_transfer at 1, bind at 1. fold chunk. rewrite Hcmd. exact Hrun.
    + replace ((at_ + count) * SECTOR_SIZE) with (at_ * SECTOR_SIZE + len chunk) in Hw' by lia.
      rewrite splice_splice in Hw'; [|unfold SECTOR_SIZE; lia|].
      2:{ rewrite len_drop, Hchunk. unfold SECTOR_SIZE in *. lia. }
      replace (chunk ++ drop (Z.to_nat ((at_ + count - start) * SECTOR_SIZE)) data)
        with (drop (Z.to_nat ((at_ - start) * SECTOR_SIZE)) data) in Hw'; [done|].
      unfold chunk. rewrite slice_drop_take, Z.add_simpl_l.
      replace (Z.to_nat ((at_ + count - start) * SECTOR_SIZE))
        with (Z.to_nat ((at_ - start) * SECTOR_SIZE) + Z.to_nat (count * SECTOR_SIZE))%nat by (unfold SECTOR_SIZE; lia).
      rewrite <- drop_drop. by rewrite take_drop.
Qed.

Lemma read_loop f l : forall at_ total out w,
  idle f w -> 0 <= at_ -> covers at_ total MAX_SECTORS_PER_TRANSFER l ->
  (at_ + total) * SECTOR_SIZE <= len f -> len f <= 2 ^ 32 * SECTOR_SIZE ->
  exists w', foreach l read_transfer out w
      = (Ok (Next (out ++ slice f (at_ * SECTOR_SIZE) ((at_ + total) * SECTOR_SIZE))), w')
    /\ idle f w'.
Proof.
  induction l as [|[lba count] l IH]; intros at_ total out w Hw Hs Hc Hfit Hf; cbn [covers] in Hc.
  - subst. exists w. split; [|done]. cbn. unfold ret. repeat f_equal.
    rewrite Z.add_0_r, slice_drop_take, Z.sub_diag. by rewrite app_nil_r.
  - destruct Hc as (-> & Hcount & Ht & Hc).
    destruct (read_command at_ count f w) as (w1 & Hcmd & Hw1); [done|done|done|unfold SECTOR_SIZE in *; lia|done|].
    destruct (IH (at_ + count) (total - count)
      (out ++ slice f (at_ * SECTOR_SIZE) (at_ * SECTOR_SIZE + count * SECTOR_SIZE)) w1 Hw1) as (w' & Hrun & Hw');
      [lia|done|unfold SECTOR_SIZE in *; lia|done|].
    exists w'. split; [|done]. cbn [foreach]. unfold bind at 1, read_transfer at 1, bind at 1. rewrite Hcmd.
    unfold ret at 1. rewrite Hrun, <- app_assoc.
    replace (at_ * SECTOR_SIZE + count * SECTOR_SIZE) with ((at_ + count) * SECTOR_SIZE) by lia.
    replace (at_ + count + (total - count)) with (at_ + total) by lia.
    rewrite slice_split by (unfold SECTOR_SIZE; lia). done.
Qed.

(** C16.  Against a usbplug that reads the command wrappers at their documented
    offsets: writing an image that fits changes exactly its sectors of the
    flash, to the image zero-padded to whole sectors, and reading those
    sectors back returns it. *)
Theorem rockusb_write_read start data f w :
  let padded := pad_sector data in
  idle f w -> 0 <= start -> start * SECTOR_SIZE + len padded <= len f -> len f <= 2 ^ 32 * SECTOR_SIZE ->
  exists w' w'',
    write_image start data w = (Ok tt, w')
    /\ idle (splice f (start * SECTOR_SIZE) padded) w'
    /\ read_image start (len padded / SECTOR_SIZE) w' = (Ok padded, w'')
    /\ idle (splice f (start * SECTOR_SIZE) padded) w''.
Proof.
  intros padded Hw Hs Hfit Hf. destruct (pad_sector_spec data) as [Hlen _]. fold padded in Hlen.
  pose proof (len_nonneg padded) as Hnn. set (total := len padded / SECTOR_SIZE) in *.
  assert (Ht : 0 <= total) by (apply Z.div_pos; [done|by compute]).
  destruct (split_lba_transfers_covers start total MAX_SECTORS_PER_TRANSFER) as (l & Hl & Hc); [done|by compute|].
  destruct (write_loop start padded f l start total w) as (w1 & Hrun & Hw1);
    [done|lia|done|rewrite Z.sub_diag; exact Hlen|unfold SECTOR_SIZE in *; lia|done|].
  rewrite Z.sub_diag, Z.mul_0_l, Z2Nat.inj_0, drop_0 in Hw1.
  assert (Hlf : len (splice f (start * SECTOR_SIZE) padded) = len f) by (apply splice_len; unfold SECTOR_SIZE in *; lia).
  destruct (read_loop _ l start total [] w1 Hw1) as (w2 & Hrun2 & Hw2);
    [done|done|rewrite Hlf; unfold SECTOR_SIZE in *; lia|by rewrite Hlf|].
  exists w1, w2. split_and!; [|done| |done].
  - unfold write_image. fold padded total. unfold bind, lift. rewrite Hl, Hrun. done.
  - unfold read_image, bind, lift. rewrite Hl, Hrun2. unfold ret. cbn [app]. repeat f_equal.
    replace ((start + total) * SECTOR_SIZE) with (start * SECTOR_SIZE + len padded) by lia.
    apply slice_splice; unfold SECTOR_SIZE in *; lia.
Qed.

Definition demo_found : FoundDevice := found_of (mkUsbDev 1 0x110C 2 1 1 7 [4; 2]).
Definition demo_plug : world Plug RockusbDevice :=
  World (mkPlug (brep 2048 0xFF) None [] 77)
    (mkDevice demo_found 5000 (Some 0) (Some (mkEp 0x81 512)) (Some (mkEp 0x02 512)) None []) [].

Lemma demo_idle : idle (brep 2048 0xFF) demo_plug.
Proof. split_and!; [by eexists | eexists; split; [done|]; cbn; lia | done]. Qed.

Lemma rockusb_write_read_witness :
  exists w' w'', write_image 1 [1; 2; 3] demo_plug = (Ok tt, w')
    /\ read_image 1 1 w' = (Ok ([1; 2; 3] ++ brep 509 0), w'').
Proof.
  destruct (rockusb_write_read 1 [1; 2; 3] (brep 2048 0xFF) demo_plug demo_idle) as (w' & w'' & H1 & _ & H2 & _);
    [lia|vm_compute; discriminate|vm_compute; discriminate|]. exists w', w''. split; [exact H1|exact H2].
Defined.

Lemma rockusb_write_safe_witness :
  exists w', write_image 1 [1; 2; 3] demo_plug = (Ok tt, w') /\
    exists l ls, concat (chunk_of 1 (pad_sector [1; 2; 3]) <$> l) = pad_sector [1; 2; 3] /\ ulog (obj w') = concat ls.
Proof.
  destruct (write_image 1 [1; 2; 3] demo_plug) as [r w'] eqn:E. exists w'.
  assert (Hr : r = Ok tt).
  { change r with ((r, w').1). rewrite <- E. vm_compute. reflexivity. }
  subst r. split; [reflexivity|].
  destruct (rockusb_write_safe 1 [1; 2; 3] demo_plug w' E) as (l & ls & _ & Hc & _ & Hu & _).
  exists l, ls. split; [exact Hc|exact Hu].
Defined.

(** ** Choosing the board *)

Lemma find_device_unique path ids scan f :
  find_device path ids scan = Ok (Some f) -> find_devices path ids scan = [f].
Proof. unfold find_device. destruct (find_devices path ids scan) as [|d [|? ?]]; [done| |done]. by intros [= ->]. Qed.

(** The device [wait_for_device] settles on is the only recovery device that
    one scan of the bus showed at the wanted port, and it is in the wanted
    mode: a second board is never picked by chance. *)
Theorem wait_for_device_unique {D} `{Usb D} fuel timeout mode poll path ids (w : world D RockusbDevice) f w' :
  wait_for_device fuel timeout mode poll path ids w = (Ok f, w') ->
  exists d d' scan, u_find d = (Ok scan, d') /\ find_devices path ids scan = [f]
    /\ (mode = None \/ mode = Some (fd_mode f)).
Proof.
  unfold wait_for_device, bind at 1, loop_time at 1, call. destruct (u_time (tr w)) as [now d0].
  unfold bind. generalize (World d0 (obj w) (log w)). clear w. intros w Hw.
  destruct (while fuel _ tt w) as [[c| |] w1] eqn:E; [|done..].
  destruct c as [|[]|f1]; [done|done|]. injection Hw as -> <-. revert w E.
  induction fuel as [|fuel IH]; intros w; cbn [while]; [done|].
  unfold bind at 1, wait_body at 1, bind at 1, loop_time at 1, call at 1. destruct (u_time (tr w)) as [now' d1].
  destruct (negb _); [done|]. unfold bind at 1, call at 1. cbn [tr].
  destruct (u_find d1) as [[scan| |] d2] eqn:Es; [|done..]. unfold bind at 1, lift at 1.
  destruct (find_device path ids scan) as [[g|]| |] eqn:Ef; [| |done..].
  - case_bool_decide as Hm.
    + unfold ret. intros [= -> _]. exists d1, d2, scan. auto using find_device_unique.
    + exact (IH _).
  - exact (IH _).
Qed.
