(* ===== verification/Capture.v ===== *)
(** * Captures: the .dcap format, recording and replaying

  Models [src/src/defib/capture/format.py] (encoding and decoding a capture),
  [capture/recorder.py] ([RecordingTransport], a transport over another one)
  and [capture/replayer.py] ([ReplayTransport]).  Text is a list of code
  points, written and read as UTF-8.  Files are their contents; the unused
  [verify_tx] and [simulate_timing] options of the replayer are left out. *)

From S2P Require Import Prelude Transport.

(** ** UTF-8 *)

(** [chr(c).encode("utf-8")] *)
Definition utf8_char (c : Z) : res bytes :=
  if c <? 0x80 then Ok [c]
  else if c <? 0x800 then Ok [0xC0 + c / 64; 0x80 + c mod 64]
  else if (0xD800 <=? c) && (c <=? 0xDFFF) then Raise UnicodeError
  else if c <? 0x10000 then Ok [0xE0 + c / 4096; 0x80 + (c / 64) mod 64; 0x80 + c mod 64]
  else Ok [0xF0 + c / 262144; 0x80 + (c / 4096) mod 64; 0x80 + (c / 64) mod 64; 0x80 + c mod 64].

Fixpoint utf8_encode (s : list Z) : res bytes :=
  match s with
  | [] => Ok []
  | c :: s' => let! b := utf8_char c in let! r := utf8_encode s' in Ok (b ++ r)
  end.

Definition in_range (lo hi b : Z) : bool := (lo <=? b) && (b <=? hi).
Definition is_cont : Z -> bool := in_range 0x80 0xBF.

(** The second byte a lead byte of a three or four byte sequence allows. *)
Definition second_ok (b0 b1 : Z) : bool :=
  if b0 =? 0xE0 then in_range 0xA0 0xBF b1
  else if b0 =? 0xED then in_range 0x80 0x9F b1
  else if b0 =? 0xF0 then in_range 0x90 0xBF b1
  else if b0 =? 0xF4 then in_range 0x80 0x8F b1
  else is_cont b1.

(** [decode("utf-8", errors="replace")]: a malformed sequence gives one
    U+FFFD for its longest well-formed beginning. *)
Fixpoint utf8_decode (l : bytes) : list Z :=
  match l with
  | [] => []
  | b0 :: l1 =>
      if b0 <? 0x80 then b0 :: utf8_decode l1
      else if in_range 0xC2 0xDF b0 then
        match l1 with
        | b1 :: l2 =>
            if is_cont b1 then ((b0 - 0xC0) * 64 + (b1 - 0x80)) :: utf8_decode l2
            else 0xFFFD :: utf8_decode l1
        | [] => [0xFFFD]
        end
      else if in_range 0xE0 0xEF b0 then
        match l1 with
        | b1 :: l2 =>
            if second_ok b0 b1 then
              match l2 with
              | b2 :: l3 =>
                  if is_cont b2
                  then ((b0 - 0xE0) * 4096 + (b1 - 0x80) * 64 + (b2 - 0x80)) :: utf8_decode l3
                  else 0xFFFD :: utf8_decode l2
              | [] => [0xFFFD]
              end
            else 0xFFFD :: utf8_decode l1
        | [] => [0xFFFD]
        end
      else if in_range 0xF0 0xF4 b0 then
        match l1 with
        | b1 :: l2 =>
            if second_ok b0 b1 then
              match l2 with
              | b2 :: l3 =>
                  if is_cont b2 then
                    match l3 with
                    | b3 :: l4 =>
                        if is_cont b3
                        then ((b0 - 0xF0) * 262144 + (b1 - 0x80) * 4096 + (b2 - 0x80) * 64 + (b3 - 0x80)) :: utf8_decode l4
                        else 0xFFFD :: utf8_decode l3
                    | [] => [0xFFFD]
                    end
                  else 0xFFFD :: utf8_decode l2
              | [] => [0xFFFD]
              end
            else 0xFFFD :: utf8_decode l1
        | [] => [0xFFFD]
        end
      else 0xFFFD :: utf8_decode l1
  end.

(** ** format.py *)

Definition DCAP_MAGIC : bytes := [68; 67; 65; 80].
Definition DCAP_VERSION : Z := 1.
Definition HEADER_SIZE : Z := 48.
Definition FLAG_HAS_TIMING : Z := 0x01.

Inductive Direction := TX | RX.

#[export] Instance Direction_eq_dec : EqDecision Direction.
Proof. solve_decision. Defined.

Definition direction_code (d : Direction) : Z := match d with TX => 0 | RX => 1 end.
(** [Direction(z)] *)
Definition Direction_of (z : Z) : res Direction :=
  if z =? 0 then Ok TX else if z =? 1 then Ok RX else Raise ValueError.

Record CaptureRecord := mkRecord { timestamp_us : Z; direction : Direction; r_data : bytes }.

Record CaptureFile := mkCapture { baudrate : Z; chip : list Z; flags : Z; records : list CaptureRecord }.

Definition add_tx (t : Z) (d : bytes) (c : CaptureFile) : CaptureFile :=
  mkCapture (baudrate c) (chip c) (flags c) (records c ++ [mkRecord t TX d]).
Definition add_rx (t : Z) (d : bytes) (c : CaptureFile) : CaptureFile :=
  mkCapture (baudrate c) (chip c) (flags c) (records c ++ [mkRecord t RX d]).

Definition of_direction (d : Direction) (rs : list CaptureRecord) : list bytes :=
  r_data <$> List.filter (fun r => bool_decide (direction r = d)) rs.

Definition total_len (l : list bytes) : Z := len (concat l).
Definition tx_bytes (c : CaptureFile) : Z := total_len (of_direction TX (records c)).
Definition rx_bytes (c : CaptureFile) : Z := total_len (of_direction RX (records c)).

Definition duration_us (c : CaptureFile) : Z :=
  match head (records c), last (records c) with
  | Some a, Some b => timestamp_us b - timestamp_us a
  | _, _ => 0
  end.

Definition encode_record (r : CaptureRecord) : res bytes :=
  let! t := pack_le 8 (timestamp_us r) in
  let! d := pack_le 1 (direction_code (direction r)) in
  let! n := pack_le 2 (len (r_data r)) in
  Ok (t ++ d ++ n ++ r_data r).

Fixpoint encode_records (rs : list CaptureRecord) : res bytes :=
  match rs with
  | [] => Ok []
  | r :: rs' => let! a := encode_record r in let! b := encode_records rs' in Ok (a ++ b)
  end.

Definition encode (c : CaptureFile) : res bytes :=
  let! u := utf8_encode (chip c) in
  let chip_bytes := ljust 32 0 (take 32 u) in
  let! v := pack_le 2 DCAP_VERSION in
  let! b := pack_le 4 (baudrate c) in
  let! f := pack_le 2 (flags c) in
  let! z := pack_le 4 0 in
  let header := DCAP_MAGIC ++ v ++ b ++ chip_bytes ++ f ++ z in
  if negb (len header =? HEADER_SIZE) then Raise AssertionError else
  let! rs := encode_records (records c) in
  Ok (header ++ rs).

Fixpoint lstrip0 (l : bytes) : bytes :=
  match l with
  | b :: l' => if b =? 0 then lstrip0 l' else l
  | [] => []
  end.
(** [l.rstrip(b"\x00")] *)
Definition rstrip0 (l : bytes) : bytes := rev (lstrip0 (rev l)).

(** The record loop of [decode]; a turn consumes 11 bytes at least. *)
Fixpoint decode_records (fuel : nat) (data : bytes) (offset : Z) (acc : list CaptureRecord)
    : res (list CaptureRecord) :=
  match fuel with
  | O => Diverge
  | S fuel' =>
      if negb (offset <? len data) then Ok acc else
      if len data <? offset + 11 then Ok acc else
      let! t := unpack_le 8 data offset in
      let! d := unpack_le 1 data (offset + 8) in
      let! n := unpack_le 2 data (offset + 9) in
      let offset := offset + 11 in
      if len data <? offset + n then Ok acc else
      let rec_data := slice data offset (offset + n) in
      let! dir := Direction_of d in
      decode_records fuel' data (offset + n) (acc ++ [mkRecord t dir rec_data])
  end.

Definition decode (data : bytes) : res CaptureFile :=
  if len data <? HEADER_SIZE then Raise ValueError else
  let magic := slice data 0 4 in
  let! version := unpack_le 2 data 4 in
  let! baud := unpack_le 4 data 6 in
  let chip_bytes := slice data 10 42 in
  let! fl := unpack_le 2 data 42 in
  if negb (beq magic DCAP_MAGIC) then Raise ValueError else
  if negb (version =? DCAP_VERSION) then Raise ValueError else
  let chip := utf8_decode (rstrip0 chip_bytes) in
  let! rs := decode_records (S (length data)) data HEADER_SIZE [] in
  Ok (mkCapture baud chip fl rs).

(** ** recorder.py *)

Section Recorder.
Context {T : Type} `{Transport T}.

Record RecordingTransport := mkRec { inner : T; capture : CaptureFile; start_time : Z }.

(** [__init__]: the clock is read once. *)
Definition new_recording (t : T) (chip : list Z) (baud : Z) : RecordingTransport :=
  let (now, t) := t_monotonic t in mkRec t (mkCapture baud chip FLAG_HAS_TIMING []) now.

Definition Rec_timestamp (r : RecordingTransport) : Z * RecordingTransport :=
  let (now, t) := t_monotonic (inner r) in (now - start_time r, mkRec t (capture r) (start_time r)).

Definition Rec_read (n : Z) (tmo : option Z) (r : RecordingTransport) : res bytes * RecordingTransport :=
  let (x, t) := t_read n tmo (inner r) in
  let r := mkRec t (capture r) (start_time r) in
  match x with
  | Ok d =>
      if beq d [] then (Ok d, r) else
      let (ts, r) := Rec_timestamp r in
      (Ok d, mkRec (inner r) (add_rx ts d (capture r)) (start_time r))
  | e => (e, r)
  end.

Definition Rec_write (d : bytes) (r : RecordingTransport) : res unit * RecordingTransport :=
  let (ts, r) := Rec_timestamp r in
  let (x, t) := t_write d (inner r) in
  (x, mkRec t (add_tx ts d (capture r)) (start_time r)).

(** The other methods pass through. *)
Definition through {A} (f : T -> A * T) (r : RecordingTransport) : A * RecordingTransport :=
  let (x, t) := f (inner r) in (x, mkRec t (capture r) (start_time r)).

#[export] Instance Rec_Transport : Transport RecordingTransport := {|
  t_read := Rec_read;
  t_write := Rec_write;
  t_flush_input := through t_flush_input;
  t_flush_output := through t_flush_output;
  t_bytes_waiting := through t_bytes_waiting;
  t_unread := fun d => through (t_unread d);
  t_set_baudrate := base_set_baudrate;
  t_monotonic := through t_monotonic;
  t_sleep := fun d r => mkRec (t_sleep d (inner r)) (capture r) (start_time r)
|}.

End Recorder.
Arguments RecordingTransport : clear implicits.

(** ** replayer.py *)

Record ReplayTransport := mkReplay { rp_buffer : bytes; rp_tx_log : list bytes; rp_closed : bool; rp_clock : Z }.

Definition new_replay (c : CaptureFile) (clock : Z) : ReplayTransport :=
  mkReplay (concat (of_direction RX (records c))) [] false clock.

Definition Replay_read (size : Z) (timeout : option Z) (r : ReplayTransport) : res bytes * ReplayTransport :=
  if rp_closed r then (Ok [], r) else
  if beq (rp_buffer r) [] then
    (Raise TransportTimeout,
     match timeout with
     | Some t => mkReplay (rp_buffer r) (rp_tx_log r) (rp_closed r) (rp_clock r + Z.max 0 (Z.min t 1000))
     | None => r
     end)
  else
    let count := Z.min size (len (rp_buffer r)) in
    (Ok (slice (rp_buffer r) 0 count),
     mkReplay (drop (Z.to_nat count) (rp_buffer r)) (rp_tx_log r) (rp_closed r) (rp_clock r)).

Definition Replay_write (d : bytes) (r : ReplayTransport) : res unit * ReplayTransport :=
  if rp_closed r then (Ok tt, r)
  else (Ok tt, mkReplay (rp_buffer r) (rp_tx_log r ++ [d]) (rp_closed r) (rp_clock r)).

Definition Replay_unread (d : bytes) (r : ReplayTransport) : res unit * ReplayTransport :=
  (Ok tt, mkReplay (d ++ rp_buffer r) (rp_tx_log r) (rp_closed r) (rp_clock r)).

#[export] Instance Replay_Transport : Transport ReplayTransport := {|
  t_read := Replay_read;
  t_write := Replay_write;
  t_flush_input := fun r => (Ok tt, r);
  t_flush_output := fun r => (Ok tt, r);
  t_bytes_waiting := fun r => (Ok (len (rp_buffer r)), r);
  t_unread := Replay_unread;
  t_set_baudrate := base_set_baudrate;
  t_monotonic := fun r => (rp_clock r, r);
  t_sleep := fun d r => mkReplay (rp_buffer r) (rp_tx_log r) (rp_closed r) (rp_clock r + Z.max 0 d)
|}.

Definition Replay_close (r : ReplayTransport) : ReplayTransport :=
  mkReplay (rp_buffer r) (rp_tx_log r) true (rp_clock r).
Definition all_tx_data (r : ReplayTransport) : bytes := concat (rp_tx_log r).
Definition replay_complete (r : ReplayTransport) : bool := len (rp_buffer r) =? 0.

(** ** UTF-8 round trip *)

Ltac Zify.zify_post_hook ::= Z.to_euclidean_division_equations.

Lemma in_range_true lo hi b : lo <= b <= hi -> in_range lo hi b = true.
Proof. intros. unfold in_range. apply andb_true_iff. split; apply Z.leb_le; lia. Qed.

Lemma in_range_false lo hi b : b < lo \/ hi < b -> in_range lo hi b = false.
Proof. intros. unfold in_range. apply andb_false_iff. rewrite !Z.leb_gt. lia. Qed.

Ltac ranges := rewrite ?in_range_true, ?in_range_false by lia.

Lemma second_ok_cont b0 b1 :
  is_cont b1 = true ->
  (b0 = 0xE0 -> 0xA0 <= b1) -> (b0 = 0xED -> b1 <= 0x9F) -> (b0 = 0xF0 -> 0x90 <= b1) -> (b0 = 0xF4 -> b1 <= 0x8F) ->
  second_ok b0 b1 = true.
Proof.
  unfold is_cont, in_range. intros Hc H1 H2 H3 H4. b2p. unfold second_ok, in_range.
  repeat case_match; b2p; subst; unfold is_cont, in_range; apply andb_true_iff; split; apply Z.leb_le; lia.
Qed.

Lemma utf8_char_decode c b rest :
  0 <= c <= 0x10FFFF -> utf8_char c = Ok b -> utf8_decode (b ++ rest) = c :: utf8_decode rest.
Proof.
  intros Hc. unfold utf8_char.
  destruct (c <? 0x80) eqn:E1; [intros [= <-]; cbn; by rewrite E1|]. b2p.
  destruct (c <? 0x800) eqn:E2; b2p.
  { intros [= <-]. cbn [app utf8_decode].
    rewrite (proj2 (Z.ltb_ge _ _)) by lia. unfold is_cont. ranges. f_equal. lia. }
  destruct ((0xD800 <=? c) && (c <=? 0xDFFF)) eqn:E3; [done|]. apply andb_false_iff in E3. rewrite !Z.leb_gt in E3.
  destruct (c <? 0x10000) eqn:E4; b2p.
  { intros [= <-]. cbn [app utf8_decode].
    rewrite (proj2 (Z.ltb_ge _ _)) by lia. ranges.
    rewrite second_ok_cont; [|apply in_range_true; lia|lia..]. unfold is_cont. ranges. f_equal. lia. }
  intros [= <-]. cbn [app utf8_decode].
  rewrite (proj2 (Z.ltb_ge _ _)) by lia. ranges.
  rewrite second_ok_cont; [|apply in_range_true; lia|lia..]. unfold is_cont. ranges. f_equal. lia.
Qed.

Lemma utf8_roundtrip s u :
  Forall (fun c => 0 <= c <= 0x10FFFF) s -> utf8_encode s = Ok u -> utf8_decode u = s.
Proof.
  intros Hs. revert u. induction Hs as [|c s Hc Hs IH]; intros u H; cbn in H.
  - by injection H as <-.
  - inv_ok. rewrite (utf8_char_decode c _ _ Hc) by done. f_equal. by apply IH.
Qed.

Ltac Zify.zify_post_hook ::= idtac.

(** ** Records *)

Lemma rstrip0_ljust u n : last u <> Some 0 -> rstrip0 (ljust n 0 u) = u.
Proof.
  intros Hu. unfold rstrip0, ljust, brep. rewrite rev_app_distr.
  rewrite (rev_alt (replicate _ 0)). fold (reverse (replicate (Z.to_nat (n - len u)) 0)).
  rewrite reverse_replicate.
  generalize (Z.to_nat (n - len u)). intros k. induction k as [|k IH]; [|exact IH]. cbn [replicate app].
  destruct u as [|x u _] using rev_ind; [done|]. rewrite last_snoc in Hu. rewrite rev_app_distr. cbn [rev app lstrip0].
  replace (x =? 0) with false by (symmetry; apply Z.eqb_neq; congruence).
  change (rev (rev (u ++ [x]))) with (rev (rev (u ++ [x]))). cbn [rev]. by rewrite rev_involutive.
Qed.

Lemma Direction_of_code d : Direction_of (direction_code d) = Ok d.
Proof. by destruct d. Qed.

(** The header of a record, read where it starts. *)
Lemma read_record_header pre ts d n x :
  fits 8 ts = true -> fits 1 d = true -> fits 2 n = true ->
  let data := pre ++ le_bytes 8 ts ++ le_bytes 1 d ++ le_bytes 2 n ++ x in
  unpack_le 8 data (len pre) = Ok ts /\ unpack_le 1 data (len pre + 8) = Ok d /\ unpack_le 2 data (len pre + 9) = Ok n.
Proof.
  intros H1 H2 H3 data. split_and!; unfold data.
  - by apply unpack_le_mid.
  - rewrite app_assoc. apply unpack_le_mid; [lia| |done]. rewrite len_app, le_bytes_len by lia. done.
  - rewrite (app_assoc (le_bytes 8 ts)), app_assoc. apply unpack_le_mid; [lia| |done].
    rewrite !len_app, !le_bytes_len by lia. lia.
Qed.

Lemma encode_record_ok r a :
  encode_record r = Ok a ->
  fits 8 (timestamp_us r) = true /\ fits 1 (direction_code (direction r)) = true /\ fits 2 (len (r_data r)) = true /\
  a = le_bytes 8 (timestamp_us r) ++ le_bytes 1 (direction_code (direction r)) ++ le_bytes 2 (len (r_data r)) ++ r_data r.
Proof.
  unfold encode_record. intros H. inv_ok.
  repeat match goal with E : pack_le _ _ = Ok _ |- _ => apply pack_le_ok in E as [? ->] end. done.
Qed.

(** Decoding stops at the first record that is cut short. *)
Lemma decode_records_prefix rs : forall fuel pre m E acc,
  encode_records rs = Ok E -> (length (take m E) < fuel)%nat ->
  exists k, decode_records fuel (pre ++ take m E) (len pre) acc = Ok (acc ++ take k rs)
    /\ ((length E <= m)%nat -> k = length rs).
Proof.
  induction rs as [|r rs IH]; intros fuel pre m E acc HE Hf; cbn in HE.
  - injection HE as <-. exists 0%nat. split; [|done]. rewrite take_nil, !app_nil_r.
    destruct fuel; [cbn in Hf; lia|]. cbn [decode_records]. by rewrite Z.ltb_irrefl.
  - inv_ok. match goal with H : encode_record r = Ok ?x |- _ => rename x into a; apply encode_record_ok in H as (H1 & H2 & H3 & ->) end.
    match goal with H : encode_records rs = Ok ?x |- _ => rename x into E' end.
    set (a := le_bytes 8 _ ++ _) in *.
    assert (Ha : len a = 11 + len (r_data r)) by (unfold a; rewrite !len_app, !le_bytes_len by lia; lia).
    pose proof (len_nonneg (r_data r)) as Hr. destruct fuel as [|fuel]; [lia|].
    cbn [decode_records]. rewrite len_app, len_take, len_app, Ha. pose proof (len_nonneg E').
    destruct (negb (_ <? _)) eqn:Eoff; [exists 0%nat; rewrite app_nil_r; split; [done|]; b2p; rewrite length_app; unfold len in *; lia|]. b2p.
    destruct (_ <? len pre + 11) eqn:E11; [exists 0%nat; rewrite app_nil_r; split; [done|]; b2p; rewrite length_app; unfold len in *; lia|]. b2p.
    assert (Htake : exists x, take m (a ++ E') = le_bytes 8 (timestamp_us r) ++ le_bytes 1 (direction_code (direction r))
        ++ le_bytes 2 (len (r_data r)) ++ x /\ x = take (m - 11) (r_data r ++ E')).
    { eexists. split; [|done]. unfold a. set (h8 := le_bytes 8 _). set (h1 := le_bytes 1 _). set (h2 := le_bytes 2 _).
      replace ((h8 ++ h1 ++ h2 ++ r_data r) ++ E') with ((h8 ++ h1 ++ h2) ++ (r_data r ++ E')) by (by rewrite <- !app_assoc).
      assert (length (h8 ++ h1 ++ h2) = 11%nat) as Hh by reflexivity.
      rewrite take_app_ge by lia. rewrite Hh. by rewrite <- !app_assoc. }
    destruct Htake as (x & -> & Hx).
    destruct (read_record_header pre _ _ _ x H1 H2 H3) as (-> & -> & ->). cbn [res_bind].
    destruct (_ <? len pre + 11 + len (r_data r)) eqn:Elen; b2p.
    { exists 0%nat. rewrite app_nil_r. split; [done|]. rewrite length_app. unfold len in *. lia. }
    assert (Hm : (length a <= m)%nat) by (unfold len in *; lia).
    assert (Hx' : x = r_data r ++ take (m - length a) E').
    { rewrite Hx, take_app_ge by (unfold len in *; lia). f_equal. f_equal. unfold len in *. lia. }
    set (h := le_bytes 8 _ ++ le_bytes 1 _ ++ le_bytes 2 _ ++ x).
    assert (Hh : pre ++ h = (pre ++ a) ++ take (m - length a) E').
    { unfold h, a. rewrite Hx'. by rewrite <- !app_assoc. }
    assert (Hs : slice (pre ++ h) (len pre + 11) (len pre + 11 + len (r_data r)) = r_data r).
    { unfold h. rewrite Hx', !app_assoc. rewrite <- app_assoc.
      apply slice_mid; rewrite !len_app, !le_bytes_len by lia; lia. }
    rewrite Hs, Direction_of_code. cbn [res_bind]. rewrite Hh.
    replace (len pre + 11 + len (r_data r)) with (len (pre ++ a)) by (rewrite len_app; lia).
    destruct (IH fuel (pre ++ a) (m - length a)%nat E' (acc ++ [mkRecord (timestamp_us r) (direction r) (r_data r)]) eq_refl)
      as (k & Hk & Hfull); [rewrite length_take, length_app in Hf; rewrite length_take; unfold len in *; lia|].
    exists (S k). rewrite Hk. cbn [take]. rewrite <- app_assoc. split; [by destruct r|].
    rewrite length_app. intros Hle. cbn. f_equal. apply Hfull. lia.
Qed.

(** The header of an encoded capture. *)
Definition header_of (c : CaptureFile) (u : bytes) : bytes :=
  DCAP_MAGIC ++ le_bytes 2 DCAP_VERSION ++ le_bytes 4 (baudrate c) ++ ljust 32 0 (take 32 u)
  ++ le_bytes 2 (flags c) ++ le_bytes 4 0.

Lemma encode_ok c b u :
  encode c = Ok b -> utf8_encode (chip c) = Ok u ->
  exists E, encode_records (records c) = Ok E /\ b = header_of c u ++ E /\ len (header_of c u) = 48
    /\ fits 4 (baudrate c) = true /\ fits 2 (flags c) = true.
Proof.
  unfold encode. intros H Hu. rewrite Hu in H. inv_ok.
  repeat match goal with E : pack_le _ _ = Ok _ |- _ => apply pack_le_ok in E as [? ->] end.
  destruct (negb _) eqn:Eh in H; [done|]. b2p. inv_ok. eexists. split_and!; [done|done|exact Eh|done|done].
Qed.

Lemma header_fields c u rest :
  fits 4 (baudrate c) = true -> fits 2 (flags c) = true -> len u <= 32 ->
  let data := header_of c u ++ rest in
  slice data 0 4 = DCAP_MAGIC /\ unpack_le 2 data 4 = Ok DCAP_VERSION /\ unpack_le 4 data 6 = Ok (baudrate c)
  /\ slice data 10 42 = ljust 32 0 u /\ unpack_le 2 data 42 = Ok (flags c).
Proof.
  intros Hb Hf Hu data. assert (Ht : take 32 u = u) by (apply take_ge; unfold len in Hu; lia).
  assert (Hl : len (ljust 32 0 u) = 32).
  { unfold ljust. rewrite len_app, len_brep by lia. lia. }
  assert (Hd : data = DCAP_MAGIC ++ le_bytes 2 DCAP_VERSION ++ le_bytes 4 (baudrate c) ++ ljust 32 0 u
    ++ le_bytes 2 (flags c) ++ le_bytes 4 0 ++ rest).
  { unfold data, header_of. rewrite Ht. by rewrite <- !app_assoc. }
  rewrite Hd. clear Hd data. split_and!.
  - reflexivity.
  - by apply (unpack_le_mid 2 DCAP_VERSION DCAP_MAGIC).
  - rewrite app_assoc. by apply (unpack_le_mid 4 (baudrate c) (DCAP_MAGIC ++ le_bytes 2 DCAP_VERSION)).
  - rewrite (app_assoc DCAP_MAGIC), (app_assoc (DCAP_MAGIC ++ _)). apply slice_mid; [reflexivity|].
    rewrite Hl. reflexivity.
  - rewrite (app_assoc DCAP_MAGIC), (app_assoc (DCAP_MAGIC ++ _)), app_assoc.
    apply unpack_le_mid; [lia| |done]. rewrite len_app, Hl. reflexivity.
Qed.

(**  An encoded capture decodes to itself, and a capture file cut short
    anywhere after its header (a recording that was interrupted) decodes to
    the same capture with the first records: only the ones that were cut are
    lost. *)
Theorem capture_roundtrip c b u n :
  encode c = Ok b -> utf8_encode (chip c) = Ok u ->
  Forall (fun p => 0 <= p <= 0x10FFFF) (chip c) -> len u <= 32 -> last u <> Some 0 ->
  decode b = Ok c /\
  (HEADER_SIZE <= Z.of_nat n ->
   exists k, decode (take n b) = Ok (mkCapture (baudrate c) (chip c) (flags c) (take k (records c)))).
Proof.
  intros Hc Hu Hchip Hlen Hlast. destruct (encode_ok c b u Hc Hu) as (E & HE & -> & Hh & Hb & Hf).
  assert (Hdec : forall m, exists k, decode (header_of c u ++ take m E)
      = Ok (mkCapture (baudrate c) (chip c) (flags c) (take k (records c)))
      /\ ((length E <= m)%nat -> k = length (records c))).
  { intros m. destruct (header_fields c u (take m E) Hb Hf Hlen) as (H1 & H2 & H3 & H4 & H5).
    unfold decode. rewrite H1, H2, H3, H4, H5, len_app, Hh. pose proof (len_nonneg (take m E)).
    replace (48 + len (take m E) <? HEADER_SIZE) with false by (symmetry; apply Z.ltb_ge; unfold HEADER_SIZE; lia).
    cbn [res_bind negb]. unfold beq. rewrite bool_decide_true by done. cbn [negb Z.eqb DCAP_VERSION Pos.eqb].
    rewrite rstrip0_ljust, (utf8_roundtrip (chip c) u) by done.
    replace HEADER_SIZE with (len (header_of c u)) by by rewrite Hh.
    destruct (decode_records_prefix (records c) (S (length (header_of c u ++ take m E))) (header_of c u) m E [] HE)
      as (k & Hk & Hfull); [rewrite length_app; lia|].
    exists k. rewrite Hk. done. }
  split.
  - destruct (Hdec (length E)) as (k & Hk & Hfull). rewrite take_ge in Hk by lia.
    rewrite Hk, Hfull, take_ge by lia. by destruct c.
  - intros Hn. destruct (Hdec (n - 48)%nat) as (k & Hk & _). exists k. rewrite <- Hk. f_equal.
    assert (length (header_of c u) = 48%nat) as Hl by (unfold len in Hh; lia).
    unfold HEADER_SIZE in Hn. rewrite take_app_ge by lia. by rewrite Hl.
Qed.

Definition demo_capture : CaptureFile :=
  mkCapture 115200 [104; 105; 51; 53; 49; 54; 99; 118; 51; 48; 48] FLAG_HAS_TIMING
    [mkRecord 10 TX [170]; mkRecord 1500 RX [32; 32; 32; 32; 32]; mkRecord 2000 TX [1; 2; 3]].

Lemma capture_roundtrip_witness :
  exists b, encode demo_capture = Ok b /\ decode b = Ok demo_capture
    /\ exists k, decode (take 60 b) = Ok (mkCapture 115200 (chip demo_capture) 1 (take k (records demo_capture))).
Proof.
  destruct (encode demo_capture) as [b| |] eqn:E; [|vm_compute in E; discriminate E..].
  destruct (capture_roundtrip demo_capture b (chip demo_capture) 60 E) as [H1 H2];
    [vm_compute; reflexivity| |vm_compute; discriminate|vm_compute; discriminate|].
  - apply (bool_decide_unpack _). vm_compute. exact I.
  - exists b. split; [reflexivity|]. split; [exact H1|]. apply H2. vm_compute. discriminate.
Defined.

(** ** Recording, saving and replaying a session *)

(** What a protocol does with its transport, unread aside. *)
Inductive op := ORead (n : Z) (tmo : option Z) | OWrite (d : bytes) | OFlushInput | OFlushOutput | OWaiting | OSleep (d : Z).

Section Session.
Context {T : Type} `{Transport T}.

(** The bytes an operation returned to the protocol. *)
Definition do_op (o : op) (t : T) : bytes * T :=
  match o with
  | ORead n tmo => let (r, t) := t_read n tmo t in (match r with Ok d => d | _ => [] end, t)
  | OWrite d => let (_, t) := t_write d t in ([], t)
  | OFlushInput => let (_, t) := t_flush_input t in ([], t)
  | OFlushOutput => let (_, t) := t_flush_output t in ([], t)
  | OWaiting => let (_, t) := t_bytes_waiting t in ([], t)
  | OSleep d => ([], t_sleep d t)
  end.

Fixpoint do_ops (os : list op) (t : T) : bytes * T :=
  match os with
  | [] => ([], t)
  | o :: os' => let (a, t) := do_op o t in let (b, t) := do_ops os' t in (a ++ b, t)
  end.

End Session.

Definition op_writes (os : list op) : list bytes :=
  omap (fun o => match o with OWrite d => Some d | _ => None end) os.

#[local] Arguments of_direction : simpl never.

Lemma of_direction_app d a b : of_direction d (a ++ b) = of_direction d a ++ of_direction d b.
Proof. unfold of_direction. by rewrite List.filter_app, fmap_app. Qed.

Lemma do_op_records {T} `{Transport T} o (r : RecordingTransport T) a r' :
  do_op o r = (a, r') ->
  concat (of_direction RX (records (capture r'))) = concat (of_direction RX (records (capture r))) ++ a
  /\ of_direction TX (records (capture r')) = of_direction TX (records (capture r)) ++ op_writes [o].
Proof.
  destruct o as [n tmo|d| | | |d]; cbn.
  - unfold Rec_read. destruct (t_read n tmo (inner r)) as [[d| |] t].
    + destruct (beq d []) eqn:E; unfold beq in E; b2p.
      * subst. intros [= <- <-]. cbn. by rewrite !app_nil_r.
      * unfold Rec_timestamp. cbn. destruct (t_monotonic t) as [now t']. intros [= <- <-]. cbn.
        rewrite !of_direction_app, concat_app.
        change (of_direction RX [mkRecord _ RX d]) with [d]. change (of_direction TX [mkRecord _ RX d]) with (@nil bytes).
        cbn. by rewrite !app_nil_r.
    + intros [= <- <-]. cbn. by rewrite !app_nil_r.
    + intros [= <- <-]. cbn. by rewrite !app_nil_r.
  - unfold Rec_write, Rec_timestamp. destruct (t_monotonic (inner r)) as [now t1]. cbn.
    destruct (t_write d t1) as [x t2]. intros [= <- <-]. cbn. rewrite !of_direction_app.
    change (of_direction RX [mkRecord _ TX d]) with (@nil bytes). change (of_direction TX [mkRecord _ TX d]) with [d].
    by rewrite !app_nil_r.
  - unfold through. destruct (t_flush_input (inner r)) as [x t]. intros [= <- <-]. cbn. by rewrite !app_nil_r.
  - unfold through. destruct (t_flush_output (inner r)) as [x t]. intros [= <- <-]. cbn. by rewrite !app_nil_r.
  - unfold through. destruct (t_bytes_waiting (inner r)) as [x t]. intros [= <- <-]. cbn. by rewrite !app_nil_r.
  - intros [= <- <-]. cbn. by rewrite !app_nil_r.
Qed.

(**  Over any transport: the capture of a session holds, in order, every
    byte the protocol read and every buffer it wrote, and the replay transport
    made from it will feed back exactly the bytes read. *)
Theorem recording_replays {T} `{Transport T} os (r : RecordingTransport T) a r' clock :
  records (capture r) = [] -> do_ops os r = (a, r') ->
  rp_buffer (new_replay (capture r') clock) = a /\ of_direction TX (records (capture r')) = op_writes os.
Proof.
  intros Hr Hos.
  enough (concat (of_direction RX (records (capture r'))) = concat (of_direction RX (records (capture r))) ++ a
    /\ of_direction TX (records (capture r')) = of_direction TX (records (capture r)) ++ op_writes os) as [H1 H2].
  { rewrite Hr in H1, H2. split; [exact H1|exact H2]. }
  clear Hr. revert r a Hos. induction os as [|o os IH]; intros r a Hos; cbn in Hos.
  - injection Hos as <- <-. cbn. by rewrite !app_nil_r.
  - destruct (do_op o r) as [a1 r1] eqn:E1. destruct (do_ops os r1) as [a2 r2] eqn:E2. injection Hos as <- <-.
    apply do_op_records in E1 as [H1 H2]. destruct (IH r1 a2 E2) as [H3 H4].
    rewrite H3, H4, H1, H2. split; [by rewrite <- app_assoc|].
    rewrite <- app_assoc. f_equal. destruct o; cbn; done.
Qed.

Lemma recording_replays_witness :
  let t := Mock [5; 6; 7] [] false true 0 in
  let r := new_recording t [104] 115200 in
  let '(a, r') := do_ops [OWrite [1]; ORead 2 None; OWrite [2; 3]; ORead 4 None] r in
  rp_buffer (new_replay (capture r') 0) = [5; 6; 7] /\ of_direction TX (records (capture r')) = [[1]; [2; 3]].
Proof.
  intros t r. destruct (do_ops [OWrite [1]; ORead 2 None; OWrite [2; 3]; ORead 4 None] r) as [a r'] eqn:E.
  destruct (recording_replays _ r a r' 0 eq_refl E) as [H1 H2].
  split; [|exact H2]. rewrite H1. vm_compute in E. injection E as <- _. reflexivity.
Defined.

(** Bytes that were pushed back with [unread] are recorded again when they are
    read again: the capture of such a session holds more than the device
    sent. *)
Theorem recording_unread_twice :
  let t := Mock [5; 6] [] false true 0 in
  let r := new_recording t [] 115200 in
  let r1 := (t_read 2 None r).2 in
  let r2 := (t_unread [6] r1).2 in
  let r3 := (t_read 1 None r2).2 in
  rp_buffer (new_replay (capture r3) 0) = [5; 6; 6].
Proof. reflexivity. Qed.
