(* ===== verification/Dhcp.v ===== *)
(** * The DHCP server

  Models [src/src/defib/network/dhcp_server.py]: option parsing, replies and
  the reaction of [DHCPServerProtocol] to a datagram.  Addresses are their
  four octets, what [socket.inet_aton] makes of the configured text; the
  predicate that picks clients is a parameter.  Binding the socket and the
  log are left out. *)

From S2P Require Import Prelude.

Definition CLIENT_PORT : Z := 68.
Definition MAGIC : bytes := [0x63; 0x82; 0x53; 0x63].
Definition DISCOVER : Z := 1.
Definition OFFER : Z := 2.
Definition REQUEST : Z := 3.
Definition ACK : Z := 5.
Definition LEASE_SECONDS : Z := 600.

Record ipv4 := Ip { ip_a : Z; ip_b : Z; ip_c : Z; ip_d : Z }.
Definition inet_aton (ip : ipv4) : bytes := [ip_a ip; ip_b ip; ip_c ip; ip_d ip].

(** The loop of [_options]; a turn consumes a byte at least. *)
Fixpoint options_loop (fuel : nat) (data : bytes) (i : Z) (opts : gmap Z bytes) : res (gmap Z bytes) :=
  match fuel with
  | O => Diverge
  | S fuel' =>
      if negb (i <? len data) then Ok opts else
      let! code := index data i in
      if code =? 255 then Ok opts else
      if code =? 0 then options_loop fuel' data (i + 1) opts else
      if len data <=? i + 1 then Ok opts else
      let! size := index data (i + 1) in
      options_loop fuel' data (i + (2 + size)) (<[code := slice data (i + 2) (i + 2 + size)]> opts)
  end.

Definition options (data : bytes) : res (gmap Z bytes) := options_loop (S (length data)) data 0 ∅.

Record config := mkConfig {
  client_ip : ipv4; server_ip : ipv4; netmask : ipv4; bootfile : bytes; accept : bytes -> bool
}.

Definition build_reply (request : bytes) (kind : Z) (cfg : config) : bytes :=
  let head := brep 240 0 in
  let head := splice head 0 [0x02; 0x01; 0x06; 0x00] in
  let head := splice head 4 (slice request 4 8) in
  let head := splice head 10 (be_bytes 2 0x8000) in
  let head := splice head 16 (inet_aton (client_ip cfg)) in
  let head := splice head 20 (inet_aton (server_ip cfg)) in
  let head := splice head 28 (slice request 28 44) in
  let head := splice head 108 (take 127 (bootfile cfg)) in
  let head := splice head 236 MAGIC in
  let opts :=
    [53; 1; kind] ++ [54; 4] ++ inet_aton (server_ip cfg) ++ [51; 4] ++ be_bytes 4 LEASE_SECONDS
    ++ [1; 4] ++ inet_aton (netmask cfg) ++ [0xFF] in
  head ++ opts.

(** [leases] holds the MAC addresses; [d_sent] is the ghost list of the
    datagrams sent, all to the broadcast address and [CLIENT_PORT]. *)
Record server := mkServer { leases : list bytes; d_sent : list bytes }.

Definition reply_kind (kind : Z) : option Z :=
  if kind =? DISCOVER then Some OFFER else if kind =? REQUEST then Some ACK else None.

Definition datagram_received (cfg : config) (data : bytes) (s : server) : res unit * server :=
  if (len data <? 240) || negb (beq (slice data 0 1) [1]) || negb (beq (slice data 236 240) MAGIC)
  then (Ok tt, s) else
  let mac := slice data 28 34 in
  if negb (accept cfg mac) then (Ok tt, s) else
  match (let! opts := options (drop 240 data) in
         let! kind := index (default [0] (opts !! 53)) 0 in
         Ok (opts, kind)) with
  | Ok (opts, kind) =>
      let server_id := inet_aton (server_ip cfg) in
      if (kind =? REQUEST) && negb (beq (default server_id (opts !! 54)) server_id) then (Ok tt, s) else
      match reply_kind kind with
      | None => (Ok tt, s)
      | Some reply =>
          (Ok tt, mkServer (if reply =? ACK then leases s ++ [mac] else leases s)
                    (d_sent s ++ [build_reply data reply cfg]))
      end
  | Raise e => (Raise e, s)
  | Diverge => (Diverge, s)
  end.

(** ** Option parsing ends *)

Lemma index_ok {A} (l : list A) i : 0 <= i < len l -> exists x, index l i = Ok x.
Proof.
  intros Hi. unfold index. destruct (l !! Z.to_nat i) eqn:E; [by eexists|].
  apply lookup_ge_None in E. unfold len in Hi. lia.
Qed.

Lemma index_is_byte l i x : is_bytes l -> index l i = Ok x -> is_byte x.
Proof.
  intros Hl. unfold index. destruct (l !! Z.to_nat i) eqn:E; [|done]. intros [= <-].
  by eapply Forall_lookup_1 in Hl.
Qed.

Lemma options_loop_total fuel data i opts :
  is_bytes data -> 0 <= i -> Z.max 0 (len data - i) < Z.of_nat fuel -> exists m, options_loop fuel data i opts = Ok m.
Proof.
  intros Hd. revert i opts. induction fuel as [|fuel IH]; intros i opts Hi Hf; cbn [options_loop]; [lia|].
  destruct (i <? len data) eqn:E; b2p; cbn [negb]; [|by eexists].
  destruct (index_ok data i) as [code ->]; [lia|]. cbn [res_bind].
  destruct (code =? 255); [by eexists|]. destruct (code =? 0); [apply IH; lia|].
  destruct (len data <=? i + 1) eqn:E1; b2p; [by eexists|].
  destruct (index_ok data (i + 1)) as [size Hs]; [lia|]. rewrite Hs. cbn [res_bind].
  apply index_is_byte in Hs; [|done]. unfold is_byte in Hs. apply IH; lia.
Qed.

Lemma options_total data : is_bytes data -> exists m, options data = Ok m.
Proof. intros Hd. apply options_loop_total; [done|lia|]. pose proof (len_nonneg data). unfold len in *. lia. Qed.

(** ** The reply as a client reads it *)

Lemma slice_splice_at {A} (f : list A) at_ d i j :
  i = at_ -> j = at_ + len d -> 0 <= at_ -> at_ + len d <= len f -> slice (splice f at_ d) i j = d.
Proof. intros -> ->. apply slice_splice. Qed.

(** The options of a reply. *)
Definition reply_options (kind : Z) (cfg : config) : gmap Z bytes :=
  <[1 := inet_aton (netmask cfg)]> (<[51 := be_bytes 4 LEASE_SECONDS]>
    (<[54 := inet_aton (server_ip cfg)]> (<[53 := [kind]]> ∅))).

Lemma reply_head request kind cfg :
  240 <= len request ->
  exists head, build_reply request kind cfg = head ++
      [53; 1; kind] ++ [54; 4] ++ inet_aton (server_ip cfg) ++ [51; 4] ++ be_bytes 4 LEASE_SECONDS
      ++ [1; 4] ++ inet_aton (netmask cfg) ++ [0xFF]
    /\ len head = 240
    /\ slice head 0 4 = [2; 1; 6; 0] /\ slice head 4 8 = slice request 4 8 /\ slice head 10 12 = be_bytes 2 0x8000
    /\ slice head 16 20 = inet_aton (client_ip cfg) /\ slice head 20 24 = inet_aton (server_ip cfg)
    /\ slice head 28 44 = slice request 28 44
    /\ slice head 108 (108 + len (take 127 (bootfile cfg))) = take 127 (bootfile cfg)
    /\ slice head 236 240 = MAGIC.
Proof.
  intros Hr. eexists. split; [reflexivity|].
  assert (H4 : len (slice request 4 8) = 4) by (rewrite len_slice; lia).
  assert (H16 : len (slice request 28 44) = 16) by (rewrite len_slice; lia).
  assert (Hn : 0 <= len (take 127 (bootfile cfg)) <= 127).
  { rewrite len_take. pose proof (len_nonneg (bootfile cfg)). lia. }
  assert (K1 : len [2; 1; 6; 0] = 4) by done. assert (K3 : len (be_bytes 2 0x8000) = 2) by done.
  assert (Ki : forall ip, len (inet_aton ip) = 4) by done. assert (Km : len MAGIC = 4) by done.
  pose proof (Ki (client_ip cfg)). pose proof (Ki (server_ip cfg)).
  set (h0 := brep 240 0). assert (L0 : len h0 = 240) by (apply len_brep; lia).
  set (h1 := splice h0 0 [2; 1; 6; 0]). assert (L1 : len h1 = 240) by (unfold h1; rewrite splice_len; lia).
  set (h2 := splice h1 4 (slice request 4 8)). assert (L2 : len h2 = 240) by (unfold h2; rewrite splice_len; lia).
  set (h3 := splice h2 10 (be_bytes 2 0x8000)). assert (L3 : len h3 = 240) by (unfold h3; rewrite splice_len; lia).
  set (h4 := splice h3 16 (inet_aton (client_ip cfg))). assert (L4 : len h4 = 240) by (unfold h4; rewrite splice_len; lia).
  set (h5 := splice h4 20 (inet_aton (server_ip cfg))). assert (L5 : len h5 = 240) by (unfold h5; rewrite splice_len; lia).
  set (h6 := splice h5 28 (slice request 28 44)). assert (L6 : len h6 = 240) by (unfold h6; rewrite splice_len; lia).
  set (h7 := splice h6 108 (take 127 (bootfile cfg))). assert (L7 : len h7 = 240) by (unfold h7; rewrite splice_len; lia).
  set (h8 := splice h7 236 MAGIC). assert (L8 : len h8 = 240) by (unfold h8; rewrite splice_len; lia).
  split_and!; [done|..].
  all: repeat (match goal with |- slice ?h _ _ = _ => unfold h end;
               first [apply slice_splice_at; lia | rewrite slice_splice_other by lia]).
Qed.

Lemma reply_opts_parse kind cfg :
  options ([53; 1; kind] ++ [54; 4] ++ inet_aton (server_ip cfg) ++ [51; 4] ++ be_bytes 4 LEASE_SECONDS
      ++ [1; 4] ++ inet_aton (netmask cfg) ++ [0xFF]) = Ok (reply_options kind cfg).
Proof. reflexivity. Qed.

(** The request [data] is one the server must answer with [reply]. *)
Definition wants (cfg : config) (data : bytes) (reply : Z) : Prop :=
  240 <= len data /\ slice data 0 1 = [1] /\ slice data 236 240 = MAGIC /\ accept cfg (slice data 28 34) = true /\
  exists opts kind rest, options (drop 240 data) = Ok opts /\ default [0] (opts !! 53) = kind :: rest
    /\ (kind = DISCOVER /\ reply = OFFER \/
        kind = REQUEST /\ reply = ACK /\ default (inet_aton (server_ip cfg)) (opts !! 54) = inet_aton (server_ip cfg)).

Lemma datagram_wanted cfg data s reply :
  wants cfg data reply ->
  datagram_received cfg data s
  = (Ok tt, mkServer (if reply =? ACK then leases s ++ [slice data 28 34] else leases s)
              (d_sent s ++ [build_reply data reply cfg])).
Proof.
  intros (Hl & H0 & Hm & Ha & opts & kind & rest & Ho & Hk & Hr). unfold datagram_received.
  rewrite (proj2 (Z.ltb_ge _ _) Hl), H0, Hm, Ha. unfold beq. rewrite !bool_decide_true by done. cbn [orb negb].
  rewrite Ho. cbn [res_bind]. rewrite Hk.
  change (index (kind :: rest) 0) with (Ok kind). cbn [res_bind].
  destruct Hr as [[-> ->]|(-> & -> & H54)]; [done|]. rewrite H54, bool_decide_true by done. done.
Qed.

Lemma datagram_unwanted cfg data s :
  is_bytes data -> (forall reply, ~ wants cfg data reply) ->
  (datagram_received cfg data s).2 = s /\
  ((datagram_received cfg data s).1 = Ok tt \/ (datagram_received cfg data s).1 = Raise IndexError).
Proof.
  intros Hd Hno. unfold datagram_received.
  destruct (_ || _ || _) eqn:Eh; [auto|]. b2p. unfold beq in *. b2p.
  destruct (accept cfg (slice data 28 34)) eqn:Ea; cbn [negb]; [|auto].
  destruct (options_total (drop 240 data)) as [opts Ho]; [by apply Forall_drop|]. rewrite Ho. cbn [res_bind].
  destruct (default [0] (opts !! 53)) as [|kind rest] eqn:Ek; [auto|].
  change (index (kind :: rest) 0) with (Ok kind). cbn [res_bind].
  assert (Hwant : forall reply, (kind = DISCOVER /\ reply = OFFER \/ kind = REQUEST /\ reply = ACK /\
      default (inet_aton (server_ip cfg)) (opts !! 54) = inet_aton (server_ip cfg)) -> False).
  { intros reply Hr. apply (Hno reply). split_and!; try done. exists opts, kind, rest. auto. }
  destruct (kind =? REQUEST) eqn:Er; b2p; cbn [andb].
  - destruct (bool_decide _) eqn:E54; cbn [negb]; [|auto]. b2p. by destruct (Hwant ACK); auto.
  - unfold reply_kind. destruct (kind =? DISCOVER) eqn:Ed; b2p; [by destruct (Hwant OFFER); auto|].
    rewrite (proj2 (Z.eqb_neq _ _) Er). auto.
Qed.

(**  The DHCP server answers exactly the requests meant for it: a
    well-formed BOOTREQUEST of a client the predicate accepts that is a
    DISCOVER (answered with OFFER), or a REQUEST that names this server or
    none (answered with ACK, and the lease is recorded); every other datagram
    leaves it silent, malformed ones at worst raise [IndexError].  The answer
    repeats the transaction id and hardware address of the request, carries
    the configured addresses and boot file, and its options parse back to the
    message type, server, lease time and netmask. *)
Theorem dhcp_answers cfg data s :
  is_bytes data ->
  (forall reply, wants cfg data reply ->
     let p := build_reply data reply cfg in
     datagram_received cfg data s
     = (Ok tt, mkServer (if reply =? ACK then leases s ++ [slice data 28 34] else leases s) (d_sent s ++ [p]))
     /\ slice p 0 4 = [2; 1; 6; 0] /\ slice p 4 8 = slice data 4 8 /\ slice p 28 44 = slice data 28 44
     /\ slice p 16 20 = inet_aton (client_ip cfg) /\ slice p 20 24 = inet_aton (server_ip cfg)
     /\ slice p 108 (108 + len (take 127 (bootfile cfg))) = take 127 (bootfile cfg)
     /\ slice p 236 240 = MAGIC /\ options (drop 240 p) = Ok (reply_options reply cfg))
  /\ ((forall reply, ~ wants cfg data reply) ->
      (datagram_received cfg data s).2 = s /\
      ((datagram_received cfg data s).1 = Ok tt \/ (datagram_received cfg data s).1 = Raise IndexError)).
Proof.
  intros Hd. split; [|by apply datagram_unwanted]. intros reply Hw p.
  destruct (reply_head data reply cfg) as (head & Hp & Hl & H1 & H2 & _ & H3 & H4 & H5 & H6 & H7); [by destruct Hw|].
  fold p in Hp. assert (Hn : len (take 127 (bootfile cfg)) <= 127) by (rewrite len_take; lia).
  assert (Hs : forall i j, 0 <= i -> j <= 240 -> slice p i j = slice head i j).
  { intros. rewrite Hp. apply slice_app_l; lia. }
  rewrite !Hs by lia. split_and!; [by apply datagram_wanted|done..|].
  rewrite Hp. replace 240%nat with (length head) by (unfold len in Hl; lia).
  rewrite drop_app_length. apply reply_opts_parse.
Qed.

Definition demo_dhcp : config :=
  mkConfig (Ip 192 168 1 10) (Ip 192 168 1 1) (Ip 255 255 255 0) [98; 111; 111; 116] (fun mac => beq mac [0; 17; 34; 51; 68; 85]).
Definition demo_discover : bytes :=
  [1; 1; 6; 0; 222; 173; 190; 239] ++ brep 20 0 ++ [0; 17; 34; 51; 68; 85] ++ brep 202 0 ++ MAGIC ++ [53; 1; 1; 255].

Lemma dhcp_answers_witness :
  wants demo_dhcp demo_discover OFFER /\
  slice (build_reply demo_discover OFFER demo_dhcp) 4 8 = [222; 173; 190; 239] /\
  d_sent (datagram_received demo_dhcp demo_discover (mkServer [] [])).2 = [build_reply demo_discover OFFER demo_dhcp].
Proof.
  assert (Hw : wants demo_dhcp demo_discover OFFER).
  { split_and!; [vm_compute; discriminate|vm_compute; reflexivity..|].
    exists {[53 := [1]]}, 1, []. split_and!; [vm_compute; reflexivity|reflexivity|by left]. }
  destruct (dhcp_answers demo_dhcp demo_discover (mkServer [] [])) as [H _].
  { apply (bool_decide_unpack _). vm_compute. exact I. }
  destruct (H OFFER Hw) as (Hr & _ & H4 & _). split_and!; [exact Hw|exact H4|]. rewrite Hr. reflexivity.
Defined.
