(* ===== verification/Ubi.v ===== *)
(** * UBI images

  Models [src/src/defib/ubi.py]: the extraction of a volume from a raw image
  of physical erase blocks.  The dict of logical blocks is an association list
  in insertion order, since the code takes the length of its first value. *)

From S2P Require Import Prelude.

Definition UBI_EC_MAGIC : bytes := [85; 66; 73; 35].
Definition UBIFS_MAGIC : bytes := [0x31; 0x18; 0x10; 0x06].
Definition EC_HDR_SIZE : Z := 64.
Definition VID_HDR_SIZE : Z := 64.
Definition VID_MAGIC : bytes := [85; 66; 73; 33].

Definition is_ubi_image (data : bytes) : bool := (4 <=? len data) && beq (slice data 0 4) UBI_EC_MAGIC.
Definition is_ubifs_image (data : bytes) : bool := (4 <=? len data) && beq (slice data 0 4) UBIFS_MAGIC.

(** [lebs[k] = v] on a dict: a known key keeps its place. *)
Fixpoint dict_set (k : Z) (v : bytes) (d : list (Z * bytes)) : list (Z * bytes) :=
  match d with
  | [] => [(k, v)]
  | (k', v') :: d' => if k =? k' then (k, v) :: d' else (k', v') :: dict_set k v d'
  end.

Fixpoint dict_get (k : Z) (d : list (Z * bytes)) : option bytes :=
  match d with
  | [] => None
  | (k', v) :: d' => if k =? k' then Some v else dict_get k d'
  end.

(** The fields of the EC and VID headers the code uses: [struct.unpack_from]
    reads the whole header, so it raises when the header does not fit. *)
Definition read_ec (data : bytes) (off : Z) : res (Z * Z) :=
  if len data <? off + EC_HDR_SIZE then Raise StructError else
  let! vid_off := unpack_be 4 data (off + 16) in
  let! data_off := unpack_be 4 data (off + 20) in
  Ok (vid_off, data_off).

Definition read_vid (data : bytes) (off : Z) : res (Z * Z) :=
  if len data <? off + VID_HDR_SIZE then Raise StructError else
  let! vol := unpack_be 4 data (off + 8) in
  let! lnum := unpack_be 4 data (off + 12) in
  Ok (vol, lnum).

(** One turn of the loop over the physical blocks. *)
Definition peb_step (data : bytes) (peb_size vol_id peb_idx : Z) (lebs : list (Z * bytes)) : res (list (Z * bytes)) :=
  let peb_off := peb_idx * peb_size in
  if negb (beq (slice data peb_off (peb_off + 4)) UBI_EC_MAGIC) then Ok lebs else
  let! (vid, dat) := read_ec data peb_off in
  let vid_off := peb_off + vid in
  if len data <? vid_off + VID_HDR_SIZE then Ok lebs else
  if negb (beq (slice data vid_off (vid_off + 4)) VID_MAGIC) then Ok lebs else
  let! (vol, lnum) := read_vid data vid_off in
  if negb (vol =? vol_id) then Ok lebs else
  let d_off := peb_off + dat in
  Ok (dict_set lnum (slice data d_off (d_off + (peb_size - dat))) lebs).

Fixpoint collect (data : bytes) (peb_size vol_id : Z) (idxs : list Z) (lebs : list (Z * bytes)) : res (list (Z * bytes)) :=
  match idxs with
  | [] => Ok lebs
  | i :: idxs' => let! lebs := peb_step data peb_size vol_id i lebs in collect data peb_size vol_id idxs' lebs
  end.

Definition max_key (d : list (Z * bytes)) : Z := foldr (fun kv m => Z.max (fst kv) m) 0 d.

Definition assemble (lebs : list (Z * bytes)) (leb_size : Z) : bytes :=
  concat ((fun i => default (brep leb_size 0xFF) (dict_get i lebs)) <$> range (max_key lebs + 1)).

(** [result[-n:]], which is all of [result] for [n = 0] *)
Definition suffix (n : Z) (l : bytes) : bytes := if n =? 0 then l else last_n (Z.to_nat n) l.

(** The trimming loop; every turn shortens the result. *)
Fixpoint trim (fuel : nat) (leb_size : Z) (result : bytes) : bytes :=
  match fuel with
  | O => result
  | S fuel' =>
      if (leb_size <? len result) && beq (suffix leb_size result) (brep leb_size 0xFF)
      then trim fuel' leb_size (but_last (Z.to_nat leb_size) result)
      else result
  end.

Definition extract_ubifs (ubi_data : bytes) (peb_size vol_id : Z) : res bytes :=
  if negb (is_ubi_image ubi_data) then Raise ValueError else
  if peb_size =? 0 then Raise ZeroDivisionError else
  let! lebs := collect ubi_data peb_size vol_id (range (len ubi_data / peb_size)) [] in
  match lebs with
  | [] => Raise ValueError
  | (_, first) :: _ =>
      let leb_size_actual := len first in
      let result := assemble lebs leb_size_actual in
      let ubifs := trim (length result) leb_size_actual result in
      if negb (is_ubifs_image ubifs) then Raise ValueError else Ok ubifs
  end.

(** ** Images, block by block *)

(** What a physical block of the image holds: something that is no UBI block,
    an erased UBI block, or a logical block of a volume. *)
Inductive peb := Foreign | Free | Mapped (vol lnum : Z) (body : bytes).

(** Block [b], of size [peb_size], holds [p]: stated by what stands where. *)
Definition holds (peb_size : Z) (b : bytes) (p : peb) : Prop :=
  len b = peb_size /\
  match p with
  | Foreign => slice b 0 4 <> UBI_EC_MAGIC
  | Free =>
      exists vid dat, slice b 0 4 = UBI_EC_MAGIC /\ read_ec b 0 = Ok (vid, dat) /\ 0 <= vid <= peb_size - VID_HDR_SIZE
        /\ slice b vid (vid + 4) <> VID_MAGIC
  | Mapped vol lnum body =>
      exists vid dat, slice b 0 4 = UBI_EC_MAGIC /\ read_ec b 0 = Ok (vid, dat) /\ 0 <= vid <= peb_size - VID_HDR_SIZE
        /\ slice b vid (vid + 4) = VID_MAGIC /\ read_vid b vid = Ok (vol, lnum) /\ 0 <= lnum
        /\ 0 <= dat <= peb_size /\ body = slice b dat peb_size
  end.

(** The logical blocks of a volume, in physical order. *)
Definition volume (vol_id : Z) (pebs : list peb) : list (Z * bytes) :=
  omap (fun p => match p with Mapped v l body => if v =? vol_id then Some (l, body) else None | _ => None end) pebs.

Lemma concat_len (blocks : list bytes) n : Forall (fun b => len b = n) blocks -> len (concat blocks) = len blocks * n.
Proof.
  induction 1 as [|b l Hb Hl IH]; [done|]. cbn [concat]. rewrite len_app, len_cons, IH. lia.
Qed.

(** Reading inside a block. *)
Lemma slice_block (blocks : list bytes) n i b a c :
  Forall (fun b => len b = n) blocks -> blocks !! i = Some b -> 0 <= a -> c <= n ->
  slice (concat blocks) (Z.of_nat i * n + a) (Z.of_nat i * n + c) = slice b a c.
Proof.
  intros Hall Hi Ha Hc. pose proof (Forall_lookup_1 _ _ _ _ Hall Hi) as Hb. cbn in Hb.
  apply list_elem_of_split_length in Hi as (l1 & l2 & -> & ->).
  apply Forall_app in Hall as [Hl1 _]. apply concat_len in Hl1. fold (len l1).
  rewrite concat_app. cbn [concat]. rewrite slice_app_r by lia. rewrite Hl1.
  rewrite slice_app_l by (unfold len in *; lia). f_equal; unfold len; lia.
Qed.

Lemma unpack_be_block (blocks : list bytes) n i b k off :
  Forall (fun b => len b = n) blocks -> blocks !! i = Some b -> 0 <= off -> 0 <= k -> off + k <= n ->
  unpack_be k (concat blocks) (Z.of_nat i * n + off) = unpack_be k b off.
Proof.
  intros Hall Hi Ho Hk Hle. pose proof (Forall_lookup_1 _ _ _ _ Hall Hi) as Hb. cbn in Hb.
  pose proof (lookup_lt_Some _ _ _ Hi). unfold unpack_be.
  rewrite (concat_len _ _ Hall), Hb, <- Z.add_assoc.
  rewrite (slice_block blocks n i b off (off + k)) by (done || lia).
  rewrite !(proj2 (Z.leb_le _ _)) by (unfold len; nia). done.
Qed.

Lemma peb_step_block blocks peb_size i b p vol_id lebs :
  Forall (fun b => len b = peb_size) blocks -> blocks !! i = Some b -> EC_HDR_SIZE <= peb_size ->
  holds peb_size b p ->
  peb_step (concat blocks) peb_size vol_id (Z.of_nat i) lebs
  = Ok (match p with
        | Mapped v l body => if v =? vol_id then dict_set l body lebs else lebs
        | _ => lebs
        end).
Proof.
  unfold EC_HDR_SIZE. intros Hall Hi Hs [Hb Hp]. pose proof (lookup_lt_Some _ _ _ Hi) as Hlt.
  assert (Hlen : (Z.of_nat i + 1) * peb_size <= len (concat blocks)).
  { rewrite (concat_len _ _ Hall). unfold len. nia. }
  assert (Hsl : forall a c, 0 <= a -> c <= peb_size ->
    slice (concat blocks) (Z.of_nat i * peb_size + a) (Z.of_nat i * peb_size + c) = slice b a c)
    by (intros; by apply slice_block).
  assert (Hec : read_ec (concat blocks) (Z.of_nat i * peb_size) = read_ec b 0).
  { unfold read_ec, EC_HDR_SIZE. rewrite !(proj2 (Z.ltb_ge _ _)) by lia.
    rewrite !(unpack_be_block blocks peb_size i b) by (done || lia). done. }
  assert (Hvid : forall v, 0 <= v <= peb_size - VID_HDR_SIZE ->
    read_vid (concat blocks) (Z.of_nat i * peb_size + v) = read_vid b v).
  { unfold VID_HDR_SIZE. intros v Hv. unfold read_vid, VID_HDR_SIZE. rewrite !(proj2 (Z.ltb_ge _ _)) by lia.
    rewrite <- !Z.add_assoc, !(unpack_be_block blocks peb_size i b) by (done || lia). done. }
  unfold peb_step. pose proof (Hsl 0 4 ltac:(lia) ltac:(lia)) as Hm. rewrite Z.add_0_r in Hm. rewrite Hm, Hec.
  destruct p as [| |v l body].
  - unfold beq. by rewrite bool_decide_false.
  - destruct Hp as (vid & dat & -> & -> & Hv & Hne). unfold beq. rewrite bool_decide_true by done. cbn [negb res_bind].
    unfold VID_HDR_SIZE in *. rewrite (proj2 (Z.ltb_ge _ _)) by lia.
    rewrite <- Z.add_assoc, Hsl by lia. by rewrite bool_decide_false.
  - destruct Hp as (vid & dat & -> & -> & Hv & Hm' & Hr & Hl & Hd & ->). unfold beq. rewrite bool_decide_true by done. cbn [negb res_bind].
    unfold VID_HDR_SIZE in *. rewrite (proj2 (Z.ltb_ge _ _)) by lia.
    rewrite <- Z.add_assoc, Hsl by lia. rewrite bool_decide_true by done. cbn [negb].
    rewrite Hvid, Hr by lia. cbn [res_bind].
    destruct (v =? vol_id); cbn [negb]; [|done]. do 2 f_equal.
    rewrite <- Z.add_assoc. replace (dat + (peb_size - dat)) with peb_size by lia. apply Hsl; lia.
Qed.

Lemma dict_set_fresh k v d : k ∉ d.*1 -> dict_set k v d = d ++ [(k, v)].
Proof.
  induction d as [|[k' v'] d IH]; intros Hk; [done|]. cbn in *. apply not_elem_of_cons in Hk as [Hne Hk].
  rewrite (proj2 (Z.eqb_neq _ _)) by done. by rewrite IH.
Qed.

Lemma collect_volume blocks peb_size vol_id pebs :
  Forall (fun b => len b = peb_size) blocks -> EC_HDR_SIZE <= peb_size ->
  Forall2 (holds peb_size) blocks pebs -> NoDup (volume vol_id pebs).*1 ->
  collect (concat blocks) peb_size vol_id (range (len blocks)) [] = Ok (volume vol_id pebs).
Proof.
  intros Hall Hs Hh Hnd.
  assert (H : forall n k, (k + n = length blocks)%nat ->
    collect (concat blocks) peb_size vol_id (Z.of_nat <$> seq k n) (volume vol_id (take k pebs)) = Ok (volume vol_id pebs)).
  { pose proof (Forall2_length _ _ _ Hh) as Hlen. induction n as [|n IH]; intros k Hk.
    - cbn. by rewrite take_ge by lia.
    - cbn [seq fmap list_fmap collect]. change (list_fmap _ _ ?f ?l) with (f <$> l).
      destruct (lookup_lt_is_Some_2 blocks k) as [b Hb]; [lia|].
      destruct (Forall2_lookup_l _ _ _ _ _ Hh Hb) as (p & Hp & Hhp).
      rewrite (peb_step_block blocks peb_size k b p) by done. cbn [res_bind].
      rewrite <- (IH (S k)) by lia. f_equal. rewrite (take_S_r _ _ _ Hp). unfold volume. rewrite omap_app. cbn.
      destruct p as [| |v l body]; [by rewrite app_nil_r..|]. destruct (v =? vol_id) eqn:Ev; [|by rewrite app_nil_r].
      apply dict_set_fresh. intros Hin.
      assert (Hsplit : volume vol_id pebs = volume vol_id (take k pebs) ++ (l, body) :: volume vol_id (drop (S k) pebs)).
      { rewrite <- (take_drop_middle _ _ _ Hp) at 1. unfold volume. rewrite omap_app. cbn. by rewrite Ev. }
      rewrite Hsplit, fmap_app in Hnd. apply NoDup_app in Hnd as (_ & Hnd & _). apply (Hnd l Hin). cbn. left. }
  unfold range, len. rewrite Nat2Z.id. apply (H (length blocks) 0%nat). done.
Qed.

(** ** Trimming *)

Lemma trim_chunks L cs : forall fuel,
  0 < L -> Forall (fun c => len c = L) cs -> cs <> [] -> (length cs <= fuel)%nat ->
  exists n, (1 <= n <= length cs)%nat /\ trim fuel L (concat cs) = concat (take n cs)
    /\ Forall (fun c => c = brep L 0xFF) (drop n cs) /\ (n = 1%nat \/ cs !! (n - 1)%nat <> Some (brep L 0xFF)).
Proof.
  induction cs as [|c cs IH] using rev_ind; intros fuel HL Hall Hne Hf; [done|].
  rewrite length_app in Hf. cbn in Hf. destruct fuel as [|fuel]; [lia|]. cbn [trim].
  apply Forall_app in Hall as [Hcs Hc]. apply Forall_cons in Hc as [Hc _].
  rewrite concat_app. cbn [concat]. rewrite app_nil_r, len_app, (concat_len _ _ Hcs), Hc. unfold suffix.
  rewrite (proj2 (Z.eqb_neq L 0)) by lia. rewrite last_n_app by (unfold len in Hc; lia).
  destruct (decide (cs = [])) as [->|Hcs'].
  { rewrite (proj2 (Z.ltb_ge L (len (@nil bytes) * L + L))) by (change (len (@nil bytes)) with 0; lia). cbn [andb]. exists 1%nat. cbn. rewrite app_nil_r.
    split_and!; [lia|lia|done|constructor|by left]. }
  assert (0 < len cs) by (destruct cs; [done|]; rewrite len_cons; pose proof (len_nonneg cs); lia).
  rewrite (proj2 (Z.ltb_lt L (len cs * L + L))) by nia. cbn [andb]. unfold beq. case_bool_decide as Hb.
  - rewrite but_last_app by (unfold len in Hc; lia).
    destruct (IH fuel HL Hcs Hcs') as (n & Hn & Ht & Hd & Hl); [lia|].
    exists n. rewrite length_app, take_app_le, drop_app_le by lia.
    split_and!; [lia|lia|done|apply Forall_app; auto|]. destruct Hl as [|Hl]; [by left|right]. by rewrite lookup_app_l by lia.
  - exists (length (cs ++ [c])). rewrite take_ge, drop_ge by done. rewrite concat_app. cbn. rewrite app_nil_r, length_app. cbn.
    split_and!; [lia|lia|done|constructor|right]. rewrite lookup_app_r by lia. by replace (_ - _)%nat with 0%nat by lia; intros [=].
Qed.

Lemma dict_get_map d k : dict_get k d = (list_to_map d : gmap Z bytes) !! k.
Proof.
  induction d as [|[k' v] d IH]; cbn; [by rewrite lookup_empty|].
  destruct (k =? k') eqn:E; b2p; [subst; by rewrite lookup_insert_eq|by rewrite lookup_insert_ne].
Qed.

Lemma dict_get_forall (P : bytes -> Prop) d k v : Forall P d.*2 -> dict_get k d = Some v -> P v.
Proof.
  induction d as [|[k' v'] d IH]; cbn; [done|]. intros [H1 H2]%Forall_cons. case_match; [by intros [= <-]|auto].
Qed.

Lemma max_key_spec d :
  d <> [] -> Forall (fun k => 0 <= k) d.*1 ->
  is_Some (dict_get (max_key d) d) /\ 0 <= max_key d /\ (forall k, is_Some (dict_get k d) -> k <= max_key d).
Proof.
  induction d as [|[k v] d IH]; [done|]. intros _ [Hk Hd]%Forall_cons. cbn in Hk |- *. fold (max_key d).
  destruct (decide (d = [])) as [->|Hne].
  - cbn. rewrite Z.max_l by lia. rewrite Z.eqb_refl. split_and!; [done|lia|].
    intros k' Hk'. destruct (k' =? k) eqn:E; b2p; [lia|by destruct Hk'].
  - destruct (IH Hne Hd) as (Hs & H0 & Hmax). split_and!; [|lia|].
    + destruct (decide (max_key d <= k)).
      * rewrite Z.max_l by lia. by rewrite Z.eqb_refl.
      * rewrite Z.max_r by lia. by rewrite (proj2 (Z.eqb_neq _ _)) by lia.
    + intros k' Hk'. destruct (k' =? k) eqn:E; b2p; [lia|]. apply Hmax in Hk'. lia.
Qed.

Lemma take_range n m : (n <= Z.to_nat m)%nat -> take n (range m) = range (Z.of_nat n).
Proof.
  intros. unfold range. rewrite <- fmap_take, take_seq, Nat2Z.id. f_equal. f_equal. lia.
Qed.

Lemma range_lookup n i : (i < Z.to_nat n)%nat -> range n !! i = Some (Z.of_nat i).
Proof. intros. unfold range. rewrite list_lookup_fmap, lookup_seq_lt by lia. done. Qed.

Lemma volume_keys peb_size blocks vol_id pebs :
  Forall2 (holds peb_size) blocks pebs -> Forall (fun k => 0 <= k) (volume vol_id pebs).*1.
Proof.
  induction 1 as [|b p blocks pebs [_ Hp] _ IH]; [constructor|]. cbn. destruct p as [| |v l body]; [done..|].
  destruct (v =? vol_id); [|done]. constructor; [|done]. by destruct Hp as (? & ? & _ & _ & _ & _ & _ & ? & _).
Qed.

(**  The volume extracted from a raw image does not depend on where the
    erase blocks lie: for an image whose blocks hold, in any order and between
    foreign, erased and other volumes' blocks, the logical blocks of a volume
    (a map from block numbers), the result is their concatenation in logical
    order, missing blocks read as erased, cut behind the last block that is
    not erased (the first is kept), and refused unless it starts a UBIFS. *)
Theorem extract_ubifs_spec blocks pebs peb_size vol_id L :
  let m : gmap Z bytes := list_to_map (volume vol_id pebs) in
  let leb i := default (brep L 0xFF) (m !! i) in
  EC_HDR_SIZE <= peb_size -> Forall2 (holds peb_size) blocks pebs -> NoDup (volume vol_id pebs).*1 ->
  volume vol_id pebs <> [] -> 0 < L -> Forall (fun body => len body = L) (volume vol_id pebs).*2 ->
  is_ubi_image (concat blocks) = true ->
  exists hi n, is_Some (m !! hi) /\ (forall k, is_Some (m !! k) -> k <= hi) /\ 1 <= n <= hi + 1
    /\ (forall i, n <= i <= hi -> leb i = brep L 0xFF) /\ (n = 1 \/ leb (n - 1) <> brep L 0xFF)
    /\ extract_ubifs (concat blocks) peb_size vol_id
       = let ubifs := concat (leb <$> range n) in
         if is_ubifs_image ubifs then Ok ubifs else Raise ValueError.
Proof.
  intros m leb Hs Hh Hnd Hne HL Hbodies Hmagic. unfold EC_HDR_SIZE in Hs.
  assert (Hall : Forall (fun b => len b = peb_size) blocks).
  { clear -Hh. induction Hh as [|b p blocks pebs [Hb _] _ IH]; by constructor. }
  set (vol := volume vol_id pebs) in *. set (hi := max_key vol).
  destruct (max_key_spec vol Hne (volume_keys _ _ _ _ Hh)) as (Hhi & Hhi0 & Hmax). fold hi in Hhi, Hhi0, Hmax.
  assert (Hget : forall k, dict_get k vol = m !! k) by (intros; apply dict_get_map).
  set (cs := leb <$> range (hi + 1)).
  assert (Hcs : Forall (fun c => len c = L) cs).
  { apply Forall_fmap, Forall_true. intros i. unfold compose, leb. destruct (m !! i) as [v|] eqn:E; cbn; [|apply len_brep; lia].
    rewrite <- Hget in E. by apply (dict_get_forall (fun b => len b = L) vol i v). }
  assert (Hlcs : length cs = Z.to_nat (hi + 1)).
  { unfold cs, range. by rewrite !length_fmap, length_seq. }
  assert (Hcsl : forall i, 0 <= i <= hi -> cs !! Z.to_nat i = Some (leb i)).
  { intros i Hi. unfold cs. rewrite list_lookup_fmap, range_lookup by lia. cbn. by rewrite Z2Nat.id by lia. }
  assert (Hasm : assemble vol L = concat cs).
  { unfold assemble, cs. fold hi. f_equal. apply list_fmap_ext. intros ? i _. unfold leb. by rewrite Hget. }
  destruct (trim_chunks L cs (length (concat cs)) HL Hcs) as (n & Hn & Htrim & Hblank & Hlast).
  { intros E. rewrite E in Hlcs. cbn in Hlcs. lia. }
  { pose proof (concat_len cs L Hcs) as Hc. unfold len in Hc. nia. }
  exists hi, (Z.of_nat n). split_and!; [by rewrite <- Hget| |lia|lia| | |].
  - intros k Hk. apply Hmax. by rewrite Hget.
  - intros i Hi. rewrite Forall_lookup in Hblank. apply (Hblank (Z.to_nat i - n)%nat).
    rewrite lookup_drop. replace (n + (Z.to_nat i - n))%nat with (Z.to_nat i) by lia. apply Hcsl. lia.
  - destruct Hlast as [->|Hlast]; [by left|right]. intros E. apply Hlast.
    replace (n - 1)%nat with (Z.to_nat (Z.of_nat n - 1)) by lia. rewrite Hcsl by lia. by rewrite E.
  - unfold extract_ubifs. rewrite Hmagic. cbn [negb]. rewrite (proj2 (Z.eqb_neq peb_size 0)) by lia.
    rewrite (concat_len _ _ Hall), Z.div_mul by lia.
    rewrite (collect_volume blocks peb_size vol_id pebs) by done. cbn [res_bind]. fold vol.
    destruct vol as [|[k first] vol'] eqn:Ev; [done|]. cbn in Hbodies. apply Forall_cons in Hbodies as [Hfirst _].
    rewrite Hfirst, Hasm, Htrim. unfold cs. rewrite <- fmap_take, take_range by lia. cbn zeta. by destruct (is_ubifs_image _).
Qed.

(** A small image: two blocks of volume 0 in reverse order around an erased
    block. *)
Definition demo_peb (lnum : Z) (body : bytes) : bytes :=
  UBI_EC_MAGIC ++ brep 12 0 ++ be_bytes 4 64 ++ be_bytes 4 128 ++ brep 40 0
  ++ VID_MAGIC ++ brep 4 0 ++ be_bytes 4 0 ++ be_bytes 4 lnum ++ brep 48 0 ++ body.
Definition demo_blocks : list bytes :=
  [demo_peb 1 [1; 2; 3; 4]; brep 132 0xFF; demo_peb 0 UBIFS_MAGIC].
Definition demo_pebs : list peb := [Mapped 0 1 [1; 2; 3; 4]; Foreign; Mapped 0 0 UBIFS_MAGIC].

Lemma demo_holds : Forall2 (holds 132) demo_blocks demo_pebs.
Proof.
  constructor; [|constructor; [|constructor; [|constructor]]]; (split; [vm_compute; reflexivity|]).
  - exists 64, 128. split_and!; (vm_compute; reflexivity) || (vm_compute; discriminate).
  - vm_compute. discriminate.
  - exists 64, 128. split_and!; (vm_compute; reflexivity) || (vm_compute; discriminate).
Qed.

Lemma extract_ubifs_spec_witness :
  exists n, extract_ubifs (concat demo_blocks) 132 0
    = (let ubifs := concat ((fun i => default (brep 4 0xFF) ((list_to_map (volume 0 demo_pebs) : gmap Z bytes) !! i)) <$> range n) in
       if is_ubifs_image ubifs then Ok ubifs else Raise ValueError)
    /\ extract_ubifs (concat demo_blocks) 132 0 = Ok (UBIFS_MAGIC ++ [1; 2; 3; 4]).
Proof.
  destruct (extract_ubifs_spec demo_blocks demo_pebs 132 0 4) as (hi & n & _ & _ & _ & _ & _ & H).
  - vm_compute. discriminate.
  - exact demo_holds.
  - apply (bool_decide_unpack _). vm_compute. exact I.
  - discriminate.
  - lia.
  - apply (bool_decide_unpack _). vm_compute. exact I.
  - vm_compute. reflexivity.
  - exists n. split; [exact H|vm_compute; reflexivity].
Defined.
