(* ===== verification/UbootEnv.v ===== *)
(** * The U-Boot environment and TFTP commands

  Models [src/src/defib/uboot_env.py]: the choice of the MAC address an
  installation may save and the parsing of [printenv], and
  [src/src/defib/uboot_tftp.py]: the commands that fetch a file, with the
  fallback to the older spelling.  Texts are lists of character codes; the
  command runner that [run_uboot_tftp] takes is an argument. *)

From S2P Require Import Prelude Text Regex Transport.

(** ** uboot_env.py *)

Definition OPENIPC_DEFAULT_ETHADDR : list Z := codes "00:00:23:34:45:66".

(** [^([0-9a-fA-F]{2}:){5}[0-9a-fA-F]{2}$] *)
Definition MAC_RE : re := seqs [bol; rep 5 (Group 1 (seqs [hexd; hexd; chr 58])); rep 2 hexd; eol].

Definition is_unset_or_default_ethaddr (value : option (list Z)) : bool :=
  match value with
  | None => true
  | Some value =>
      let v := lower_codes (strip value) in
      if beq v [] then true else
      match re_match MAC_RE v with
      | None => true
      | Some _ => beq v (lower_codes OPENIPC_DEFAULT_ETHADDR)
      end
  end.

(** [raw] is what [secrets.token_bytes(6)] gave. *)
Definition generate_locally_administered_mac (raw : bytes) : res (list Z) :=
  let! b := index raw 0 in
  let raw := <[0%nat := Z.lor (Z.land b 0xFC) 0x02]> raw in
  Ok (join [58] ((fun b => codes (hex_0x 2 b)) <$> raw)).

(** [(?m)^\s*<var>=(.+?)\s*$] *)
Definition PRINTENV_RE (var : list Z) : re :=
  seqs [bolm; star sp; lit var; chr 61; Group 1 (plus_lazy dot); star sp; eolm].

Definition parse_printenv_value (response var : list Z) : option (list Z) :=
  match re_search (PRINTENV_RE var) response with
  | Some m => strip <$> group 1 m
  | None => None
  end.

Inductive mac_source := preserved_mac | current_mac | generated_mac | missing_mac.

Definition select_install_ethaddr (raw : bytes) (current preserved : option (list Z)) (allow_generate : bool)
    : res (option (list Z) * mac_source) :=
  if negb (is_unset_or_default_ethaddr preserved) then
    let! p := of_opt AssertionError preserved in Ok (Some (lower_codes (strip p)), preserved_mac)
  else if negb (is_unset_or_default_ethaddr current) then
    let! c := of_opt AssertionError current in Ok (Some (lower_codes (strip c)), current_mac)
  else if allow_generate then
    let! m := generate_locally_administered_mac raw in Ok (Some m, generated_mac)
  else Ok (None, missing_mac).

(** ** uboot_tftp.py *)

(** [expected in line]: [contains] on texts. *)
Definition reports_unknown_command (response command_name : list Z) : bool :=
  let expected := lower_codes command_name in
  existsb (fun raw_line =>
    let line := lower_codes (strip raw_line) in
    starts_with (codes "unknown command") line &&
    (contains expected line || beq line (codes "unknown command"))) (splitlines response).

Definition uboot_tftp_commands (filename : list Z) (ram_addr : Z) (use_loadaddr : bool) : list Z * list Z :=
  if use_loadaddr then (codes "tftpboot " ++ filename, codes "tftp " ++ filename)
  else
    let address := codes "0x" ++ codes (hex_x ram_addr) in
    (codes "tftpboot " ++ address ++ codes " " ++ filename, codes "tftp " ++ address ++ codes " " ++ filename).

(** [s.split()[0]] of a text that starts with a letter *)
Definition first_word (s : list Z) : list Z := fst (span (fun c => negb (is_space_code c)) s).

Section Tftp.
Context {T Ob : Type}.
Variable run_command : list Z -> Z -> M T Ob (bool * list Z).

Definition run_uboot_tftp (filename : list Z) (ram_addr : Z) (use_loadaddr : bool) (timeout : Z) : M T Ob (list Z) :=
  let (primary, fallback) := uboot_tftp_commands filename ram_addr use_loadaddr in
  let* r := run_command primary timeout in
  let* r := if reports_unknown_command (snd r) (first_word primary) then run_command fallback timeout else ret r in
  let (ok, response) := r in
  if negb ok then raise RuntimeError else
  let text := lower_codes response in
  if negb (contains (codes "done") text) && negb (contains (codes "bytes transferred") text)
  then raise RuntimeError else
  ret response.

End Tftp.

(** ** The address that is saved *)

Lemma byte_ind (P : Z -> Prop) `{forall b, Decision (P b)} :
  Forall P (Z.of_nat <$> seq 0 256) -> forall b, is_byte b -> P b.
Proof.
  intros HP b Hb. rewrite Forall_forall in HP. apply HP, list_elem_of_fmap. exists (Z.to_nat b).
  split; [unfold is_byte in Hb; lia|]. apply elem_of_seq. unfold is_byte in Hb. lia.
Qed.

(** A well-formed address: six pairs of lower-case hexadecimal digits, not the
    default one. *)
Definition is_lower_hex (c : Z) : bool := is_digit_code c || ((97 <=? c) && (c <=? 102)).
Definition mac_text (pairs : list (Z * Z)) : list Z := join [58] ((fun p => [fst p; snd p]) <$> pairs).
Definition well_formed_mac (mac : list Z) : Prop :=
  exists pairs, length pairs = 6%nat /\ Forall (fun p => is_lower_hex (fst p) && is_lower_hex (snd p)) pairs /\
    mac = mac_text pairs /\ mac <> OPENIPC_DEFAULT_ETHADDR.

Lemma mac_re_sound v m :
  re_match MAC_RE v = Some m ->
  exists pairs, length pairs = 6%nat /\ Forall (fun p => is_hex_code (fst p) && is_hex_code (snd p)) pairs /\
    (v = mac_text pairs \/ v = mac_text pairs ++ [10]).
Proof.
  unfold re_match, MAC_RE. cbn -[is_hex_code Z.eqb beq]. intros Hm.
  repeat match goal with H : context [match ?x with _ => _ end] |- _ => destruct x eqn:?; [try done|try done] end.
  repeat match goal with H : (58 =? _) = true |- _ => apply Z.eqb_eq in H; subst end. subst.
  match goal with |- context [?a :: ?b :: 58 :: ?c :: ?d :: 58 :: ?e :: ?f :: 58 :: ?g :: ?h :: 58 :: ?i :: ?j :: 58 :: ?k :: ?l :: _] =>
    exists [(a, b); (c, d); (e, f); (g, h); (i, j); (k, l)] end. split; [reflexivity|]. split.
  - repeat apply Forall_cons_2; cbn [fst snd]; try apply Forall_nil_2;
      repeat match goal with H : is_hex_code ?z = true |- context [is_hex_code ?z] => rewrite H; clear H end; exact I.
  - match goal with H : _ || _ = true |- _ => apply orb_true_iff in H as [E|E]; apply bool_decide_eq_true in E; subst end;
      [left|right]; reflexivity.
Qed.

Lemma mac_re_complete pairs :
  length pairs = 6%nat -> Forall (fun p => is_hex_code (fst p) && is_hex_code (snd p)) pairs ->
  exists m, re_match MAC_RE (mac_text pairs) = Some m.
Proof.
  intros Hl Hp. do 6 (destruct pairs as [|[? ?] pairs]; [done|]). destruct pairs; [|done].
  rewrite !Forall_cons in Hp. cbn [fst snd] in Hp. destruct Hp as (? & ? & ? & ? & ? & ? & _).
  unfold re_match, MAC_RE. cbn -[is_hex_code Z.eqb beq].
  repeat match goal with H : Is_true (_ && _) |- _ => apply andb_prop_elim in H as [?%Is_true_true ?%Is_true_true] end.
  repeat match goal with H : is_hex_code ?z = true |- _ => rewrite H; clear H end.
  change (58 =? 58) with true. change (beq [] [] || beq [] [10]) with true. cbv iota. by eexists.
Qed.

Lemma strip_ends l a c : strip l = a ++ [c] -> is_space_code c = false.
Proof.
  unfold strip, rstrip. intros H%(f_equal (@rev Z)). rewrite rev_involutive, rev_app_distr in H. cbn in H.
  revert H. generalize (rev (lstrip l)) as x. induction x as [|y x IH]; cbn; [done|].
  destruct (is_space_code y) eqn:E; [apply IH|]. by intros [= -> _].
Qed.

Lemma is_hex_code_eq c :
  is_hex_code c = is_digit_code c || ((97 <=? c) && (c <=? 102)) || ((65 <=? c) && (c <=? 70)).
Proof.
  unfold is_hex_code, hex_value. destruct (is_digit_code c); [done|]. destruct ((97 <=? c) && _); [done|].
  by destruct ((65 <=? c) && _).
Qed.

Lemma lower_hex c : is_hex_code (lower_code c) = true -> is_lower_hex (lower_code c) = true.
Proof.
  rewrite is_hex_code_eq. unfold is_lower_hex. intros [H|H]%orb_true_iff; [done|]. exfalso. revert H. unfold lower_code.
  destruct ((65 <=? c) && (c <=? 90)) eqn:E; intros H; b2p; try lia; destruct E; b2p; lia.
Qed.

Lemma hex_pair b :
  is_byte b -> exists x y, codes (hex_0x 2 b) = [x; y] /\ is_lower_hex x && is_lower_hex y /\
    digits_value 16 [x; y] = b.
Proof.
  intros Hb. assert (H : match codes (hex_0x 2 b) with
    | [x; y] => is_lower_hex x && is_lower_hex y && (digits_value 16 [x; y] =? b)
    | _ => false end).
  { revert b Hb. apply byte_ind; [apply _|]. apply (bool_decide_unpack _). vm_compute. exact I. }
  destruct (codes (hex_0x 2 b)) as [|x [|y [|? ?]]]; try done. exists x, y.
  apply andb_prop_elim in H as [H ?%Is_true_true%Z.eqb_eq]. done.
Qed.

Lemma strip_lower_idem v : lower_codes (lower_codes v) = lower_codes v.
Proof.
  unfold lower_codes. rewrite <- list_fmap_compose. apply list_fmap_ext. intros _ c _. cbn. unfold lower_code.
  destruct ((65 <=? c) && (c <=? 90)) eqn:E; [|by rewrite E]. destruct ((65 <=? c + 32) && _) eqn:E2; [|done]. b2p. lia.
Qed.

Lemma mac_text_elem pairs p : p ∈ pairs -> fst p ∈ mac_text pairs /\ snd p ∈ mac_text pairs.
Proof.
  unfold mac_text. induction pairs as [|q pairs IH]; [by intros ?%not_elem_of_nil|].
  intros [->|Hp]%elem_of_cons; cbn [fmap list_fmap join].
  - destruct ((fun p => [fst p; snd p]) <$> pairs); cbn; rewrite !elem_of_cons; auto.
  - specialize (IH Hp). destruct pairs as [|q' pairs]; [by apply not_elem_of_nil in Hp|].
    cbn [fmap list_fmap] in *. rewrite !elem_of_app. tauto.
Qed.

Lemma mac_text_Forall (P : Z -> Prop) pairs :
  P 58 -> Forall (fun p => P (fst p) /\ P (snd p)) pairs -> Forall P (mac_text pairs).
Proof.
  intros H58 Hp. unfold mac_text. induction Hp as [|p pairs [H1 H2] _ IH]; cbn [fmap list_fmap join]; [constructor|].
  destruct ((fun p => [fst p; snd p]) <$> pairs) eqn:E; [by repeat constructor|].
  repeat apply Forall_cons_2; [done..|]. exact IH.
Qed.

(** A text that is accepted is, stripped and in lower case, well formed. *)
Lemma accepted_well_formed v :
  is_unset_or_default_ethaddr (Some v) = false -> well_formed_mac (lower_codes (strip v)).
Proof.
  unfold is_unset_or_default_ethaddr. set (x := lower_codes (strip v)). destruct (beq x []); [done|].
  destruct (re_match MAC_RE x) as [m|] eqn:Em; [|done]. intros Hne. b2p.
  change (lower_codes OPENIPC_DEFAULT_ETHADDR) with OPENIPC_DEFAULT_ETHADDR in Hne.
  apply mac_re_sound in Em as (pairs & Hl & Hp & Hx). destruct Hx as [Hx|Hx].
  - exists pairs. split_and!; [done| |done|done].
    assert (Hlow : forall c, c ∈ x -> is_hex_code c = true -> is_lower_hex c = true).
    { intros c (d & -> & _)%list_elem_of_fmap. apply lower_hex. }
    rewrite Forall_forall in Hp |- *. intros p Hin. destruct (mac_text_elem pairs p Hin) as [H1 H2].
    specialize (Hp p Hin). apply andb_prop_elim in Hp as [Hp1%Is_true_true Hp2%Is_true_true].
    rewrite <- Hx in H1, H2. by rewrite (Hlow _ H1 Hp1), (Hlow _ H2 Hp2).
  - exfalso. unfold x, lower_codes in Hx.
    destruct (strip v) as [|c l _] eqn:Es using rev_ind; [by destruct (mac_text pairs)|].
    rewrite fmap_app in Hx. apply app_inj_2 in Hx as [_ Hc]; [|done]. cbn in Hc. injection Hc as Hc.
    apply strip_ends in Es. unfold lower_code, is_space_code in *. destruct ((65 <=? c) && _) eqn:E; b2p; lia.
Qed.

Lemma well_formed_accepted mac : well_formed_mac mac -> is_unset_or_default_ethaddr (Some mac) = false.
Proof.
  intros (pairs & Hl & Hp & Hm & Hne). subst mac.
  assert (Hhex : Forall (fun p => is_hex_code (fst p) && is_hex_code (snd p)) pairs).
  { eapply Forall_impl; [exact Hp|]. intros [a b]. cbn. rewrite !is_hex_code_eq. unfold is_lower_hex.
    intros [Ha%Is_true_true Hb%Is_true_true]%andb_prop_elim. by rewrite Ha, Hb. }
  destruct (mac_re_complete pairs Hl Hhex) as (m & Em).
  assert (Hx : lower_codes (strip (mac_text pairs)) = mac_text pairs).
  { assert (Hc : forall c, is_lower_hex c = true -> is_space_code c = false /\ lower_code c = c).
    { intros c Hc. unfold is_lower_hex, is_digit_code in Hc. unfold is_space_code, lower_code.
      assert (48 <= c <= 57 \/ 97 <= c <= 102) by (apply orb_true_iff in Hc as [Hc|Hc]; b2p; lia).
      split; [apply orb_false_iff; split; [apply orb_false_iff; split|]|]; repeat (case_match; b2p); try lia.
      all: try (apply Z.eqb_neq; lia); apply andb_false_iff; rewrite ?Z.leb_gt; lia. }
    rewrite strip_id, lower_codes_id; [done| |]; apply mac_text_Forall; try done;
      (eapply Forall_impl; [exact Hp|]); intros p [?%Is_true_true ?%Is_true_true]%andb_prop_elim; split; by apply Hc. }
  unfold is_unset_or_default_ethaddr. rewrite Hx, Em.
  destruct (beq (mac_text pairs) []) eqn:E; [b2p; by rewrite E in Em|].
  apply bool_decide_eq_false. done.
Qed.

Lemma generated_well_formed raw :
  len raw = 6 -> is_bytes raw ->
  exists mac b, generate_locally_administered_mac raw = Ok mac /\ well_formed_mac mac /\
    digits_value 16 (take 2 mac) = b /\ Z.testbit b 0 = false /\ Z.testbit b 1 = true.
Proof.
  intros Hl Hb. do 6 (destruct raw as [|? raw]; [done|]). destruct raw; [|unfold len in Hl; cbn in Hl; lia].
  unfold generate_locally_administered_mac. cbn [index of_opt lookup list_lookup res_bind insert list_insert Z.to_nat].
  rewrite !Forall_cons in Hb. destruct Hb as (H1 & H2 & H3 & H4 & H5 & H6 & _).
  set (b := Z.lor (Z.land z 0xFC) 2).
  assert (Hb : is_byte b /\ Z.testbit b 0 = false /\ Z.testbit b 1 = true).
  { unfold b. clear Hl b. revert z H1. apply (byte_ind (fun z => is_byte (Z.lor (Z.land z 0xFC) 2) /\
      Z.testbit (Z.lor (Z.land z 0xFC) 2) 0 = false /\ Z.testbit (Z.lor (Z.land z 0xFC) 2) 1 = true)). apply (bool_decide_unpack _). vm_compute. exact I. }
  destruct Hb as (Hb & Hb0 & Hb1).
  destruct (hex_pair b Hb) as (x1 & y1 & E1 & P1 & V1), (hex_pair z0 H2) as (x2 & y2 & E2 & P2 & _),
    (hex_pair z1 H3) as (x3 & y3 & E3 & P3 & _), (hex_pair z2 H4) as (x4 & y4 & E4 & P4 & _),
    (hex_pair z3 H5) as (x5 & y5 & E5 & P5 & _), (hex_pair z4 H6) as (x6 & y6 & E6 & P6 & _).
  exists (mac_text [(x1, y1); (x2, y2); (x3, y3); (x4, y4); (x5, y5); (x6, y6)]), b.
  split; [change (index (z :: _) 0) with (Ok z); cbn [res_bind fmap list_fmap]; fold b; by rewrite E1, E2, E3, E4, E5, E6|]. split_and!; [|exact V1|done|done].
  eexists. split_and!; [| |reflexivity|]; [done|by repeat constructor|].
  intros E. injection E as -> -> _. change (digits_value 16 [48; 48]) with 0 in V1. subst b. rewrite <- V1 in Hb1. done.
Qed.

(** C38. The address an installation saves is never the default, missing or
    malformed one: [select_install_ethaddr] never fails; when it gives an
    address, that is six pairs of lower-case hexadecimal digits other than
    OpenIPC's default and would be accepted again; it is the preserved one if
    that is valid, else the current one if that is valid, else, and only where
    generation is allowed, a generated one, which is locally administered and
    unicast.  It gives none only when neither is valid and generation is not
    allowed. *)
Theorem select_install_ethaddr_spec raw current preserved allow :
  len raw = 6 -> is_bytes raw ->
  exists mac src, select_install_ethaddr raw current preserved allow = Ok (mac, src) /\
    (forall m, mac = Some m -> well_formed_mac m /\ is_unset_or_default_ethaddr mac = false) /\
    match src with
    | preserved_mac => exists p, preserved = Some p /\ is_unset_or_default_ethaddr preserved = false /\ mac = Some (lower_codes (strip p))
    | current_mac => exists c, current = Some c /\ is_unset_or_default_ethaddr preserved = true /\
        is_unset_or_default_ethaddr current = false /\ mac = Some (lower_codes (strip c))
    | generated_mac => is_unset_or_default_ethaddr preserved = true /\ is_unset_or_default_ethaddr current = true /\ allow = true /\
        exists m, mac = Some m /\ Z.testbit (digits_value 16 (take 2 m)) 0 = false /\ Z.testbit (digits_value 16 (take 2 m)) 1 = true
    | missing_mac => is_unset_or_default_ethaddr preserved = true /\ is_unset_or_default_ethaddr current = true /\ allow = false /\ mac = None
    end.
Proof.
  intros Hl Hb.
  assert (Hacc : forall v, is_unset_or_default_ethaddr (Some v) = false ->
    forall m, Some (lower_codes (strip v)) = Some m -> well_formed_mac m /\ is_unset_or_default_ethaddr (Some (lower_codes (strip v))) = false).
  { intros v Hv m [= <-]. apply accepted_well_formed in Hv. split; [done|by apply well_formed_accepted]. }
  unfold select_install_ethaddr. destruct (is_unset_or_default_ethaddr preserved) eqn:Ep; cbn [negb].
  2: { destruct preserved as [p|]; [|done]. eexists _, _. split; [reflexivity|]. split; [by apply Hacc|]. by exists p. }
  destruct (is_unset_or_default_ethaddr current) eqn:Ec; cbn [negb].
  2: { destruct current as [c|]; [|done]. eexists _, _. split; [reflexivity|]. split; [by apply Hacc|]. by exists c. }
  destruct allow.
  - destruct (generated_well_formed raw Hl Hb) as (mac & b & E & Hw & Hv & Hb0 & Hb1). rewrite E.
    eexists _, _. split; [reflexivity|]. split.
    + intros m [= <-]. split; [done|by apply well_formed_accepted].
    + split_and!; [done..|]. exists mac. by rewrite Hv.
  - by eexists _, _.
Qed.

Theorem select_install_ethaddr_spec_witness :
  exists mac src, select_install_ethaddr [255; 1; 2; 3; 4; 5] (Some OPENIPC_DEFAULT_ETHADDR) None true = Ok (mac, src) /\
    (forall m, mac = Some m -> well_formed_mac m /\ is_unset_or_default_ethaddr mac = false) /\ src = generated_mac.
Proof.
  destruct (select_install_ethaddr_spec [255; 1; 2; 3; 4; 5] (Some OPENIPC_DEFAULT_ETHADDR) None true) as (mac & src & E & Hm & _);
    [done|repeat constructor; done|].
  exists mac, src. split; [done|]. split; [done|]. vm_compute in E. by injection E as <- <-.
Defined.

(** ** printenv

  A reference for [parse_printenv_value]: the first line that, after leading
  white space, is [var=] and something; its value is the rest, stripped. *)
Definition line_of (t : list Z) : list Z := fst (span (fun c => negb (c =? 10)) t).

Definition printenv_line (var l : list Z) : option (list Z) :=
  let t := lstrip l in
  if starts_with (var ++ [61]) t then
    let m := drop (length (var ++ [61])) t in if beq m [] then None else Some (strip m)
  else None.

Definition printenv_ref (response var : list Z) : option (list Z) :=
  foldr (fun l acc => match printenv_line var l with Some v => Some v | None => acc end) None (split_on 10 response).

Lemma line_of_app g t : Forall (fun c => c <> 10) g -> line_of (g ++ t) = g ++ line_of t.
Proof.
  induction 1 as [|c g Hc _ IH]; [done|]. unfold line_of in *. cbn [app span].
  replace (c =? 10) with false by (symmetry; by apply Z.eqb_neq). cbn [negb].
  destruct (span _ (g ++ t)) as [x y] eqn:E. cbn in *. by rewrite IH.
Qed.

Lemma line_of_id g : Forall (fun c => c <> 10) g -> line_of g = g.
Proof. intros Hg. rewrite <- (app_nil_r g) at 1. rewrite line_of_app by done. apply app_nil_r. Qed.

Lemma line_of_spec t : exists r, t = line_of t ++ r /\ Forall (fun c => c <> 10) (line_of t) /\ match r with [] => True | c :: _ => c = 10 end.
Proof.
  unfold line_of. induction t as [|c t (r & Ht & Hl & Hr)]; cbn [span]; [by exists []|].
  destruct (c =? 10) eqn:E; b2p; cbn [negb]; [exists (c :: t); by split_and!|].
  destruct (span _ t) as [x y]. cbn in *. exists r. split_and!; [by rewrite Ht at 1|by constructor|done].
Qed.

Lemma line_of_prefix P w r : Forall P w -> match r with [] => True | c :: _ => c = 10 end -> Forall P (line_of (w ++ r)).
Proof.
  intros Hw Hr. unfold line_of. induction Hw as [|c w Hc Hw IH]; cbn [app span].
  - destruct r as [|d r]; [constructor|]. subst d. constructor.
  - destruct (negb (c =? 10)); [|constructor]. destruct (span _ (w ++ r)) as [x y]. by constructor.
Qed.

Section Printenv.
Variable var : list Z.
Hypothesis Hvar : match var with [] => False | c :: _ => is_space_code c = false end.
Hypothesis Hnl : Forall (fun c => c <> 10) var.
Abbreviation key := (var ++ [61]).
Abbreviation R := (PRINTENV_RE var).

(** The value of the text at the start of a line. *)
Definition value_at (text : list Z) : option (list Z) :=
  let t := lstrip text in
  if starts_with key t then
    let m := line_of (drop (length key) t) in if beq m [] then None else Some (strip m)
  else None.

Definition at_bol (prev : option Z) : bool := match prev with None => true | Some c => c =? 10 end.

Lemma printenv_matches prev text s :
  rmatches R (Place prev text []) s <->
  at_bol prev = true /\ exists ws g ws2 r, text = ws ++ key ++ g ++ ws2 ++ r /\
    Forall (fun c => is_space_code c = true) ws /\ g <> [] /\ Forall (fun c => c <> 10) g /\
    Forall (fun c => is_space_code c = true) ws2 /\ (match r with [] => True | c :: _ => c = 10 end) /\
    s = Place (after (ws ++ key ++ g ++ ws2) prev) r [(1%nat, g)].
Proof.
  unfold PRINTENV_RE. cbn [seqs foldr]. unfold star, plus_lazy, sp, dot, chr. split.
  - intros (s1 & (Hb & ->)%m_look_iff & (s2 & (ws & t1 & -> & Hws & ->)%m_star_chr_iff & (s3 & (t2 & -> & ->)%m_lit_iff &
      (s4 & (c & t3 & -> & Hc & ->)%m_chr_iff & (s5 & (s6 & Hg & ->)%m_group_iff & (s7 & Hw2 &
      (s8 & (He & ->)%m_look_iff & ->%m_eps_iff)%m_seq_iff)%m_seq_iff)%m_seq_iff)%m_seq_iff)%m_seq_iff)%m_seq_iff)%m_seq_iff.
    apply Z.eqb_eq in Hc as <-. apply m_seq_iff in Hg as (s9 & (d & t4 & -> & Hd & ->)%m_chr_iff & (g & t5 & -> & Hg & ->)%m_star_chr_iff).
    unfold capture in Hw2. cbn [p_prev p_rest p_caps] in Hw2. apply m_star_chr_iff in Hw2 as (ws2 & r & -> & Hws2 & ->). cbn [p_prev p_rest] in *.
    split; [exact Hb|]. exists ws, (d :: g), ws2, r. split_and!; try done.
    + by rewrite <- !app_assoc.
    + apply Forall_cons_2; [by b2p|]. eapply Forall_impl; [exact Hg|]. intros x Hx. by apply negb_true_iff, Z.eqb_neq in Hx.
    + destruct r; [done|]. by b2p.
    + f_equal.
      * by rewrite !after_app, !after_cons.
      * f_equal. f_equal. change (d :: g ++ ws2 ++ r) with ((d :: g) ++ ws2 ++ r). rewrite length_app, Nat.add_sub. by rewrite take_app_length.
  - intros (Hb & ws & g & ws2 & r & -> & Hws & Hg0 & Hg & Hws2 & Hr & ->).
    destruct g as [|d g]; [done|]. apply Forall_cons in Hg as [Hd Hg].
    apply m_seq_iff. exists (Place prev (ws ++ key ++ (d :: g) ++ ws2 ++ r) []). split; [by apply m_look_iff|].
    apply m_seq_iff. eexists. split; [apply m_star_chr_iff; by eexists ws, _|].
    apply m_seq_iff. eexists. split; [apply m_lit_iff; rewrite <- app_assoc; by eexists|].
    apply m_seq_iff. eexists. split; [apply m_chr_iff; by eexists 61, _|].
    apply m_seq_iff. eexists. split; [apply m_group_iff; eexists; split; [|reflexivity]|].
    { apply m_seq_iff. eexists. split; [apply m_chr_iff; eexists d, _; split; [reflexivity|]; split; [by apply negb_true_iff, Z.eqb_neq|reflexivity]|].
      apply m_star_chr_iff. eexists g, (ws2 ++ r). split; [done|]. split; [|reflexivity].
      eapply Forall_impl; [exact Hg|]. intros c Hc. cbn. by apply negb_true_iff, Z.eqb_neq. }
    apply m_seq_iff. unfold capture. cbn [p_prev p_rest p_caps].
    eexists. split; [apply m_star_chr_iff; by eexists ws2, r|].
    apply m_seq_iff. eexists. split; [apply m_look_iff; split; [|reflexivity]; destruct r; [done|by apply Z.eqb_eq]|].
    apply m_eps_iff. f_equal.
    + by rewrite !after_app, !after_cons.
    + f_equal. f_equal. cbn [length app]. change (d :: g ++ ws2 ++ r) with ((d :: g) ++ ws2 ++ r).
      replace (S (length (g ++ ws2 ++ r)) - length (ws2 ++ r))%nat with (length (d :: g)) by (rewrite length_app; cbn; lia).
      by rewrite take_app_length.
Qed.

Lemma lstrip_key ws t : Forall (fun c => is_space_code c = true) ws -> lstrip (ws ++ key ++ t) = key ++ t.
Proof. intros Hws. rewrite lstrip_app by done. destruct var as [|c l]; [done|]. cbn. by rewrite Hvar. Qed.

Lemma printenv_found prev text m :
  rmatch R Some (Place prev text []) = Some m -> at_bol prev = true /\ value_at text = strip <$> group 1 m.
Proof.
  intros (s & Hm & [= <-])%rmatch_sound.
  apply printenv_matches in Hm as (Hb & ws & g & ws2 & r & -> & Hws & Hg0 & Hg & Hws2 & Hr & ->). split; [done|].
  unfold value_at. rewrite lstrip_key, starts_with_app, drop_app_length, line_of_app by done.
  destruct (beq _ []) eqn:E; [b2p; by destruct g|].
  change (group 1 _) with (Some g). cbn. f_equal. apply strip_app_r, line_of_prefix; done.
Qed.

Lemma printenv_not_found prev text :
  rmatch R Some (Place prev text []) = None -> at_bol prev = true -> value_at text = None.
Proof.
  intros Hn Hb. unfold value_at. destruct (starts_with key (lstrip text)) eqn:Ek; [|done].
  apply starts_with_inv in Ek as (u & Eu). rewrite Eu, drop_app_length.
  destruct (beq (line_of u) []) eqn:E; [done|]. b2p. exfalso.
  destruct (lstrip_spec text) as (ws & Ht & Hws). destruct (line_of_spec u) as (r & Hu & Hl & Hr).
  assert (Hm : rmatches R (Place prev text []) (Place (after (ws ++ key ++ line_of u ++ []) prev) r [(1%nat, line_of u)])).
  { apply printenv_matches. split; [done|]. exists ws, (line_of u), [], r. split_and!; try done.
    rewrite Ht, Eu. do 2 f_equal. cbn [app]. done. }
  by apply (rmatch_complete _ _ _ _ Hn) in Hm.
Qed.

(** What the search gives from here. *)
Definition found (prev : option Z) (text : list Z) : option (list Z) :=
  match search_from R prev text with Some m => strip <$> group 1 m | None => None end.

Lemma found_bol prev text :
  at_bol prev = true ->
  found prev text = match value_at text with Some v => Some v | None => match text with [] => None | c :: t => found (Some c) t end end.
Proof.
  intros Hb. unfold found. assert (Hs : search_from R prev text =
    match rmatch R Some (Place prev text []) with Some m => Some m | None => match text with [] => None | c :: t => search_from R (Some c) t end end)
    by (by destruct text). rewrite Hs. clear Hs.
  destruct (rmatch R Some (Place prev text [])) as [m|] eqn:E.
  - destruct (printenv_found _ _ _ E) as [_ Hv]. assert (Hg : exists g, group 1 m = Some g).
    { apply rmatch_sound in E as (s & Hm & [= <-]). apply printenv_matches in Hm as (_ & ws & g & ws2 & r & _ & _ & _ & _ & _ & _ & ->). by exists g. }
    destruct Hg as (g & Hg). rewrite Hg in *. cbn in *. by rewrite Hv.
  - rewrite (printenv_not_found _ _ E Hb). by destruct text.
Qed.

Lemma found_mid prev text :
  at_bol prev = false -> found prev text = match partition_on 10 text with Some (_, b) => found (Some 10) b | None => None end.
Proof.
  revert prev. induction text as [|c text IH]; intros prev Hb.
  - unfold found. cbn [search_from]. destruct (rmatch R Some (Place prev [] [])) as [m|] eqn:E; [|done].
    apply printenv_found in E as [E _]. congruence.
  - unfold found at 1. cbn [search_from].
    destruct (rmatch R Some (Place prev (c :: text) [])) as [m|] eqn:E; [apply printenv_found in E as [E _]; congruence|].
    fold (found (Some c) text). cbn [partition_on]. destruct (c =? 10) eqn:Ec; [b2p; by subst|].
    rewrite IH by (cbn; done). destruct (partition_on 10 text) as [[a b]|]; done.
Qed.

Lemma value_at_line x :
  Forall (fun c => c <> 10) x -> value_at x = printenv_line var x.
Proof.
  intros Hx. unfold value_at, printenv_line. destruct (starts_with key (lstrip x)); [|done].
  assert (Hl : Forall (fun c => c <> 10) (drop (length key) (lstrip x))) by (by apply Forall_drop, lstrip_Forall).
  by rewrite line_of_id.
Qed.

Lemma starts_with_line x b : starts_with key (x ++ 10 :: b) = starts_with key x.
Proof.
  destruct (starts_with key x) eqn:E.
  - apply starts_with_inv in E as (u & ->). rewrite <- app_assoc. apply starts_with_app.
  - apply not_true_iff_false. intros Ht. apply starts_with_inv in Ht as (u & Hu).
    apply app_eq_inv in Hu as [(k & Hk & Hu)|(k & Hk & Hu)].
    + rewrite Hk in E. by rewrite starts_with_app in E.
    + destruct k as [|c k]; [rewrite app_nil_r in Hk; rewrite <- Hk in E; pose proof (starts_with_app key []) as Hs; rewrite app_nil_r in Hs; congruence|].
      injection Hu as <- _. assert (Hin : 10 ∈ key) by (rewrite Hk; set_solver).
      apply elem_of_app in Hin as [Hin|Hin]; [|by apply list_elem_of_singleton in Hin].
      rewrite Forall_forall in Hnl. by apply (Hnl 10).
Qed.

Lemma value_at_lines a b :
  Forall (fun c => c <> 10) a ->
  value_at (a ++ 10 :: b) = match lstrip a with [] => value_at b | _ => printenv_line var a end.
Proof.
  intros Ha. unfold value_at, printenv_line. rewrite lstrip_app_gen. pose proof (lstrip_Forall _ _ Ha) as Hl.
  destruct (lstrip a) as [|c x] eqn:E; [done|]. rewrite starts_with_line.
  destruct (starts_with key (c :: x)) eqn:Ek; [|done]. apply starts_with_inv in Ek as (u & Eu). rewrite Eu in Hl |- *.
  rewrite <- app_assoc, !drop_app_length. apply Forall_app in Hl as [_ Hu].
  rewrite line_of_app by done. change (line_of (10 :: b)) with (@nil Z). by rewrite app_nil_r.
Qed.

Lemma found_ref n prev text : (length text < n)%nat -> at_bol prev = true -> found prev text = printenv_ref text var.
Proof.
  revert prev text. induction n as [|n IH]; intros prev text Hn Hb; [lia|].
  rewrite found_bol by done. unfold printenv_ref. rewrite split_on_partition.
  pose proof (partition_on_spec 10 text) as Hp. destruct (partition_on 10 text) as [[a b]|] eqn:Ep.
  - destruct Hp as [-> Ha]. cbn [foldr]. fold (printenv_ref b var). rewrite value_at_lines by done.
    assert (Hib : found (Some 10) b = printenv_ref b var) by (apply IH; [rewrite length_app in Hn; cbn in Hn; lia|done]).
    assert (Hrest : match a ++ 10 :: b with [] => None | c :: t => found (Some c) t end = found (Some 10) b).
    { destruct a as [|c a]; [done|]. cbn [app]. inversion Ha as [|? ? Hc Ha']; subst. rewrite found_mid by (cbn; by apply Z.eqb_neq).
      cbn [partition_on app] in Ep. destruct (c =? 10) eqn:E10; [b2p; done|]. destruct (partition_on 10 (a ++ 10 :: b)) as [[x y]|]; [|done].
      by injection Ep as <- <-. }
    rewrite Hrest. destruct (lstrip a) as [|d x] eqn:El.
    + assert (Hpl : printenv_line var a = None) by (unfold printenv_line; rewrite El; by destruct var).
      rewrite Hpl, <- Hib. destruct (value_at b) eqn:Ev; [|done]. rewrite found_bol by done. by rewrite Ev.
    + destruct (printenv_line var a); [done|]. exact Hib.
  - cbn [foldr]. rewrite value_at_line by done. destruct (printenv_line var text); [done|].
    destruct text as [|c t]; [done|]. inversion Hp; subst. rewrite found_mid by (cbn; by apply Z.eqb_neq).
    cbn [partition_on] in Ep. destruct (c =? 10) eqn:E10; [b2p; done|]. by destruct (partition_on 10 t) as [[x y]|].
Qed.

(** C39. The regular expression of [parse_printenv_value] does what its
    docstring says: on every response the result is the value of the first
    line that, after white space, is [var=] followed by something, with the
    white space around the value removed; [None] when there is no such line. *)
Theorem parse_printenv_value_equiv response : parse_printenv_value response var = printenv_ref response var.
Proof. apply (found_ref (S (length response)) None response); [lia|done]. Qed.

End Printenv.

Theorem parse_printenv_value_equiv_witness :
  parse_printenv_value (codes " ipaddr=1.2.3.4" ++ [13; 10; 10] ++ codes "ethaddr=02:00" ++ [32; 13; 10]) (codes "ethaddr") =
  printenv_ref (codes " ipaddr=1.2.3.4" ++ [13; 10; 10] ++ codes "ethaddr=02:00" ++ [32; 13; 10]) (codes "ethaddr").
Proof.
  apply (parse_printenv_value_equiv (codes "ethaddr")); [vm_compute; reflexivity|].
  apply (bool_decide_unpack _). vm_compute. exact I.
Defined.
