(* ===== verification/Firmware.v ===== *)
(** * Published U-Boot images and their cache

  Models [src/src/defib/firmware.py]: which release file a chip uses, and the
  cache of downloaded files with its rules for what is stale, what is current
  and what may stand in when a download fails.

  The cache directory is a map from file names to contents and modification
  times, with the validators that a download left beside them (a sidecar that
  is missing or unreadable is no entry).  The requests to the server and the
  parsing of HTTP dates are parameters.  Writing a file succeeds.  Where the
  cache directory is, progress callbacks and log messages are left out. *)

From Stdlib Require Import Ascii.
From Stdlib Require String.
From S2P Require Import Prelude Profiles HisiV500 Novatek.

#[local] Open Scope string_scope.

Definition OPENIPC_BASE_URL : string := "https://github.com/OpenIPC/firmware/releases/download/latest".
Definition NOVATEK_RECOVERY_ASSET : string := "novatek-recovery.tar.gz".
Definition NOVATEK_RELEASE_URL : string := "https://github.com/OpenIPC/u-boot/releases/download/novatek".

Definition AVAILABLE_FIRMWARE : list string :=
  ["hi3516av100"; "hi3516av200"; "hi3516av300";
   "hi3516cv100"; "hi3516cv200"; "hi3516cv500";
   "hi3516dv100"; "hi3516dv300";
   "hi3518av100"; "hi3518cv100"; "hi3518ev100"; "hi3518ev200";
   "hi3519v101"; "hi3520dv200"; "hi3536cv100"; "hi3536dv100";
   "t40a"; "t40n"; "t40xp"].

Definition PER_FLASH_TYPE_UBOOT : list string :=
  ["hi3516ev200"; "hi3516ev300"; "hi3518ev300"; "hi3516dv200";
   "gk7205v500"; "gk7205v510"; "gk7205v530";
   "gk7202v300"; "gk7205v200"; "gk7205v300"; "gk7605v100";
   "gk7201v200";
   "hi3516cv300"; "hi3516ev100"].

Definition NOR_ONLY_UBOOT : list string := ["hi3516ev100"].
Definition NO_UNIVERSAL_FALLBACK : list string := ["hi3516cv300"; "hi3516ev100"].

Definition FIRMWARE_PACKAGE_BOARD : list (string * string) :=
  [("hi3516cv608", "hi3516cv6xx"); ("hi3516cv610", "hi3516cv6xx"); ("hi3516cv613", "hi3516cv6xx");
   ("hi3516dv500", "hi3519dv500"); ("gk7205v510", "gk7205v500"); ("gk7205v530", "gk7205v500")].

Definition NOR_SPLIT_SOCS : list string :=
  ["gk7202v300"; "gk7205v200"; "gk7205v300"; "gk7605v100";
   "hi3516cv6xx"; "hi3519dv500";
   "hi3516cv300"; "hi3516ev100";
   "hi3516ev200"; "hi3518ev300"; "hi3516dv200";
   "gk7205v500"; "gk7201v200"; "hi3516ev300"].

Definition DEFAULT_NOR_BOOT_AREA : Z * Z := (0x40000, 0x10000)%Z.
Definition NOR_BOOT_AREAS : list (string * (Z * Z)) := [("hi3519dv500", (0x80000, 0x40000)%Z)].

Definition FLASH_TYPES : list string := ["nor"; "nand"].
Definition DEFAULT_FLASH_TYPE : string := "nor".

Definition BOOT_IMAGE_VARIANTS : list (string * list string) :=
  [("hi3516cv608", []);
   ("hi3516cv610", ["00g"; "00s"; "10b"; "20g"; "20s"]);
   ("hi3519dv500", ["dmeb"; "dmebpro"])].

Definition CLASSIC_UBOOT_VARIANTS : list (string * list (string * string)) :=
  [("hi3518ev100", [("hiwatch-ds-i203", "u-boot-hi3518ev100-ddr3-256m-universal.bin")])].

Definition CHIP_TO_FIRMWARE : list (string * string) :=
  [("hi3518ev201", "hi3518ev200"); ("hi3516dv100", "hi3516dv100");
   ("gk7201v300", "gk7205v200"); ("gk7205v210", "gk7205v200")].

(** [d.get(k, default)] *)
Definition get_or {V} (d : list (string * V)) (k : string) (v : V) : V := default v (assoc d k).

(** [name in names] *)
Definition mem (name : string) (names : list string) : bool := bool_decide (name ∈ names).

(** ** Names *)

Definition split_variant (chip : string) : string * option string :=
  match split_once ":"%char chip with
  | Some (base, variant) => (base, if bool_decide (variant = "") then None else Some variant)
  | None => (chip, None)
  end.

Definition strip_variant (chip : string) : string := fst (split_variant chip).

(** [s.strip()] *)
Fixpoint str_lstrip (s : string) : string :=
  match s with String.String c s' => if is_space c then str_lstrip s' else s | String.EmptyString => "" end.
Definition str_rev (s : string) : string := String.string_of_list_ascii (rev (String.list_ascii_of_string s)).
Definition str_strip (s : string) : string := str_rev (str_lstrip (str_rev (str_lstrip s))).

Definition normalize_flash_type (flash_type : option string) : res string :=
  match flash_type with
  | None => Ok DEFAULT_FLASH_TYPE
  | Some t =>
      let normalized := lower (str_strip t) in
      if negb (mem normalized FLASH_TYPES) then Raise ValueError else Ok normalized
  end.

Definition uses_per_flash_type_uboot (chip : string) : bool :=
  let base := lower (strip_variant chip) in
  mem (get_or CHIP_TO_FIRMWARE base base) PER_FLASH_TYPE_UBOOT.

Definition package_board (chip : string) : string :=
  let base := lower (strip_variant chip) in
  let name := get_or CHIP_TO_FIRMWARE base base in
  get_or FIRMWARE_PACKAGE_BOARD name name.

Definition supports_nor_split (chip : string) : bool := mem (package_board chip) NOR_SPLIT_SOCS.

Definition nor_boot_area (chip : string) : Z * Z := get_or NOR_BOOT_AREAS (package_board chip) DEFAULT_NOR_BOOT_AREA.

Definition asset_name (chip : string) (flash_type : option string) : res (option string) :=
  let! kind := normalize_flash_type flash_type in
  let (base, variant) := split_variant chip in
  let name := get_or CHIP_TO_FIRMWARE (lower base) (lower base) in
  Ok (
    if mem name NOVATEK_SOCS then Some NOVATEK_RECOVERY_ASSET else
    if mem name PER_FLASH_TYPE_UBOOT then
      if bool_decide (kind = "nand") && mem name NOR_ONLY_UBOOT then None
      else Some ("u-boot-" +:+ name +:+ "-" +:+ kind +:+ ".bin") else
    match assoc BOOT_IMAGE_VARIANTS name with
    | Some [] => Some ("boot-" +:+ name +:+ "-nor.bin")
    | Some variants =>
        match variant with
        | Some v => if mem v variants then Some ("boot-" +:+ name +:+ "-" +:+ v +:+ "-nor.bin") else None
        | None => None
        end
    | None =>
        match variant, assoc CLASSIC_UBOOT_VARIANTS name with
        | Some v, Some classic => assoc classic v
        | _, _ =>
            if mem name AVAILABLE_FIRMWARE then Some ("u-boot-" +:+ name +:+ "-universal.bin") else None
        end
    end).

(** [None] and the empty name are both falsy. *)
Definition firmware_url (chip : string) (flash_type : option string) : res (option string) :=
  let! name := asset_name chip flash_type in
  Ok (match name with
      | Some n =>
          if bool_decide (n = NOVATEK_RECOVERY_ASSET) then Some (NOVATEK_RELEASE_URL +:+ "/" +:+ n)
          else if bool_decide (n = "") then None else Some (OPENIPC_BASE_URL +:+ "/" +:+ n)
      | None => None
      end).

Definition legacy_cache_name (chip : string) : string :=
  let base := strip_variant chip in
  "u-boot-" +:+ get_or CHIP_TO_FIRMWARE base base +:+ "-universal.bin".

(** ** The cache *)

Record file := File { f_data : bytes; f_mtime : Z }.

(** [ETag], [Last-Modified] and the size of a published file. *)
Record validators := Validators { v_etag : option string; v_modified : option string; v_size : option Z }.

Record cache := Cache { c_files : gmap string file; c_meta : gmap string validators }.

Definition put_file (n : string) (f : file) (c : cache) : cache := Cache (<[n := f]> (c_files c)) (c_meta c).
Definition remove_file (n : string) (c : cache) : cache := Cache (delete n (c_files c)) (c_meta c).
Definition put_meta (n : string) (v : validators) (c : cache) : cache := Cache (c_files c) (<[n := v]> (c_meta c)).

Definition cached_file (c : cache) (n : string) : option file :=
  match c_files c !! n with
  | Some f => if (0 <? len (f_data f))%Z then Some f else None
  | None => None
  end.

Definition has_hi3536e_ddr_config (data : bytes) : bool :=
  let spl := slice data 0 0x5000 in
  forallb (fun v => contains (le_bytes 4 v) spl) [0x34421A12; 0x4144B48D]%Z.

(** [_CACHE_CHECKS] *)
Definition is_stale (n : string) (f : file) : bool :=
  if bool_decide (n = "u-boot-hi3536dv100-universal.bin") then negb (has_hi3536e_ddr_config (f_data f)) else false.

(** [remote.get(key) and meta.get(key)]: both there and not empty. *)
Definition both (a b : option string) : option (string * string) :=
  match a, b with
  | Some x, Some y => if bool_decide (x = "") || bool_decide (y = "") then None else Some (x, y)
  | _, _ => None
  end.

Section Server.
(** A HEAD request (none when it fails), a GET request with its body (none
    when it fails), and [parsedate_to_datetime(s).timestamp()]. *)
Variable head_url : string -> option validators.
Variable get_url : string -> option (validators * bytes).
Variable parse_date : string -> option Z.
(** The time of the call. *)
Variable now : Z.

Definition is_current (c : cache) (n : string) (f : file) (remote : option validators) : bool :=
  match remote with
  | None => true
  | Some r =>
      let by_size_and_date :=
        if match v_size r with Some size => negb (size =? len (f_data f))%Z | None => false end then false else
        match v_modified r with
        | Some d => match parse_date d with Some t => negb (f_mtime f <? t)%Z | None => true end
        | None => true
        end in
      match c_meta c !! n with
      | None => by_size_and_date
      | Some m =>
          match both (v_etag r) (v_etag m) with
          | Some (a, b) => bool_decide (a = b)
          | None =>
              match both (v_modified r) (v_modified m) with
              | Some (a, b) => bool_decide (a = b)
              | None => by_size_and_date
              end
          end
      end
  end.

(** The loop over the candidates; [None] is [return None]. *)
Fixpoint first_cached (c : cache) (published url : option string) (check_release : bool) (candidates : list (option string))
    : option string :=
  match candidates with
  | [] => None
  | None :: rest => first_cached c published url check_release rest
  | Some n :: rest =>
      if bool_decide (n = "") then first_cached c published url check_release rest else
      match cached_file c n with
      | None => first_cached c published url check_release rest
      | Some f =>
          if is_stale n f then first_cached c published url check_release rest else
          if check_release && bool_decide (Some n = published) then
            match url with
            | Some u => if is_current c n f (head_url u) then Some n else None
            | None => Some n
            end
          else Some n
      end
  end.

Definition get_cached_path (c : cache) (chip : string) (flash_type : option string) (check_release : bool) : res (option string) :=
  let (base, variant) := split_variant chip in
  let name := get_or CHIP_TO_FIRMWARE base base in
  let! published := asset_name chip flash_type in
  let legacy :=
    if negb (uses_per_flash_type_uboot chip) &&
       negb (bool_decide (is_Some variant) && bool_decide (is_Some (assoc CLASSIC_UBOOT_VARIANTS name)))
    then [Some (legacy_cache_name chip)] else [] in
  let! url := firmware_url chip flash_type in
  Ok (first_cached c published url check_release (published :: legacy)).

Definition has_firmware (c : cache) (chip : string) (flash_type : option string) : res bool :=
  let! url := firmware_url chip flash_type in
  match url with
  | Some _ => Ok true
  | None => let! p := get_cached_path c chip flash_type true in Ok (bool_decide (is_Some p))
  end.

Definition pad_to_size (data : bytes) (target_size fill : Z) : res bytes :=
  if (target_size <? len data)%Z then Raise ValueError else Ok (ljust target_size fill data).

(** [_download]: [None] is the ConnectionError, after the partial file was
    removed. *)
Definition download (url dest : string) (c : cache) : bool * cache :=
  match get_url url with
  | Some (v, data) =>
      if (len data <? 1024)%Z then (false, remove_file dest c)
      else (true, put_meta dest v (put_file dest (File data now) c))
  | None => (false, remove_file dest c)
  end.

Definition restore (dest : string) (f : file) (c : cache) : cache := put_file dest f c.

Definition download_firmware (chip : string) (flash_type : option string) (c : cache) : res string * cache :=
  match firmware_url chip flash_type with
  | Raise e => (Raise e, c)
  | Diverge => (Diverge, c)
  | Ok None =>
      match get_cached_path c chip flash_type true with
      | Ok (Some n) => (Ok n, c)
      | Ok None => (Raise ValueError, c)
      | Raise e => (Raise e, c)
      | Diverge => (Diverge, c)
      end
  | Ok (Some url) =>
      match asset_name chip flash_type, get_cached_path c chip flash_type true with
      | Ok (Some _), Ok (Some n) => (Ok n, c)
      | Ok (Some name), Ok None =>
          let stale := cached_file c name in
          let (ok, c') := download url name c in
          if ok then (Ok name, c') else
          match stale with
          | Some f => (Ok name, restore name f c')
          | None =>
              match normalize_flash_type flash_type with
              | Ok kind =>
                  if uses_per_flash_type_uboot chip && bool_decide (kind = "nor") &&
                     negb (mem (package_board chip) NO_UNIVERSAL_FALLBACK)
                  then match cached_file c' (legacy_cache_name chip) with
                       | Some _ => (Ok (legacy_cache_name chip), c')
                       | None => (Raise ConnectionError, c')
                       end
                  else (Raise ConnectionError, c')
              | Raise e => (Raise e, c')
              | Diverge => (Diverge, c')
              end
          end
      | Ok None, _ => (Raise AssertionError, c)
      | Raise e, _ | _, Raise e => (Raise e, c)
      | Diverge, _ | _, Diverge => (Diverge, c)
      end
  end.

Definition download_v500_donor (chip : string) (c : cache) : res string * cache :=
  let name := "u-boot-" +:+ lower (strip_variant chip) +:+ "-nor.bin" in
  let url := OPENIPC_BASE_URL +:+ "/" +:+ name in
  match c_files c !! name with
  | Some f =>
      if is_current c name f (head_url url) then (Ok name, c) else
      let (ok, c') := download url name c in
      if ok then (Ok name, c') else
      (Ok name, restore name (if beq (f_data f) [] then File [] now else f) c')
  | None =>
      let (ok, c') := download url name c in
      if ok then (Ok name, c') else (Raise ConnectionError, c')
  end.

(** ** The cache survives a failed download *)

(** The server gives nothing usable. *)
Definition offline : Prop := forall u, match get_url u with Some (_, d) => (len d < 1024)%Z | None => True end.

Lemma cached_put n f c m : cached_file (put_file n f c) m = if bool_decide (n = m) then (if (0 <? len (f_data f))%Z then Some f else None) else cached_file c m.
Proof. unfold cached_file, put_file. cbn. destruct (bool_decide (n = m)) eqn:E; b2p; [subst; by rewrite lookup_insert_eq|by rewrite lookup_insert_ne]. Qed.

Lemma cached_remove n c m : cached_file (remove_file n c) m = if bool_decide (n = m) then None else cached_file c m.
Proof. unfold cached_file, remove_file. cbn. destruct (bool_decide (n = m)) eqn:E; b2p; [subst; by rewrite lookup_delete_eq|by rewrite lookup_delete_ne]. Qed.

Lemma first_cached_ok c published url check l n :
  first_cached c published url check l = Some n -> is_Some (cached_file c n) /\ Some n ∈ l.
Proof.
  induction l as [|x l IH]; cbn; [done|].
  assert (Hskip : first_cached c published url check l = Some n -> is_Some (cached_file c n) /\ Some n ∈ x :: l).
  { intros [? ?]%IH. split; [done|by right]. }
  destruct x as [m|]; [|done]. destruct (bool_decide (m = "")); [done|]. destruct (cached_file c m) as [f|] eqn:Ef; [|done].
  destruct (is_stale m f); [done|].
  destruct (check && _); [destruct url; [destruct (is_current _ _ _ _); [|done]|]|]; intros [= <-]; (split; [by rewrite Ef|by left]).
Qed.

Lemma get_cached_path_ok c chip flash_type check n :
  get_cached_path c chip flash_type check = Ok (Some n) -> is_Some (cached_file c n).
Proof.
  unfold get_cached_path. destruct (split_variant chip) as [base variant]. destruct (asset_name _ _); [|done..].
  cbn [res_bind]. destruct (firmware_url _ _); [|done..]. cbn [res_bind]. intros H%Ok_inj. by apply first_cached_ok in H as [? _].
Qed.

Lemma download_failed url dest c : offline -> download url dest c = (false, remove_file dest c).
Proof.
  intros Hoff. unfold download. specialize (Hoff url). destruct (get_url url) as [[v d]|]; [|done].
  by replace (len d <? 1024)%Z with true by (symmetry; by apply Z.ltb_lt).
Qed.

(** C40. A download that fails costs nothing: when the server gives nothing
    usable, [download_firmware] leaves every file of the cache that had
    contents, its modification time included, and every sidecar as they were,
    and if it returns a file, that file is one of them; in particular the
    copy that was to be replaced is put back. *)
Theorem download_firmware_rollback chip flash_type c r c' :
  offline -> download_firmware chip flash_type c = (r, c') ->
  (forall n, cached_file c' n = cached_file c n) /\ c_meta c' = c_meta c /\
  (forall n, r = Ok n -> is_Some (cached_file c' n)).
Proof.
  intros Hoff. unfold download_firmware.
  assert (Hsame : forall r0 : res string, (forall n, r0 = Ok n -> is_Some (cached_file c n)) -> (r0, c) = (r, c') ->
    (forall n, cached_file c' n = cached_file c n) /\ c_meta c' = c_meta c /\ (forall n, r = Ok n -> is_Some (cached_file c' n))).
  { intros r0 H [= <- <-]. done. }
  destruct (firmware_url chip flash_type) as [[url|]|e|]; [| |by apply Hsame..].
  - destruct (asset_name chip flash_type) as [[name|]|e|];
      [|by destruct (get_cached_path c chip flash_type true) as [[?|]|?|]; apply Hsame..].
    destruct (get_cached_path c chip flash_type true) as [[n|]|e|] eqn:Eg; [| |by apply Hsame..].
    { apply Hsame. intros ? [= <-]. by eapply get_cached_path_ok. }
    rewrite download_failed by done. cbn iota beta. unfold restore.
    destruct (cached_file c name) as [f|] eqn:Ef.
    + intros [= <- <-].
      assert (Hc : forall n, cached_file (put_file name f (remove_file name c)) n = cached_file c n).
      { intros n. rewrite cached_put, cached_remove. destruct (bool_decide (name = n)) eqn:E; [|done]. b2p. subst n.
        rewrite Ef. unfold cached_file in Ef. destruct (c_files c !! name) as [g|]; [|done]. by destruct (0 <? len (f_data g))%Z eqn:El; [injection Ef as <-; rewrite El|]. }
      split_and!; [done|done|]. intros n [= <-]. by rewrite Hc, Ef.
    + assert (Hc : forall n, cached_file (remove_file name c) n = cached_file c n).
      { intros n. rewrite cached_remove. destruct (bool_decide (name = n)) eqn:E; [|done]. b2p. by subst n. }
      intros H. assert (Hr : c' = remove_file name c /\ forall n, r = Ok n -> is_Some (cached_file c' n)).
      { destruct (normalize_flash_type flash_type); [|by injection H as <- <-..].
        destruct (_ && _ && _); [|by injection H as <- <-]. destruct (cached_file _ (legacy_cache_name chip)) eqn:El; injection H as <- <-; [|done].
        split; [done|]. intros n [= <-]. by rewrite El. }
      destruct Hr as [-> Hr]. by split_and!.
  - destruct (get_cached_path c chip flash_type true) as [[n|]|e|] eqn:Eg; apply Hsame; try done.
    intros ? [= <-]. by eapply get_cached_path_ok.
Qed.

(** ** The flash type decides *)

(** The name a chip's U-Boot is published under. *)
Definition firmware_name (chip : string) : string :=
  let base := lower (strip_variant chip) in get_or CHIP_TO_FIRMWARE base base.

Lemma per_flash_not_novatek name : mem name PER_FLASH_TYPE_UBOOT = true -> mem name NOVATEK_SOCS = false.
Proof.
  unfold mem. intros H%bool_decide_eq_true. apply bool_decide_eq_false.
  revert name H. apply (proj1 (Forall_forall _ _)). apply (bool_decide_unpack _). vm_compute. exact I.
Qed.

Lemma per_flash_asset chip flash_type kind :
  uses_per_flash_type_uboot chip = true -> normalize_flash_type flash_type = Ok kind ->
  asset_name chip flash_type = Ok (if bool_decide (kind = "nand") && mem (firmware_name chip) NOR_ONLY_UBOOT then None
    else Some ("u-boot-" +:+ firmware_name chip +:+ "-" +:+ kind +:+ ".bin")).
Proof.
  intros Hu Hk. unfold asset_name. rewrite Hk. cbn [res_bind]. unfold uses_per_flash_type_uboot in Hu. fold (firmware_name chip) in Hu.
  unfold strip_variant, firmware_name in *. unfold strip_variant in *. destruct (split_variant chip) as [base variant]. cbn [fst] in *.
  rewrite (per_flash_not_novatek _ Hu), Hu. done.
Qed.

(** A board never gets the image of the other flash type: for the chips
    whose U-Boot is published per flash type, the file [download_firmware]
    returns is the build of the requested type, whatever is in the cache and
    whatever the server does; only for NOR, only after the download failed,
    and only for chips the old universal image boots, may that image stand in.
    A chip with no NAND build gets none for NAND. *)
Theorem download_firmware_flash_type chip flash_type kind c n c' :
  uses_per_flash_type_uboot chip = true -> normalize_flash_type flash_type = Ok kind ->
  download_firmware chip flash_type c = (Ok n, c') ->
  (n = "u-boot-" +:+ firmware_name chip +:+ "-" +:+ kind +:+ ".bin" /\
   (kind = "nand" -> mem (firmware_name chip) NOR_ONLY_UBOOT = false)) \/
  (kind = "nor" /\ n = legacy_cache_name chip /\ mem (package_board chip) NO_UNIVERSAL_FALLBACK = false /\
   exists url, firmware_url chip flash_type = Ok (Some url) /\ forall name, fst (download url name c) = false).
Proof.
  intros Hu Hk. pose proof (per_flash_asset chip flash_type kind Hu Hk) as Ha.
  assert (Hg : forall m, get_cached_path c chip flash_type true = Ok (Some m) -> asset_name chip flash_type = Ok (Some m)).
  { intros m. unfold get_cached_path. destruct (split_variant chip) as [base variant]. rewrite Hu.
    destruct (asset_name chip flash_type) as [p|e|]; [|done..]. cbn [res_bind].
    destruct (firmware_url chip flash_type); [|done..]. cbn [res_bind negb andb]. intros H%Ok_inj.
    apply first_cached_ok in H as [_ H]. apply list_elem_of_singleton in H. by subst. }
  assert (Hname : forall m, asset_name chip flash_type = Ok (Some m) ->
    m = "u-boot-" +:+ firmware_name chip +:+ "-" +:+ kind +:+ ".bin" /\ (kind = "nand" -> mem (firmware_name chip) NOR_ONLY_UBOOT = false)).
  { rewrite Ha. intros m [= H]. destruct (bool_decide (kind = "nand") && mem (firmware_name chip) NOR_ONLY_UBOOT) eqn:E; [done|].
    injection H as <-. split; [done|]. intros ->. rewrite bool_decide_eq_true_2 in E by done. done. }
  unfold download_firmware. destruct (firmware_url chip flash_type) as [[url|]|e|] eqn:Eu; [| |done..].
  - destruct (asset_name chip flash_type) as [[name|]|e|]; try done; destruct (get_cached_path c chip flash_type true) as [[m|]|e'|]; try done.
    + intros [= <- <-]. left. apply Hname, Hg. done.
    + unfold restore. destruct (download url name c) as [ok c1] eqn:Ed. destruct ok; [intros [= <- <-]; left; by apply Hname|].
      destruct (cached_file c name); [intros [= <- <-]; left; by apply Hname|]. rewrite Hk, Hu. cbn [andb].
      destruct (bool_decide (kind = "nor") && _) eqn:Eb; [|done]. b2p.
      destruct (cached_file c1 (legacy_cache_name chip)); [|done]. intros [= <- <-]. right. split_and!; [done..|].
      exists url. split; [done|]. intros x. unfold download in *. destruct (get_url url) as [[v d]|]; [|done]. by destruct (len d <? 1024)%Z.
  - destruct (get_cached_path c chip flash_type true) as [[m|]|e'|]; try done. intros [= <- <-]. left. apply Hname, Hg. done.
Qed.

End Server.

(** A cache with an older copy, and a server that is away. *)
Definition fw_cache : cache :=
  Cache {["u-boot-hi3516ev300-nor.bin" := File [1; 2; 3]%Z 5%Z]} {["u-boot-hi3516ev300-nor.bin" := Validators (Some "a") None None]}.
Definition fw_head (u : string) : option validators := Some (Validators (Some "b") None None).
Definition fw_get (u : string) : option (validators * bytes) := None.
Definition fw_date (d : string) : option Z := None.

Theorem download_firmware_rollback_witness :
  (forall n, cached_file (snd (download_firmware fw_head fw_get fw_date 9%Z "hi3516ev300" None fw_cache)) n = cached_file fw_cache n) /\
  c_meta (snd (download_firmware fw_head fw_get fw_date 9%Z "hi3516ev300" None fw_cache)) = c_meta fw_cache /\
  (forall n, fst (download_firmware fw_head fw_get fw_date 9%Z "hi3516ev300" None fw_cache) = Ok n ->
     is_Some (cached_file (snd (download_firmware fw_head fw_get fw_date 9%Z "hi3516ev300" None fw_cache)) n)).
Proof.
  apply (download_firmware_rollback fw_head fw_get fw_date 9%Z "hi3516ev300" None fw_cache); [by intros u|].
  apply surjective_pairing.
Defined.

Theorem download_firmware_flash_type_witness :
  exists n, fst (download_firmware fw_head fw_get fw_date 9%Z "hi3516ev300" (Some "NOR ") fw_cache) = Ok n /\
  ((n = "u-boot-hi3516ev300-nor.bin" /\ ("nor" = "nand" -> mem "hi3516ev300" NOR_ONLY_UBOOT = false)) \/
   ("nor" = "nor" /\ n = legacy_cache_name "hi3516ev300" /\ mem (package_board "hi3516ev300") NO_UNIVERSAL_FALLBACK = false /\
    exists url, firmware_url "hi3516ev300" (Some "NOR ") = Ok (Some url) /\
      forall name, fst (download fw_get 9%Z url name fw_cache) = false)).
Proof.
  exists "u-boot-hi3516ev300-nor.bin". split; [vm_compute; reflexivity|].
  apply (download_firmware_flash_type fw_head fw_get fw_date 9%Z "hi3516ev300" (Some "NOR ") "nor" fw_cache "u-boot-hi3516ev300-nor.bin"
    (snd (download_firmware fw_head fw_get fw_date 9%Z "hi3516ev300" (Some "NOR ") fw_cache))); [vm_compute; reflexivity..|].
  apply pair_fst. vm_compute. reflexivity.
Defined.
