(* ===== verification/Layout.v ===== *)
(** * Flash layouts and the installer's U-Boot helpers

  Models [src/src/defib/install/layout.py]: the partition layouts, the parsing
  of mtdparts strings and of the answers of U-Boot's flash commands, the
  verified setting of an environment variable and the check of a saved
  environment; and [src/src/defib/install/model.py]: the plan of stages.  Texts
  are lists of character codes.  The function that runs a U-Boot command is an
  argument.  Log messages and the texts of errors are left out. *)

From stdpp Require Import pretty.
From Stdlib Require Import Ascii.
From Stdlib Require String.
From S2P Require Import Prelude Text Regex Crc Transport Profiles HisiV500 Novatek Firmware UbootEnv.

(** ** Layouts *)

Abbreviation layout := (list (string * (Z * Z))).

Definition NOR8M_LAYOUT : layout :=
  [("boot", (0x000000, 0x40000)); ("env", (0x040000, 0x10000)); ("kernel", (0x050000, 0x200000)); ("rootfs", (0x250000, 0x500000))]%string.
Definition NOR16M_LAYOUT : layout :=
  [("boot", (0x000000, 0x40000)); ("env", (0x040000, 0x10000)); ("kernel", (0x050000, 0x300000)); ("rootfs", (0x350000, 0xA00000))]%string.
Definition NOR32M_LAYOUT : layout :=
  [("boot", (0x000000, 0x40000)); ("env", (0x040000, 0x10000)); ("kernel", (0x050000, 0x300000)); ("rootfs", (0x350000, 0x1800000))]%string.
Definition NAND_LAYOUT : layout :=
  [("boot", (0x000000, 0x100000)); ("env", (0x100000, 0x100000)); ("kernel", (0x200000, 0x800000)); ("rootfs", (0xA00000, 0x7600000))]%string.
Definition NAND_UBI_LAYOUT : layout :=
  [("boot", (0x000000, 0x0C0000)); ("env", (0x0C0000, 0x040000))]%string.
Definition NAND_UBI_OFFSET : Z := 0x100000.

Definition UBI_NAND_BOARD : list (string * string) := [("gk7205v510", "gk7205v500"); ("gk7205v530", "gk7205v500")]%string.

(** A set, as a list. *)
Definition ubi_nand_boards (chip : string) : list string :=
  let base := strip_variant chip in
  let published := get_or CHIP_TO_FIRMWARE (lower base) base in
  [base; published; get_or UBI_NAND_BOARD base base; get_or UBI_NAND_BOARD published published].

Definition split_boards (chip : string) : list string :=
  let base := lower (strip_variant chip) in
  [base; get_or CHIP_TO_FIRMWARE base base; package_board base].

Definition STANDARD_NOR_BOOT_AREA : Z * Z := (0x40000, 0x10000).

Definition nor_layout (nor_size_mb : Z) (boot_area : Z * Z) : layout :=
  if negb (bool_decide (boot_area = STANDARD_NOR_BOOT_AREA)) then
    let (boot, env) := boot_area in
    let firmware := boot + env in
    [("boot", (0, boot)); ("env", (boot, env)); ("kernel", (firmware, 0));
     ("rootfs", (firmware, nor_size_mb * 1024 * 1024 - firmware))]%string
  else if 32 <=? nor_size_mb then NOR32M_LAYOUT
  else if 16 <=? nor_size_mb then NOR16M_LAYOUT
  else NOR8M_LAYOUT.

Definition nor_mtdparts (nor_size : Z) : list Z :=
  if 32 <=? nor_size then codes "hi_sfc:256k(boot),64k(env),3072k(kernel),24576k(rootfs),-(rootfs_data)"
  else if 16 <=? nor_size then codes "hi_sfc:256k(boot),64k(env),3072k(kernel),10240k(rootfs),-(rootfs_data)"
  else codes "hi_sfc:256k(boot),64k(env),2048k(kernel),5120k(rootfs),-(rootfs_data)".

Definition nand_bootargs (rootfs_is_ubi : bool) : list Z :=
  let base := codes "mem=256M console=ttyAMA0,115200 panic=20 ubi.mtd=3,2048 mtdparts=hinand:1024k(boot),1024k(env),8192k(kernel),-(ubi)" in
  if rootfs_is_ubi then codes "root=ubi0:rootfs rootfstype=ubifs " ++ base
  else codes "root=/dev/ubiblock0_0 rootfstype=squashfs ubi.block=0,0 init=/init " ++ base.

(** ** mtdparts *)

(** [(?:0x[0-9a-f]+|\d+)[kmg]?], ignoring case *)
Definition MTD_NUMBER : re :=
  Seq (Alt (Seq (liti (codes "0x")) (plus hexd)) (plus dg))
      (opt (Chr (fun c => bool_decide (lower_code c ∈ codes "kmg")))).

(** Groups: 1 is [size], 2 is [offset], 3 is [name]. *)
Definition MTDPART_RE : re :=
  seqs [bol; Group 1 (Alt (chr 45) MTD_NUMBER); opt (Seq (chr 64) (Group 2 MTD_NUMBER));
        chr 40; Group 3 (star (Chr (fun c => negb (c =? 41)))); chr 41].

(** [int(digits, 0)] of a run of digits: a decimal number other than zero must
    not begin with 0. *)
Definition int0 (l : list Z) : res Z :=
  if starts_with (codes "0x") (lower_codes l) then Ok (digits_value 16 (drop 2 l)) else
  let v := digits_value 10 l in
  if starts_with [48] l && negb (v =? 0) then Raise ValueError else Ok v.

Definition mtd_multiplier (c : Z) : Z :=
  if c =? 107 then 1024 else if c =? 109 then 1024 ^ 2 else if c =? 103 then 1024 ^ 3 else 1.

Definition mtd_size (text : list Z) : res Z :=
  let! c := of_opt IndexError (last text) in
  let multiplier := mtd_multiplier (lower_code c) in
  let digits := if negb (multiplier =? 1) then but_last 1 text else text in
  let! n := int0 digits in
  Ok (n * multiplier).

(** The loop over the parts of a device: the offset, or [None] when the loop
    ends or breaks. *)
Fixpoint mtd_parts_loop (name : list Z) (parts : list (list Z)) (offset : Z) : res (option Z) :=
  match parts with
  | [] => Ok None
  | part :: rest =>
      match re_match MTDPART_RE (strip part) with
      | None => Ok None
      | Some m =>
          let! offset := match group 2 m with Some o => mtd_size o | None => Ok offset end in
          if bool_decide (group 3 m = Some name) then Ok (Some offset) else
          let size := default [] (group 1 m) in
          if beq size [45] then Ok None else
          let! n := mtd_size size in
          mtd_parts_loop name rest (offset + n)
      end
  end.

Fixpoint mtd_devices_loop (name : list Z) (nand_only : bool) (devices : list (list Z)) : res (option Z) :=
  match devices with
  | [] => Ok None
  | device :: rest =>
      match partition_on 58 device with
      | None => mtd_devices_loop name nand_only rest
      | Some (mtd_id, parts) =>
          if nand_only && negb (contains (codes "nand") (strip mtd_id)) then mtd_devices_loop name nand_only rest else
          let! r := mtd_parts_loop name (split_on 44 parts) 0 in
          match r with
          | Some o => Ok (Some o)
          | None => mtd_devices_loop name nand_only rest
          end
      end
  end.

Definition mtdparts_partition_offset (mtdparts name : list Z) (nand_only : bool) : res (option Z) :=
  let value := removeprefix (codes "mtdparts=") (strip mtdparts) in
  mtd_devices_loop name nand_only (split_on 59 value).

(** ** Answers of U-Boot *)

(** [offset\s+0x([0-9a-f]+),\s*size\s+0x([0-9a-f]+)], ignoring case *)
Definition NAND_ERASE_RE : re :=
  seqs [liti (codes "offset"); plus sp; liti (codes "0x"); Group 1 (plus hexd); chr 44; star sp;
        liti (codes "size"); plus sp; liti (codes "0x"); Group 2 (plus hexd)].

Definition group_hex (n : nat) (m : place) : Z := digits_value 16 (default [] (group n m)).
Definition group_dec (n : nat) (m : place) : Z := digits_value 10 (default [] (group n m)).

Definition parse_nand_erase_range (response : list Z) : option (Z * Z) :=
  match re_search NAND_ERASE_RE response with
  | None => None
  | Some m => Some (group_hex 1 m, group_hex 2 m)
  end.

(** [(?:^|[\s:])OK\s*$], multi-line *)
Definition uboot_reports_ok (response : list Z) : bool :=
  re_test (seqs [Alt bolm (Chr (fun c => is_space_code c || (c =? 58))); lit (codes "OK"); star sp; eolm]) response.

Definition align_up (value alignment : Z) : res Z :=
  if value <? 0 then Raise ValueError else
  if alignment <=? 0 then Raise ValueError else
  Ok ((value + alignment - 1) / alignment * alignment).

(** The loop of [erased_region_crc]; fuel: a turn takes at least one byte. *)
Fixpoint erased_loop (fuel : nat) (chunk : bytes) (remaining crc : Z) : res Z :=
  if remaining =? 0 then Ok crc else
  match fuel with
  | O => Diverge
  | S fuel' =>
      let piece := if len chunk <=? remaining then chunk else slice chunk 0 remaining in
      erased_loop fuel' chunk (remaining - len piece) (crc32_from piece crc)
  end.

Definition erased_region_crc (size : Z) : res Z :=
  if size <? 0 then Raise ValueError else
  let! crc := erased_loop (Z.to_nat size) (brep (Z.min size 0x10000) 0xFF) size 0 in
  Ok (Z.land crc 0xFFFFFFFF).

Definition RESULT_PREFIXES : list (list Z) :=
  codes <$> ["sf:"; "spi flash"; "spi nor"; "nand"; "erase"; "erasing"; "write"; "writing"; "read"; "reading"]%string.

Definition flash_line_error (line : list Z) : bool :=
  let text := lower_codes line in
  existsb (fun p => starts_with (codes p) text) ["error:"; "unknown command"; "usage:"]%string
  || bool_decide (is_Some (re_match (seqs [lit (codes "failed"); wordb]) text))
  || contains (codes "no spi flash selected") text
  || (contains (codes "out of range") text || contains (codes "not block aligned") text)
  || (beq text (codes "failed") || beq text (codes "failure"))
  || (existsb (fun p => starts_with p text) RESULT_PREFIXES
      && re_test (seqs [wordb; Alt (lit (codes "failed")) (lit (codes "failure")); wordb]) text).

(** The first line, stripped, that reports an error. *)
Definition uboot_flash_command_error (response : list Z) : option (list Z) :=
  List.find (fun line => negb (beq line []) && flash_line_error line) (strip <$> splitlines response).

Definition uboot_sf_lock_unsupported (response : list Z) : bool :=
  let lines := List.filter (fun l => negb (beq l [])) ((fun l => lower_codes (strip l)) <$> splitlines response) in
  if existsb (fun line =>
       (contains (codes "sf") line || contains (codes "lock") line) &&
       (contains (codes "unknown command") line ||
        (contains (codes "not supported") line || contains (codes "unsupported") line))) lines
  then true else
  match list_find (fun line => Is_true (starts_with (codes "usage:") line)) lines with
  | None => false
  | Some (usage_at, _) =>
      let candidates := (fun line =>
        if starts_with (codes "usage:") line then strip (removeprefix (codes "usage:") line) else line) <$> drop usage_at lines in
      let sf_usage := List.filter (fun c => bool_decide (is_Some (re_match (seqs [bol; lit (codes "sf"); Alt sp eol]) c))) candidates in
      negb (bool_decide (sf_usage = [])) &&
      negb (existsb (fun line =>
        bool_decide (is_Some (re_match (seqs [bol; lit (codes "sf"); plus sp; lit (codes "lock"); Alt sp eol]) line))) sf_usage)
  end.

(** [==>\s*([0-9a-fA-F]{8})] *)
Definition parse_uboot_crc32 (response : list Z) : option Z :=
  match re_search (seqs [lit (codes "==>"); star sp; Group 1 (rep 8 hexd)]) response with
  | Some m => Some (group_hex 1 m)
  | None => None
  end.

(** The patterns of [detect_nor_size_mb], with IGNORECASE, and their divisors. *)
Definition to_eol : re := star (Chr (fun c => negb (c =? 10))).
Definition on_spi : re := Seq to_eol (Alt (liti (codes "hi_sfc")) (liti (codes "spi"))).
Definition NOR_SIZE_PATTERNS : list (re * Z) :=
  [(seqs [wordb; liti (codes "Chip:"); star sp; Group 1 (plus dg); star sp; liti (codes "MB"); wordb], 1);
   (seqs [wordb; liti (codes "spi"); plus sp; liti (codes "size:"); star sp; Group 1 (plus dg); star sp; liti (codes "MB"); wordb], 1);
   (seqs [wordb; opt (seqs [liti (codes "spi"); plus sp; liti (codes "nor"); plus sp]); liti (codes "total"); plus sp;
          liti (codes "size:"); star sp; Group 1 (plus dg); star sp; liti (codes "MB"); wordb], 1);
   (seqs [wordb; liti (codes "SF:"); to_eol; wordb; liti (codes "total"); plus sp; Group 1 (plus dg); star sp; liti (codes "MB"); wordb], 1);
   (seqs [wordb; Group 1 (plus dg); plus sp; liti (codes "MiB"); wordb; on_spi], 1);
   (seqs [wordb; Group 1 (plus dg); plus sp; liti (codes "KiB"); wordb; on_spi], 1024)].

Definition detect_nor_size_mb (response : list Z) : option Z :=
  foldr (fun '(pattern, divisor) later =>
    match re_search pattern response with
    | Some m =>
        let value := group_dec 1 m in
        if divisor =? 1 then Some value
        else if value mod divisor =? 0 then Some (value / divisor) else later
    | None => later
    end) None NOR_SIZE_PATTERNS.

Definition NOR_SIZE_CANDIDATES_MB : list Z := [32; 16; 8].

Definition hex0x (n : Z) : list Z := codes "0x" ++ codes (hex_x n).

Definition nor_size_probe_read (ram_addr size_mb : Z) : list Z :=
  codes "sf read " ++ hex0x ram_addr ++ codes " " ++ hex0x (size_mb * 1024 * 1024 - 16) ++ codes " 0x10".

Definition sf_read_succeeded (response : list Z) : bool :=
  let text := lower_codes response in
  if contains (codes "exceeds") text || contains (codes "past flash size") text || contains (codes "error") text
  then false else contains (codes "read: ok") text.

Inductive size_source := override_size | detected_size | fallback_size.

Definition select_nor_size_mb (override : Z) (detected : option Z) (require_detection : bool) : res (Z * size_source) :=
  if negb (override =? 0) then Ok (override, override_size) else
  match detected with
  | Some d => Ok (d, detected_size)
  | None => if require_detection then Raise ValueError else Ok (8, fallback_size)
  end.

(** ** Commands *)

Section Commands.
Context {T Ob : Type} `{Transport T}.
Variable cmd : list Z -> Z -> M T Ob (list Z).

(** One attempt of [set_uboot_env_verified]. *)
Definition set_env_attempt (key value : list Z) (attempts attempt : Z) (_ : unit) : M T Ob (ctl unit unit) :=
  let* set_response := cmd (codes "setenv " ++ key ++ codes " " ++ value) 3000000 in
  let* done :=
    match uboot_flash_command_error set_response with
    | None =>
        let* verify_response := cmd (codes "printenv " ++ key) 3000000 in
        ret (bool_decide (parse_printenv_value verify_response key = Some value))
    | Some _ => ret false
    end in
  if done then ret (Rtn tt) else
  let* _ := if attempt + 1 <? Z.max 1 attempts then sleep 50000 else ret tt in
  ret (Next tt).

Definition set_uboot_env_verified (key value : list Z) (attempts : Z) : M T Ob unit :=
  let* c := foreach (range (Z.max 1 attempts)) (set_env_attempt key value attempts) tt in
  match c with
  | Rtn _ => ret tt
  | _ => raise RuntimeError
  end.

(** [\bTotal of\s+1\s+word(?:\(s\)|s)?\s+were the same\b], ignoring case *)
Definition CMP_SAME_RE : re :=
  seqs [wordb; liti (codes "Total of"); plus sp; chr 49; plus sp; liti (codes "word");
        opt (Alt (liti (codes "(s)")) (liti (codes "s"))); plus sp; liti (codes "were the same"); wordb].

Definition verify_spi_environment_crc (env_off env_size ram_addr : Z) : M T Ob Z :=
  if env_size <=? 4 then raise ValueError else
  let* probe_response := cmd (codes "sf probe 0") 10000000 in
  match uboot_flash_command_error probe_response with Some _ => raise RuntimeError | None =>
  let* read_response :=
    cmd (codes "sf read " ++ hex0x ram_addr ++ codes " " ++ hex0x env_off ++ codes " " ++ hex0x env_size) 30000000 in
  match uboot_flash_command_error read_response with Some _ => raise RuntimeError | None =>
  let crc_store_addr := ram_addr + env_size in
  let* crc_response :=
    cmd (codes "crc32 " ++ hex0x (ram_addr + 4) ++ codes " " ++ hex0x (env_size - 4) ++ codes " " ++ hex0x crc_store_addr) 10000000 in
  match parse_uboot_crc32 crc_response with None => raise RuntimeError | Some data_crc =>
  let* compare_response := cmd (codes "cmp.l " ++ hex0x ram_addr ++ codes " " ++ hex0x crc_store_addr ++ codes " 1") 5000000 in
  match uboot_flash_command_error compare_response with Some _ => raise RuntimeError | None =>
  if negb (re_test CMP_SAME_RE compare_response) then raise RuntimeError else
  ret data_crc
  end end end end.

End Commands.

(** ** The plan of an installation *)

Definition INSTALL_STAGE_ORDER : list string := ["uboot"; "kernel"; "rootfs"; "rootfs-data"; "env"; "reset"]%string.

(** [{stage.strip().lower() for stage in stages if stage.strip()}] *)
Definition stage_set (stages : list string) : list string :=
  (fun s => lower (str_strip s)) <$> filter (fun s => str_strip s <> ""%string) stages.

Definition resolve_install_stages (selected skipped : list string) (final_reset : bool) : res (list string) :=
  let selected_set := stage_set selected in
  let skipped_set := stage_set skipped in
  if negb (bool_decide (selected_set = [])) && negb (bool_decide (skipped_set = [])) then Raise ValueError else
  if negb (forallb (fun s => mem s INSTALL_STAGE_ORDER) (selected_set ++ skipped_set)) then Raise ValueError else
  let! active :=
    if negb (bool_decide (selected_set = [])) then
      if negb final_reset && mem "reset" selected_set then Raise ValueError else Ok selected_set
    else
      let active := filter (fun s => s ∉ skipped_set) INSTALL_STAGE_ORDER in
      Ok (if negb final_reset then filter (fun s => s <> "reset"%string) active else active) in
  if bool_decide (active = []) then Raise ValueError else
  Ok (filter (fun s => s ∈ active) INSTALL_STAGE_ORDER).

Record InstallRequest := mkRequest {
  ir_chip : string; ir_firmware_path : string; ir_uboot_path : string; ir_port : string;
  ir_power_cycle : bool; ir_poe_port_override : string; ir_nic : string; ir_host_ip : string;
  ir_device_ip : string; ir_tftp_port : Z; ir_nor_size : Z; ir_nand : bool; ir_wipe_env : bool;
  ir_wipe_rootfs_data : bool; ir_final_reset : bool; ir_stages : list string; ir_skip_stages : list string;
  ir_tftp_via : string; ir_output : string; ir_debug : bool
}.

(** ** Layouts fit the chip and agree with mtdparts *)

(** The partitions follow one another from 0 and end at [last]. *)
Fixpoint consecutive (at_ : Z) (l : layout) : option Z :=
  match l with
  | [] => Some at_
  | (_, (off, size)) :: l' => if (off =? at_) && (0 <=? size) then consecutive (off + size) l' else None
  end.

(** The NOR layouts are sound: for every chip of at least 8 MiB the
    partitions follow one another from offset 0, do not overlap and end inside
    the chip, and where the boot area is the standard one the mtdparts string
    that is passed to the kernel gives each of them the same offset. *)
Theorem nor_layout_sound n boot env :
  8 <= n -> 0 <= boot -> 0 <= env -> boot + env <= n * 1024 * 1024 ->
  (exists last, consecutive 0 (nor_layout n (boot, env)) = Some last /\ last <= n * 1024 * 1024) /\
  ((boot, env) = STANDARD_NOR_BOOT_AREA ->
   Forall (fun p => mtdparts_partition_offset (nor_mtdparts n) (codes (fst p)) false = Ok (Some (fst (snd p)))) (nor_layout n (boot, env))).
Proof.
  intros Hn Hb He Hfit. unfold nor_layout. destruct (bool_decide ((boot, env) = STANDARD_NOR_BOOT_AREA)) eqn:E; cbn [negb].
  - unfold nor_mtdparts. destruct (32 <=? n) eqn:E32; [|destruct (16 <=? n) eqn:E16]; b2p;
      (split; [eexists; split; [vm_compute; reflexivity|lia]|]);
      intros _; repeat (apply Forall_cons_2; [vm_compute; reflexivity|]); by apply Forall_nil_2.
  - b2p. split; [|done]. cbn [consecutive].
    replace (0 =? 0) with true by done. replace (0 <=? boot) with true by (symmetry; lia).
    replace (0 + boot) with boot by lia. rewrite !Z.eqb_refl. replace (0 <=? env) with true by (symmetry; lia). cbn [andb].
    rewrite Z.add_0_r, Z.eqb_refl. replace (0 <=? 0) with true by done.
    replace (0 <=? n * 1024 * 1024 - (boot + env)) with true by (symmetry; lia). cbn [andb].
    eexists. split; [reflexivity|lia].
Qed.

Theorem nor_layout_sound_witness :
  (exists last, consecutive 0 (nor_layout 16 (0x80000, 0x40000)) = Some last /\ last <= 16 * 1024 * 1024) /\
  ((0x80000, 0x40000) = STANDARD_NOR_BOOT_AREA ->
   Forall (fun p => mtdparts_partition_offset (nor_mtdparts 16) (codes (fst p)) false = Ok (Some (fst (snd p)))) (nor_layout 16 (0x80000, 0x40000))).
Proof. apply (nor_layout_sound 16 0x80000 0x40000); lia. Defined.

(** ** Erased flash *)

Lemma brep_take n m b : 0 <= m <= n -> slice (brep n b) 0 m = brep m b.
Proof. intros. unfold slice, brep. rewrite drop_0, take_replicate. f_equal. lia. Qed.

Lemma brep_app n m b : 0 <= n -> 0 <= m -> brep (n + m) b = brep n b ++ brep m b.
Proof. intros. unfold brep. rewrite <- replicate_add. f_equal. lia. Qed.

Lemma erased_loop_ok fuel k remaining crc :
  0 < k \/ remaining = 0 -> 0 <= remaining -> (Z.to_nat remaining <= fuel)%nat ->
  erased_loop fuel (brep k 0xFF) remaining crc = Ok (crc32_from (brep remaining 0xFF) crc) \/ remaining = 0.
Proof.
  revert remaining crc. induction fuel as [|fuel IH]; intros remaining crc Hk Hr Hf; cbn [erased_loop].
  - right. lia.
  - destruct (remaining =? 0) eqn:E0; b2p; [by right|left]. assert (Hk' : 0 < k) by lia. rewrite len_brep by lia.
    set (piece := if k <=? remaining then _ else _).
    assert (Hp : piece = brep (Z.min k remaining) 0xFF).
    { unfold piece. destruct (k <=? remaining) eqn:El; b2p; [by rewrite Z.min_l by lia|].
      rewrite brep_take by lia. by rewrite Z.min_r by lia. }
    rewrite Hp, len_brep by lia.
    replace (brep remaining 0xFF) with (brep (Z.min k remaining) 0xFF ++ brep (remaining - Z.min k remaining) 0xFF)
      by (rewrite <- brep_app by lia; f_equal; lia).
    rewrite crc32_from_app. destruct (IH (remaining - Z.min k remaining) (crc32_from (brep (Z.min k remaining) 0xFF) crc)) as [->|Hz]; [lia..|done|].
    rewrite Hz. change (brep 0 0xFF) with (@nil Z). unfold crc32_from at 2. cbn [foldl].
    rewrite Z.lxor_assoc, Z.lxor_nilpotent, Z.lxor_0_r. by destruct fuel.
Qed.

(** [erased_region_crc] is the CRC-32 of a region of 0xFF bytes of that
    size, computed in pieces of at most 64 KiB; the loop always ends, and a
    negative size is refused. *)
Theorem erased_region_crc_spec size :
  erased_region_crc size = if size <? 0 then Raise ValueError else Ok (crc32 (brep size 0xFF)).
Proof.
  unfold erased_region_crc. destruct (size <? 0) eqn:E; [done|]. b2p.
  assert (Hb : b32 (crc32 (brep size 0xFF))).
  { apply crc32_from_b32; [|by vm_compute]. apply Forall_replicate. unfold is_byte. lia. }
  assert (H : erased_loop (Z.to_nat size) (brep (Z.min size 0x10000) 0xFF) size 0 = Ok (crc32 (brep size 0xFF))).
  { destruct (erased_loop_ok (Z.to_nat size) (Z.min size 0x10000) size 0) as [->| ->]; [lia..|done|]. by vm_compute. }
  rewrite H. cbn [res_bind]. f_equal. change 0xFFFFFFFF with (Z.ones 32). rewrite Z.land_ones by lia. apply Z.mod_small. exact Hb.
Qed.

(** ** Setting a variable *)

Section SetEnv.
Context {T Ob : Type} `{Transport T}.
Variable cmd : list Z -> Z -> M T Ob (list Z).

Lemma set_env_loop key value attempts l (w w' : world T Ob) c :
  foreach l (set_env_attempt cmd key value attempts) tt w = (Ok (Rtn c), w') ->
  exists w1 resp, cmd (codes "printenv " ++ key) 3000000 w1 = (Ok resp, w') /\ parse_printenv_value resp key = Some value.
Proof.
  revert w. induction l as [|x l IH]; intros w; [done|]. cbn [foreach]. unfold bind at 1, set_env_attempt at 1.
  unfold bind at 1. destruct (cmd (codes "setenv " ++ key ++ codes " " ++ value) 3000000 w) as [[sr|e|] w1]; [|done..].
  set (next := if x + 1 <? Z.max 1 attempts then sleep 50000 else ret tt).
  assert (Hnext : forall w2, (let* _ := next in ret (Next tt)) w2 = (Ok (Next tt : ctl unit unit), snd (next w2))).
  { intros w2. unfold bind, next. by destruct (_ <? _). }
  destruct (uboot_flash_command_error sr).
  - unfold bind at 1, ret at 1. rewrite Hnext. apply IH.
  - unfold bind at 1. unfold bind at 1. destruct (cmd (codes "printenv " ++ key) 3000000 w1) as [[vr|e|] w2] eqn:Ep; [|done..].
    unfold ret at 1. destruct (bool_decide (parse_printenv_value vr key = Some value)) eqn:E.
    + unfold ret at 1. intros [= <- <-]. b2p. eauto.
    + rewrite Hnext. apply IH.
Qed.

(** A variable counts as set only when the device says so: whatever the
    commands do, if [set_uboot_env_verified] returns, the last command it ran
    was [printenv] of that key and the answer held exactly the value. *)
Theorem set_uboot_env_verified_safe key value attempts (w w' : world T Ob) :
  set_uboot_env_verified cmd key value attempts w = (Ok tt, w') ->
  exists w1 resp, cmd (codes "printenv " ++ key) 3000000 w1 = (Ok resp, w') /\ parse_printenv_value resp key = Some value.
Proof.
  unfold set_uboot_env_verified. unfold bind at 1. destruct (foreach _ _ _ w) as [[[s|s|c]|e|] w2] eqn:E; try done.
  intros [= <-]. by eapply set_env_loop.
Qed.

End SetEnv.

(** ** mtdparts strings *)

(** A part as it is written: a decimal number of KiB and a name. *)
Record mtd_part := Part { pt_digits : list Z; pt_name : list Z }.

Definition part_text (p : mtd_part) : list Z := pt_digits p ++ codes "k(" ++ pt_name p ++ [41].
Definition part_size (p : mtd_part) : Z := 1024 * digits_value 10 (pt_digits p).

(** Digits with no leading zero; a name without the characters that end it or
    the part. *)
Definition part_ok (p : mtd_part) : Prop :=
  match pt_digits p with [] => False | c :: ds => is_digit_code c = true /\ c <> 48 /\ Forall (fun d => is_digit_code d = true) ds end /\
  Forall (fun c => c <> 41 /\ c <> 44 /\ c <> 59) (pt_name p).

Lemma number_match {A} (k : place -> option A) prev c ds r caps x :
  is_digit_code c = true -> c <> 48 -> Forall (fun d => is_digit_code d = true) ds ->
  k (Place (Some 107) r caps) = Some x -> rmatch MTD_NUMBER k (Place prev (c :: ds ++ 107 :: r) caps) = Some x.
Proof.
  intros Hc H0 Hds Hk. unfold MTD_NUMBER. set (suffix := opt _).
  change (match rmatch (Seq (liti (codes "0x")) (plus hexd)) (rmatch suffix k) (Place prev (c :: ds ++ 107 :: r) caps) with
    | Some y => Some y | None => rmatch (plus dg) (rmatch suffix k) (Place prev (c :: ds ++ 107 :: r) caps) end = Some x).
  assert (Hlow : (lower_code c =? lower_code 48) = false).
  { apply Z.eqb_neq. unfold lower_code, is_digit_code in *. b2p. destruct ((65 <=? c) && _) eqn:E; b2p; cbn; lia. }
  change (codes "0x") with [48; 120]. cbn [liti fmap list_fmap seqs foldr rmatch chri p_rest p_caps]. rewrite Hlow.
  apply rmatch_plus_all; [done|done|done|]. unfold suffix, opt. cbn [rmatch p_rest p_caps].
  change (bool_decide (lower_code 107 ∈ codes "kmg")) with true. cbv iota. by rewrite Hk.
Qed.

Lemma part_match p :
  part_ok p ->
  exists m, re_match MTDPART_RE (part_text p) = Some m /\
    group 1 m = Some (pt_digits p ++ [107]) /\ group 2 m = None /\ group 3 m = Some (pt_name p).
Proof.
  intros [Hd Hn]. destruct p as [[|c ds] name]; [done|]. cbn [pt_digits pt_name] in *. destruct Hd as (Hc & Hc0 & Hds).
  unfold re_match, MTDPART_RE, part_text. cbn [pt_digits pt_name]. change (codes "k(") with [107; 40].
  assert (H45 : (45 =? c) = false) by (apply Z.eqb_neq; unfold is_digit_code in Hc; b2p; lia).
  eexists (Place (Some 41) [] [(3%nat, name); (1%nat, (c :: ds) ++ [107])]). split; [|by split_and!].
  cbn [seqs foldr]. unfold bol. cbn [rmatch p_prev p_rest]. cbn [chr rmatch app p_rest p_caps]. rewrite H45.
  apply number_match; [done..|]. unfold capture. cbn [p_prev p_rest p_caps].
  unfold opt. cbn [rmatch chr p_rest p_caps]. change (64 =? 40) with false. change (40 =? 40) with true. cbv iota.
  apply rmatch_star_all; [|done|].
  - eapply Forall_impl; [exact Hn|]. intros d (Hd & _). cbn. by apply negb_true_iff, Z.eqb_neq.
  - cbn [p_prev p_rest p_caps]. change (41 =? 41) with true. cbv iota. f_equal. f_equal. f_equal; [|f_equal].
    + f_equal. rewrite length_app. cbn [length]. replace (length name + 1 - 1)%nat with (length name) by lia. by rewrite take_app_length.
    + f_equal. change (c :: ds ++ 107 :: 40 :: name ++ [41]) with ((c :: ds) ++ [107] ++ (40 :: name ++ [41])).
      rewrite app_assoc, length_app, Nat.add_sub. by rewrite take_app_length.
Qed.

Lemma mtd_size_k c ds :
  is_digit_code c = true -> c <> 48 -> mtd_size ((c :: ds) ++ [107]) = Ok (1024 * digits_value 10 (c :: ds)).
Proof.
  intros Hc H0. unfold mtd_size. rewrite last_snoc. cbn [of_opt res_bind].
  change (mtd_multiplier (lower_code 107)) with 1024. change (negb (1024 =? 1)) with true. cbv iota.
  replace (but_last 1 ((c :: ds) ++ [107])) with (c :: ds).
  2: { unfold but_last. rewrite length_app. cbn [length]. rewrite take_app_length'; [done|cbn; lia]. }
  unfold int0. replace (starts_with (codes "0x") (lower_codes (c :: ds))) with false.
  2: { symmetry. apply bool_decide_eq_false. change (codes "0x") with [48; 120]. cbn. intros [= E _]. unfold lower_code, is_digit_code in *.
       b2p. destruct ((65 <=? c) && _) eqn:El; b2p; lia. }
  replace (starts_with [48] (c :: ds)) with false by (symmetry; apply bool_decide_eq_false; cbn; intros [= E]; done).
  cbn [andb res_bind]. f_equal. lia.
Qed.

Definition parts_size (ps : list mtd_part) : Z := foldr Z.add 0 (part_size <$> ps).

Lemma mtd_parts_found pre p post offset :
  Forall part_ok (pre ++ p :: post) -> pt_name p ∉ pt_name <$> pre ->
  mtd_parts_loop (pt_name p) (part_text <$> pre ++ p :: post) offset = Ok (Some (offset + parts_size pre)).
Proof.
  revert offset. assert (Hstrip : forall q, part_ok q -> strip (part_text q) = part_text q).
  { intros [[|c ds] name] [Hd Hn]; [done|]. cbn [pt_digits pt_name] in *. destruct Hd as (Hc & _). unfold part_text. cbn [pt_digits pt_name].
    rewrite !app_assoc, <- app_comm_cons. cbn [app]. apply strip_between; [|done].
    unfold is_digit_code, is_space_code in *. b2p. repeat (apply orb_false_iff; split); try (apply Z.eqb_neq; lia); apply andb_false_iff; rewrite !Z.leb_gt; lia. }
  induction pre as [|q pre IH]; intros offset Hok Hni; cbn [app fmap list_fmap mtd_parts_loop].
  - apply Forall_cons in Hok as [Hp _]. rewrite Hstrip by done. destruct (part_match p Hp) as (m & -> & G1 & G2 & G3).
    rewrite G2, G3. cbn [res_bind]. rewrite bool_decide_eq_true_2 by done. unfold parts_size. cbn. by rewrite Z.add_0_r.
  - apply Forall_cons in Hok as [Hq Hok]. rewrite Hstrip by done. destruct (part_match q Hq) as (m & -> & G1 & G2 & G3).
    rewrite G1, G2, G3. cbn [res_bind]. change (default [] (Some ?x)) with x. apply not_elem_of_cons in Hni as [Hne Hni].
    rewrite bool_decide_eq_false_2 by (intros [= E]; done).
    destruct q as [[|c ds] name]; [by destruct Hq|]. cbn [pt_digits pt_name] in *. destruct Hq as [(Hc & H0 & Hds) _].
    replace (beq ((c :: ds) ++ [107]) [45]) with false by (symmetry; apply bool_decide_eq_false; intros [= _ E]; by destruct ds).
    rewrite mtd_size_k by done. cbn [res_bind].
    rewrite (IH (offset + 1024 * digits_value 10 (c :: ds)) Hok Hni). do 2 f_equal.
    unfold parts_size. cbn [fmap list_fmap foldr]. unfold part_size at 2. cbn [pt_digits]. lia.
Qed.

Lemma part_text_no x p : x = 44 \/ x = 59 -> part_ok p -> Forall (fun c => c <> x) (part_text p).
Proof.
  intros Hx [Hd Hn]. destruct p as [[|c ds] name]; [done|]. cbn [pt_digits pt_name] in *. destruct Hd as (Hc & _ & Hds).
  assert (Hdig : forall d, is_digit_code d = true -> d <> x) by (intros d Hd; unfold is_digit_code in Hd; b2p; lia).
  unfold part_text. cbn [pt_digits pt_name]. repeat apply Forall_app_2.
  - constructor; [by apply Hdig|]. eapply Forall_impl; [exact Hds|]. done.
  - change (codes "k(") with [107; 40]. repeat constructor; lia.
  - eapply Forall_impl; [exact Hn|]. cbn. intros d ?. lia.
  - repeat constructor; lia.
Qed.

Lemma join_parts_end ps : ps <> [] -> exists b, join [44] (part_text <$> ps) = b ++ [41].
Proof.
  induction ps as [|p ps IH]; [done|]. intros _. destruct ps as [|q ps].
  - exists (pt_digits p ++ codes "k(" ++ pt_name p). cbn [fmap list_fmap join]. unfold part_text. by rewrite !app_assoc.
  - destruct (IH ltac:(done)) as (b & Hb). exists (part_text p ++ [44] ++ b).
    change (join [44] (part_text <$> p :: q :: ps)) with (part_text p ++ [44] ++ join [44] (part_text <$> q :: ps)).
    rewrite Hb. by rewrite !app_assoc.
Qed.

(** [mtdparts_partition_offset] adds up the sizes in front: in a string
    for one device, written as [id:<n>k(name),...] with decimal sizes, the
    offset of a partition is the sum of the sizes of the parts before it,
    whatever the id, the numbers and the names are. *)
Theorem mtdparts_offsets dev pre p post :
  Forall (fun c => is_word_code c = true) dev -> Forall part_ok (pre ++ p :: post) -> pt_name p ∉ pt_name <$> pre ->
  mtdparts_partition_offset (dev ++ [58] ++ join [44] (part_text <$> pre ++ p :: post)) (pt_name p) false = Ok (Some (parts_size pre)).
Proof.
  intros Hdev Hok Hni. set (ps := pre ++ p :: post) in *. set (body := join [44] (part_text <$> ps)).
  assert (Hne : ps <> []) by (unfold ps; by destruct pre). destruct (join_parts_end ps Hne) as (b & Hb). fold body in Hb.
  assert (Hword : forall c, is_word_code c = true -> is_space_code c = false /\ c <> 58 /\ c <> 59 /\ c <> 61).
  { intros c Hc. unfold is_word_code, is_digit_code, lower_code in Hc.
    assert (H : 48 <= c <= 57 \/ 65 <= c <= 90 \/ c = 95 \/ 97 <= c <= 122).
    { destruct ((65 <=? c) && (c <=? 90)) eqn:E; [b2p; lia|]. apply orb_true_iff in Hc as [Hc|Hc]; [apply orb_true_iff in Hc as [Hc|Hc]|]; b2p; lia. }
    split; [|lia]. unfold is_space_code. repeat (apply orb_false_iff; split); try (apply Z.eqb_neq; lia); apply andb_false_iff; rewrite !Z.leb_gt; lia. }
  assert (Hstrip : strip (dev ++ [58] ++ body) = dev ++ [58] ++ body).
  { rewrite Hb. destruct dev as [|c dev']; [by apply strip_between|]. apply Forall_cons in Hdev as [Hc _].
    change ((c :: dev') ++ [58] ++ b ++ [41]) with (c :: dev' ++ [58] ++ b ++ [41]). rewrite !app_assoc. apply strip_between; [by apply Hword|done]. }
  assert (H61 : 61 ∉ dev) by (intros Hin; rewrite Forall_forall in Hdev; by destruct (Hword _ (Hdev _ Hin)) as (_ & _ & _ & ?)).
  assert (Hpre : starts_with (codes "mtdparts=") (dev ++ [58] ++ body) = false).
  { apply not_true_iff_false. intros (u & Hu)%starts_with_inv. apply app_eq_inv in Hu as [(k & Hk & _)|(k & Hk & Hu)].
    - apply H61. rewrite Hk. apply elem_of_app. left. apply (bool_decide_unpack _). by vm_compute.
    - destruct k as [|x k]; [rewrite app_nil_r in Hk; apply H61; rewrite <- Hk; apply (bool_decide_unpack _); by vm_compute|].
      injection Hu as <- _. assert (Hin : 58 ∈ codes "mtdparts=") by (rewrite Hk; apply elem_of_app; right; by left).
      revert Hin. apply (bool_decide_unpack _). by vm_compute. }
  assert (Hsemi : Forall (fun c => c <> 59) (dev ++ [58] ++ body)).
  { apply Forall_app_2; [eapply Forall_impl; [exact Hdev|]; intros c Hc; by apply Hword|]. apply Forall_cons_2; [done|].
    apply join_Forall; [by repeat constructor|]. apply Forall_fmap. eapply Forall_impl; [exact Hok|]. intros q Hq. apply part_text_no; [by right|done]. }
  unfold mtdparts_partition_offset. rewrite Hstrip. unfold removeprefix. rewrite Hpre.
  rewrite split_on_partition, partition_on_none by done. cbn [mtd_devices_loop]. change ([58] ++ body) with (58 :: body).
  rewrite partition_on_app by (eapply Forall_impl; [exact Hdev|]; intros c Hc; by apply Hword). cbn [andb].
  unfold body. rewrite split_join; [by unfold ps; rewrite mtd_parts_found| |by destruct ps].
  apply Forall_fmap. eapply Forall_impl; [exact Hok|]. intros q Hq. apply part_text_no; [by left|done].
Qed.

Theorem mtdparts_offsets_witness :
  mtdparts_partition_offset (codes "hi_sfc" ++ [58] ++ join [44] (part_text <$> [Part (codes "256") (codes "boot")] ++
      Part (codes "64") (codes "env") :: [Part (codes "3072") (codes "kernel")])) (codes "env") false
    = Ok (Some (parts_size [Part (codes "256") (codes "boot")])).
Proof.
  apply (mtdparts_offsets (codes "hi_sfc") [Part (codes "256") (codes "boot")] (Part (codes "64") (codes "env"))
    [Part (codes "3072") (codes "kernel")]).
  - apply (bool_decide_unpack _). by vm_compute.
  - repeat (apply Forall_cons_2; [split; [split_and!; [done|done|apply (bool_decide_unpack _); by vm_compute]|apply (bool_decide_unpack _); by vm_compute]|]).
    by apply Forall_nil_2.
  - apply (bool_decide_unpack _). by vm_compute.
Defined.

(** A shell that loses the first [setenv], then prints the value back. *)
Definition env_cmd (c : list Z) (_ : Z) : M MockTransport Z (list Z) := fun w =>
  if starts_with (codes "printenv ") c
  then (Ok (if 2 <=? obj w then codes "ipaddr=10.0.0.2" ++ [13; 10] else codes "## Error"), w)
  else (Ok [], World (tr w) (obj w + 1) (log w)).

Theorem set_uboot_env_verified_safe_witness :
  exists w1 resp, env_cmd (codes "printenv ipaddr") 3000000 w1 =
      (Ok resp, snd (set_uboot_env_verified env_cmd (codes "ipaddr") (codes "10.0.0.2") 3 (World (Mock_init true) 0 []))) /\
    parse_printenv_value resp (codes "ipaddr") = Some (codes "10.0.0.2").
Proof.
  apply (set_uboot_env_verified_safe env_cmd (codes "ipaddr") (codes "10.0.0.2") 3 (World (Mock_init true) 0 [])
    (snd (set_uboot_env_verified env_cmd (codes "ipaddr") (codes "10.0.0.2") 3 (World (Mock_init true) 0 [])))).
  vm_compute. reflexivity.
Defined.

(** ** The plan *)

Lemma stages_sub (P : string -> Prop) `{forall s, Decision (P s)} : NoDup (filter P INSTALL_STAGE_ORDER).
Proof. apply NoDup_filter. apply (bool_decide_unpack _). by vm_compute. Qed.

(** The plan of an installation is never ambiguous: whenever
    [resolve_install_stages] gives a plan, that is not empty, has each stage
    once and in the order of execution, and consists exactly of the selected
    stages, or, with no selection, of the stages that are not skipped, less
    the final reset if that is off; a reset is in it only if final resets are
    on.  It is refused for exactly: a selection and skips together, an unknown
    stage, a selected reset while resets are off, or an empty plan. *)
Theorem resolve_install_stages_spec selected skipped final_reset :
  let sel := stage_set selected in
  let skip := stage_set skipped in
  match resolve_install_stages selected skipped final_reset with
  | Ok plan =>
      plan <> [] /\ plan `sublist_of` INSTALL_STAGE_ORDER /\ NoDup plan /\ (sel = [] \/ skip = []) /\
      (forall s, (s ∈ plan) <-> (s ∈ INSTALL_STAGE_ORDER) /\
        (if bool_decide (sel = []) then (s ∉ skip) /\ (final_reset = false -> s <> "reset"%string) else s ∈ sel)) /\
      (final_reset = false -> "reset"%string ∉ plan)
  | Raise e => e = ValueError /\
      ((sel <> [] /\ skip <> []) \/ (exists s, s ∈ sel ++ skip /\ s ∉ INSTALL_STAGE_ORDER) \/
       (final_reset = false /\ "reset"%string ∈ sel) \/
       (forall s, s ∈ INSTALL_STAGE_ORDER -> s ∈ skip \/ (final_reset = false /\ s = "reset"%string)))
  | Diverge => False
  end.
Proof.
  cbn zeta. unfold resolve_install_stages. set (sel := stage_set selected). set (skip := stage_set skipped).
  destruct (negb (bool_decide (sel = [])) && negb (bool_decide (skip = []))) eqn:E1; [b2p; by auto|].
  assert (Hex : sel = [] \/ skip = []) by (apply andb_false_iff in E1 as [E|E]; b2p; auto).
  destruct (forallb _ (sel ++ skip)) eqn:E2; cbn [negb].
  2: { split; [done|]. right. left. apply not_true_iff_false in E2. rewrite forallb_forall in E2.
       destruct (decide (Forall (fun s => s ∈ INSTALL_STAGE_ORDER) (sel ++ skip))) as [Hf|Hf].
       - destruct E2. intros x Hx. rewrite Forall_forall in Hf. apply bool_decide_eq_true, Hf. by apply list_elem_of_In.
       - apply not_Forall_Exists, Exists_exists in Hf as (x & Hx & Hn); [|intros ?; apply _]. by exists x. }
  assert (Hplan : forall active, (final_reset = false -> "reset"%string ∉ active) ->
    (forall s, s ∈ INSTALL_STAGE_ORDER -> (s ∈ active) <-> if bool_decide (sel = []) then (s ∉ skip) /\ (final_reset = false -> s <> "reset"%string) else s ∈ sel) ->
    (forall s, s ∈ active -> s ∈ INSTALL_STAGE_ORDER) -> active <> [] ->
    let plan := filter (fun s => s ∈ active) INSTALL_STAGE_ORDER in
    plan <> [] /\ plan `sublist_of` INSTALL_STAGE_ORDER /\ NoDup plan /\ (sel = [] \/ skip = []) /\
    (forall s, (s ∈ plan) <-> (s ∈ INSTALL_STAGE_ORDER) /\
      (if bool_decide (sel = []) then (s ∉ skip) /\ (final_reset = false -> s <> "reset"%string) else s ∈ sel)) /\
    (final_reset = false -> "reset"%string ∉ plan)).
  { intros active Hr Ha Hs Hne plan. split_and!.
    - destruct active as [|x l]; [done|]. intros E. assert (Hin : x ∈ plan) by (apply list_elem_of_filter; split; [by left|apply Hs; by left]).
      rewrite E in Hin. by apply not_elem_of_nil in Hin.
    - apply sublist_filter.
    - apply stages_sub.
    - done.
    - intros x. unfold plan. rewrite list_elem_of_filter. split; [intros [Hx Ho]; split; [done|by apply Ha]|intros [Ho Hx]; split; [by apply Ha|done]].
    - intros Hf Hin. unfold plan in Hin. apply list_elem_of_filter in Hin as [Hin _]. by apply Hr. }
  rewrite forallb_forall in E2.
  assert (Hknown : forall s, s ∈ sel ++ skip -> s ∈ INSTALL_STAGE_ORDER).
  { intros x Hx%list_elem_of_In. apply E2 in Hx. by apply bool_decide_eq_true in Hx. }
  clear E2. destruct (bool_decide (sel = [])) eqn:Es; cbn [negb].
  - cbn [res_bind]. set (active := if negb final_reset then _ else _).
    assert (Ha : forall s, (s ∈ active) <-> s ∈ INSTALL_STAGE_ORDER /\ (s ∉ skip) /\ (final_reset = false -> s <> "reset"%string)).
    { intros x. unfold active. destruct final_reset; cbn [negb]; rewrite ?list_elem_of_filter; clear; intuition congruence. }
    destruct (bool_decide (active = [])) eqn:Ee; b2p.
    + split; [done|]. do 3 right. intros x Hx. destruct (decide (x ∈ skip)) as [Hk|Hk]; [by left|right].
      assert (Hn : x ∉ active) by (rewrite Ee; apply not_elem_of_nil). rewrite Ha in Hn.
      destruct final_reset; [destruct Hn; split_and!; [done..|by intros]|]. destruct (decide (x = "reset"%string)); [done|]. destruct Hn. done.
    + apply Hplan; [|by intros x Hx; rewrite Ha; tauto|by intros x Hx%Ha; destruct Hx|done].
      intros Hf Hin%Ha. destruct Hin as (_ & _ & H). by apply H.
  - destruct (negb final_reset && mem "reset" sel) eqn:Er; cbn [res_bind].
    + apply andb_true_iff in Er as [Ef%negb_true_iff Em%bool_decide_eq_true]. split; [done|]. by right; right; left.
    + destruct (bool_decide (sel = [])) eqn:Ee; [done|]. b2p. apply Hplan; [|done|by intros x Hx; apply Hknown, elem_of_app; left|done].
      intros -> Hin. destruct Er as [Er|Er]; [done|]. by apply bool_decide_eq_false in Er.
Qed.
