(* ===== verification/Nand.v ===== *)
(** * SPI NAND operations of the flash agent

  Models [src/src/defib/agent/nand.py]: the FMC register values, the packing of
  transfers and records, and [NandStudy], which runs CMD_NAND requests on top
  of a connected [FlashAgentClient].  The object is the study with the client
  inside it.  The rate the serial port is at, which [resync] reads from the
  transport, is a parameter.  The texts of errors are left out. *)

From S2P Require Import Prelude Transport Crc AgentProtocol AgentClient.

Definition NAND_OP_INFO : Z := 0x00.
Definition NAND_OP_FEATURE_GET : Z := 0x01.
Definition NAND_OP_FEATURE_SET : Z := 0x02.
Definition NAND_OP_READ_PAGES : Z := 0x03.
Definition NAND_OP_PROGRAM_PAGE : Z := 0x04.
Definition NAND_OP_ERASE_BLOCK : Z := 0x05.
Definition NAND_OP_FMC_REG : Z := 0x06.
Definition NAND_ST_OK : Z := 0x00.
Definition NAND_ST_BADARG : Z := 0x01.
Definition NAND_ST_NOT_NAND : Z := 0x02.
Definition NAND_ST_IO : Z := 0x03.
Definition REC_SIZE : Z := 8.
Definition REC_TIMEOUT : Z := Z.shiftl 1 0.
Definition REC_FAIL : Z := Z.shiftl 1 1.
Definition FMC_CFG_OP_MODE_NORMAL : Z := Z.shiftl 1 0.
Definition FMC_CFG_FLASH_SEL_MASK : Z := Z.shiftl 0x3 1.
Definition FMC_CFG_FLASH_SEL_SPI_NAND : Z := Z.shiftl 0x1 1.
Definition FMC_CFG_PAGE_SIZE_MASK : Z := Z.shiftl 0x3 3.
Definition FMC_CFG_ECC_TYPE_SHIFT : Z := 5.
Definition FMC_CFG_ECC_TYPE_MASK : Z := Z.shiftl 0x7 FMC_CFG_ECC_TYPE_SHIFT.
Definition FMC_CFG_BLOCK_SIZE_MASK : Z := Z.shiftl 0x3 8.

(** ** Registers, transfers and records *)

Inductive EccType := ECC_NONE | ECC_BIT8 | ECC_BIT16 | ECC_BIT24 | ECC_BIT28 | ECC_BIT40 | ECC_BIT64.
#[export] Instance EccType_eq_dec : EqDecision EccType.
Proof. solve_decision. Defined.

Definition ecc_int (e : EccType) : Z :=
  match e with
  | ECC_NONE => 0 | ECC_BIT8 => 1 | ECC_BIT16 => 2 | ECC_BIT24 => 3 | ECC_BIT28 => 4 | ECC_BIT40 => 5 | ECC_BIT64 => 6
  end.

(** [EccType(n)] *)
Definition EccType_of (n : Z) : res EccType :=
  of_opt ValueError (List.find (fun e => ecc_int e =? n)
    [ECC_NONE; ECC_BIT8; ECC_BIT16; ECC_BIT24; ECC_BIT28; ECC_BIT40; ECC_BIT64]).

Inductive XferMode := XFER_REG | XFER_DMA.
Definition mode_int (m : XferMode) : Z := match m with XFER_REG => 0 | XFER_DMA => 1 end.

Definition compose_fmc_cfg (live : Z) (ecc : EccType) : Z :=
  let cfg := Z.land live (Z.lnot
    (Z.lor (Z.lor (Z.lor FMC_CFG_FLASH_SEL_MASK FMC_CFG_PAGE_SIZE_MASK) FMC_CFG_ECC_TYPE_MASK) FMC_CFG_BLOCK_SIZE_MASK)) in
  Z.lor (Z.lor (Z.lor cfg FMC_CFG_OP_MODE_NORMAL) FMC_CFG_FLASH_SEL_SPI_NAND) (Z.shiftl (ecc_int ecc) FMC_CFG_ECC_TYPE_SHIFT).

Definition ecc_type_of (fmc_cfg : Z) : res EccType :=
  EccType_of (Z.shiftr (Z.land fmc_cfg FMC_CFG_ECC_TYPE_MASK) FMC_CFG_ECC_TYPE_SHIFT).

Record NandXfer := mkXfer { x_mode : XferMode; x_fmc_cfg : Z; x_opcode : Z; x_iftype : Z; x_dummy : Z }.

Definition xfer_pack (x : NandXfer) : res bytes :=
  let! a := pack_le 4 (x_fmc_cfg x) in
  let! b := pack_le 1 (mode_int (x_mode x)) in
  let! c := pack_le 1 (x_opcode x) in
  let! d := pack_le 1 (x_iftype x) in
  let! e := pack_le 1 (x_dummy x) in
  Ok (a ++ b ++ c ++ d ++ e).

Definition program_xfer (r : NandXfer) : NandXfer :=
  let quad := (x_iftype r =? 3) || (x_iftype r =? 4) in
  mkXfer (x_mode r) (x_fmc_cfg r) (if quad then 0x32 else 0x02) (if quad then 3 else 0) 0.

Record NandRecord := mkRecord { ecc_err : Z; ondie : Z; fmc_int : Z; r_flags : Z }.

(** [struct.unpack("<IBBBB", raw[:8])] needs all 8 bytes. *)
Definition record_unpack (raw : bytes) : res NandRecord :=
  let raw := slice raw 0 REC_SIZE in
  let! _ := unpack_le 8 raw 0 in
  let! e := unpack_le 4 raw 0 in
  let! o := unpack_le 1 raw 4 in
  let! i := unpack_le 1 raw 5 in
  let! f := unpack_le 1 raw 6 in
  Ok (mkRecord e o i f).

Definition step_errors (r : NandRecord) (steps : Z) : list Z :=
  (fun i => Z.land (Z.shiftr (ecc_err r) (8 * i)) 0xFF) <$> range steps.

Definition uncorrectable_steps (r : NandRecord) (steps : Z) : list Z :=
  List.filter (fun i => nth (Z.to_nat i) (step_errors r steps) 0 =? 0xFF) (range steps).

Definition corrected_bits (r : NandRecord) (steps : Z) : Z :=
  foldr Z.add 0 (List.filter (fun n => negb (n =? 0xFF)) (step_errors r steps)).

Definition ondie_ecc (r : NandRecord) : Z := Z.land (Z.shiftr (ondie r) 4) 0x3.
Definition record_failed (r : NandRecord) : bool := negb (Z.land (r_flags r) (Z.lor REC_TIMEOUT REC_FAIL) =? 0).

Record NandInfo := mkNandInfo {
  page_size : Z; oob_size : Z; pages_per_block : Z; n_blocks : Z;
  dma_buf : Z; dma_size : Z; stat_buf : Z; stat_size : Z; n_fmc_cfg : Z
}.
Definition stride (i : NandInfo) : Z := page_size i + oob_size i.
Definition n_pages (i : NandInfo) : Z := pages_per_block i * n_blocks i.
Definition ecc_steps (i : NandInfo) : Z := Z.max 1 (page_size i / 1024).

Record PageRead := mkPageRead { pr_page : Z; pr_data : bytes; pr_oob : bytes; pr_record : NandRecord }.

(** [oob[30:32] = b"\x00\x00"]; past the end of a short area it extends it. *)
Definition kernel_oob (n : Z) : bytes := take 30 (brep n 0xFF) ++ [0; 0] ++ drop 32 (brep n 0xFF).

(** ** NandStudy *)

Record study := Study { s_client : agent; s_info : option NandInfo; last_status : Z }.
Definition set_client (a : agent) (s : study) : study := Study a (s_info s) (last_status s).
Definition set_info (i : NandInfo) (s : study) : study := Study (s_client s) (Some i) (last_status s).
Definition set_status (st : Z) (s : study) : study := Study (s_client s) (s_info s) st.
Definition NandStudy_init (client : agent) : study := Study client None NAND_ST_OK.

Definition is_NandError_or_Transport (e : exn) : bool := bool_decide (e = NandError) || is_TransportError e.

Section Study.
Context {T : Type} `{Transport T}.
Variable fuel : nat.
(** The rate of the transport's serial port, if it has one. *)
Variable port_baud : T -> option Z.
Abbreviation MS := (M T study).

(** A method of [self._client]. *)
Definition on_client {A} (m : M T agent A) : MS A := fun w =>
  let (r, w') := m (World (tr w) (s_client (obj w)) (log w)) in
  (r, World (tr w') (set_client (obj w') (obj w)) (log w')).

(** One turn of the wait for the answer; the state is [in_stale_stream]. *)
Definition call_body (op deadline : Z) (in_stale_stream : bool) : MS (ctl bool (Z * bytes)) :=
  let* now := monotonic in
  if deadline <? now then raise NandError else
  let* now := monotonic in
  let* (cmd, data) := try_except (on_client (recv_packet fuel (Z.max 100000 (deadline - now))))
    is_TransportTimeout (fun _ => raise NandError) in
  if cmd =? RSP_READY then ret (Next in_stale_stream) else
  if (cmd =? RSP_NAND) && (2 <=? len data) && (nth 0 data 0 =? op) then ret (Rtn (cmd, data)) else
  if cmd =? RSP_DATA then ret (Next true) else
  if (cmd =? RSP_ACK) && negb in_stale_stream then ret (Rtn (cmd, data)) else
  ret (Next false).

Definition nand_call (op : Z) (args : bytes) (timeout : Z) : MS bytes :=
  let* _ := on_client clear_rx_buffers in
  let* payload := lift (if negb (bool_decide (is_byte op)) then Raise ValueError else Ok ([op] ++ args)) in
  let* _ := on_client (send_packet CMD_NAND payload) in
  let* now := monotonic in
  let* c := while fuel (call_body op (now + timeout)) false in
  match c with
  | Rtn (cmd, data) =>
      if negb (cmd =? RSP_NAND) || (len data <? 2) || negb (nth 0 data 0 =? op) then raise NandError else
      let* status := lift (index data 1) in
      if status =? NAND_ST_BADARG then raise NandError else
      if status =? NAND_ST_NOT_NAND then raise NandError else
      if negb ((status =? NAND_ST_OK) || (status =? NAND_ST_IO)) then raise NandError else
      let* s := get_obj in
      let* _ := put_obj (set_status status s) in
      ret (drop 2 data)
  | _ => diverge
  end.

(** One turn of the drain of [resync]; the state is [quiet_since]. *)
Definition resync_body (quiet end_ quiet_since : Z) : MS (ctl Z unit) :=
  let* now := monotonic in
  if negb (now <? end_) then ret (Brk quiet_since) else
  let* now := monotonic in
  if negb (now - quiet_since <? quiet) then ret (Brk quiet_since) else
  let* got := try_except (let* p := on_client (recv_packet fuel quiet) in ret (Some p)) is_TransportError (fun _ => ret None) in
  match got with
  | None => ret (Brk quiet_since)
  | Some (cmd, _) =>
      if negb (cmd =? RSP_READY) then let* now := monotonic in ret (Next now) else ret (Next quiet_since)
  end.

Definition resync (quiet limit : Z) : MS unit :=
  let* now := monotonic in
  let end_ := now + limit in
  let* now := monotonic in
  let* c := while (R := unit) fuel (resync_body quiet end_) now in
  let* _ := on_client clear_rx_buffers in
  let* answered := try_except
    (let* _ := nand_call NAND_OP_INFO [] 3000000 in
     let* s := get_obj in
     let* _ := fun w => (Ok tt, World (tr w)
        (match port_baud (tr w) with
         | Some b => if b =? 0 then s else set_client (set_current_baud b (s_client s)) s
         | None => s
         end) (log w)) in
     ret true)
    is_NandError_or_Transport (fun _ => ret false) in
  if answered : bool then ret tt else
  let* _ := set_baudrate FALLBACK_BAUD in
  let* _ := on_client (modify (set_current_baud FALLBACK_BAUD)) in
  let* _ := on_client clear_rx_buffers in
  let* ready := on_client (wait_for_ready fuel 45000000) in
  if negb ready then raise NandError else ret tt.

(** [struct.unpack("<HHHHIIIII", raw[:28])] *)
Definition info_unpack (raw : bytes) : res NandInfo :=
  let raw := slice raw 0 28 in
  let! _ := unpack_le 28 raw 0 in
  let! page := unpack_le 2 raw 0 in
  let! oob := unpack_le 2 raw 2 in
  let! ppb := unpack_le 2 raw 4 in
  let! blocks := unpack_le 2 raw 6 in
  let! dma := unpack_le 4 raw 8 in
  let! dsize := unpack_le 4 raw 12 in
  let! stat := unpack_le 4 raw 16 in
  let! ssize := unpack_le 4 raw 20 in
  let! cfg := unpack_le 4 raw 24 in
  Ok (mkNandInfo page oob ppb blocks dma dsize stat ssize cfg).

Definition nand_info : MS NandInfo :=
  let* raw := nand_call NAND_OP_INFO [] 5000000 in
  let* i := lift (info_unpack raw) in
  let* s := get_obj in
  let* _ := put_obj (set_info i s) in
  ret i.

Definition geometry : MS NandInfo :=
  let* s := get_obj in
  match s_info s with Some i => ret i | None => nand_info end.

(** [bytes([...])] *)
Definition byte_list (l : list Z) : res bytes := if bool_decide (is_bytes l) then Ok l else Raise ValueError.

Definition feature_get (addr : Z) : MS Z :=
  let* a := lift (byte_list [addr]) in
  let* raw := nand_call NAND_OP_FEATURE_GET a 5000000 in
  lift (index raw 0).

Definition feature_set (addr value : Z) : MS Z :=
  let* a := lift (byte_list [addr; value]) in
  let* raw := nand_call NAND_OP_FEATURE_SET a 5000000 in
  lift (index raw 0).

(** [struct.unpack("<I", raw[:4])] *)
Definition first_word (raw : bytes) : res Z := unpack_le 4 (slice raw 0 4) 0.

Definition fmc_reg (offset : Z) (value : option Z) : MS Z :=
  let* a := lift (let! b := pack_le 1 (match value with None => 0 | Some _ => 1 end) in
                  let! o := pack_le 2 offset in
                  let! v := pack_le 4 (default 0 value) in Ok (b ++ o ++ v)) in
  let* raw := nand_call NAND_OP_FMC_REG a 5000000 in
  lift (first_word raw).

(** The records [range(done)] of the answer. *)
Fixpoint unpack_records (raw : bytes) (n : nat) (i : Z) : res (list NandRecord) :=
  match n with
  | O => Ok []
  | S n' =>
      let! r := record_unpack (slice raw (i * REC_SIZE) ((i + 1) * REC_SIZE)) in
      let! rs := unpack_records raw n' (i + 1) in
      Ok (r :: rs)
  end.

Definition read_pages (start count : Z) (xfer : NandXfer) (store fast : bool) : MS (list NandRecord * bytes) :=
  let* i := geometry in
  let* args := lift (let! a := pack_I [start; count] in let! x := xfer_pack xfer in Ok (a ++ x ++ [if store then 1 else 0])) in
  let* raw := nand_call NAND_OP_READ_PAGES args (10000000 + count * 20000) in
  let* done := lift (first_word raw) in
  let* recs_raw := on_client (read_memory fuel (stat_buf i) (done * REC_SIZE) false) in
  let* records := lift (unpack_records recs_raw (Z.to_nat done) 0) in
  let* data :=
    if store && negb (done =? 0) then
      let* _ := if negb fast then on_client (restore_baud fuel) else ret tt in
      on_client (read_memory fuel (dma_buf i) (done * stride i) fast)
    else ret [] in
  ret (records, data).

Definition read_page (page : Z) (xfer : NandXfer) : MS PageRead :=
  let* i := geometry in
  let* r := read_pages page 1 xfer true true in
  let (records, data) := r in
  match records with
  | [] => raise NandError
  | r :: _ => ret (mkPageRead page (slice data 0 (page_size i)) (slice data (page_size i) (stride i)) r)
  end.

(** One turn of [scan]; the state is [page] and the records so far. *)
Definition scan_body (start count chunk : Z) (xfer : NandXfer) (s : Z * list NandRecord) : MS (ctl (Z * list NandRecord) Empty_set) :=
  let (page, records) := s in
  if negb (page <? start + count) then ret (Brk s) else
  let n := Z.min chunk (start + count - page) in
  let* r := read_pages page n xfer false true in
  let records := records ++ fst r in
  if len (fst r) <? n then ret (Brk (page, records)) else
  ret (Next (page + n, records)).

(** The records from page [start] on. *)
Definition scan (start count : Z) (xfer : NandXfer) (chunk : Z) : MS (list NandRecord) :=
  let* i := geometry in
  let chunk := Z.min chunk (stat_size i / REC_SIZE) in
  let* c := while fuel (scan_body start count chunk xfer) (start, []) in
  match c with
  | Next (_, records) | Brk (_, records) => ret records
  | Rtn r => match r with end
  end.

Definition program_page (page : Z) (payload : bytes) (xfer : NandXfer) : MS NandRecord :=
  let* i := geometry in
  if negb (len payload =? stride i) then raise ValueError else
  let* staged := on_client (write_memory fuel (dma_buf i) payload true) in
  if negb staged then raise NandError else
  let* args := lift (let! p := pack_I [page] in let! x := xfer_pack xfer in let! z := pack_I [0] in Ok (p ++ x ++ z)) in
  let* raw := nand_call NAND_OP_PROGRAM_PAGE args 10000000 in
  lift (record_unpack (slice raw 0 REC_SIZE)).

Definition erase_block (page : Z) : MS NandRecord :=
  let* a := lift (pack_I [page]) in
  let* raw := nand_call NAND_OP_ERASE_BLOCK a 10000000 in
  lift (record_unpack (slice raw 0 REC_SIZE)).

End Study.

(** ** FMC_CFG *)

Lemma ecc_int_range e : 0 <= ecc_int e < 8.
Proof. destruct e; cbn; lia. Qed.

Lemma EccType_of_int e : EccType_of (ecc_int e) = Ok e.
Proof. by destruct e. Qed.

(** The ten bits below bit 10, one goal each. *)
Ltac bits10 :=
  let i := fresh "i" in let Hi := fresh "Hi" in let Hc := fresh "Hc" in
  intros i Hi;
  assert (i = 0 \/ i = 1 \/ i = 2 \/ i = 3 \/ i = 4 \/ i = 5 \/ i = 6 \/ i = 7 \/ i = 8 \/ i = 9) as Hc by lia;
  clear Hi; repeat destruct Hc as [-> | Hc]; try subst i.

(** The bits of a register value that [compose_fmc_cfg] decides: the mode bit
    0 and the fields in bits 1 to 9. *)
Lemma compose_fmc_cfg_testbit live e i :
  0 <= i ->
  Z.testbit (compose_fmc_cfg live e) i =
    if i <? 3 then i <? 2 else if i <? 5 then false else
    if i <? 8 then Z.testbit (ecc_int e) (i - 5) else if i <? 10 then false else Z.testbit live i.
Proof.
  intros Hi. unfold compose_fmc_cfg.
  change (Z.lor (Z.lor (Z.lor _ _) _) FMC_CFG_BLOCK_SIZE_MASK) with 1022.
  change FMC_CFG_OP_MODE_NORMAL with 1. change FMC_CFG_FLASH_SEL_SPI_NAND with 2. change FMC_CFG_ECC_TYPE_SHIFT with 5.
  rewrite !Z.lor_spec, Z.land_spec, Z.lnot_spec, Z.shiftl_spec by done.
  destruct (Z.ltb_spec i 10) as [Hlt|Hge].
  - assert (Hr : 0 <= i < 10) by lia. clear Hi Hlt. revert i Hr.
    bits10; cbn -[Z.testbit]; rewrite ?andb_true_r, ?andb_false_r;
      destruct e; try destruct (Z.testbit live 0); reflexivity.
  - repeat (match goal with |- context [i <? ?n] => replace (i <? n) with false by (symmetry; apply Z.ltb_ge; lia) end).
    rewrite (Z.bits_above_log2 1022), (Z.bits_above_log2 1), (Z.bits_above_log2 2) by (cbn; lia).
    rewrite (Z.bits_above_log2 (ecc_int e)); [by rewrite !orb_false_r, andb_true_r| |].
    + apply ecc_int_range.
    + destruct e; cbn; lia.
Qed.

Lemma testbit_high n x i : 0 <= n -> 0 <= x < 2 ^ n -> n <= i -> Z.testbit x i = false.
Proof.
  intros Hn Hx Hi. destruct (Z.eq_dec x 0) as [->|]; [apply Z.bits_0|].
  apply Z.bits_above_log2; [lia|]. apply Z.log2_lt_pow2; [lia|].
  pose proof (Z.pow_le_mono_r 2 n i). lia.
Qed.

(** A field of a register, given its bits. *)
Lemma land_field n x m v :
  0 <= n -> 0 <= m < 2 ^ n -> 0 <= v < 2 ^ n ->
  (forall i, 0 <= i < n -> Z.testbit x i && Z.testbit m i = Z.testbit v i) -> Z.land x m = v.
Proof.
  intros Hn Hm Hv Hb. apply Z.bits_inj'. intros i Hi. rewrite Z.land_spec.
  destruct (Z.lt_ge_cases i n); [by apply Hb|].
  by rewrite (testbit_high n m), (testbit_high n v), andb_false_r by done.
Qed.

(** The value written to FMC_CFG selects SPI NAND with 2 KiB pages and 64-page
    blocks in normal mode, reads back as the ECC type it was composed for, and
    keeps every bit of the live register outside bits 0 to 9. *)
Theorem compose_fmc_cfg_spec live e :
  let cfg := compose_fmc_cfg live e in
  ecc_type_of cfg = Ok e /\
  Z.land cfg FMC_CFG_FLASH_SEL_MASK = FMC_CFG_FLASH_SEL_SPI_NAND /\
  Z.land cfg FMC_CFG_PAGE_SIZE_MASK = 0 /\ Z.land cfg FMC_CFG_BLOCK_SIZE_MASK = 0 /\
  Z.land cfg FMC_CFG_OP_MODE_NORMAL = FMC_CFG_OP_MODE_NORMAL /\
  Z.shiftr cfg 10 = Z.shiftr live 10.
Proof.
  intros cfg.
  assert (Hf : forall m v, 0 <= m < 2 ^ 10 -> 0 <= v < 2 ^ 10 ->
    (forall i, 0 <= i < 10 -> (if i <? 3 then i <? 2 else if i <? 5 then false else
      if i <? 8 then Z.testbit (ecc_int e) (i - 5) else false) && Z.testbit m i = Z.testbit v i) ->
    Z.land cfg m = v).
  { intros m v Hm Hv Hall. apply (land_field 10); [done..|]. intros i Hi. rewrite <- Hall by done.
    unfold cfg. rewrite compose_fmc_cfg_testbit by lia. by replace (i <? 10) with true by (symmetry; apply Z.ltb_lt; lia). }
  assert (Hecc : Z.land cfg FMC_CFG_ECC_TYPE_MASK = Z.shiftl (ecc_int e) 5)
    by (apply Hf; [done|destruct e; vm_compute; split; done|by bits10; destruct e]).
  unfold ecc_type_of. rewrite Hecc. rewrite Z.shiftr_shiftl_l, Z.shiftl_0_r by done.
  split; [apply EccType_of_int|].
  repeat (split; [apply Hf; [done|done|by bits10; destruct e]|]).
  apply Z.bits_inj'. intros i Hi. unfold cfg. rewrite !Z.shiftr_spec, compose_fmc_cfg_testbit by lia.
  repeat (match goal with |- context [i + 10 <? ?n] => replace (i + 10 <? n) with false by (symmetry; apply Z.ltb_ge; lia) end).
  done.
Qed.

(** ** The answer to a request *)

Section Answer.
Abbreviation mworld := (world MockTransport study).

(** The client inside the study, as the methods of [on_client] see it. *)
Definition inner (w : mworld) : world MockTransport agent := World (tr w) (s_client (obj w)) (log w).

(** The study's own fields. *)
Definition own (s : study) : option NandInfo * Z := (s_info s, last_status s).

(** Packets left over from an exchange the host gave up on: periodic READYs,
    data packets with the ACK that closes them, late answers to other
    requests.  [stale] says that data came last. *)
Fixpoint left_over (op : Z) (stale : bool) (ps : list (Z * bytes)) : bool :=
  match ps with
  | [] => true
  | (cmd, data) :: ps' =>
      if cmd =? RSP_READY then left_over op stale ps'
      else if cmd =? RSP_DATA then left_over op true ps'
      else if cmd =? RSP_ACK then stale && left_over op false ps'
      else negb ((cmd =? RSP_NAND) && (2 <=? len data) && (nth 0 data 0 =? op)) && left_over op false ps'
  end.

Definition np_wire (nps : list (bytes * (Z * bytes))) : bytes :=
  concat ((fun np => fst np ++ wire (snd np)) <$> nps).
Definition np_ok (np : bytes * (Z * bytes)) : Prop := noise (fst np) /\ packet_ok (snd np).

Lemma np_wire_length nps : (length nps <= length (np_wire nps))%nat.
Proof.
  unfold np_wire. induction nps as [|x l IH]; cbn; [lia|]. rewrite !length_app. unfold wire at 1.
  rewrite length_app. cbn. lia.
Qed.

(** One turn of the wait when a packet is there. *)
Lemma call_body_packet fuel op dl stale p rest (w : mworld) :
  m_closed (tr w) = false -> clock (tr w) <= dl -> consume (stream (inner w)) [] = (Some p, [], rest) ->
  (length (stream (inner w)) < fuel)%nat ->
  exists w', call_body fuel op dl stale w =
    (let (cmd, data) := p in
     Ok (if cmd =? RSP_READY then Next stale
         else if (cmd =? RSP_NAND) && (2 <=? len data) && (nth 0 data 0 =? op) then Rtn (cmd, data)
         else if cmd =? RSP_DATA then Next true
         else if (cmd =? RSP_ACK) && negb stale then Rtn (cmd, data) else Next false), w') /\
    stream (inner w') = rest /\ same_line (inner w) (inner w') /\ own (obj w') = own (obj w).
Proof.
  intros Hc Hdl Hcons Hf. destruct w as [m s lg]. unfold inner in *. cbn in *.
  destruct (recv_packet_some fuel (Z.max 100000 (dl - clock m)) (World m (s_client s) lg) p [] rest)
    as (w1 & Hw1 & Hs1 & Hl1); try done; [lia| |].
  { pose proof (stream_length (World m (s_client s) lg)). lia. }
  exists (World (tr w1) (set_client (obj w1) s) (log w1)).
  unfold call_body, bind, try_except, on_client. cbn.
  replace (dl <? clock m) with false by (symmetry; apply Z.ltb_ge; lia). cbn. rewrite Hw1.
  destruct p as [cmd data]. cbn. destruct w1 as [m1 a1 l1]. cbn in *.
  split; [by repeat case_match|]. done.
Qed.

Lemma same_line_trans_inner (w1 w2 w3 : mworld) :
  same_line (inner w1) (inner w2) -> same_line (inner w2) (inner w3) -> same_line (inner w1) (inner w3).
Proof. intros. by etrans. Qed.

(** What the wait does with a left-over packet. *)
Lemma left_over_cons op stale cmd data ps :
  left_over op stale ((cmd, data) :: ps) = true ->
  exists stale', left_over op stale' ps = true /\
    (if cmd =? RSP_READY then Next stale
     else if (cmd =? RSP_NAND) && (2 <=? len data) && (nth 0 data 0 =? op) then Rtn (cmd, data)
     else if cmd =? RSP_DATA then Next true
     else if (cmd =? RSP_ACK) && negb stale then Rtn (cmd, data) else Next false) = Next (R := Z * bytes) stale'.
Proof.
  cbn. destruct (cmd =? RSP_READY) eqn:E1; [by exists stale|].
  destruct (cmd =? RSP_DATA) eqn:E2.
  { exists true. split; [done|]. b2p. by subst. }
  destruct (cmd =? RSP_ACK) eqn:E3.
  { destruct stale; [|done]. exists false. split; [done|]. b2p. by subst. }
  intros [H1 H2]%andb_true_iff. exists false. split; [done|]. by apply negb_true_iff in H1 as ->.
Qed.

Lemma call_loop fuel op dl nps n p rest stale turns (w : mworld) :
  m_closed (tr w) = false -> clock (tr w) <= dl ->
  Forall np_ok nps -> left_over op stale (snd <$> nps) = true -> noise n -> packet_ok p ->
  fst p = RSP_NAND -> 2 <= len (snd p) -> nth 0 (snd p) 0 = op ->
  stream (inner w) = np_wire nps ++ n ++ wire p ++ rest ->
  (length (stream (inner w)) < fuel)%nat -> (length nps < turns)%nat ->
  exists w', while turns (call_body fuel op dl) stale w = (Ok (Rtn p), w') /\
    stream (inner w') = rest /\ same_line (inner w) (inner w') /\ own (obj w') = own (obj w).
Proof.
  intros Hc Hdl Hok Hlo Hn Hp Hcmd Hlen Hop Hs Hf Ht. revert stale Hlo turns Ht w Hc Hdl Hs Hf.
  induction Hok as [|[n1 [cmd data]] nps [Hn1 Hp1] Hok IH]; intros stale Hlo turns Ht w Hc Hdl Hs Hf;
    (destruct turns as [|turns]; [cbn in Ht; lia|]); cbn [while]; unfold bind.
  - destruct (call_body_packet fuel op dl stale p rest w) as (w' & -> & Hs' & Hl & Hi); try done.
    { rewrite Hs. cbn. by apply consume_noise_wire. }
    destruct p as [c d]. cbn in Hcmd, Hlen, Hop. subst c.
    rewrite (proj2 (Z.eqb_eq (nth 0 d 0) op)), (proj2 (Z.leb_le 2 (len d))) by done. cbn. eauto.
  - unfold np_wire in Hs. cbn in Hs. rewrite <- !app_assoc in Hs.
    destruct (call_body_packet fuel op dl stale (cmd, data) (np_wire nps ++ n ++ wire p ++ rest) w)
      as (w' & -> & Hs' & Hl & Hi); try done.
    { rewrite Hs. by apply consume_noise_wire. }
    cbn [fmap list_fmap snd] in Hlo. destruct (left_over_cons _ _ _ _ _ Hlo) as (stale' & Hlo' & ->).
    pose proof Hl as (Hcl & Hck & _ & _). cbn in Hcl, Hck.
    destruct (IH stale' Hlo' turns) with (w := w') as (w'' & Hw & Hs'' & Hl'' & Hi'').
    { cbn in Ht. lia. } { congruence. } { lia. } { done. }
    { rewrite Hs'. rewrite Hs in Hf. unfold np_wire. rewrite !length_app in *. lia. }
    exists w''. split; [exact Hw|]. split; [done|]. split; [by etrans|congruence].
Qed.

(** A CMD_NAND request writes its packet and returns the data of the
    agent's own answer, whatever is still arriving from exchanges the host
    gave up on (READYs, data packets with the ACK that ends them, answers to
    other requests, noise) in front of it: status and data are the answer's,
    the bytes after it stay for the next exchange, and the two refusals and an
    unknown status are errors that leave the recorded status alone. *)
Theorem nand_call_answer fuel op args tmo nps n status out rest (w : mworld) :
  m_closed (tr w) = false -> 0 <= tmo -> is_bytes args -> is_bytes (op :: status :: out) -> len out <= 1088 ->
  Forall np_ok nps -> left_over op false (snd <$> nps) = true -> noise n ->
  stream (inner w) = np_wire nps ++ n ++ wire (RSP_NAND, op :: status :: out) ++ rest ->
  (length (stream (inner w)) < fuel)%nat ->
  exists w', nand_call fuel op args tmo w =
      (if (status =? NAND_ST_OK) || (status =? NAND_ST_IO) then Ok out else Raise NandError, w') /\
    tx_log (tr w') = tx_log (tr w) ++ [wire (CMD_NAND, op :: args)] /\
    stream (inner w') = rest /\ clock (tr w') = clock (tr w) /\ s_info (obj w') = s_info (obj w) /\
    last_status (obj w') =
      if (status =? NAND_ST_OK) || (status =? NAND_ST_IO) then status else last_status (obj w).
Proof.
  intros Hc Ht Ha [Hop Hso]%Forall_cons Hl Hok Hlo Hn Hs Hf. unfold nand_call.
  unfold bind at 1. change (on_client clear_rx_buffers w) with
    (Ok tt, World (tr w) (set_client (set_portbuf [] (s_client (obj w))) (obj w)) (log w)).
  rewrite bool_decide_eq_true_2 by done. unfold bind at 1. cbn [negb lift app].
  destruct (send_packet_mock CMD_NAND (op :: args) (World (tr w) (set_portbuf [] (s_client (obj w))) (log w)))
    as (w1 & Hw1 & Htx & Hst & Hcl & Hck & Hobj); [done|by constructor|done|].
  cbn in Htx, Hck, Hobj.
  unfold bind at 1, on_client. cbn [tr obj log s_client set_client]. rewrite Hw1.
  set (w2 := World (tr w1) _ _). unfold bind at 1. change (monotonic w2) with (Ok (clock (tr w2)), w2).
  assert (Hs2 : stream (inner w2) = stream (inner w)).
  { unfold inner, w2. cbn. destruct w1. cbn in *. subst. exact Hst. }
  destruct (call_loop fuel op (clock (tr w2) + tmo) nps n (RSP_NAND, op :: status :: out) rest false fuel w2)
    as (w3 & Hw3 & Hs3 & (_ & Hck3 & Htx3 & _) & Hown).
  all: try done.
  { lia. } { split; [done|]. split; [by constructor|]. cbn. rewrite !len_cons. lia. } { cbn. rewrite !len_cons. pose proof (len_nonneg out). lia. }
  { by rewrite Hs2. } { by rewrite Hs2. }
  { pose proof (np_wire_length nps). rewrite Hs in Hf. rewrite !length_app in Hf. lia. }
  unfold bind at 1. rewrite Hw3. cbn in Hck3, Htx3. unfold own, w2 in Hown. cbn in Hown. injection Hown as Hi Hst3.
  replace (len (op :: status :: out) <? 2) with false
    by (symmetry; rewrite !len_cons; pose proof (len_nonneg out); apply Z.ltb_ge; lia).
  cbn -[Z.eqb]. rewrite !Z.eqb_refl. cbn -[Z.eqb]. unfold bind, lift. cbn -[Z.eqb].
  assert (Hend : tx_log (tr w3) = tx_log (tr w) ++ [wire (CMD_NAND, op :: args)] /\ clock (tr w3) = clock (tr w))
    by (split; congruence).
  destruct Hend as [Hend1 Hend2].
  change (index (op :: status :: out) 1) with (Ok status). cbv iota.
  destruct (status =? NAND_ST_BADARG) eqn:E1; [b2p; subst; by exists w3|].
  destruct (status =? NAND_ST_NOT_NAND) eqn:E2; [b2p; subst; by exists w3|].
  destruct ((status =? NAND_ST_OK) || (status =? NAND_ST_IO)); cbn; [|by exists w3].
  eexists. split; [done|]. by destruct w3.
Qed.

(** An idle READY and the tail of an abandoned read in front of the answer to
    a feature read. *)
Theorem nand_call_answer_witness :
  let nps := [([], (RSP_READY, [])); ([65; 0], (RSP_DATA, [1; 0; 9])); ([], (RSP_ACK, [0]))] in
  let answer := wire (RSP_NAND, [NAND_OP_FEATURE_GET; NAND_ST_OK; 0x10]) in
  let w := World (Mock (np_wire nps ++ answer ++ [7]) [] false true 0)
             (NandStudy_init (Agent [] [] true 0 0 0 0 115200)) [] in
  exists w', nand_call 90 NAND_OP_FEATURE_GET [0xB0] 5000000 w = (Ok [0x10], w') /\
    tx_log (tr w') = [wire (CMD_NAND, [NAND_OP_FEATURE_GET; 0xB0])] /\
    stream (inner w') = [7] /\ clock (tr w') = 0 /\ s_info (obj w') = None /\ last_status (obj w') = NAND_ST_OK.
Proof.
  intros nps answer w.
  refine (nand_call_answer 90 NAND_OP_FEATURE_GET [0xB0] 5000000 nps [] NAND_ST_OK [0x10] [7] w
    eq_refl _ _ _ _ _ eq_refl eq_refl _ _);
    [lia | | | | | vm_compute; reflexivity | vm_compute; lia];
  repeat constructor; cbn; vm_compute; (reflexivity || discriminate || lia).
Defined.

End Answer.
