(* ===== verification/Session.v ===== *)
(** * Recovery sessions

  Models [src/src/defib/protocol/registry.py] (the list of protocols and the
  choice of one for a chip), the rest of [profiles/loader.py] and
  [recovery/session.py]: [RecoverySession.run] power-cycles the device, runs
  the handshake of the chip's protocol and its upload, again if an early phase
  failed, and stops the boot at the U-Boot prompt.

  A protocol object is one of the four classes' objects, on which the methods
  of [BootProtocol] dispatch.  The power controller is the class [Power]: a
  power cycle changes the transport's state, as everything outside does.  Next
  to a running handshake it is started ([power_start]), its effects come with
  the transport calls the handshake makes, and its outcome is waited for
  ([power_outcome]).  The handshake's own message, which only appears in the
  text of an error, progress and log callbacks and elapsed times are left
  out. *)

From S2P Require Import Prelude Text Transport Events Profiles Frames HisiStandard HisiV500 HisiCv6xx Novatek.

(** ** Protocol classes *)

Inductive protocol_cls := C_HiSiliconStandard | C_HiSiliconV500 | C_HiSiliconCV6xx | C_Novatek.
#[export] Instance protocol_cls_eq_dec : EqDecision protocol_cls.
Proof. solve_decision. Defined.

Inductive protocol :=
  | P_HiSiliconStandard (h : hisi)
  | P_HiSiliconV500 (chip_id : option Z)
  | P_HiSiliconCV6xx (o : HiSiliconCV6xx)
  | P_Novatek (o : Novatek).

Definition cls_of (p : protocol) : protocol_cls :=
  match p with
  | P_HiSiliconStandard _ => C_HiSiliconStandard
  | P_HiSiliconV500 _ => C_HiSiliconV500
  | P_HiSiliconCV6xx _ => C_HiSiliconCV6xx
  | P_Novatek _ => C_Novatek
  end.

(** [cls()] *)
Definition construct (cls : protocol_cls) : protocol :=
  match cls with
  | C_HiSiliconStandard => P_HiSiliconStandard (Hisi None false)
  | C_HiSiliconV500 => P_HiSiliconV500 None
  | C_HiSiliconCV6xx => P_HiSiliconCV6xx (cv6xx_init DDR_TRAINING_WAIT DDR_TRAINING_TIMEOUT)
  | C_Novatek => P_Novatek Novatek_init
  end.

Definition cls_name (cls : protocol_cls) : string :=
  match cls with
  | C_HiSiliconStandard => "HiSilicon Standard"
  | C_HiSiliconV500 => "HiSilicon V500"
  | C_HiSiliconCV6xx => "HiSilicon CV6xx"
  | C_Novatek => "Novatek"
  end.

(** ** The registry *)

Record registry := Registry { reg_classes : list protocol_cls; entry_points_loaded : bool }.

Definition register (cls : protocol_cls) (l : list protocol_cls) : list protocol_cls :=
  if bool_decide (cls ∈ l) then l else l ++ [cls].

Section Registry.
(** The entry points of the installed package, in the order the metadata
    lists them: the class the module registers, or [None] when loading it
    raises.  [None] when there are no entry points to be had. *)
Variable entry_points : option (list (option protocol_cls)).
(** The profile files. *)
Variable dir : gmap string string.

Definition standard_matches (chip_name : string) : bool :=
  bool_decide (lower chip_name ∈ (lower <$> list_chips dir)).

Definition cls_matches (cls : protocol_cls) (chip_name : string) : bool :=
  match cls with
  | C_HiSiliconStandard => standard_matches chip_name
  | C_HiSiliconV500 => v500_matches chip_name
  | C_HiSiliconCV6xx => cv6xx_matches chip_name
  | C_Novatek => novatek_matches chip_name
  end.

Definition load_entry_points (r : registry) : registry :=
  if entry_points_loaded r then r else
  Registry (foldl (fun l ep => match ep with Some cls => register cls l | None => l end)
              (reg_classes r) (default [] entry_points)) true.

Definition find_protocol (chip_name : string) (r : registry) : res protocol_cls * registry :=
  let r := load_entry_points r in
  (of_opt ValueError (List.find (fun cls => cls_matches cls (base_chip chip_name)) (reg_classes r)), r).

Definition list_protocols (r : registry) : list protocol_cls * registry :=
  let r := load_entry_points r in (reg_classes r, r).

Definition list_all_chips : list string :=
  sorted (remove_dups (list_chips dir ++ V500_SOCS ++ CV6XX_SOCS ++ NOVATEK_SOCS)).

End Registry.

(** ** Sessions *)

Record RecoverySession := Session {
  ss_chip : string; ss_flash_type : string; ss_firmware_path : option string; ss_firmware_data : option bytes;
  ss_protocol_cls : protocol_cls; ss_power : bool; ss_poe_port : option string
}.

Class Power (T : Type) := {
  power_cycle : string -> T -> res unit * T;
  power_start : string -> T -> T;
  power_outcome : T -> res unit * T
}.

(** [RecoverySession(...)]; [has_power] says that a controller is given. *)
Definition session_init entry_points dir (chip : string) (path : option string) (data : option bytes)
    (has_power : bool) (poe_port : option string) (flash_type : string) (r : registry)
    : res RecoverySession * registry :=
  let (cls, r) := find_protocol entry_points dir (lower chip) r in
  ((let! cls := cls in Ok (Session (lower chip) flash_type path data cls has_power poe_port)), r).

Definition protocol_name (s : RecoverySession) : string := cls_name (ss_protocol_cls s).

Definition load_firmware (read_file : string -> res bytes) (s : RecoverySession) : res bytes :=
  match ss_firmware_data s, ss_firmware_path s with
  | Some d, _ => Ok d
  | None, Some path => read_file path
  | None, None => Raise ValueError
  end.

Definition BREAK_TIME : Z := 15000000.
Definition CTRL_C : bytes := [3].

(** The text of the last 256 characters shows a prompt. *)
Definition has_prompt (buf : bytes) : bool :=
  let tail := last_n 256 buf in
  contains (codes "OpenIPC #") tail || contains (codes "hisilicon #") tail || contains (10 :: codes "=> ") tail.

Section Run.
Context {T : Type} `{Transport T} `{Power T}.
Variable fuel : nat.
(** [load_profile], [open(path).read()], the tar reader, [str(e)] and the
    clock of the board id query. *)
Variable load_prof : string -> res SoCProfile.
Variable read_file : string -> res bytes.
Variable tar_members : bytes -> string + list (bytes * (string + bytes)).
Variable str_exn : exn -> string.
Variable unix_time : Z.
Abbreviation MP := (M T protocol).

(** A method of an object of the class with constructor [inj]. *)
Definition on {X A} (inj : X -> protocol) (x : X) (m : M T X A) : MP A := fun w =>
  let (r, w') := m (World (tr w) x (log w)) in (r, World (tr w') (inj (obj w')) (log w')).

(** [protocol.handshake(transport)] *)
Definition p_handshake : MP HandshakeResult :=
  let* p := get_obj in
  match p with
  | P_HiSiliconStandard h => on (fun _ => P_HiSiliconStandard h) tt (handshake fuel (h_continuous_ack h))
  | P_HiSiliconV500 o => on P_HiSiliconV500 o (v500_handshake fuel)
  | P_HiSiliconCV6xx o => on P_HiSiliconCV6xx o (cv6xx_handshake fuel)
  | P_Novatek o => on P_Novatek o (nvt_handshake fuel)
  end.

(** [protocol.send_firmware(transport, firmware)], with the SPL override for
    the standard protocol. *)
Definition p_send_firmware (firmware : bytes) (spl_override : option bytes) : MP RecoveryResult :=
  let* p := get_obj in
  match p with
  | P_HiSiliconStandard h =>
      on (fun _ => P_HiSiliconStandard h) tt (send_firmware fuel (h_profile h) firmware spl_override)
  | P_HiSiliconV500 o => on P_HiSiliconV500 o (v500_send_firmware fuel firmware)
  | P_HiSiliconCV6xx o => on P_HiSiliconCV6xx o (cv6xx_send_firmware fuel unix_time firmware None)
  | P_Novatek o => on P_Novatek o (nvt_send_firmware tar_members str_exn fuel firmware)
  end.

Definition do_power_cycle (port : string) : MP unit := fun w =>
  let (r, t) := power_cycle port (tr w) in (r, World t (obj w) (log w)).

(** The handshake as a task, with the power cycle awaited next to it.  A power
    cycle that raises cancels the task: a transport of which the cycle begun
    with [power_start] fails raises [CancelledError] in every call the task
    makes from then on, which no [except Exception] of the handshake catches,
    and whatever the task has come to is dropped. *)
Definition handshake_alongside (port : string) : MP (exn + HandshakeResult) := fun w =>
  let (r, w1) := p_handshake (World (power_start port (tr w)) (obj w) (log w)) in
  let (p, t) := power_outcome (tr w1) in
  let w2 := World t (obj w1) (log w1) in
  match p with
  | Raise e => (Ok (inl e), w2)
  | Diverge => (Diverge, w2)
  | Ok _ => ((let! h := r in Ok (inr h)), w2)
  end.

Definition power_failed (e : exn) : RecoveryResult := failed [] ("Power cycle failed: " +:+ exn_text str_exn e).

(** The handshake of one attempt; [inl] is the [return] of a failed power
    cycle. *)
Definition attempt_handshake (s : RecoverySession) (frame_blast : bool) : MP (RecoveryResult + HandshakeResult) :=
  match ss_power s, ss_poe_port s with
  | true, Some port =>
      if frame_blast then
        let* e := try_except (let* _ := do_power_cycle port in ret None) is_Exception (fun e => ret (Some e)) in
        match e with
        | Some e => ret (inl (power_failed e))
        | None =>
            let* _ := flush_input in
            let* h := p_handshake in
            ret (inr h)
        end
      else
        let* _ := flush_input in
        let* eh := handshake_alongside port in
        ret (match eh with inl e => inl (power_failed e) | inr h => inr h end)
  | _, _ =>
      if frame_blast then ret (inr handshake_ok) else
      let* h := p_handshake in
      ret (inr h)
  end.

(** One turn of the attempt loop: [Brk (Some r)] leaves it with the result of
    the upload, [Rtn] returns from [run]. *)
Definition attempt_body (s : RecoverySession) (frame_blast : bool) (attempts : Z) (firmware : bytes)
    (spl_override : option bytes) (attempt : Z) (st : option RecoveryResult)
    : MP (ctl (option RecoveryResult) RecoveryResult) :=
  let* h := attempt_handshake s frame_blast in
  match h with
  | inl r => ret (Rtn r)
  | inr h =>
      if negb (hs_success h) then ret (Next st) else
      let* r := p_send_firmware firmware spl_override in
      if r_success r then ret (Brk (Some r)) else
      let is_early := negb (bool_decide (DDR_INIT ∈ stages_completed r)) in
      if is_early && retryable r && (attempt <? attempts) then ret (Next st) else ret (Brk (Some r))
  end.

(** One turn of the wait for U-Boot; the state is [buf]. *)
Definition break_body (start : Z) (buf : bytes) : MP (ctl bytes Empty_set) :=
  let* now := monotonic in
  if negb (now - start <? BREAK_TIME) then ret (Brk buf) else
  let* _ := write CTRL_C in
  let* data := try_except (let* d := read 256 (Some 200000) in ret (Some d)) is_Exception (fun _ => ret None) in
  match data with
  | None => ret (Next buf)
  | Some d =>
      let buf := buf ++ d in
      if contains (codes "autoboot") (lower_codes buf) then
        try_except
          (let* _ := foreach (S := unit) (R := Empty_set) (range 20) (fun _ _ =>
              let* _ := write CTRL_C in let* _ := sleep 100000 in ret (Next tt)) tt in
           ret (Brk buf))
          is_Exception (fun _ => ret (Next buf))
      else if has_prompt buf then ret (Brk buf) else ret (Next buf)
  end.

(** [post_burn_buffer] *)
Definition break_boot : MP bytes :=
  let* start := monotonic in
  let* c := while fuel (break_body start) [] in
  match c with
  | Next buf | Brk buf => ret buf
  | Rtn r => match r with end
  end.

(** [run]: the result and its [post_burn_buffer]. *)
Definition run (s : RecoverySession) (send_break : bool) (max_handshake_attempts : Z)
    : MP (RecoveryResult * bytes) :=
  let* _ := put_obj (construct (ss_protocol_cls s)) in
  let* spl_override :=
    match ss_protocol_cls s with
    | C_Novatek =>
        let* _ := put_obj (P_Novatek (set_target (ss_chip s) (ss_flash_type s) Novatek_init)) in ret None
    | C_HiSiliconStandard =>
        let* profile := lift (load_prof (ss_chip s)) in
        let* _ := put_obj (P_HiSiliconStandard (Hisi (Some profile) (ss_power s))) in
        ret (spl_data profile)
    | _ => ret None
    end in
  let* p := get_obj in
  let frame_blast := match p with P_HiSiliconStandard h => uses_frame_blast_handshake h | _ => false end in
  let can_retry := ss_power s && match ss_poe_port s with Some _ => true | None => false end in
  let attempts := if can_retry then max_handshake_attempts else 1 in
  let* firmware := lift (load_firmware read_file s) in
  let* c := foreach (map (Z.add 1) (range attempts))
              (attempt_body s frame_blast attempts firmware spl_override) None in
  match c with
  | Rtn r => ret (r, [])
  | Brk (Some r) =>
      let* buf := if send_break && r_success r then break_boot else ret [] in
      ret (r, buf)
  | _ => ret (failed [] "Handshake failed", [])
  end.

End Run.

(** ** What the session's object keeps *)

Section Keep.
Context {T : Type} `{Transport T}.
Variable fuel : nat.

Definition nvt_target (chip flash_type : string) (o : Novatek) : Prop := nv_chip o = chip /\ nv_flash_type o = flash_type.

Lemma nvt_command_keeps c f op addr size data reply tmo :
  keeps (T := T) (nvt_target c f) (command fuel op addr size data reply tmo).
Proof. unfold command, command_body. keeps_go. Qed.
Hint Resolve nvt_command_keeps : keeps.

Lemma nvt_handshake_keeps c f : keeps (T := T) (nvt_target c f) (nvt_handshake fuel).
Proof. unfold nvt_handshake, nvt_handshake_body. keeps_go. Qed.

Lemma nvt_send_keeps c f tar str_exn firmware : keeps (T := T) (nvt_target c f) (nvt_send_firmware tar str_exn fuel firmware).
Proof. unfold nvt_send_firmware, stage_of, send_loader, send_pack. keeps_go. Qed.

Lemma std_handshake_keeps (P : unit -> Prop) cont : keeps (T := T) P (handshake fuel cont).
Proof. unfold handshake, handshake_body, handshake_byte. keeps_go. Qed.

Lemma v500_handshake_keeps : keeps (T := T) (fun _ => True) (v500_handshake fuel).
Proof. unfold v500_handshake, v500_handshake_body, v500_poll. keeps_go. Qed.

Lemma cv6xx_handshake_keeps : keeps (T := T) (fun _ => True) (cv6xx_handshake fuel).
Proof. unfold cv6xx_handshake, cv6xx_handshake_body, poll_chunk. keeps_go. Qed.

End Keep.

(** ** The upload of each protocol *)

Section Upload.
Context {T : Type} `{Transport T} `{Power T}.
Variable fuel : nat.
Variable load_prof : string -> res SoCProfile.
Variable read_file : string -> res bytes.
Variable tar_members : bytes -> string + list (bytes * (string + bytes)).
Variable str_exn : exn -> string.
Variable unix_time : Z.

(** What the log of a successful upload shows, by protocol. *)
Definition delivered (p : protocol) (firmware : bytes) (ov : option bytes) (l : list event) : Prop :=
  match p with
  | P_HiSiliconStandard h => exists pr, h_profile h = Some pr /\ std_uploaded pr firmware ov l
  | P_HiSiliconV500 _ => v500_uploaded firmware l
  | P_HiSiliconCV6xx _ => exists parts l0 l5 text, parse_cv6xx_boot firmware = Ok parts /\ l = l0 ++ l5 /\
      table_sent unix_time parts l0 text /\ contains SPL_TABLE_REJECTED text = false /\
      area_sent (uboot_data parts) UBOOT_LOAD_ADDR l5
  | P_Novatek o => exists loader pack tmp buffer status first rx',
      load_recovery_set tar_members firmware (nv_chip o) (nv_flash_type o) "wrloader.bin" = Ok (loader, pack) /\
      unpack_le 4 buffer 0 = Ok tmp /\ (exists st, unpack_le 4 status 0 = Ok st /\ signed32 st = 0) /\
      session (nv_rx o) (first ++ pack_session tmp buffer status pack) l rx'
  end.

(** The object [run] sets up for a session: the class, the profile or the
    target folder; [ov] is the SPL override. *)
Definition target (s : RecoverySession) (ov : option bytes) (p : protocol) : Prop :=
  cls_of p = ss_protocol_cls s /\
  match p with
  | P_HiSiliconStandard h => exists pr, load_prof (ss_chip s) = Ok pr /\ ov = spl_data pr /\ h = Hisi (Some pr) (ss_power s)
  | P_Novatek o => ov = None /\ nvt_target (base_chip (ss_chip s)) (ss_flash_type s) o
  | _ => ov = None
  end.

Lemma does_on {X A} (inj : X -> protocol) x (m : M T X A) o (Q : res A -> list event -> X -> Prop) :
  does m x Q -> does (on inj x m) o (fun r l o' => exists x', o' = inj x' /\ Q r l x').
Proof.
  intros Hm w <-. unfold on. destruct (Hm (World (tr w) x (log w)) eq_refl) as (l & Hl & HQ).
  destruct (m _) as [r w']. exists l. cbn in *. eauto.
Qed.

Lemma p_handshake_keeps s ov : keeps (target s ov) (p_handshake (T := T) fuel).
Proof.
  intros p Hp. unfold p_handshake. does_step. does_step.
  destruct p as [h|o|o|o]; destruct Hp as [Hc Hp].
  - eapply does_weaken; [apply does_on, (std_handshake_keeps fuel (fun _ => True)); done|].
    by intros r l o' (x' & -> & _).
  - eapply does_weaken; [apply does_on, v500_handshake_keeps; done|]. by intros r l o' (x' & -> & _).
  - eapply does_weaken; [apply does_on, cv6xx_handshake_keeps; done|]. by intros r l o' (x' & -> & _).
  - destruct Hp as [Hov Ht]. eapply does_weaken; [apply does_on, nvt_handshake_keeps, Ht|].
    by intros r l o' (x' & -> & Hx).
Qed.

Lemma cv6xx_send_delivered firmware o :
  does (T := T) (cv6xx_send_firmware fuel unix_time firmware None) o (fun r l _ =>
    forall r', r = Ok r' -> r_success r' = true -> delivered (P_HiSiliconCV6xx o) firmware None l).
Proof.
  destruct (parse_cv6xx_boot firmware) as [parts|e|] eqn:Hp.
  - eapply does_weaken; [apply does_emits, (cv6xx_send_emits fuel unix_time firmware parts None Hp)|].
    intros r l o' HQ r' Hr Hs. destruct (HQ r' Hr) as [Hsucc _].
    destruct (Hsucc Hs) as (_ & l0 & l5 & text & Hl & Ht & Hrej & _ & Ha). by exists parts, l0, l5, text.
  - unfold cv6xx_send_firmware. rewrite Hp. destruct e; does_step; by intros r' [= <-].
  - unfold cv6xx_send_firmware. rewrite Hp. by does_step.
Qed.

Lemma p_send_does s ov firmware p :
  target s ov p ->
  does (T := T) (p_send_firmware fuel tar_members str_exn unix_time firmware ov) p (fun r l p' =>
    target s ov p' /\ forall r', r = Ok r' -> r_success r' = true -> delivered p firmware ov l).
Proof.
  intros [Hc Hp]. unfold p_send_firmware. does_step. does_step. destruct p as [h|o|o|o].
  - eapply does_weaken; [apply does_on, does_emits, send_firmware_emits|].
    intros r l p' (x' & -> & HQ). split; [done|]. intros r' Hr Hs. by destruct (HQ r' Hr Hs) as (_ & pr & Hpr & Hu); exists pr.
  - eapply does_weaken; [apply does_on, does_emits, v500_send_emits|].
    intros r l p' (x' & -> & HQ). split; [done|]. intros r' Hr Hs. by destruct (HQ r' Hr Hs).
  - eapply does_weaken; [apply does_on, cv6xx_send_delivered|].
    intros r l p' (x' & -> & HQ). split; [done|]. exact HQ.
  - destruct Hp as [Hov Ht].
    eapply does_weaken; [apply does_on, does_both; [apply nvt_send_keeps, Ht|apply nvt_send_does]|].
    intros r l p' (x' & -> & Hx & HQ). split; [done|]. intros r' Hr Hs.
    destruct (HQ r' Hr Hs) as (loader & pack & tmp & buffer & status & first & H1 & H2 & H3 & _ & H5).
    by exists loader, pack, tmp, buffer, status, first, (nv_rx x').
Qed.

Lemma attempt_handshake_keeps s fb ov : keeps (target s ov) (attempt_handshake (T := T) fuel str_exn s fb).
Proof.
  pose proof (p_handshake_keeps s ov) as Hh.
  assert (Hpc : forall port, keeps (target s ov) (do_power_cycle (T := T) port)).
  { intros port. apply keeps_same. intros w. unfold do_power_cycle. destruct (power_cycle _ _). exists [].
    by rewrite app_nil_r. }
  assert (Ha : forall port, keeps (target s ov) (handshake_alongside (T := T) fuel port)).
  { intros port o Ho w <-. unfold handshake_alongside.
    destruct (Hh _ Ho (World (power_start port (tr w)) (obj w) (log w)) eq_refl) as (l & Hl & Hk).
    destruct (p_handshake _ _) as [r w1]. destruct (power_outcome _) as [pr t]. exists l.
    destruct pr; cbn in *; by rewrite ?Hl. }
  unfold attempt_handshake. destruct (ss_power s), (ss_poe_port s), fb; keeps_go.
Qed.

(** A result that the attempt loop leaves with: a success has an upload at
    the end of the log. *)
Definition last_upload (s : RecoverySession) (ov : option bytes) (firmware : bytes) (r : RecoveryResult)
    (l : list event) : Prop :=
  r_success r = true -> exists p pre up, l = pre ++ up /\ target s ov p /\ delivered p firmware ov up.

Lemma attempt_body_does s fb n firmware ov attempt st p :
  target s ov p ->
  does (T := T) (attempt_body fuel tar_members str_exn unix_time s fb n firmware ov attempt st) p (fun r l p' =>
    target s ov p' /\
    match r with
    | Ok (Next st') => st' = st
    | Ok (Brk (Some r')) => last_upload s ov firmware r' l
    | Ok (Brk None) => False
    | Ok (Rtn r') => r_success r' = false
    | _ => True
    end).
Proof.
  intros Hp. unfold attempt_body. does_step.
  assert (Hpf : does (T := T) (attempt_handshake fuel str_exn s fb) p (fun r l p' => target s ov p' /\
    match r with Ok (inl r') => r_success r' = false | _ => True end)).
  { intros w Hw. destruct (attempt_handshake_keeps s fb ov p Hp w Hw) as (l & Hl & Hk). exists l. split; [done|].
    split; [done|]. clear. unfold attempt_handshake, bind, ret.
    destruct (ss_power s), (ss_poe_port s), fb; cbn; repeat case_match; simplify_eq/=; try done. }
  eapply does_weaken; [exact Hpf|]. intros [[r'|h]|e|] l p1 [Hp1 Hr]; try done; [by does_step|].
  destruct (hs_success h); cbn [negb]; [|by does_step].
  does_step. eapply does_weaken; [by apply p_send_does|]. intros [r|e|] l1 p2 [Hp2 Hd]; try done.
  destruct (r_success r) eqn:Es.
  - does_step. split; [done|]. intros _. exists p1, l, l1. rewrite app_nil_r. eauto.
  - destruct (_ && _); does_step; (split; [done|]); [done|]. intros Hs. congruence.
Qed.

Lemma attempts_does s fb n firmware ov xs p :
  target s ov p ->
  does (T := T) (foreach xs (attempt_body fuel tar_members str_exn unix_time s fb n firmware ov) None) p (fun r l p' =>
    target s ov p' /\
    match r with
    | Ok (Next st) => st = None
    | Ok (Brk (Some r')) => last_upload s ov firmware r' l
    | Ok (Brk None) => False
    | Ok (Rtn r') => r_success r' = false
    | _ => True
    end).
Proof.
  intros Hp. apply (does_foreach (fun _ st _ p' => st = None /\ target s ov p')); [done| |].
  - intros done x rest st l0 p0 _ [-> Hp0]. eapply does_weaken; [by apply attempt_body_does|].
    intros [[st|[r'|]|r']|e|] l1 p1 [Hp1 Hr]; try done. split; [done|].
    intros Hs. destruct (Hr Hs) as (q & pre & up & -> & Hq). exists q, (l0 ++ pre), up. by rewrite app_assoc.
  - by intros st l0 p0 [-> Hp0].
Qed.

End Upload.

(** ** Stopping the boot *)

Section Break.
Context {T : Type} `{Transport T}.
Variable fuel : nat.

(** Nothing but Ctrl-C was written, and [buf] is what was received. *)
Definition break_log (buf : bytes) (l : list event) : Prop := Forall (eq CTRL_C) (writes l) /\ reads l = buf.

Lemma break_log_app a b la lb : break_log a la -> break_log b lb -> break_log (a ++ b) (la ++ lb).
Proof. intros [Ha <-] [Hb <-]. split; [rewrite writes_app; by apply Forall_app|apply reads_app]. Qed.

Lemma break_log_write r : break_log [] [EvWrite CTRL_C r].
Proof. by repeat constructor. Qed.
Lemma break_log_read d : break_log d [EvRead (Ok d)].
Proof. split; [constructor|]. unfold reads. cbn. apply app_nil_r. Qed.

Lemma ctrl_c_burst_does o :
  does (T := T) (Ob := protocol) (foreach (S := unit) (R := Empty_set) (range 20) (fun _ _ =>
    let* _ := write CTRL_C in let* _ := sleep 100000 in ret (Next tt)) tt) o (fun _ l o' => o' = o /\ break_log [] l).
Proof.
  apply (does_foreach (fun _ _ l o' => o' = o /\ break_log [] l)); [done| |done].
  intros dn x rest [] l0 o0 _ [-> Hl]. repeat does_step; split; try done;
    apply (break_log_app [] [] l0); try done; try apply (break_log_app [] []); try apply break_log_write; done.
Qed.

Lemma break_read_does o :
  does (T := T) (Ob := protocol) (try_except (let* d := read 256 (Some 200000) in ret (Some d)) is_Exception (fun _ => ret None)) o
    (fun r l o' => o' = o /\ match r with Ok d => break_log (default [] d) l | _ => True end).
Proof.
  do 3 does_step; [does_step|destruct (is_Exception _); [does_step|done]|done]; (split; [done|]); [apply break_log_read|by split].
Qed.

Lemma break_body_does start buf l0 o :
  break_log buf l0 ->
  does (T := T) (break_body start buf) o (fun r l o' => o' = o /\
    match r with Ok (Next buf') | Ok (Brk buf') => break_log buf' (l0 ++ l) | _ => True end).
Proof.
  intros Hl. unfold break_body. does_step. does_step. does_step; [does_step; by rewrite app_nil_r|].
  does_step. does_step; [|done..].
  assert (H0 : break_log buf (l0 ++ [EvWrite CTRL_C (Ok tt)]))
    by (rewrite <- (app_nil_r buf); apply break_log_app; [done|apply break_log_write]).
  does_step. eapply does_weaken; [apply break_read_does|]. intros [[d|]|e|] l1 o1 [-> H1]; try done; cbn in H1.
  - assert (H2 : break_log (buf ++ d) ((l0 ++ [EvWrite CTRL_C (Ok tt)]) ++ l1)) by (by apply break_log_app).
    rewrite <- app_assoc in H2. cbn [app] in H2.
    destruct (contains _ _); [|destruct (has_prompt _); does_step; by rewrite app_nil_r].
    does_step. does_step. eapply does_weaken; [apply ctrl_c_burst_does|].
    assert (H3 : forall l2, break_log [] l2 -> break_log (buf ++ d) (l0 ++ EvWrite CTRL_C (Ok tt) :: l1 ++ l2)).
    { intros l2 Hl2. pose proof (break_log_app _ _ _ _ H2 Hl2) as H3. rewrite app_nil_r in H3.
      by rewrite <- app_assoc in H3. }
    intros [c|e|] l2 o2 [-> Hl2]; cbn; [|destruct (is_Exception e); [|done]|done]; does_step; rewrite app_nil_r; auto.
  - does_step. split; [done|]. rewrite app_nil_r. pose proof (break_log_app _ _ _ _ H0 H1) as H2.
    rewrite app_nil_r, <- app_assoc in H2. exact H2.
Qed.

Lemma break_boot_does o :
  does (T := T) (break_boot fuel) o (fun r l o' => o' = o /\ match r with Ok buf => break_log buf l | _ => True end).
Proof.
  unfold break_boot. do 3 does_step.
  eapply does_weaken; [apply (does_while (fun buf l o' => o' = o /\ break_log buf l)
    _ _ _ _ (fun r l o' => o' = o /\ match r with Ok (Next buf) | Ok (Brk buf) => break_log buf l | _ => True end))| ].
  - by split.
  - intros buf l0 o0 [-> Hl]. eapply does_weaken; [by apply break_body_does|]. by intros [[]|e|] l o'.
  - by intros buf l0 o0 [-> _].
  - intros [[buf|buf|[]]|e|] l o' [-> Hl]; try done; does_step; by rewrite app_nil_r.
Qed.

End Break.

(** ** Properties *)

Section Safe.
Context {T : Type} `{Transport T} `{Power T}.

Lemma setup_does load_prof (s : RecoverySession) (p : protocol) :
  does (T := T) (let* _ := put_obj (construct (ss_protocol_cls s)) in
    match ss_protocol_cls s with
    | C_Novatek =>
        let* _ := put_obj (P_Novatek (set_target (ss_chip s) (ss_flash_type s) Novatek_init)) in ret None
    | C_HiSiliconStandard =>
        let* profile := lift (load_prof (ss_chip s)) in
        let* _ := put_obj (P_HiSiliconStandard (Hisi (Some profile) (ss_power s))) in
        ret (spl_data profile)
    | _ => ret None
    end) p (fun r l p' => l = [] /\ forall ov, r = Ok ov -> target load_prof s ov p').
Proof.
  does_step. does_step. destruct (ss_protocol_cls s) eqn:Ec.
  - does_step. does_step. destruct (load_prof _) as [pr|e|] eqn:El; [|done..]. does_step. does_step. does_step.
    split; [done|]. intros ov [= <-]. split; [by rewrite Ec|]. by exists pr.
  - does_step. split; [done|]. intros ov [= <-]. split; [by rewrite Ec|]. done.
  - does_step. split; [done|]. intros ov [= <-]. split; [by rewrite Ec|]. done.
  - does_step. does_step. does_step. split; [done|]. intros ov [= <-]. split; [by rewrite Ec|]. done.
Qed.

(** C6. A recovery session over any transport, device and power controller:
    [run] reports success only if its log ends with a whole upload of the
    session's firmware by the chip's protocol (the standard one with the
    profile of the chip and the SPL the profile brings, Novatek's with the
    folder of the chip and the flash), each of whose frames the device
    acknowledged; after it, if asked to stop the boot, only Ctrl-C was
    written, and the buffer handed on for display is exactly what was received
    meanwhile. *)
Theorem session_safe fuel load_prof read_file tar_members str_exn unix_time s send_break n
    (w w' : world T protocol) r buf :
  run fuel load_prof read_file tar_members str_exn unix_time s send_break n w = (Ok (r, buf), w') ->
  r_success r = true ->
  exists firmware ov p pre up post,
    load_firmware read_file s = Ok firmware /\ target load_prof s ov p /\
    log w' = log w ++ pre ++ up ++ post /\ delivered tar_members unix_time p firmware ov up /\
    break_log buf post /\ (send_break = false -> post = []).
Proof.
  intros Hrun Hs.
  assert (Hd : does (T := T) (run fuel load_prof read_file tar_members str_exn unix_time s send_break n) (obj w)
    (fun r l _ => forall r' b, r = Ok (r', b) -> r_success r' = true -> exists firmware ov p pre up post,
      load_firmware read_file s = Ok firmware /\ target load_prof s ov p /\
      l = pre ++ up ++ post /\ delivered tar_members unix_time p firmware ov up /\
      break_log b post /\ (send_break = false -> post = []))).
  2: { destruct (Hd w eq_refl) as (l & Hl & HQ). rewrite Hrun in Hl, HQ.
       destruct (HQ r buf eq_refl Hs) as (fw & ov & p & pre & up & post & H1 & H2 & -> & H4).
       exists fw, ov, p, pre, up, post. split; [done|]. split; [done|]. split; [exact Hl|exact H4]. }
  clear Hrun Hs. unfold run. apply does_bind_assoc, does_bind.
  eapply does_weaken; [apply setup_does|]. intros [ov|e|] l0 p0 [-> Hp0]; try done. specialize (Hp0 ov eq_refl).
  do 4 does_step. destruct (load_firmware _ _) as [firmware|e|] eqn:Ef; [|done..].
  does_step. eapply does_weaken; [apply attempts_does, Hp0|].
  intros [[st|[r1|]|r1]|e|] l1 p1 [Hp1 Hr1]; try done.
  - does_step. by intros r' b [= <- <-].
  - does_step.
    destruct (send_break && r_success r1) eqn:Eb.
    + eapply does_weaken; [apply break_boot_does|]. intros [b1|e|] l2 p2 [-> Hl2]; try done.
      does_step. intros r' b [= <- <-] Hs. destruct (Hr1 Hs) as (q & pre & up & -> & Hq & Hd).
      exists firmware, ov, q, pre, up, l2. rewrite app_nil_r, <- app_assoc. split_and!; try done.
      intros ->. done.
    + does_step. does_step. intros r' b [= <- <-] Hs. destruct (Hr1 Hs) as (q & pre & up & -> & Hq & Hd).
      exists firmware, ov, q, pre, up, []. cbn. rewrite !app_nil_r. by split_and!.
  - does_step. intros r' b [= <- <-] Hs. congruence.
Qed.

End Safe.

(** ** The choice of a protocol *)

Lemma lower_ascii_idem c : lower_ascii (lower_ascii c) = lower_ascii c.
Proof. destruct c as [[] [] [] [] [] [] [] []]; reflexivity. Qed.

Lemma lower_idem s : lower (lower s) = lower s.
Proof. unfold lower. induction s as [|c s IH]; cbn; [done|]. by rewrite lower_ascii_idem, IH. Qed.

Lemma split_once_first sep s a b : split_once sep s = Some (a, b) -> split_once sep a = None.
Proof.
  revert a b. induction s as [|c s IH]; intros a b; cbn; [done|].
  destruct (Ascii.eqb c sep) eqn:E; [by intros [= <- <-]|].
  destruct (split_once sep s) as [[a' b']|]; [|done]. intros [= <- <-]. cbn. rewrite E. by rewrite (IH a' b').
Qed.

Lemma split_once_lower sep s a b : split_once sep s = Some (a, b) -> lower s = s -> lower a = a.
Proof.
  unfold lower. revert a b. induction s as [|c s IH]; intros a b; cbn; [done|].
  destruct (Ascii.eqb c sep); [by intros [= <- <-]|].
  destruct (split_once sep s) as [[a' b']|]; [|done]. intros [= <- <-] [= Hc Hs]. cbn. by rewrite Hc, (IH a' b').
Qed.

Lemma base_chip_lower c : lower (base_chip c) = base_chip c.
Proof.
  unfold base_chip. destruct (split_once _ (lower c)) as [[a b]|] eqn:E; [|apply lower_idem].
  eapply split_once_lower; [done|apply lower_idem].
Qed.

Lemma base_chip_idem c : base_chip (base_chip c) = base_chip c.
Proof.
  unfold base_chip at 1. rewrite base_chip_lower. unfold base_chip.
  destruct (split_once _ (lower c)) as [[a b]|] eqn:E; [by rewrite (split_once_first _ _ _ _ E)|by rewrite E].
Qed.

(** The names a class answers for. *)
Definition cls_names (dir : gmap string string) (cls : protocol_cls) : list string :=
  match cls with
  | C_HiSiliconStandard => lower <$> list_chips dir
  | C_HiSiliconV500 => V500_SOCS
  | C_HiSiliconCV6xx => CV6XX_SOCS
  | C_Novatek => NOVATEK_SOCS
  end.

Lemma cls_matches_base dir cls chip :
  cls_matches dir cls (base_chip chip) = bool_decide (base_chip chip ∈ cls_names dir cls).
Proof.
  destruct cls; cbn; unfold standard_matches, v500_matches, cv6xx_matches, novatek_matches;
    by rewrite ?base_chip_lower, ?base_chip_idem.
Qed.

(** Chips with a profile file are not in the lists of the other protocols. *)
Definition profiles_disjoint (dir : gmap string string) : Prop :=
  Forall (fun c => c ∉ V500_SOCS ++ CV6XX_SOCS ++ NOVATEK_SOCS) (lower <$> list_chips dir).

Lemma cls_names_disjoint dir c1 c2 x :
  profiles_disjoint dir -> x ∈ cls_names dir c1 -> x ∈ cls_names dir c2 -> c1 = c2.
Proof.
  intros Hd H1 H2.
  assert (Hl : forall c, c <> C_HiSiliconStandard -> x ∈ cls_names dir c -> x ∉ (lower <$> list_chips dir)).
  { intros c Hc Hx Hin. apply (proj1 (Forall_forall _ _) Hd _ Hin). rewrite !elem_of_app. destruct c; auto; done. }
  assert (Hs : forall a b, a <> b -> a <> C_HiSiliconStandard -> b <> C_HiSiliconStandard ->
    Forall (fun y => y ∉ cls_names dir b) (cls_names dir a)).
  { intros a b Hab Ha Hb. apply (bool_decide_eq_true_1 _). by destruct a, b. }
  destruct (decide (c1 = c2)) as [|Hne]; [done|]. exfalso.
  destruct (decide (c1 = C_HiSiliconStandard)) as [->|H1'].
  { apply (Hl c2); [congruence|done|exact H1]. }
  destruct (decide (c2 = C_HiSiliconStandard)) as [->|H2']; [by apply (Hl c1)|].
  pose proof (Hs c1 c2 Hne H1' H2') as Hf. rewrite Forall_forall in Hf. by apply (Hf x).
Qed.

Lemma register_in cls l c : c ∈ register cls l <-> c = cls \/ c ∈ l.
Proof.
  unfold register. destruct (bool_decide (cls ∈ l)) eqn:E; [apply bool_decide_eq_true_1 in E|].
  - split; [by right|]. by intros [->|?].
  - rewrite elem_of_app, list_elem_of_singleton. tauto.
Qed.

(** [find_protocol] does not depend on the order in which the protocols
    were registered (which follows the imports made so far and the order of
    the package's entry points): once all of them are registered, a chip, with
    or without a board variant after a colon, gets a protocol exactly if that
    protocol answers for its base name, and ValueError exactly if none does. *)
Theorem find_protocol_spec entry_points dir r chip :
  profiles_disjoint dir ->
  (forall cls, cls ∈ reg_classes (load_entry_points entry_points r)) ->
  (forall cls, fst (find_protocol entry_points dir chip r) = Ok cls <-> base_chip chip ∈ cls_names dir cls) /\
  (fst (find_protocol entry_points dir chip r) = Raise ValueError <-> forall cls, base_chip chip ∉ cls_names dir cls) /\
  fst (find_protocol entry_points dir (base_chip chip) r) = fst (find_protocol entry_points dir chip r).
Proof.
  intros Hd Hall. split_and!; [| |unfold find_protocol; by rewrite base_chip_idem].
  - intros cls. unfold find_protocol. cbn.
    destruct (List.find _ _) as [c|] eqn:E; cbn.
    + apply List.find_some in E as [_ Hc]. rewrite cls_matches_base in Hc. apply bool_decide_eq_true_1 in Hc.
      split; [by intros [= <-]|]. intros Hx. f_equal. by eapply cls_names_disjoint.
    + split; [done|]. intros Hx. specialize (Hall cls). apply list_elem_of_In in Hall.
      pose proof (List.find_none _ _ E cls Hall) as Hc. cbn in Hc. rewrite cls_matches_base in Hc.
      by apply bool_decide_eq_false_1 in Hc.
  - unfold find_protocol. cbn. destruct (List.find _ _) as [c|] eqn:E; cbn.
    + apply List.find_some in E as [_ Hc]. rewrite cls_matches_base in Hc. apply bool_decide_eq_true_1 in Hc.
      split; [done|]. intros Hx. by destruct (Hx c).
    + split; [|done]. intros _ cls Hx. specialize (Hall cls). apply list_elem_of_In in Hall.
      pose proof (List.find_none _ _ E cls Hall) as Hc. cbn in Hc. rewrite cls_matches_base in Hc.
      by apply bool_decide_eq_false_1 in Hc.
Qed.

Lemma load_entry_points_all entry_points r cls :
  entry_points_loaded r = false -> Some cls ∈ default [] entry_points ->
  cls ∈ reg_classes (load_entry_points entry_points r).
Proof.
  intros Hl Hin. unfold load_entry_points. rewrite Hl. cbn. revert Hin. generalize (default [] entry_points) as eps.
  assert (Hmono : forall eps l, cls ∈ l ->
    cls ∈ foldl (fun l ep => match ep with Some c => register c l | None => l end) l eps).
  { induction eps as [|[c|] eps IH]; intros l Hc; cbn; [done|apply IH, register_in; by right|by apply IH]. }
  intros eps. generalize (reg_classes r). induction eps as [|ep eps IH]; intros l; [by intros ?%not_elem_of_nil|].
  cbn. intros [<-|Hin]%elem_of_cons; [|by apply IH]. apply Hmono, register_in. by left.
Qed.

Definition shipped_entry_points : option (list (option protocol_cls)) :=
  Some (Some <$> [C_HiSiliconStandard; C_HiSiliconV500; C_HiSiliconCV6xx; C_Novatek]).
Definition example_dir : gmap string string :=
  {["hi3516cv300.json" := "{}"; "rv1106.json" := "{}"; "readme.txt" := ""]}%string.

Theorem find_protocol_spec_witness :
  fst (find_protocol shipped_entry_points example_dir "Hi3516CV610:x" (Registry [C_Novatek] false)) = Ok C_HiSiliconCV6xx /\
  fst (find_protocol shipped_entry_points example_dir "hi3516cv300" (Registry [C_Novatek] false)) = Ok C_HiSiliconStandard.
Proof.
  assert (Hd : profiles_disjoint example_dir) by (apply (bool_decide_eq_true_1 _); vm_compute; reflexivity).
  assert (Hall : forall cls, cls ∈ reg_classes (load_entry_points shipped_entry_points (Registry [C_Novatek] false))).
  { intros cls. apply load_entry_points_all; [done|]. apply (bool_decide_eq_true_1 _). by destruct cls. }
  split.
  - refine (proj2 (proj1 (find_protocol_spec shipped_entry_points example_dir (Registry [C_Novatek] false)
      "Hi3516CV610:x" Hd Hall) C_HiSiliconCV6xx) _).
    apply (bool_decide_eq_true_1 _). vm_compute. reflexivity.
  - refine (proj2 (proj1 (find_protocol_spec shipped_entry_points example_dir (Registry [C_Novatek] false)
      "hi3516cv300" Hd Hall) C_HiSiliconStandard) _).
    apply (bool_decide_eq_true_1 _). vm_compute. reflexivity.
Defined.

(** ** Sessions that succeed *)

(** A manual session for a chip whose profile starts with a prestep runs
    through against a device that acknowledges every frame: the handshake is
    left to the upload, the session succeeds in its only attempt, and the
    device has received exactly the frames of the DDR stage, of the SPL (the
    board's own where the profile brings one) and of the firmware. *)
Theorem session_delivers `{Power AckDevice} fuel load_prof read_file tar_members str_exn unix_time s n p firmware
    (rp : ready_profile p firmware (spl_data p)) (w : world AckDevice protocol) :
  (0 < fuel)%nat -> ad_pending (tr w) = false ->
  ss_protocol_cls s = C_HiSiliconStandard -> ss_power s = false -> load_prof (ss_chip s) = Ok p ->
  prestep0 p <> None -> load_firmware read_file s = Ok firmware ->
  exists w', run fuel load_prof read_file tar_members str_exn unix_time s false n w
      = (Ok (succeeded [DDR_INIT; SPL; UBOOT; COMPLETE], []), w') /\
    ad_frames (tr w') = ad_frames (tr w) ++ ddr_frames rp ++
      upload_frames (rp_hs _ _ _ rp) (zero_long_ff_runs (rp_data _ _ _ rp) 12) ++
      blast_frames rp ++ upload_frames (rp_hu _ _ _ rp) (zero_long_ff_runs firmware 12).
Proof.
  intros Hf Hw Hc Hp Hl Hpre Hfw.
  destruct (send_firmware_accepts (Ob := unit) fuel p firmware (spl_data p) rp Hf
    (World (tr w) tt (log w)) Hw) as (w1 & Hr & _ & Ho).
  exists (World (tr w1) (P_HiSiliconStandard (Hisi (Some p) false)) (log w1)).
  unfold run. rewrite Hc, Hp, Hl, Hfw. unfold bind, put_obj, lift, get_obj. cbn [andb].
  change (map (Z.add 1) (range 1)) with [1]. cbn -[send_firmware].
  destruct (prestep0 p); [|done]. unfold attempt_body, attempt_handshake, bind. rewrite Hp. cbn -[send_firmware].
  unfold p_send_firmware, bind, get_obj, on. cbn -[send_firmware]. rewrite Hr. cbn. done.
Qed.

(** ** Retries *)

(** The stage that tells early failures apart, DDR_INIT, is completed by
    the standard protocol only: whatever the device does, a failed upload of
    any other protocol counts as early, however far it came (a CV6xx upload
    that failed on U-Boot after DDR training too), so an automated session
    repeats it up to its attempts unless the result says it is final. *)
Theorem other_protocols_always_early {T} `{Transport T} fuel tar_members str_exn unix_time firmware ov
    (w w' : world T protocol) r :
  cls_of (obj w) <> C_HiSiliconStandard ->
  p_send_firmware fuel tar_members str_exn unix_time firmware ov w = (Ok r, w') ->
  DDR_INIT ∉ stages_completed r.
Proof.
  intros Hc. unfold p_send_firmware, bind, get_obj, on.
  assert (Hv : forall {X} (m : M T X RecoveryResult) x (inj : X -> protocol), yields m (fun r => DDR_INIT ∉ stages_completed r) ->
    (let (r, w1) := m (World (tr w) x (log w)) in (r, World (tr w1) (inj (obj w1)) (log w1))) = (Ok r, w') ->
    DDR_INIT ∉ stages_completed r).
  { intros X m x inj Hm. destruct (m _) as [r1 w1] eqn:E. intros [= -> _]. by eapply Hm. }
  destruct (obj w) as [h|o|o|o]; [done|..]; apply Hv; clear.
  - unfold v500_send_firmware. yields_go; by apply (bool_decide_eq_true_1 _).
  - unfold cv6xx_send_firmware. yields_go; by apply (bool_decide_eq_true_1 _).
  - unfold nvt_send_firmware, stage_of. yields_go; by apply (bool_decide_eq_true_1 _).
Qed.

(** A V500 device that stops answering during the boot image: the key and aux
    areas are through, and the failure still counts as early. *)
Abbreviation v500_lost := (p_send_firmware 100 (fun _ => inr []) (fun _ => ""%string) 0 v500_image None
  (World (Mock (brep 14 0xAA) [] false false 0) (P_HiSiliconV500 None) [])).

Theorem other_protocols_always_early_witness :
  fst v500_lost = Ok (failed [HEAD_AREA; AUX_AREA] "Failed to send boot image") /\
  DDR_INIT ∉ stages_completed (failed [HEAD_AREA; AUX_AREA] "Failed to send boot image").
Proof.
  assert (E : fst v500_lost = Ok (failed [HEAD_AREA; AUX_AREA] "Failed to send boot image")) by (vm_compute; reflexivity).
  split; [exact E|].
  refine (other_protocols_always_early 100 (fun _ => inr []) (fun _ => ""%string) 0 v500_image None
    (World (Mock (brep 14 0xAA) [] false false 0) (P_HiSiliconV500 None) []) (snd v500_lost) _ _ (pair_fst v500_lost _ E)).
  discriminate.
Defined.

Section Example.
(** A controller that does nothing. *)
Instance no_power : Power AckDevice := {| power_cycle _ d := (Ok tt, d); power_start _ d := d; power_outcome d := (Ok tt, d) |}.

Definition example_session : RecoverySession :=
  Session "hi3516av200" "nor" None (Some [7; 8; 9]) C_HiSiliconStandard false None.
Definition example_load (chip : string) : res SoCProfile := Ok example_profile.
Abbreviation session_run := (run 3 example_load (fun _ => Raise FileNotFoundError) (fun _ => inr []) (fun _ => ""%string) 0
  example_session false 2 (World (AckDev false [] 0) (construct C_Novatek) [])).

Theorem session_delivers_witness :
  exists w', session_run = (Ok (succeeded [DDR_INIT; SPL; UBOOT; COMPLETE], []), w') /\
    ad_frames (tr w') = [] ++ ddr_frames example_ready ++
      upload_frames (rp_hs _ _ _ example_ready) (zero_long_ff_runs (rp_data _ _ _ example_ready) 12) ++
      blast_frames example_ready ++ upload_frames (rp_hu _ _ _ example_ready) (zero_long_ff_runs [7; 8; 9] 12).
Proof.
  apply (session_delivers 3 example_load (fun _ => Raise FileNotFoundError) (fun _ => inr []) (fun _ => ""%string) 0
    example_session 2 example_profile [7; 8; 9] example_ready); try reflexivity; [lia|discriminate].
Defined.

Theorem session_safe_witness :
  exists firmware ov p pre up post,
    load_firmware (fun _ => Raise FileNotFoundError) example_session = Ok firmware /\
    target example_load example_session ov p /\
    log (snd session_run) = [] ++ pre ++ up ++ post /\ delivered (fun _ => inr []) 0 p firmware ov up /\
    break_log [] post /\ (false = false -> post = []).
Proof.
  refine (session_safe 3 example_load (fun _ => Raise FileNotFoundError) (fun _ => inr []) (fun _ => ""%string) 0
    example_session false 2 (World (AckDev false [] 0) (construct C_Novatek) []) (snd session_run)
    (succeeded [DDR_INIT; SPL; UBOOT; COMPLETE]) [] (pair_fst session_run _ _) eq_refl).
  vm_compute. reflexivity.
Defined.

End Example.
