(* ===== verification/Flashdump.v ===== *)
(** * Dumping the flash over the U-Boot console

  Models [src/src/defib/flashdump.py]: the commands sent to a U-Boot console
  and the collection of their answers, with or without a check of every echoed
  character; the parser of [md.b] output; the detection of flash size, RAM and
  [crc32]; the dump with its retries and resumption, and the check and repair
  of the whole image.

  Texts are lists of character codes.  The output file is the object the code
  runs on ([None] when it does not exist); [is_cancelled] is a function of the
  offset reached, which is different at each call.  Times are in microseconds.
  Progress, statistics and log messages are left out. *)

From stdpp Require Import pretty.
From Stdlib Require Import Ascii.
From S2P Require Import Prelude Text Regex Transport Crc Profiles HisiV500 UbootEnv Layout.

(** ** RAM addresses *)

Definition RAM_BASE : list (string * Z) := [
  ("hi3516cv100", 0x80000000); ("hi3516cv200", 0x80000000); ("hi3516av100", 0x80000000);
  ("hi3516av200", 0x80000000); ("hi3516cv300", 0x80000000); ("hi3516cv500", 0x80000000);
  ("hi3519v101", 0x80000000); ("hi3516a", 0x80000000); ("hi3516dv100", 0x80000000);
  ("hi3516dv300", 0x80000000); ("hi3518", 0x80000000); ("hi3518ev100", 0x80000000);
  ("hi3518ev200", 0x80000000); ("hi3520d", 0x80000000); ("hi3531", 0x80000000);
  ("hi3531a", 0x80000000); ("hi3535", 0x80000000); ("hi3536", 0x80000000); ("hi3519", 0x80000000);
  ("hi3559v100", 0x80000000);
  ("hi3516ev200", 0x40000000); ("hi3516ev300", 0x40000000); ("hi3518ev300", 0x40000000);
  ("hi3516dv200", 0x40000000); ("gk7205v200", 0x40000000); ("gk7205v300", 0x40000000);
  ("gk7202v300", 0x40000000); ("gk7605v100", 0x40000000); ("gk7205v500", 0x40000000);
  ("hi3516cv608", 0x40000000); ("hi3516cv610", 0x40000000); ("hi3516cv613", 0x40000000)]%string.

Definition RAM_STAGING_OFFSET : Z := 0x2000000.
Definition SF_READ_TIMEOUT : Z := 120000000.

Section Staging.
(** [load_profile], with everything it can raise. *)
Variable load_prof : string -> res SoCProfile.

Definition exact_ram_staging_addr (chip : string) : option Z :=
  let chip_lower := base_chip chip in
  match assoc RAM_BASE chip_lower with
  | Some base => Some (base + RAM_STAGING_OFFSET)
  | None =>
      match (let! profile := load_prof chip_lower in uboot_address profile) with
      | Ok uboot_addr => Some (Z.land uboot_addr 0xF0000000 + RAM_STAGING_OFFSET)
      | _ => None
      end
  end.

Definition get_ram_staging_addr (chip : string) : Z :=
  match exact_ram_staging_addr chip with
  | Some a => a
  | None =>
      match List.find (fun pb => String.prefix (String.substring 0 8 (fst pb)) (base_chip chip)) RAM_BASE with
      | Some (_, base) => base + RAM_STAGING_OFFSET
      | None => 0x82000000
      end
  end.

End Staging.

(** ** md.b output *)

(** [^([0-9a-fA-F]{8}):\s+((?:[0-9a-fA-F]{2}[\s]+){0,15}[0-9a-fA-F]{2})] *)
Definition MD_BYTE : re := Seq hexd hexd.
Definition MD_LINE_RE : re :=
  seqs [bol; Group 1 (rep 8 hexd); chr 58; plus sp; Group 2 (Seq (upto 15 (Seq MD_BYTE (plus sp))) MD_BYTE)].

(** [s.split()] *)
Fixpoint split_ws (l cur : list Z) : list (list Z) :=
  match l with
  | [] => match cur with [] => [] | _ => [cur] end
  | c :: l' =>
      if is_space_code c
      then match cur with [] => split_ws l' [] | _ => cur :: split_ws l' [] end
      else split_ws l' (cur ++ [c])
  end.

Definition parse_md_line (line : list Z) : option (Z * bytes) :=
  match re_match MD_LINE_RE (strip line) with
  | None => None
  | Some m =>
      Some (group_hex 1 m, digits_value 16 <$> split_ws (strip (default [] (group 2 m))) [])
  end.

(** [entries.sort(key=lambda e: e[0])], which is stable. *)
Fixpoint insert_entry (e : Z * bytes) (l : list (Z * bytes)) : list (Z * bytes) :=
  match l with
  | [] => [e]
  | x :: l' => if fst x <=? fst e then x :: insert_entry e l' else e :: l
  end.
Definition sort_entries (l : list (Z * bytes)) : list (Z * bytes) := foldl (fun acc e => insert_entry e acc) [] l.

Definition parse_md_output (text : list Z) : bytes :=
  let entries := sort_entries (omap parse_md_line (splitlines text)) in
  match entries, last entries with
  | (base_addr, _) :: _, Some (last_addr, last_data) =>
      let total_size := last_addr - base_addr + len last_data in
      foldl (fun buf e => splice buf (fst e - base_addr) (snd e)) (brep total_size 0) entries
  | _, _ => []
  end.

(** ** Flash size *)

Definition FLASH_MB_RE : re :=
  seqs [Alt (liti (codes "chip")) (Alt (liti (codes "flash")) (Alt (liti (codes "size")) (liti (codes "nor"))));
        star_lazy (Chr (fun c => negb (is_digit_code c))); Group 1 (plus dg); star sp; liti (codes "mb")].
Definition ANY_MB_RE : re := seqs [wordb; Group 1 (plus dg); star sp; lit (codes "MB"); wordb].
Definition HEX_SIZE_RE : re := seqs [lit (codes "0x"); Group 1 (repto 6 8 hexd)].

Definition flash_mb (m : place) : option Z :=
  let mb := group_dec 1 m in if bool_decide (mb ∈ [4; 8; 16; 32; 64]) then Some (mb * 1024 * 1024) else None.
Definition flash_hex (m : place) : option Z :=
  let size := group_hex 1 m in
  if (0x100000 <=? size) && (size <=? 0x4000000) && (Z.land size (size - 1) =? 0) then Some size else None.

Definition detect_flash_from_text (text : list Z) : option Z :=
  match head (omap flash_mb (re_finditer FLASH_MB_RE text)) with
  | Some s => Some s
  | None =>
      match head (omap flash_mb (re_finditer ANY_MB_RE text)) with
      | Some s => Some s
      | None => head (omap flash_hex (re_finditer HEX_SIZE_RE text))
      end
  end.

(** ** Answers *)

Definition CRC_LINE_RE : re := Seq (lit (codes "==>")) (Seq (star sp) (Group 1 (rep 8 hexd))).
(** On a lower-case text. *)
Definition LOWER_CRC_RE : re :=
  Alt (Seq (lit (codes "==>")) (Seq (star sp) (rep 8 (Chr (fun c => is_hex_code c && (lower_code c =? c))))))
      (lit (codes "crc32 for")).
Definition BDINFO_RE : re :=
  seqs [Alt (seqs [lit (codes "->"); star sp; lit (codes "start")]) (lit (codes "memstart")); star sp; chr 61; star sp;
        lit (codes "0x"); Group 1 (plus hexd)].
Definition SOC_RE : re :=
  seqs [bolm; lit (codes "soc="); Group 1 (plus (Chr (fun c => is_word_code c || bool_decide (c ∈ [58; 46; 45])))); star sp; eolm].

(** [s.replace("\r", "\n")] *)
Definition cr_to_lf (l : list Z) : list Z := (fun c => if c =? 13 then 10 else c) <$> l.

Definition sf_read_ok (resp : list Z) : bool :=
  if contains (codes "Read: OK") resp then true else
  let lines := strip <$> split_on 10 (cr_to_lf resp) in
  let lines := List.filter (fun ln => negb (beq ln []) && negb (starts_with (codes "sf read") ln)) lines in
  match lines with
  | [l] => ends_with [35] l
  | _ => false
  end.

Definition text_of (l : list Z) : string := String.string_of_list_ascii ((fun c => ascii_of_nat (Z.to_nat c)) <$> l).
Definition hex_arg (n : Z) : list Z := codes "0x" ++ codes (hex_x n).

(** [repr] of an ASCII text. *)
Definition repr_code (quote c : Z) : list Z :=
  if c =? 92 then [92; 92] else if c =? quote then [92; c]
  else if c =? 10 then codes "\n" else if c =? 13 then codes "\r" else if c =? 9 then codes "\t"
  else if (c <? 32) || (c =? 127) then codes "\x" ++ codes (hex_0x 2 c) else [c].
Definition py_repr (s : list Z) : list Z :=
  let quote := if bool_decide (39 ∈ s) && negb (bool_decide (34 ∈ s)) then 34 else 39 in
  [quote] ++ concat (repr_code quote <$> s) ++ [quote].

(** [text.strip()[-n:] or "<no response>"] *)
Definition tail_or_none (n : nat) (text : list Z) : list Z :=
  let t := last_n n (strip text) in if beq t [] then codes "<no response>" else t.

Definition echo_failure (cmd : list Z) (retries : Z) : list Z :=
  codes "UART command echo verification failed after " ++ codes (pretty retries) ++ codes " attempts: " ++ py_repr cmd.
Definition prompt_failure (cmd wait_for response : list Z) : list Z :=
  codes "Timed out waiting for " ++ py_repr wait_for ++ codes " after U-Boot command " ++ py_repr cmd ++
  codes "; partial response: " ++ tail_or_none 200 response.

(** ** The console *)

Section Console.
Context {T Ob : Type} `{Transport T}.
Variable fuel : nat.
Abbreviation MF := (M T Ob).

Definition read_until_body (prompt : bytes) (deadline : Z) (buf : bytes) : MF (ctl bytes Empty_set) :=
  let* now := monotonic in
  if negb (now <? deadline) then ret (Brk buf) else
  let* data := try_except (read 256 (Some 100000)) is_TransportTimeout (fun _ => ret []) in
  if beq data [] then ret (Next buf) else
  let buf := buf ++ data in
  if contains prompt (last_n 128 buf) then ret (Brk buf) else ret (Next buf).

Definition read_until_prompt (prompt : bytes) (timeout : Z) : MF bytes :=
  let* now := monotonic in
  let* c := while fuel (read_until_body prompt (now + timeout)) [] in
  match c with
  | Next buf | Brk buf => ret buf
  | Rtn r => match r with end
  end.

Definition cancel_partial_uboot_line : MF unit :=
  let* _ := foreach (S := unit) (R := Empty_set) (range 3) (fun _ _ =>
      let* _ := write [3] in let* _ := sleep 10000 in ret (Next tt)) tt in
  let* _ := write [13] in
  let* _ := read_until_prompt (codes "# ") 2000000 in
  ret tt.

(** [avail = await transport.bytes_waiting(); if avail > 0: read it], with
    every exception ignored. *)
Definition clear_pending : MF unit :=
  try_except
    (let* avail := bytes_waiting in
     if 0 <? avail then let* _ := read avail (Some 100000) in ret tt else ret tt)
    is_Exception (fun _ => ret tt).

(** Typing one character; [Rtn] at an echo that differs. *)
Definition type_char (echo_timeout : Z) (expected : Z) (_ : unit) : MF (ctl unit unit) :=
  let* _ := write [expected] in
  let* echoed := try_except (read 1 (Some echo_timeout)) is_TransportTimeout (fun _ => ret []) in
  if negb (beq echoed [expected]) then ret (Rtn tt) else ret (Next tt).

Definition encode_ascii (cmd : list Z) : res bytes :=
  if forallb (fun c => c <? 128) cmd then Ok cmd else Raise UnicodeError.

Definition echo_attempt (encoded : bytes) (echo_timeout : Z) (_ : Z) (_ : unit) : MF (ctl unit unit) :=
  let* c := foreach encoded (type_char echo_timeout) tt in
  match c with
  | Next _ =>
      let* _ := write [13] in
      let* _ := flush_output in
      ret (Rtn tt)
  | _ =>
      let* _ := cancel_partial_uboot_line in
      let* _ := clear_pending in
      ret (Next tt)
  end.

(** Whether the line was entered. *)
Definition enter_line (cmd : list Z) (retries echo_timeout : Z) : MF bool :=
  let* encoded := lift (encode_ascii cmd) in
  let* c := foreach (map (Z.add 1) (range retries)) (echo_attempt encoded echo_timeout) tt in
  match c with
  | Rtn _ => ret true
  | _ => ret false
  end.

Definition write_uboot_line_with_echo_verify (cmd : list Z) (retries echo_timeout : Z) : MF unit :=
  let* entered := enter_line cmd retries echo_timeout in
  if negb entered then raise TransportTimeout else ret tt.

(** One turn of the collection; the state is [buf] and [idle_time].  An empty
    [wait_for] is no [wait_for]. *)
Definition send_body (start timeout : Z) (wait_for : list Z) (s : bytes * Z) : MF (ctl (bytes * Z) (list Z)) :=
  let (buf, idle_time) := s in
  let* now := monotonic in
  if negb (now - start <? timeout) then ret (Brk s) else
  let* data := try_except (read 4096 (Some 100000)) is_TransportTimeout (fun _ => ret []) in
  if negb (beq data []) then
    let buf := buf ++ data in
    if negb (beq wait_for []) && contains wait_for (decode_replace (last_n 64 buf))
    then ret (Rtn (decode_replace buf))
    else ret (Next (buf, 0))
  else
    let idle_time := idle_time + 100000 in
    if beq wait_for [] && (0 <? len buf) && (500000 <? idle_time)
    then ret (Rtn (decode_replace buf))
    else ret (Next (buf, idle_time)).

(** [send_command], with the text of its own TransportTimeout as [inl]. *)
Definition send_command_text (cmd : list Z) (timeout : Z) (wait_for : list Z) (verify_echo require_prompt : bool)
    : MF (list Z + list Z) :=
  let* _ := clear_pending in
  let* entered :=
    if verify_echo then enter_line cmd 8 350000
    else let* line := lift (encode_ascii (cmd ++ [13])) in let* _ := write line in ret true in
  if negb entered then ret (inl (echo_failure cmd 8)) else
  let* start := monotonic in
  let* c := while fuel (send_body start timeout wait_for) ([], 0) in
  match c with
  | Rtn response => ret (inr response)
  | Next (buf, _) | Brk (buf, _) =>
      let response := decode_replace buf in
      if negb (beq wait_for []) && require_prompt then ret (inl (prompt_failure cmd wait_for response)) else ret (inr response)
  end.

Definition send_command (cmd : list Z) (timeout : Z) (wait_for : list Z) (verify_echo require_prompt : bool) : MF (list Z) :=
  let* r := send_command_text cmd timeout wait_for verify_echo require_prompt in
  match r with
  | inl _ => raise TransportTimeout
  | inr response => ret response
  end.

(** [send_command(transport, cmd, timeout, wait_for="# ")] *)
Definition prompt_command (cmd : list Z) (timeout : Z) : MF (list Z) :=
  send_command cmd timeout (codes "# ") false false.

Definition tftp_to_ram (addr : Z) (filename : list Z) (timeout : Z) : MF (list Z) :=
  run_uboot_tftp (fun command command_timeout =>
      let* response := prompt_command command command_timeout in ret (true, response))
    filename addr false timeout.

Definition detect_flash (boot_log : list Z) : MF (option Z) :=
  match (if negb (beq boot_log []) then detect_flash_from_text boot_log else None) with
  | Some size => ret (Some size)
  | None =>
      let* resp := prompt_command (codes "sf probe 0") 5000000 in
      ret (detect_flash_from_text resp)
  end.

Definition detect_crc32 : MF bool :=
  let* resp := prompt_command (codes "crc32 0 0") 3000000 in
  let text := lower_codes resp in
  if contains (codes "unknown command") text then ret false else
  ret (re_test LOWER_CRC_RE text || (contains (codes "usage:") text && contains (codes "crc32") text)).

Definition get_device_crc32 (addr size timeout : Z) : MF (option Z) :=
  let* resp := prompt_command (codes "crc32 " ++ hex_arg addr ++ codes " " ++ hex_arg size) timeout in
  match re_search CRC_LINE_RE resp with
  | Some m => ret (Some (group_hex 1 m))
  | None => ret None
  end.

Definition md_command (addr n : Z) : list Z := codes "md.b " ++ hex_arg addr ++ codes " " ++ hex_arg n.

Definition detect_ram_staging_addr (load_prof : string -> res SoCProfile) : MF Z :=
  let* resp := prompt_command (codes "bdinfo") 3000000 in
  match re_search BDINFO_RE resp with
  | Some m => ret (group_hex 1 m + RAM_STAGING_OFFSET)
  | None =>
      let* resp := prompt_command (codes "printenv soc") 3000000 in
      match re_search SOC_RE resp with
      | Some m =>
          match exact_ram_staging_addr load_prof (text_of (default [] (group 1 m))) with
          | Some addr => ret addr
          | None => raise RuntimeError
          end
      | None => raise RuntimeError
      end
  end.

End Console.

(** ** The dump *)

Section Dump.
Context {T : Type} `{Transport T}.
Variable fuel : nat.
(** The object: the output file. *)
Abbreviation MD := (M T (option bytes)).

(** [f.seek(off); f.write(data)] *)
Definition write_at (off : Z) (data : bytes) : MD unit :=
  let* f := get_obj in
  let f := default [] f in
  put_obj (Some (splice (f ++ brep (off - len f) 0) off data)).

(** The three tries of [device_crc]; [Rtn] with the answer. *)
Definition device_crc (addr n timeout : Z) : MD Z :=
  let* c := foreach (R := Z) (range 3) (fun _ st =>
      let* crc := get_device_crc32 fuel addr n timeout in
      match crc with Some c => ret (Rtn c) | None => ret (Next st) end) tt in
  match c with
  | Rtn c => ret c
  | _ => raise RuntimeError
  end.

(** Reading one chunk again; [Rtn] with the copy that matches. *)
Definition reread_body (addr n want : Z) (_ : Z) (_ : unit) : MD (ctl unit bytes) :=
  let* resp := prompt_command fuel (md_command addr n) 15000000 in
  let got := parse_md_output resp in
  if (len got =? n) && (crc32 got =? want) then ret (Rtn got) else ret (Next tt).

(** One chunk of a block that differs; the state is [data] and [fixed]. *)
Definition repair_chunk (ram_addr chunk max_retries bend off : Z) (st : bytes * Z) : MD (ctl (bytes * Z) Empty_set) :=
  let (data, fixed) := st in
  let n := Z.min chunk (bend - off) in
  let* want := device_crc (ram_addr + off) n 5000000 in
  if want =? crc32 (slice data off (off + n)) then ret (Next st) else
  let* c := foreach (range (max_retries + 1)) (reread_body (ram_addr + off) n want) tt in
  match c with
  | Rtn got =>
      let* _ := write_at off got in
      ret (Next (splice data off got, fixed + 1))
  | _ => raise RuntimeError
  end.

Definition repair_block (ram_addr size block chunk max_retries boff : Z) (st : bytes * Z) : MD (ctl (bytes * Z) Empty_set) :=
  let bend := Z.min (boff + block) size in
  let* crc := device_crc (ram_addr + boff) (bend - boff) 5000000 in
  if crc =? crc32 (slice (fst st) boff bend) then ret (Next st) else
  let* c := foreach (map (Z.add boff) (range_step (bend - boff) chunk)) (repair_chunk ram_addr chunk max_retries bend) st in
  match c with
  | Next st => ret (Next st)
  | Brk st => ret (Brk st)
  | Rtn r => match r with end
  end.

(** [5.0 + size / (1 << 20)] seconds, up to the next microsecond. *)
Definition whole_timeout (size : Z) : Z := 5000000 + (size * 1000000 + (2 ^ 20 - 1)) / 2 ^ 20.

Definition verify_and_repair (ram_addr size block chunk max_retries : Z) : MD Z :=
  let* f := get_obj in
  let* f := lift (of_opt FileNotFoundError f) in
  let data := slice f 0 size in
  if negb (len data =? size) then raise RuntimeError else
  let* crc := device_crc ram_addr size (whole_timeout size) in
  if crc =? crc32 data then ret 0 else
  let* c := foreach (range_step size block) (repair_block ram_addr size block chunk max_retries) (data, 0) in
  match c with
  | Next (data, fixed) | Brk (data, fixed) =>
      let* crc := device_crc ram_addr size (whole_timeout size) in
      if negb (crc =? crc32 data) then raise RuntimeError else ret fixed
  | Rtn r => match r with end
  end.

Definition chunk_size : Z := 0x1000.
Definition max_retries : Z := 5.

(** One attempt at a chunk: [Rtn] with the bytes to write, [Next] for
    another attempt. *)
Definition chunk_attempt (has_crc32 : bool) (addr remaining attempt : Z) (_ : unit) : MD (ctl unit bytes) :=
  let* r := try_except
    (let* resp := prompt_command fuel (md_command addr remaining) 15000000 in ret (Some (parse_md_output resp)))
    is_Exception (fun _ => ret None) in
  match r with
  | None =>
      if attempt <? max_retries then
        let* _ := sleep 1000000 in
        let* _ := try_except (let* _ := prompt_command fuel [] 3000000 in ret tt) is_Exception (fun _ => ret tt) in
        ret (Next tt)
      else ret (Rtn (brep remaining 0))
  | Some chunk_data =>
      if len chunk_data =? 0 then
        if attempt <? max_retries then ret (Next tt) else ret (Rtn (brep remaining 0))
      else if has_crc32 && (len chunk_data =? remaining) then
        let* d := try_except (let* c := get_device_crc32 fuel addr remaining 5000000 in ret (Some c)) is_Exception (fun _ => ret None) in
        match d with
        | None => ret (Rtn chunk_data)
        | Some device_crc =>
            if negb (bool_decide (device_crc = Some (Z.land (crc32 chunk_data) 0xFFFFFFFF))) && (attempt <? max_retries)
            then ret (Next tt) else ret (Rtn chunk_data)
        end
      else ret (Rtn chunk_data)
  end.

(** The bytes for the chunk at [addr]. *)
Definition read_chunk (has_crc32 : bool) (addr remaining : Z) : MD bytes :=
  let* c := foreach (range (max_retries + 1)) (chunk_attempt has_crc32 addr remaining) tt in
  match c with
  | Rtn d => ret d
  | _ => ret []
  end.

Variable is_cancelled : Z -> bool.

(** One turn of the dump; the state is [offset]. *)
Definition dump_body (has_crc32 : bool) (ram_addr flash_size offset : Z) : MD (ctl Z Empty_set) :=
  if negb (offset <? flash_size) then ret (Brk offset) else
  let remaining := Z.min chunk_size (flash_size - offset) in
  let* chunk_data := read_chunk has_crc32 (ram_addr + offset) remaining in
  let* _ := write_at offset chunk_data in
  let offset := offset + len chunk_data in
  if is_cancelled offset then ret (Brk offset) else ret (Next offset).

(** Where to start, and whether the file is kept ([r+b]) or made anew. *)
Definition resume_at (file : option bytes) (flash_size : Z) (has_crc32 : bool) : Z * bool :=
  match file with
  | None => (0, false)
  | Some f =>
      let resume_offset := len f / chunk_size * chunk_size in
      if (0 <? resume_offset) && (resume_offset <? flash_size) then (resume_offset, true) else
      if (len f =? flash_size) && has_crc32 then (flash_size, true) else (0, false)
  end.

Variable load_prof : string -> res SoCProfile.

Definition staging (ram_addr : option Z) (chip : string) : MD Z :=
  match ram_addr with
  | Some a => ret a
  | None =>
      match (if bool_decide (chip = ""%string) then None else exact_ram_staging_addr load_prof chip) with
      | Some a => ret a
      | None => detect_ram_staging_addr fuel load_prof
      end
  end.

(** [sf probe], [sf read] and the check of the first bytes. *)
Definition read_into_ram (ram_addr flash_size : Z) : MD unit :=
  let* probe_resp := prompt_command fuel (codes "sf probe 0") 5000000 in
  if contains (codes "error") (lower_codes probe_resp) || contains (codes "fail") (lower_codes probe_resp)
  then raise RuntimeError else
  let* resp := prompt_command fuel (codes "sf read " ++ hex_arg ram_addr ++ codes " 0x0 " ++ hex_arg flash_size) SF_READ_TIMEOUT in
  if negb (sf_read_ok resp) then raise RuntimeError else
  let* check_resp := prompt_command fuel (codes "md.b " ++ hex_arg ram_addr ++ codes " 10") 5000000 in
  let check_data := parse_md_output check_resp in
  if (16 <=? len check_data) && bool_decide (length (remove_dups (slice check_data 0 16)) = 1%nat)
  then raise RuntimeError else ret tt.

Definition dump_flash (flash_size ram_addr : option Z) (chip : string) (boot_log : list Z) : MD Z :=
  let* ram_addr := staging ram_addr chip in
  let* flash_size :=
    match flash_size with
    | Some s => ret s
    | None =>
        let* s := detect_flash fuel boot_log in
        match s with Some s => ret s | None => raise RuntimeError end
    end in
  let* _ := read_into_ram ram_addr flash_size in
  let* has_crc32 := detect_crc32 fuel in
  let* file := get_obj in
  let (offset, keep) := resume_at file flash_size has_crc32 in
  let* _ := if keep : bool then ret tt else put_obj (Some []) in
  let* c := while fuel (dump_body has_crc32 ram_addr flash_size) offset in
  match c with
  | Next offset | Brk offset =>
      let* _ := if has_crc32 && (offset =? flash_size)
                then let* _ := verify_and_repair ram_addr flash_size 0x10000 0x1000 5 in ret tt
                else ret tt in
      ret offset
  | Rtn r => match r with end
  end.

End Dump.

(** ** Lines whose echo is checked

  The log of a line that was entered: every character of it was answered with
  itself, and then the line was ended; before it stand the attempts that
  failed, each cancelled. *)

Definition typed (line : bytes) : list event :=
  concat ((fun c => [EvWrite [c] (Ok tt); EvRead (Ok [c])]) <$> line) ++ [EvWrite [13] (Ok tt); EvFlushOutput (Ok tt)].

Definition cancelled (line : bytes) (l : list event) : Prop :=
  exists p, p `prefix_of` line /\ writes l = ((fun c => [c]) <$> p) ++ [[3]; [3]; [3]; [13]].

Definition entered (line : bytes) (l : list event) : Prop :=
  exists failed, Forall (cancelled line) failed /\ l = concat failed ++ typed line.

Section Echo.
Context {T Ob : Type} `{Transport T}.
Variable fuel : nat.

Lemma type_line_emits line tmo :
  emits (T := T) (Ob := Ob) (foreach line (type_char tmo) tt) (fun r l => match r with
    | Ok (Next _) => l = concat ((fun c => [EvWrite [c] (Ok tt); EvRead (Ok [c])]) <$> line)
    | Ok (Brk _) => False
    | Ok (Rtn _) => exists p, p `prefix_of` line /\ writes l = (fun c => [c]) <$> p
    | _ => True
    end).
Proof.
  apply (emits_foreach (fun done _ l => l = concat ((fun c => [EvWrite [c] (Ok tt); EvRead (Ok [c])]) <$> done))); [done| |by intros].
  intros done x rest u l0 -> ->. unfold type_char. emits_step. emits_step; [|done..].
  assert (Hw : forall d, writes (concat ((fun c => [EvWrite [c] (Ok tt); EvRead (Ok [c])]) <$> d)) = (fun c => [c]) <$> d).
  { induction d as [|c d IH]; [done|]. cbn [fmap list_fmap concat app]. rewrite writes_cons, (writes_cons (EvRead _)).
    cbn. f_equal. exact IH. }
  assert (Hno : forall r l, exists p, p `prefix_of` done ++ x :: rest /\
    writes (concat ((fun c => [EvWrite [c] (Ok tt); EvRead (Ok [c])]) <$> done) ++ EvWrite [x] (Ok tt) :: EvRead r :: l) = ((fun c => [c]) <$> p) ++ writes l).
  { intros r l. exists (done ++ [x]). split; [apply prefix_app, prefix_cons, prefix_nil|].
    rewrite writes_app, Hw, fmap_app, <- app_assoc. done. }
  do 3 emits_step.
  - destruct (negb _) eqn:E; emits_step; b2p.
    + destruct (Hno (Ok a) []) as (p & Hp & E'). exists p. rewrite app_nil_r in E'. by split.
    + subst. by rewrite fmap_app, concat_app.
  - destruct (is_TransportTimeout e); [|done]. do 2 emits_step; emits_step; b2p; [|done].
    destruct (Hno (Raise e) []) as (p & Hp & E'). exists p. rewrite app_nil_r in E'. by split.
  - done.
Qed.

Lemma silent_clear_pending : silent (T := T) (Ob := Ob) clear_pending.
Proof. unfold clear_pending. silence. Qed.

Lemma cancel_emits :
  emits (T := T) (Ob := Ob) (cancel_partial_uboot_line fuel) (fun r l => r = Ok tt -> writes l = [[3]; [3]; [3]; [13]]).
Proof.
  assert (Hs : silent (T := T) (Ob := Ob) (read_until_prompt fuel (codes "# ") 2000000)) by (unfold read_until_prompt, read_until_body; silence).
  unfold cancel_partial_uboot_line. emits_step.
  apply (emits_foreach (fun done _ l => writes l = replicate (length done) [3])); [done| |].
  - intros done x rest u l0 _ H0. emits_step. emits_step; [|done..]. do 3 emits_step.
    rewrite writes_app, H0, length_app. cbn. by rewrite replicate_add.
  - intros u l0 H0. emits_step. emits_step; [|done..]. emits_step. eapply emits_weaken; [exact Hs|].
    intros [d|e|] l1 H1; [|done..]. emits_step. intros _. rewrite app_nil_r, writes_app, H0, writes_cons, H1. done.
Qed.

Lemma echo_attempt_emits line tmo x u :
  emits (T := T) (Ob := Ob) (echo_attempt fuel line tmo x u) (fun r l => match r with
    | Ok (Next _) => cancelled line l
    | Ok (Brk _) => False
    | Ok (Rtn _) => l = typed line
    | _ => True
    end).
Proof.
  unfold echo_attempt. emits_step. eapply emits_weaken; [apply type_line_emits|]. intros [[u1|u1|u1]|e|] l1 H1; try done.
  - emits_step. emits_step; [|done..]. emits_step. emits_step; [|done..]. emits_step. by rewrite H1.
  - destruct H1 as (p & Hp & Hw). emits_step. eapply emits_weaken; [apply cancel_emits|]. intros [[]|e|] l2 H2; try done.
    emits_step. eapply emits_weaken; [apply silent_clear_pending|]. intros [[]|e|] l3 H3; try done.
    emits_step. exists p. split; [done|]. by rewrite app_nil_r, !writes_app, Hw, (H2 eq_refl), H3.
Qed.

(** A line is entered, every character echoed, or the call ends with an
    error. *)
Lemma entered_emits line retries tmo :
  emits (T := T) (Ob := Ob) (write_uboot_line_with_echo_verify fuel line retries tmo) (fun r l => r = Ok tt -> entered line l).
Proof.
  unfold write_uboot_line_with_echo_verify, enter_line, encode_ascii. do 3 emits_step. destruct (forallb _ line); [|done].
  emits_step. apply (emits_foreach (fun _ _ l => exists failed, Forall (cancelled line) failed /\ l = concat failed)).
  - exists []. by split.
  - intros done x rest u l0 _ (failed & Hf & ->). eapply emits_weaken; [apply echo_attempt_emits|]. intros [[u1|u1|u1]|e|] l1 H1; try done.
    + exists (failed ++ [l1]). rewrite concat_app. cbn. rewrite app_nil_r. split; [|done]. apply Forall_app. by split; [|constructor].
    + emits_step. cbn [negb]. emits_step. intros _. exists failed. rewrite !app_nil_r. cbn. by rewrite H1.
  - intros u l0 _. emits_step. cbn [negb]. by emits_step.
Qed.

End Echo.

(** ** The check of the whole image *)

Section Verify.
Context {T : Type} `{Transport T}.
Variable fuel : nat.

Lemma prompt_command_keeps {Ob} (P : Ob -> Prop) cmd tmo : keeps (T := T) P (prompt_command fuel cmd tmo).
Proof. unfold prompt_command, send_command, send_command_text, clear_pending, send_body. keeps_go. Qed.
Hint Resolve prompt_command_keeps : keeps.

Lemma get_device_crc32_keeps {Ob} (P : Ob -> Prop) a n tmo : keeps (T := T) P (get_device_crc32 fuel a n tmo).
Proof. unfold get_device_crc32. keeps_go. Qed.
Hint Resolve get_device_crc32_keeps : keeps.

Lemma device_crc_keeps P a n tmo : keeps (T := T) P (device_crc fuel a n tmo).
Proof. unfold device_crc. keeps_go. Qed.

(** The value of [device_crc] is the device's last answer. *)
Lemma device_crc_answer a n tmo (w w' : world T (option bytes)) c :
  device_crc fuel a n tmo w = (Ok c, w') ->
  obj w' = obj w /\ exists w1, get_device_crc32 fuel a n tmo w1 = (Ok (Some c), w').
Proof.
  intros E. split.
  { destruct (device_crc_keeps (fun o => o = obj w) a n tmo (obj w) eq_refl w eq_refl) as (l & _ & Ho). by rewrite E in Ho. }
  revert E. unfold device_crc, bind. generalize (range 3) as xs. intros xs. revert w.
  induction xs as [|x xs IH]; intros w; cbn [foreach]; [done|]. unfold bind.
  destruct (get_device_crc32 fuel a n tmo w) as [[[c1|]|e|] w1] eqn:E1; try done.
  - intros [= -> ->]. eauto.
  - apply IH.
Qed.

(** Part of a file written in place. *)
Lemma splice_parts (a b c d : bytes) : len b = len d -> splice (a ++ b ++ c) (len a) d = a ++ d ++ c.
Proof.
  intros Hl. unfold splice, len in *.
  replace (Z.to_nat (Z.of_nat (length a))) with (length a) by lia. rewrite take_app_length. do 2 f_equal.
  replace (Z.to_nat _) with (length a + length b)%nat by lia. by rewrite drop_app_add, drop_app_length.
Qed.

Lemma cut (l : bytes) k : 0 <= k <= len l -> exists a b, l = a ++ b /\ len a = k /\ len b = len l - k.
Proof.
  intros Hk. exists (take (Z.to_nat k) l), (drop (Z.to_nat k) l). rewrite take_drop, len_take, len_drop.
  split_and!; [done|lia..].
Qed.

Lemma slice_splice_prefix (f d : bytes) off size :
  0 <= off -> off + len d <= size -> size <= len f ->
  slice (splice f off d) 0 size = splice (slice f 0 size) off d /\
  drop (Z.to_nat size) (splice f off d) = drop (Z.to_nat size) f /\ len (splice f off d) = len f.
Proof.
  intros Ho Hd Hs. pose proof (len_nonneg d).
  destruct (cut f size) as (p & e & -> & Hp & _); [lia|].
  destruct (cut p off) as (a & p' & -> & <- & Hp'); [lia|].
  destruct (cut p' (len d)) as (b & c & -> & Hb & Hc); [rewrite !len_app in *; lia|].
  assert (Hx : forall x : bytes, len x = size -> slice (x ++ e) 0 size = x /\ drop (Z.to_nat size) (x ++ e) = e).
  { intros x <-. unfold slice, len. rewrite Z.sub_0_r, Nat2Z.id, drop_0, take_app_length, drop_app_length. done. }
  replace (splice ((a ++ b ++ c) ++ e) (len a) d) with ((a ++ d ++ c) ++ e).
  2: { rewrite <- !app_assoc. by rewrite splice_parts by done. }
  assert (Hs' : len (a ++ d ++ c) = size) by (rewrite !len_app in *; lia).
  destruct (Hx _ Hp) as [-> ->], (Hx _ Hs') as [-> ->]. rewrite splice_parts by done.
  split_and!; [done..|]. rewrite !len_app in *. lia.
Qed.

(** [data] is the beginning of the file, which keeps its length and its end. *)
Definition in_step (f0 : bytes) (size : Z) (data : bytes) (o : option bytes) : Prop :=
  exists f, o = Some f /\ data = slice f 0 size /\ len f = len f0 /\ drop (Z.to_nat size) f = drop (Z.to_nat size) f0.

Lemma write_at_in_step f0 size data off got o :
  size <= len f0 -> 0 <= off -> off + len got <= size -> in_step f0 size data o ->
  does (T := T) (write_at off got) o (fun r _ o' => in_step f0 size (splice data off got) o').
Proof.
  intros Hs Ho Hg (f & -> & -> & Hl & Hd). unfold write_at. does_step. does_step. does_step.
  unfold default, id. replace (brep (off - len f) 0) with (@nil Z).
  2: { unfold brep. pose proof (len_nonneg got). by replace (Z.to_nat (off - len f)) with 0%nat by lia. }
  rewrite app_nil_r. destruct (slice_splice_prefix f got off size) as (H1 & H2 & H3); [lia..|].
  exists (splice f off got). rewrite H2, H3. by split_and!.
Qed.

Lemma reread_does ram_addr n want xs o :
  does (T := T) (foreach xs (reread_body fuel ram_addr n want) tt) o (fun r _ o' => o' = o /\
    match r with Ok (Rtn got) => len got = n | _ => True end).
Proof.
  apply (does_foreach (fun _ _ _ o' => o' = o)); [done| |done].
  intros dn x rest [] l0 o0 _ ->. unfold reread_body. does_step.
  eapply does_weaken; [by apply (prompt_command_keeps (fun o' => o' = o))|].
  intros [resp|e|] l1 o1 ->; try done. destruct (_ && _) eqn:E; does_step; [|done].
  apply andb_true_iff in E as [E _]. by apply Z.eqb_eq in E.
Qed.

(** The same, and without a repair it is the file of the beginning. *)
Definition repaired (f0 : bytes) (size : Z) (st : bytes * Z) (o : option bytes) : Prop :=
  in_step f0 size (fst st) o /\ 0 <= snd st /\ (snd st = 0 -> o = Some f0).

(** What a step of the repair leaves. *)
Definition repairs (f0 : bytes) (size : Z) (r : res (ctl (bytes * Z) Empty_set)) (o : option bytes) : Prop :=
  match r with Ok (Next st) | Ok (Brk st) => repaired f0 size st o | _ => True end.

Lemma repair_chunk_does f0 size ram_addr chunk tries bend off st o :
  size <= len f0 -> 0 <= off -> off < bend <= size -> 0 < chunk -> repaired f0 size st o ->
  does (T := T) (repair_chunk fuel ram_addr chunk tries bend off st) o (fun r _ o' => repairs f0 size r o').
Proof.
  destruct st as [data fixed]. intros Hs Ho Hb Hc (Hi & Hk & Hf). unfold repair_chunk. does_step.
  eapply does_weaken; [by apply (device_crc_keeps (fun o' => o' = o))|]. intros [want|e|] l o1 ->; try done.
  destruct (_ =? _); [does_step; by split_and!|]. does_step.
  eapply does_weaken; [apply reread_does|]. intros [[u|u|got]|e|] l1 o1 [-> Hg]; try done; try by does_step.
  does_step. cbn [fst] in Hi.
  eapply does_weaken; [apply (write_at_in_step f0 size data off got); [done..| |exact Hi]; lia|].
  intros [u|e|] l2 o2 Hi2; try done. does_step. cbn [snd] in *. split_and!; [exact Hi2|cbn; lia..].
Qed.

Lemma range_step_bound n step x : 0 < step -> x ∈ range_step n step -> 0 <= x < n.
Proof.
  intros Hs. unfold range_step. rewrite list_elem_of_fmap. intros (i & -> & Hi%elem_of_seq). split; [lia|].
  destruct (decide (n <= 0)) as [Hn|Hn].
  - assert ((n + step - 1) / step <= 0); [|lia]. assert ((n + step - 1) / step < 1); [|lia]. apply Z.div_lt_upper_bound; lia.
  - assert (Z.of_nat i * step < n); [|lia]. assert (Z.of_nat i < (n + step - 1) / step) by lia.
    assert (Hm := Z.mul_div_le (n + step - 1) step ltac:(lia)). nia.
Qed.

Lemma repair_block_does f0 size ram_addr block chunk tries boff st o :
  size <= len f0 -> 0 <= boff < size -> 0 < chunk -> repaired f0 size st o ->
  does (T := T) (repair_block fuel ram_addr size block chunk tries boff st) o (fun r _ o' => repairs f0 size r o').
Proof.
  intros Hs Hb Hc Hi. unfold repair_block. does_step.
  eapply does_weaken; [by apply (device_crc_keeps (fun o' => o' = o))|]. intros [crc|e|] l o1 ->; try done.
  destruct (_ =? _); [by does_step|]. does_step.
  eapply does_weaken; [apply (does_foreach (fun _ st' _ o' => repaired f0 size st' o') _ _ _ _ (fun r _ o' => repairs f0 size r o'))|].
  - done.
  - intros dn off rest st0 l0 o0 Hx Hi0.
    assert (Hoff : off ∈ map (Z.add boff) (range_step (Z.min (boff + block) size - boff) chunk))
      by (rewrite Hx; apply elem_of_app; right; apply elem_of_cons; by left).
    apply list_elem_of_fmap in Hoff as (x & -> & Hx'%range_step_bound); [|done].
    eapply does_weaken; [apply (repair_chunk_does f0 size); [done|lia|lia|done|exact Hi0]|].
    by intros [[st'|st'|[]]|e|] l1 o1.
  - by intros st0 l0 o0.
  - intros [[st'|st'|[]]|e|] l1 o1; try done; intros Hi1; by does_step.
Qed.

Lemma repair_all_does f size ram_addr block chunk tries :
  0 < block -> 0 < chunk -> size <= len f ->
  does (T := T) (foreach (range_step size block) (repair_block fuel ram_addr size block chunk tries) (slice f 0 size, 0))
    (Some f) (fun r _ o' => repairs f size r o').
Proof.
  intros Hb Hc Hs. apply (does_foreach (fun _ st' _ o' => repaired f size st' o')).
  - split; [by exists f|done].
  - intros dn boff rest st0 l0 o0 Hx Hi0.
    assert (Hin : boff ∈ range_step size block) by (rewrite Hx; apply elem_of_app; right; apply elem_of_cons; by left). apply range_step_bound in Hin; [|done].
    eapply does_weaken; [by apply (repair_block_does f size)|].
    by intros [[st'|st'|[]]|e|] l1 o1.
  - by intros.
Qed.

(** The last check, from a file in step with [data]. *)
Lemma final_check f size ram_addr data fixed (w w' : world T (option bytes)) k :
  repaired f size (data, fixed) (obj w) ->
  (let* crc := device_crc fuel ram_addr size (whole_timeout size) in
   if negb (crc =? crc32 data) then raise RuntimeError else ret (A := Z) fixed) w = (Ok k, w') ->
  k = fixed /\ exists f', obj w' = Some f' /\ (fixed = 0 -> f' = f) /\ 0 <= fixed /\ len f' = len f /\ drop (Z.to_nat size) f' = drop (Z.to_nat size) f /\
    exists w1, get_device_crc32 fuel ram_addr size (whole_timeout size) w1 = (Ok (Some (crc32 (slice f' 0 size))), w').
Proof.
  intros (Hi & Hk & H0). cbn [fst snd] in *. destruct Hi as (f' & Hf' & -> & Hlen & Hdrop). unfold bind.
  destruct (device_crc fuel ram_addr size (whole_timeout size) w) as [[crc|e|] w3] eqn:E3; try done.
  destruct (device_crc_answer _ _ _ _ _ _ E3) as [Ho3 Ha3].
  destruct (crc =? crc32 _) eqn:Ec; cbn; [|done]. intros [= <- <-]. b2p. subst crc.
  split; [done|]. exists f'. rewrite Ho3, Hf'. rewrite Hf' in H0. split_and!; try done. intros E. by injection (H0 E).
Qed.

(** C28. [verify_and_repair] over any transport and whatever the device
    answers: when it returns, the file holds [size] bytes whose CRC-32 is the
    one the device last gave for its whole copy; bytes after them and the
    length of the file are as they were, and the file is untouched where no
    repair is reported. *)
Theorem verify_and_repair_sound ram_addr size block chunk tries (w w' : world T (option bytes)) k :
  0 < block -> 0 < chunk -> 0 <= size ->
  verify_and_repair fuel ram_addr size block chunk tries w = (Ok k, w') ->
  exists f f', obj w = Some f /\ obj w' = Some f' /\ size <= len f /\ len f' = len f /\
    drop (Z.to_nat size) f' = drop (Z.to_nat size) f /\ 0 <= k /\ (k = 0 -> f' = f) /\
    exists w1, get_device_crc32 fuel ram_addr size (whole_timeout size) w1
      = (Ok (Some (crc32 (slice f' 0 size))), w').
Proof.
  intros Hb Hc Hsz E. unfold verify_and_repair, bind at 1, get_obj in E.
  destruct (obj w) as [f|] eqn:Eo; [|done]. cbn [of_opt] in E. unfold bind at 1, lift in E.
  destruct (negb (len (slice f 0 size) =? size)) eqn:El; [done|]. b2p.
  rewrite len_slice in El by lia. pose proof (len_nonneg f). assert (Hs : size <= len f) by lia. clear El.
  unfold bind at 1 in E. destruct (device_crc fuel ram_addr size (whole_timeout size) w) as [[crc|e|] w1] eqn:E1; try done.
  destruct (device_crc_answer _ _ _ _ _ _ E1) as [Ho1 Ha1].
  destruct (crc =? crc32 (slice f 0 size)) eqn:Ec.
  { injection E as <- <-. b2p. subst crc. exists f, f. rewrite Ho1, Eo. by split_and!. }
  unfold bind at 1 in E. destruct (foreach _ _ _ w1) as [r2 w2] eqn:E2.
  destruct (repair_all_does f size ram_addr block chunk tries Hb Hc Hs w1 ltac:(by rewrite Ho1)) as (l & _ & HQ).
  rewrite E2 in HQ. cbn [fst snd] in HQ.
  destruct r2 as [[[data fixed]|[data fixed]|[]]|e|]; try done;
    apply (final_check f) in E as (-> & f' & Hf' & Hz & Hk & Hlen & Hdrop & Ha); try exact HQ; exists f, f'; by split_and!.
Qed.

End Verify.

(** A command leaves the fields of the object alone. *)
Lemma keeps_send_text {T Ob} `{Transport T} fuel P c tmo wf ve rp : keeps (T := T) (Ob := Ob) P (send_command_text fuel c tmo wf ve rp).
Proof.
  unfold send_command_text, clear_pending, enter_line, echo_attempt, type_char, cancel_partial_uboot_line, read_until_prompt,
    read_until_body, clear_pending, send_body. keeps_go.
Qed.

Lemma keeps_prompt_command {T Ob} `{Transport T} fuel P c tmo : keeps (T := T) (Ob := Ob) P (prompt_command fuel c tmo).
Proof. unfold prompt_command, send_command. pose proof (keeps_send_text (T := T) (Ob := Ob) fuel P). keeps_go. Qed.
