(* ===== verification/UbootConsole.v ===== *)
(** * A U-Boot console

  The device side of [src/src/defib/flashdump.py] as the module describes it:
  how [md.b] prints memory, and a console that executes the commands the dump
  sends.  The theorems run the definitions of [Flashdump] against it. *)

From stdpp Require Import sorting.
From S2P Require Import Prelude Text Regex Transport Crc Profiles UbootEnv Layout Flashdump.

(** Equal up to the nesting of [++]. *)
Ltac applist := repeat progress (cbn [app]; rewrite <- ?app_assoc); done.

(** A property of every character, part by part. *)
Ltac parts := repeat match goal with |- Forall _ (_ ++ _) => apply Forall_app; split end.

(** The lengths of constant texts. *)
Ltac text_lengths :=
  repeat match goal with |- context [length (codes ?s)] =>
    let n := eval vm_compute in (length (codes s)) in change (length (codes s)) with n end; cbn [length].

(** ** How md.b prints *)

Definition hex2 (b : Z) : list Z := codes (hex_0x 2 b).
Definition md_row (addr : Z) (data : bytes) : list Z :=
  codes (hex_0x 8 addr) ++ [58] ++ concat ((fun b => 32 :: hex2 b) <$> data).
(** The column of characters. *)
Definition printable (b : Z) : Z := if (32 <=? b) && (b <=? 126) then b else 46.
Definition md_line (addr : Z) (data : bytes) : list Z :=
  md_row addr data ++ brep (3 * (16 - len data) + 4) 32 ++ (printable <$> data).

(** The rows of a dump of [data] at [base]. *)
Definition md_entries (base : Z) (data : bytes) : list (Z * bytes) :=
  imap (fun i p => (base + 16 * Z.of_nat i, p)) (pieces 16 data).
Definition md_text (base : Z) (data : bytes) : list Z :=
  concat ((fun e => md_line (fst e) (snd e) ++ [13; 10]) <$> md_entries base data).

(** ** Parsing a row *)

(** Two hexadecimal digits. *)
Definition hex_pair (p : Z * Z) : Prop := hex_text [fst p; snd p].

Lemma hex_pair_codes p : hex_pair p ->
  is_hex_code (fst p) = true /\ is_hex_code (snd p) = true /\ is_space_code (fst p) = false /\ is_space_code (snd p) = false.
Proof. intros [(? & ? & _) [(? & ? & _) _]%Forall_cons]%Forall_cons. done. Qed.

Lemma rmatch_md_byte {A} (k : place -> option A) p prev r caps :
  hex_pair p -> rmatch MD_BYTE k (Place prev (fst p :: snd p :: r) caps) = k (Place (Some (snd p)) r caps).
Proof. intros (H1 & H2 & _)%hex_pair_codes. unfold MD_BYTE, hexd. cbn. by rewrite H1, H2. Qed.

Lemma rmatch_md_bytes {A} (k : place -> option A) ps q prev rest caps x :
  Forall hex_pair ps -> hex_pair q ->
  k (Place (Some (snd q)) rest caps) = Some x ->
  rmatch (Seq (upto (length ps) (Seq MD_BYTE (plus sp))) MD_BYTE) k
    (Place prev (concat ((fun p => [fst p; snd p; 32]) <$> ps) ++ fst q :: snd q :: rest) caps) = Some x.
Proof.
  intros Hps Hq Hk. revert prev. induction Hps as [|p ps Hp Hps IH]; intros prev.
  - cbn [length upto fmap list_fmap concat app]. change (rmatch MD_BYTE k (Place prev (fst q :: snd q :: rest) caps) = Some x).
    by rewrite rmatch_md_byte.
  - cbn [length upto fmap list_fmap concat app]. unfold opt.
    change (rmatch (Seq ?a ?b) k ?s) with (rmatch a (rmatch b k) s). cbn [rmatch].
    change (match rmatch MD_BYTE (rmatch (plus sp) (rmatch (upto (length ps) (Seq MD_BYTE (plus sp))) (rmatch MD_BYTE k)))
      (Place prev (fst p :: snd p :: 32 :: concat ((fun p => [fst p; snd p; 32]) <$> ps) ++ fst q :: snd q :: rest) caps)
      with Some x => Some x | None => rmatch MD_BYTE k
      (Place prev (fst p :: snd p :: 32 :: concat ((fun p => [fst p; snd p; 32]) <$> ps) ++ fst q :: snd q :: rest) caps) end = Some x).
    rewrite rmatch_md_byte by done.
    set (R := concat _ ++ _).
    assert (HR : match R with [] => True | c :: _ => is_space_code c = false end).
    { unfold R. destruct ps as [|p' ps]; cbn; [by destruct (hex_pair_codes q Hq) as (_ & _ & ? & _)|].
      apply Forall_cons in Hps as [Hp' _]. by destruct (hex_pair_codes p' Hp') as (_ & _ & ? & _). }
    pose proof (rmatch_plus_all is_space_code (rmatch (upto (length ps) (Seq MD_BYTE (plus sp))) (rmatch MD_BYTE k))
      (Some (snd p)) 32 [] R caps x eq_refl (Forall_nil_2 _) HR (IH (Some 32))) as Hplus.
    change (32 :: [] ++ R) with (32 :: R) in Hplus. change (plus (Chr is_space_code)) with (plus sp) in Hplus.
    by rewrite Hplus.
Qed.

(** The eight digits and the colon. *)
Lemma rmatch_addr {A} (k : place -> option A) ds prev rest caps :
  hex_text ds -> rmatch (rep (length ds) hexd) k (Place prev (ds ++ rest) caps) = k (Place (after ds prev) rest caps).
Proof.
  intros Hds. revert prev. induction Hds as [|d ds (Hd & _) Hds IH]; intros prev; [done|].
  change (rep (length (d :: ds)) hexd) with (Seq hexd (rep (length ds) hexd)). cbn [rmatch app hexd p_rest p_caps].
  rewrite Hd, IH. by rewrite after_cons.
Qed.

Lemma take_part {B} (a b : list B) : take (length (a ++ b) - length b) (a ++ b) = a.
Proof. rewrite length_app. replace (length a + length b - length b)%nat with (length a) by lia. apply take_app_length. Qed.

(** The text of the bytes of a full row. *)
Definition row_text (ps : list (Z * Z)) (q : Z * Z) : list Z :=
  concat ((fun p => [fst p; snd p; 32]) <$> ps) ++ [fst q; snd q].

Lemma row_text_head ps q rest :
  Forall hex_pair ps -> hex_pair q ->
  match row_text ps q ++ rest with [] => True | c :: _ => is_space_code c = false end.
Proof.
  intros Hps Hq. destruct ps as [|p' ps]; cbn; [by destruct (hex_pair_codes q Hq) as (_ & _ & ? & _)|].
  apply Forall_cons in Hps as [Hp' _]. by destruct (hex_pair_codes p' Hp') as (_ & _ & ? & _).
Qed.

Lemma md_line_match ds ps q rest :
  length ds = 8%nat -> hex_text ds -> length ps = 15%nat -> Forall hex_pair ps -> hex_pair q ->
  exists m, re_match MD_LINE_RE (ds ++ 58 :: 32 :: row_text ps q ++ rest) = Some m /\
    group 1 m = Some ds /\ group 2 m = Some (row_text ps q).
Proof.
  intros H8 Hds H15 Hps Hq. set (bytes_re := Seq (upto 15 (Seq MD_BYTE (plus sp))) MD_BYTE).
  exists (Place (Some (snd q)) rest [(2%nat, row_text ps q); (1%nat, ds)]). split; [|done].
  unfold re_match, MD_LINE_RE, seqs. cbn [foldr]. fold bytes_re.
  change (rmatch (Seq bol ?r) ?k (Place None ?t ?c)) with (rmatch r k (Place None t c)).
  change (rmatch (Seq (Group 1 ?a) ?b) ?k ?s) with (rmatch a (fun s' => rmatch b k (capture 1 s s')) s).
  rewrite <- H8, rmatch_addr by done. unfold capture at 1. cbn [p_rest p_prev p_caps].
  rewrite (take_part ds). set (caps := [(1%nat, ds)]).
  change (rmatch (Seq (chr 58) ?r) ?k (Place ?p (58 :: ?t) ?c)) with (rmatch r k (Place (Some 58) t c)).
  set (from := Place (Some 32) (row_text ps q ++ rest) caps).
  assert (Hb : rmatch bytes_re (fun s' => Some (capture 2 from s')) from =
    Some (Place (Some (snd q)) rest [(2%nat, row_text ps q); (1%nat, ds)])).
  { unfold from at 2, row_text, bytes_re. rewrite <- H15, <- app_assoc. apply rmatch_md_bytes; [done..|].
    unfold capture, from. cbn [p_rest p_prev p_caps]. by rewrite (take_part (row_text ps q)). }
  pose proof (rmatch_plus_all is_space_code (fun s => rmatch (Seq (Group 2 bytes_re) Eps) Some s)
    (Some 58) 32 [] (row_text ps q ++ rest) caps _ eq_refl (Forall_nil_2 _) (row_text_head ps q rest Hps Hq) Hb) as Hplus.
  exact Hplus.
Qed.

Lemma split_ws_row ps q :
  Forall hex_pair ps -> hex_pair q ->
  split_ws (row_text ps q) [] = ((fun p => [fst p; snd p]) <$> ps) ++ [[fst q; snd q]].
Proof.
  intros Hps Hq. unfold row_text. induction Hps as [|p ps Hp Hps IH].
  - destruct (hex_pair_codes q Hq) as (_ & _ & H1 & H2). cbn. rewrite H1, H2. done.
  - destruct (hex_pair_codes p Hp) as (_ & _ & H1 & H2). cbn. rewrite H1. cbn. rewrite H2. cbn. by rewrite <- IH.
Qed.

Lemma strip_keeps c l d t :
  is_space_code c = false -> is_space_code d = false -> exists x, strip (c :: l ++ [d] ++ t) = c :: l ++ [d] ++ x.
Proof.
  intros Hc Hd. unfold strip. cbn [lstrip]. rewrite Hc. unfold rstrip.
  replace (rev (c :: l ++ [d] ++ t)) with (rev t ++ d :: rev (c :: l)).
  2: { change (c :: l ++ [d] ++ t) with ((c :: l) ++ [d] ++ t). by rewrite !rev_app_distr, <- app_assoc. }
  rewrite lstrip_app_gen. destruct (lstrip (rev t)) as [|y ys].
  - exists []. cbn [lstrip]. rewrite Hd. cbn [rev]. by rewrite rev_app_distr, rev_involutive.
  - exists (rev (y :: ys)). rewrite rev_app_distr. cbn [rev]. rewrite rev_app_distr, rev_involutive. cbn. by rewrite <- app_assoc.
Qed.

(** The digits of bytes. *)
Lemma hex2_pair b : is_byte b -> exists p, hex2 b = [fst p; snd p] /\ hex_pair p /\ digits_value 16 [fst p; snd p] = b.
Proof.
  intros Hb. destruct (hex_0x_spec 2 b) as (Ht & Hd & Hl); [lia|unfold is_byte in Hb; cbn; lia|].
  unfold hex2. destruct (codes (hex_0x 2 b)) as [|x [|y [|z l]]]; try done. by exists (x, y).
Qed.

Lemma md_row_pairs data b :
  is_bytes data -> is_byte b ->
  exists ps q, length ps = length data /\ Forall hex_pair ps /\ hex_pair q /\
    concat ((fun b => 32 :: hex2 b) <$> data ++ [b]) = 32 :: row_text ps q /\
    digits_value 16 <$> (((fun p => [fst p; snd p]) <$> ps) ++ [[fst q; snd q]]) = data ++ [b].
Proof.
  intros Hd Hb. destruct (hex2_pair b Hb) as (q & Hq & Hhq & Hvq).
  induction Hd as [|x data Hx Hd IH].
  - exists [], q. split_and!; try done.
    + change (concat [32 :: hex2 b] = 32 :: row_text [] q). by rewrite Hq.
    + change ([digits_value 16 [fst q; snd q]] = [b]). by rewrite Hvq.
  - destruct IH as (ps & q' & Hl & Hps & Hq' & Hc & Hv). destruct (hex2_pair x Hx) as (p & Hp & Hhp & Hvp).
    exists (p :: ps), q'. split_and!; [cbn; by rewrite Hl|by constructor|done| |].
    + change ((32 :: hex2 x) ++ concat ((fun b => 32 :: hex2 b) <$> data ++ [b]) = 32 :: row_text (p :: ps) q').
      by rewrite Hc, Hp.
    + change (digits_value 16 [fst p; snd p] :: (digits_value 16 <$> ((fun p => [fst p; snd p]) <$> ps) ++ [[fst q'; snd q']])
        = x :: data ++ [b]). by rewrite Hvp, Hv.
Qed.

(** A full row, whatever the column of characters holds, is read back. *)
Lemma parse_md_full_row addr data t :
  0 <= addr < 2 ^ 32 -> is_bytes data -> length data = 16%nat ->
  parse_md_line (md_row addr data ++ t) = Some (addr, data).
Proof.
  intros Ha Hd Hl. destruct (hex_0x_spec 8 addr) as (Ht & Hv & H8); [lia|cbn; lia|].
  destruct data as [|b data _] using rev_ind; [done|]. apply Forall_app in Hd as [Hd Hb]. apply Forall_cons in Hb as [Hb _].
  destruct (md_row_pairs data b Hd Hb) as (ps & q & Hlp & Hps & Hq & Hc & Hval).
  unfold md_row. rewrite Hc. set (ds := codes (hex_0x 8 addr)) in *.
  destruct ds as [|d0 ds'] eqn:Eds; [done|]. apply Forall_cons in Ht as Hd0. destruct Hd0 as [(_ & Hd0 & _) _].
  destruct (hex_pair_codes q Hq) as (_ & _ & Hq1 & Hq2).
  destruct (strip_keeps d0 (ds' ++ 58 :: 32 :: concat ((fun p => [fst p; snd p; 32]) <$> ps) ++ [fst q]) (snd q) t Hd0 Hq2) as (x & Hx).
  assert (Hs : strip (((d0 :: ds') ++ [58] ++ 32 :: row_text ps q) ++ t) = (d0 :: ds') ++ 58 :: 32 :: row_text ps q ++ x).
  { unfold row_text. etrans; [etrans; [|exact Hx]|]; [f_equal|]; applist. }
  unfold parse_md_line. rewrite Hs.
  destruct (md_line_match (d0 :: ds') ps q x) as (m & -> & Hg1 & Hg2); try done.
  { rewrite Hlp. rewrite length_app in Hl. cbn in Hl. lia. }
  unfold group_hex. rewrite Hg1, Hg2. cbn [default id]. rewrite Hv. f_equal. f_equal.
  replace (strip (row_text ps q)) with (row_text ps q); [by rewrite split_ws_row|].
  symmetry. unfold row_text. destruct ps as [|p ps].
  - cbn. apply (strip_between (fst q) [] (snd q)); done.
  - apply Forall_cons in Hps as [Hp _]. destruct (hex_pair_codes p Hp) as (_ & _ & Hp1 & _).
    cbn [fmap list_fmap concat app].
    replace (concat _ ++ [fst q; snd q]) with ((concat ((fun p => [fst p; snd p; 32]) <$> ps) ++ [fst q]) ++ [snd q])
      by (by rewrite <- app_assoc).
    apply (strip_between (fst p) (snd p :: 32 :: concat ((fun p => [fst p; snd p; 32]) <$> ps) ++ [fst q]) (snd q)); done.
Qed.

(** ** Putting the rows together *)

Definition before (a b : Z * bytes) : Prop := fst a < fst b.

#[export] Instance before_trans : Transitive before.
Proof. unfold before. intros a b c. lia. Qed.

Lemma insert_entry_perm e l : insert_entry e l ≡ₚ e :: l.
Proof.
  induction l as [|x l IH]; cbn; [done|]. destruct (_ <=? _); [|done]. rewrite IH. apply Permutation_swap.
Qed.

Lemma insert_entry_sorted e l :
  StronglySorted before l -> fst e ∉ (fst <$> l) -> StronglySorted before (insert_entry e l).
Proof.
  induction 1 as [|x l Hs IH Hx]; cbn; intros Hn; [by repeat constructor|].
  apply not_elem_of_cons in Hn as [Hne Hn]. destruct (fst x <=? fst e) eqn:E; b2p.
  - constructor; [by apply IH|]. rewrite insert_entry_perm. constructor; [|done]. unfold before. lia.
  - constructor; [by constructor|]. constructor; [unfold before; lia|].
    eapply Forall_impl; [exact Hx|]. unfold before. intros y Hy. lia.
Qed.

Lemma sort_entries_spec l : NoDup (fst <$> l) -> StronglySorted before (sort_entries l) /\ sort_entries l ≡ₚ l.
Proof.
  unfold sort_entries. intros Hn.
  assert (H : forall acc, NoDup (fst <$> l ++ acc) -> StronglySorted before acc ->
    StronglySorted before (foldl (fun a e => insert_entry e a) acc l) /\ foldl (fun a e => insert_entry e a) acc l ≡ₚ l ++ acc).
  2: { destruct (H []) as [H1 H2]; [by rewrite app_nil_r|constructor|]. rewrite app_nil_r in H2. done. }
  clear Hn. induction l as [|e l IH]; intros acc Hn Hs; cbn; [done|].
  cbn in Hn. apply NoDup_cons in Hn as [Hne Hn]. rewrite fmap_app, elem_of_app in Hne.
  destruct (IH (insert_entry e acc)) as [H1 H2].
  - rewrite insert_entry_perm, fmap_app. cbn. rewrite <- Permutation_middle. apply NoDup_cons. rewrite <- fmap_app. split; [|done].
    rewrite fmap_app, elem_of_app. tauto.
  - apply insert_entry_sorted; [done|tauto].
  - split; [done|]. by rewrite H2, insert_entry_perm, Permutation_middle.
Qed.

Lemma sort_entries_eq l e : l ≡ₚ e -> StronglySorted before e -> sort_entries l = e.
Proof.
  intros Hp He.
  assert (Hn : NoDup (fst <$> l)).
  { rewrite Hp. clear Hp. induction He as [|x e He IH Hx]; cbn; [constructor|]. apply NoDup_cons. split; [|done].
    intros (y & Hy & Hin)%list_elem_of_fmap. rewrite Forall_forall in Hx. specialize (Hx y Hin). unfold before in Hx. lia. }
  destruct (sort_entries_spec l Hn) as [Hs Hp']. apply (StronglySorted_unique_strong before); [|done|done|by rewrite Hp'].
  unfold before. intros. lia.
Qed.

Lemma md_entries_sorted base ps k :
  StronglySorted before (imap (fun i p => (base + 16 * Z.of_nat (k + i), p)) ps).
Proof.
  revert k. induction ps as [|p ps IH]; intros k; cbn; [constructor|]. constructor.
  - erewrite imap_ext; [apply (IH (S k))|]. intros i x _. cbn. do 3 f_equal. lia.
  - apply Forall_lookup. intros i x. rewrite list_lookup_imap. intros (y & Hy & Hx)%fmap_Some.
    unfold before. subst x. cbn. lia.
Qed.

Lemma fold_rows base ps pre k :
  Forall (fun p => len p = 16) ps -> len pre = 16 * Z.of_nat k ->
  foldl (fun buf e => splice buf (fst e - base) (snd e)) (pre ++ brep (16 * Z.of_nat (length ps)) 0)
    (imap (fun i p => (base + 16 * Z.of_nat (k + i), p)) ps) = pre ++ concat ps.
Proof.
  intros Hps. revert pre k. induction Hps as [|p ps Hp Hps IH]; intros pre k Hd; cbn [imap foldl length concat];
    [change (16 * Z.of_nat 0) with 0; done|].
  cbn [fst snd]. rewrite Nat.add_0_r. replace (base + 16 * Z.of_nat k - base) with (len pre) by lia.
  replace (brep (16 * Z.of_nat (S (length ps))) 0) with (brep 16 0 ++ brep (16 * Z.of_nat (length ps)) 0).
  2: { unfold brep. rewrite <- replicate_add. f_equal. lia. }
  rewrite splice_parts by (by rewrite Hp).
  rewrite (app_assoc pre p).
  erewrite imap_ext; [rewrite (IH (pre ++ p) (S k)); [by rewrite <- app_assoc|rewrite len_app; lia]|].
  intros i x _. cbn. do 3 f_equal. lia.
Qed.

(** The rows of the dump, in whatever order they were printed. *)
Lemma parse_rows base data text :
  len data mod 16 = 0 -> omap parse_md_line (splitlines text) ≡ₚ md_entries base data -> parse_md_output text = data.
Proof.
  intros Hm Hp. unfold parse_md_output.
  assert (Hsort : StronglySorted before (md_entries base data)) by (apply (md_entries_sorted base (pieces 16 data) 0)).
  rewrite (sort_entries_eq _ _ Hp Hsort).
  assert (Hk : len data = Z.of_nat (Z.to_nat (len data / 16)) * 16).
  { pose proof (len_nonneg data). pose proof (Z.div_mod (len data) 16). rewrite Z2Nat.id; [lia|]. apply Z.div_pos; lia. }
  pose proof (pieces_full 16 data _ ltac:(lia) Hk) as Hfull.
  pose proof (pieces_concat 16 data ltac:(lia)) as Hcat.
  unfold md_entries. destruct (pieces 16 data) as [|p ps] eqn:Ep; [by rewrite <- Hcat|].
  cbn [imap]. change (base + 16 * Z.of_nat 0) with (base + 0). rewrite Z.add_0_r.
  assert (Hlast : exists q, last ((base, p) :: imap ((fun i p => (base + 16 * Z.of_nat i, p)) ∘ S) ps)
    = Some (base + 16 * Z.of_nat (length ps), q) /\ len q = 16).
  { rewrite last_lookup. cbn [length pred]. rewrite length_imap. destruct ps as [|p' ps'] eqn:Eps.
    - exists p. cbn. rewrite Z.add_0_r. apply Forall_cons in Hfull as [? _]. done.
    - rewrite <- Eps in *. destruct (ps !! (length ps - 1)%nat) as [q|] eqn:El.
      2: { apply lookup_ge_None in El. subst ps. cbn in El. lia. }
      exists q. replace (length ps) with (S (length ps - 1)) at 1 by (subst ps; cbn; lia).
      change (((base, p) :: ?l) !! S ?i) with (l !! i). rewrite list_lookup_imap, El. cbn. split; [do 3 f_equal; subst ps; cbn; lia|].
      apply Forall_cons in Hfull as [_ Hf]. rewrite Forall_forall in Hf. apply Hf. by eapply list_elem_of_lookup_2. }
  destruct Hlast as (q & -> & Hq). rewrite Hq.
  pose proof (fold_rows base (p :: ps) [] 0 Hfull eq_refl) as Hfold. rewrite Hcat in Hfold. cbn [app] in Hfold.
  etrans; [|exact Hfold]. f_equal.
  - f_equal. cbn [length]. lia.
  - cbn [imap]. f_equal. f_equal. change (0 + 0)%nat with 0%nat. lia.
Qed.

Definition one_line (l : list Z) : Prop := Forall (fun c => is_line_end c = false) l.

Lemma splitlines_go_line l cur rest :
  one_line l -> splitlines_go (l ++ 13 :: 10 :: rest) cur = (cur ++ l) :: splitlines rest.
Proof.
  intros Hl. revert cur. induction Hl as [|c l Hc Hl IH]; intros cur; cbn [app splitlines_go].
  - by rewrite app_nil_r.
  - rewrite Hc, IH. by rewrite <- app_assoc.
Qed.

Lemma splitlines_go_last l cur : one_line l -> cur ++ l <> [] -> splitlines_go l cur = [cur ++ l].
Proof.
  intros Hl. revert cur. induction Hl as [|c l Hc Hl IH]; intros cur Hne; cbn [splitlines_go].
  - rewrite app_nil_r in *. by destruct cur.
  - rewrite Hc, IH; rewrite <- app_assoc; [done|]. by destruct cur.
Qed.

(** Lines ended by CR LF, and a prompt without an end. *)
Lemma splitlines_lines ls p :
  Forall one_line ls -> one_line p ->
  splitlines (concat ((fun l => l ++ [13; 10]) <$> ls) ++ p) = ls ++ match p with [] => [] | _ => [p] end.
Proof.
  intros Hls Hp. unfold splitlines. induction Hls as [|l ls Hl Hls IH]; cbn [fmap list_fmap concat app].
  - destruct p as [|c p]; [done|]. by apply (splitlines_go_last (c :: p) []).
  - rewrite <- !app_assoc. cbn [app]. rewrite splitlines_go_line by done. cbn [app]. f_equal. exact IH.
Qed.

Lemma hex_text_line l : hex_text l -> one_line l.
Proof.
  intros Hl. eapply Forall_impl; [exact Hl|]. intros c (_ & Hs & _). revert Hs.
  unfold is_space_code, is_line_end. intros [[_ H1]%orb_false_iff H2]%orb_false_iff.
  rewrite andb_false_iff in H1, H2. apply orb_false_iff. rewrite !andb_false_iff. b2p. lia.
Qed.

Lemma brep_line n c : is_line_end c = false -> one_line (brep n c).
Proof. intros. by apply Forall_replicate. Qed.

Lemma md_line_one addr data : 0 <= addr < 2 ^ 32 -> is_bytes data -> one_line (md_line addr data).
Proof.
  intros Ha Hd. unfold md_line, md_row. repeat (apply Forall_app; split).
  - apply hex_text_line. apply (hex_0x_spec 8); [lia|cbn; lia].
  - by repeat constructor.
  - induction Hd as [|b data Hb Hd IH]; [constructor|]. cbn. constructor; [done|]. apply Forall_app. split; [|exact IH].
    apply hex_text_line. apply (hex_0x_spec 2); [lia|unfold is_byte in Hb; cbn; lia].
  - by apply brep_line.
  - apply Forall_fmap, Forall_true. intros b. cbn. unfold printable, is_line_end.
    destruct ((32 <=? b) && (b <=? 126)) eqn:E; [|done]. b2p.
    destruct (_ || _) eqn:E'; [|done]. apply orb_true_iff in E' as [E'|E']; b2p; lia.
Qed.

(** The rows parse back to their entries. *)
Lemma parse_md_entries base data :
  0 <= base -> base + len data <= 2 ^ 32 -> len data mod 16 = 0 -> is_bytes data ->
  Forall (fun e => 0 <= fst e < 2 ^ 32 /\ is_bytes (snd e) /\ parse_md_line (md_line (fst e) (snd e)) = Some e) (md_entries base data).
Proof.
  intros Hb Hl Hm Hd. apply Forall_lookup. intros i [a p]. unfold md_entries. rewrite list_lookup_imap.
  intros (p' & Hp & [= -> ->])%fmap_Some. cbn [fst snd].
  destruct (pieces_len 16 data i p' ltac:(lia) Hp) as [Hlen Hpos].
  destruct (pieces_lookup 16 data i p' ltac:(lia) Hp) as [_ Hi].
  pose proof (pieces_is_bytes 16 data Hd) as Hby. rewrite Forall_lookup in Hby. specialize (Hby i p' Hp).
  pose proof (len_nonneg data). pose proof (Z.div_mod (len data) 16 ltac:(lia)) as Hdm. rewrite Hm in Hdm.
  assert (H16 : len p' = 16) by lia. split_and!; [lia|lia|done|].
  unfold md_line. apply parse_md_full_row; [lia|done|]. unfold len in H16. lia.
Qed.

(** C30. [parse_md_output] reads back what [md.b] prints: whatever other lines
    (the echo, messages, the prompt) lie between the rows, and in whatever
    order the rows arrive, the result is exactly the memory that was printed,
    for any bytes and any characters in the text column, as long as the rows
    are full. *)
Theorem md_output_roundtrip base data lines other prompt :
  0 <= base -> base + len data <= 2 ^ 32 -> len data mod 16 = 0 -> is_bytes data ->
  lines ≡ₚ ((fun e => md_line (fst e) (snd e)) <$> md_entries base data) ++ other ->
  Forall (fun l => one_line l /\ parse_md_line l = None) (prompt :: other) ->
  parse_md_output (concat ((fun l => l ++ [13; 10]) <$> lines) ++ prompt) = data.
Proof.
  intros Hb Hl Hm Hd Hlines [[Hpl Hpn] Hother]%Forall_cons.
  pose proof (parse_md_entries base data Hb Hl Hm Hd) as He.
  assert (Hone : Forall one_line lines).
  { rewrite Hlines. apply Forall_app. split; [|by eapply Forall_impl; [exact Hother|]; intros l []].
    apply Forall_fmap. eapply Forall_impl; [exact He|]. intros e (Ha & Hby & _). by apply md_line_one. }
  apply (parse_rows base); [done|]. rewrite splitlines_lines by done.
  rewrite omap_app. replace (omap parse_md_line (match prompt with [] => [] | _ => [prompt] end)) with (@nil (Z * bytes)).
  2: { destruct prompt; [done|]. change (omap parse_md_line [?l]) with (match parse_md_line l with Some x => [x] | None => [] end).
       by rewrite Hpn. }
  rewrite app_nil_r, Hlines, omap_app.
  replace (omap parse_md_line other) with (@nil (Z * bytes)).
  2: { clear -Hother. induction Hother as [|l o [_ Hl] Ho IH]; [done|]. cbn. by rewrite Hl, <- IH. }
  rewrite app_nil_r. clear -He. induction He as [|e es (_ & _ & Hp) He IH]; [done|]. cbn. rewrite Hp. by rewrite IH.
Qed.

(** Two rows printed out of order between an echo and a prompt. *)
Theorem md_output_roundtrip_witness :
  let data := (fun i => (i * 7) mod 256) <$> range 32 in
  parse_md_output (concat ((fun l => l ++ [13; 10]) <$> [codes "md.b 0x82000000 0x20";
    md_line 0x82000010 (slice data 16 32); md_line 0x82000000 (slice data 0 16)]) ++ codes "hisilicon # ") = data.
Proof.
  intros data.
  apply (md_output_roundtrip 0x82000000 data _ [codes "md.b 0x82000000 0x20"] (codes "hisilicon # "));
    [lia|vm_compute; discriminate|reflexivity|apply (bool_decide_eq_true_1 _); vm_compute; reflexivity| |].
  - change ((fun e => md_line (fst e) (snd e)) <$> md_entries 0x82000000 data) with
      [md_line 0x82000000 (slice data 0 16); md_line 0x82000010 (slice data 16 32)].
    rewrite (Permutation_cons_append _ (codes "md.b 0x82000000 0x20")). cbn [app]. apply Permutation_swap.
  - repeat constructor.
Defined.

(** A row with fewer than sixteen bytes runs into the column of characters
    when that looks like hexadecimal digits: the two bytes "ab" come back as
    three. *)
Theorem md_short_row :
  parse_md_line (md_line 0x82000000 [97; 98]) = Some (0x82000000, [97; 98; 0xAB]).
Proof. vm_compute. reflexivity. Qed.

(** ** The console *)

Record Console := mkConsole {
  u_flash : bytes; u_crc : bool;          (* the chip, and whether there is a crc32 command *)
  u_probed : bool; u_addr : Z; u_ram : bytes;  (* the copy [sf read] made, and where *)
  u_rx : bytes; u_clock : Z
}.
Definition set_u_rx (rx : bytes) (d : Console) : Console :=
  mkConsole (u_flash d) (u_crc d) (u_probed d) (u_addr d) (u_ram d) rx (u_clock d).

Definition PROMPT : list Z := codes "hisilicon # ".
Definition word_arg (w : list Z) : Z := digits_value 16 (removeprefix (codes "0x") w).
Definition ram_at (d : Console) (a n : Z) : bytes := slice (u_ram d) (a - u_addr d) (a - u_addr d + n).

Definition crc_line (a n crc : Z) : list Z :=
  codes "CRC32 for " ++ codes (hex_0x 8 a) ++ codes " ... " ++ codes (hex_0x 8 ((a + n - 1) mod 2 ^ 32)) ++
  codes " ==> " ++ codes (hex_0x 8 crc) ++ [13; 10].
Definition unknown_line (c : list Z) : list Z := codes "Unknown command " ++ [39] ++ c ++ [39] ++ codes " - try help" ++ [13; 10].

(** What a command prints, and the state after it. *)
Definition exec (cmd : list Z) (d : Console) : list Z * Console :=
  match split_ws cmd [] with
  | [c; a; n] =>
      if beq c (codes "sf") && beq a (codes "probe") then
        (codes "16384 KiB hi_sfc at 0:0 is now current device" ++ [13; 10],
         mkConsole (u_flash d) (u_crc d) true (u_addr d) (u_ram d) (u_rx d) (u_clock d))
      else if beq c (codes "md.b") then (md_text (word_arg a) (ram_at d (word_arg a) (word_arg n)), d)
      else if beq c (codes "crc32") && u_crc d then
        (crc_line (word_arg a) (word_arg n) (crc32 (ram_at d (word_arg a) (word_arg n))), d)
      else (unknown_line c, d)
  | [c; r; a; o; n] =>
      if beq c (codes "sf") && beq r (codes "read") then
        if u_probed d then
          (codes "Read: OK" ++ [13; 10],
           mkConsole (u_flash d) (u_crc d) true (word_arg a) (slice (u_flash d) (word_arg o) (word_arg o + word_arg n))
             (u_rx d) (u_clock d))
        else (codes "No SPI flash selected. Please run sf probe" ++ [13; 10], d)
      else (unknown_line c, d)
  | _ => (unknown_line [], d)
  end.

(** A line that ends in CR is echoed and executed; the prompt follows. *)
Definition Console_write (data : bytes) (d : Console) : res unit * Console :=
  if bool_decide (last data = Some 13) then
    let cmd := but_last 1 data in
    let (out, d') := exec cmd d in
    (Ok tt, set_u_rx (u_rx d' ++ cmd ++ [13; 10] ++ out ++ PROMPT) d')
  else (Ok tt, d).

Definition Console_read (size : Z) (tmo : option Z) (d : Console) : res bytes * Console :=
  if beq (u_rx d) [] then
    (Raise TransportTimeout, mkConsole (u_flash d) (u_crc d) (u_probed d) (u_addr d) (u_ram d) [] (u_clock d + default 1000 tmo))
  else (Ok (slice (u_rx d) 0 size), set_u_rx (drop (Z.to_nat size) (u_rx d)) d).

#[export] Instance Console_Transport : Transport Console := {|
  t_read := Console_read;
  t_write := Console_write;
  t_flush_input d := (Ok tt, set_u_rx [] d);
  t_flush_output d := (Ok tt, d);
  t_bytes_waiting d := (Ok (len (u_rx d)), d);
  t_unread b d := (Ok tt, set_u_rx (b ++ u_rx d) d);
  t_set_baudrate _ d := (Ok tt, d);
  t_monotonic d := (u_clock d, d);
  t_sleep t d := mkConsole (u_flash d) (u_crc d) (u_probed d) (u_addr d) (u_ram d) (u_rx d) (u_clock d + t)
|}.

(** *** Texts without a prompt in them *)

Fixpoint calm (l : list Z) : bool :=
  match l with
  | a :: ((b :: _) as l') => negb ((a =? 35) && (b =? 32)) && calm l'
  | _ => true
  end.

Lemma calm_cons a l : calm (a :: l) = negb ((a =? 35) && bool_decide (head l = Some 32)) && calm l.
Proof.
  destruct l as [|b l]; cbn [calm head]; [by rewrite bool_decide_eq_false_2, andb_false_r by done|].
  do 3 f_equal. destruct (b =? 32) eqn:E; b2p; [subst; by rewrite bool_decide_eq_true_2|].
  symmetry. apply bool_decide_eq_false_2. congruence.
Qed.

Lemma calm_app a b :
  calm (a ++ b) = calm a && calm b && negb (bool_decide (last a = Some 35) && bool_decide (head b = Some 32)).
Proof.
  induction a as [|x a IH].
  - cbn [app last]. rewrite (bool_decide_eq_false_2 (None = Some 35)) by done. cbn. by rewrite andb_true_r.
  - cbn [app]. rewrite !calm_cons, IH. destruct a as [|y a].
    + cbn. rewrite (bool_decide_eq_false_2 (None = Some 32)) by done. rewrite andb_false_r. cbn.
      replace (bool_decide (Some x = Some 35)) with (x =? 35); [by destruct (calm b), (x =? 35), (bool_decide (head b = Some 32))|].
      destruct (x =? 35) eqn:E; b2p; symmetry; [subst; by apply bool_decide_eq_true_2|apply bool_decide_eq_false_2; congruence].
    + cbn [app head]. replace (last (x :: y :: a)) with (last (y :: a)) by done.
      by rewrite <- !andb_assoc.
Qed.

(** A calm beginning. *)
Lemma calm_prefix a b : calm (a ++ b) = true -> calm a = true.
Proof. rewrite calm_app. intros [[? _]%andb_true_iff _]%andb_true_iff. done. Qed.

Lemma calm_contains l : calm l = true -> contains (codes "# ") l = false.
Proof.
  intros Hc. destruct (contains _ l) eqn:E; [|done]. apply contains_spec in E as (a & b & ->).
  rewrite calm_app in Hc. apply andb_true_iff in Hc as [[_ Hc]%andb_true_iff _]. done.
Qed.

Lemma calm_no_hash l : Forall (fun c => c <> 35) l -> calm l = true.
Proof.
  induction 1 as [|c l Hc Hl IH]; [done|]. rewrite calm_cons, IH. by replace (c =? 35) with false by (symmetry; by apply Z.eqb_neq).
Qed.

(** *** A command and its answer *)

Definition ascii (l : list Z) : Prop := Forall (fun c => c < 128) l.

Lemma decode_ascii l : ascii l -> decode_replace l = l.
Proof.
  induction 1 as [|c l Hc Hl IH]; [done|]. unfold decode_replace in *. cbn. rewrite IH.
  by replace (c <? 128) with true by (symmetry; by apply Z.ltb_lt).
Qed.

Lemma last_n_suffix {B} k (l : list B) : exists a, l = a ++ last_n k l.
Proof. exists (take (length l - k) l). unfold last_n. by rewrite take_drop. Qed.

Lemma ascii_last_n k l : ascii l -> ascii (last_n k l).
Proof. intros Hl. destruct (last_n_suffix k l) as (a & E). rewrite E in Hl. by apply Forall_app in Hl as [_ ?]. Qed.

Lemma contains_last_n p k l : contains p l = false -> contains p (last_n k l) = false.
Proof.
  intros Hn. destruct (contains p (last_n k l)) eqn:E; [|done]. apply contains_spec in E as (a & b & E).
  destruct (last_n_suffix k l) as (x & Hx). rewrite E in Hx.
  assert (contains p l = true); [|congruence]. apply contains_spec. exists (x ++ a), b. rewrite Hx. by rewrite <- app_assoc.
Qed.

Lemma last_n_prompt body : contains (codes "# ") (last_n 64 (body ++ codes "# ")) = true.
Proof.
  apply contains_spec. unfold last_n. rewrite length_app. change (length (codes "# ")) with 2%nat.
  rewrite drop_app. replace (length body + 2 - 64 - length body)%nat with 0%nat by lia. rewrite drop_0.
  by exists (drop (length body + 2 - 64) body), [].
Qed.

(** The prompt is there only once all of the answer is. *)
Lemma prompt_last body buf r :
  buf ++ r = body ++ codes "# " -> r <> [] -> calm (body ++ [35]) = true -> contains (codes "# ") buf = false.
Proof.
  intros E Hr Hc. apply calm_contains. destruct r as [|c r _] using rev_ind; [done|].
  change (codes "# ") with ([35] ++ [32]) in E. rewrite !app_assoc in E. apply app_inj_tail in E as [E _].
  rewrite <- E in Hc. by apply calm_prefix in Hc.
Qed.

Definition answer (cmd out : list Z) : list Z := cmd ++ [13; 10] ++ out ++ PROMPT.

(** A device that takes a line that ends in CR, executes it and prints its
    echo, what the command prints and the prompt; [ld_rx] is what it has
    printed and was not read yet. *)
Class LineDevice (T : Type) `{Transport T} := {
  ld_rx : T -> bytes; ld_set_rx : bytes -> T -> T; ld_clock : T -> Z; ld_exec : list Z -> T -> list Z * T;
  ld_rx_set b d : ld_rx (ld_set_rx b d) = b;
  ld_clock_set b d : ld_clock (ld_set_rx b d) = ld_clock d;
  ld_set_set b b' d : ld_set_rx b (ld_set_rx b' d) = ld_set_rx b d;
  ld_set_id d : ld_rx d = [] -> ld_set_rx [] d = d;
  ld_exec_rx cmd d : ld_rx (snd (ld_exec cmd d)) = ld_rx d;
  ld_read size tmo d : ld_rx d <> [] -> t_read size tmo d = (Ok (slice (ld_rx d) 0 size), ld_set_rx (drop (Z.to_nat size) (ld_rx d)) d);
  ld_write cmd d :
    t_write (cmd ++ [13]) d = let (out, d') := ld_exec cmd d in (Ok tt, ld_set_rx (ld_rx d' ++ answer cmd out) d');
  ld_waiting d : t_bytes_waiting d = (Ok (len (ld_rx d)), d);
  ld_monotonic d : t_monotonic d = (ld_clock d, d)
}.

Section Collect.
Context {T Ob : Type} `{LineDevice T}.
#[local] Arguments contains : simpl never.
#[local] Arguments decode_replace : simpl never.

Lemma console_loop fuel start tmo idle buf (d : T) (o : Ob) lg body :
  ld_rx d <> [] -> buf ++ ld_rx d = body ++ codes "# " -> calm (body ++ [35]) = true -> ascii (body ++ codes "# ") ->
  ld_clock d - start < tmo -> (length (ld_rx d) < fuel)%nat ->
  exists lg', while fuel (send_body start tmo (codes "# ")) (buf, idle) (World d o lg)
    = (Ok (Rtn (body ++ codes "# ")), World (ld_set_rx [] d) o lg').
Proof.
  intros Hr E Hc Ha Ht. revert d Hr buf idle lg E Ht. induction fuel as [|fuel IH]; intros d Hr buf idle lg E Ht Hf; [lia|].
  cbn [while]. unfold send_body at 1, bind, try_except, monotonic, read. cbn. rewrite ld_monotonic. cbn.
  replace (ld_clock d - start <? tmo) with true by (symmetry; apply Z.ltb_lt; lia). cbn. rewrite ld_read by done.
  change (codes "# ") with [35; 32] at 1.
  destruct (ld_rx d) as [|x xs] eqn:Erx; [done|]. set (got := slice (x :: xs) 0 4096).
  assert (Hgot : got ++ drop 4096 (x :: xs) = x :: xs) by (unfold got, slice; rewrite drop_0; apply (take_drop 4096)).
  assert (Hne : beq got [] = false) by done. rewrite Hne. cbn [negb].
  change (negb (beq [35; 32] [])) with true. cbn [andb]. change (Z.to_nat 4096) with 4096%nat.
  assert (Hbuf : ascii (buf ++ got)).
  { rewrite <- E, <- Hgot, app_assoc in Ha. by apply Forall_app in Ha as [? _]. }
  rewrite decode_ascii by (by apply ascii_last_n).
  destruct (drop 4096 (x :: xs)) as [|y ys] eqn:Ed.
  - rewrite app_nil_r in Hgot. rewrite Hgot in *. rewrite E, last_n_prompt. cbn. rewrite decode_ascii by done.
    eexists. reflexivity.
  - assert (Hcont : contains (codes "# ") (buf ++ got) = false).
    { apply (prompt_last body _ (y :: ys)); [|done|exact Hc]. rewrite <- app_assoc, Hgot. exact E. }
    rewrite contains_last_n by done. cbn.
    destruct (IH (ld_set_rx (y :: ys) d)) with (buf := buf ++ got) (idle := 0)
      (lg := lg ++ [EvRead (Ok got)]) as (lg' & Hw).
    { by rewrite ld_rx_set. }
    { rewrite ld_rx_set, <- app_assoc, Hgot. exact E. }
    { by rewrite ld_clock_set. }
    { rewrite ld_rx_set. assert (length (y :: ys) < length (x :: xs))%nat; [|lia].
      rewrite <- Ed. rewrite length_drop. cbn. lia. }
    exists lg'. rewrite Hw. by rewrite ld_set_set.
Qed.

(** A command on an idle console returns its echo, its output and the prompt,
    if the prompt is the first in it. *)
Lemma line_command fuel cmd tmo out (d d' : T) (o : Ob) lg :
  ld_rx d = [] -> ld_exec cmd d = (out, d') -> ascii cmd -> ascii out ->
  calm (cmd ++ [13; 10] ++ out ++ codes "hisilicon #") = true -> 0 < tmo -> (length (answer cmd out) < fuel)%nat ->
  exists lg', prompt_command fuel cmd tmo (World d o lg) = (Ok (answer cmd out), World d' o lg').
Proof.
  intros Hrx He Hac Hao Hc Ht Hf. pose proof (ld_exec_rx cmd d) as Hrx'. rewrite He in Hrx'. cbn in Hrx'.
  rewrite Hrx in Hrx'.
  unfold prompt_command, send_command, send_command_text, clear_pending, encode_ascii, bind, try_except, bytes_waiting. cbn -[codes contains beq].
  rewrite ld_waiting, Hrx. change (0 <? len (@nil Z)) with false. cbn -[codes contains beq].
  assert (Hfa : forallb (fun c => c <? 128) (cmd ++ [13]) = true).
  { apply forallb_forall. intros c Hin%list_elem_of_In. apply Z.ltb_lt.
    apply elem_of_app in Hin as [Hin|Hin%list_elem_of_singleton]; [|lia]. unfold ascii in Hac. rewrite Forall_forall in Hac. by apply Hac. }
  rewrite Hfa. unfold lift, write. cbn -[codes contains beq]. rewrite ld_write.
  rewrite He, Hrx'. cbn -[codes contains beq]. unfold monotonic. cbn -[codes contains beq]. rewrite ld_monotonic. cbn -[codes contains beq].
  destruct (console_loop fuel (ld_clock (ld_set_rx (answer cmd out) d')) tmo 0 [] (ld_set_rx (answer cmd out) d') o
    (lg ++ [EvWrite (cmd ++ [13]) (Ok tt)])
    (cmd ++ [13; 10] ++ out ++ codes "hisilicon ")) as (lg' & Hw).
  - rewrite ld_rx_set. unfold answer, PROMPT. by destruct cmd.
  - rewrite ld_rx_set. cbn [app]. unfold answer, PROMPT.
    change (codes "hisilicon # ") with (codes "hisilicon " ++ codes "# "). applist.
  - change (codes "hisilicon #") with (codes "hisilicon " ++ [35]) in Hc.
    replace ((cmd ++ [13; 10] ++ out ++ codes "hisilicon ") ++ [35]) with (cmd ++ [13; 10] ++ out ++ codes "hisilicon " ++ [35])
      by applist. exact Hc.
  - repeat (apply Forall_app; split); try done; by repeat constructor.
  - lia.
  - rewrite ld_rx_set. exact Hf.
  - exists lg'. rewrite Hw. cbn. rewrite ld_set_set, ld_set_id by done.
    unfold answer, PROMPT. change (codes "hisilicon # ") with (codes "hisilicon " ++ codes "# "). applist.
Qed.

End Collect.

Lemma exec_line cmd d : u_rx (snd (exec cmd d)) = u_rx d.
Proof. unfold exec. by repeat case_match. Qed.

Lemma set_u_rx_id d : u_rx d = [] -> set_u_rx [] d = d.
Proof. destruct d. cbn. by intros ->. Qed.

Lemma but_last_snoc {B} (l : list B) x : but_last 1 (l ++ [x]) = l.
Proof. unfold but_last. rewrite length_app. cbn. replace (length l + 1 - 1)%nat with (length l) by lia. by rewrite take_app_length. Qed.

#[export] Instance Console_Line : LineDevice Console.
Proof.
  refine {| ld_rx := u_rx; ld_set_rx := set_u_rx; ld_clock := u_clock; ld_exec := exec |}; try done.
  - apply set_u_rx_id.
  - apply exec_line.
  - intros size tmo d Hrx. cbn. unfold Console_read. replace (beq (u_rx d) []) with false by (symmetry; by apply bool_decide_eq_false). done.
  - intros cmd d. cbn. unfold Console_write. rewrite last_snoc, bool_decide_eq_true_2, but_last_snoc by done. by destruct (exec cmd d).
Defined.

Lemma console_command {Ob} fuel cmd tmo out (d d' : Console) (o : Ob) lg :
  u_rx d = [] -> exec cmd d = (out, d') -> ascii cmd -> ascii out ->
  calm (cmd ++ [13; 10] ++ out ++ codes "hisilicon #") = true -> 0 < tmo -> (length (answer cmd out) < fuel)%nat ->
  exists lg', prompt_command fuel cmd tmo (World d o lg) = (Ok (answer cmd out), World d' o lg').
Proof. exact (line_command (T := Console) fuel cmd tmo out d d' o lg). Qed.

(** *** The commands of the dump *)

Definition word (w : list Z) : Prop := w <> [] /\ Forall (fun c => is_space_code c = false) w.

Lemma split_ws_word_go w cur rest :
  Forall (fun c => is_space_code c = false) w -> cur ++ w <> [] ->
  split_ws (w ++ 32 :: rest) cur = (cur ++ w) :: split_ws rest [] /\ split_ws w cur = [cur ++ w].
Proof.
  intros Hw. revert cur. induction Hw as [|c w Hc Hw IH]; intros cur Hne; cbn [app split_ws].
  - rewrite app_nil_r in *. by destruct cur.
  - rewrite Hc. destruct (IH (cur ++ [c])) as [H1 H2]; [by destruct cur|]. rewrite H1, H2, <- app_assoc. done.
Qed.

Lemma split_ws_word w rest : word w -> split_ws (w ++ 32 :: rest) [] = w :: split_ws rest [].
Proof. intros [Hne Hw]. by apply (split_ws_word_go w []). Qed.
Lemma split_ws_last w : word w -> split_ws w [] = [w].
Proof. intros [Hne Hw]. by apply (split_ws_word_go w [] []). Qed.

Lemma hex_arg_word n : 0 <= n -> word (hex_arg n) /\ word_arg (hex_arg n) = n /\ ascii (hex_arg n) /\ Forall (fun c => c <> 35) (hex_arg n).
Proof.
  intros Hn. destruct (hex_x_spec n Hn) as (Ht & Hd & _). unfold hex_arg, word_arg. split_and!.
  - split; [done|]. apply Forall_app. split; [by repeat constructor|]. eapply Forall_impl; [exact Ht|]. by intros c (_ & ? & _).
  - unfold removeprefix. rewrite starts_with_app. exact Hd.
  - apply Forall_app. split; [by repeat constructor|]. eapply Forall_impl; [exact Ht|]. by intros c (_ & _ & ?).
  - apply Forall_app. split; [by repeat constructor|]. eapply Forall_impl; [exact Ht|]. intros c (Hc & _) ->. done.
Qed.

Lemma hex_text_ascii l : hex_text l -> ascii l /\ Forall (fun c => c <> 35 /\ c <> 61) l.
Proof. intros Hl. split; (eapply Forall_impl; [exact Hl|]); [by intros c (_ & _ & ?)|]. intros c (Hc & _). split; by intros ->. Qed.

Lemma exec_md a n d : 0 <= a -> 0 <= n -> exec (md_command a n) d = (md_text a (ram_at d a n), d).
Proof.
  intros Ha Hn. destruct (hex_arg_word a Ha) as (Hwa & Hva & _), (hex_arg_word n Hn) as (Hwn & Hvn & _).
  unfold exec, md_command. change (codes "md.b " ++ ?x) with (codes "md.b" ++ 32 :: x).
  change (codes " " ++ ?x) with (32 :: x).
  rewrite split_ws_word by (split; [done|by repeat constructor]). rewrite split_ws_word, split_ws_last by done.
  rewrite Hva, Hvn. done.
Qed.

Lemma exec_crc a n d :
  0 <= a -> 0 <= n -> u_crc d = true ->
  exec (codes "crc32 " ++ hex_arg a ++ codes " " ++ hex_arg n) d = (crc_line a n (crc32 (ram_at d a n)), d).
Proof.
  intros Ha Hn Hc. destruct (hex_arg_word a Ha) as (Hwa & Hva & _), (hex_arg_word n Hn) as (Hwn & Hvn & _).
  unfold exec. change (codes "crc32 " ++ ?x) with (codes "crc32" ++ 32 :: x).
  change (codes " " ++ ?x) with (32 :: x).
  rewrite split_ws_word by (split; [done|by repeat constructor]). rewrite split_ws_word, split_ws_last by done.
  rewrite Hva, Hvn, Hc. done.
Qed.

Lemma exec_read a n d :
  0 <= a -> 0 <= n -> u_probed d = true ->
  exec (codes "sf read " ++ hex_arg a ++ codes " 0x0 " ++ hex_arg n) d =
    (codes "Read: OK" ++ [13; 10], mkConsole (u_flash d) (u_crc d) true a (slice (u_flash d) 0 n) (u_rx d) (u_clock d)).
Proof.
  intros Ha Hn Hp. destruct (hex_arg_word a Ha) as (Hwa & Hva & _), (hex_arg_word n Hn) as (Hwn & Hvn & _).
  unfold exec. change (codes "sf read " ++ ?x) with (codes "sf" ++ 32 :: codes "read" ++ 32 :: x).
  change (codes " 0x0 " ++ ?x) with (32 :: codes "0x0" ++ 32 :: x).
  rewrite !split_ws_word by (done || (split; [done|by repeat constructor])). rewrite split_ws_last by done.
  rewrite Hva, Hvn, Hp. done.
Qed.

(** *** What is printed is calm *)

Lemma calm_head a b : calm a = true -> calm b = true -> head b <> Some 32 -> calm (a ++ b) = true.
Proof. intros Ha Hb Hh. rewrite calm_app, Ha, Hb, (bool_decide_eq_false_2 (head b = Some 32)) by done. by rewrite andb_false_r. Qed.

Lemma calm_clean a b : Forall (fun c => c <> 35) a -> calm b = true -> calm (a ++ b) = true.
Proof.
  intros Ha Hb. rewrite calm_app, (calm_no_hash a Ha), Hb.
  rewrite (bool_decide_eq_false_2 (last a = Some 35)); [done|]. intros (x & ->)%last_Some.
  apply Forall_app in Ha as [_ Ha]. apply Forall_cons in Ha as [Ha _]. done.
Qed.

Lemma calm_infix a b c : calm (a ++ b ++ c) = true -> calm b = true.
Proof.
  rewrite calm_app. intros [[_ H]%andb_true_iff _]%andb_true_iff. by apply calm_prefix in H.
Qed.

Lemma calm_slice l i j : calm l = true -> calm (slice l i j) = true.
Proof.
  intros Hl. unfold slice. apply (calm_infix (take (Z.to_nat i) l) _ (drop (Z.to_nat (j - i)) (drop (Z.to_nat i) l))).
  by rewrite take_drop, take_drop.
Qed.

Lemma printable_spec b : (printable b = 35 <-> b = 35) /\ (printable b = 32 <-> b = 32) /\ printable b < 128.
Proof. unfold printable. destruct ((32 <=? b) && (b <=? 126)) eqn:E; b2p; [lia|]. apply andb_false_iff in E. split_and!; try lia; b2p; lia. Qed.

Lemma calm_printable l : calm l = true -> calm (printable <$> l) = true.
Proof.
  induction l as [|x l IH]; [done|]. cbn [fmap list_fmap]. rewrite !calm_cons. intros [Hx Hl]%andb_true_iff.
  fold (fmap (M := list) printable l). rewrite (IH Hl), andb_true_r. apply negb_true_iff in Hx. apply negb_true_iff.
  destruct (printable_spec x) as (Hp35 & _). destruct (printable x =? 35) eqn:E; [|done]. b2p. apply Hp35 in E. subst x.
  destruct Hx as [?|Hx]; [done|]. cbn [andb]. apply bool_decide_eq_false in Hx. apply bool_decide_eq_false. destruct l as [|y l]; [done|]. cbn in *.
  intros [= Hy]. destruct (printable_spec y) as (_ & H32 & _). apply Hx. f_equal. by apply H32.
Qed.

Lemma md_line_calm addr p :
  0 <= addr < 2 ^ 32 -> is_bytes p -> calm p = true -> calm (md_line addr p) = true /\ ascii (md_line addr p).
Proof.
  intros Ha Hp Hc. destruct (hex_0x_spec 8 addr) as (Ht & _); [lia|cbn; lia|]. apply hex_text_ascii in Ht as [Hta Htc].
  assert (Hb : ascii (concat ((fun b => 32 :: hex2 b) <$> p)) /\ Forall (fun c => c <> 35) (concat ((fun b => 32 :: hex2 b) <$> p))).
  { clear Hc. induction Hp as [|b p Hb Hp [IH1 IH2]]; [by split; constructor|].
    destruct (hex_0x_spec 2 b) as (H2 & _); [lia|unfold is_byte in Hb; cbn; lia|]. apply hex_text_ascii in H2 as [H2a H2c].
    split; (constructor; [lia|]; apply Forall_app; split; [|done]); [done|]. eapply Forall_impl; [exact H2c|]. by intros c []. }
  destruct Hb as [Hb1 Hb2].
  assert (Hsp : forall n, ascii (brep n 32) /\ Forall (fun c => c <> 35) (brep n 32)) by (intros n; split; by apply Forall_replicate).
  destruct (Hsp (3 * (16 - len p) + 4)) as [Hs1 Hs2]. unfold md_line, md_row. split.
  - rewrite app_assoc. apply calm_clean; [|by apply calm_printable].
    repeat (apply Forall_app; split); try done; [eapply Forall_impl; [exact Htc|]; by intros c []|by repeat constructor].
  - repeat (apply Forall_app; split); try done; [by repeat constructor|]. apply Forall_fmap, Forall_true. intros b. apply printable_spec.
Qed.

(** Output: calm, ASCII, and nothing or whole lines. *)
Definition output_ok (out : list Z) : Prop := calm out = true /\ ascii out /\ (out = [] \/ last out = Some 10).

Lemma output_app a b : output_ok a -> output_ok b -> output_ok (a ++ b).
Proof.
  intros (Ha1 & Ha2 & Ha3) (Hb1 & Hb2 & Hb3). split_and!.
  - rewrite calm_app, Ha1, Hb1. rewrite (bool_decide_eq_false_2 (last a = Some 35)); [done|]. destruct Ha3 as [-> | ->]; done.
  - by apply Forall_app.
  - destruct Hb3 as [->|Hb3]; [by rewrite app_nil_r|]. right. rewrite last_app, Hb3. done.
Qed.

Lemma output_line l : calm l = true -> ascii l -> output_ok (l ++ [13; 10]).
Proof.
  intros Hc Ha. split_and!; [by apply calm_head|apply Forall_app; split; [done|by repeat constructor]|].
  right. by rewrite last_app.
Qed.

Lemma md_text_ok base data :
  0 <= base -> base + len data <= 2 ^ 32 -> len data mod 16 = 0 -> is_bytes data -> calm data = true -> output_ok (md_text base data).
Proof.
  intros Hb Hl Hm Hd Hc. pose proof (parse_md_entries base data Hb Hl Hm Hd) as He.
  assert (Hcalm : Forall (fun e => calm (snd e) = true) (md_entries base data)).
  { apply Forall_lookup. intros i [a p]. unfold md_entries. rewrite list_lookup_imap. intros (p' & Hp & [= -> ->])%fmap_Some.
    apply pieces_lookup in Hp as [-> _]; [|lia]. by apply calm_slice. }
  unfold md_text. induction (md_entries base data) as [|e es IH].
  { split_and!; [done|constructor|by left]. }
  apply Forall_cons in He as [(Ha & Hby & _) He], Hcalm as [Hce Hcalm]. cbn [fmap list_fmap concat].
  destruct (md_line_calm (fst e) (snd e) Ha Hby Hce) as [H1 H2]. apply output_app; [by apply output_line|by apply IH].
Qed.

(** Enough for [console_command]. *)
Lemma answer_calm cmd out :
  Forall (fun c => c <> 35) cmd -> output_ok out -> calm (cmd ++ [13; 10] ++ out ++ codes "hisilicon #") = true.
Proof.
  intros Hcmd (Hc & _ & Hl). apply calm_clean; [done|]. apply calm_clean; [by repeat constructor|]. by apply calm_head.
Qed.

(** *** Whole runs on the console *)

(** From [d] and [o] the code returns [r], leaving [d'] and [o']. *)
Definition runs {Ob A} (m : M Console Ob A) (d : Console) (o : Ob) (r : A) (d' : Console) (o' : Ob) : Prop :=
  forall lg, exists lg', m (World d o lg) = (Ok r, World d' o' lg').

Lemma runs_ret {Ob A} (x : A) d (o : Ob) : runs (ret x) d o x d o.
Proof. intros lg. by eexists. Qed.

Lemma runs_bind {Ob A B} (m : M Console Ob A) (k : A -> M Console Ob B) d o x d1 o1 y d2 o2 :
  runs m d o x d1 o1 -> runs (k x) d1 o1 y d2 o2 -> runs (bind m k) d o y d2 o2.
Proof. intros Hm Hk lg. destruct (Hm lg) as (l1 & E1), (Hk l1) as (l2 & E2). exists l2. unfold bind. by rewrite E1, E2. Qed.

Lemma runs_try {Ob A} (m : M Console Ob A) p h d o x d1 o1 :
  runs m d o x d1 o1 -> runs (try_except m p h) d o x d1 o1.
Proof. intros Hm lg. destruct (Hm lg) as (l1 & E1). exists l1. unfold try_except. by rewrite E1. Qed.

Lemma runs_get {Ob} d (o : Ob) : runs get_obj d o o d o.
Proof. intros lg. by eexists. Qed.
Lemma runs_put {Ob} d (o o' : Ob) : runs (put_obj o') d o tt d o'.
Proof. intros lg. by eexists. Qed.

(** A loop whose first turn returns. *)
Lemma runs_first {Ob X S R} (x : X) xs (body : X -> S -> M Console Ob (ctl S R)) s d o (r : R) d1 o1 :
  runs (body x s) d o (Rtn r) d1 o1 -> runs (foreach (x :: xs) body s) d o (Rtn r) d1 o1.
Proof. intros Hb. cbn [foreach]. eapply runs_bind; [exact Hb|apply runs_ret]. Qed.

Lemma hex_arg_length n : 0 <= n < 2 ^ 36 -> (length (hex_arg n) <= 11)%nat.
Proof.
  intros Hn. destruct (hex_x_spec n) as (_ & _ & _ & Hk); [lia|]. specialize (Hk 9%nat ltac:(lia) ltac:(cbn; lia)).
  unfold hex_arg. rewrite length_app. change (length (codes "0x")) with 2%nat. lia.
Qed.

Lemma concat_length_bound {X} (f : X -> list Z) (xs : list X) k :
  (forall x, x ∈ xs -> (length (f x) <= k)%nat) -> (length (concat (f <$> xs)) <= k * length xs)%nat.
Proof.
  induction xs as [|x xs IH]; intros Hk; [cbn; lia|]. cbn [fmap list_fmap concat length]. rewrite length_app.
  specialize (IH ltac:(intros y Hy; apply Hk; by right)). specialize (Hk x ltac:(by left)). unfold fmap in *. nia.
Qed.

Lemma md_line_length addr p : 0 <= addr < 2 ^ 32 -> is_bytes p -> (length p <= 16)%nat -> (length (md_line addr p) <= 77)%nat.
Proof.
  intros Ha Hp Hl. destruct (hex_0x_spec 8 addr) as (_ & _ & H8); [lia|cbn; lia|].
  assert (Hc : length (concat ((fun b => 32 :: hex2 b) <$> p)) = (3 * length p)%nat).
  { clear Hl. induction Hp as [|b p Hb Hp IH]; [done|]. cbn [fmap list_fmap concat length]. rewrite length_app, IH.
    destruct (hex_0x_spec 2 b) as (_ & _ & H2); [lia|unfold is_byte in Hb; cbn; lia|]. cbn [length]. unfold hex2. rewrite H2. lia. }
  unfold md_line, md_row, brep. rewrite !length_app, H8, Hc, length_replicate, length_fmap. cbn. unfold len. lia.
Qed.

Lemma md_text_length base data :
  0 <= base -> base + len data <= 2 ^ 32 -> len data mod 16 = 0 -> is_bytes data -> (length (md_text base data) <= 5 * length data)%nat.
Proof.
  intros Hb Hl Hm Hd. pose proof (parse_md_entries base data Hb Hl Hm Hd) as He. rewrite Forall_forall in He.
  unfold md_text. etrans; [apply (concat_length_bound _ _ 80)|].
  - intros e Hin. destruct (He e Hin) as (Ha & Hby & _). rewrite length_app. cbn [length].
    assert (length (snd e) <= 16)%nat.
    { apply list_elem_of_lookup in Hin as (i & Hi). unfold md_entries in Hi. rewrite list_lookup_imap in Hi.
      apply fmap_Some in Hi as (p & Hp & ->). destruct (pieces_len 16 data i p ltac:(lia) Hp) as [Hq _]. unfold len in *. cbn. lia. }
    pose proof (md_line_length (fst e) (snd e) Ha Hby). lia.
  - unfold md_entries. rewrite length_imap, pieces_length. pose proof (Z.div_mod (len data) 16 ltac:(lia)) as Hdm.
    replace (len data + 16 - 1) with (len data / 16 * 16 + 15) by lia. rewrite Z.div_add_l by lia.
    change (15 / 16) with 0. unfold len in *. lia.
Qed.

(** *** The answers the dump reads *)

(** A line that does not begin with an address. *)
Lemma parse_md_none c l : is_hex_code c = false -> is_space_code c = false -> parse_md_line (c :: l) = None.
Proof.
  intros Hh Hs. unfold parse_md_line. assert (Hx : exists x, strip (c :: l) = c :: x).
  { destruct l as [|d l _] using rev_ind; [exists []; unfold strip, rstrip; cbn; rewrite Hs; cbn; by rewrite Hs|].
    destruct (is_space_code d) eqn:Ed; [|exists (l ++ [d]); by apply strip_between].
    destruct (strip_keeps c [] c []) as (x & Hx); [done..|].
    unfold strip. cbn [lstrip app]. rewrite Hs. unfold rstrip. cbn [rev]. rewrite lstrip_app_gen.
    destruct (lstrip (rev (l ++ [d]))) as [|y ys]; [exists []; cbn; by rewrite Hs|]. exists (rev (y :: ys)). by rewrite rev_app_distr. }
  destruct Hx as (x & ->). unfold re_match, MD_LINE_RE, seqs. cbn. by rewrite Hh.
Qed.

Lemma answer_md cmd base data :
  0 <= base -> base + len data <= 2 ^ 32 -> len data mod 16 = 0 -> is_bytes data ->
  one_line cmd -> parse_md_line cmd = None -> parse_md_output (answer cmd (md_text base data)) = data.
Proof.
  intros Hb Hl Hm Hd Hone Hnone. pose proof (parse_md_entries base data Hb Hl Hm Hd) as He.
  set (rows := (fun e => md_line (fst e) (snd e)) <$> md_entries base data).
  assert (Hlines : answer cmd (md_text base data) = concat ((fun l => l ++ [13; 10]) <$> cmd :: rows) ++ PROMPT).
  { unfold answer, md_text, rows. cbn [fmap list_fmap concat]. rewrite <- list_fmap_compose. by rewrite <- !app_assoc. }
  rewrite Hlines. apply (parse_rows base); [done|]. rewrite splitlines_lines.
  - cbn [app omap list_omap]. rewrite Hnone. rewrite omap_app. change (omap parse_md_line _) with (@nil (Z * bytes)) at 2.
    rewrite app_nil_r. unfold rows. clear -He. induction He as [|e es (_ & _ & Hp) He IH]; [done|]. cbn. rewrite Hp. by rewrite IH.
  - constructor; [done|]. apply Forall_fmap. eapply Forall_impl; [exact He|]. intros e (Ha & Hby & _). by apply md_line_one.
  - by repeat constructor.
Qed.

(** The CRC in an answer of [crc32]: nothing before the arrow has an equals
    sign. *)
Lemma search_crc pre ds rest prev :
  Forall (fun c => c <> 61) pre -> hex_text ds -> length ds = 8%nat ->
  exists m, search_from CRC_LINE_RE prev (pre ++ codes "==> " ++ ds ++ rest) = Some m /\ group 1 m = Some ds.
Proof.
  intros Hpre Hds H8. revert prev. induction Hpre as [|c pre Hc Hpre IH]; intros prev.
  - set (m := Place (after ds (Some 32)) rest [(1%nat, ds)]). exists m. split; [|done].
    assert (Hm : rmatch CRC_LINE_RE Some (Place prev (codes "==> " ++ ds ++ rest) []) = Some m).
    { unfold CRC_LINE_RE. set (g := Group 1 (rep 8 hexd)).
      change (rmatch (Seq (lit (codes "==>")) ?r) ?k (Place prev (codes "==> " ++ ?t) ?c)) with (rmatch r k (Place (Some 62) (32 :: t) c)).
      change (rmatch (Seq ?a ?b) ?k ?s) with (rmatch a (rmatch b k) s).
      apply (rmatch_star_all is_space_code _ (Some 62) [32] (ds ++ rest) []); [by repeat constructor| |].
      - destruct Hds as [|d ds (_ & Hd & _) _]; done.
      - unfold g. cbn [rmatch]. rewrite <- H8, rmatch_addr by done. unfold capture, m. cbn [p_rest p_prev p_caps].
        by rewrite (take_part ds). }
    change ([] ++ ?t) with t. destruct (codes "==> " ++ ds ++ rest) eqn:E; cbn [search_from]; by rewrite Hm.
  - assert (Hn : forall t, rmatch CRC_LINE_RE Some (Place prev (c :: t) []) = None).
    { intros t. change (rmatch CRC_LINE_RE Some (Place prev (c :: t) [])) with
        (if 61 =? c then rmatch (Seq (lit [61; 62]) (Seq (star sp) (Group 1 (rep 8 hexd)))) Some (Place (Some c) t []) else None).
      by replace (61 =? c) with false by (symmetry; apply Z.eqb_neq; congruence). }
    destruct (IH (Some c)) as (m & Hm & Hg). exists m. split; [|done]. cbn [app search_from]. by rewrite Hn.
Qed.

Lemma answer_crc cmd a n crc :
  Forall (fun c => c <> 61) cmd -> 0 <= a < 2 ^ 32 -> 0 <= crc < 2 ^ 32 ->
  exists m, re_search CRC_LINE_RE (answer cmd (crc_line a n crc)) = Some m /\ group_hex 1 m = crc.
Proof.
  intros Hcmd Ha Hc. destruct (hex_0x_spec 8 a) as (Hta & _ & _); [lia|cbn; lia|].
  destruct (hex_0x_spec 8 ((a + n - 1) mod 2 ^ 32)) as (Htb & _ & _); [lia|pose proof (Z.mod_pos_bound (a + n - 1) (2 ^ 32)); cbn in *; lia|].
  destruct (hex_0x_spec 8 crc) as (Htc & Hv & H8); [lia|cbn; lia|].
  apply hex_text_ascii in Hta as [_ Hta], Htb as [_ Htb].
  destruct (search_crc (cmd ++ [13; 10] ++ codes "CRC32 for " ++ codes (hex_0x 8 a) ++ codes " ... " ++
    codes (hex_0x 8 ((a + n - 1) mod 2 ^ 32)) ++ codes " ") (codes (hex_0x 8 crc)) ([13; 10] ++ PROMPT) None) as (m & Hm & Hg).
  - repeat (apply Forall_app; split); try done; try (by repeat constructor);
      (eapply Forall_impl; [eassumption|]; by intros c []).
  - done.
  - done.
  - exists m. split; [|unfold group_hex; by rewrite Hg].
    rewrite <- Hm. unfold re_search. f_equal. unfold answer, crc_line.
    change (codes " ==> ") with (codes " " ++ codes "==> "). by rewrite <- !app_assoc.
Qed.

(** ** The dump of a whole flash *)

Section Delivery.
Variables (fuel : nat) (ram : Z) (f : bytes) (crc : bool) (clock : Z).
Hypothesis (Hram : 0 <= ram) (Htop : ram + len f <= 2 ^ 32) (Hf16 : len f mod 16 = 0) (Hbytes : is_bytes f).
Hypothesis (Hcalm : calm f = true) (Hfuel : 2 ^ 15 + len f <= Z.of_nat fuel).

(** The console at the start, with the flash selected, and with the flash in
    its memory. *)
Definition fresh : Console := mkConsole f crc false 0 [] [] clock.
Definition probed : Console := mkConsole f crc true 0 [] [] clock.
Definition loaded : Console := mkConsole f crc true ram f [] clock.

Lemma runs_command cmd tmo out d d' (o : option bytes) :
  u_rx d = [] -> exec cmd d = (out, d') -> ascii cmd -> Forall (fun c => c <> 35) cmd -> output_ok out -> 0 < tmo ->
  len cmd + len out <= 30000 -> runs (prompt_command fuel cmd tmo) d o (answer cmd out) d' o.
Proof.
  intros Hrx He Hac Hcc Hout Ht Hl lg. apply console_command; try done; [by apply Hout|by apply answer_calm|].
  unfold answer. rewrite !length_app. pose proof (len_nonneg f). change (length PROMPT) with 12%nat. cbn [length]. unfold len in Hl, Hfuel. lia.
Qed.

Lemma ram_at_loaded off n : ram_at loaded (ram + off) n = slice f off (off + n).
Proof. unfold ram_at, loaded. cbn. f_equal; lia. Qed.

Lemma command_ok a n : 0 <= a < 2 ^ 36 -> 0 <= n < 2 ^ 36 -> forall c, ascii c -> Forall (fun x => x <> 35 /\ x <> 61) c ->
  ascii (c ++ hex_arg a ++ codes " " ++ hex_arg n) /\ Forall (fun x => x <> 35) (c ++ hex_arg a ++ codes " " ++ hex_arg n) /\
  Forall (fun x => x <> 61) (c ++ hex_arg a ++ codes " " ++ hex_arg n) /\
  (length (c ++ hex_arg a ++ codes " " ++ hex_arg n) <= length c + 23)%nat.
Proof.
  intros Ha Hn c Hc Hc'. destruct (hex_arg_word a) as (_ & _ & Haa & Hca), (hex_arg_word n) as (_ & _ & Han & Hcn); [lia..|].
  pose proof (hex_arg_length a Ha). pose proof (hex_arg_length n Hn).
  assert (Heq : forall k, 0 <= k -> Forall (fun x => x <> 61) (hex_arg k)).
  { intros k Hk. destruct (hex_x_spec k Hk) as (Ht & _). apply hex_text_ascii in Ht as [_ Ht]. apply Forall_app.
    split; [by repeat constructor|]. eapply Forall_impl; [exact Ht|]. by intros x []. }
  split_and!.
  - unfold ascii in *. parts; done || by repeat constructor.
  - parts; done || (by repeat constructor) || (eapply Forall_impl; [exact Hc'|]; by intros x []).
  - parts; (apply Heq; lia) || (by repeat constructor) || (eapply Forall_impl; [exact Hc'|]; by intros x []).
  - rewrite !length_app. change (length (codes " ")) with 1%nat. lia.
Qed.

Section Chunk.
Variables (off n : Z).
Hypothesis (Hoff : 0 <= off) (Hn : 0 < n <= 4096) (Hin : off + n <= len f) (Hn16 : n mod 16 = 0).

Lemma chunk_facts : len (slice f off (off + n)) = n /\ is_bytes (slice f off (off + n)) /\ calm (slice f off (off + n)) = true.
Proof. split_and!; [rewrite len_slice by lia; lia|by apply is_bytes_slice|by apply calm_slice]. Qed.

Lemma runs_md cmd (o : option bytes) :
  exec cmd loaded = (md_text (ram + off) (slice f off (off + n)), loaded) -> ascii cmd -> Forall (fun c => c <> 35) cmd ->
  (length cmd <= 100)%nat -> forall tmo, 0 < tmo ->
  runs (prompt_command fuel cmd tmo) loaded o (answer cmd (md_text (ram + off) (slice f off (off + n)))) loaded o.
Proof.
  intros He Ha Hc Hl tmo Ht. destruct chunk_facts as (Hlen & Hby & Hca).
  apply runs_command; try done; [apply md_text_ok; try done; rewrite ?Hlen; lia|].
  pose proof (md_text_length (ram + off) (slice f off (off + n)) ltac:(lia) ltac:(lia) ltac:(by rewrite Hlen) Hby).
  unfold len in *. lia.
Qed.

Lemma md_answer cmd c t :
  cmd = c :: t -> is_hex_code c = false -> is_space_code c = false -> one_line cmd ->
  parse_md_output (answer cmd (md_text (ram + off) (slice f off (off + n)))) = slice f off (off + n).
Proof.
  intros -> Hh Hs Hone. destruct chunk_facts as (Hlen & Hby & Hca).
  apply answer_md; try done; rewrite ?Hlen; [lia..|done|]. by apply parse_md_none.
Qed.

Lemma md_command_line a k : 0 <= a -> 0 <= k -> one_line (md_command a k).
Proof.
  intros Ha Hk. unfold md_command, hex_arg. repeat (apply Forall_app; split); try (by repeat constructor);
    apply hex_text_line; by apply hex_x_spec.
Qed.

(** A chunk is printed, and parsed back. *)
Lemma runs_chunk (o : option bytes) :
  runs (let* resp := prompt_command fuel (md_command (ram + off) n) 15000000 in ret (Some (parse_md_output resp))) loaded o
    (Some (slice f off (off + n))) loaded o.
Proof.
  destruct (command_ok (ram + off) n ltac:(lia) ltac:(lia) (codes "md.b ")) as (H1 & H2 & _ & H4); [by repeat constructor..|].
  eapply runs_bind.
  - apply runs_md; try done; [|unfold md_command; change (length (codes "md.b ")) with 5%nat in H4; lia]. rewrite exec_md by lia. by rewrite ram_at_loaded.
  - rewrite (md_answer (md_command (ram + off) n) 109 _ eq_refl eq_refl eq_refl) by (apply md_command_line; lia). apply runs_ret.
Qed.

Lemma crc_line_ok a k c :
  0 <= a < 2 ^ 32 -> 0 <= c < 2 ^ 32 -> output_ok (crc_line a k c) /\ len (crc_line a k c) <= 100.
Proof.
  intros Ha Hc. destruct (hex_0x_spec 8 a) as (Hta & _ & Hla); [lia|cbn; lia|].
  destruct (hex_0x_spec 8 ((a + k - 1) mod 2 ^ 32)) as (Htb & _ & Hlb); [lia|pose proof (Z.mod_pos_bound (a + k - 1) (2 ^ 32)); cbn in *; lia|].
  destruct (hex_0x_spec 8 c) as (Htc & _ & Hlc); [lia|cbn; lia|].
  apply hex_text_ascii in Hta as [Hta Hta'], Htb as [Htb Htb'], Htc as [Htc Htc']. unfold crc_line. split.
  - rewrite !app_assoc. apply output_line; rewrite <- !app_assoc.
    + apply calm_no_hash. parts; (by repeat constructor) || (eapply Forall_impl; [eassumption|]; by intros x []).
    + unfold ascii in *. parts; done || by repeat constructor.
  - unfold len. rewrite !length_app, Hla, Hlb, Hlc. done.
Qed.

Lemma runs_crc (o : option bytes) tmo :
  crc = true -> 0 < tmo -> forall k, 0 <= k <= len f - off ->
  runs (get_device_crc32 fuel (ram + off) k tmo) loaded o (Some (crc32 (slice f off (off + k)))) loaded o.
Proof.
  intros Hcrc Ht k Hk. assert (Hby : is_bytes (slice f off (off + k))) by (by apply is_bytes_slice).
  pose proof (crc32_b32 _ Hby) as Hc. unfold b32 in Hc.
  destruct (command_ok (ram + off) k ltac:(lia) ltac:(lia) (codes "crc32 ")) as (H1 & H2 & H3 & H4); [by repeat constructor..|].
  destruct (crc_line_ok (ram + off) k (crc32 (slice f off (off + k)))) as [Hok Hlen]; [lia|exact Hc|].
  destruct (answer_crc _ (ram + off) k _ H3 ltac:(lia) Hc) as (m & Hm & Hg).
  unfold get_device_crc32. eapply runs_bind.
  - eapply runs_command with (d' := loaded); [done| |done|done|exact Hok|done|].
    + rewrite exec_crc by (done || lia). by rewrite ram_at_loaded.
    + change (length (codes "crc32 ")) with 6%nat in H4. unfold len in *. lia.
  - rewrite Hm, Hg. apply runs_ret.
Qed.

Lemma runs_read_chunk (o : option bytes) :
  runs (read_chunk fuel crc (ram + off) n) loaded o (slice f off (off + n)) loaded o.
Proof.
  destruct chunk_facts as (Hlen & Hby & _). unfold read_chunk. change (range (max_retries + 1)) with [0; 1; 2; 3; 4; 5].
  eapply runs_bind; [apply runs_first|apply runs_ret]. unfold chunk_attempt.
  eapply runs_bind; [apply runs_try, runs_chunk|]. cbv beta iota. rewrite Hlen.
  replace (n =? 0) with false by (symmetry; apply Z.eqb_neq; lia). rewrite Z.eqb_refl, andb_true_r.
  destruct crc eqn:Ec; [|apply runs_ret].
  pose proof (runs_crc o 5000000 Ec ltac:(lia) n ltac:(lia)) as Hc. unfold loaded in *.
  eapply runs_bind; [apply runs_try; eapply runs_bind; [exact Hc|apply runs_ret]|].
  cbv beta iota. rewrite bool_decide_eq_true_2; [apply runs_ret|]. f_equal. symmetry.
  pose proof (crc32_b32 _ Hby) as Hb. unfold b32 in Hb. change 0xFFFFFFFF with (Z.ones 32). rewrite Z.land_ones by lia. by apply Z.mod_small.
Qed.

(** Written into a file that already holds the first [j] bytes. *)
Lemma runs_write_at j :
  0 <= j <= len f ->
  runs (write_at off (slice f off (off + n))) loaded (Some (slice f 0 (Z.max j off))) tt loaded (Some (slice f 0 (Z.max j (off + n)))).
Proof.
  intros Hj. destruct chunk_facts as (Hlen & _). unfold write_at. eapply runs_bind; [apply runs_get|]. cbn [default id].
  assert (Hl : len (slice f 0 (Z.max j off)) = Z.max j off) by (rewrite len_slice by lia; lia).
  replace (brep (off - _) 0) with (@nil Z) by (unfold brep; by rewrite Hl, Z2Nat.nonpos by lia). rewrite app_nil_r.
  replace (splice (slice f 0 (Z.max j off)) off (slice f off (off + n))) with (slice f 0 (Z.max j (off + n))); [apply runs_put|].
  rewrite <- (slice_split f 0 off (Z.max j off)) by lia. assert (Ho : len (slice f 0 off) = off) by (rewrite len_slice by lia; lia).
  destruct (Z.le_gt_cases (off + n) j) as [Hc|Hc].
  - rewrite (Z.max_l j off), (Z.max_l j (off + n)) by lia. rewrite <- (slice_split f off (off + n) j) by lia.
    pose proof (splice_parts (slice f 0 off) (slice f off (off + n)) (slice f (off + n) j) _ eq_refl) as Hs. rewrite Ho in Hs.
    rewrite Hs, !slice_split by lia. done.
  - rewrite (Z.max_r j (off + n)) by lia. unfold splice. rewrite Hlen. rewrite drop_ge.
    2: { assert (len (slice f 0 off ++ slice f off (Z.max j off)) <= off + n); [|unfold len in *; lia].
         rewrite len_app, Ho, len_slice by lia. lia. }
    rewrite take_app_length', app_nil_r by (unfold len in Ho; lia).
    by rewrite slice_split by lia.
Qed.

End Chunk.

(** The rest of the dump from a file that holds the first [off] bytes, or
    the first [j] if those are more. *)
Lemma runs_dump k off j :
  0 <= off <= len f -> off mod 4096 = 0 \/ off = len f -> 0 <= j <= len f -> len f - off <= 4096 * Z.of_nat k -> 0 < len f ->
  runs (while (S k) (dump_body fuel (fun _ => false) crc ram (len f)) off) loaded (Some (slice f 0 (Z.max j off)))
    (Brk (len f)) loaded (Some f).
Proof.
  intros Hoff Hal Hj Hk Hpos. revert off Hoff Hal Hk. induction k as [|k IH]; intros off Hoff Hal Hk; cbn [while];
    (destruct (decide (off = len f)) as [->|Hne];
     [unfold dump_body; rewrite Z.ltb_irrefl; cbn [negb];
      rewrite Z.max_r, slice_all by lia;
      eapply runs_bind; [apply runs_ret|apply runs_ret]|]); [lia|].
  destruct Hal as [Hal|?]; [|done]. set (n := Z.min chunk_size (len f - off)). assert (Hn : 0 < n <= 4096) by (unfold n, chunk_size; lia).
  assert (Hn16 : n mod 16 = 0).
  { unfold n, chunk_size. destruct (Z.min_spec 4096 (len f - off)) as [[_ E]|[_ E]]; change 0x1000 with 4096; rewrite E; [done|].
    rewrite Zminus_mod, Hf16. pose proof (Z.div_mod off 4096 ltac:(lia)) as Hd. rewrite Hal in Hd. rewrite Hd.
    replace (4096 * (off / 4096) + 0) with (256 * (off / 4096) * 16) by lia. by rewrite Z_mod_mult. }
  destruct (chunk_facts off n ltac:(lia) Hn ltac:(unfold n; lia)) as (Hlen & _).
  eapply runs_bind.
  - unfold dump_body at 1. replace (off <? len f) with true by (symmetry; apply Z.ltb_lt; lia). cbn [negb]. fold n.
    eapply runs_bind; [apply runs_read_chunk; try done; unfold n; lia|].
    eapply runs_bind; [apply runs_write_at; [lia|exact Hn|unfold n; lia|exact Hj]|]. rewrite Hlen. apply runs_ret.
  - apply IH; [unfold n; lia| |unfold n, chunk_size; lia].
    unfold n, chunk_size. destruct (Z.min_spec 0x1000 (len f - off)) as [[_ ->]|[_ ->]]; [left|right; lia].
    change 0x1000 with (1 * 4096). rewrite Z_mod_plus_full. done.
Qed.

Lemma runs_verify : crc = true -> 0 < len f ->
  runs (verify_and_repair fuel ram (len f) 0x10000 0x1000 5) loaded (Some f) 0 loaded (Some f).
Proof.
  intros Hc Hpos. unfold verify_and_repair. eapply runs_bind; [apply runs_get|]. eapply runs_bind; [apply runs_ret|].
  rewrite slice_all, Z.eqb_refl by done. cbn [negb].
  assert (Ht : 0 < whole_timeout (len f)).
  { unfold whole_timeout. pose proof (Z.div_pos (len f * 1000000 + (2 ^ 20 - 1)) (2 ^ 20)). lia. }
  pose proof (runs_crc 0 1 ltac:(lia) ltac:(lia) ltac:(lia) (Some f) (whole_timeout (len f)) Hc Ht (len f) ltac:(lia)) as Hcr. rewrite Z.add_0_r, Z.add_0_l in Hcr.
  eapply runs_bind.
  - unfold device_crc. eapply runs_bind; [apply runs_first|apply runs_ret]. eapply runs_bind; [exact Hcr|apply runs_ret].
  - rewrite slice_all, Z.eqb_refl by done. apply runs_ret.
Qed.

(** The first sixteen bytes are not all alike. *)
Hypothesis Hstart : length (remove_dups (slice f 0 16)) <> 1%nat.
Hypothesis Hpos : 0 < len f.

Lemma runs_load (o : option bytes) : runs (read_into_ram fuel ram (len f)) fresh o tt loaded o.
Proof.
  unfold read_into_ram. eapply runs_bind.
  { eapply runs_command with (d' := probed); [done|reflexivity|by repeat constructor..| |done|done].
    apply (output_line (codes "16384 KiB hi_sfc at 0:0 is now current device")); [reflexivity|by repeat constructor]. }
  cbv beta. replace (_ || _) with false by reflexivity. destruct (hex_arg_word ram Hram) as (Hw & Hv & Hra & Hrc).
  destruct (hex_arg_word (len f) ltac:(lia)) as (_ & _ & Hna & Hnc).
  pose proof (hex_arg_length ram ltac:(lia)) as Hlr. pose proof (hex_arg_length (len f) ltac:(lia)) as Hln.
  eapply runs_bind.
  { eapply runs_command with (d' := loaded); [done| | | |apply (output_line (codes "Read: OK")); [reflexivity|by repeat constructor]|done|].
    - rewrite exec_read by (done || lia). cbn [u_flash u_crc u_rx u_clock probed]. by rewrite slice_all.
    - unfold ascii in *. parts; done || by repeat constructor.
    - parts; done || by repeat constructor.
    - unfold len in *. rewrite !length_app. text_lengths. lia. }
  cbv beta. match goal with |- context [sf_read_ok ?r] => replace (sf_read_ok r) with true end.
  2: { unfold sf_read_ok. match goal with |- context [contains ?p ?r] => replace (contains p r) with true; [done|] end. symmetry. apply contains_spec.
       unfold answer. exists (codes "sf read " ++ hex_arg ram ++ codes " 0x0 " ++ hex_arg (len f) ++ [13; 10]), ([13; 10] ++ PROMPT).
       by rewrite <- !app_assoc. }
  cbn [negb]. assert (H16 : 16 <= len f) by (pose proof (Z.div_mod (len f) 16 ltac:(lia)); lia).
  set (cmd := codes "md.b " ++ hex_arg ram ++ codes " 10").
  assert (Hcmd : exec cmd loaded = (md_text (ram + 0) (slice f 0 (0 + 16)), loaded)).
  { unfold exec, cmd. change (codes "md.b " ++ ?x) with (codes "md.b" ++ 32 :: x). change (codes " 10") with (32 :: codes "10").
    rewrite split_ws_word by (split; [done|by repeat constructor]). rewrite split_ws_word by done.
    change (split_ws (codes "10") []) with [codes "10"]. rewrite Hv. rewrite <- ram_at_loaded, Z.add_0_r. reflexivity. }
  eapply runs_bind.
  { eapply (runs_md 0 16); [lia|lia|lia|reflexivity|exact Hcmd| | |unfold cmd; rewrite !length_app; text_lengths; lia|done].
    - unfold cmd, ascii in *. parts; done || by repeat constructor.
    - unfold cmd. parts; done || by repeat constructor. }
  cbv beta. rewrite (md_answer 0 16 ltac:(lia) ltac:(lia) ltac:(lia) eq_refl cmd 109 _ eq_refl eq_refl eq_refl).
  2: { unfold one_line, cmd, hex_arg. parts; try (by repeat constructor). apply hex_text_line. by apply hex_x_spec. }
  rewrite Z.add_0_l, (slice_all (slice f 0 16) 16) by (rewrite len_slice; lia).
  rewrite (bool_decide_eq_false_2 _ Hstart), andb_false_r. apply runs_ret.
Qed.

Lemma runs_detect_crc32 (o : option bytes) : runs (detect_crc32 fuel) loaded o crc loaded o.
Proof.
  assert (Hram0 : ram_at loaded 0 0 = []) by (unfold ram_at, loaded; cbn; unfold slice; by rewrite Z.add_0_r, Z.sub_diag).
  assert (He : exec (codes "crc32 0 0") loaded = (if crc then crc_line 0 0 (crc32 []) else unknown_line (codes "crc32"), loaded)).
  { transitivity (if crc then crc_line 0 0 (crc32 (ram_at loaded 0 0)) else unknown_line (codes "crc32"), loaded); [|by rewrite Hram0].
    unfold loaded. by destruct crc. }
  unfold detect_crc32. eapply runs_bind.
  { eapply runs_command; [done|exact He|by repeat constructor..| |done|by destruct crc].
    destruct crc; [apply crc_line_ok; vm_compute; split; done|].
    apply (output_line (codes "Unknown command " ++ [39] ++ codes "crc32" ++ [39] ++ codes " - try help")); [reflexivity|by repeat constructor]. }
  cbv beta. destruct crc.
  - match goal with |- runs ?m _ _ _ _ _ => replace m with (ret (T := Console) (Ob := option bytes) true) by (vm_compute; reflexivity) end. apply runs_ret.
  - match goal with |- runs ?m _ _ _ _ _ => replace m with (ret (T := Console) (Ob := option bytes) false) by (vm_compute; reflexivity) end. apply runs_ret.
Qed.

End Delivery.

(** Where a dump resumes, and what the file it goes on with holds. *)
Lemma resume_from f crc file :
  0 < len f -> (file = None \/ exists j, 0 <= j <= len f /\ file = Some (slice f 0 j)) ->
  exists off keep j, resume_at file (len f) crc = (off, keep) /\ 0 <= off <= len f /\ (off mod 4096 = 0 \/ off = len f) /\
    0 <= j <= len f /\ if keep : bool then file = Some (slice f 0 (Z.max j off)) else Some (@nil Z) = Some (slice f 0 (Z.max j off)).
Proof.
  intros Hpos [->|(j & Hj & ->)]; [exists 0, false, 0; split_and!; try lia; try done; by left|].
  unfold resume_at. rewrite len_slice, Z.sub_0_r, (Z.min_l j), (Z.max_r 0) by lia. change chunk_size with 4096.
  pose proof (Z.mul_div_le j 4096 ltac:(lia)).
  destruct ((0 <? _) && _) eqn:E1.
  { b2p. exists (j / 4096 * 4096), true, j. split_and!; try lia; try done; [left; apply Z_mod_mult|]. by rewrite Z.max_l by lia. }
  destruct ((j =? len f) && crc) eqn:E2.
  { b2p. exists (len f), true, j. split_and!; try lia; try done. rewrite Z.max_r by lia. congruence. }
  exists 0, false, 0. split_and!; try lia; done || by left.
Qed.

(** C26. End to end against a U-Boot console, with or without a [crc32]
    command, told the size of the flash and an address with room for it in RAM:
    for any flash of whole rows of 16 bytes in which no prompt can be read and
    whose first 16 bytes are not all the same, [dump_flash] ends, returns the
    size of the flash and leaves a file that is the flash, byte for byte,
    whether it starts without a file or from the file an earlier run was
    interrupted at, a beginning of the flash of any length. *)
Theorem dump_flash_delivers fuel ram f crc clock load_prof chip boot_log file lg :
  0 <= ram -> ram + len f <= 2 ^ 32 -> 0 < len f -> len f mod 16 = 0 -> is_bytes f -> calm f = true ->
  length (remove_dups (slice f 0 16)) <> 1%nat -> 2 ^ 15 + len f <= Z.of_nat fuel ->
  (file = None \/ exists j, 0 <= j <= len f /\ file = Some (slice f 0 j)) ->
  exists lg', dump_flash fuel (fun _ => false) load_prof (Some (len f)) (Some ram) chip boot_log
      (World (fresh f crc clock) file lg)
    = (Ok (len f), World (loaded ram f crc clock) (Some f) lg').
Proof.
  intros Hram Htop Hpos Hf16 Hby Hcalm Hst Hfuel Hfile. revert lg.
  change (runs (dump_flash fuel (fun _ => false) load_prof (Some (len f)) (Some ram) chip boot_log) (fresh f crc clock) file
    (len f) (loaded ram f crc clock) (Some f)).
  unfold dump_flash. eapply runs_bind; [apply runs_ret|]. eapply runs_bind; [apply runs_ret|]. cbv beta.
  eapply runs_bind; [by apply runs_load|]. eapply runs_bind; [by apply runs_detect_crc32|]. eapply runs_bind; [apply runs_get|]. cbv beta.
  destruct (resume_from f crc file Hpos Hfile) as (off & keep & j & Hres & Hoff & Hal & Hj & Hkeep). rewrite Hres.
  eapply runs_bind with (o1 := Some (slice f 0 (Z.max j off))) (d1 := loaded ram f crc clock).
  { destruct keep; [rewrite <- Hkeep; apply runs_ret|]. rewrite Hkeep. apply runs_put. }
  destruct fuel as [|k]; [lia|]. eapply runs_bind; [apply (runs_dump (S k)); try done; lia|]. cbv beta iota.
  rewrite Z.eqb_refl, andb_true_r. destruct crc; (eapply runs_bind; [|apply runs_ret]); [|apply runs_ret].
  eapply runs_bind; [by apply runs_verify|apply runs_ret].
Qed.

(** A flash of 48 bytes, resumed from a file of 20. *)
Definition demo_flash : bytes := (fun i => (i * 7 + 3) mod 256) <$> range 48.

Theorem dump_flash_delivers_witness :
  exists lg', dump_flash (Z.to_nat (2 ^ 16)) (fun _ => false) (fun _ => Raise ValueError) (Some 48) (Some 0x82000000) ""%string []
      (World (fresh demo_flash true 0) (Some (slice demo_flash 0 20)) [])
    = (Ok 48, World (loaded 0x82000000 demo_flash true 0) (Some demo_flash) lg').
Proof.
  apply (dump_flash_delivers (Z.to_nat (2 ^ 16)) 0x82000000 demo_flash true 0 (fun _ => Raise ValueError) ""%string []
    (Some (slice demo_flash 0 20)) []); [lia|vm_compute; discriminate|reflexivity..|apply (bool_decide_eq_true_1 _); vm_compute; reflexivity|
    reflexivity|vm_compute; discriminate|rewrite Z2Nat.id by lia; vm_compute; discriminate|].
  right. exists 20. split; [split; vm_compute; discriminate|reflexivity].
Defined.

(** A file of 50 bytes in which one of the 48 of the flash is wrong, and the
    console of that flash: one chunk is read again. *)
Abbreviation repair_run := (verify_and_repair 100 0x82000000 48 32 16 5
  (World (loaded 0x82000000 demo_flash true 0) (Some (<[20%nat := 0]> demo_flash ++ [1; 2])) [])).

Theorem verify_and_repair_sound_witness :
  exists f f', Some (<[20%nat := 0]> demo_flash ++ [1; 2]) = Some f /\ obj (snd repair_run) = Some f' /\ 48 <= len f /\
    len f' = len f /\ drop (Z.to_nat 48) f' = drop (Z.to_nat 48) f /\ 0 <= 1 /\ (1 = 0 -> f' = f) /\
    exists w1, get_device_crc32 100 0x82000000 48 (whole_timeout 48) w1 = (Ok (Some (crc32 (slice f' 0 48))), snd repair_run).
Proof.
  refine (verify_and_repair_sound 100 0x82000000 48 32 16 5 (World (loaded 0x82000000 demo_flash true 0)
    (Some (<[20%nat := 0]> demo_flash ++ [1; 2])) []) (snd repair_run) 1 _ _ _ _); [lia..|].
  apply pair_fst. vm_compute. reflexivity.
Defined.

(** The short row end to end: of a size that is not a whole number of rows
    the dump takes the column of characters for a nineteenth byte, and as the
    offset is then past the size, neither the check of the chunk nor that of
    the whole image takes place. *)
Theorem dump_short_row_unverified :
  let f := range 16 ++ [97; 98] in
  let r := dump_flash 100 (fun _ => false) (fun _ => Raise ValueError) (Some 18) (Some 0x82000000) ""%string []
      (World (fresh f true 0) None []) in
  fst r = Ok 19 /\ obj (snd r) = Some (f ++ [0xAB]).
Proof. vm_compute. split; reflexivity. Qed.
