(* ===== verification/Bundle.v ===== *)
(** * Firmware packages

  Models [src/src/defib/install/firmware.py]: where the settings of a split
  image begin, and the choice and the integrity checks of the kernel and root
  file system in an OpenIPC package.  A package is the list of the members of
  its tar archive, each with whether it is a regular file.  Names and texts are
  lists of character codes; [hashlib.md5] is written out.  The texts of errors
  are left out. *)

From S2P Require Import Prelude Text Crc Capture Ubi Flashdump.

(** ** hashlib.md5 *)

Module Md5.

Definition w32 (z : Z) : Z := Z.land z 0xFFFFFFFF.
Definition not32 (z : Z) : Z := Z.lxor z 0xFFFFFFFF.
Definition rotl (x n : Z) : Z := Z.lor (w32 (Z.shiftl x n)) (Z.shiftr x (32 - n)).

(** [floor(2**32 * abs(sin(i + 1)))] *)
Definition K : list Z := [
  0xd76aa478; 0xe8c7b756; 0x242070db; 0xc1bdceee; 0xf57c0faf; 0x4787c62a; 0xa8304613; 0xfd469501;
  0x698098d8; 0x8b44f7af; 0xffff5bb1; 0x895cd7be; 0x6b901122; 0xfd987193; 0xa679438e; 0x49b40821;
  0xf61e2562; 0xc040b340; 0x265e5a51; 0xe9b6c7aa; 0xd62f105d; 0x02441453; 0xd8a1e681; 0xe7d3fbc8;
  0x21e1cde6; 0xc33707d6; 0xf4d50d87; 0x455a14ed; 0xa9e3e905; 0xfcefa3f8; 0x676f02d9; 0x8d2a4c8a;
  0xfffa3942; 0x8771f681; 0x6d9d6122; 0xfde5380c; 0xa4beea44; 0x4bdecfa9; 0xf6bb4b60; 0xbebfbc70;
  0x289b7ec6; 0xeaa127fa; 0xd4ef3085; 0x04881d05; 0xd9d4d039; 0xe6db99e5; 0x1fa27cf8; 0xc4ac5665;
  0xf4292244; 0x432aff97; 0xab9423a7; 0xfc93a039; 0x655b59c3; 0x8f0ccc92; 0xffeff47d; 0x85845dd1;
  0x6fa87e4f; 0xfe2ce6e0; 0xa3014314; 0x4e0811a1; 0xf7537e82; 0xbd3af235; 0x2ad7d2bb; 0xeb86d391].
Definition SHIFT : list Z := [7; 12; 17; 22; 5; 9; 14; 20; 4; 11; 16; 23; 6; 10; 15; 21].

Definition nth0 (l : list Z) (i : Z) : Z := default 0 (l !! Z.to_nat i).

Definition step (m : list Z) (s : Z * Z * Z * Z) (i : Z) : Z * Z * Z * Z :=
  let '(a, b, c, d) := s in
  let '(f, g) :=
    if i <? 16 then (Z.lor (Z.land b c) (Z.land (not32 b) d), i)
    else if i <? 32 then (Z.lor (Z.land d b) (Z.land (not32 d) c), (5 * i + 1) mod 16)
    else if i <? 48 then (Z.lxor (Z.lxor b c) d, (3 * i + 5) mod 16)
    else (Z.lxor c (Z.lor b (not32 d)), (7 * i) mod 16) in
  let f := w32 (f + a + nth0 K i + nth0 m g) in
  (d, w32 (b + rotl f (nth0 SHIFT (4 * (i / 16) + i mod 4))), b, c).

Definition block (s : Z * Z * Z * Z) (chunk : bytes) : Z * Z * Z * Z :=
  let m := le_int <$> pieces 4 chunk in
  let '(a0, b0, c0, d0) := s in
  let '(a, b, c, d) := foldl (step m) s (range 64) in
  (w32 (a0 + a), w32 (b0 + b), w32 (c0 + c), w32 (d0 + d)).

Definition digest (data : bytes) : bytes :=
  let padded := data ++ [0x80] ++ brep ((55 - len data) mod 64) 0 ++ le_bytes 8 (len data * 8 mod 2 ^ 64) in
  let '(a, b, c, d) := foldl block (0x67452301, 0xefcdab89, 0x98badcfe, 0x10325476) (pieces 64 padded) in
  le_bytes 4 a ++ le_bytes 4 b ++ le_bytes 4 c ++ le_bytes 4 d.

Definition hexdigest (data : bytes) : list Z := concat ((fun b => codes (hex_0x 2 b)) <$> digest data).

End Md5.

(** The test suite of RFC 1321. *)
Example md5_empty : Md5.hexdigest [] = codes "d41d8cd98f00b204e9800998ecf8427e".
Proof. vm_compute. reflexivity. Qed.
Example md5_abc : Md5.hexdigest (codes "abc") = codes "900150983cd24fb0d6963f7d28e17f72".
Proof. vm_compute. reflexivity. Qed.
Example md5_long : Md5.hexdigest (codes "12345678901234567890123456789012345678901234567890123456789012345678901234567890")
  = codes "57edf4a22be3c955ac49da2e2107b67a".
Proof. vm_compute. reflexivity. Qed.

(** ** Data *)

Record FirmwareBundle := Bundle {
  fb_kernel_name : list Z; fb_kernel : bytes; fb_rootfs_name : list Z; fb_rootfs : bytes; fb_split : bool
}.

Definition ERASE_BLOCK : Z := 0x10000.
Definition UIMAGE_MAGIC : bytes := [0x27; 0x05; 0x19; 0x56].
Definition UIMAGE_HEADER : Z := 64.
Definition SQUASHFS_MAGIC : bytes := codes "hsqs".

(** A member of the archive. *)
Record member := Member { m_isfile : bool; m_name : list Z; m_data : bytes }.

(** ** Split images *)

Definition blocks_up (n : Z) : Z := (n + ERASE_BLOCK - 1) / ERASE_BLOCK * ERASE_BLOCK.

Definition split_image_end (image : bytes) : res Z :=
  if negb (beq (slice image 0 4) UIMAGE_MAGIC) then Raise ValueError else
  let data := be_int (slice image 12 16) in
  if data =? 0 then Raise ValueError else
  let kernel := UIMAGE_HEADER + data in
  let squash := blocks_up kernel in
  if (len image <? squash + 48) || negb (beq (slice image squash (squash + 4)) SQUASHFS_MAGIC) then Raise ValueError else
  let used := le_int (slice image (squash + 40) (squash + 48)) in
  let end_ := squash + blocks_up used in
  if (used =? 0) || (len image <? squash + used) then Raise ValueError else
  if end_ <? len image then Raise ValueError else
  Ok end_.

(** ** Packages *)

Definition is_ubi_member (name : list Z) : bool := beq name (codes "rootfs.ubi") || starts_with (codes "rootfs.ubi.") name.

(** [name.rsplit("/", 1)[-1]] *)
Definition basename (name : list Z) : list Z := default [] (last (split_on 47 name)).

(** [s.removesuffix(suf)] *)
Definition removesuffix (suf l : list Z) : list Z := if ends_with suf l then but_last (length suf) l else l.

(** [s.lstrip(".")] *)
Fixpoint lstrip_dots (l : list Z) : list Z :=
  match l with
  | c :: l' => if c =? 46 then lstrip_dots l' else l
  | [] => []
  end.

(** [data.decode()] *)
Definition decode_utf8 (data : bytes) : res (list Z) :=
  let s := utf8_decode data in
  match utf8_encode s with
  | Ok b => if beq b data then Ok s else Raise UnicodeError
  | _ => Raise UnicodeError
  end.

(** The variables of the loop; [expected_md5] with the newest entry first. *)
Record found := Found {
  kernel_name : list Z; kernel : option bytes; rootfs_name : list Z; rootfs : option bytes;
  ubi_members : list (list Z); split_name : list Z; split_image : option bytes; expected_md5 : list (list Z * list Z)
}.
Definition nothing_found : found := Found [] None [] None [] [] None [].

Definition take_member (ubi_only : bool) (f : found) (m : member) : res found :=
  let name := m_name m in
  if negb (m_isfile m) then Ok f else
  if ends_with (codes ".md5sum") name then
    let! text := decode_utf8 (m_data m) in
    let line := strip text in
    if beq line [] then Ok f else
    let! word := index (split_ws line []) 0 in
    Ok (Found (kernel_name f) (kernel f) (rootfs_name f) (rootfs f) (ubi_members f) (split_name f) (split_image f)
          ((removesuffix (codes ".md5sum") name, word) :: expected_md5 f))
  else if starts_with (codes "firmware.bin") (basename name) then
    Ok (Found (kernel_name f) (kernel f) (rootfs_name f) (rootfs f) (ubi_members f) name (Some (m_data m)) (expected_md5 f))
  else if ubi_only then
    if is_ubi_member name then
      Ok (Found (kernel_name f) (kernel f) name (Some (m_data m)) (ubi_members f ++ [name]) (split_name f) (split_image f) (expected_md5 f))
    else Ok f
  else if starts_with (codes "uImage") name then
    Ok (Found name (Some (m_data m)) (rootfs_name f) (rootfs f) (ubi_members f) (split_name f) (split_image f) (expected_md5 f))
  else if starts_with (codes "rootfs.squashfs") name || is_ubi_member name then
    Ok (Found (kernel_name f) (kernel f) name (Some (m_data m)) (ubi_members f) (split_name f) (split_image f) (expected_md5 f))
  else Ok f.

Fixpoint take_members (ubi_only : bool) (f : found) (ms : list member) : res found :=
  match ms with
  | [] => Ok f
  | m :: ms' => let! f := take_member ubi_only f m in take_members ubi_only f ms'
  end.

(** Truth of an optional bytes object. *)
Definition full (o : option bytes) : bool := match o with Some (_ :: _) => true | _ => false end.

(** [expected is None or md5(data).hexdigest() == expected] *)
Definition md5_ok (sums : list (list Z * list Z)) (name : list Z) (data : bytes) : bool :=
  match assoc sums name with
  | Some expected => beq (Md5.hexdigest data) expected
  | None => true
  end.

Definition board_ok (boards : option (list string)) (board : list Z) : bool :=
  match boards with
  | Some bs => bool_decide (board ∈ (codes <$> bs))
  | None => true
  end.

Definition split_bundle (boards : option (list string)) (f : found) (image : bytes) : res FirmwareBundle :=
  if full (kernel f) || full (rootfs f) then Raise ValueError else
  if negb (md5_ok (expected_md5 f) (split_name f) image) then Raise ValueError else
  let! _ := split_image_end image in
  let board := lstrip_dots (removeprefix (codes "firmware.bin") (basename (split_name f))) in
  if negb (board_ok boards board) then Raise ValueError else
  Ok (Bundle [] [] (split_name f) image true).

(** The tests of a UBI package. *)
Definition check_ubi (boards : option (list string)) (f : found) : res unit :=
  if negb (full (rootfs f)) then Raise ValueError else
  if 1 <? len (ubi_members f) then Raise ValueError else
  if negb (is_ubi_image (default [] (rootfs f))) then Raise ValueError else
  let board := removeprefix (codes "rootfs.ubi.") (basename (rootfs_name f)) in
  if negb (board_ok boards board) then Raise ValueError else Ok tt.

(** [if not name: continue], then the test of the checksum. *)
Definition sum_ok (sums : list (list Z * list Z)) (name : list Z) (data : bytes) : bool :=
  beq name [] || md5_ok sums name data.

Definition separate_bundle (ubi_only : bool) (boards : option (list string)) (f : found) : res FirmwareBundle :=
  let! kernel :=
    if ubi_only then let! _ := check_ubi boards f in Ok []
    else if negb (full (kernel f)) || negb (full (rootfs f)) then Raise ValueError else Ok (default [] (kernel f)) in
  let rootfs := default [] (rootfs f) in
  if negb (sum_ok (expected_md5 f) (kernel_name f) kernel && sum_ok (expected_md5 f) (rootfs_name f) rootfs)
  then Raise ValueError else
  Ok (Bundle (kernel_name f) kernel (rootfs_name f) rootfs false).

Definition load_firmware_bundle (archive : list member) (ubi_only : bool) (boards : option (list string)) : res FirmwareBundle :=
  let! f := take_members ubi_only nothing_found archive in
  match split_image f, ubi_only with
  | Some image, false => split_bundle boards f image
  | _, _ => separate_bundle ubi_only boards f
  end.

(** ** Split images lie as the boot loader expects them *)

Lemma blocks_up_spec n : 0 <= n -> blocks_up n mod ERASE_BLOCK = 0 /\ n <= blocks_up n < n + ERASE_BLOCK.
Proof.
  intros Hn. unfold blocks_up. split; [by apply Z_mod_mult|].
  pose proof (Z.div_mod (n + ERASE_BLOCK - 1) ERASE_BLOCK ltac:(done)). pose proof (Z.mod_pos_bound (n + ERASE_BLOCK - 1) ERASE_BLOCK ltac:(done)).
  unfold ERASE_BLOCK in *. lia.
Qed.

(** An image that [split_image_end] accepts holds a uImage at its start
    and, at the first block boundary after it, a squashfs, both whole; the
    offset returned is a block boundary less than one block past the end of
    the image. *)
Theorem split_image_end_spec image e :
  is_bytes image -> split_image_end image = Ok e ->
  let k := UIMAGE_HEADER + be_int (slice image 12 16) in
  let s := blocks_up k in
  let u := le_int (slice image (s + 40) (s + 48)) in
  slice image 0 4 = UIMAGE_MAGIC /\ slice image s (s + 4) = SQUASHFS_MAGIC /\
  UIMAGE_HEADER < k <= s /\ s < s + u <= len image /\ len image <= e < len image + ERASE_BLOCK /\
  s mod ERASE_BLOCK = 0 /\ e mod ERASE_BLOCK = 0.
Proof.
  intros Hb. unfold split_image_end. set (k := UIMAGE_HEADER + _). set (s := blocks_up k). set (u := le_int _).
  destruct (negb (beq (slice image 0 4) UIMAGE_MAGIC)) eqn:E1; [done|].
  destruct (be_int (slice image 12 16) =? 0) eqn:E2; [done|].
  destruct (_ || negb (beq (slice image s (s + 4)) SQUASHFS_MAGIC)) eqn:E3; [done|].
  destruct (_ || (len image <? s + u)) eqn:E4; [done|]. destruct (_ <? len image) eqn:E5; [done|]. intros [= <-]. b2p.
  assert (Hd : 0 <= be_int (slice image 12 16)) by (by apply be_int_bound, is_bytes_slice).
  assert (Hu : 0 <= u) by (by apply le_int_bound, is_bytes_slice).
  destruct (blocks_up_spec k) as [Hs1 Hs2]; [unfold k, UIMAGE_HEADER; lia|]. destruct (blocks_up_spec u Hu) as [Hu1 Hu2]. fold s in Hs1, Hs2.
  split_and!; try done; try (unfold k, UIMAGE_HEADER in *; lia).
  by rewrite Z.add_mod, Hs1, Hu1.
Qed.

(** ** The package that is installed *)

(** The first word of the checksum file of [name], if [m] is it. *)
Definition sum_entry (name : list Z) (m : member) : option (list Z) :=
  if m_isfile m && ends_with (codes ".md5sum") (m_name m) && beq (removesuffix (codes ".md5sum") (m_name m)) name then
    match decode_utf8 (m_data m) with Ok t => head (split_ws (strip t) []) | _ => None end
  else None.

(** [name] and [data] are those of a regular file of the archive. *)
Definition holds_file (archive : list member) (name : list Z) (data : bytes) : Prop := Member true name data ∈ archive.

Definition found_in (archive : list member) (f : found) : Prop :=
  (forall d, kernel f = Some d -> holds_file archive (kernel_name f) d /\ starts_with (codes "uImage") (kernel_name f) = true) /\
  (forall d, rootfs f = Some d -> holds_file archive (rootfs_name f) d /\ rootfs_name f <> []) /\
  (forall d, split_image f = Some d -> holds_file archive (split_name f) d /\ starts_with (codes "firmware.bin") (basename (split_name f)) = true).

Lemma found_in_weaken a b f : found_in a f -> found_in (a ++ b) f.
Proof.
  unfold found_in, holds_file. intros (H1 & H2 & H3). split_and!; intros d Hd; [apply H1 in Hd|apply H2 in Hd|apply H3 in Hd];
    destruct Hd; (split; [apply elem_of_app; by left|done]).
Qed.

Lemma sum_entry_other name m : ends_with (codes ".md5sum") (m_name m) = false \/ m_isfile m = false -> sum_entry name m = None.
Proof. unfold sum_entry. intros [->| ->]; by rewrite ?andb_false_r. Qed.

Lemma take_member_spec u f m f' archive name :
  found_in archive f -> take_member u f m = Ok f' ->
  found_in (archive ++ [m]) f' /\
  assoc (expected_md5 f') name = match sum_entry name m with Some w => Some w | None => assoc (expected_md5 f) name end.
Proof.
  intros Hf. assert (Hw := found_in_weaken archive [m] f Hf). unfold take_member.
  destruct (m_isfile m) eqn:Ei; cbn [negb]; [|intros [= <-]; rewrite sum_entry_other by (by right); done].
  assert (Hm : holds_file (archive ++ [m]) (m_name m) (m_data m)).
  { unfold holds_file. apply elem_of_app. right. apply list_elem_of_singleton. destruct m. cbn in *. by subst. }
  destruct (ends_with (codes ".md5sum") (m_name m)) eqn:Es.
  { unfold sum_entry. rewrite Ei, Es. cbn [andb]. destruct (decode_utf8 (m_data m)) as [text|e|]; cbn [res_bind]; [|done..].
    destruct (beq (strip text) []) eqn:El.
    - intros [= <-]. apply bool_decide_eq_true_1 in El. rewrite El. cbn. by destruct (beq (removesuffix _ _) name).
    - unfold index. destruct (split_ws (strip text) []) as [|w ws]; cbn; [done|]. intros [= <-]. split; [exact Hw|].
      unfold assoc. cbn [expected_md5 List.find fst]. unfold beq. by case_bool_decide. }
  rewrite (sum_entry_other name m) by (by left). destruct Hw as (H1 & H2 & H3).
  destruct (starts_with (codes "firmware.bin") (basename (m_name m))) eqn:E1.
  { intros [= <-]. split; [|done]. split_and!; [done|done|]. by intros d [= <-]. }
  assert (Hrf : starts_with (codes "rootfs.squashfs") (m_name m) || is_ubi_member (m_name m) = true -> m_name m <> []).
  { intros Hx Hn. by rewrite Hn in Hx. }
  destruct u.
  - destruct (is_ubi_member (m_name m)) eqn:E2; intros [= <-]; [|by split].
    split; [|done]. split_and!; [done| |done]. intros d [= <-]. split; [done|]. apply Hrf. by rewrite orb_true_r.
  - destruct (starts_with (codes "uImage") (m_name m)) eqn:E2.
    { intros [= <-]. split; [|done]. split_and!; [|done|done]. by intros d [= <-]. }
    destruct (starts_with (codes "rootfs.squashfs") (m_name m) || is_ubi_member (m_name m)) eqn:E3; intros [= <-]; [|by split].
    split; [|done]. split_and!; [done| |done]. intros d [= <-]. split; [done|]. by apply Hrf.
Qed.

Lemma take_members_spec u ms f f' archive name :
  found_in archive f -> take_members u f ms = Ok f' ->
  found_in (archive ++ ms) f' /\
  assoc (expected_md5 f') name = match last (omap (sum_entry name) ms) with Some w => Some w | None => assoc (expected_md5 f) name end.
Proof.
  revert f archive. induction ms as [|m ms IH]; intros f archive Hf; cbn [take_members].
  { intros [= <-]. by rewrite app_nil_r. }
  destruct (take_member u f m) as [f1|e|] eqn:E; cbn [res_bind]; [|done..]. intros Hms.
  destruct (take_member_spec u f m f1 archive name Hf E) as [H1 H2]. destruct (IH f1 _ H1 Hms) as [H3 H4].
  rewrite <- app_assoc in H3. split; [exact H3|]. rewrite H4, H2.
  change (omap (sum_entry name) (m :: ms)) with (match sum_entry name m with Some w => w :: omap (sum_entry name) ms | None => omap (sum_entry name) ms end).
  destruct (sum_entry name m); [|done]. rewrite last_cons. by destruct (last _).
Qed.

Lemma nothing_found_in : found_in [] nothing_found.
Proof. unfold found_in. by split_and!. Qed.

Lemma full_some o : full o = true -> exists d, o = Some d /\ d <> [].
Proof. destruct o as [[|b d]|]; try done. intros _. by exists (b :: d). Qed.

(** The checksum the archive gives for [name], if it gives one, is that of
    [data]. *)
Definition checked (archive : list member) (name : list Z) (data : bytes) : Prop :=
  match last (omap (sum_entry name) archive) with
  | Some w => Md5.hexdigest data = w
  | None => True
  end.

Lemma md5_ok_checked u archive f name data :
  take_members u nothing_found archive = Ok f -> md5_ok (expected_md5 f) name data = true -> checked archive name data.
Proof.
  intros Hf.
  destruct (take_members_spec u archive _ f [] name nothing_found_in Hf) as [_ Ha]. unfold md5_ok, checked. rewrite Ha.
  destruct (last _); [|done]. by intros ?%bool_decide_eq_true_1.
Qed.

(** C32. What [load_firmware_bundle] returns comes from the archive, unaltered
    and checked: each payload is the contents of the regular file of its name
    and has the MD5 its [.md5sum] file gives (the last, if there are several).
    A split bundle is one well-formed image and no kernel; a UBI bundle is one
    UBI image and no kernel; any other has both a kernel and a root file
    system.  With a list of boards, the image of the first two kinds is named
    for one of them. *)
Theorem load_firmware_bundle_sound archive ubi_only boards b :
  load_firmware_bundle archive ubi_only boards = Ok b ->
  holds_file archive (fb_rootfs_name b) (fb_rootfs b) /\ checked archive (fb_rootfs_name b) (fb_rootfs b) /\ fb_rootfs b <> [] /\
  if fb_split b then
    ubi_only = false /\ fb_kernel b = [] /\ (exists e, split_image_end (fb_rootfs b) = Ok e) /\
    board_ok boards (lstrip_dots (removeprefix (codes "firmware.bin") (basename (fb_rootfs_name b)))) = true
  else if ubi_only then
    fb_kernel b = [] /\ is_ubi_image (fb_rootfs b) = true /\
    board_ok boards (removeprefix (codes "rootfs.ubi.") (basename (fb_rootfs_name b))) = true
  else
    holds_file archive (fb_kernel_name b) (fb_kernel b) /\ checked archive (fb_kernel_name b) (fb_kernel b) /\ fb_kernel b <> [].
Proof.
  unfold load_firmware_bundle. destruct (take_members ubi_only nothing_found archive) as [f|e|] eqn:Ef; cbn [res_bind]; [|done..].
  assert (Hmd5 := fun name data => md5_ok_checked ubi_only archive f name data Ef).
  destruct (take_members_spec ubi_only archive _ f [] [] nothing_found_in Ef) as [(Hk & Hr & Hs) _]. cbn [app] in Hk, Hr, Hs.
  intros Hb. assert (Hcase : (exists image, split_image f = Some image /\ ubi_only = false /\ split_bundle boards f image = Ok b) \/
    separate_bundle ubi_only boards f = Ok b) by (destruct (split_image f), ubi_only; eauto). clear Hb.
  destruct Hcase as [(image & Ei & -> & Hb)|Hb].
  - destruct (Hs image Ei) as [Hin _]. revert Hb. unfold split_bundle. destruct (full _ || full _); [done|].
    destruct (md5_ok _ _ image) eqn:Em; cbn [negb]; [|done]. destruct (split_image_end image) as [e| |] eqn:Ee; cbn [res_bind]; [|done..].
    destruct (board_ok boards _) eqn:Eb; cbn [negb]; [|done]. intros [= <-]. cbn.
    split_and!; try done; [by apply Hmd5|by intros ->|by exists e].
  - revert Hb. unfold separate_bundle. destruct ubi_only.
    + destruct (check_ubi boards f) as [[]|e|] eqn:Ec; cbn [res_bind]; [|done..].
      unfold check_ubi in Ec. destruct (full (rootfs f)) eqn:Er; cbn [negb] in Ec; [|done]. destruct (1 <? _); [done|].
      destruct (is_ubi_image _) eqn:Eu; cbn [negb] in Ec; [|done]. destruct (board_ok _ _) eqn:Eb; cbn [negb] in Ec; [|done].
      destruct (sum_ok (expected_md5 f) (rootfs_name f) _) eqn:Em; rewrite ?andb_false_r, ?andb_true_r; [|done].
      destruct (sum_ok _ (kernel_name f) _); cbn [negb]; [|done]. intros [= <-]. cbn.
      apply full_some in Er as (d & Ed & Hd). rewrite Ed in *. cbn in *. destruct (Hr d eq_refl) as [Hin Hn].
      split_and!; try done. unfold sum_ok in Em. apply orb_true_iff in Em as [Em|Em]; [by apply bool_decide_eq_true_1 in Em|by apply Hmd5].
    + destruct (full (kernel f)) eqn:Ek, (full (rootfs f)) eqn:Er; cbn [negb orb res_bind]; try done.
      apply full_some in Er as (d & Ed & Hd), Ek as (k & Ekk & Hkn). rewrite Ed, Ekk in *. cbn [default id] in *.
      destruct (sum_ok _ (kernel_name f) k) eqn:Emk; cbn [andb negb]; [|done]. destruct (sum_ok _ (rootfs_name f) d) eqn:Em; cbn [negb]; [|done].
      intros [= <-]. cbn. destruct (Hr d eq_refl) as [Hin Hn], (Hk k eq_refl) as [Hkin Hks].
      apply orb_true_iff in Em as [Em|Em]; [by apply bool_decide_eq_true_1 in Em|].
      apply orb_true_iff in Emk as [Emk|Emk]; [apply bool_decide_eq_true_1 in Emk; by rewrite Emk in Hks|].
      split_and!; try done; by apply Hmd5.
Qed.

Definition demo_split : bytes :=
  UIMAGE_MAGIC ++ brep 8 0 ++ [0; 0; 0; 1] ++ brep (0x10000 - 16) 7 ++ SQUASHFS_MAGIC ++ brep 36 0 ++ le_bytes 8 50 ++ [1; 2].

Theorem split_image_end_spec_witness :
  let k := UIMAGE_HEADER + be_int (slice demo_split 12 16) in
  let s := blocks_up k in
  let u := le_int (slice demo_split (s + 40) (s + 48)) in
  slice demo_split 0 4 = UIMAGE_MAGIC /\ slice demo_split s (s + 4) = SQUASHFS_MAGIC /\
  UIMAGE_HEADER < k <= s /\ s < s + u <= len demo_split /\ len demo_split <= 0x20000 < len demo_split + ERASE_BLOCK /\
  s mod ERASE_BLOCK = 0 /\ 0x20000 mod ERASE_BLOCK = 0.
Proof.
  refine (split_image_end_spec demo_split 0x20000 _ _); [apply (bool_decide_eq_true_1 _)|]; vm_compute; reflexivity.
Defined.

Definition demo_archive : list member := [
  Member true (codes "uImage.gk7205v300") [1; 2; 3];
  Member true (codes "rootfs.squashfs.gk7205v300.md5sum") (codes "5289df737df57326fcdd22597afb1fac  rootfs" ++ [10]);
  Member false (codes "uImage") [];
  Member true (codes "rootfs.squashfs.gk7205v300") [1; 2; 3]].

Theorem load_firmware_bundle_sound_witness :
  let b := Bundle (codes "uImage.gk7205v300") [1; 2; 3] (codes "rootfs.squashfs.gk7205v300") [1; 2; 3] false in
  holds_file demo_archive (fb_rootfs_name b) (fb_rootfs b) /\ checked demo_archive (fb_rootfs_name b) (fb_rootfs b) /\ fb_rootfs b <> [] /\
  holds_file demo_archive (fb_kernel_name b) (fb_kernel b) /\ checked demo_archive (fb_kernel_name b) (fb_kernel b) /\ fb_kernel b <> [].
Proof.
  intros b. refine (load_firmware_bundle_sound demo_archive false None b _). vm_compute. reflexivity.
Defined.
