(* ===== verification/Vendors.v ===== *)
(** * Stock U-Boot consoles

  Models [src/src/defib/vendors/hikvision.py], [registry.py] and [base.py]: the
  cameras whose own U-Boot is used to start OpenIPC's, and the way through
  Hikvision's console: stopping its autoboot, saving the factory address,
  sending the new U-Boot by YMODEM and starting it.

  [loop.time()] and [time.monotonic()] are the transport's clock.  Callbacks,
  elapsed times and [HikvisionUBootTiming.scaled], which only tests use, are
  left out; [str(e)] of an exception of the sender is a parameter. *)

From Stdlib Require Import Ascii.
From S2P Require Import Prelude Text Events Transport Crc Profiles HisiV500 Ymodem UbootEnv Flashdump.

(** ** Data *)

Record UBootBootstrapResult := BootstrapResult {
  br_recovery : RecoveryResult; br_buffer : bytes;        (* [recovery] and its [post_burn_buffer] *)
  preserved_env : list (list Z * list Z); chainloaded : bool
}.

Record StockUBootTarget := Target {
  st_selector : string; st_handler : string; st_load_address : Z; st_transient_env : list (list Z * list Z)
}.

Definition STOCK_UBOOT_TARGETS : list (string * StockUBootTarget) := [
  ("hi3518ev100:hiwatch-ds-i203", Target "hi3518ev100:hiwatch-ds-i203" "hikvision" 0x81000000 [(codes "phyaddru", codes "3")])]%string.

Definition get_stock_uboot_target (selector : string) : option StockUBootTarget := assoc STOCK_UBOOT_TARGETS (lower selector).
Definition list_stock_uboot_selectors : list string := sorted (st_selector ∘ snd <$> STOCK_UBOOT_TARGETS).

(** ** Timing, in microseconds *)

Record HikvisionUBootTiming := Timing {
  warm_probe_timeout : Z; boot_timeout : Z; prompt_timeout : Z; break_interval : Z; read_timeout : Z;
  interrupt_interval : Z; interrupt_duration : Z; ymodem_control_timeout : Z; ymodem_start_timeout : Z;
  openipc_timeout : Z; openipc_poll_interval : Z; ymodem_retries : Z
}.
Definition HIKVISION_DEFAULT_TIMING : HikvisionUBootTiming :=
  Timing 1000000 30000000 8000000 100000 100000 50000 1000000 5000000 15000000 15000000 50000 32.

Inductive ConsoleMode := OPENIPC | STOCK.

Definition STOCK_PROMPT : bytes := codes "HKVS #".
Definition AUTOBOOT_PROMPT : bytes := codes "hit ctrl+u to stop autoboot".
Definition INTERRUPT : bytes := [0x15].
Definition OPENIPC_PROMPTS : list bytes := [codes "OpenIPC #"; codes "hisilicon #"; 10 :: codes "=> "].

Definition any_in (needles : list bytes) (data : bytes) : bool := existsb (fun n => contains n data) needles.
Definition openipc_present (data : bytes) : bool := any_in OPENIPC_PROMPTS data.

Section Hikvision.
Context {T Ob : Type} `{Transport T}.
Variable fuel : nat.
Variable str_exn : exn -> string.
Variables (load_address : Z) (timing : HikvisionUBootTiming).
Abbreviation MV := (M T Ob).

(** [min(limit, max(0.0, deadline - loop.time()))] *)
Definition time_left (limit deadline : Z) : MV Z :=
  let* now := monotonic in ret (Z.min limit (Z.max 0 (deadline - now))).

Definition until_body (needles : list bytes) (deadline : Z) (buf : bytes) : MV (ctl bytes bytes) :=
  let* now := monotonic in
  if negb (now <? deadline) then ret (Brk buf) else
  let* tmo := time_left (read_timeout timing) deadline in
  let* chunk := try_except (let* d := read 256 (Some tmo) in ret (Some d)) is_TransportTimeout (fun _ => ret None) in
  match chunk with
  | None =>
      let* pause := time_left (openipc_poll_interval timing) deadline in
      let* _ := sleep pause in
      ret (Next buf)
  | Some chunk =>
      if beq chunk [] then ret (Next buf) else
      let buf := buf ++ chunk in
      if any_in needles (last_n 4096 buf) then ret (Rtn buf) else ret (Next buf)
  end.

(** [_read_until]: whether a needle was found, or the TimeoutError of the
    code, and all that was read, which is also what [capture] gets. *)
Definition read_until (needles : list bytes) (timeout : Z) : MV (bool * bytes) :=
  let* now := monotonic in
  let* c := while fuel (until_body needles (now + timeout)) [] in
  match c with
  | Rtn buf => ret (true, buf)
  | Next buf | Brk buf => ret (false, buf)
  end.

Definition both_prompts : list bytes := STOCK_PROMPT :: OPENIPC_PROMPTS.

(** The Ctrl+U of [interrupt_duration]. *)
Definition interrupt_body (end_ : Z) (_ : unit) : MV (ctl unit Empty_set) :=
  let* now := monotonic in
  if negb (now <? end_) then ret (Brk tt) else
  let* _ := write INTERRUPT in
  let* _ := flush_output in
  let* _ := sleep (interrupt_interval timing) in
  ret (Next tt).

(** One turn of the wait for a boot banner; the state is [capture] and
    [last_break], [window] being the end of what came in this loop. *)
Definition boot_body (deadline : Z) (s : bytes * bytes * Z) : MV (ctl (bytes * bytes * Z) (ConsoleMode * bytes)) :=
  let '(capture, window, last_break) := s in
  let* now := monotonic in
  if negb (now <? deadline) then ret (Brk s) else
  let* now := monotonic in
  let* last_break :=
    if break_interval timing <=? now - last_break then
      let* _ := write [3] in let* _ := flush_output in ret now
    else ret last_break in
  let* chunk := try_except (let* d := read 256 (Some (read_timeout timing)) in ret (Some d)) is_TransportTimeout (fun _ => ret None) in
  match chunk with
  | None => let* _ := sleep (openipc_poll_interval timing) in ret (Next (capture, window, last_break))
  | Some chunk =>
      if beq chunk [] then ret (Next (capture, window, last_break)) else
      let capture := capture ++ chunk in
      let tail := last_n 4096 (window ++ chunk) in
      if openipc_present tail then ret (Rtn (OPENIPC, capture)) else
      if contains STOCK_PROMPT tail then ret (Rtn (STOCK, capture)) else
      if contains AUTOBOOT_PROMPT (lower_codes tail) then
        let* now := monotonic in
        let* _ := while fuel (interrupt_body (now + interrupt_duration timing)) tt in
        let* r := read_until both_prompts (prompt_timeout timing) in
        let (found, stopped) := r : bool * bytes in
        let capture := capture ++ stopped in
        if negb found then raise TimeoutError else
        if openipc_present stopped then ret (Rtn (OPENIPC, capture)) else ret (Rtn (STOCK, capture))
      else ret (Next (capture, tail, last_break))
  end.

Definition detect_console : MV (ConsoleMode * bytes) :=
  let* _ := write [3; 13] in
  let* _ := flush_output in
  let* r := read_until both_prompts (warm_probe_timeout timing) in
  let (found, warm) := r : bool * bytes in
  if found && openipc_present warm then ret (OPENIPC, warm) else
  if found && contains STOCK_PROMPT warm then ret (STOCK, warm) else
  let* now := monotonic in
  let* c := while fuel (boot_body (now + boot_timeout timing)) (warm, [], 0) in
  match c with
  | Rtn m => ret m
  | _ => raise TimeoutError
  end.

(** [write_uboot_line_with_echo_verify(transport, command)] *)
Definition enter (command : list Z) : MV unit := write_uboot_line_with_echo_verify fuel command 8 350000.

Definition run_stock_command (command : list Z) : MV (list Z) :=
  let* _ := enter command in
  let* r := read_until [STOCK_PROMPT] (prompt_timeout timing) in
  let (found, response) := r : bool * bytes in
  if negb found then raise TimeoutError else ret (decode_replace response).

(** A method of an object that ends with it. *)
Definition with_object {X A} (x : X) (m : M T X A) : MV A := fun w =>
  let (r, w') := m (World (tr w) x (log w)) in (r, World (tr w') (obj w) (log w')).

(** One turn of the wait for OpenIPC's prompt. *)
Definition started_body (deadline : Z) (capture : bytes) : MV (ctl bytes bytes) :=
  let* now := monotonic in
  if negb (now <? deadline) then ret (Brk capture) else
  let* _ := write [3] in
  let* _ := flush_output in
  let* chunk := try_except (let* d := read 256 (Some (read_timeout timing)) in ret (Some d)) is_TransportTimeout (fun _ => ret None) in
  match chunk with
  | None => let* _ := sleep (openipc_poll_interval timing) in ret (Next capture)
  | Some chunk =>
      let capture := capture ++ chunk in
      if negb (beq chunk []) && openipc_present (last_n 4096 capture) then ret (Rtn capture) else
      let* _ := sleep (openipc_poll_interval timing) in
      ret (Next capture)
  end.

Definition address_text : list Z := codes (hex_0x 8 load_address).

(** [_chainload]: the result and its [post_burn_buffer]. *)
Definition chainload (firmware : bytes) (filename : list Z) : MV (RecoveryResult * bytes) :=
  let* _ := enter (codes "loady 0x" ++ address_text) in
  let* _ := flush_input in
  let* sent := try_except
    (let* stats := with_object 0 (Ymodem.send fuel (ymodem_control_timeout timing) (ymodem_start_timeout timing) (ymodem_retries timing)
                                    firmware filename) in ret (inr stats))
    is_YModemError (fun e => ret (inl e)) in
  match sent with
  | inl e => ret (failed [] ("Hikvision U-Boot YMODEM failed: " +:+ str_exn e), [])
  | inr _ =>
      let* r := read_until [STOCK_PROMPT] (prompt_timeout timing) in
      if negb (fst r) then
        ret (failed [] "Hikvision prompt did not return after YMODEM: timed out waiting for HKVS #", [])
      else
        let* _ := enter (codes "go 0x" ++ address_text) in
        let* now := monotonic in
        let* c := while fuel (started_body (now + openipc_timeout timing)) [] in
        match c with
        | Rtn capture => ret (succeeded [UBOOT; COMPLETE], capture)
        | Next capture | Brk capture => ret (failed [] "OpenIPC U-Boot prompt not detected after go", capture)
        end
  end.

Definition hikvision_bootstrap (firmware : bytes) (filename : list Z) : MV UBootBootstrapResult :=
  let* m := detect_console in
  let (mode, capture) := m : ConsoleMode * bytes in
  match mode with
  | OPENIPC => ret (BootstrapResult (succeeded []) capture [] false)
  | STOCK =>
      let* reply := run_stock_command (codes "printenv ethaddr") in
      let env :=
        match parse_printenv_value reply (codes "ethaddr") with
        | Some ethaddr =>
            if negb (beq ethaddr []) && negb (is_unset_or_default_ethaddr (Some ethaddr))
            then [(codes "ethaddr", lower_codes ethaddr)] else []
        | None => []
        end in
      let* r := chainload firmware filename in
      let (recovery, buffer) := r : RecoveryResult * bytes in
      ret (BootstrapResult recovery buffer env true)
  end.

End Hikvision.

(** ** The registry *)

Section Create.
Context {T Ob : Type} `{Transport T}.
Variable fuel : nat.
Variable str_exn : exn -> string.

(** [create_uboot_bootstrap(handler, load_address=...)], as the method
    [bootstrap] of what it returns, and [requires_echo_verification]. *)
Definition create_uboot_bootstrap (handler : string) (load_address : Z)
    : res ((bytes -> list Z -> M T Ob UBootBootstrapResult) * bool) :=
  if bool_decide (handler = "hikvision"%string)
  then Ok (hikvision_bootstrap fuel str_exn load_address HIKVISION_DEFAULT_TIMING, true)
  else Raise ValueError.

End Create.

(** ** Safety

  The log of a bootstrap, over any transport and whatever the camera sends. *)

Section Safe.
Context {T Ob : Type} `{Transport T}.
Variable fuel : nat.
Variable str_exn : exn -> string.
Variables (load_address : Z) (timing : HikvisionUBootTiming).

Lemma enter_emits c : emits (T := T) (Ob := Ob) (enter fuel c) (fun r l => r = Ok tt -> entered c l).
Proof. apply entered_emits. Qed.

Lemma silent_read_until needles tmo : silent (T := T) (Ob := Ob) (read_until fuel timing needles tmo).
Proof. unfold read_until, until_body, time_left. silence. Qed.

(** What [read_until] returns is all that was read. *)
Lemma read_until_emits needles tmo :
  emits (T := T) (Ob := Ob) (read_until fuel timing needles tmo) (fun r l => writes l = [] /\ forall b buf, r = Ok (b, buf) ->
    buf = reads l /\ (b = true -> any_in needles (last_n 4096 buf) = true)).
Proof.
  apply emits_conj; [apply silent_read_until|]. unfold read_until. emits_step. emits_step. emits_step.
  apply (emits_while (fun buf l => buf = reads l)); [done| |by intros].
  intros buf l0 ->. unfold until_body, time_left. do 2 emits_step. emits_step; [do 2 emits_step; intros b buf [= <- <-]; by rewrite !app_nil_r|].
  do 7 emits_step. apply emits_read. intros [d|e|]; [|destruct (is_TransportTimeout e); [|done]|done].
  - assert (Hr : reads l0 ++ d = reads (l0 ++ [EvRead (Ok d)])) by (rewrite reads_app; cbn; by rewrite app_nil_r).
    emits_step. destruct (beq d []) eqn:E; [emits_step; b2p; cbn [app]; rewrite ?app_nil_r, <- Hr; subst; by rewrite app_nil_r|].
    destruct (any_in _ _) eqn:En; emits_step; [emits_step; intros b buf [= <- <-]; split; [|done]|]; cbn [app]; rewrite ?app_nil_r; exact Hr.
  - do 8 emits_step. cbn [app]. rewrite ?app_nil_r. symmetry. etransitivity; [apply (reads_app l0)|exact (app_nil_r _)].
Qed.

(** Keys that stop an autoboot or clear a line. *)
Definition break_key (d : bytes) : Prop := d = [3] \/ d = [3; 13] \/ d = INTERRUPT.

Lemma detect_sends : sends (T := T) (Ob := Ob) break_key (detect_console fuel timing).
Proof.
  pose proof (fun n t => sends_silent break_key _ (silent_read_until n t)).
  unfold detect_console, boot_body, interrupt_body. sends_go; unfold break_key; auto.
Qed.

Lemma emits_with_object {X A} (x : X) (m : M T X A) (Q : res A -> list event -> Prop) :
  emits m Q -> emits (Ob := Ob) (with_object x m) Q.
Proof.
  intros Hm w. destruct (Hm (World (tr w) x (log w))) as (l & Hl & HQ). exists l. unfold with_object.
  by destruct (m _) as [r w'].
Qed.

(** Text that is shown stays in what was received. *)
Lemma any_in_suffix ns x y : x `suffix_of` y -> any_in ns x = true -> any_in ns y = true.
Proof.
  intros [k ->]. unfold any_in. rewrite !existsb_exists. intros (n & Hn & (a & b & ->)%contains_spec).
  exists n. split; [done|]. apply contains_spec. exists (k ++ a), b. by rewrite <- app_assoc.
Qed.

Lemma last_n_suffix_of {A} k (l : list A) : last_n k l `suffix_of` l.
Proof. exists (take (length l - k) l). unfold last_n. by rewrite take_drop. Qed.

Lemma suffix_last_n {A} k (x y z : list A) : x `suffix_of` y -> last_n k (x ++ z) `suffix_of` y ++ z.
Proof. intros [p ->]. etransitivity; [apply last_n_suffix_of|]. exists p. by rewrite app_assoc. Qed.

Lemma interrupt_reads end_ :
  emits (T := T) (Ob := Ob) (while fuel (interrupt_body timing end_) tt) (fun _ l => reads l = []).
Proof.
  apply (emits_while (fun _ l => reads l = [])); [done| |by intros]. intros [] l0 H0. unfold interrupt_body.
  repeat emits_step; cbn; rewrite ?reads_app, ?H0; done.
Qed.

Definition caught (before : bytes) (s : bytes * bytes * Z) (l : list event) : Prop :=
  fst (fst s) = before ++ reads l /\ snd (fst s) `suffix_of` fst (fst s).

(** What is reported of a console. *)
Definition reported (before : bytes) (m : ConsoleMode * bytes) (l : list event) : Prop :=
  snd m = before ++ reads l /\ (fst m = OPENIPC -> openipc_present (snd m) = true).

#[local] Arguments openipc_present : simpl never.
#[local] Arguments last_n : simpl never.

Lemma boot_body_emits before deadline s l0 : caught before s l0 ->
  emits (T := T) (Ob := Ob) (boot_body fuel timing deadline s) (fun r l => match r with
    | Ok (Next s') => caught before s' (l0 ++ l)
    | Ok (Rtn m) => reported before m (l0 ++ l)
    | _ => True
    end).
Proof.
  destruct s as [[capture window] last_break]. intros [Hc Hi]. cbn [fst snd] in Hc, Hi. unfold boot_body.
  do 2 emits_step. emits_step; [by emits_step|]. do 2 emits_step.
  emits_step. eapply (emits_weaken _ (fun _ l => reads l = [])); [repeat emits_step; done|].
  intros [lb|e|] l1 H1; [|done..]. do 4 emits_step; [|destruct (is_TransportTimeout _); [|done]|done].
  2: { repeat emits_step; [|done..]. cbn. split; [|done]. by rewrite !reads_app, H1, app_nil_r. }
  assert (Hr : forall l, reads (l0 ++ l1 ++ EvRead (Ok a) :: [] ++ l) = reads l0 ++ a ++ reads l).
  { intros l. rewrite !reads_app, H1. cbn. done. }
  do 2 emits_step; [emits_step; b2p; subst a; split; [by rewrite Hr, app_nil_r|done]|].
  pose proof (suffix_last_n 4096 window capture a Hi) as Ht.
  emits_step; [emits_step; split; [cbn [snd]; by rewrite Hr, app_nil_r, Hc, app_assoc|intros _; by eapply any_in_suffix]|].
  emits_step; [emits_step; split; [cbn [snd]; by rewrite Hr, app_nil_r, Hc, app_assoc|done]|].
  emits_step; [|emits_step; split; [cbn [fst]; by rewrite Hr, app_nil_r, Hc, app_assoc|done]].
  do 2 emits_step. emits_step. eapply emits_weaken; [apply interrupt_reads|]. intros [c|e|] l2 H2; [|done..].
  emits_step. eapply emits_weaken; [apply read_until_emits|]. intros [[f stopped]|e|] l3 [_ H3]; [|done..].
  destruct (H3 f stopped eq_refl) as [-> _]. destruct f; cbn [negb]; [|by emits_step].
  assert (Hr2 : forall l, reads (l0 ++ l1 ++ EvRead (Ok a) :: [] ++ [] ++ l2 ++ l3 ++ l) = reads l0 ++ a ++ reads l3 ++ reads l).
  { intros l. rewrite Hr. cbn [app]. by rewrite !reads_app, H2. }
  assert (Hr3 : (capture ++ a) ++ reads l3 = before ++ reads l0 ++ a ++ reads l3 ++ []) by by rewrite Hc, app_nil_r, !app_assoc.
  emits_step; emits_step; (split; [cbn [snd]; etransitivity; [exact Hr3|]; symmetry; f_equal; apply (Hr2 [])|]); [|done]. intros _. cbn [snd]. eapply any_in_suffix; [|eassumption]. by eexists.
Qed.

Lemma detect_reads : emits (T := T) (Ob := Ob) (detect_console fuel timing) (fun r l => forall m, r = Ok m -> reported [] m l).
Proof.
  unfold detect_console. emits_step. emits_step; [|done..]. emits_step. emits_step; [|done..]. emits_step.
  eapply emits_weaken; [apply read_until_emits|]. intros [[found warm]|e|] l1 [_ H1]; [|done..]. destruct (H1 found warm eq_refl) as [-> _].
  emits_step; [emits_step; intros m [= <-]; split; [by rewrite app_nil_r|intros _; by b2p]|].
  emits_step; [emits_step; intros m [= <-]; split; [by rewrite app_nil_r|done]|]. do 3 emits_step.
  eapply (emits_weaken _ (fun r l => forall m, r = Ok (Rtn m) -> reported (reads l1) m l)).
  - apply (emits_while (caught (reads l1))); [split; [by rewrite app_nil_r|apply suffix_nil]| |done].
    intros s l0 Hs. eapply emits_weaken; [by apply boot_body_emits|]. intros [[s'|s'|m]|e|] l H2; try done. by intros m' [= <-].
  - intros [[c|c|m]|e|] l2 H2; try done; emits_step; [done..|]. intros m' [= <-]. destruct (H2 m eq_refl) as [H3 H4].
    split; [|done]. rewrite H3. rewrite app_nil_r. symmetry. apply (reads_app l1).
Qed.

(** The console's prompt was received. *)
Definition prompted (l : list event) : Prop := any_in [STOCK_PROMPT] (last_n 4096 (reads l)) = true.

(** The log of a U-Boot that was sent and started, and what it answered. *)
Definition chainloaded_log (firmware : bytes) (filename : list Z) (buf : bytes) (l : list event) : Prop :=
  exists ll l0 s ly l1 lg l2, l = ll ++ l0 ++ ly ++ l1 ++ lg ++ l2 /\
    entered (codes "loady 0x" ++ address_text load_address) ll /\ writes l0 = [] /\
    y_transfer firmware filename s ly /\ writes l1 = [] /\ prompted l1 /\
    entered (codes "go 0x" ++ address_text load_address) lg /\ Forall break_key (writes l2) /\
    openipc_present (last_n 4096 (reads l2)) = true /\ buf = reads l2.

Lemma started_body_reads deadline l0 :
  emits (T := T) (Ob := Ob) (started_body timing deadline (reads l0)) (fun r l => match r with
    | Ok (Next c) => c = reads (l0 ++ l)
    | Ok (Rtn c) => openipc_present (last_n 4096 (reads (l0 ++ l))) = true /\ c = reads (l0 ++ l)
    | _ => True
    end).
Proof.
  unfold started_body. do 2 emits_step. emits_step; [by emits_step|]. emits_step. emits_step; [|done..]. emits_step. emits_step; [|done..].
  do 4 emits_step; [|destruct (is_TransportTimeout _); [repeat emits_step; by rewrite reads_app, app_nil_r|done]|done].
  assert (Hr : reads l0 ++ a = reads (l0 ++ [EvWrite [3] (Ok tt); EvFlushOutput (Ok tt); EvRead (Ok a)])) by (rewrite reads_app; cbn; by rewrite app_nil_r).
  do 2 emits_step.
  - emits_step. cbn. rewrite <- Hr. by apply andb_true_iff in Heqb0 as [_ ?].
  - do 3 emits_step. cbn. by rewrite Hr, !reads_app.
Qed.

Lemma started_emits deadline :
  emits (T := T) (Ob := Ob) (while fuel (started_body timing deadline) []) (fun r l =>
    Forall break_key (writes l) /\ forall c, r = Ok (Rtn c) -> openipc_present (last_n 4096 (reads l)) = true /\ c = reads l).
Proof.
  apply (emits_while (fun s l => Forall break_key (writes l) /\ s = reads l)); [by split| |by intros s l0 [H0 _]].
  intros s l0 [H0 ->]. assert (Hs : sends (T := T) (Ob := Ob) break_key (started_body timing deadline (reads l0))).
  { unfold started_body. sends_go. by left. }
  eapply emits_weaken; [apply (emits_conj _ _ _ Hs (started_body_reads deadline l0))|].
  intros r l [H1 H2]. assert (Forall break_key (writes (l0 ++ l))) by (rewrite writes_app; by apply Forall_app).
  destruct r as [[c|c|c]|e|]; try (split; [done|by intros]). split; [done|]. by intros c' [= <-].
Qed.

Lemma chainload_emits firmware filename :
  emits (T := T) (Ob := Ob) (chainload fuel str_exn load_address timing firmware filename) (fun r l =>
    forall rec buf, r = Ok (rec, buf) -> r_success rec = true -> chainloaded_log firmware filename buf l).
Proof.
  unfold chainload. emits_step. eapply emits_weaken; [apply enter_emits|]. intros [[]|e|] ll Hll; try done. specialize (Hll eq_refl).
  emits_step. eapply emits_weaken; [apply silent_flush_input|]. intros [[]|e|] l0 H0; try done.
  emits_step. emits_step. emits_step.
  eapply emits_weaken; [apply emits_with_object, send_emits|]. intros [s|e|] ly Hy; [specialize (Hy s eq_refl)| |done].
  2: { destruct (is_YModemError e); [|done]. emits_step. cbn. emits_step. by intros rec buf [= <- _]. }
  emits_step. emits_step. eapply emits_weaken; [apply read_until_emits|]. intros [[found buf0]|e|] l1 [H1 Hp]; try done. cbn [fst].
  destruct found; cbn [negb]; [|emits_step; by intros rec buf [= <- _]]. destruct (Hp true buf0 eq_refl) as [-> Hp1].
  specialize (Hp1 eq_refl). clear Hp.
  emits_step. eapply emits_weaken; [apply enter_emits|]. intros [[]|e|] lg Hlg; try done. specialize (Hlg eq_refl).
  emits_step. emits_step. emits_step. eapply emits_weaken; [apply started_emits|].
  intros [[c|c|c]|e|] l2 [H2 Hc]; try done; emits_step; intros rec buf [= <- <-] Hs; [done..|].
  destruct (Hc c eq_refl) as [Hc1 ->].
  exists ll, l0, s, ly, l1, lg, l2. rewrite ?app_nil_r. rewrite <- ?app_assoc. by split_and!.
Qed.
End Safe.

(** The factory address that a reply reports, if it does: well formed, and not
    the one OpenIPC comes with. *)
Definition factory_env (reply : list Z) (env : list (list Z * list Z)) : Prop :=
  match parse_printenv_value reply (codes "ethaddr") with
  | Some e =>
      env = [] /\ is_unset_or_default_ethaddr (Some e) = true \/
      env = [(codes "ethaddr", lower_codes e)] /\ well_formed_mac (lower_codes (strip e)) /\ lower_codes (strip e) <> OPENIPC_DEFAULT_ETHADDR
  | None => env = []
  end.

Lemma factory_env_ok reply :
  factory_env reply (match parse_printenv_value reply (codes "ethaddr") with
    | Some e => if negb (beq e []) && negb (is_unset_or_default_ethaddr (Some e)) then [(codes "ethaddr", lower_codes e)] else []
    | None => []
    end).
Proof.
  unfold factory_env. destruct (parse_printenv_value _ _) as [e|]; [|done]. destruct (beq e []) eqn:E0; b2p; [subst; by left|].
  destruct (is_unset_or_default_ethaddr (Some e)) eqn:E; [by left|right]. apply accepted_well_formed in E.
  split_and!; [done|done|]. by destruct E as (pairs & _ & _ & _ & Hd).
Qed.

(** C31. The way through Hikvision's U-Boot, over any transport and whatever
    the camera sends, is safe.  Where it succeeds without replacing U-Boot,
    only keys that stop an autoboot were sent, no variable is to be set, and
    OpenIPC's prompt is in what was received.  Where a stock U-Boot is reported
    as replaced, the log is that of such keys, then the question for the
    factory address and the console's prompt behind the answer, [loady] with
    the address, a complete YMODEM transfer of the image in which every packet
    was acknowledged, the console's prompt again, and [go] with the same
    address, behind which OpenIPC's prompt was received.  Each of the
    three lines was entered so that every character, sent on its own, was
    answered with exactly itself, a line that was not having been cancelled
    before the next attempt.
    What is preserved is an address of that very answer, well formed and not
    the one OpenIPC comes with, in lower case, or nothing. *)
Theorem hikvision_bootstrap_safe {T Ob} `{Transport T} fuel str_exn load_address timing firmware filename (w w' : world T Ob) res :
  hikvision_bootstrap fuel str_exn load_address timing firmware filename w = (Ok res, w') ->
  r_success (br_recovery res) = true ->
  exists l0 l, log w' = log w ++ l0 ++ l /\ Forall break_key (writes l0) /\
  if chainloaded res then
    exists lp l1 l2, l = lp ++ l1 ++ l2 /\ entered (codes "printenv ethaddr") lp /\ writes l1 = [] /\ prompted l1 /\
      factory_env (decode_replace (reads l1)) (preserved_env res) /\
      chainloaded_log load_address firmware filename (br_buffer res) l2
  else l = [] /\ preserved_env res = [] /\ br_buffer res = reads l0 /\ openipc_present (reads l0) = true.
Proof.
  intros Hrun Hs.
  assert (He : emits (T := T) (Ob := Ob) (hikvision_bootstrap fuel str_exn load_address timing firmware filename) (fun r l0' => forall res, r = Ok res ->
    r_success (br_recovery res) = true -> exists l0 l, l0' = l0 ++ l /\ Forall break_key (writes l0) /\
  if chainloaded res then
      exists lp l1 l2, l = lp ++ l1 ++ l2 /\ entered (codes "printenv ethaddr") lp /\ writes l1 = [] /\ prompted l1 /\
        factory_env (decode_replace (reads l1)) (preserved_env res) /\
        chainloaded_log load_address firmware filename (br_buffer res) l2
    else l = [] /\ preserved_env res = [] /\ br_buffer res = reads l0 /\ openipc_present (reads l0) = true)).
  2: { destruct (He w) as (l & Hl & HQ). rewrite Hrun in Hl, HQ. cbn [fst snd] in *.
       destruct (HQ res eq_refl Hs) as (l0 & l' & -> & H1). by exists l0, l'. }
  clear. unfold hikvision_bootstrap. emits_step. eapply emits_weaken; [apply (emits_conj _ _ _ (detect_sends _ _) (detect_reads _ _))|].
  intros [[mode capture]|e|] l0 [H0 Hd]; try done. destruct (Hd _ eq_refl) as [Hc Ho]. cbn [fst snd app] in Hc, Ho. subst capture. destruct mode.
  { emits_step. intros res [= <-] _. exists l0, []. cbn. by specialize (Ho eq_refl). }
  unfold run_stock_command. emits_step. emits_step. eapply emits_weaken; [apply enter_emits|].
  intros [[]|e|] lp Hlp; try done. specialize (Hlp eq_refl).
  emits_step. eapply emits_weaken; [apply read_until_emits|]. intros [[found resp]|e|] l1 [H1 Hresp]; try done.
  destruct (Hresp found resp eq_refl) as [-> Hp]. destruct found; cbn [negb]; [|by emits_step]. specialize (Hp eq_refl). emits_step.
  match goal with |- context [BootstrapResult _ _ ?e0 true] => assert (Henv : factory_env (decode_replace (reads l1)) e0); [apply factory_env_ok|revert Henv; generalize e0; intros env Henv] end.
  emits_step. eapply emits_weaken; [apply chainload_emits|]. intros [[rec buf]|e|] l2 H2; try done.
  emits_step. intros res [= <-] Hs. cbn [chainloaded br_buffer preserved_env]. specialize (H2 rec buf eq_refl Hs).
  exists l0, (lp ++ l1 ++ l2). rewrite ?app_nil_r. split; [by rewrite <- ?app_assoc|]. split; [done|].
  exists lp, l1, l2. by split_and!.
Qed.

(** *** A camera *)

(** A stock console, as far as the bootstrap uses it: [cam_rx] is the receiver
    [loady] starts, and its [rx_out] also what the console prints. *)
Inductive cam_state := Shell (line : bytes) | Loady | Started.
Record Camera := Cam { cam_state_of : cam_state; cam_rx : YReceiver }.

Definition prints (out : bytes) (r : YReceiver) : YReceiver :=
  YRx (rx_phase r) (rx_out r ++ out) (rx_header r) (rx_blocks r) (rx_clock r).

Definition cam_line (line : bytes) (r : YReceiver) : Camera :=
  if beq line (codes "printenv ethaddr") then
    Cam (Shell []) (prints (13 :: 10 :: codes "ethaddr=BC:AD:28:01:02:03" ++ [13; 10] ++ STOCK_PROMPT) r)
  else if beq line (codes "loady 0x81000000") then Cam Loady r
  else if beq line (codes "go 0x81000000") then Cam Started (prints (codes "OpenIPC # ") r)
  else Cam (Shell []) (prints STOCK_PROMPT r).

Definition cam_write (d : bytes) (c : Camera) : Camera :=
  match cam_state_of c with
  | Shell line => if beq d [13] then cam_line line (cam_rx c) else if beq d [3; 13] then cam_line [] (cam_rx c)
                  else Cam (Shell (line ++ d)) (prints d (cam_rx c))
  | Loady => let r := rx_write d (cam_rx c) in
             match rx_phase r with Done => Cam (Shell []) (prints STOCK_PROMPT r) | _ => Cam Loady r end
  | Started => c
  end.

Definition cam_lift {A} (f : YReceiver -> res A * YReceiver) (c : Camera) : res A * Camera :=
  let (r, x) := f (cam_rx c) in (r, Cam (cam_state_of c) x).

#[export] Instance Camera_Transport : Transport Camera := {|
  t_read n tmo := cam_lift (t_read n tmo);
  t_write d c := (Ok tt, cam_write d c);
  t_flush_input c := (Ok tt, Cam (cam_state_of c)
    (let r := cam_rx c in YRx (rx_phase r) (match cam_state_of c with Loady => [CRC_REQUEST] | _ => [] end) (rx_header r) (rx_blocks r) (rx_clock r)));
  t_flush_output c := (Ok tt, c);
  t_bytes_waiting := cam_lift t_bytes_waiting;
  t_unread d c := (Raise NotImplementedError, c);
  t_set_baudrate b c := (Raise NotImplementedError, c);
  t_monotonic c := (rx_clock (cam_rx c), c);
  t_sleep d c := Cam (cam_state_of c) (t_sleep d (cam_rx c))
|}.

Abbreviation cam_world := (World (Cam (Shell []) (YRx WaitHeader [] [] [] 0)) tt []).
Abbreviation cam_run := (hikvision_bootstrap (T := Camera) (Ob := unit) 200 (fun _ => ""%string) 0x81000000 HIKVISION_DEFAULT_TIMING
  [1; 2; 3] (codes "u") cam_world).
Abbreviation cam_result := (BootstrapResult (succeeded [UBOOT; COMPLETE]) (codes "OpenIPC #")
  [(codes "ethaddr", codes "bc:ad:28:01:02:03")] true).

Theorem hikvision_bootstrap_safe_witness :
  exists l0 l, log (snd cam_run) = [] ++ l0 ++ l /\ Forall break_key (writes l0) /\
  exists lp l1 l2, l = lp ++ l1 ++ l2 /\ entered (codes "printenv ethaddr") lp /\ writes l1 = [] /\ prompted l1 /\
    factory_env (decode_replace (reads l1)) (preserved_env cam_result) /\
    chainloaded_log 0x81000000 [1; 2; 3] (codes "u") (br_buffer cam_result) l2.
Proof.
  assert (E : fst cam_run = Ok cam_result) by (vm_compute; reflexivity).
  refine (hikvision_bootstrap_safe 200 (fun _ => ""%string) 0x81000000 HIKVISION_DEFAULT_TIMING [1; 2; 3] (codes "u") cam_world (snd cam_run)
    cam_result (pair_fst cam_run _ E) _). reflexivity.
Defined.
