(* ===== verification/Install.v ===== *)
(** * The installer

  Models [src/src/defib/install/orchestrator.py]: [run_install], from the
  request through the choice of images, the start of U-Boot in RAM and the
  probing of the flash to the writing, the verification and the boot
  environment.  The nested functions of [run_install] are definitions here,
  with the variables they share as parameters or, when they are assigned
  later, as fields of the object [Inst].

  [typer.Exit(n)], which [fail] and [close_and_fail] raise, is [TyperExit n];
  click derives it from RuntimeError, so a handler of RuntimeError gets it
  too.  Messages are left out, except the texts of failed commands, which the
  code inspects.  Times are in microseconds.  Closing the transport and the
  power controller is left out. *)

From S2P Require Import Prelude Text Regex Crc Transport Events Profiles HisiV500 Firmware UbootEnv Layout Ubi Bundle Flashdump DownloadCmd Tftp Session Vendors.

Definition TFTP_RAM_VERIFY_RETRIES : Z := 1.

Definition is_RuntimeError (e : exn) : bool :=
  match e with RuntimeError | TyperExit _ => true | _ => false end.

(** ** The plan *)

(** What [run_install] knows before it talks to the device. *)
Record Plan := mkPlan {
  p_req : InstallRequest; p_stages : list string; p_stock : option StockUBootTarget;
  p_ubi_layout : bool; p_boot_area : Z * Z; p_scanning : bool; p_split : bool;
  p_firmware : FirmwareBundle; p_uboot_name : string; p_uboot_raw : bytes; p_uboot_data : bytes;
  p_b_off : Z; p_uboot_flash_size : Z; p_needs_tftp : bool
}.

Definition has (stages : list string) (s : string) : bool := mem s stages.
Definition any_of (stages names : list string) : bool := existsb (fun s => mem s stages) names.

(** [fail(message, exit_code)] *)
Definition exit_ {A} (code : Z) : res A := Raise (TyperExit code).
Definition fail_if (c : bool) (code : Z) : res unit := if c then exit_ code else Ok tt.

(** [try: m except ValueError: fail(...)] *)
Definition or_exit {A} (code : Z) (m : res A) : res A :=
  match m with
  | Raise e => if is_ValueError e then exit_ code else Raise e
  | r => r
  end.

(** [Path(p).name] *)
Definition path_name (p : string) : string := text_of (basename (codes p)).

Section Plan.
(** The files: whether a path exists, its contents, and the members of an
    archive; [load_profile]. *)
Variable path_exists : string -> bool.
Variable read_file : string -> res bytes.
Variable open_tar : string -> res (list member).
Variable load_prof : string -> res SoCProfile.
(** The release server and the time. *)
Variable head_url : string -> option validators.
Variable get_url : string -> option (validators * bytes).
Variable parse_date : string -> option Z.
Variable now : Z.

(** Partition of the boot loader and size of the environment. *)
Definition boot_partition (nand ubi_layout : bool) (boot_area : Z * Z) : res (Z * Z * Z) :=
  if ubi_layout then
    let! b := of_opt KeyError (assoc NAND_UBI_LAYOUT "boot"%string) in
    let! e := of_opt KeyError (assoc NAND_UBI_LAYOUT "env"%string) in
    Ok (fst b, snd b, snd e)
  else if nand then
    let! b := of_opt KeyError (assoc NAND_LAYOUT "boot"%string) in
    let! e := of_opt KeyError (assoc NAND_LAYOUT "env"%string) in
    Ok (fst b, snd b, snd e)
  else Ok (0, fst boot_area, snd boot_area).

(** The checks of a split package. *)
Definition check_split (r : InstallRequest) (stages : list string) (stock split : bool) (boot_area : Z * Z) : res unit :=
  let chip := ir_chip r in
  let! _ := fail_if (negb (ir_nand r) && negb split && negb (bool_decide (boot_area = STANDARD_NOR_BOOT_AREA))) 2 in
  if negb split then Ok tt else
  let! _ := fail_if (ir_nand r) 2 in
  let! _ := fail_if (negb (supports_nor_split chip)) 2 in
  let! _ := fail_if stock 2 in
  fail_if (ir_wipe_rootfs_data r && negb (has stages "rootfs")) 2.

(** The published or given U-Boot: its name and contents, and the cache after. *)
Definition uboot_artifact (r : InstallRequest) (uboot_flash_type : string) (c : cache) : res (string * bytes) * cache :=
  if negb (bool_decide (ir_uboot_path r = ""%string)) then
    if negb (path_exists (ir_uboot_path r)) then (exit_ 1, c) else
    ((let! d := read_file (ir_uboot_path r) in Ok (path_name (ir_uboot_path r), d)), c)
  else
    match has_firmware head_url parse_date c (ir_chip r) (Some uboot_flash_type) with
    | Ok false => (exit_ 1, c)
    | Raise e => (Raise e, c)
    | Diverge => (Diverge, c)
    | Ok true =>
        match get_cached_path head_url parse_date c (ir_chip r) (Some uboot_flash_type) true with
        | Ok (Some n) => ((let! f := of_opt FileNotFoundError (cached_file c n) in Ok (n, f_data f)), c)
        | Ok None =>
            let (res_n, c') := download_firmware head_url get_url parse_date now (ir_chip r) (Some uboot_flash_type) c in
            ((let! n := res_n in let! f := of_opt FileNotFoundError (cached_file c' n) in Ok (n, f_data f)), c')
        | Raise e => (Raise e, c)
        | Diverge => (Diverge, c)
        end
    end.

(** The tests before any file is read: the stages. *)
Definition check_request (r : InstallRequest) : res (list string) :=
  let! stages := or_exit 2 (resolve_install_stages (ir_stages r) (ir_skip_stages r) (ir_final_reset r)) in
  let selected := stage_set (ir_stages r) in
  let skipped := stage_set (ir_skip_stages r) in
  let wipe := ir_wipe_rootfs_data r in
  let! _ := fail_if (wipe && negb (bool_decide (selected = [])) && negb (mem "rootfs-data" selected)) 2 in
  let! _ := fail_if (wipe && mem "rootfs-data" skipped) 2 in
  let! _ := fail_if (wipe && ir_nand r) 2 in
  let stock := get_stock_uboot_target (ir_chip r) in
  let! _ :=
    match stock with
    | None =>
        let! mode := or_exit 1 (recovery_of (load_prof (ir_chip r))) in
        fail_if (match mode with Usb => true | _ => false end) 1
    | Some _ => Ok tt
    end in
  let! _ := fail_if (bool_decide (is_Some stock) && negb (ir_nand r) && has stages "env" && negb (ir_wipe_env r)) 2 in
  Ok stages.

(** The sizes a NAND with fixed slots allows. *)
Definition check_nand_slots (b : FirmwareBundle) : res unit :=
  let! k := of_opt KeyError (assoc NAND_LAYOUT "kernel"%string) in
  let! r := of_opt KeyError (assoc NAND_LAYOUT "rootfs"%string) in
  let! _ := fail_if (snd k <? len (fb_kernel b)) 1 in
  fail_if (snd r <? len (fb_rootfs b)) 1.

Definition make_plan (r : InstallRequest) (c : cache) : res Plan * cache :=
  match
    (let! stages := check_request r in
     let chip := ir_chip r in
     let nand := ir_nand r in
     let stock := get_stock_uboot_target chip in
     let ubi_layout := nand && uses_per_flash_type_uboot chip in
     let boot_area := nor_boot_area chip in
     let! part := boot_partition nand ubi_layout boot_area in
     let scanning := negb nand && supports_nor_split chip in
     let boards := if ubi_layout then Some (ubi_nand_boards chip) else if scanning then Some (split_boards chip) else None in
     let! b := or_exit 1 (let! archive := open_tar (ir_firmware_path r) in load_firmware_bundle archive ubi_layout boards) in
     let! _ := check_split r stages (bool_decide (is_Some stock)) (fb_split b) boot_area in
     let! _ := if nand && negb ubi_layout then check_nand_slots b else Ok tt in
     Ok (stages, stock, ubi_layout, boot_area, part, scanning, b))
  with
  | Raise e => (Raise e, c)
  | Diverge => (Diverge, c)
  | Ok (stages, stock, ubi_layout, boot_area, (b_off, b_sz, env_sz), scanning, b) =>
      let uboot_flash_type := if ir_nand r then "nand"%string else "nor"%string in
      let (art, c') := uboot_artifact r uboot_flash_type c in
      ((let! nd := art in
        let (name, raw) := nd : string * bytes in
        let! data := or_exit 1 (pad_to_size raw b_sz 0xFF) in
        let uboot_flash_size :=
          if ir_wipe_env r && has stages "env" && negb (bool_decide (is_Some stock)) then b_sz + env_sz else b_sz in
        let tftp_stages := if ubi_layout || fb_split b then ["uboot"; "rootfs"]%string else ["uboot"; "kernel"; "rootfs"]%string in
        Ok (mkPlan r stages stock ubi_layout boot_area scanning (fb_split b) b name raw data b_off uboot_flash_size
              (any_of stages tftp_stages))), c')
  end.

End Plan.

(** ** Driving U-Boot *)

(** The variables of [run_install] that are assigned while the device is
    driven: [crc32_available], [preserved_stock_env] (in the order of the
    dict), and the files and the block size cap of the TFTP server. *)
Record Inst := mkInst {
  crc32_available : option bool; preserved_stock_env : list (list Z * list Z);
  tftp_files : list (list Z * bytes); max_blocksize : Z
}.
Definition set_crc32 (b : bool) (i : Inst) : Inst := mkInst (Some b) (preserved_stock_env i) (tftp_files i) (max_blocksize i).
Definition set_stock_env (e : list (list Z * list Z)) (i : Inst) : Inst := mkInst (crc32_available i) e (tftp_files i) (max_blocksize i).
Definition set_files (f : list (list Z * bytes)) (i : Inst) : Inst := mkInst (crc32_available i) (preserved_stock_env i) f (max_blocksize i).
Definition set_blocksize (n : Z) (i : Inst) : Inst :=
  mkInst (crc32_available i) (preserved_stock_env i) (tftp_files i) (Z.max 8 (Z.min n MAX_BLOCKSIZE)).

(** [d[k] = v] on a dict given by its items. *)
Fixpoint put_item {V} (k : list Z) (v : V) (d : list (list Z * V)) : list (list Z * V) :=
  match d with
  | [] => [(k, v)]
  | (k', v') :: d' => if beq k' k then (k, v) :: d' else (k', v') :: put_item k v d'
  end.

Section Drive.
Context {T : Type} `{Transport T}.
Variable fuel : nat.
(** [str(e)] of an exception of the transport. *)
Variable exc_text : exn -> list Z.
Abbreviation MI := (M T Inst).

Definition modify (f : Inst -> Inst) : MI unit := let* i := get_obj in put_obj (f i).

(** [close_and_fail] *)
Definition stop {A} (code : Z) : MI A := raise (TyperExit code).

(** *** The mode of the console *)

(** [for _ in range(20): write(Ctrl-C); sleep(pause)] *)
Definition interrupts (pause : Z) : MI unit :=
  let* _ := foreach (R := Empty_set) (range 20) (fun _ _ => let* _ := write [3] in let* _ := sleep pause in ret (Next tt)) tt in
  ret tt.

Definition prompt_in (tail : list Z) : bool :=
  contains (codes "hisilicon #") tail || contains (codes "OpenIPC #") tail || contains (10 :: codes "=> ") tail.

(** One turn of the detection; [Rtn] with [download_mode] at a [break]. *)
Definition detect_body (start_detect : Z) (buf : bytes) : MI (ctl bytes bool) :=
  let* now := monotonic in
  if negb (now - start_detect <? 15000000) then ret (Brk buf) else
  let* _ := write [3] in
  let* data := try_except (let* d := read 256 (Some 200000) in ret (Some d)) is_TransportTimeout (fun _ => ret None) in
  match data with
  | None => ret (Next buf)
  | Some det_data =>
      let buf := buf ++ det_data in
      let text := decode_replace buf in
      if contains (codes "start download process") text then ret (Rtn true) else
      if contains (codes "autoboot") (lower_codes text) then
        try_except (let* _ := interrupts 100000 in ret (Rtn false)) is_TransportTimeout (fun _ => ret (Next buf))
      else if prompt_in (last_n 256 text) then ret (Rtn false) else ret (Next buf)
  end.

Definition detect_mode : MI bool :=
  let* start := monotonic in
  let* c := while fuel (detect_body start) [] in
  match c with
  | Rtn m => ret m
  | _ => ret false
  end.

(** One turn of the wait after a reset; the state is [reset_buf]. *)
Definition after_reset_body (start_reset timeout : Z) (buf : bytes) : MI (ctl bytes unit) :=
  let* now := monotonic in
  if negb (now - start_reset <? timeout) then ret (Brk buf) else
  let* _ := write [3] in
  let* chunk := try_except (let* d := read 256 (Some 200000) in ret (Some d)) is_TransportTimeout (fun _ => ret None) in
  match chunk with
  | None | Some [] => let* _ := sleep 50000 in ret (Next buf)
  | Some chunk =>
      let buf := buf ++ chunk in
      let tail := last_n 512 (decode_replace buf) in
      let* _ := if contains (codes "autoboot") (lower_codes tail) then interrupts 50000 else ret tt in
      if prompt_in tail then ret (Rtn tt) else ret (Next buf)
  end.

Definition wait_for_openipc_shell_after_reset (timeout : Z) : MI unit :=
  let* start := monotonic in
  let* c := while fuel (after_reset_body start timeout) [] in
  match c with
  | Rtn _ => ret tt
  | _ => raise RuntimeError
  end.

(** *** Commands *)

Variables (download_mode verify_shell_echo : bool).

Definition download_cmd_result (cmd : list Z) (timeout : Z) (allow_failure : bool) : MI (bool * list Z) :=
  let* r := try_except (let* r := DownloadCmd.send_command fuel cmd timeout in ret (inr r)) is_TransportError (fun e => ret (inl e)) in
  match r with
  | inl e => if allow_failure then ret (false, exc_text e) else stop 1
  | inr (ok, out) => if negb ok && negb allow_failure then stop 1 else ret (ok, out)
  end.

(** One of the two attempts in shell mode. *)
Definition shell_attempt (cmd : list Z) (timeout : Z) (allow_failure : bool) (attempt : Z) (_ : unit) : MI (ctl unit (bool * list Z)) :=
  let* r := try_except (send_command_text fuel cmd timeout (codes "# ") verify_shell_echo true)
              is_TransportError (fun e => ret (inl (exc_text e))) in
  match r with
  | inl text => if allow_failure then ret (Rtn (false, text)) else stop 1
  | inr out =>
      if allow_failure || negb (contains (codes "unknown command") (lower_codes out)) || (attempt =? 1)
      then ret (Rtn (true, out))
      else
        let* _ := write [3; 13] in
        let* _ := sleep 50000 in
        ret (Next tt)
  end.

Definition shell_cmd_result (cmd : list Z) (timeout : Z) (allow_failure : bool) : MI (bool * list Z) :=
  let* c := foreach (range 2) (shell_attempt cmd timeout allow_failure) tt in
  match c with
  | Rtn r => ret r
  | _ => ret (true, [])
  end.

Definition cmd_result (cmd : list Z) (timeout : Z) (allow_failure : bool) : MI (bool * list Z) :=
  if download_mode then download_cmd_result cmd timeout allow_failure else shell_cmd_result cmd timeout allow_failure.

Definition cmd (c : list Z) (timeout : Z) : MI (list Z) :=
  let* r := cmd_result c timeout false in ret (snd r).

Definition optional_printenv (key : list Z) (timeout : Z) : MI (list Z) :=
  let* r := cmd_result (codes "printenv " ++ key) timeout true in
  let (ok, out) := r : bool * list Z in
  if ok then ret out else
  let text := lower_codes out in
  if contains (lower_codes key) text && contains (codes "not defined") text then ret out else stop 1.

(** [parse_printenv_value(await _optional_printenv(key), key)] *)
Definition env_value (key : list Z) : MI (option (list Z)) :=
  let* resp := optional_printenv key 5000000 in ret (parse_printenv_value resp key).

Definition unlock_nor_or_fail : MI unit :=
  let* r := cmd_result (codes "sf lock 0") 5000000 true in
  let (unlock_ok, unlock_resp) := r : bool * list Z in
  if negb unlock_ok then
    if download_mode && uboot_sf_lock_unsupported unlock_resp then ret tt else stop 1
  else if uboot_sf_lock_unsupported unlock_resp then ret tt else
  match uboot_flash_command_error unlock_resp with Some _ => stop 1 | None => ret tt end.

Definition reset_command (timeout : Z) : MI unit :=
  if download_mode then let* _ := cmd_result (codes "reset") timeout true in ret tt
  else
    try_except (let* _ := Flashdump.send_command fuel (codes "reset") timeout [] verify_shell_echo false in ret tt)
      is_TransportError (fun _ => stop 1).

(** [set_uboot_env_verified(_cmd, key, value)] *)
Definition set_env (key value : list Z) : MI unit := set_uboot_env_verified cmd key value 3.

Definition set_env_verified_or_fail (key value : list Z) : MI unit :=
  try_except (set_env key value) is_RuntimeError (fun _ => stop 1).

Definition set_all_env (env : list (list Z * list Z)) : MI unit :=
  let* _ := foreach (R := Empty_set) env (fun kv _ => let* _ := set_env_verified_or_fail (fst kv) (snd kv) in ret (Next tt)) tt in
  ret tt.

(** A command whose answer must not report an error: [e] is what the code
    raises otherwise. *)
Definition checked_cmd (e : exn) (c : list Z) (timeout : Z) : MI (list Z) :=
  let* resp := cmd c timeout in
  match uboot_flash_command_error resp with Some _ => raise e | None => ret resp end.

(** *** Probing the flash *)

Variable p : Plan.
Definition nand : bool := ir_nand (p_req p).
Definition chip : string := ir_chip (p_req p).
Definition stock : bool := bool_decide (is_Some (p_stock p)).
Definition stages : list string := p_stages p.
Definition ram_addr (load_prof : string -> res SoCProfile) : Z := get_ram_staging_addr load_prof chip.
Definition kernel_data : bytes := fb_kernel (p_firmware p).
Definition rootfs_data : bytes := fb_rootfs (p_firmware p).

(** [Block:\s*(\d+)\s*KB], ignoring case *)
Definition BLOCK_RE : re := seqs [liti (codes "Block:"); star sp; Group 1 (plus dg); star sp; liti (codes "KB")].

(** The loop over [NOR_SIZE_CANDIDATES_MB]. *)
Definition candidate_body (ram : Z) (candidate : Z) (_ : unit) : MI (ctl unit Z) :=
  let* r := cmd_result (nor_size_probe_read ram candidate) 5000000 true in
  let (read_ok, read_resp) := r : bool * list Z in
  if read_ok && (download_mode || sf_read_succeeded read_resp) then ret (Rtn candidate) else ret (Next tt).

(** Where the kernel and the root file system go and how much is erased, the
    NOR size in MiB and the erase block. *)
Record geometry := mkGeometry { k_off : Z; k_sz : Z; r_off : Z; r_sz : Z; g_nor_size : Z; nor_erase_block : Z }.

Definition slot (l : layout) (name : string) : res (Z * Z) := of_opt KeyError (assoc l name).

(** The tests of the payloads against the detected layout. *)
Definition check_nor_fit (nor_size block : Z) (k r : Z * Z) : MI unit :=
  if p_split p then
    let chip_end := nor_size * 1024 * 1024 in
    let* end_ := lift (split_image_end rootfs_data) in
    if chip_end <? fst k + end_ + block then stop 1 else ret tt
  else if snd k <? len kernel_data then stop 1
  else if snd r <? len rootfs_data then stop 1
  else ret tt.

Definition probe_nor (ram : Z) : MI geometry :=
  let* resp := cmd (codes "sf probe 0") 5000000 in
  match uboot_flash_command_error resp with Some _ => stop 1 | None =>
  let block := match re_search BLOCK_RE resp with Some m => group_dec 1 m * 1024 | None => 0x10000 end in
  let* detected :=
    match detect_nor_size_mb resp with
    | Some d => ret (Some d)
    | None =>
        let* c := foreach NOR_SIZE_CANDIDATES_MB (candidate_body ram) tt in
        match c with Rtn d => ret (Some d) | _ => ret None end
    end in
  let* ns := lift (or_exit 2 (select_nor_size_mb (ir_nor_size (p_req p)) detected stock)) in
  let (nor_size, _) := ns : Z * size_source in
  let l := nor_layout nor_size (p_boot_area p) in
  let* k := lift (slot l "kernel") in
  let* r := lift (slot l "rootfs") in
  let* _ := check_nor_fit nor_size block k r in
  let* _ :=
    if any_of stages ["uboot"; "kernel"; "rootfs"; "rootfs-data"; "env"]%string || ir_wipe_rootfs_data (p_req p)
    then unlock_nor_or_fail else ret tt in
  ret (if p_split p
       then mkGeometry (fst k) (snd k) (fst k) (nor_size * 1024 * 1024 - fst k) nor_size block
       else mkGeometry (fst k) (snd k) (fst r) (snd r) nor_size block)
  end.

Definition probe_nand : MI geometry :=
  let* resp := cmd (codes "nand info") 5000000 in
  let text := lower_codes resp in
  if contains (codes "error") text || contains (codes "no nand") text then stop 1 else
  if p_ubi_layout p then ret (mkGeometry 0 0 NAND_UBI_OFFSET 0 (ir_nor_size (p_req p)) 0x10000) else
  let* k := lift (slot NAND_LAYOUT "kernel") in
  let* r := lift (slot NAND_LAYOUT "rootfs") in
  ret (mkGeometry (fst k) (snd k) (fst r) (snd r) (ir_nor_size (p_req p)) 0x10000).

Definition probe_flash (ram : Z) : MI geometry := if nand then probe_nand else probe_nor ram.

(** *** Fetching a file into RAM *)

Variables (ram : Z) (g : geometry).
(** Whether the files come from a TFTP server on this host. *)
Variable host_tftp : bool.

Definition tftp_to_ram (filename : list Z) (timeout : Z) : MI (list Z) :=
  run_uboot_tftp (fun command command_timeout => cmd_result command command_timeout true) filename ram stock timeout.

(** [max(10.0, size / 1 MiB * 2.0)] seconds *)
Definition crc_timeout_for_size (size : Z) : Z := Z.max 10000000 (size * 2000000 / 2 ^ 20).

(** [bytes transferred\s*=\s*(\d+)], ignoring case *)
Definition TRANSFERRED_RE : re := seqs [liti (codes "bytes transferred"); star sp; chr 61; star sp; Group 1 (plus dg)].

Definition crc_command (size : Z) : list Z := codes "crc32 " ++ hex0x ram ++ codes " " ++ hex0x size.

(** One transfer with its verification: [None] is a failure, [Some] what is
    returned. *)
Definition verify_once (tftp_name : list Z) (orig_data : bytes) : MI (option (option Z)) :=
  let expected_crc := Z.land (crc32 orig_data) 0xFFFFFFFF in
  let* resp := try_except (let* r := tftp_to_ram tftp_name 120000000 in ret (Some r)) is_RuntimeError (fun _ => ret None) in
  match resp with
  | None => ret None
  | Some tftp_resp =>
      let reported := match re_search TRANSFERRED_RE tftp_resp with Some m => Some (group_dec 1 m) | None => None end in
      if match reported with Some n => negb (n =? len orig_data) | None => false end then ret None else
      let* i := get_obj in
      if nand && bool_decide (crc32_available i = Some false) then ret (Some None) else
      let* r := cmd_result (crc_command (len orig_data)) (crc_timeout_for_size (len orig_data)) true in
      let (crc_ok, crc_resp) := r : bool * list Z in
      let crc_text := lower_codes crc_resp in
      let crc_unsupported := contains (codes "unknown command") crc_text && contains (codes "crc32") crc_text in
      if nand && crc_unsupported then let* _ := modify (set_crc32 false) in ret (Some None) else
      if negb crc_ok then ret None else
      match parse_uboot_crc32 crc_resp with
      | None => ret None
      | Some ram_crc =>
          if ram_crc =? expected_crc then let* _ := modify (set_crc32 true) in ret (Some (Some ram_crc)) else ret None
      end
  end.

(** One turn of the loop of [_verify_tftp_ram]; the state is
    [fallback_active]. *)
Definition verify_body (tftp_name : list Z) (orig_data : bytes) (attempt : Z) (fallback_active : bool) : MI (ctl bool (option Z)) :=
  let* r := verify_once tftp_name orig_data in
  match r with
  | Some crc =>
      let* _ := if fallback_active && host_tftp then modify (set_blocksize MAX_BLOCKSIZE) else ret tt in
      ret (Rtn crc)
  | None =>
      if attempt <? TFTP_RAM_VERIFY_RETRIES then
        if host_tftp then let* _ := modify (set_blocksize DEFAULT_BLOCKSIZE) in ret (Next true)
        else ret (Next fallback_active)
      else raise (TyperExit 1)
  end.

Definition verify_tftp_ram (tftp_name : list Z) (orig_data : bytes) : MI (option Z) :=
  let* c := foreach (range (TFTP_RAM_VERIFY_RETRIES + 1)) (verify_body tftp_name orig_data) false in
  match c with
  | Rtn crc => ret crc
  | _ => raise (TyperExit 1)
  end.

(** *** Writing a partition *)

Definition flash_cmd : list Z := if nand then codes "nand" else codes "sf".

Definition erase_command (off size : Z) : list Z := flash_cmd ++ codes " erase " ++ hex0x off ++ codes " " ++ hex0x size.
Definition write_command (off size : Z) : list Z :=
  flash_cmd ++ codes " write " ++ hex0x ram ++ codes " " ++ hex0x off ++ codes " " ++ hex0x size.
Definition read_command (off size : Z) : list Z :=
  flash_cmd ++ codes " read " ++ hex0x ram ++ codes " " ++ hex0x off ++ codes " " ++ hex0x size.

Definition tftp_and_flash (tftp_name : list Z) (orig_data : bytes) (flash_off erase_sz : Z) : MI unit :=
  let expected_crc := Z.land (crc32 orig_data) 0xFFFFFFFF in
  let* _ := verify_tftp_ram tftp_name orig_data in
  let erase_timeout := if negb nand then Z.max 180000000 (erase_sz * 1000000 / 0x10000) else 120000000 in
  let* _ := checked_cmd (TyperExit 1) (erase_command flash_off erase_sz) erase_timeout in
  let* write_sz := if nand then lift (align_up (len orig_data) 2048) else ret (len orig_data) in
  let* _ := checked_cmd (TyperExit 1) (write_command flash_off write_sz) (if negb nand then 180000000 else 120000000) in
  if nand then ret tt else
  let* _ := checked_cmd (TyperExit 1) (read_command flash_off (len orig_data)) 60000000 in
  let* resp := cmd (crc_command (len orig_data)) (crc_timeout_for_size (len orig_data)) in
  match parse_uboot_crc32 resp with
  | None => raise (TyperExit 1)
  | Some flash_crc => if negb (flash_crc =? expected_crc) then raise (TyperExit 1) else ret tt
  end.

(** *** The UBI image *)

(** [uboot_flash_command_error(resp) or not uboot_reports_ok(resp)] *)
Definition ok_cmd (c : list Z) (timeout : Z) : MI (list Z) :=
  let* resp := checked_cmd RuntimeError c timeout in
  if negb (uboot_reports_ok resp) then raise RuntimeError else ret resp.

(** The erasing of the ubi partition: the answer of the erase that was done. *)
Definition erase_ubi : MI (list Z) :=
  let* mtd_value := env_value (codes "mtdparts") in
  let* ubi_off :=
    match mtd_value with
    | Some v => lift (mtdparts_partition_offset v (codes "ubi") true)
    | None => ret None
    end in
  if match ubi_off with Some o => negb (o =? NAND_UBI_OFFSET) | None => false end then raise RuntimeError else
  let whole_chip := ok_cmd (codes "nand erase " ++ hex0x NAND_UBI_OFFSET) 600000000 in
  match ubi_off with
  | Some _ =>
      let* r := cmd_result (codes "nand erase.part ubi") 600000000 true in
      let erase_resp := snd r in
      if contains (codes "erasing at") (lower_codes erase_resp) then
        if negb (uboot_reports_ok erase_resp) then raise RuntimeError else
        match uboot_flash_command_error erase_resp with Some _ => raise RuntimeError | None => ret erase_resp end
      else whole_chip
  | None => whole_chip
  end.

Definition flash_ubi_image (tftp_name : list Z) : MI unit :=
  let size := len rootfs_data in
  let* _ := verify_tftp_ram tftp_name rootfs_data in
  let* erase_resp := erase_ubi in
  let* _ :=
    match parse_nand_erase_range erase_resp with
    | Some (erase_off, erase_size) =>
        if negb (erase_off =? NAND_UBI_OFFSET) then raise RuntimeError else
        if erase_size <? size then raise RuntimeError else ret tt
    | None => ret tt
    end in
  let* _ := ok_cmd (codes "nand write.trimffs " ++ hex0x ram ++ codes " " ++ hex0x NAND_UBI_OFFSET ++ codes " " ++ hex0x size) 600000000 in
  let* i := get_obj in
  if bool_decide (crc32_available i = Some true) then
    let* _ := ok_cmd (codes "nand read " ++ hex0x ram ++ codes " " ++ hex0x NAND_UBI_OFFSET ++ codes " " ++ hex0x size) 600000000 in
    let* crc_resp := cmd (crc_command size) (crc_timeout_for_size size) in
    if negb (bool_decide (parse_uboot_crc32 crc_resp = Some (Z.land (crc32 rootfs_data) 0xFFFFFFFF))) then raise RuntimeError else ret tt
  else ret tt.

(** A raw UBI image on the NAND with fixed slots, written as a volume. *)
Variable replace_in_tftp : list Z -> bytes -> MI unit.

Definition flash_ubi_volume (tftp_name : list Z) : MI unit :=
  let* ubifs_data := lift (extract_ubifs rootfs_data 0x20000 0) in
  let* _ := replace_in_tftp tftp_name ubifs_data in
  let* _ := verify_tftp_ram tftp_name ubifs_data in
  let* _ := cmd (codes "nand erase " ++ hex0x (r_off g) ++ codes " " ++ hex0x (r_sz g)) 120000000 in
  let* _ := cmd (codes "setenv mtdids nand0=hinand") 3000000 in
  let* _ := cmd (codes "setenv mtdparts mtdparts=hinand:1024k(boot),1024k(env),8192k(kernel),-(ubi)") 3000000 in
  let* _ := cmd (codes "mtdparts") 3000000 in
  let* _ := cmd (codes "ubi part ubi") 120000000 in
  let* _ := cmd (codes "ubi create rootfs") 60000000 in
  let* resp := cmd (codes "ubi write " ++ hex0x ram ++ codes " rootfs " ++ hex0x (len ubifs_data)) 300000000 in
  let text := lower_codes resp in
  if contains (codes "error") text || contains (codes "cannot") text then raise (TyperExit 1) else ret tt.

(** *** Regions that must be blank *)

(** [sf read ...; crc32 ...] *)
Definition read_and_crc (off size : Z) : list Z :=
  codes "sf read " ++ hex0x ram ++ codes " " ++ hex0x off ++ codes " " ++ hex0x size ++ codes "; crc32 " ++ hex0x ram ++ codes " " ++ hex0x size.

Definition erase_verified (off size erase_timeout verify_timeout : Z) : MI unit :=
  if nor_erase_block g =? 0 then raise ZeroDivisionError else
  if negb (off mod nor_erase_block g =? 0) || negb (size mod nor_erase_block g =? 0) then raise RuntimeError else
  let* _ := checked_cmd RuntimeError (codes "sf erase " ++ hex0x off ++ codes " " ++ hex0x size) erase_timeout in
  let* verify_resp := checked_cmd RuntimeError (read_and_crc off size) verify_timeout in
  match parse_uboot_crc32 verify_resp with
  | None => raise RuntimeError
  | Some actual_crc =>
      let* expected_crc := lift (erased_region_crc size) in
      if negb (actual_crc =? expected_crc) then raise RuntimeError else ret tt
  end.

Definition erase_rootfs_data : MI unit :=
  let data_offset := r_off g + r_sz g in
  let data_size := g_nor_size g * 1024 * 1024 - data_offset in
  if data_size <=? 0 then raise RuntimeError else erase_verified data_offset data_size 300000000 180000000.

(** *** The environment *)

(** [os.urandom] of the generated address. *)
Variable random : bytes.

Definition env_slot : res (Z * Z) := slot (nor_layout (g_nor_size g) (p_boot_area p)) "env".

(** Clearing the stored environment and starting the new U-Boot. *)
Definition clear_environment : MI unit :=
  let* pre_reset_eth := env_value (codes "ethaddr") in
  let* i := get_obj in
  let preserved_eth := assoc (preserved_stock_env i) (codes "ethaddr") in
  let* sel := lift (select_install_ethaddr random pre_reset_eth preserved_eth false) in
  match fst sel with
  | None => raise (TyperExit 1)
  | Some reset_eth =>
      let* _ := modify (fun i => set_stock_env (put_item (codes "ethaddr") reset_eth (preserved_stock_env i)) i) in
      let* es := lift env_slot in
      let (env_off, env_size) := es : Z * Z in
      let* _ := erase_verified env_off env_size 30000000 30000000 in
      let* _ := reset_command 1000000 in
      let* _ := wait_for_openipc_shell_after_reset 20000000 in
      let* _ := checked_cmd RuntimeError (codes "sf probe 0") 5000000 in
      unlock_nor_or_fail
  end.

(** The settings of each layout; the result is [ubi_layout_eth]. *)
Definition boot_environment : MI (option (list Z)) :=
  if p_ubi_layout p then
    if has stages "uboot" then
      let* eth := env_value (codes "ethaddr") in
      let* _ := checked_cmd RuntimeError (codes "env default -a") 5000000 in
      ret eth
    else ret None
  else if p_scanning p && negb stock then
    if has stages "uboot" then
      let* eth := env_value (codes "ethaddr") in
      let* totalmem := env_value (codes "totalmem") in
      let* _ := checked_cmd RuntimeError (codes "env default -a") 5000000 in
      let* _ :=
        match totalmem with
        | Some (c :: m) => let* _ := cmd (codes "setenv totalmem " ++ (c :: m)) 3000000 in ret tt
        | _ => ret tt
        end in
      ret eth
    else ret None
  else if nand then
    let* _ := cmd (codes "setenv mtdparts hinand:1024k(boot),1024k(env),8192k(kernel),-(ubi)") 3000000 in
    let* _ := cmd (codes "setenv bootcmd nand read ${baseaddr} 0x200000 0x800000\; bootm ${baseaddr}") 3000000 in
    let* _ := cmd (codes "setenv bootargs " ++ nand_bootargs (is_ubi_image rootfs_data)) 3000000 in
    ret None
  else
    let mtdparts := nor_mtdparts (g_nor_size g) in
    let* _ :=
      if stock then set_env (codes "mtdparts") mtdparts
      else
        let* _ := cmd (codes "setenv mtdparts " ++ mtdparts) 3000000 in
        let* _ := cmd (codes "setenv bootcmd ${bootcmdnor}") 3000000 in ret tt in
    ret None.

(** [a.lower() == b.lower()] for an optional [a]. *)
Definition same_mac (a : option (list Z)) (b : list Z) : bool :=
  match a with Some a => beq (lower_codes a) (lower_codes b) | None => false end.

(** What is read back after [saveenv] on a stock U-Boot migration. *)
Definition verify_saved_environment (selected_eth : list Z) : MI unit :=
  let* es := lift env_slot in
  let (env_off, env_size) := es : Z * Z in
  let* _ := verify_spi_environment_crc cmd env_off env_size ram in
  let* saved_eth := env_value (codes "ethaddr") in
  if negb (same_mac saved_eth selected_eth) then raise RuntimeError else
  let* saved_mtdparts := env_value (codes "mtdparts") in
  if negb (bool_decide (saved_mtdparts = Some (nor_mtdparts (g_nor_size g)))) then raise RuntimeError else ret tt.

(** [preserved_stock_env.get("ethaddr") or ubi_layout_eth] *)
Definition preserved_or (a b : option (list Z)) : option (list Z) :=
  match a with Some (_ :: _) => a | _ => b end.

Definition save_environment (ubi_layout_eth : option (list Z)) : MI unit :=
  let* current_eth := env_value (codes "ethaddr") in
  let* i := get_obj in
  let preserved_eth := preserved_or (assoc (preserved_stock_env i) (codes "ethaddr")) ubi_layout_eth in
  let* sel := lift (select_install_ethaddr random current_eth preserved_eth (negb stock)) in
  match fst sel with
  | None => raise (TyperExit 1)
  | Some selected_eth =>
      let* _ :=
        if negb (same_mac current_eth selected_eth) then
          if stock then set_env (codes "ethaddr") selected_eth
          else let* _ := cmd (codes "setenv ethaddr " ++ selected_eth) 3000000 in ret tt
        else ret tt in
      let* _ := checked_cmd RuntimeError (codes "saveenv") 10000000 in
      if stock then verify_saved_environment selected_eth else ret tt
  end.

(** *** The stages *)

Definition NAME_U : list Z := codes "u".
Definition NAME_K : list Z := codes "k".
Definition NAME_R : list Z := codes "r".

(** The files the device fetches. *)
Definition files_to_serve : list (list Z * bytes) :=
  (if has stages "uboot" then [(NAME_U, p_uboot_data p)] else []) ++
  (if has stages "kernel" && negb (p_ubi_layout p) && negb (p_split p) then [(NAME_K, kernel_data)] else []) ++
  (if has stages "rootfs" then [(NAME_R, rootfs_data)] else []).

Definition when (c : bool) (m : MI unit) : MI unit := if c then m else ret tt.

Definition rootfs_stage : MI unit :=
  if p_ubi_layout p then flash_ubi_image NAME_R
  else if nand && is_ubi_image rootfs_data then flash_ubi_volume NAME_R
  else tftp_and_flash NAME_R rootfs_data (r_off g) (r_sz g).

(** The server address and the name of the RAM address, on the device. *)
Definition network_settings (serverip : list Z) : MI unit :=
  let device_ip := codes (ir_device_ip (p_req p)) in
  if stock then
    let* _ := set_env (codes "ipaddr") device_ip in
    let* _ := set_env (codes "serverip") serverip in
    set_env (codes "loadaddr") (hex0x ram)
  else
    let* _ := cmd (codes "setenv ipaddr " ++ device_ip) 3000000 in
    let* _ := cmd (codes "setenv serverip " ++ serverip) 3000000 in
    ret tt.

Definition env_stage : MI unit :=
  let* _ := when (stock && negb nand) clear_environment in
  let* eth := boot_environment in
  save_environment eth.

Definition run_stages (serverip : list Z) : MI unit :=
  let* _ := when (p_needs_tftp p) (network_settings serverip) in
  let* _ := when (has stages "uboot") (tftp_and_flash NAME_U (p_uboot_data p) (p_b_off p) (p_uboot_flash_size p)) in
  let* _ := when (has stages "kernel" && negb (p_ubi_layout p) && negb (p_split p))
              (tftp_and_flash NAME_K kernel_data (k_off g) (k_sz g)) in
  let* _ := when (has stages "rootfs") rootfs_stage in
  let* _ := when (negb nand && negb (p_split p) && (ir_wipe_rootfs_data (p_req p) || (has stages "rootfs-data" && stock)))
              erase_rootfs_data in
  let* _ := when (has stages "env") env_stage in
  when (has stages "reset") (reset_command 3000000).

(** [except (RuntimeError, TransportError) as exc: fail(str(exc))] *)
Definition write_flash (serverip : list Z) : MI unit :=
  try_except (run_stages serverip) (fun e => is_RuntimeError e || is_TransportError e) (fun _ => stop 1).

End Drive.

(** ** The whole installation *)

Inductive power_kind := P_RouterOS | P_Rack | P_Other.

Section Install.
Context {T : Type} `{Transport T} `{Power T}.
Variable fuel : nat.
Variable exc_text : exn -> list Z.
Variable str_exn : exn -> string.
Variable load_prof : string -> res SoCProfile.
Variable read_file : string -> res bytes.
Variable tar_members : bytes -> string + list (bytes * (string + bytes)).
Variable unix_time : Z.
Variable random : bytes.

(** Outside the program: the configured power controller and its search for a
    port, the pod's replies to an upload, to the question whether some bytes
    fit and to a staged file, the network interfaces, and what happens when
    an address is assigned to one and the TFTP server is started. *)
Variable power_from_env : res power_kind.
Variable find_port_by_comment : string -> res string.
Variable run_rack_fastboot : string -> bytes -> res RecoveryResult.
Variable psram_can_fit : Z -> bool.
Variable tftp_put : list Z -> bytes -> res unit.
Variable interfaces : list string.
Variable start_server : string -> res unit.
(** The protocol for a chip, as [RecoverySession] finds it. *)
Variable make_session : string -> string -> bool -> option string -> res RecoverySession.

Abbreviation MI := (M T Inst).

(** [removeprefix("uart-")] of the name of the port *)
Definition device_label (port : string) : string :=
  text_of (removeprefix (codes "uart-") (basename (codes port))).

(** The power controller and the port, when the device is to be power-cycled. *)
Definition choose_power (r : InstallRequest) : res (option power_kind * option string) :=
  if negb (ir_power_cycle r) then Ok (None, None) else
  match power_from_env with
  | Raise _ => exit_ 1
  | Diverge => Diverge
  | Ok P_RouterOS =>
      if negb (bool_decide (ir_poe_port_override r = ""%string)) then Ok (Some P_RouterOS, Some (ir_poe_port_override r)) else
      match find_port_by_comment (device_label (ir_port r)) with
      | Ok port => Ok (Some P_RouterOS, Some port)
      | Raise _ => exit_ 1
      | Diverge => Diverge
      end
  | Ok k => Ok (Some k, Some ""%string)
  end.

Definition is_rack (k : option power_kind) : bool := match k with Some P_Rack => true | _ => false end.

(** [power_controller.power_cycle(poe_port or "")], which may raise anything. *)
Definition cycle_or_exit (port : option string) : MI unit :=
  try_except (fun w => let (r, t) := power_cycle (default ""%string port) (tr w) in (r, World t (obj w) (log w)))
    is_Exception (fun _ => stop 1).

(** Phase 1: U-Boot is started, from the stock console, by the pod or by the
    boot ROM: the result, whether every character is to be echoed, and
    whether a stock U-Boot was chainloaded. *)
Definition start_uboot (p : Plan) (kind : option power_kind) (port : option string) : MI (RecoveryResult * bool * bool) :=
  match p_stock p with
  | Some target =>
      let* _ := if bool_decide (is_Some kind) then cycle_or_exit port else ret tt in
      let* b := lift (create_uboot_bootstrap (T := T) (Ob := Inst) fuel str_exn (st_handler target) (st_load_address target)) in
      let (bootstrap, echo) := b : (bytes -> list Z -> M T Inst UBootBootstrapResult) * bool in
      let* r := try_except (bootstrap (p_uboot_raw p) (basename (codes (p_uboot_name p))))
                  (fun e => bool_decide (e = TimeoutError) || is_TransportError e) (fun _ => stop 1) in
      let* _ := modify (fun i => set_stock_env (foldl (fun e kv => put_item (fst kv) (snd kv) e) (preserved_stock_env i) (preserved_env r)) i) in
      ret (br_recovery r, echo, chainloaded r)
  | None =>
      let path := if bool_decide (ir_uboot_path (p_req p) = ""%string) then p_uboot_name p else ir_uboot_path (p_req p) in
      let* s := lift (make_session (ir_chip (p_req p)) path (bool_decide (is_Some kind)) port) in
      if is_rack kind then
        let* r := lift (run_rack_fastboot (ir_chip (p_req p)) (p_uboot_raw p)) in ret (r, false, false)
      else
        let* r := with_object (P_HiSiliconV500 None) (Session.run fuel load_prof read_file tar_members str_exn unix_time s false 2) in
        ret (fst r, false, false)
  end.

(** The tests after a stock U-Boot was chainloaded. *)
Definition check_chainloaded (p : Plan) (chained : bool) : res unit :=
  if negb chained then Ok tt else
  let partial := any_of (p_stages p) ["kernel"; "rootfs"; "rootfs-data"; "env"]%string || ir_wipe_rootfs_data (p_req p) in
  fail_if (partial && negb (has (p_stages p) "uboot")) 2.

(** Which TFTP server is used: [Some true] is the one on this host, [None]
    that none is needed. *)
Definition choose_tftp (p : Plan) (kind : option power_kind) : res (option bool) :=
  if negb (p_needs_tftp p) then Ok None else
  let via := ir_tftp_via (p_req p) in
  let pod := bool_decide (via = "pod"%string) || (bool_decide (via = "auto"%string) && is_rack kind) in
  if bool_decide (via = "pod"%string) && negb (is_rack kind) then exit_ 1 else
  let pod := pod && (negb (bool_decide (via = "auto"%string)) || psram_can_fit (foldr Z.add 0 ((fun f => len (snd f)) <$> files_to_serve p))) in
  Ok (Some (negb pod)).

(** [for name, data in tftp_files.items(): await tftp_put(name, data)] *)
Fixpoint put_all (files : list (list Z * bytes)) : res unit :=
  match files with
  | [] => Ok tt
  | (n, d) :: rest => let! _ := tftp_put n d in put_all rest
  end.

(** The server is set up with the files; its address. *)
Definition serve (p : Plan) (host : option bool) : MI (list Z) :=
  match host with
  | None => ret []
  | Some true =>
      let* nic :=
        if negb (bool_decide (ir_nic (p_req p) = ""%string)) then ret (ir_nic (p_req p)) else
        match interfaces with
        | i :: _ => ret i
        | [] => stop 1
        end in
      let* _ := lift (start_server nic) in
      let* _ := modify (fun i => set_blocksize MAX_BLOCKSIZE (set_files (files_to_serve p) i)) in
      ret (codes (ir_host_ip (p_req p)))
  | Some false =>
      let* _ := lift (put_all (files_to_serve p)) in
      let* _ := modify (set_files (files_to_serve p)) in
      ret (codes "192.168.1.1")
  end.

(** [replace_in_tftp] of the server in use. *)
Definition replace_file (host : bool) (name : list Z) (data : bytes) : MI unit :=
  let* _ := if host then ret tt else lift (tftp_put name data) in
  modify (fun i => set_files (put_item name data (tftp_files i)) i).

(** From the started U-Boot on. *)
Definition flash_device (p : Plan) (kind : option power_kind) (verify_shell_echo : bool) : MI unit :=
  let* download_mode := detect_mode fuel in
  if stock p && download_mode then stop 1 else
  let* i := get_obj in
  let* _ := set_all_env fuel exc_text download_mode verify_shell_echo (preserved_stock_env i) in
  let* _ := match p_stock p with
            | Some t => if p_needs_tftp p then set_all_env fuel exc_text download_mode verify_shell_echo (st_transient_env t) else ret tt
            | None => ret tt
            end in
  let ram := ram_addr p load_prof in
  let* g := probe_flash fuel exc_text download_mode verify_shell_echo p ram in
  let* host := lift (choose_tftp p kind) in
  let* serverip := serve p host in
  let host_tftp := match host with Some true => true | _ => false end in
  write_flash fuel exc_text download_mode verify_shell_echo p ram g host_tftp (replace_file host_tftp) random serverip.

Definition install (p : Plan) : MI unit :=
  let* kp := lift (choose_power (p_req p)) in
  let (kind, port) := kp : option power_kind * option string in
  let* s := start_uboot p kind port in
  let '(result, echo, chained) := s : RecoveryResult * bool * bool in
  if negb (r_success result) then stop 1 else
  let* _ := lift (check_chainloaded p chained) in
  flash_device p kind echo.

End Install.

(** [run_install], with the cache of downloaded images as it was found. *)
Definition run_install {T} `{Transport T} `{Power T} fuel exc_text str_exn load_prof read_file tar_members unix_time random
    power_from_env find_port_by_comment run_rack_fastboot psram_can_fit tftp_put interfaces start_server make_session
    path_exists open_tar head_url get_url parse_date now (r : InstallRequest) (c : cache) : M T Inst unit :=
  let* p := lift (fst (make_plan path_exists read_file open_tar load_prof head_url get_url parse_date now r c)) in
  install fuel exc_text str_exn load_prof read_file tar_members unix_time random power_from_env find_port_by_comment
    run_rack_fastboot psram_can_fit tftp_put interfaces start_server make_session p.
