(* ===== verification/Commands.v ===== *)
(** * The commands in a log

  A program logic for code that drives a U-Boot console, over any transport.
  [says c r l] is what the function that runs a command means by its log: [l]
  is what giving the command [c] appended, with the outcome [r].  [commands]
  cuts a log into such segments; [asks m Q] says which commands [m] gives and
  [quietly m] that none of them changes the flash. *)

From S2P Require Import Prelude Text Transport.

(** The commands that change the flash. *)
Definition flash_write (c : list Z) : bool :=
  existsb (fun s => starts_with (codes s) c)
    ["sf erase"; "sf write"; "nand erase"; "nand write"; "ubi "; "saveenv"; "mmc erase"; "mmc write"]%string.

(** A command and what became of it. *)
Definition writes_of {R} (tr : list (list Z * R)) : list (list Z) := List.filter flash_write (fst <$> tr).
Definition quiet {R} (tr : list (list Z * R)) : Prop := writes_of tr = [].

Lemma writes_of_app {R} (a b : list (list Z * R)) : writes_of (a ++ b) = writes_of a ++ writes_of b.
Proof. unfold writes_of. by rewrite fmap_app, List.filter_app. Qed.

Lemma writes_of_one {R} c (r : R) : writes_of [(c, r)] = if flash_write c then [c] else [].
Proof. done. Qed.

Lemma quiet_app {R} (a b : list (list Z * R)) : quiet a -> quiet b -> quiet (a ++ b).
Proof. unfold quiet. rewrite writes_of_app. by intros -> ->. Qed.

Lemma quiet_nil {R} : quiet (R := R) [].
Proof. done. Qed.

Lemma quiet_one {R} c (r : R) : flash_write c = false -> quiet [(c, r)].
Proof. unfold quiet. rewrite writes_of_one. by intros ->. Qed.

Section Commands.
Context {T Ob : Type}.
Context {R : Type}.
Variable says : list Z -> R -> list event -> Prop.
Abbreviation label := (list Z * R)%type.
Abbreviation MC := (M T Ob).

(** The log of commands, with Ctrl-C's and reads between them. *)
Inductive commands : list label -> list event -> Prop :=
  | commands_nil : commands [] []
  | commands_wait tr l0 l : Forall (eq [3]) (writes l0) -> commands tr l -> commands tr (l0 ++ l)
  | commands_cons c r tr l0 l : says c r l0 -> commands tr l -> commands ((c, r) :: tr) (l0 ++ l).

Lemma commands_app tr l tr' l' : commands tr l -> commands tr' l' -> commands (tr ++ tr') (l ++ l').
Proof.
  induction 1 as [|tr l0 l Hw Hc IH|c r tr l0 l Hs Hc IH]; intros Hc'; [done|rewrite <- app_assoc..].
  - apply commands_wait; [done|by apply IH].
  - cbn. apply commands_cons; [done|by apply IH].
Qed.

Lemma commands_one c r l : says c r l -> commands [(c, r)] l.
Proof. intros Hs. rewrite <- (app_nil_r l). apply commands_cons; [done|constructor]. Qed.

(** [asks m Q]: running [m] gives commands with which [Q] holds. *)
Definition asks {A} (m : MC A) (Q : res A -> list label -> Prop) : Prop :=
  emits m (fun r l => exists tr, commands tr l /\ Q r tr).

Lemma asks_weaken {A} (m : MC A) (P Q : res A -> list label -> Prop) :
  asks m P -> (forall r tr, P r tr -> Q r tr) -> asks m Q.
Proof. intros Hm HPQ. eapply emits_weaken; [exact Hm|]. intros r l (tr & Hc & HP). eauto. Qed.

Lemma asks_ret {A} (a : A) (Q : res A -> list label -> Prop) : Q (Ok a) [] -> asks (ret a) Q.
Proof. intros HQ. apply emits_ret. exists []. split; [constructor|done]. Qed.
Lemma asks_raise {A} e (Q : res A -> list label -> Prop) : Q (Raise e) [] -> asks (raise e) Q.
Proof. intros HQ. apply emits_raise. exists []. split; [constructor|done]. Qed.
Lemma asks_lift {A} r (Q : res A -> list label -> Prop) : Q r [] -> asks (lift r) Q.
Proof. intros HQ. apply emits_lift. exists []. split; [constructor|done]. Qed.
Lemma asks_get (Q : res Ob -> list label -> Prop) : (forall o, Q (Ok o) []) -> asks get_obj Q.
Proof. intros HQ. apply emits_get_obj. intros o. exists []. split; [constructor|done]. Qed.
Lemma asks_put o (Q : res unit -> list label -> Prop) : Q (Ok tt) [] -> asks (put_obj o) Q.
Proof. intros HQ. apply emits_put_obj. exists []. split; [constructor|done]. Qed.

Lemma asks_bind {A B} (m : MC A) (f : A -> MC B) Q :
  asks m (fun r tr =>
    match r with
    | Ok a => asks (f a) (fun r' tr' => Q r' (tr ++ tr'))
    | Raise e => Q (Raise e) tr
    | Diverge => Q Diverge tr
    end) -> asks (bind m f) Q.
Proof.
  intros Hm. apply emits_bind. eapply emits_weaken; [exact Hm|]. intros [a|e|] l (tr & Hc & HQ); [|by eauto..].
  eapply emits_weaken; [exact HQ|]. intros r' l' (tr' & Hc' & HQ'). exists (tr ++ tr'). split; [by apply commands_app|done].
Qed.

Lemma asks_try {A} (m : MC A) p h (Q : res A -> list label -> Prop) :
  asks m (fun r tr =>
    match r with
    | Raise e => if p e : bool then asks (h e) (fun r' tr' => Q r' (tr ++ tr')) else Q (Raise e) tr
    | r => Q r tr
    end) -> asks (try_except m p h) Q.
Proof.
  intros Hm. apply emits_try. eapply emits_weaken; [exact Hm|]. intros [a|e|] l (tr & Hc & HQ); [by eauto| |by eauto].
  destruct (p e); [|by eauto]. eapply emits_weaken; [exact HQ|]. intros r' l' (tr' & Hc' & HQ').
  exists (tr ++ tr'). split; [by apply commands_app|done].
Qed.

(** Code that only waits for the device, sending Ctrl-C. *)
Lemma asks_waits {A} (m : MC A) : sends (eq [3]) m -> asks m (fun _ tr => tr = []).
Proof.
  intros Hs. eapply emits_weaken; [exact Hs|]. intros r l Hl. exists []. split; [|done]. rewrite <- (app_nil_r l).
  by apply commands_wait; [|constructor].
Qed.

(** Code that never changes the flash. *)
Definition quietly {A} (m : MC A) : Prop := asks m (fun _ tr => quiet tr).

Lemma quietly_waits {A} (m : MC A) : sends (eq [3]) m -> quietly m.
Proof. intros Hs. eapply asks_weaken; [by apply asks_waits|]. by intros r tr ->. Qed.

Lemma quietly_bind {A B} (m : MC A) (f : A -> MC B) : quietly m -> (forall a, quietly (f a)) -> quietly (bind m f).
Proof.
  intros Hm Hf. apply asks_bind. eapply asks_weaken; [exact Hm|]. intros [a|e|] tr Htr; [|done..].
  eapply asks_weaken; [apply Hf|]. intros r' tr' Htr'. by apply quiet_app.
Qed.

Lemma quietly_try {A} (m : MC A) p h : quietly m -> (forall e, quietly (h e)) -> quietly (try_except m p h).
Proof.
  intros Hm Hh. apply asks_try. eapply asks_weaken; [exact Hm|]. intros [a|e|] tr Htr; [done| |done].
  destruct (p e); [|done]. eapply asks_weaken; [apply Hh|]. intros r' tr' Htr'. by apply quiet_app.
Qed.

Lemma quietly_ret {A} (a : A) : quietly (ret a).
Proof. by apply asks_ret. Qed.
Lemma quietly_raise {A} e : quietly (A := A) (raise e).
Proof. by apply asks_raise. Qed.
Lemma quietly_lift {A} (r : res A) : quietly (lift r).
Proof. by apply asks_lift. Qed.
Lemma quietly_get : quietly get_obj.
Proof. by apply asks_get. Qed.
Lemma quietly_put o : quietly (put_obj o).
Proof. by apply asks_put. Qed.

Lemma quietly_if {A} (b : bool) (m n : MC A) : quietly m -> quietly n -> quietly (if b then m else n).
Proof. by destruct b. Qed.

(** A loop whose turns give commands with [P], and [C] at the turn in which it
    ends with an exception. *)
Lemma asks_foreach {S X} (I : S -> Prop) (P C : X -> list label -> Prop) (xs : list X) (body : X -> S -> MC (ctl S Empty_set)) s :
  I s ->
  (forall x s, I s -> asks (body x s) (fun r tr =>
    match r with Ok (Next s') => I s' /\ P x tr | Ok (Brk _) => False | Ok (Rtn _) => False | _ => C x tr end)) ->
  asks (foreach xs body s) (fun r tr =>
    match r with
    | Ok (Next s') => I s' /\ exists ts, Forall2 P xs ts /\ tr = concat ts
    | Ok (Brk _) => False
    | Ok (Rtn _) => False
    | _ => exists dn x rest ts t, xs = dn ++ x :: rest /\ Forall2 P dn ts /\ C x t /\ tr = concat ts ++ t
    end).
Proof.
  intros Hs Hb. revert s Hs. induction xs as [|x xs IH]; intros s Hs; cbn [foreach].
  - apply asks_ret. split; [done|]. by exists [].
  - apply asks_bind. eapply asks_weaken; [by apply Hb|]. intros [[s'|s'|r]|e|] tr Htr; try done.
    2,3: by exists [], x, xs, [], tr.
    destruct Htr as [Hs' Hp]. eapply asks_weaken; [by apply IH|]. intros [[s2|s2|r]|e|] tr'; try done.
    + intros (H2 & ts & Hts & ->). split; [done|]. exists (tr :: ts). split; [by constructor|done].
    + intros (dn & y & rest & ts & t & -> & Hts & Hc & ->). exists (x :: dn), y, rest, (tr :: ts), t.
      split_and!; [done|by constructor|done|]. cbn. by rewrite <- app_assoc.
    + intros (dn & y & rest & ts & t & -> & Hts & Hc & ->). exists (x :: dn), y, rest, (tr :: ts), t.
      split_and!; [done|by constructor|done|]. cbn. by rewrite <- app_assoc.
Qed.

Lemma quietly_foreach {S R' X} (xs : list X) (body : X -> S -> MC (ctl S R')) s :
  (forall x s, quietly (body x s)) -> quietly (foreach xs body s).
Proof.
  intros Hb. revert s. induction xs as [|x xs IH]; intros s; [apply quietly_ret|].
  apply quietly_bind; [apply Hb|]. intros [s'|s'|r]; [apply IH|apply quietly_ret..].
Qed.

End Commands.

Ltac quiet_go :=
  repeat lazymatch goal with
  | |- quietly _ (bind _ _) => apply quietly_bind; [|intros ?]
  | |- quietly _ (try_except _ _ _) => apply quietly_try; [|intros ?]
  | |- quietly _ (foreach _ _ _) => apply quietly_foreach; intros ? ?
  | |- quietly _ (ret _) => apply quietly_ret
  | |- quietly _ (raise _) => apply quietly_raise
  | |- quietly _ (lift _) => apply quietly_lift
  | |- quietly _ get_obj => apply quietly_get
  | |- quietly _ (put_obj _) => apply quietly_put
  | |- quietly _ (match ?x with _ => _ end) => destruct x
  end.

(** No commands, behind those so far. *)
Ltac nil_r := cbn beta iota; cbn [app]; rewrite ?app_nil_r.
Ltac ask_ret := apply asks_ret; nil_r.
