(* ===== verification/InstallSafe.v ===== *)
(** * What the installer writes, and in which order

  Safety of [Install]: the commands an installation gives U-Boot, over any
  transport and whatever the device answers.  The log of the transport is cut
  into the segments of the commands; the theorems say which commands change
  the flash, in which order they come and what has been verified when they
  do. *)

From Stdlib Require Import Sorting.Sorted.
From S2P Require Import Prelude Text Regex Crc Transport Events Profiles Firmware UbootEnv Layout Ubi Bundle Flashdump DownloadCmd Tftp Session Vendors Install.
From S2P Require Import Commands Transport.

(** ** Commands in a log *)

(** A command and what became of it. *)
Abbreviation label := (list Z * res (bool * list Z))%type.

Section Labels.
Context {T : Type} `{Transport T}.
Variable fuel : nat.
Variable exc_text : exn -> list Z.
Variables (download_mode verify_shell_echo : bool).
Abbreviation MI := (M T Inst).
Abbreviation ask := (cmd_result fuel exc_text download_mode verify_shell_echo).

(** [l] is what giving the command [c] appends to the log, with outcome [r]. *)
Definition says (c : list Z) (r : res (bool * list Z)) (l : list event) : Prop :=
  (exists (w : world T Inst) tmo af, fst (ask c tmo af w) = r /\ log (snd (ask c tmo af w)) = log w ++ l) \/
  (c = codes "reset" /\ exists (w : world T Inst) tmo,
     log (snd (Flashdump.send_command fuel c tmo [] verify_shell_echo false w)) = log w ++ l).
Abbreviation asks := (asks (T := T) (Ob := Inst) says).
Abbreviation quietly := (quietly (T := T) (Ob := Inst) says).

Lemma keeps_cmd_result P c tmo af : keeps P (ask c tmo af).
Proof.
  unfold cmd_result, download_cmd_result, shell_cmd_result, shell_attempt, stop.
  pose proof (keeps_dl_send (T := T) fuel P). pose proof (keeps_send_text (T := T) fuel P). keeps_go.
Qed.

(** A command that may not fail only returns when U-Boot reported success. *)
Lemma cmd_result_true c tmo : yields (ask c tmo false) (fun x => fst x = true).
Proof.
  unfold cmd_result, download_cmd_result, shell_cmd_result, shell_attempt, stop. cbn [orb andb negb].
  destruct download_mode.
  - apply yields_bind. intros [e|[ok out]]; [apply yields_raise|]. cbn [andb]. rewrite andb_true_r.
    destruct ok; cbn [negb]; [by apply yields_ret|apply yields_raise].
  - intros w a w' E. unfold bind in E. destruct (foreach _ _ _ w) as [[[s|s|r]|e|] w1] eqn:Ef; try done; injection E as <- <-; try done.
    revert Ef. generalize (range 2) as xs, tt as s. intros xs. revert w. induction xs as [|x xs IH]; intros w s; [done|].
    cbn [foreach]. unfold bind at 1. destruct (try_except _ _ _ w) as [[[text|out]|e|] w2]; try done.
    destruct (_ || (x =? 1)); [by intros [= <- <-]|]. unfold bind.
    destruct (write [3; 13] w2) as [[[]|e|] w3]; try done. destruct (sleep 50000 w3) as [[[]|e|] w4]; try done. apply IH.
Qed.

Lemma asks_cmd_result c tmo af (Q : res (bool * list Z) -> list label -> Prop) :
  (forall r, (af = false -> forall x, r = Ok x -> fst x = true) -> Q r [(c, r)]) -> asks (ask c tmo af) Q.
Proof.
  intros HQ w. destruct (keeps_cmd_result (fun o => o = obj w) c tmo af (obj w) eq_refl w eq_refl) as (l & Hl & _).
  exists l. split; [done|]. exists [(c, fst (ask c tmo af w))]. split.
  - rewrite <- (app_nil_r l). apply commands_cons; [|constructor]. left. exists w, tmo, af. done.
  - apply HQ. intros -> x Hx. destruct (ask c tmo false w) as [r w'] eqn:E. cbn in Hx. subst r. by apply cmd_result_true in E.
Qed.

Lemma quietly_cmd_result c tmo af : flash_write c = false -> quietly (ask c tmo af).
Proof. intros Hc. apply asks_cmd_result. intros r _. by apply quiet_one. Qed.

Lemma quietly_reset tmo : quietly (reset_command fuel exc_text download_mode verify_shell_echo tmo).
Proof.
  unfold reset_command. apply quietly_if.
  { apply quietly_bind; [by apply quietly_cmd_result|]. intros _. apply quietly_ret. }
  apply quietly_try; [|intros e; apply quietly_raise]. apply quietly_bind; [|intros ?; apply quietly_ret].
  intros w. assert (Hk : keeps (T := T) (fun o => o = obj w) (Flashdump.send_command fuel (codes "reset") tmo [] verify_shell_echo false)).
  { unfold Flashdump.send_command. pose proof (keeps_send_text (T := T) fuel (fun o => o = obj w)). keeps_go. }
  destruct (Hk (obj w) eq_refl w eq_refl) as (l & Hl & _). exists l. split; [done|].
  exists [(codes "reset", Diverge)]. split; [|done]. rewrite <- (app_nil_r l). apply commands_cons; [|constructor].
  right. split; [done|]. by exists w, tmo.
Qed.

Lemma quietly_after_reset tmo : quietly (wait_for_openipc_shell_after_reset (T := T) fuel tmo).
Proof.
  assert (Hs : sends (T := T) (Ob := Inst) (eq [3]) (wait_for_openipc_shell_after_reset fuel tmo)).
  { unfold wait_for_openipc_shell_after_reset, after_reset_body, interrupts. sends_go. }
  eapply emits_weaken; [exact Hs|]. intros r l Hl. exists []. split; [|done]. rewrite <- (app_nil_r l). by apply commands_wait; [|constructor].
Qed.

End Labels.

Ltac quiet_go := repeat first [progress Commands.quiet_go | apply quietly_cmd_result; reflexivity].

Section Stages.
Context {T : Type} `{Transport T}.
Variable fuel : nat.
Variable exc_text : exn -> list Z.
Variables (download_mode verify_shell_echo : bool).
Variable p : Plan.
Variables (ram : Z) (g : geometry) (host_tftp : bool).
Variable replace_in_tftp : list Z -> bytes -> M T Inst unit.
Variable random : bytes.
Abbreviation MI := (M T Inst).
Abbreviation says := (says (T := T) fuel exc_text download_mode verify_shell_echo).
Abbreviation asks := (asks (T := T) (Ob := Inst) says).
Abbreviation quietly := (quietly (T := T) (Ob := Inst) says).
Abbreviation cmd := (Install.cmd (T := T) fuel exc_text download_mode verify_shell_echo).

Lemma quietly_cmd c tmo : flash_write c = false -> quietly (cmd c tmo).
Proof. intros Hc. unfold Install.cmd. apply quietly_bind; [by apply quietly_cmd_result|]. intros ?. apply quietly_ret. Qed.

Lemma quietly_checked e c tmo : flash_write c = false -> quietly (checked_cmd fuel exc_text download_mode verify_shell_echo e c tmo).
Proof. intros Hc. unfold checked_cmd. apply quietly_bind; [by apply quietly_cmd|]. intros ?. quiet_go. Qed.

Lemma quietly_env_value key : quietly (env_value fuel exc_text download_mode verify_shell_echo key).
Proof. unfold env_value, optional_printenv, stop. quiet_go. Qed.

Lemma quietly_set_env key value : quietly (set_env fuel exc_text download_mode verify_shell_echo key value).
Proof.
  unfold set_env, set_uboot_env_verified, set_env_attempt. quiet_go; try (by apply quietly_cmd).
  intros w. exists []. split; [by rewrite app_nil_r|]. exists []. split; [constructor|done].
Qed.

Lemma quietly_unlock : quietly (unlock_nor_or_fail fuel exc_text download_mode verify_shell_echo).
Proof. unfold unlock_nor_or_fail, stop. quiet_go. Qed.

Lemma quietly_network serverip : quietly (network_settings fuel exc_text download_mode verify_shell_echo p ram serverip).
Proof. unfold network_settings. quiet_go; (apply quietly_set_env) || by apply quietly_cmd. Qed.

Lemma quietly_tftp name tmo : quietly (tftp_to_ram fuel exc_text download_mode verify_shell_echo p ram name tmo).
Proof. unfold tftp_to_ram, run_uboot_tftp, uboot_tftp_commands. destruct (stock p); quiet_go. Qed.

Lemma asks_modify (f : Inst -> Inst) : asks (modify f) (fun r tr => r = Ok tt /\ tr = []).
Proof. unfold modify. apply asks_bind, asks_get. intros o. by apply asks_put. Qed.

(** [verify_tftp_ram] ends, when it succeeds on NOR, with the CRC of the RAM
    copy, which is that of the data. *)
Definition crc_ok (data : bytes) (r : res (bool * list Z)) : Prop :=
  exists a, r = Ok (true, a) /\ parse_uboot_crc32 a = Some (Z.land (crc32 data) 0xFFFFFFFF).

Definition ram_verified (data : bytes) (tr : list label) : Prop :=
  exists q r, tr = q ++ [(crc_command ram (len data), r)] /\ quiet q /\ crc_ok data r.

Lemma verify_once_asks name data :
  nand p = false ->
  asks (verify_once fuel exc_text download_mode verify_shell_echo p ram name data) (fun r tr => quiet tr /\
    forall x, r = Ok (Some x) -> ram_verified data tr).
Proof.
  intros Hn. unfold verify_once. rewrite Hn. cbn [andb]. apply asks_bind.
  eapply asks_weaken; [apply quietly_try; [|intros e; apply quietly_ret]; apply quietly_bind; [apply quietly_tftp|intros ?; apply quietly_ret]|].
  intros [[resp|]|e|] tr Htr; [|ask_ret; by split|by split..].
  destruct (match (match re_search TRANSFERRED_RE resp with Some _ => _ | None => _ end) with Some _ => _ | None => _ end);
    [ask_ret; by split|].
  apply asks_bind, asks_get. intros i. apply asks_bind, asks_cmd_result. intros r _.
  assert (Hq : quiet [(crc_command ram (len data), r)]) by reflexivity.
  destruct r as [[ok out]|e|]; [|split; [by apply quiet_app|done]..].
  destruct ok; cbn [negb]; [|ask_ret; split; [by apply quiet_app|done]].
  destruct (parse_uboot_crc32 out) as [c|] eqn:Ep; [|ask_ret; split; [by apply quiet_app|done]].
  destruct (c =? _) eqn:Ec; [|ask_ret; split; [by apply quiet_app|done]].
  unfold modify. apply asks_bind, asks_bind, asks_get. intros o. apply asks_put. ask_ret.
  split; [by apply quiet_app|]. intros x _. exists tr, (Ok (true, out)). split; [done|]. split; [done|]. exists out. split; [done|].
  b2p. by subst c.
Qed.

Lemma verify_asks name data :
  nand p = false ->
  asks (verify_tftp_ram fuel exc_text download_mode verify_shell_echo p ram host_tftp name data) (fun r tr => quiet tr /\
    forall x, r = Ok x -> ram_verified data tr).
Proof.
  intros Hn. unfold verify_tftp_ram. change (range (TFTP_RAM_VERIFY_RETRIES + 1)) with [0; 1].
  assert (Hbody : forall attempt fb tr0, quiet tr0 ->
    asks (verify_body fuel exc_text download_mode verify_shell_echo p ram host_tftp name data attempt fb) (fun r tr => quiet (tr0 ++ tr) /\
      match r with Ok (Rtn x) => ram_verified data (tr0 ++ tr) | Ok (Brk _) => False | _ => True end)).
  { intros attempt fb tr0 Htr0. unfold verify_body. apply asks_bind. eapply asks_weaken; [by apply verify_once_asks|].
    intros [[crc|]|e|] tr [Htr Hv]; [| |by split; [by apply quiet_app|]..].
    - apply asks_bind. assert (Hm : asks (if fb && host_tftp then modify (set_blocksize MAX_BLOCKSIZE) else ret tt) (fun r tr => r = Ok tt /\ tr = [])).
      { destruct (fb && host_tftp); [apply asks_modify|by apply asks_ret]. }
      eapply asks_weaken; [exact Hm|]. intros r tr' [-> ->]. ask_ret. split; [by apply quiet_app|].
      destruct (Hv crc eq_refl) as (q & r & -> & Hq & Hc). exists (tr0 ++ q), r. rewrite <- app_assoc. split; [done|]. split; [by apply quiet_app|done].
    - assert (Hn2 : quiet (tr0 ++ tr)) by (by apply quiet_app).
      destruct (_ <? _); [|apply asks_raise; by nil_r].
      destruct host_tftp; [|by ask_ret].
      apply asks_bind. eapply asks_weaken; [apply asks_modify|]. intros r tr' [-> ->]. by ask_ret. }
  cbn [foreach]. apply asks_bind, asks_bind. eapply asks_weaken; [apply (Hbody 0 false []); done|].
  intros [[s|s|x]|e|] tr [Htr Hv]; cbn [app] in *; try done.
  2: { apply asks_ret. cbn beta iota. ask_ret. split; [done|]. by intros y [= ->]. }
  apply asks_bind. eapply asks_weaken; [by apply (Hbody 1 s tr)|].
  intros [[s'|s'|x]|e|] tr' [Htr' Hv']; try done.
  - apply asks_ret. cbn beta iota. apply asks_raise. by nil_r.
  - apply asks_ret. cbn beta iota. ask_ret. split; [done|]. by intros y [= ->].
Qed.

Lemma asks_cmd c tmo (Q : res (list Z) -> list label -> Prop) :
  (forall a, Q (Ok a) [(c, Ok (true, a))]) -> (forall e, Q (Raise e) [(c, Raise e)]) -> Q Diverge [(c, Diverge)] ->
  asks (cmd c tmo) Q.
Proof.
  intros HO HR HD. unfold Install.cmd. apply asks_bind, asks_cmd_result. intros [[b a]|e|] Hr; [|by auto..].
  pose proof (Hr eq_refl _ eq_refl) as Hb. cbn in Hb. subst b. ask_ret. apply HO.
Qed.

(** The answer of a command that reported no error. *)
Definition good (r : res (bool * list Z)) : Prop := exists a, r = Ok (true, a) /\ uboot_flash_command_error a = None.

Lemma asks_checked e c tmo (Q : res (list Z) -> list label -> Prop) :
  (forall a, uboot_flash_command_error a = None -> Q (Ok a) [(c, Ok (true, a))]) ->
  (forall r e', Q (Raise e') [(c, r)]) -> Q Diverge [(c, Diverge)] ->
  asks (checked_cmd fuel exc_text download_mode verify_shell_echo e c tmo) Q.
Proof.
  intros HO HR HD. unfold checked_cmd. apply asks_bind, asks_cmd; [|by auto..]. intros a.
  destruct (uboot_flash_command_error a) eqn:E; [apply asks_raise; nil_r; apply HR|ask_ret; by apply HO].
Qed.

(** ** Images *)

Record image := Image { im_name : list Z; im_data : bytes; im_off : Z; im_size : Z }.

Definition im_commands (im : image) : list (list Z) :=
  [erase_command p (im_off im) (im_size im); write_command p ram (im_off im) (len (im_data im));
   read_command p ram (im_off im) (len (im_data im)); crc_command ram (len (im_data im))].

(** The commands of an image that was written: its RAM copy was verified
    before the erase, and its flash copy after the write. *)
Definition flashed (im : image) (tr : list label) : Prop :=
  exists v r1 r2 r3 r4, tr = v ++ zip (im_commands im) [r1; r2; r3; r4] /\
    ram_verified (im_data im) v /\ good r1 /\ good r2 /\ good r3 /\ crc_ok (im_data im) r4.

(** What there is of them when the writing did not succeed: nothing is erased
    before the RAM copy was verified, and nothing follows a command that
    failed. *)
Definition flashing (im : image) (tr : list label) : Prop :=
  quiet tr \/ exists v gs r, tr = v ++ zip (im_commands im) (gs ++ [r]) /\ ram_verified (im_data im) v /\ Forall good gs /\ (length gs < 4)%nat.

Lemma tftp_and_flash_asks im :
  nand p = false ->
  asks (tftp_and_flash fuel exc_text download_mode verify_shell_echo p ram host_tftp (im_name im) (im_data im) (im_off im) (im_size im))
    (fun r tr => match r with Ok _ => flashed im tr | _ => flashing im tr end).
Proof.
  intros Hn. unfold tftp_and_flash. rewrite Hn. cbn [negb].
  apply asks_bind. eapply asks_weaken; [by apply verify_asks|].
  intros [x|e|] v [Hq Hv]; [|by left..]. specialize (Hv x eq_refl).
  assert (Hf : forall gs r, Forall good gs -> (length gs < 4)%nat -> flashing im (v ++ zip (im_commands im) (gs ++ [r])))
    by (intros gs r ??; right; by exists v, gs, r).
  assert (Hg : forall a, uboot_flash_command_error a = None -> good (Ok (true, a))) by (intros a Ha; by exists a).
  apply asks_bind, asks_checked; [|intros r e'; apply (Hf [] r); [done|cbn; lia]|apply (Hf [] Diverge); [done|cbn; lia]]. intros a1 H1%Hg.
  apply asks_bind, asks_ret. cbn beta iota. nil_r.
  assert (H1' : Forall good [Ok (true, a1)]) by (by apply Forall_singleton).
  apply asks_bind, asks_checked; [|intros r e'; apply (Hf _ r H1'); cbn; lia|apply (Hf _ Diverge H1'); cbn; lia]. intros a2 H2%Hg.
  assert (H2' : Forall good [Ok (true, a1); Ok (true, a2)]) by (repeat apply Forall_cons_2; done).
  apply asks_bind, asks_checked; [|intros r e'; apply (Hf _ r H2'); cbn; lia|apply (Hf _ Diverge H2'); cbn; lia]. intros a3 H3%Hg.
  assert (H3' : Forall good [Ok (true, a1); Ok (true, a2); Ok (true, a3)]) by (repeat apply Forall_cons_2; done).
  apply asks_bind, asks_cmd; [|intros e'; apply (Hf _ (Raise e') H3'); cbn; lia|apply (Hf _ Diverge H3'); cbn; lia].
  intros a4. assert (Hlast : flashing im (v ++ zip (im_commands im) [Ok (true, a1); Ok (true, a2); Ok (true, a3); Ok (true, a4)])).
  { apply (Hf _ (Ok (true, a4)) H3'). cbn. lia. }
  destruct (parse_uboot_crc32 a4) as [c|] eqn:Ec; [|apply asks_raise; nil_r; exact Hlast].
  destruct (c =? _) eqn:E; cbn [negb]; [|apply asks_raise; nil_r; exact Hlast].
  ask_ret. exists v, (Ok (true, a1)), (Ok (true, a2)), (Ok (true, a3)), (Ok (true, a4)). b2p. subst c.
  split_and!; [done..|by exists a4].
Qed.

(** ** The images of an installation on NOR *)

Definition nor_images : list image :=
  (if has (stages p) "uboot" then [Image NAME_U (p_uboot_data p) (p_b_off p) (p_uboot_flash_size p)] else []) ++
  (if has (stages p) "kernel" && negb (p_ubi_layout p) && negb (p_split p) then [Image NAME_K (kernel_data p) (k_off g) (k_sz g)] else []) ++
  (if has (stages p) "rootfs" then [Image NAME_R (rootfs_data p) (r_off g) (r_sz g)] else []).

(** The writing of [imgs] was cut short at one of them. *)
Definition cut_short (imgs : list image) (tr : list label) : Prop :=
  exists dn im rest ts t, imgs = dn ++ im :: rest /\ Forall2 flashed dn ts /\ flashing im t /\ tr = concat ts ++ t.

Definition writes_images (imgs : list image) (m : MI unit) : Prop :=
  asks m (fun r tr => match r with Ok _ => exists ts, Forall2 flashed imgs ts /\ tr = concat ts | _ => cut_short imgs tr end).

Lemma writes_none : writes_images [] (ret tt).
Proof. apply asks_ret. exists []. by split; [constructor|]. Qed.

Lemma writes_one im (b : bool) :
  nand p = false ->
  writes_images (if b then [im] else []) (when b (tftp_and_flash fuel exc_text download_mode verify_shell_echo p ram host_tftp
    (im_name im) (im_data im) (im_off im) (im_size im))).
Proof.
  intros Hn. destruct b; [|apply writes_none]. eapply asks_weaken; [by apply tftp_and_flash_asks|]. intros [u|e|] tr Htr.
  - exists [tr]. cbn. rewrite app_nil_r. split; [by repeat constructor|done].
  - exists [], im, [], [], tr. split_and!; [done|constructor|done|done].
  - exists [], im, [], [], tr. split_and!; [done|constructor|done|done].
Qed.

(** ** What comes after the images *)

(** [m] gives the flash-changing commands [cs], in this order. *)
Definition in_plan (cs : list (list Z)) {A} (m : MI A) : Prop :=
  asks m (fun r tr => prefix (writes_of tr) cs /\ (forall x, r = Ok x -> writes_of tr = cs)).

Lemma in_plan_quiet {A} (m : MI A) : quietly m -> in_plan [] m.
Proof. intros Hm. eapply asks_weaken; [exact Hm|]. unfold quiet. intros r tr ->. done. Qed.

Lemma in_plan_seq a b {A B} (m : MI A) (f : A -> MI B) :
  in_plan a m -> (forall x, in_plan b (f x)) -> in_plan (a ++ b) (bind m f).
Proof.
  intros Hm Hf. apply asks_bind. eapply asks_weaken; [exact Hm|]. intros [x|e|] tr [Hp Ho]; [|by split; [apply prefix_app_r|]..].
  rewrite <- (Ho x eq_refl). eapply asks_weaken; [apply Hf|]. intros r' tr' [Hp' Ho']. rewrite writes_of_app. split; [by apply prefix_app|].
  intros y Hy. by rewrite (Ho' y Hy).
Qed.

Lemma in_plan_after {A B} cs (m : MI A) (f : A -> MI B) : quietly m -> (forall x, in_plan cs (f x)) -> in_plan cs (bind m f).
Proof. intros Hm Hf. apply (in_plan_seq []); [by apply in_plan_quiet|done]. Qed.

Lemma in_plan_checked e c tmo : flash_write c = true -> in_plan [c] (checked_cmd fuel exc_text download_mode verify_shell_echo e c tmo).
Proof.
  intros Hc. apply asks_checked; intros; by rewrite writes_of_one, Hc.
Qed.

Lemma in_plan_stop {A} cs e : in_plan cs (raise (A := A) e).
Proof. apply asks_raise. split; [apply prefix_nil|done]. Qed.

Lemma in_plan_lift {A B} cs (r : res A) (f : A -> MI B) :
  (forall a, r = Ok a -> in_plan cs (f a)) -> in_plan cs (bind (lift r) f).
Proof.
  intros Hf. apply asks_bind, asks_lift. destruct r as [a|e|]; [by apply Hf|by split; [apply prefix_nil|]..].
Qed.

Definition erase_of (off size : Z) : list Z := codes "sf erase " ++ hex0x off ++ codes " " ++ hex0x size.

Lemma in_plan_erase off size t1 t2 :
  in_plan [erase_of off size] (erase_verified fuel exc_text download_mode verify_shell_echo ram g off size t1 t2).
Proof.
  unfold erase_verified. destruct (_ =? 0); [apply in_plan_stop|]. destruct (_ || _); [apply in_plan_stop|].
  apply (in_plan_seq [_] []); [by apply in_plan_checked|]. intros _. apply in_plan_quiet. apply quietly_bind; [by apply quietly_checked|].
  intros resp. destruct (parse_uboot_crc32 resp); quiet_go.
Qed.

(** The regions erased after the images, and the saving of the environment. *)
Definition nor_rest : list (list Z) :=
  (if negb (p_split p) && (ir_wipe_rootfs_data (p_req p) || (has (stages p) "rootfs-data" && stock p))
   then [erase_of (r_off g + r_sz g) (g_nor_size g * 1024 * 1024 - (r_off g + r_sz g))] else []) ++
  (if has (stages p) "env" then
     (match stock p, env_slot p g with true, Ok (off, size) => [erase_of off size] | _, _ => [] end) ++ [codes "saveenv"]
   else []).

Lemma in_plan_clear :
  in_plan (match env_slot p g with Ok (off, size) => [erase_of off size] | _ => [] end)
    (clear_environment fuel exc_text download_mode verify_shell_echo p ram g random).
Proof.
  unfold clear_environment. apply in_plan_after; [apply quietly_env_value|]. intros eth.
  apply in_plan_after; [apply quietly_get|]. intros i. apply in_plan_after; [apply quietly_lift|]. intros sel.
  destruct (fst sel) as [mac|]; [|apply in_plan_stop].
  apply in_plan_after; [apply quietly_bind; [apply quietly_get|]; intros ?; apply quietly_put|]. intros _.
  apply in_plan_lift. intros [off size] ->.
  apply (in_plan_seq [_] []); [apply in_plan_erase|]. intros _. apply in_plan_quiet.
  apply quietly_bind; [apply quietly_reset|intros _]. apply quietly_bind; [apply quietly_after_reset|intros _].
  apply quietly_bind; [by apply quietly_checked|intros _; apply quietly_unlock].
Qed.

Ltac calm :=
  repeat first [apply quietly_env_value | by apply quietly_checked | by apply quietly_cmd | apply quietly_set_env | apply quietly_unlock
    | progress quiet_go].

Lemma in_plan_boot : in_plan [] (boot_environment fuel exc_text download_mode verify_shell_echo p g).
Proof. apply in_plan_quiet. unfold boot_environment. calm. Qed.

Lemma quietly_verify_saved eth :
  quietly (verify_saved_environment fuel exc_text download_mode verify_shell_echo p ram g eth).
Proof. unfold verify_saved_environment, verify_spi_environment_crc. calm. Qed.

Lemma in_plan_save eth :
  in_plan [codes "saveenv"] (save_environment fuel exc_text download_mode verify_shell_echo p ram g random eth).
Proof.
  unfold save_environment. apply in_plan_after; [apply quietly_env_value|]. intros cur. apply in_plan_after; [apply quietly_get|]. intros i.
  apply in_plan_lift. intros sel _. destruct (fst sel) as [mac|]; [|apply in_plan_stop].
  apply in_plan_after; [calm|]. intros _. apply (in_plan_seq [_] []); [by apply in_plan_checked|]. intros _.
  apply in_plan_quiet. destruct (stock p); [apply quietly_verify_saved|apply quietly_ret].
Qed.

Lemma in_plan_when cs (b : bool) (m : MI unit) : (b = true -> in_plan cs m) -> in_plan (if b then cs else []) (when b m).
Proof. intros Hm. destruct b; [by apply Hm|]. apply in_plan_quiet, quietly_ret. Qed.

Lemma in_plan_rest :
  nand p = false ->
  in_plan nor_rest (
    let* _ := when (negb (nand p) && negb (p_split p) && (ir_wipe_rootfs_data (p_req p) || (has (stages p) "rootfs-data" && stock p)))
                (erase_rootfs_data fuel exc_text download_mode verify_shell_echo ram g) in
    let* _ := when (has (stages p) "env") (env_stage fuel exc_text download_mode verify_shell_echo p ram g random) in
    when (has (stages p) "reset") (reset_command fuel exc_text download_mode verify_shell_echo 3000000)).
Proof.
  intros Hn. unfold nor_rest. rewrite Hn. cbn [negb andb]. apply in_plan_seq.
  { apply in_plan_when. intros _. unfold erase_rootfs_data. destruct (_ <=? 0); [apply in_plan_stop|apply in_plan_erase]. }
  intros _. rewrite <- (app_nil_r (if has (stages p) "env" then _ else _)). apply in_plan_seq.
  - apply in_plan_when. intros _. unfold env_stage. rewrite Hn, andb_true_r. apply in_plan_seq.
    + unfold when. destruct (stock p); [apply in_plan_clear|apply in_plan_quiet, quietly_ret].
    + intros _. apply (in_plan_seq []); [apply in_plan_boot|]. intros eth. apply in_plan_save.
  - intros _. apply in_plan_quiet. unfold when. apply quietly_if; [apply quietly_reset|apply quietly_ret].
Qed.

(** What was done to the flash: the images in turn, each as [flashed] says;
    when all are written, the commands [cs].  It succeeds only if nothing is
    missing. *)
Definition progress_of (imgs : list image) (cs : list (list Z)) (r : res unit) (tr : list label) : Prop :=
  r <> Ok tt /\ cut_short imgs tr \/
  exists ts t, tr = concat ts ++ t /\ Forall2 flashed imgs ts /\ prefix (writes_of t) cs /\ (r = Ok tt -> writes_of t = cs).

Lemma progress_plan cs m : in_plan cs m -> asks m (progress_of [] cs).
Proof.
  intros Hm. eapply asks_weaken; [exact Hm|]. intros r tr [Hp Ho]. right. exists [], tr. split_and!; [done|constructor|done|apply Ho].
Qed.

Lemma progress_seq a b cs (m n : MI unit) :
  writes_images a m -> asks n (progress_of b cs) -> asks (let* _ := m in n) (progress_of (a ++ b) cs).
Proof.
  assert (Hcuta : forall tr, cut_short a tr -> cut_short (a ++ b) tr).
  { intros tr (dn & im & rest & ts & t & -> & Hts & Ht & ->). exists dn, im, (rest ++ b), ts, t. by rewrite <- app_assoc. }
  intros Hm Hn. apply asks_bind. eapply asks_weaken; [exact Hm|].
  intros [u|e|] tr; [|intros Hc; left; split; [done|by apply Hcuta]..].
  intros (ts & Hts & ->). eapply asks_weaken; [exact Hn|].
  intros r tr' [[Hr (dn & im & rest & ts' & t & -> & Hts' & Ht & ->)]|(ts' & t & -> & Hts' & Hp)].
  - left. split; [done|]. exists (a ++ dn), im, rest, (ts ++ ts'), t.
    split_and!; [by rewrite <- app_assoc|by apply Forall2_app|done|by rewrite concat_app, <- app_assoc].
  - right. exists (ts ++ ts'), t. split_and!; [by rewrite concat_app, <- app_assoc|by apply Forall2_app|apply Hp..].
Qed.

Lemma progress_seq_nil a cs (m n : MI unit) :
  writes_images a m -> in_plan cs n -> asks (let* _ := m in n) (progress_of a cs).
Proof. intros Hm Hn. rewrite <- (app_nil_r a). apply progress_seq; [done|by apply progress_plan]. Qed.

(** The same behind commands that leave the flash alone. *)
Definition installed (r : res unit) (tr : list label) : Prop :=
  r <> Ok tt /\ quiet tr \/ exists t0 t1, tr = t0 ++ t1 /\ quiet t0 /\ progress_of nor_images nor_rest r t1.

Lemma progress_error imgs cs e r tr : progress_of imgs cs (Raise e) tr -> r <> Ok tt -> progress_of imgs cs r tr.
Proof. intros [[_ Hc]|(ts & t & -> & Hf & Hp & _)] Hr; [by left|right]. exists ts, t. by split_and!. Qed.

Lemma write_flash_asks serverip :
  nand p = false -> p_ubi_layout p = false ->
  asks (write_flash fuel exc_text download_mode verify_shell_echo p ram g host_tftp replace_in_tftp random serverip) installed.
Proof.
  intros Hn Hu. unfold write_flash. apply asks_try.
  eapply (asks_weaken _ _ installed).
  2: { intros [[]|e|] tr Hi; [done| |done]. destruct (_ || _); [|done]. apply asks_raise. nil_r.
       destruct Hi as [[_ Hq]|(t0 & t1 & -> & Hq & Hp)]; [by left|right]. exists t0, t1. split_and!; [done..|].
       by eapply progress_error. }
  unfold run_stages. apply asks_bind.
  eapply asks_weaken; [apply (quietly_if says (p_needs_tftp p)); [apply quietly_network|apply quietly_ret]|].
  intros [u|e|] t0 Hq0; [|by left..].
  eapply (asks_weaken _ _ (progress_of nor_images nor_rest)); [|intros r tr Hp; right; by exists t0, tr].
  pose proof (writes_one (Image NAME_U (p_uboot_data p) (p_b_off p) (p_uboot_flash_size p)) (has (stages p) "uboot") Hn) as HU.
  pose proof (writes_one (Image NAME_K (kernel_data p) (k_off g) (k_sz g))
    (has (stages p) "kernel" && negb (p_ubi_layout p) && negb (p_split p)) Hn) as HK.
  pose proof (writes_one (Image NAME_R (rootfs_data p) (r_off g) (r_sz g)) (has (stages p) "rootfs") Hn) as HR.
  unfold nor_images. apply progress_seq; [exact HU|]. apply progress_seq; [exact HK|]. apply (progress_seq_nil _ nor_rest).
  - unfold rootfs_stage. rewrite Hu, Hn. exact HR.
  - by apply in_plan_rest.
Qed.
End Stages.

(** ** Plans for NOR *)

(** [im] lies in a chip of [n] bytes, in whole erase blocks. *)
Definition inside (n : Z) (im : image) : Prop :=
  0 <= im_off im /\ len (im_data im) <= im_size im /\ im_off im + im_size im <= n /\
  im_off im mod ERASE_BLOCK = 0 /\ im_size im mod ERASE_BLOCK = 0.

Definition before (a b : image) : Prop := im_off a + im_size a <= im_off b.

Lemma res_bind_ok {A B} (m : res A) (f : A -> res B) b : res_bind m f = Ok b -> exists a, m = Ok a /\ f a = Ok b.
Proof. destruct m as [a| |]; [|done..]. eauto. Qed.

Lemma fail_if_ok c n : fail_if c n = Ok tt -> c = false.
Proof. by destruct c. Qed.

Lemma or_exit_ok {A} n (m : res A) a : or_exit n m = Ok a -> m = Ok a.
Proof. destruct m as [x|e|]; cbn; [done| |done]. by destruct (is_ValueError e). Qed.

Lemma len_ljust n b data : len data <= n -> len (ljust n b data) = n.
Proof. intros Hn. unfold ljust. rewrite len_app, len_brep; lia. Qed.

(** A plan for NOR, as [make_plan] makes it. *)
Record nor_plan (p : Plan) : Prop := {
  np_nand : nand p = false;
  np_ubi : p_ubi_layout p = false;
  np_area : p_boot_area p = STANDARD_NOR_BOOT_AREA \/ p_boot_area p = (0x80000, 0x40000) /\ p_split p = true;
  np_off : p_b_off p = 0;
  np_uboot : len (p_uboot_data p) = fst (p_boot_area p);
  np_size : p_uboot_flash_size p = fst (p_boot_area p) \/ p_uboot_flash_size p = fst (p_boot_area p) + snd (p_boot_area p)
}.

Lemma nor_boot_area_cases c : nor_boot_area c = STANDARD_NOR_BOOT_AREA \/ nor_boot_area c = (0x80000, 0x40000).
Proof.
  unfold nor_boot_area, get_or, assoc. cbn [NOR_BOOT_AREAS List.find fst]. destruct (bool_decide _); cbn; [by right|by left].
Qed.

Lemma make_plan_nor path_exists read_file open_tar load_prof head_url get_url parse_date now r c p c' :
  make_plan path_exists read_file open_tar load_prof head_url get_url parse_date now r c = (Ok p, c') ->
  ir_nand r = false -> nor_plan p /\ p_req p = r.
Proof.
  unfold make_plan. pose proof (nor_boot_area_cases (ir_chip r)) as Ha. revert Ha.
  generalize (nor_boot_area (ir_chip r)) as ba. intros ba Ha E Hn. rewrite Hn in E. cbn [negb andb boot_partition] in E.
  destruct (check_request load_prof r) as [stages|e|]; cbn [res_bind] in E; try done.
  destruct (or_exit 1 _) as [b|e|]; cbn [res_bind] in E; try done.
  destruct (check_split _ _ _ _ _) as [[]|e|] eqn:Ec; cbn [res_bind] in E; try done.
  destruct (uboot_artifact _ _ _ _ _ _ _ _ _) as [art c1] in E. injection E as E <-.
  destruct art as [[name raw]|e|]; cbn [res_bind] in E; try done.
  destruct (or_exit 1 _) as [data|e|] eqn:Ed in E; cbn [res_bind] in E; try done. injection E as <-.
  apply or_exit_ok in Ed. unfold pad_to_size in Ed.
  unfold check_split in Ec. apply res_bind_ok in Ec as ([] & Ef%fail_if_ok & _). rewrite Hn in Ef. cbn [negb andb] in Ef.
  split; [|done]. split; cbn; [exact Hn|done| |done| |].
  - destruct Ha as [-> | ->]; [by left|right]. split; [done|].
    destruct (fb_split b); [done|]. cbn in Ef. by rewrite bool_decide_false in Ef.
  - destruct (_ <? _) eqn:El; [done|]. b2p. injection Ed as <-. by apply len_ljust.
  - match goal with |- (if ?b then _ else _) = _ \/ _ => destruct b end; auto.
Qed.

Lemma split_image_end_len image e : split_image_end image = Ok e -> len image <= e.
Proof.
  unfold split_image_end. destruct (negb _); [done|]. destruct (_ =? 0); [done|]. destruct (_ || _); [done|]. destruct (_ || _); [done|].
  destruct (_ <? _) eqn:E; [done|]. intros [= <-]. b2p. lia.
Qed.

Lemma hex_value_nonneg c : 0 <= default 0 (hex_value c).
Proof.
  unfold hex_value. destruct (is_digit_code c) eqn:E; [unfold is_digit_code in E; b2p; cbn [default from_option id]; lia|].
  destruct ((97 <=? c) && (c <=? 102)) eqn:E1; [b2p; cbn [default from_option id]; lia|].
  destruct ((65 <=? c) && (c <=? 70)) eqn:E2; [b2p; cbn [default from_option id]; lia|]. cbn. lia.
Qed.

Lemma group_dec_nonneg k m : 0 <= group_dec k m.
Proof.
  unfold group_dec, digits_value. generalize (default [] (group k m)) as l. intros l.
  induction l as [|c l IH] using rev_ind; [done|]. rewrite foldl_app. cbn. pose proof (hex_value_nonneg c). lia.
Qed.

Lemma chip_gap n c : c mod ERASE_BLOCK = 0 -> (n * 2 ^ 20 - c) mod ERASE_BLOCK = 0.
Proof. unfold ERASE_BLOCK. change (2 ^ 20) with 1048576. intros. Z.to_euclidean_division_equations. lia. Qed.

(** The slots of the layout, as far as the boot area [b] gives them. *)
Lemma nor_slots n b k r :
  slot (nor_layout n b) "kernel" = Ok k -> slot (nor_layout n b) "rootfs" = Ok r ->
  b = STANDARD_NOR_BOOT_AREA /\ slot (nor_layout n b) "env" = Ok (0x40000, 0x10000) /\ fst k = 0x50000 /\ fst r = fst k + snd k /\
    snd k mod ERASE_BLOCK = 0 /\ snd r mod ERASE_BLOCK = 0 /\ 0 <= snd k /\ (8 <= n -> fst r + snd r <= n * 2 ^ 20) \/
  slot (nor_layout n b) "env" = Ok b /\ fst k = fst b + snd b /\ b <> STANDARD_NOR_BOOT_AREA.
Proof.
  intros Hk Hr. revert Hk Hr. unfold nor_layout. destruct (decide (b = STANDARD_NOR_BOOT_AREA)) as [->|Hb].
  - rewrite bool_decide_true by done. cbn [negb]. intros Hk Hr. left. split; [done|].
    revert Hk Hr. destruct (32 <=? n) eqn:E32; [|destruct (16 <=? n) eqn:E16];
      (intros [= <-] [= <-]; b2p; split_and!; try done; cbn [fst snd]; lia).
  - rewrite bool_decide_false by done. cbn [negb]. destruct b as [boot env]. intros [= <-] [= <-]. right. by split_and!.
Qed.

(** A geometry in which everything has room. *)
Lemma images_placed p g n :
  nor_plan p ->
  fst (p_boot_area p) + snd (p_boot_area p) <= k_off g -> k_off g <= r_off g -> r_off g + r_sz g <= n ->
  len (rootfs_data p) <= r_sz g -> r_off g mod ERASE_BLOCK = 0 -> r_sz g mod ERASE_BLOCK = 0 ->
  (p_split p = false -> len (kernel_data p) <= k_sz g /\ k_off g + k_sz g <= r_off g /\
    k_off g mod ERASE_BLOCK = 0 /\ k_sz g mod ERASE_BLOCK = 0) ->
  Forall (inside n) (nor_images p g) /\ StronglySorted before (nor_images p g).
Proof.
  intros [Hn Hu Ha Ho Hl Hs] Hk0 Hkr Hr Hrl Hr0 Hr1 Hk.
  assert (HU : inside n (Image NAME_U (p_uboot_data p) (p_b_off p) (p_uboot_flash_size p)) /\ p_uboot_flash_size p <= k_off g).
  { pose proof (len_nonneg (rootfs_data p)). unfold inside. cbn [im_off im_data im_size]. rewrite Ho, Hl.
    destruct Ha as [Ha|[Ha _]]; rewrite Ha in *; cbn [fst snd STANDARD_NOR_BOOT_AREA] in *; 
      (destruct Hs as [Hs|Hs]; rewrite Hs; split_and!; try done; lia). }
  assert (HR : inside n (Image NAME_R (rootfs_data p) (r_off g) (r_sz g)) /\ 0 <= k_off g).
  { destruct HU as [(H1 & H2 & H3 & _) H4]. pose proof (len_nonneg (p_uboot_data p)). cbn [im_off im_data im_size] in *.
    unfold inside. cbn [im_off im_data im_size]. split_and!; try done; lia. }
  assert (HK : p_split p = false -> inside n (Image NAME_K (kernel_data p) (k_off g) (k_sz g)) /\ k_off g + k_sz g <= r_off g).
  { intros Hsp. destruct (Hk Hsp) as (H1 & H2 & H3 & H4). pose proof (len_nonneg (rootfs_data p)).
    unfold inside. cbn [im_off im_data im_size]. split_and!; try done; try lia. }
  destruct HU as [HU HU'], HR as [HR _]. unfold nor_images.
  destruct (has (stages p) "uboot"), (has (stages p) "rootfs"), (has (stages p) "kernel" && negb (p_ubi_layout p) && negb (p_split p)) eqn:Eb;
    try (apply andb_true_iff in Eb as [_ Eb%negb_true_iff]; destruct (HK Eb) as [HK1 HK2]); cbn [app];
    (split; [repeat (apply Forall_cons_2; [done|]); apply Forall_nil_2|
      repeat first [apply SSorted_nil | apply SSorted_cons | apply Forall_cons_2 | apply Forall_nil_2]; unfold before; cbn [im_off im_size]; lia]).
Qed.

Section Device.
Context {T : Type} `{Transport T}.
Variable fuel : nat.
Variable exc_text : exn -> list Z.
Variables (download_mode verify_shell_echo : bool).
Variable p : Plan.
Hypothesis Hp : nor_plan p.
Variable ram : Z.

(** The images lie in the chip, in whole erase blocks and one behind the
    other; what is erased behind them begins where the last one ends. *)
Definition placed (g : geometry) : Prop :=
  p_split p = true \/ 8 <= g_nor_size g ->
  let n := g_nor_size g * 2 ^ 20 in
  (Forall (inside n) (nor_images p g) /\ StronglySorted before (nor_images p g)) /\ r_off g + r_sz g <= n /\
  env_slot p g = Ok (fst (p_boot_area p), snd (p_boot_area p)) /\ fst (p_boot_area p) + snd (p_boot_area p) <= k_off g.

Lemma check_nor_fit_ok nor_size block k r :
  yields (check_nor_fit (T := T) p nor_size block k r) (fun _ =>
    if p_split p then len (rootfs_data p) + fst k + block <= nor_size * 1024 * 1024
    else len (kernel_data p) <= snd k /\ len (rootfs_data p) <= snd r).
Proof.
  unfold check_nor_fit. destruct (p_split p).
  - eapply (yields_after _ _ (fun e => len (rootfs_data p) <= e)).
    + intros w e w'. unfold lift. intros [= E _]. by apply split_image_end_len.
    + intros e He. destruct (_ <? _) eqn:E; [apply yields_raise|apply yields_ret]. b2p. lia.
  - destruct (snd k <? _) eqn:E1; [apply yields_raise|]. destruct (snd r <? _) eqn:E2; [apply yields_raise|apply yields_ret]. b2p. lia.
Qed.

Lemma probe_nor_placed : yields (probe_nor (T := T) fuel exc_text download_mode verify_shell_echo p ram) placed.
Proof.
  unfold probe_nor. apply yields_bind. intros resp. destruct (uboot_flash_command_error resp); [apply yields_raise|].
  apply yields_bind. intros det.
  set (block := match re_search BLOCK_RE resp with Some m => _ | None => _ end).
  assert (Hb : 0 <= block) by (unfold block; destruct (re_search BLOCK_RE resp) as [m|]; [pose proof (group_dec_nonneg 1 m)|]; lia).
  apply yields_bind. intros [n src]. 
  eapply (yields_after _ _ (fun k => slot (nor_layout n (p_boot_area p)) "kernel" = Ok k)); [by intros w a w' [= E _]|]. intros k Hk.
  eapply (yields_after _ _ (fun k => slot (nor_layout n (p_boot_area p)) "rootfs" = Ok k)); [by intros w a w' [= E _]|]. intros r Hr.
  eapply yields_after; [apply check_nor_fit_ok|]. intros [] Hfit. apply yields_bind. intros [].
  apply yields_ret. unfold placed. destruct Hp as [Hn Hu Ha Ho Hl Hs].
  assert (Hpow : n * 1024 * 1024 = n * 2 ^ 20) by lia. rewrite Hpow in *.
  destruct (nor_slots n (p_boot_area p) k r Hk Hr) as [(Hb1 & He & Hk0 & Hr0 & Hk1 & Hr1 & Hk2 & Hend)|(He & Hk0 & Hstd)].
  - assert (Hsum : fst (p_boot_area p) + snd (p_boot_area p) = fst k) by (rewrite Hb1, Hk0; done).
    destruct (p_split p) eqn:Es; cbn [g_nor_size r_off r_sz k_off k_sz]; intros H8.
    + assert (Hgap : (n * 2 ^ 20 - fst k) mod ERASE_BLOCK = 0).
      { apply chip_gap. by rewrite Hk0. }
      split; [apply images_placed; cbn [k_off k_sz r_off r_sz]; [done|lia|lia|lia|lia|by rewrite Hk0|exact Hgap|by rewrite Es]|].
      split; [lia|]. split; [|lia]. unfold env_slot. cbn [g_nor_size]. by rewrite He, Hb1.
    + destruct H8 as [?|H8]; [done|]. specialize (Hend H8).
      assert (Hro : fst r mod ERASE_BLOCK = 0) by (rewrite Hr0, Hk0, Z.add_mod, Hk1; done).
      split; [apply images_placed; cbn [k_off k_sz r_off r_sz]; [done|lia|lia|lia|lia|exact Hro|exact Hr1|]|].
      { intros _. split_and!; [lia|lia|by rewrite Hk0|exact Hk1]. }
      split; [lia|]. split; [|lia]. unfold env_slot. cbn [g_nor_size]. by rewrite He, Hb1.
  - destruct Ha as [Ha|[Ha Es]]; [done|]. rewrite Es in *. cbn [g_nor_size r_off r_sz k_off k_sz]. intros _.
    assert (Hk1 : fst k = 0xC0000) by (rewrite Hk0, Ha; done).
    assert (Hgap : (n * 2 ^ 20 - fst k) mod ERASE_BLOCK = 0) by (apply chip_gap; by rewrite Hk1).
    split; [apply images_placed; cbn [k_off k_sz r_off r_sz]; [done|lia|lia|lia|lia|by rewrite Hk1|exact Hgap|by rewrite Es]|].
    split; [lia|]. split; [|lia]. unfold env_slot. cbn [g_nor_size]. rewrite He. by destruct (p_boot_area p).
Qed.

Lemma quietly_check_fit nor_size block k r :
  quietly (T := T) (Ob := Inst) (says (T := T) fuel exc_text download_mode verify_shell_echo) (check_nor_fit p nor_size block k r).
Proof. unfold check_nor_fit, stop. quiet_go. Qed.

Lemma quietly_probe : quietly (T := T) (Ob := Inst) (says (T := T) fuel exc_text download_mode verify_shell_echo) (probe_flash (T := T) fuel exc_text download_mode verify_shell_echo p ram).
Proof.
  unfold probe_flash. rewrite (np_nand p Hp). unfold probe_nor, candidate_body, stop.
  repeat first [by apply quietly_cmd | apply quietly_check_fit | apply quietly_unlock | progress quiet_go].
Qed.

Lemma asks_probe :
  asks (T := T) (Ob := Inst) (says (T := T) fuel exc_text download_mode verify_shell_echo) (probe_flash (T := T) fuel exc_text download_mode verify_shell_echo p ram)
    (fun r tr => quiet tr /\ forall g, r = Ok g -> placed g).
Proof.
  intros w. destruct (quietly_probe w) as (l & Hl & tr & Hc & Hq). exists l. split; [done|]. exists tr. split; [done|]. split; [done|].
  intros g Hg. unfold probe_flash in Hg. rewrite (np_nand p Hp) in Hg.
  destruct (probe_nor fuel exc_text download_mode verify_shell_echo p ram w) as [r w'] eqn:E. cbn in Hg. subst r. by eapply probe_nor_placed.
Qed.

Lemma quietly_set_all_env env : quietly (T := T) (Ob := Inst) (says (T := T) fuel exc_text download_mode verify_shell_echo)
  (set_all_env fuel exc_text download_mode verify_shell_echo env).
Proof.
  unfold set_all_env, set_env_verified_or_fail, stop. repeat first [apply quietly_set_env | progress quiet_go].
Qed.

End Device.

(** ** The installation, from the started U-Boot on *)

Section Whole.
Context {T : Type} `{Transport T}.
Variable fuel : nat.
Variable exc_text : exn -> list Z.
Variable load_prof : string -> res SoCProfile.
Variable random : bytes.
Variable psram_can_fit : Z -> bool.
Variable tftp_put : list Z -> bytes -> res unit.
Variable interfaces : list string.
Variable start_server : string -> res unit.

Lemma quietly_serve dm echo p host : quietly (T := T) (Ob := Inst) (says (T := T) fuel exc_text dm echo) (serve tftp_put interfaces start_server p host).
Proof. unfold serve, modify, stop. quiet_go. Qed.

Lemma detect_mode_waits : sends (T := T) (Ob := Inst) (eq [3]) (detect_mode fuel).
Proof. unfold detect_mode, detect_body, interrupts. sends_go. Qed.

(** The outcome of an installation whose commands were given in mode [dm]. *)
Definition device_outcome (p : Plan) (r : res unit) (tr : list label) : Prop :=
  r <> Ok tt /\ quiet tr \/
  exists g t0 t1, placed p g /\ tr = t0 ++ t1 /\ quiet t0 /\ installed p (ram_addr p load_prof) g r t1.

Lemma device_outcome_quiet p r t tr : quiet t -> device_outcome p r tr -> device_outcome p r (t ++ tr).
Proof.
  intros Ht [[Hr Hq]|(g & t0 & t1 & Hg & -> & Hq & Hi)]; [left; split; [done|by apply quiet_app]|right].
  exists g, (t ++ t0), t1. split_and!; [done|by rewrite <- app_assoc|by apply quiet_app|done].
Qed.

Lemma device_after {A} dm echo p (m : M T Inst A) (f : A -> M T Inst unit) :
  quietly (T := T) (Ob := Inst) (says (T := T) fuel exc_text dm echo) m -> (forall a, asks (T := T) (Ob := Inst) (says (T := T) fuel exc_text dm echo) (f a) (device_outcome p)) ->
  asks (T := T) (Ob := Inst) (says (T := T) fuel exc_text dm echo) (bind m f) (device_outcome p).
Proof.
  intros Hm Hf. apply asks_bind. eapply asks_weaken; [exact Hm|]. intros [a|e|] tr Htr; [|by left..].
  eapply asks_weaken; [apply Hf|]. intros r tr'. by apply device_outcome_quiet.
Qed.

Lemma flash_device_asks p kind echo w :
  nor_plan p ->
  let r := flash_device fuel exc_text load_prof random psram_can_fit tftp_put interfaces start_server p kind echo w in
  exists dm tr l, log (snd r) = log w ++ l /\ commands (says (T := T) fuel exc_text dm echo) tr l /\ device_outcome p (fst r) tr.
Proof.
  intros Hp. cbn zeta. destruct (flash_device _ _ _ _ _ _ _ _ _ _ _ w) as [r0 w'] eqn:E. cbn [fst snd]. revert E.
  unfold flash_device, bind at 1. destruct (detect_mode_waits w) as (l0 & Hl0 & Hw).
  destruct (detect_mode fuel w) as [[dm|e|] w0]; cbn [fst snd] in *.
  2,3: intros [= <- <-]; exists false, [], l0; (split; [done|]; split; [rewrite <- (app_nil_r l0); apply commands_wait; [done|constructor]|by left]).
  match goal with |- ?m w0 = _ -> _ => assert (Hm : asks (T := T) (Ob := Inst) (says (T := T) fuel exc_text dm echo) m (device_outcome p)) end.
  - destruct (stock p && dm); [apply asks_raise; by left|]. apply device_after; [apply quietly_get|]. intros i.
    apply device_after; [apply quietly_set_all_env|]. intros [].
    apply device_after; [destruct (p_stock p); [apply quietly_if; [apply quietly_set_all_env|]|]; apply quietly_ret|]. intros [].
    apply asks_bind. eapply asks_weaken; [by apply asks_probe|]. intros [g|e|] tr [Hq Hg]; [|by left..].
    apply (asks_weaken _ _ (fun r tr' => r <> Ok tt /\ quiet tr' \/
      exists t0 t1, tr' = t0 ++ t1 /\ quiet t0 /\ installed p (ram_addr p load_prof) g r t1)).
    2: { intros r tr' [Hr|(t0 & t1 & -> & Hq0 & Hi)]; apply device_outcome_quiet; [done|by left|done|right].
         exists g, t0, t1. split_and!; [by apply Hg|done..]. }
    apply asks_bind. eapply asks_weaken; [apply quietly_lift|]. intros [host|e|] t0 Hq0; [|by left..].
    apply asks_bind. eapply asks_weaken; [apply quietly_serve|]. intros [ip|e|] t1 Hq1; [|by left; split; [|apply quiet_app]..].
    eapply asks_weaken; [apply write_flash_asks; apply Hp|]. intros r t2 Hi. right. exists (t0 ++ t1), t2.
    rewrite app_assoc. split_and!; [done|by apply quiet_app|done].
  - destruct (Hm w0) as (l & Hl & tr & Hc & HQ). intros E. rewrite E in *. cbn [fst snd] in *. exists dm, tr, (l0 ++ l). split; [by rewrite Hl, Hl0, <- app_assoc|].
    split; [by apply commands_wait|done].
Qed.
End Whole.

(** C7. An installation on NOR, whatever the U-Boot, the servers and the files
    answer, is safe: the flash is only changed by the images of the plan, in
    their order, and then by the erasures and the [saveenv] the plan names.
    No partition is erased before its image is in RAM with the CRC-32 of the
    file, nothing is written after a command that failed, the next image is
    begun only when the flash holds the last with its CRC-32, and success is
    only reported when nothing of the plan is missing.  On a chip of 8 MiB or
    more (of any size for a split image) every image has room in its
    partition, and the partitions lie in the chip, in whole erase blocks, one
    behind the other. *)
Theorem nor_install_safe {T} `{Transport T} path_exists read_file open_tar load_prof head_url get_url parse_date now r c p c'
    fuel exc_text random psram_can_fit tftp_put interfaces start_server kind echo (w : world T Inst) :
  make_plan path_exists read_file open_tar load_prof head_url get_url parse_date now r c = (Ok p, c') ->
  ir_nand r = false ->
  let run := flash_device fuel exc_text load_prof random psram_can_fit tftp_put interfaces start_server p kind echo w in
  exists download_mode tr l,
    log (snd run) = log w ++ l /\ commands (says (T := T) fuel exc_text download_mode echo) tr l /\
    device_outcome load_prof p (fst run) tr.
Proof.
  intros Hm Hn. destruct (make_plan_nor _ _ _ _ _ _ _ _ _ _ _ _ Hm Hn) as [Hp _]. cbn zeta. by apply flash_device_asks.
Qed.

(** A NOR of less than 8 MiB is given the layout of one of 8 MiB: the slot of
    the root file system ends behind it. *)
Lemma small_nor_overflows n :
  0 <= n < 8 -> exists k r, slot (nor_layout n STANDARD_NOR_BOOT_AREA) "kernel" = Ok k /\
    slot (nor_layout n STANDARD_NOR_BOOT_AREA) "rootfs" = Ok r /\ n * 2 ^ 20 < fst r + snd r /\
    (n = 4 -> fst r < n * 2 ^ 20).
Proof.
  intros Hn. exists (0x50000, 0x200000), (0x250000, 0x500000). unfold nor_layout. rewrite bool_decide_true by done. cbn [negb].
  replace (32 <=? n) with false by (symmetry; lia). replace (16 <=? n) with false by (symmetry; lia). split_and!; try done; cbn; lia.
Qed.

Definition demo_request : InstallRequest :=
  mkRequest "hi3516ev300" "firmware.tgz" "u-boot.bin" "/dev/ttyUSB0" false "" "" "192.168.1.10" "192.168.1.20" 69 0 false false false
    true [] [] "auto" "human" false.

Definition demo_members : list member := [
  Member true (codes "uImage.hi3516ev300") [1; 2; 3]; Member true (codes "rootfs.squashfs.hi3516ev300") [4; 5]].

Definition demo_uart : string -> res SoCProfile := fun _ => Raise FileNotFoundError.

Definition demo_plan : Plan :=
  mkPlan demo_request ["uboot"; "kernel"; "rootfs"; "rootfs-data"; "env"; "reset"] None false STANDARD_NOR_BOOT_AREA true false
    (Bundle (codes "uImage.hi3516ev300") [1; 2; 3] (codes "rootfs.squashfs.hi3516ev300") [4; 5] false)
    "u-boot.bin" [9; 9; 9] (ljust 0x40000 0xFF [9; 9; 9]) 0 0x40000 true.

Lemma demo_plan_made c :
  make_plan (fun _ => true) (fun _ => Ok [9; 9; 9]) (fun _ => Ok demo_members) demo_uart (fun _ => None) (fun _ => None) (fun _ => None) 0
    demo_request c = (Ok demo_plan, c).
Proof. reflexivity. Qed.

Abbreviation demo_install w := (flash_device (T := MockTransport) 1000 (fun _ => []) demo_uart [] (fun _ => true) (fun _ _ => Ok tt)
  ["eth0"%string] (fun _ => Ok tt) demo_plan None false w).

Theorem nor_install_safe_witness :
  let w := World (Mock (codes "hisilicon # ") [] false false 0) (mkInst None [] [] MAX_BLOCKSIZE) [] in
  exists download_mode tr l,
    log (snd (demo_install w)) = log w ++ l /\ commands (says (T := MockTransport) 1000 (fun _ => []) download_mode false) tr l /\
    device_outcome demo_uart demo_plan (fst (demo_install w)) tr.
Proof.
  intros w. refine (nor_install_safe (fun _ => true) (fun _ => Ok [9; 9; 9]) (fun _ => Ok demo_members) demo_uart (fun _ => None)
    (fun _ => None) (fun _ => None) 0 demo_request (Cache ∅ ∅) demo_plan (Cache ∅ ∅) 1000 (fun _ => []) [] (fun _ => true)
    (fun _ _ => Ok tt) ["eth0"]%string (fun _ => Ok tt) None false w (demo_plan_made _) _). reflexivity.
Defined.
