(* ===== verification/Ticks.v ===== *)
(** * Transports on which time passes

  The class [Ticking] of transports whose clock goes on, and a logic for the
  code that waits for a device until a deadline: [ends m] says that [m] comes
  to an end from every state, whatever the device does.  The transformer
  [Paced] makes a ticking transport of any with a clock that never goes
  back. *)

From S2P Require Import Prelude Transport.

(** ** The clock *)

(** What the next reading of the clock gives. *)
Definition now {T} `{Transport T} (t : T) : Z := fst (t_monotonic t).

(** The clock never goes back, and a reading is later than the one before:
    [time.monotonic()] with the microsecond the code between two readings
    takes. *)
Class Ticking (T : Type) `{TransportLaws T} := {
  tick_monotonic t : now t + 1 <= now (snd (t_monotonic t));
  tick_read n tmo t : now t <= now (snd (t_read n tmo t));
  tick_write d t : now t <= now (snd (t_write d t));
  tick_flush_input t : now t <= now (snd (t_flush_input t));
  tick_flush_output t : now t <= now (snd (t_flush_output t));
  tick_bytes_waiting t : now t <= now (snd (t_bytes_waiting t));
  tick_unread d t : now t <= now (snd (t_unread d t));
  tick_set_baudrate b t : now t <= now (snd (t_set_baudrate b t));
  tick_sleep d t : now t <= now (t_sleep d t)
}.

(** A transport on which every reading of the clock takes a microsecond. *)
Record Paced (T : Type) := Pace { inner : T; lag : Z }.
Arguments Pace {T} _ _.
Arguments inner {T} _.
Arguments lag {T} _.

Definition paced {T A} (f : T -> A * T) (p : Paced T) : A * Paced T :=
  let (r, t) := f (inner p) in (r, Pace t (lag p)).

#[export] Instance Paced_Transport {T} `{Transport T} : Transport (Paced T) := {|
  t_read n tmo := paced (t_read n tmo);
  t_write d := paced (t_write d);
  t_flush_input := paced t_flush_input;
  t_flush_output := paced t_flush_output;
  t_bytes_waiting := paced t_bytes_waiting;
  t_unread d := paced (t_unread d);
  t_set_baudrate b := paced (t_set_baudrate b);
  t_monotonic p := (now (inner p) + lag p, Pace (inner p) (lag p + 1));
  t_sleep d p := Pace (t_sleep d (inner p)) (lag p)
|}.

#[export] Instance Paced_Laws {T} `{TransportLaws T} : TransportLaws (Paced T).
Proof.
  split; intros *; cbn; unfold paced.
  - destruct (t_read n tmo (inner t)) as [r x] eqn:E. intros [= -> _]. by eapply t_read_ok.
  - pose proof (t_read_ret n tmo (inner t)). by destruct (t_read _ _ _).
  - pose proof (t_write_ret d (inner t)). by destruct (t_write _ _).
  - pose proof (t_flush_input_ret (inner t)). by destruct (t_flush_input _).
  - pose proof (t_flush_output_ret (inner t)). by destruct (t_flush_output _).
  - pose proof (t_bytes_waiting_ret (inner t)). by destruct (t_bytes_waiting _).
  - pose proof (t_unread_ret d (inner t)). by destruct (t_unread _ _).
  - pose proof (t_set_baudrate_ret b (inner t)). by destruct (t_set_baudrate _ _).
Qed.

#[export] Instance Paced_Ticking : Ticking (Paced MockTransport).
Proof.
  split; intros *; unfold now; cbn; unfold paced; cbn; try lia.
  - unfold Mock_read. destruct (m_closed _); [cbn; lia|]. destruct (beq _ []); [|cbn; lia].
    destruct tmo as [x|]; [|cbn; lia]. destruct (x <=? 0); cbn; lia.
  - unfold Mock_write. destruct (m_closed _); cbn; lia.
  - destruct (flush_clears _); cbn; lia.
Qed.

(** ** The logic *)

Section Ends.
Context {T Ob : Type} `{Ticking T}.

(** [m] comes to an end, and the clock has not gone back. *)
Definition ends {A} (m : M T Ob A) : Prop :=
  forall w, fst (m w) <> Diverge /\ now (tr w) <= now (tr (snd (m w))).

Lemma ends_bind {A B} (m : M T Ob A) (f : A -> M T Ob B) : ends m -> (forall a, ends (f a)) -> ends (bind m f).
Proof.
  intros Hm Hf w. destruct (Hm w) as [Ha1 Ha2]. unfold bind. destruct (m w) as [[a|e|] w']; cbn in *; [|done..].
  destruct (Hf a w'). split; [done|lia].
Qed.

Lemma ends_after {A B} (m : M T Ob A) (f : A -> M T Ob B) (P : A -> Prop) :
  ends m -> yields m P -> (forall a, P a -> ends (f a)) -> ends (bind m f).
Proof.
  intros Hm Hy Hf w. destruct (Hm w) as [Ha1 Ha2]. unfold bind. destruct (m w) as [[a|e|] w'] eqn:E; cbn in *; [|done..].
  destruct (Hf a (Hy _ _ _ E) w'). split; [done|lia].
Qed.

Lemma ends_ret_bind {A B} (a : A) (f : A -> M T Ob B) : ends (f a) -> ends (bind (ret a) f).
Proof. done. Qed.

Lemma ends_try {A} (m : M T Ob A) p h : ends m -> (forall e, ends (h e)) -> ends (try_except m p h).
Proof.
  intros Hm Hh w. destruct (Hm w) as [Ha1 Ha2]. unfold try_except. destruct (m w) as [[a|e|] w']; cbn in *; [done| |done].
  destruct (p e); [|done]. destruct (Hh e w'). split; [done|lia].
Qed.

Lemma ends_ret {A} (a : A) : ends (ret a).
Proof. intros w. split; [done|cbn; lia]. Qed.
Lemma ends_raise {A} e : ends (raise (A := A) e).
Proof. intros w. split; [done|cbn; lia]. Qed.
Lemma ends_lift {A} (r : res A) : r <> Diverge -> ends (lift r).
Proof. intros Hr w. split; [done|cbn; lia]. Qed.
Lemma ends_get_obj : ends get_obj.
Proof. intros w. split; [done|cbn; lia]. Qed.
Lemma ends_put_obj o : ends (put_obj o).
Proof. intros w. split; [done|cbn; lia]. Qed.

Lemma ends_read n tmo : ends (read n tmo).
Proof. intros w. unfold read. pose proof (t_read_ret n tmo (tr w)). pose proof (tick_read n tmo (tr w)). by destruct (t_read _ _ _). Qed.
Lemma ends_write d : ends (write d).
Proof. intros w. unfold write. pose proof (t_write_ret d (tr w)). pose proof (tick_write d (tr w)). by destruct (t_write _ _). Qed.
Lemma ends_flush_input : ends flush_input.
Proof. intros w. unfold flush_input. pose proof (t_flush_input_ret (tr w)). pose proof (tick_flush_input (tr w)). by destruct (t_flush_input _). Qed.
Lemma ends_flush_output : ends flush_output.
Proof. intros w. unfold flush_output. pose proof (t_flush_output_ret (tr w)). pose proof (tick_flush_output (tr w)). by destruct (t_flush_output _). Qed.
Lemma ends_bytes_waiting : ends bytes_waiting.
Proof. intros w. unfold bytes_waiting. pose proof (t_bytes_waiting_ret (tr w)). pose proof (tick_bytes_waiting (tr w)). by destruct (t_bytes_waiting _). Qed.
Lemma ends_monotonic : ends monotonic.
Proof. intros w. unfold monotonic. pose proof (tick_monotonic (tr w)). destruct (t_monotonic _) eqn:E. cbn in *. split; [done|lia]. Qed.
Lemma ends_sleep d : ends (sleep d).
Proof. intros w. split; [done|]. apply tick_sleep. Qed.

Lemma ends_foreach {S R X} (xs : list X) (body : X -> S -> M T Ob (ctl S R)) s :
  (forall x s, x ∈ xs -> ends (body x s)) -> ends (foreach xs body s).
Proof.
  revert s. induction xs as [|x xs IH]; intros s Hb; [apply ends_ret|].
  apply ends_bind; [apply Hb; left|]. intros [s'|s'|r]; [|apply ends_ret..]. apply IH. intros y t Hy. apply Hb. by right.
Qed.

(** *** Loops with a deadline *)

(** A turn ends, and another is only begun before [D] and not at once. *)
Definition turn {S R} (D : Z) (m : M T Ob (ctl S R)) : Prop :=
  ends m /\ forall w s' w', m w = (Ok (Next s'), w') -> now (tr w) < D /\ now (tr w) < now (tr w').

Definition until {S R} (D : Z) (body : S -> M T Ob (ctl S R)) : Prop := forall s, turn D (body s).

Lemma turn_intro {S R} D (c : Z -> bool) (stop : Z -> M T Ob (ctl S R)) (go : Z -> M T Ob (ctl S R)) :
  (forall n, c n = true -> n < D) -> (forall n, ends (stop n)) ->
  (forall n w s' w', stop n w <> (Ok (Next s'), w')) -> (forall n, ends (go n)) ->
  turn D (let* n := monotonic in if negb (c n) then stop n else go n).
Proof.
  intros Hc Hs Hstop Hgo. split.
  { apply ends_bind; [apply ends_monotonic|]. intros n. destruct (negb _); auto. }
  intros w s' w'. unfold bind, monotonic. pose proof (tick_monotonic (tr w)) as Ht.
  assert (Hnow : now (tr w) = fst (t_monotonic (tr w))) by done. rewrite Hnow in *.
  destruct (t_monotonic (tr w)) as [n t'] eqn:E. cbn [fst snd] in *.
  destruct (c n) eqn:Ec; cbn [negb]; [|intros Hs'; by apply Hstop in Hs'].
  intros Hg. apply Hc in Ec. split; [done|]. destruct (Hgo n (World t' (obj w) (log w))) as [_ Ha1]. rewrite Hg in Ha1. cbn in Ha1. lia.
Qed.

Lemma ends_until {S R} D fuel (body : S -> M T Ob (ctl S R)) s w :
  until D body -> (Z.to_nat (D - now (tr w)) < fuel)%nat ->
  fst (while fuel body s w) <> Diverge /\ now (tr w) <= now (tr (snd (while fuel body s w))).
Proof.
  intros Hb. revert s w. induction fuel as [|fuel IH]; intros s w Hf; [lia|]. cbn [while]. unfold bind.
  destruct (Hb s) as [He Hn]. destruct (He w) as [Ha1 Ha2]. destruct (body s w) as [[[s'|s'|r]|e|] w'] eqn:E; cbn in *; try done.
  destruct (Hn w s' w' E) as [Ha3 Ha4]. destruct (IH s' w' ltac:(lia)). split; [done|lia].
Qed.

(** A loop that runs for at most [d] from the reading of the clock in front
    of it. *)
Lemma ends_timed {S R B} (d : Z) fuel (body : Z -> S -> M T Ob (ctl S R)) s (k : ctl S R -> M T Ob B) :
  (forall start, until (start + d) (body start)) -> (Z.to_nat d < fuel)%nat -> (forall c, ends (k c)) ->
  ends (let* start := monotonic in let* c := while fuel (body start) s in k c).
Proof.
  intros Hb Hf Hk w. pose proof (tick_monotonic (tr w)) as Ht.
  assert (Hnow : now (tr w) = fst (t_monotonic (tr w))) by done. rewrite Hnow in *.
  destruct (t_monotonic (tr w)) as [start t'] eqn:E. cbn [fst snd] in *. set (w1 := World t' (obj w) (log w)).
  assert (Er : (let* start := monotonic in let* c := while fuel (body start) s in k c) w = (let* c := while fuel (body start) s in k c) w1).
  { unfold bind at 1, monotonic. by rewrite E. }
  rewrite Er. destruct (ends_until (start + d) fuel (body start) s w1 (Hb start)) as [Ha1 Ha2]; [cbn; lia|].
  change (tr w1) with t' in *. unfold bind. destruct (while fuel (body start) s w1) as [[c|e|] w2]; cbn in *; [|split; [done|lia]|done].
  destruct (Hk c w2). split; [done|lia].
Qed.

(** A loop whose turns lower a measure. *)
Lemma ends_measure {S R} (mu : S -> Z) fuel (body : S -> M T Ob (ctl S R)) s :
  (forall s, ends (body s)) ->
  (forall s w s' w', body s w = (Ok (Next s'), w') -> 0 < mu s /\ mu s' < mu s) ->
  (Z.to_nat (mu s) < fuel)%nat -> ends (while fuel body s).
Proof.
  intros Hb Hd. revert s. induction fuel as [|fuel IH]; intros s Hf w; [lia|]. cbn [while]. unfold bind.
  destruct (Hb s w) as [Ha1 Ha2]. destruct (body s w) as [[[s'|s'|r]|e|] w'] eqn:E; cbn in *; try done.
  destruct (Hd s w s' w' E). destruct (IH s' ltac:(lia) w'). split; [done|lia].
Qed.

End Ends.

Create HintDb ends discriminated.
#[export] Hint Resolve ends_ret ends_raise ends_get_obj ends_put_obj ends_read ends_write ends_flush_input ends_flush_output
  ends_bytes_waiting ends_monotonic ends_sleep : ends.

(** Walks through the code; what is left are the loops, the [lift]s and the
    calls. *)
Ltac ends_go :=
  repeat lazymatch goal with
  | |- forall _, _ => intros ?
  | |- ends (bind _ _) => apply ends_bind; [|intros ?]
  | |- ends (try_except _ _ _) => apply ends_try; [|intros ?]
  | |- ends (foreach _ _ _) => apply ends_foreach; intros ? ? _
  | |- ends (lift _) => apply ends_lift
  | |- ends (match ?x with _ => _ end) => destruct x
  | |- (match ?x with _ => _ end) <> Diverge => destruct x
  | |- ends _ => first [progress cbv zeta | progress eauto with ends nocore]
  end; try done; eauto with ends nocore.
