(* ===== verification/DumpEnds.v ===== *)
(** * The flash dump comes to an end

  Termination of [Flashdump] over every transport whose clock goes on,
  whatever the device sends: every wait has a deadline, and every chunk that
  is read moves the dump forward. *)

From S2P Require Import Prelude Text Regex Crc Transport Ticks Profiles UbootEnv Flashdump.

Section Console.
Context {T Ob : Type} `{Ticking T}.
Variable fuel : nat.
Hypothesis Hfuel : (2000000 < Z.of_nat fuel).
Abbreviation MF := (M T Ob).

Lemma until_read_prompt prompt deadline : until (T := T) (Ob := Ob) deadline (read_until_body prompt deadline).
Proof.
  intros buf. unfold read_until_body. apply turn_intro; [intros; by b2p|intros; apply ends_ret|done|]. intros n. ends_go.
Qed.

Lemma ends_read_until_prompt prompt timeout :
  timeout < Z.of_nat fuel -> ends (T := T) (Ob := Ob) (read_until_prompt fuel prompt timeout).
Proof.
  intros Ht. unfold read_until_prompt.
  apply (ends_timed timeout fuel (fun now => read_until_body prompt (now + timeout))); [intros; apply until_read_prompt|lia|].
  intros c. ends_go.
Qed.

Lemma until_send start timeout wait_for : until (T := T) (Ob := Ob) (start + timeout) (send_body start timeout wait_for).
Proof.
  intros [buf idle]. apply turn_intro; [intros; b2p; lia|intros; apply ends_ret|done|]. intros n. ends_go.
Qed.

Lemma ends_clear_pending : ends (T := T) (Ob := Ob) clear_pending.
Proof. unfold clear_pending. ends_go. Qed.

Lemma ends_enter_line cmd retries echo_timeout : ends (T := T) (Ob := Ob) (enter_line fuel cmd retries echo_timeout).
Proof.
  pose proof ends_clear_pending. pose proof (ends_read_until_prompt (codes "# ") 2000000 Hfuel).
  unfold enter_line, echo_attempt, type_char, cancel_partial_uboot_line, encode_ascii. ends_go.
Qed.

Lemma ends_send_command_text cmd timeout wf ve rp :
  timeout < Z.of_nat fuel -> ends (T := T) (Ob := Ob) (send_command_text fuel cmd timeout wf ve rp).
Proof.
  intros Ht. unfold send_command_text. apply ends_bind; [apply ends_clear_pending|intros _]. apply ends_bind.
  { destruct ve; [apply ends_enter_line|]. unfold encode_ascii. ends_go. }
  intros entered. destruct (negb entered); [apply ends_ret|].
  apply (ends_timed timeout fuel (fun start => send_body start timeout wf)); [intros; apply until_send|lia|]. intros c. ends_go.
Qed.

Lemma ends_send_command cmd timeout wf ve rp :
  timeout < Z.of_nat fuel -> ends (T := T) (Ob := Ob) (Flashdump.send_command fuel cmd timeout wf ve rp).
Proof. intros Ht. unfold Flashdump.send_command. apply ends_bind; [by apply ends_send_command_text|]. intros r. ends_go. Qed.

End Console.

Section Dump.
Context {T : Type} `{Ticking T}.
Variable fuel : nat.
Variable is_cancelled : Z -> bool.
Variable load_prof : string -> res SoCProfile.
Hypothesis Hfuel : (SF_READ_TIMEOUT < Z.of_nat fuel).
Abbreviation MD := (M T (option bytes)).

Lemma ends_prompt_command cmd timeout :
  timeout < Z.of_nat fuel -> ends (T := T) (Ob := option bytes) (prompt_command fuel cmd timeout).
Proof. intros Ht. apply ends_send_command; [unfold SF_READ_TIMEOUT in Hfuel; lia|done]. Qed.

Lemma ends_device_crc addr n timeout : timeout < Z.of_nat fuel -> ends (T := T) (device_crc fuel addr n timeout).
Proof. intros Ht. pose proof (fun c => ends_prompt_command c timeout Ht). unfold device_crc, get_device_crc32. ends_go. Qed.

Lemma ends_verify ram_addr size :
  whole_timeout size < Z.of_nat fuel -> ends (T := T) (verify_and_repair fuel ram_addr size 0x10000 0x1000 5).
Proof.
  intros Hw. assert (Hs := Hfuel). unfold SF_READ_TIMEOUT in Hs.
  pose proof (fun c => ends_prompt_command c 15000000 ltac:(lia)).
  pose proof (fun a n => ends_device_crc a n 5000000 ltac:(lia)). pose proof (fun a n => ends_device_crc a n _ Hw).
  unfold verify_and_repair, repair_block, repair_chunk, reread_body, write_at, of_opt. ends_go.
Qed.

Lemma ends_chunk_attempt has_crc32 addr remaining attempt u :
  ends (T := T) (chunk_attempt fuel has_crc32 addr remaining attempt u).
Proof.
  assert (Hs := Hfuel). unfold SF_READ_TIMEOUT in Hs.
  pose proof (fun c => ends_prompt_command c 15000000 ltac:(lia)). pose proof (fun c => ends_prompt_command c 5000000 ltac:(lia)).
  pose proof (fun c => ends_prompt_command c 3000000 ltac:(lia)).
  unfold chunk_attempt, get_device_crc32. ends_go.
Qed.

Lemma ends_read_chunk has_crc32 addr remaining : ends (T := T) (read_chunk fuel has_crc32 addr remaining).
Proof. pose proof ends_chunk_attempt. unfold read_chunk. ends_go. Qed.

(** Every attempt but the last may fail; what is read is never empty. *)
Lemma chunk_attempt_some has_crc32 addr remaining attempt u :
  0 < remaining ->
  yields (chunk_attempt (T := T) fuel has_crc32 addr remaining attempt u) (fun c =>
    match c with Rtn d => 0 < len d | Next _ => attempt < max_retries | Brk _ => False end).
Proof.
  intros Hr. unfold chunk_attempt. apply yields_bind. intros [data|].
  - destruct (len data =? 0) eqn:E0; b2p.
    + destruct (attempt <? max_retries) eqn:E; b2p; apply yields_ret; [done|]. rewrite len_brep; lia.
    + assert (0 < len data) by (pose proof (len_nonneg data); lia). destruct (_ && _); [|by apply yields_ret].
      apply yields_bind. intros [d|]; [|by apply yields_ret].
      destruct (_ && (attempt <? max_retries)) eqn:E; b2p; by apply yields_ret.
  - destruct (attempt <? max_retries) eqn:E; b2p; [|apply yields_ret; rewrite len_brep; lia].
    apply yields_bind. intros _. apply yields_bind. intros _. by apply yields_ret.
Qed.

Lemma read_chunk_some has_crc32 addr remaining :
  0 < remaining -> yields (read_chunk (T := T) fuel has_crc32 addr remaining) (fun d => 0 < len d).
Proof.
  intros Hr. unfold read_chunk. eapply (yields_after _ _ (fun c => exists d, c = Rtn d /\ 0 < len d)).
  - change (range (max_retries + 1)) with ([0; 1; 2; 3; 4] ++ [5]). generalize [0; 1; 2; 3; 4] as xs, tt as s.
    induction xs as [|x xs IH]; intros s; cbn [app foreach].
    + eapply yields_after; [by apply chunk_attempt_some|]. intros [u|u|d] Hd; [done|done|]. apply yields_ret. by exists d.
    + eapply yields_after; [by apply chunk_attempt_some|]. intros [u|u|d] Hd; [apply IH|done|]. apply yields_ret. by exists d.
  - intros c (d & -> & Hd). by apply yields_ret.
Qed.

Lemma ends_dump_loop has_crc32 ram_addr flash_size offset :
  flash_size - offset < Z.of_nat fuel ->
  ends (T := T) (while fuel (dump_body fuel is_cancelled has_crc32 ram_addr flash_size) offset).
Proof.
  intros Hf. apply (ends_measure (fun o => Z.max 0 (flash_size - o))).
  - intros o. pose proof ends_read_chunk. unfold dump_body, write_at. ends_go.
  - intros o w o' w' E. revert E. unfold dump_body. destruct (o <? flash_size) eqn:Ho; cbn [negb]; b2p; [|done].
    unfold bind at 1. destruct (read_chunk _ _ _ _ w) as [[d|e|] w1] eqn:Er; [|done..].
    apply read_chunk_some in Er; [|unfold chunk_size; lia]. unfold write_at, bind, get_obj, put_obj.
    destruct (is_cancelled _); [done|]. intros [= <- _]. lia.
  - assert (Hs := Hfuel). unfold SF_READ_TIMEOUT in Hs. lia.
Qed.

Lemma detected_size text s : detect_flash_from_text text = Some s -> s <= 0x4000000.
Proof.
  assert (Hmb : forall ms s, head (omap flash_mb ms) = Some s -> s <= 0x4000000).
  { intros ms x Hx%head_Some_elem_of%list_elem_of_omap. destruct Hx as (m & _ & Hm). unfold flash_mb in Hm.
    destruct (bool_decide _) eqn:E; [|done]. apply bool_decide_eq_true in E. injection Hm as <-. revert E. set_unfold. lia. }
  unfold detect_flash_from_text. destruct (head (omap flash_mb (re_finditer FLASH_MB_RE text))) eqn:E1; [intros [= <-]; eauto|].
  destruct (head (omap flash_mb (re_finditer ANY_MB_RE text))) eqn:E2; [intros [= <-]; eauto|].
  intros Hx%head_Some_elem_of%list_elem_of_omap. destruct Hx as (m & _ & Hm). unfold flash_hex in Hm.
  destruct (_ && _) eqn:E; [|done]. injection Hm as <-. b2p. lia.
Qed.

(** A size that is not given is one of at most 64 MiB. *)
Lemma detect_flash_yields boot_log : yields (T := T) (Ob := option bytes) (detect_flash fuel boot_log) (fun o => forall s, o = Some s -> s <= 0x4000000).
Proof.
  unfold detect_flash. destruct (if negb (beq boot_log []) then _ else _) as [s|] eqn:E.
  - apply yields_ret. intros x [= <-]. destruct (negb _) in E; [by apply detected_size in E|done].
  - apply yields_bind. intros resp. apply yields_ret. apply detected_size.
Qed.

End Dump.

(** C27. The flash dump comes to an end, over every transport whose clock goes
    on and whatever the device sends or leaves out, be the size of the flash
    given or found out, which gives at most 64 MiB: with more fuel than the
    longest timeout has microseconds and the flash has bytes, [dump_flash]
    returns or raises.  Every wait is cut off by its deadline, no chunk is
    tried more than six times, and a chunk that is given up still moves the
    dump forward, as what is written in its place is never empty. *)
Theorem dump_flash_terminates {T} `{Ticking T} fuel is_cancelled load_prof size ram_addr chip boot_log (w : world T (option bytes)) :
  SF_READ_TIMEOUT < Z.of_nat fuel -> (forall s, size = Some s -> whole_timeout s < Z.of_nat fuel /\ s < Z.of_nat fuel) ->
  fst (dump_flash fuel is_cancelled load_prof size ram_addr chip boot_log w) <> Diverge.
Proof.
  intros Hf Hsize. pose proof Hf as Hs. unfold SF_READ_TIMEOUT in Hs.
  assert (Hp : forall c t, t < Z.of_nat fuel -> ends (prompt_command fuel c t)) by (intros; by apply ends_prompt_command).
  assert (He : ends (dump_flash fuel is_cancelled load_prof size ram_addr chip boot_log)); [|by destruct (He w)].
  pose proof (fun c => Hp c 5000000 ltac:(lia)). pose proof (fun c => Hp c 3000000 ltac:(lia)). pose proof (fun c => Hp c _ Hf).
  unfold dump_flash. apply ends_bind; [unfold staging, detect_ram_staging_addr; ends_go|intros ra].
  apply (ends_after _ _ (fun s => whole_timeout s < Z.of_nat fuel /\ s < Z.of_nat fuel)).
  { destruct size; [ends_go|]. apply ends_bind; [unfold detect_flash; ends_go|]. intros [s|]; ends_go. }
  { destruct size as [s|]; [by apply yields_ret, Hsize|]. eapply yields_after; [by apply detect_flash_yields|].
    intros [s|] Hd; [|apply yields_raise]. apply yields_ret. specialize (Hd s eq_refl). unfold whole_timeout.
    assert ((s * 1000000 + (2 ^ 20 - 1)) / 2 ^ 20 <= (0x4000000 * 1000000 + (2 ^ 20 - 1)) / 2 ^ 20) by (apply Z.div_le_mono; lia).
    split; [|lia]. change ((0x4000000 * 1000000 + (2 ^ 20 - 1)) / 2 ^ 20) with 64000000 in *. lia. }
  intros sz [Hw Hsz]. apply ends_bind; [unfold read_into_ram; ends_go|intros _]. apply ends_bind; [unfold detect_crc32; ends_go|intros hc].
  apply ends_bind; [apply ends_get_obj|intros file]. destruct (resume_at file sz hc) as [offset keep] eqn:Er.
  assert (Ho : sz - offset < Z.of_nat fuel).
  { revert Er. unfold resume_at. destruct file as [f|]; [|intros [= <- _]; lia].
    destruct (_ && _) eqn:E; [intros [= <- _]; b2p; lia|]. destruct ((len f =? sz) && hc); intros Eo; apply (f_equal fst) in Eo; cbn in Eo; lia. }
  apply ends_bind; [destruct keep; auto with ends|intros _]. apply ends_bind; [by apply ends_dump_loop|].
  intros c. pose proof (ends_verify fuel Hf ra sz Hw). ends_go.
Qed.

Abbreviation silent_line := (World (Pace (Mock [] [] false false 0) 0) None []).
Abbreviation deaf_dump size boot_log := (dump_flash (T := Paced MockTransport) (Z.to_nat 200000000) (fun _ => false) (fun _ => Raise FileNotFoundError)
  size None ""%string boot_log silent_line).

Theorem dump_flash_terminates_witness :
  fst (deaf_dump (Some 0x1000000) []) <> Diverge /\ fst (deaf_dump None (codes "SPI Nor total size: 16MB")) <> Diverge.
Proof.
  split.
  - apply (dump_flash_terminates (Z.to_nat 200000000) (fun _ => false) (fun _ => Raise FileNotFoundError) (Some 0x1000000) None ""%string [] silent_line);
      [unfold SF_READ_TIMEOUT; lia|]. intros s [= <-]. rewrite Z2Nat.id by lia. done.
  - apply (dump_flash_terminates (Z.to_nat 200000000) (fun _ => false) (fun _ => Raise FileNotFoundError) None None ""%string
      (codes "SPI Nor total size: 16MB") silent_line); [unfold SF_READ_TIMEOUT; lia|done].
Defined.
