(* ===== verification/RouterOS.v ===== *)
(** * MikroTik PoE switches

  Models [src/src/defib/power/routeros.py]: the words and sentences of the
  RouterOS API on a TCP stream, the login in both versions, and the
  controller that switches a port's [poe-out].  Texts are lists of code
  points; [lower()] is that of ASCII.

  The stream is a class of its own: what [asyncio]'s reader and writer do is
  outside the program.  [from_env] is in [Power]. *)

From stdpp Require Import pretty.
From S2P Require Import Prelude Text Capture Bundle Transport.

(** ** The stream *)

Class Stream (T : Type) := {
  s_open : T -> res unit * T;
  s_readexactly : Z -> T -> res bytes * T;
  s_write : bytes -> T -> T;
  s_drain : T -> res unit * T;
  s_close : T -> T
}.

Section Calls.
Context {T Ob : Type} `{Stream T}.

Definition stream_op {A} (f : T -> res A * T) : M T Ob A := fun w =>
  let (r, t) := f (tr w) in (r, World t (obj w) (log w)).

Definition readexactly (n : Z) : M T Ob bytes := fun w =>
  let (r, t) := s_readexactly n (tr w) in (r, World t (obj w) (log w ++ [EvRead r])).
Definition swrite (d : bytes) : M T Ob unit := fun w =>
  (Ok tt, World (s_write d (tr w)) (obj w) (log w ++ [EvWrite d (Ok tt)])).
Definition drain : M T Ob unit := stream_op s_drain.

End Calls.

(** ** Lengths and words *)

Definition encode_length (length : Z) : res bytes :=
  if length <? 0x80 then pack_be 1 length
  else if length <? 0x4000 then pack_be 2 (Z.lor length 0x8000)
  else if length <? 0x200000 then
    let b := Z.lor length 0xC00000 in
    let! hi := pack_be 1 (Z.land (Z.shiftr b 16) 0xFF) in
    let! lo := pack_be 2 (Z.land b 0xFFFF) in
    Ok (hi ++ lo)
  else if length <? 0x10000000 then pack_be 4 (Z.lor length 0xE0000000)
  else Raise PowerControllerError.

Definition encode_word (word : list Z) : res bytes :=
  let! payload := utf8_encode word in
  let! l := encode_length (len payload) in
  Ok (l ++ payload).

Section Sentences.
Context {T Ob : Type} `{Stream T}.
Variable fuel : nat.
Abbreviation MS := (M T Ob).

(** [(await reader.readexactly(n))[i]] *)
Definition byte_at (data : bytes) (i : Z) : MS Z := lift (index data i).

Definition read_length : MS Z :=
  let* d := readexactly 1 in
  let* b := byte_at d 0 in
  if b <? 0x80 then ret b
  else if b <? 0xC0 then
    let* d := readexactly 1 in
    let* b2 := byte_at d 0 in
    ret (Z.lor (Z.shiftl (Z.land b 0x3F) 8) b2)
  else if b <? 0xE0 then
    let* rest := readexactly 2 in
    let* r0 := byte_at rest 0 in
    let* r1 := byte_at rest 1 in
    ret (Z.lor (Z.lor (Z.shiftl (Z.land b 0x1F) 16) (Z.shiftl r0 8)) r1)
  else if b <? 0xF0 then
    let* rest := readexactly 3 in
    let* r0 := byte_at rest 0 in
    let* r1 := byte_at rest 1 in
    let* r2 := byte_at rest 2 in
    ret (Z.lor (Z.lor (Z.lor (Z.shiftl (Z.land b 0x0F) 24) (Z.shiftl r0 16)) (Z.shiftl r1 8)) r2)
  else raise PowerControllerError.

Definition read_word : MS (list Z) :=
  let* length := read_length in
  if length =? 0 then ret [] else
  let* data := readexactly length in
  ret (utf8_decode data).

Definition send_sentence (words : list (list Z)) : MS unit :=
  let* _ := foreach (R := Empty_set) words (fun word _ =>
    let* w := lift (encode_word word) in
    let* _ := swrite w in
    ret (Next tt)) tt in
  let* _ := swrite [0] in
  drain.

Definition sentence_body (words : list (list Z)) : MS (ctl (list (list Z)) Empty_set) :=
  let* word := read_word in
  if beq word [] then ret (Brk words) else ret (Next (words ++ [word])).

Definition read_sentence : MS (list (list Z)) :=
  let* c := while fuel sentence_body [] in
  match c with
  | Next words | Brk words => ret words
  | Rtn r => match r with end
  end.

(** ** Calls *)

(** [sentence[0] in ("!done", "!trap")], for a sentence that is not empty *)
Definition is_reply (kind : list Z) (sentence : list (list Z)) : bool :=
  match sentence with
  | w :: _ => beq w kind
  | [] => false
  end.
Definition closes (sentence : list (list Z)) : bool :=
  is_reply (codes "!done") sentence || is_reply (codes "!trap") sentence.

Definition response_body (sentences : list (list (list Z))) : MS (ctl (list (list (list Z))) Empty_set) :=
  let* sentence := read_sentence in
  match sentence with
  | [] => ret (Next sentences)
  | _ => if closes sentence then ret (Brk (sentences ++ [sentence])) else ret (Next (sentences ++ [sentence]))
  end.

Definition read_response : MS (list (list (list Z))) :=
  let* c := while fuel response_body [] in
  match c with
  | Next sentences | Brk sentences => ret sentences
  | Rtn r => match r with end
  end.

Definition call (words : list (list Z)) : MS (list (list (list Z))) :=
  let* _ := send_sentence words in
  read_response.

End Sentences.

(** ** Attributes *)

Definition extract_attr (sentence : list (list Z)) (key : list Z) : option (list Z) :=
  let prefix := [61] ++ key ++ [61] in
  match List.find (starts_with prefix) sentence with
  | Some word => Some (drop (length prefix) word)
  | None => None
  end.

Abbreviation item := (gmap (list Z) (list Z)).

Definition parse_word (i : item) (word : list Z) : item :=
  match word with
  | 61 :: rest =>
      match partition_on 61 rest with
      | Some (key, value) => <[key := value]> i
      | None => i
      end
  | _ => i
  end.

Definition parse_items (response : list (list (list Z))) : list item :=
  (fun sentence => foldl parse_word ∅ (tail sentence)) <$> List.filter (is_reply (codes "!re")) response.

(** A response in which a sentence is [!trap]. *)
Definition trapped (response : list (list (list Z))) : bool := existsb (is_reply (codes "!trap")) response.

(** ** The controller *)

Record RouterOSController := RouterOS {
  ro_username : list Z; ro_password : list Z; ro_conn : bool; saved_poe_out : gmap (list Z) (list Z)
}.
Definition set_conn (b : bool) (c : RouterOSController) : RouterOSController :=
  RouterOS (ro_username c) (ro_password c) b (saved_poe_out c).
Definition set_saved (s : gmap (list Z) (list Z)) (c : RouterOSController) : RouterOSController :=
  RouterOS (ro_username c) (ro_password c) (ro_conn c) s.

(** [bytes.fromhex(s)]: ASCII white space may stand between the pairs. *)
Fixpoint skip_spaces (s : list Z) : list Z :=
  match s with
  | c :: s' => if ((9 <=? c) && (c <=? 13)) || (c =? 32) then skip_spaces s' else s
  | [] => []
  end.
Fixpoint fromhex (fuel : nat) (s : list Z) : res bytes :=
  match fuel with
  | O => Diverge
  | S fuel =>
      match skip_spaces s with
      | [] => Ok []
      | a :: b :: s =>
          match hex_value a, hex_value b with
          | Some x, Some y => let! r := fromhex fuel s in Ok ((16 * x + y) :: r)
          | _, _ => Raise ValueError
          end
      | _ => Raise ValueError
      end
  end.

Section Controller.
Context {T : Type} `{Stream T}.
Variable fuel : nat.
Abbreviation MR := (M T RouterOSController).

Definition login_legacy (username password challenge_hex : list Z) : MR unit :=
  let* challenge := lift (fromhex (S (length challenge_hex)) challenge_hex) in
  let* pw := lift (utf8_encode password) in
  let hashed := codes "00" ++ Md5.hexdigest ([0] ++ pw ++ challenge) in
  let* response := call fuel [codes "/login"; codes "=name=" ++ username; codes "=response=" ++ hashed] in
  if trapped response then raise PowerControllerError else ret tt.

Definition login (username password : list Z) : MR unit :=
  let* response := call fuel [codes "/login"; codes "=name=" ++ username; codes "=password=" ++ password] in
  if trapped response then raise PowerControllerError else
  match List.find (is_reply (codes "!done")) response with
  | Some sentence =>
      match extract_attr sentence (codes "ret") with
      | Some (c :: challenge) => login_legacy username password (c :: challenge)
      | _ => ret tt
      end
  | None => raise PowerControllerError
  end.

(** [_connect] *)
Definition connect : MR unit :=
  let* c := get_obj in
  if ro_conn c then ret tt else
  let* _ := try_except (stream_op s_open) (fun e => bool_decide (e ∈ [OSError; TimeoutError])) (fun _ => raise PowerControllerError) in
  let* _ := login (ro_username c) (ro_password c) in
  put_obj (set_conn true c).

(** The first interface whose comment contains [search] or lies in it. *)
Definition matches_comment (search : list Z) (i : item) : bool :=
  match i !! codes "comment" with
  | Some comment =>
      negb (beq comment []) &&
      (contains (lower_codes search) (lower_codes comment) || contains (lower_codes comment) (lower_codes search))
  | None => false
  end.

Definition find_port_by_comment (search : list Z) : MR (list Z) :=
  let* _ := connect in
  let* response := call fuel [codes "/interface/ethernet/print"] in
  match List.find (matches_comment search) (parse_items response) with
  | Some i => ret (default [] (i !! codes "name"))
  | None => raise PowerControllerError
  end.

Definition poe_print (interface_name : list Z) : MR (list (list (list Z))) :=
  call fuel [codes "/interface/ethernet/poe/print"; codes "?name=" ++ interface_name].

Definition set_poe (interface_name poe_out : list Z) : MR unit :=
  let* _ := connect in
  let* response := poe_print interface_name in
  match parse_items response with
  | [] => raise PowerControllerError
  | i :: _ =>
      match i !! codes ".id" with
      | Some (d :: item_id) =>
          let* response := call fuel [codes "/interface/ethernet/poe/set"; codes "=.id=" ++ d :: item_id; codes "=poe-out=" ++ poe_out] in
          if trapped response then raise PowerControllerError else ret tt
      | _ => raise PowerControllerError
      end
  end.

Definition get_poe_out (interface_name : list Z) : MR (list Z) :=
  let* _ := connect in
  let* response := poe_print interface_name in
  match parse_items response with
  | i :: _ => ret (default (codes "auto-on") (i !! codes "poe-out"))
  | [] => ret (codes "auto-on")
  end.

Definition poe_power_cycle (interface_name duration : list Z) : MR unit :=
  let* _ := connect in
  let* response := call fuel [codes "/interface/ethernet/poe/power-cycle"; codes "=.id=" ++ interface_name; codes "=duration=" ++ duration] in
  if trapped response then raise PowerControllerError else ret tt.

Definition power_off (port : list Z) : MR unit :=
  let* c := get_obj in
  let* _ :=
    match saved_poe_out c !! port with
    | Some _ => ret tt
    | None =>
        let* mode := get_poe_out port in
        let* c := get_obj in
        put_obj (set_saved (<[port := mode]> (saved_poe_out c)) c)
    end in
  set_poe port (codes "off").

Definition power_on (port : list Z) : MR unit :=
  let* c := get_obj in
  let restore_mode := default (codes "forced-on") (saved_poe_out c !! port) in
  let* _ := put_obj (set_saved (delete port (saved_poe_out c)) c) in
  set_poe port (if beq restore_mode (codes "off") then codes "forced-on" else restore_mode).

(** [off_duration] in microseconds *)
Definition ro_power_cycle (port : list Z) (off_duration : Z) : MR unit :=
  let duration_s := Z.max (Z.quot off_duration 1000000) 5 in
  poe_power_cycle port (codes (pretty duration_s) ++ codes "s").

Definition ro_close : MR unit :=
  let* c := get_obj in
  if ro_conn c then let* _ := stream_op (fun t => (Ok tt, s_close t)) in put_obj (set_conn false c) else ret tt.

End Controller.

(** ** Streams that deliver what they hold

  [s_pending] is what has arrived and was not read: a read of [n] bytes that
  have arrived returns them and leaves what follows; [s_rest] is the part of
  the stream that reading does not touch. *)

Class StreamLaws (T : Type) `{Stream T} := {
  s_pending : T -> bytes;
  s_rest_type : Type;
  s_rest : T -> s_rest_type;
  s_readexactly_law a b t : s_pending t = a ++ b ->
    exists t', s_readexactly (len a) t = (Ok a, t') /\ s_pending t' = b /\ s_rest t' = s_rest t
}.

(** A computation that consumes exactly [a] of what has arrived and returns
  [x]; the calculus of such computations. *)
Section Takes.
Context {T Ob : Type} `{StreamLaws T}.

Definition takes {A} (m : M T Ob A) (a : bytes) (x : A) : Prop :=
  forall w b, s_pending (tr w) = a ++ b ->
    exists w', m w = (Ok x, w') /\ s_pending (tr w') = b /\ s_rest (tr w') = s_rest (tr w) /\ obj w' = obj w.

Lemma takes_ret {A} (x : A) : takes (ret x) [] x.
Proof. intros w b E. by exists w. Qed.

Lemma takes_lift {A} (x : A) : takes (lift (Ok x)) [] x.
Proof. intros w b E. by exists w. Qed.

Lemma takes_bind {A B} (m : M T Ob A) (f : A -> M T Ob B) a b x y :
  takes m a x -> takes (f x) b y -> takes (bind m f) (a ++ b) y.
Proof.
  intros Hm Hf w r E. rewrite <- app_assoc in E. destruct (Hm w _ E) as (w1 & E1 & P1 & R1 & O1).
  destruct (Hf w1 _ P1) as (w2 & E2 & P2 & R2 & O2). exists w2. unfold bind. by rewrite E1, E2, R2, O2.
Qed.

Lemma takes_bind0 {A B} (m : M T Ob A) (f : A -> M T Ob B) b x y :
  takes m [] x -> takes (f x) b y -> takes (bind m f) b y.
Proof. apply takes_bind. Qed.

Lemma takes_last {A B} (m : M T Ob A) (f : A -> M T Ob B) a x y :
  takes m a x -> takes (f x) [] y -> takes (bind m f) a y.
Proof. intros Hm Hf. rewrite <- (app_nil_r a). by eapply takes_bind. Qed.

Lemma takes_exactly n a : n = len a -> takes (readexactly n) a a.
Proof.
  intros -> w b E. destruct (s_readexactly_law a b (tr w) E) as (t' & E' & P' & R').
  unfold readexactly. rewrite E'. eexists. split; [done|by split_and!].
Qed.

End Takes.

(** ** A length is read back *)

Lemma lor_low a h k : 0 <= k -> 0 <= a < 2 ^ k -> Z.lor a (h * 2 ^ k) = a + h * 2 ^ k.
Proof.
  intros Hk Ha. rewrite <- Z.shiftl_mul_pow2 by done.
  assert (Hand : Z.land a (Z.shiftl h k) = 0).
  { apply Z.bits_inj'. intros i Hi. rewrite Z.bits_0, Z.land_spec, Z.shiftl_spec by done.
    destruct (decide (i < k)); [rewrite (Z.testbit_neg_r h) by lia; apply andb_false_r|].
    replace a with (a mod 2 ^ k) by by apply Z.mod_small. by rewrite Z.mod_pow2_bits_high by lia. }
  pose proof (Z.add_lor_land a (Z.shiftl h k)). lia.
Qed.

Lemma lor_shiftl a b k : 0 <= k -> 0 <= b < 2 ^ k -> Z.lor (Z.shiftl a k) b = a * 2 ^ k + b.
Proof. intros. rewrite Z.lor_comm, Z.shiftl_mul_pow2 by done. rewrite lor_low by done. lia. Qed.

Lemma land_low a m k : 0 <= k -> m = 2 ^ k - 1 -> Z.land a m = a mod 2 ^ k.
Proof. intros Hk ->. rewrite <- Z.land_ones by done. by rewrite Z.ones_equiv, Z.sub_1_r. Qed.

Lemma be_digits_2 z : be_bytes 2 z = [z / 256 mod 256; z mod 256].
Proof.
  change (be_bytes 2 z) with [Z.land (Z.shiftr z 8) 255; Z.land z 255].
  by rewrite Z.shiftr_div_pow2, !(land_low _ 255 8).
Qed.

Lemma be_digits_4 z : be_bytes 4 z = [z / 16777216 mod 256; z / 65536 mod 256; z / 256 mod 256; z mod 256].
Proof.
  change (be_bytes 4 z) with
    [Z.land (Z.shiftr (Z.shiftr (Z.shiftr z 8) 8) 8) 255; Z.land (Z.shiftr (Z.shiftr z 8) 8) 255;
     Z.land (Z.shiftr z 8) 255; Z.land z 255].
  by rewrite !Z.shiftr_shiftr, !Z.shiftr_div_pow2, !(land_low _ 255 8).
Qed.

Lemma be_digits_1 z : 0 <= z < 256 -> be_bytes 1 z = [z].
Proof.
  intros Hz. change (be_bytes 1 z) with [Z.land z 255]. rewrite (land_low _ 255 8) by done. by rewrite Z.mod_small.
Qed.

Section LengthReads.
Context {T Ob : Type} `{StreamLaws T}.

Lemma takes_byte (d : bytes) i x : d !! Z.to_nat i = Some x -> takes (Ob := Ob) (byte_at d i) [] x.
Proof. intros E. unfold byte_at, index. rewrite E. apply takes_lift. Qed.

Lemma read_length_1 n : 0 <= n < 0x80 -> takes (Ob := Ob) read_length [n] n.
Proof.
  intros Hn. unfold read_length. eapply takes_last; [by apply takes_exactly|].
  eapply takes_bind0; [by apply takes_byte|].
  replace (n <? 0x80) with true by lia. apply takes_ret.
Qed.

Lemma read_length_2 a b : 0x80 <= a < 0xC0 -> 0 <= b < 256 -> takes (Ob := Ob) read_length [a; b] ((a - 0x80) * 256 + b).
Proof.
  intros Ha Hb. unfold read_length. eapply (takes_bind _ _ [a] [b]); [by apply takes_exactly|].
  eapply takes_bind0; [by apply takes_byte|].
  replace (a <? 0x80) with false by lia. replace (a <? 0xC0) with true by lia.
  eapply takes_last; [by apply takes_exactly|]. eapply takes_bind0; [by apply takes_byte|].
  rewrite lor_shiftl by lia. replace (Z.land a 0x3F) with (a - 0x80); [apply takes_ret|].
  rewrite (land_low a _ 6) by done. Z.to_euclidean_division_equations. lia.
Qed.

Lemma read_length_3 a b c :
  0xC0 <= a < 0xE0 -> 0 <= b < 256 -> 0 <= c < 256 -> takes (Ob := Ob) read_length [a; b; c] ((a - 0xC0) * 65536 + b * 256 + c).
Proof.
  intros Ha Hb Hc. unfold read_length. eapply (takes_bind _ _ [a] [b; c]); [by apply takes_exactly|].
  eapply takes_bind0; [by apply takes_byte|].
  replace (a <? 0x80) with false by lia. replace (a <? 0xC0) with false by lia. replace (a <? 0xE0) with true by lia.
  eapply takes_last; [by apply takes_exactly|]. do 2 (eapply takes_bind0; [by apply takes_byte|]).
  rewrite <- Z.lor_assoc, (lor_shiftl b c), lor_shiftl by lia.
  replace (Z.land a 0x1F) with (a - 0xC0); [rewrite Z.add_assoc; apply takes_ret|].
  rewrite (land_low a _ 5) by done. Z.to_euclidean_division_equations. lia.
Qed.

Lemma read_length_4 a b c d :
  0xE0 <= a < 0xF0 -> 0 <= b < 256 -> 0 <= c < 256 -> 0 <= d < 256 ->
  takes (Ob := Ob) read_length [a; b; c; d] ((a - 0xE0) * 16777216 + b * 65536 + c * 256 + d).
Proof.
  intros Ha Hb Hc Hd. unfold read_length. eapply (takes_bind _ _ [a] [b; c; d]); [by apply takes_exactly|].
  eapply takes_bind0; [by apply takes_byte|].
  replace (a <? 0x80) with false by lia. replace (a <? 0xC0) with false by lia.
  replace (a <? 0xE0) with false by lia. replace (a <? 0xF0) with true by lia.
  eapply takes_last; [by apply takes_exactly|]. do 3 (eapply takes_bind0; [by apply takes_byte|]).
  rewrite <- !Z.lor_assoc, (lor_shiftl c d), (lor_shiftl b), lor_shiftl by lia.
  replace (Z.land a 0x0F) with (a - 0xE0); [rewrite !Z.add_assoc; apply takes_ret|].
  rewrite (land_low a _ 4) by done. Z.to_euclidean_division_equations. lia.
Qed.

(** Where the reader's arithmetic meets the writer's. *)
Lemma takes_num (e : bytes) n m : takes (Ob := Ob) read_length e n -> n = m -> takes (Ob := Ob) read_length e m.
Proof. by intros ? ->. Qed.

Lemma read_length_encoded n e : 0 <= n -> encode_length n = Ok e -> takes (Ob := Ob) read_length e n.
Proof.
  intros Hn. unfold encode_length.
  destruct (Z.ltb_spec n 0x80). { intros [_ ->]%pack_be_ok. rewrite be_digits_1 by lia. by apply read_length_1. }
  destruct (Z.ltb_spec n 0x4000).
  { intros [_ ->]%pack_be_ok. rewrite (lor_low n 2 14 : _ -> _ -> Z.lor n 0x8000 = _), be_digits_2 by lia.
    eapply takes_num; [apply read_length_2|]; Z.to_euclidean_division_equations; lia. }
  destruct (Z.ltb_spec n 0x200000).
  { rewrite (lor_low n 6 21 : _ -> _ -> Z.lor n 0xC00000 = _) by lia. intros E. inv_ok.
    apply pack_be_ok in Heqr as [_ ->], Heqr0 as [_ ->].
    rewrite be_digits_2, (land_low _ 0xFFFF 16), (land_low _ 0xFF 8), Z.shiftr_div_pow2 by done.
    rewrite be_digits_1 by (apply Z.mod_pos_bound; lia).
    eapply takes_num; [apply read_length_3|]; Z.to_euclidean_division_equations; lia. }
  destruct (Z.ltb_spec n 0x10000000); [|done].
  intros [_ ->]%pack_be_ok. rewrite (lor_low n 14 28 : _ -> _ -> Z.lor n 0xE0000000 = _), be_digits_4 by lia.
  eapply takes_num; [apply read_length_4|]; Z.to_euclidean_division_equations; lia.
Qed.

End LengthReads.

(** ** Sentences and replies are read back *)

(** A word the other side can tell from the end of a sentence. *)
Definition sendable (word : list Z) : Prop :=
  word <> [] /\ Forall (fun c => 0 <= c <= 0x10FFFF) word /\ exists e, encode_word word = Ok e.

(** What [send_sentence] writes. *)
Fixpoint sentence_bytes (words : list (list Z)) : res bytes :=
  match words with
  | [] => Ok [0]
  | word :: words => let! e := encode_word word in let! r := sentence_bytes words in Ok (e ++ r)
  end.

Lemma sentence_bytes_ok words : Forall sendable words -> exists e, sentence_bytes words = Ok e.
Proof.
  induction 1 as [|word words (_ & _ & e & E) _ [r IH]]; [by eexists|].
  cbn [sentence_bytes]. rewrite E. cbn [res_bind]. rewrite IH. by eexists.
Qed.

Lemma send_words {T Ob} `{Stream T} words e (w : world T Ob) :
  sentence_bytes words = Ok e ->
  exists l, log (send_sentence words w).2 = log w ++ l /\ concat (writes l) = e.
Proof.
  revert e w. unfold send_sentence. induction words as [|word words IH]; intros e w E.
  - injection E as <-. exists [EvWrite [0] (Ok tt)]. unfold bind, foreach, ret, swrite, drain, stream_op. cbn.
    by destruct (s_drain _).
  - cbn [sentence_bytes] in E. destruct (encode_word word) as [a| |] eqn:Ea; cbn [res_bind] in E; [|done..].
    destruct (sentence_bytes words) as [r| |] eqn:Er; [|done..]. injection E as <-.
    destruct (IH r (World (s_write a (tr w)) (obj w) (log w ++ [EvWrite a (Ok tt)])) eq_refl) as (l & El & Cl).
    exists (EvWrite a (Ok tt) :: l). split; [|cbn; by f_equal].
    change (EvWrite a (Ok tt) :: l) with ([EvWrite a (Ok tt)] ++ l). rewrite app_assoc. etransitivity; [|exact El].
    unfold bind, lift, swrite. cbn [foreach]. by rewrite Ea.
Qed.

Section Reads.
Context {T Ob : Type} `{StreamLaws T}.

Lemma utf8_encode_nil word : utf8_encode word = Ok [] -> word = [].
Proof.
  destruct word as [|c s]; [done|]. cbn [utf8_encode]. intros E.
  destruct (utf8_char c) as [b| |] eqn:Eb; cbn [res_bind] in E; [|done..].
  destruct (utf8_encode s); [|done..]. injection E as E. apply app_eq_nil in E as [-> _].
  unfold utf8_char in Eb. repeat case_match; done.
Qed.

Lemma takes_word word e : sendable word -> encode_word word = Ok e -> takes (Ob := Ob) read_word e word.
Proof.
  intros (Hne & Hc & _) E. unfold encode_word in E. destruct (utf8_encode word) as [p| |] eqn:Ep; [|done..].
  cbn [res_bind] in E. destruct (encode_length (len p)) as [l| |] eqn:El; [|done..]. injection E as <-.
  pose proof (len_nonneg p). unfold read_word. eapply takes_bind; [by eapply read_length_encoded|].
  destruct (Z.eqb_spec (len p) 0) as [Hp|_].
  - apply len_0_nil in Hp as ->. by apply utf8_encode_nil in Ep.
  - eapply takes_last; [by apply takes_exactly|]. rewrite (utf8_roundtrip word p) by done. apply takes_ret.
Qed.

Lemma takes_end : takes (Ob := Ob) read_word [0] [].
Proof. unfold read_word. eapply takes_last; [by apply read_length_1|]. apply takes_ret. Qed.

Lemma takes_sentence_from fuel words acc e :
  Forall sendable words -> (length words < fuel)%nat -> sentence_bytes words = Ok e ->
  takes (Ob := Ob) (while fuel sentence_body acc) e (Brk (acc ++ words)).
Proof.
  revert acc fuel e. induction words as [|word words IH]; intros acc [|fuel] e Hw Hf E; cbn in Hf; try lia; cbn [while].
  - injection E as <-. rewrite app_nil_r. eapply (takes_last _ _ _ (Brk acc)); [|apply takes_ret].
    unfold sentence_body. eapply takes_last; [exact takes_end|]. apply takes_ret.
  - apply Forall_cons in Hw as [Hword Hw]. cbn [sentence_bytes] in E. destruct (encode_word word) as [a| |] eqn:Ea; cbn [res_bind] in E; [|done..].
    destruct (sentence_bytes words) as [r| |]; [|done..]. injection E as <-.
    eapply (takes_bind _ _ _ _ (Next (acc ++ [word]))).
    { unfold sentence_body. eapply takes_last; [by eapply takes_word|].
      replace (beq word []) with false by (symmetry; apply bool_decide_eq_false_2, Hword). apply takes_ret. }
    cbn. replace (acc ++ word :: words) with ((acc ++ [word]) ++ words) by by rewrite <- app_assoc.
    apply IH; [done|lia|done].
Qed.

Lemma takes_sentence fuel words e :
  Forall sendable words -> (length words < fuel)%nat -> sentence_bytes words = Ok e ->
  takes (Ob := Ob) (read_sentence fuel) e words.
Proof.
  intros. unfold read_sentence. eapply (takes_last _ _ _ (Brk words)); [by apply (takes_sentence_from fuel words [])|]. apply takes_ret.
Qed.

End Reads.

(** C36. A sentence of the RouterOS API survives the wire: whatever the words
  (none empty, any text whose encoded form is shorter than 2^28 bytes), the
  bytes that [send_sentence] writes, the length prefixes in all four widths
  and the terminating empty word, are read by [read_sentence] as exactly
  these words, and what follows them in the stream is left untouched for the
  next sentence. *)
Theorem sentence_roundtrip {T1 T2 O1 O2} `{Stream T1} `{StreamLaws T2} fuel words rest (w : world T1 O1) (v : world T2 O2) :
  Forall sendable words -> (length words < fuel)%nat ->
  exists sent,
    (exists l, log (send_sentence words w).2 = log w ++ l /\ concat (writes l) = sent)
    /\ (s_pending (tr v) = sent ++ rest -> exists v', read_sentence fuel v = (Ok words, v') /\ s_pending (tr v') = rest).
Proof.
  intros Hw Hf. destruct (sentence_bytes_ok words Hw) as [e E]. exists e.
  split; [by apply send_words|]. intros Ep.
  destruct (takes_sentence fuel words e Hw Hf E v rest Ep) as (v' & Ev & Pv & _). by exists v'.
Qed.

(** A stream held in memory: [inbox] is what the switch has sent,
  [outbox] what was sent to it. *)
Record Pipe := { inbox : bytes; outbox : bytes }.

#[export] Instance Pipe_Stream : Stream Pipe := {|
  s_open t := (Ok tt, t);
  s_readexactly n t :=
    if len (inbox t) <? n then (Raise IncompleteReadError, {| inbox := []; outbox := outbox t |})
    else (Ok (slice (inbox t) 0 n), {| inbox := slice (inbox t) n (len (inbox t)); outbox := outbox t |});
  s_write d t := {| inbox := inbox t; outbox := outbox t ++ d |};
  s_drain t := (Ok tt, t);
  s_close t := t
|}.

#[export] Instance Pipe_Laws : StreamLaws Pipe.
Proof.
  refine {| s_pending := inbox; s_rest := outbox |}. intros a b t E. cbn. rewrite E, len_app. pose proof (len_nonneg b).
  replace (len a + len b <? len a) with false by lia. eexists. split; [by rewrite slice_prefix|].
  cbn. split; [by apply (slice_suffix a b)|done].
Defined.

Example demo_words : list (list Z) := [codes "/login"; codes "=name=admin"; codes "=comment=" ++ replicate 200 0x43F].
Example demo_sent : bytes := default [] (match sentence_bytes demo_words with Ok e => Some e | _ => None end).

Example sentence_roundtrip_witness :
  let w := World {| inbox := []; outbox := [] |} tt [] in
  let v := World {| inbox := demo_sent ++ [1; 2]; outbox := [] |} tt [] in
  exists sent, (exists l, log (send_sentence demo_words w).2 = log w ++ l /\ concat (writes l) = sent)
    /\ (s_pending (tr v) = sent ++ [1; 2] -> exists v', read_sentence 9 v = (Ok demo_words, v') /\ s_pending (tr v') = [1; 2]).
Proof.
  apply sentence_roundtrip.
  - unfold demo_words. repeat apply Forall_cons_2; [..|by apply Forall_nil];
      (split; [discriminate|split; [apply (bool_decide_unpack _); vm_compute; exact I|eexists; vm_compute; reflexivity]]).
  - cbn. lia.
Defined.

(** ** Replies *)

(** A reply: sentences of which the last is [!done] or [!trap]. *)
Definition reply_bytes (reply : list (list (list Z))) : res bytes :=
  foldr (fun s r => let! e := sentence_bytes s in let! r := r in Ok (e ++ r)) (Ok []) reply.

Definition well_formed (reply : list (list (list Z))) : Prop :=
  Forall (fun s => s <> [] /\ Forall sendable s) reply
  /\ exists init final, reply = init ++ [final] /\ closes final = true /\ Forall (fun s => closes s = false) init.

Section Replies.
Context {T Ob : Type} `{StreamLaws T}.

Lemma takes_response_from fuel final e init : forall acc k,
  Forall (fun s => s <> [] /\ Forall sendable s /\ (length s < fuel)%nat) (init ++ [final]) ->
  closes final = true -> Forall (fun s => closes s = false) init ->
  (length init < k)%nat -> reply_bytes (init ++ [final]) = Ok e ->
  takes (Ob := Ob) (while k (response_body fuel) acc) e (Brk (acc ++ init ++ [final])).
Proof.
  revert e. induction init as [|s init IH]; intros e acc [|k] Hs Hc Hi Hk E; cbn in Hk; try lia;
    cbn [app] in Hs, E; apply Forall_cons in Hs as [(Hne & Hw & Hl) Hs]; cbn [reply_bytes foldr] in E; cbn [while].
  - destruct (sentence_bytes final) as [b| |] eqn:Eb; [|done..]. injection E as <-.
    eapply (takes_last _ _ _ (Brk (acc ++ [final]))); [|apply takes_ret].
    rewrite app_nil_r. unfold response_body. eapply takes_last; [by apply takes_sentence|].
    destruct final; [done|]. rewrite Hc. apply takes_ret.
  - apply Forall_cons in Hi as [Hn Hi]. destruct (sentence_bytes s) as [b| |] eqn:Eb; cbn [res_bind] in E; [|done..].
    fold (reply_bytes (init ++ [final])) in E. destruct (reply_bytes (init ++ [final])) as [r| |] eqn:Er; [|done..].
    injection E as <-. eapply (takes_bind _ _ _ _ (Next (acc ++ [s]))).
    + unfold response_body. eapply takes_last; [by apply takes_sentence|]. destruct s; [done|]. rewrite Hn. apply takes_ret.
    + cbn beta iota. replace (acc ++ (s :: init) ++ [final]) with ((acc ++ [s]) ++ init ++ [final]) by by rewrite <- app_assoc.
      apply IH; [done..|lia|done].
Qed.

Lemma takes_response fuel reply e :
  well_formed reply -> (length reply < fuel)%nat -> Forall (fun s => (length s < fuel)%nat) reply ->
  reply_bytes reply = Ok e -> takes (Ob := Ob) (read_response fuel) e reply.
Proof.
  intros (Hs & init & final & -> & Hc & Hi) Hf Hl E. unfold read_response.
  eapply (takes_last _ _ _ (Brk (init ++ [final]))); [|apply takes_ret].
  apply (takes_response_from fuel final e init []); [|done|done|rewrite length_app in Hf; cbn in Hf; lia|done].
  apply Forall_forall. intros s Hin. rewrite Forall_forall in Hs, Hl. destruct (Hs s Hin). auto.
Qed.

End Replies.

Lemma reply_bytes_ok reply : Forall (Forall sendable) reply -> exists e, reply_bytes reply = Ok e.
Proof.
  induction 1 as [|s reply Hs _ [r IH]]; [by eexists|]. destruct (sentence_bytes_ok s Hs) as [e E].
  cbn [reply_bytes foldr]. fold (reply_bytes reply). rewrite E, IH. by eexists.
Qed.
