(* ===== verification/PoeSwitch.v ===== *)
(** * The PoE switch and its controller together

  What [RouterOS]'s controller does to a switch.  The switch is a device of
  the model: a table of the ports' [poe-out], the ids ["*<name>"] by which the
  API names them, the bytes it has heard and those it still has to say.  It
  reads a sentence with the codec of [RouterOS], does what the sentence asks
  and says the reply. *)

From S2P Require Import Prelude Text Capture Transport RouterOS.

(** ** The device *)

Abbreviation sentence := (list (list Z)).
Abbreviation ports := (gmap (list Z) (list Z)).

Definition PRINT : list Z := codes "/interface/ethernet/poe/print".
Definition SET_ : list Z := codes "/interface/ethernet/poe/set".
Definition OK_REPLY : list sentence := [[codes "!done"]].

Definition port_sentence (name mode : list Z) : sentence :=
  [codes "!re"; codes "=.id=*" ++ name; codes "=name=" ++ name; codes "=poe-out=" ++ mode].

(** The reply to a sentence and the ports after it. *)
Definition obey (p : ports) (words : sentence) : list sentence * ports :=
  match words with
  | [cmd; a] =>
      if beq cmd PRINT && starts_with (codes "?name=") a then
        let name := drop 6 a in
        match p !! name with
        | Some mode => ([port_sentence name mode; [codes "!done"]], p)
        | None => (OK_REPLY, p)
        end
      else ([[codes "!trap"]], p)
  | [cmd; a; b] =>
      if beq cmd SET_ && starts_with (codes "=.id=*") a && starts_with (codes "=poe-out=") b then
        let name := drop 6 a in
        match p !! name with
        | Some _ => (OK_REPLY, <[name := drop 9 b]> p)
        | None => ([[codes "!trap"]], p)
        end
      else if beq cmd (codes "/login") then (OK_REPLY, p)
      else ([[codes "!trap"]], p)
  | _ => ([[codes "!trap"]], p)
  end.

(** The sentence in what was heard. *)
Definition hear (b : bytes) : sentence :=
  match (read_sentence (S (length b)) (World {| inbox := b; outbox := [] |} tt [])).1 with
  | Ok words => words
  | _ => []
  end.
Definition say (reply : list sentence) : bytes :=
  match reply_bytes reply with Ok e => e | _ => [] end.

Record Switch := MkSwitch { heard : bytes; said : bytes; poe : ports }.

#[export] Instance Switch_Stream : Stream Switch := {|
  s_open t := (Ok tt, t);
  s_readexactly n t :=
    if len (said t) <? n then (Raise IncompleteReadError, MkSwitch (heard t) [] (poe t))
    else (Ok (slice (said t) 0 n), MkSwitch (heard t) (slice (said t) n (len (said t))) (poe t));
  s_write d t := MkSwitch (heard t ++ d) (said t) (poe t);
  s_drain t :=
    let (reply, p) := obey (poe t) (hear (heard t)) in
    (Ok tt, MkSwitch [] (said t ++ say reply) p);
  s_close t := t
|}.

#[export] Instance Switch_Laws : StreamLaws Switch.
Proof.
  refine {| s_pending := said; s_rest t := (heard t, poe t) |}.
  intros a b t E. cbn. rewrite E, len_app. pose proof (len_nonneg b).
  replace (len a + len b <? len a) with false by lia. eexists. split; [by rewrite slice_prefix|].
  cbn. split; [by apply (slice_suffix a b)|done].
Defined.

(** ** Plain words *)

Definition plain (s : list Z) : Prop := Forall (fun c => 0 <= c < 128) s /\ len s <= 1000.

Lemma utf8_ascii s : Forall (fun c => 0 <= c < 128) s -> utf8_encode s = Ok s.
Proof.
  induction 1 as [|c s Hc _ IH]; [done|]. cbn [utf8_encode]. unfold utf8_char.
  replace (c <? 0x80) with true by lia. cbn [res_bind]. by rewrite IH.
Qed.

Lemma encode_length_ok n : 0 <= n < 0x80 \/ 0x80 <= n < 0x4000 -> exists e, encode_length n = Ok e.
Proof.
  intros Hn. unfold encode_length, pack_be. destruct (Z.ltb_spec n 0x80).
  - replace (fits 1 n) with true by (symmetry; apply fits_spec; lia). by eexists.
  - replace (n <? 0x4000) with true by lia. rewrite (lor_low n 2 14 : _ -> _ -> Z.lor n 0x8000 = _) by lia.
    replace (fits 2 _) with true by (symmetry; apply fits_spec; lia). by eexists.
Qed.

(** A word with a fixed beginning and a plain end. *)
Lemma plain_sendable a s : plain s -> a <> [] -> Forall (fun c => 0 <= c < 128) a -> len a <= 1000 -> sendable (a ++ s).
Proof.
  intros [Hs Ls] Hne Ha La. assert (Has : Forall (fun c => 0 <= c < 128) (a ++ s)) by by apply Forall_app.
  split; [by destruct a|]. split; [eapply Forall_impl; [exact Has|]; intros c Hc; cbn in Hc; lia|].
  unfold encode_word. rewrite utf8_ascii by done. cbn [res_bind].
  pose proof (len_nonneg a). pose proof (len_nonneg s).
  destruct (encode_length_ok (len (a ++ s))) as [e ->]; [rewrite len_app; lia|]. by eexists.
Qed.

Lemma plain_nil : plain [].
Proof. split; [done|by vm_compute]. Qed.



(** Words written out in the code. *)
Ltac sendables :=
  repeat first
    [ apply Forall_nil_2
    | apply Forall_cons_2
    | apply plain_sendable; [done|done|by apply (bool_decide_unpack _)|vm_compute; discriminate]
    | (rewrite <- (app_nil_r (codes _)); apply plain_sendable;
        [exact plain_nil|done|by apply (bool_decide_unpack _)|vm_compute; discriminate]) ].

(** ** What the switch hears *)

Lemma encode_word_length word e : encode_word word = Ok e -> (1 <= length e)%nat.
Proof.
  unfold encode_word. intros E. destruct (utf8_encode word) as [p| |]; [|done..]. cbn [res_bind] in E.
  destruct (encode_length (len p)) as [l| |] eqn:El; [|done..]. injection E as <-. rewrite length_app.
  destruct l as [|x l]; [|cbn; lia]. exfalso.
  pose proof (read_length_encoded (T := Pipe) (Ob := unit) (len p) [] (len_nonneg p) El) as Hr.
  by destruct (Hr (World {| inbox := []; outbox := [] |} tt []) [] eq_refl) as (w' & Ew & _).
Qed.

Lemma sentence_bytes_length words e : sentence_bytes words = Ok e -> (length words < length e)%nat.
Proof.
  revert e. induction words as [|word words IH]; intros e E; [injection E as <-; cbn; lia|].
  cbn [sentence_bytes] in E. destruct (encode_word word) as [a| |] eqn:Ea; cbn [res_bind] in E; [|done..].
  destruct (sentence_bytes words) as [r| |]; [|done..]. injection E as <-.
  apply encode_word_length in Ea. specialize (IH r eq_refl). rewrite length_app. cbn. lia.
Qed.

Lemma hear_sent words e : Forall sendable words -> sentence_bytes words = Ok e -> hear e = words.
Proof.
  intros Hw E. unfold hear. apply sentence_bytes_length in E as Hl.
  pose proof (takes_sentence (T := Pipe) (Ob := unit) (S (length e)) words e Hw ltac:(lia) E) as Hr.
  destruct (Hr (World {| inbox := e; outbox := [] |} tt []) []) as (w' & -> & _); [|done].
  cbn. by rewrite app_nil_r.
Qed.

(** ** The controller's calls on the switch

  [switch_runs m c p a c' p']: on a quiet switch with the ports [p], in the
  controller's state [c], [m] returns [a] and leaves the switch quiet. *)

Definition switch_runs {A} (m : M Switch RouterOSController A) (c : RouterOSController) (p : ports) (a : A)
    (c' : RouterOSController) (p' : ports) : Prop :=
  forall w, tr w = MkSwitch [] [] p -> obj w = c ->
    exists w', m w = (Ok a, w') /\ tr w' = MkSwitch [] [] p' /\ obj w' = c'.

Lemma switch_ret {A} (a : A) c p : switch_runs (ret a) c p a c p.
Proof. intros w Et Eo. by exists w. Qed.

Lemma switch_put c' c p : switch_runs (put_obj c') c p tt c' p.
Proof. intros w Et Eo. by eexists. Qed.

Lemma switch_bind {A B} (m : M Switch RouterOSController A) (f : A -> M Switch RouterOSController B) c p a c1 p1 b c2 p2 :
  switch_runs m c p a c1 p1 -> switch_runs (f a) c1 p1 b c2 p2 -> switch_runs (bind m f) c p b c2 p2.
Proof.
  intros Hm Hf w Et Eo. destruct (Hm w Et Eo) as (w1 & E1 & T1 & O1). destruct (Hf w1 T1 O1) as (w2 & E2 & T2 & O2).
  exists w2. unfold bind. by rewrite E1.
Qed.

Lemma switch_get {B} (f : RouterOSController -> M Switch RouterOSController B) c p b c2 p2 :
  switch_runs (f c) c p b c2 p2 -> switch_runs (bind get_obj f) c p b c2 p2.
Proof. intros Hf w Et Eo. unfold bind, get_obj. rewrite Eo. by apply Hf. Qed.

Lemma send_heard words e h s p (w : world Switch RouterOSController) :
  sentence_bytes words = Ok e -> tr w = MkSwitch h s p ->
  exists w', send_sentence words w = (Ok tt, w') /\ obj w' = obj w
    /\ tr w' = (let (reply, p') := obey p (hear (h ++ e)) in MkSwitch [] (s ++ say reply) p').
Proof.
  revert e h w. unfold send_sentence. induction words as [|word words IH]; intros e h w E Et.
  - injection E as <-. unfold bind, foreach, ret, swrite, drain, stream_op. cbn. rewrite Et. cbn.
    destruct (obey p (hear (h ++ [0]))). eexists. by split_and!.
  - cbn [sentence_bytes] in E. destruct (encode_word word) as [a| |] eqn:Ea; cbn [res_bind] in E; [|done..].
    destruct (sentence_bytes words) as [r| |] eqn:Er; [|done..]. injection E as <-.
    destruct (IH r (h ++ a) (World (s_write a (tr w)) (obj w) (log w ++ [EvWrite a (Ok tt)])) eq_refl) as (w' & Ew & Ow & Tw).
    { cbn. by rewrite Et. }
    exists w'. rewrite app_assoc. split; [|by split]. rewrite <- Ew. unfold bind, lift, swrite. cbn [foreach]. by rewrite Ea.
Qed.

Lemma call_runs fuel words reply c p p' :
  Forall sendable words -> obey p words = (reply, p') -> well_formed reply ->
  (length reply < fuel)%nat -> Forall (fun s => (length s < fuel)%nat) reply ->
  switch_runs (call fuel words) c p reply c p'.
Proof.
  intros Hw Ho Hr Hf Hl w Et Eo. destruct (sentence_bytes_ok words Hw) as [e E].
  destruct (send_heard words e [] [] p w E Et) as (w1 & E1 & O1 & T1).
  cbn [app] in T1. rewrite (hear_sent words e Hw E), Ho in T1.
  destruct (reply_bytes_ok reply) as [b Eb]. { destruct Hr as [Hr _]. eapply Forall_impl; [exact Hr|]. by intros s []. }
  destruct (takes_response (Ob := RouterOSController) fuel reply b Hr Hf Hl Eb w1 []) as (w2 & E2 & P2 & R2 & O2).
  { rewrite T1. cbn. unfold say. by rewrite Eb, app_nil_r. }
  exists w2. unfold call, bind. rewrite E1, E2. split; [done|]. rewrite T1 in R2. cbn in P2, R2.
  destruct (tr w2) as [h s q]. cbn in P2, R2. simplify_eq. split; [done|]. congruence.
Qed.

Lemma ok_reply_wf : well_formed OK_REPLY.
Proof.
  split; [|by exists [], [codes "!done"]]. apply Forall_cons_2; [|apply Forall_nil_2]. split; [done|]. sendables.
Qed.

Lemma port_reply_wf name mode : plain name -> plain mode -> well_formed [port_sentence name mode; [codes "!done"]].
Proof.
  intros Hn Hm. split; [|exists [port_sentence name mode], [codes "!done"]; split_and!; [done..|by apply Forall_cons_2]].
  repeat apply Forall_cons_2; [..|apply Forall_nil_2]; (split; [done|]); unfold port_sentence; sendables.
Qed.

Section Controller.
Context (fuel : nat) (Hfuel : (8 <= fuel)%nat).
Variables (c : RouterOSController) (p : ports) (port mode : list Z).
Hypotheses (Huser : plain (ro_username c)) (Hpass : plain (ro_password c)) (Hport : plain port) (Hmode : plain mode).
Hypothesis Hat : p !! port = Some mode.

Lemma login_runs q : switch_runs (login fuel (ro_username c) (ro_password c)) c q tt c q.
Proof.
  unfold login. eapply switch_bind.
  - eapply call_runs; [sendables| |exact ok_reply_wf|cbn; lia|apply Forall_cons_2; [cbn; lia|apply Forall_nil_2]]; done || reflexivity.
  - cbn. apply switch_ret.
Qed.

Lemma connect_runs q : switch_runs (connect fuel) c q tt (set_conn true c) q.
Proof.
  unfold connect. apply switch_get. destruct (ro_conn c) eqn:Ec.
  - replace (set_conn true c) with c; [apply switch_ret|]. unfold set_conn. rewrite <- Ec. by destruct c.
  - eapply switch_bind; [|eapply switch_bind; [apply login_runs|apply switch_put]].
    intros w Et Eo. eexists. unfold try_except, stream_op. cbn. by rewrite Et.
Qed.

Lemma print_runs c' q m : plain m -> q !! port = Some m ->
  switch_runs (poe_print fuel port) c' q [port_sentence port m; [codes "!done"]] c' q.
Proof.
  intros Hm Hq. eapply call_runs; [sendables|unfold obey|by apply port_reply_wf|cbn; lia|].
  - rewrite starts_with_app. change (drop 6 (codes "?name=" ++ port)) with port. rewrite Hq. reflexivity.
  - repeat apply Forall_cons_2; [cbn; lia..|apply Forall_nil_2].
Qed.
(** What the controller makes of the reply to its print. *)
Lemma port_items m : parse_items [port_sentence port m; [codes "!done"]]
  = [<[codes "poe-out" := m]> (<[codes "name" := port]> (<[codes ".id" := codes "*" ++ port]> ∅))].
Proof. reflexivity. Qed.

Lemma set_runs q m new : plain m -> plain new -> q !! port = Some m ->
  switch_runs (set_poe fuel port new) c q tt (set_conn true c) (<[port := new]> q).
Proof.
  intros Hm Hnew Hq. unfold set_poe. eapply switch_bind; [apply connect_runs|]. eapply switch_bind; [by apply (print_runs _ q m)|].
  rewrite port_items. cbn iota. rewrite lookup_insert_ne, lookup_insert_ne, lookup_insert_eq by done.
  change (codes "*" ++ port) with (42 :: port). cbn iota.
  change (codes "=.id=" ++ 42 :: port) with (codes "=.id=*" ++ port).
  eapply switch_bind.
  { eapply call_runs; [sendables| |exact ok_reply_wf|cbn; lia|repeat apply Forall_cons_2; [cbn; lia..|apply Forall_nil_2]].
    unfold obey. rewrite !starts_with_app.
    change (drop 6 (codes "=.id=*" ++ port)) with port. change (drop 9 (codes "=poe-out=" ++ new)) with new.
    rewrite Hq. reflexivity. }
  apply switch_ret.
Qed.

Lemma get_runs q m : plain m -> q !! port = Some m -> switch_runs (get_poe_out fuel port) c q m (set_conn true c) q.
Proof.
  intros Hm Hq. unfold get_poe_out. eapply switch_bind; [apply connect_runs|]. eapply switch_bind; [by apply (print_runs _ q m)|].
  rewrite port_items. cbn iota.
  rewrite lookup_insert_eq. apply switch_ret.
Qed.
End Controller.

(** [n] times [power_off]. *)
Fixpoint offs (fuel : nat) (port : list Z) (n : nat) : M Switch RouterOSController unit :=
  match n with
  | O => ret tt
  | S n => let* _ := power_off fuel port in offs fuel port n
  end.

Section Cycle.
Context (fuel : nat) (Hfuel : (8 <= fuel)%nat).
Variables (c : RouterOSController) (p : ports) (port mode : list Z).
Hypotheses (Huser : plain (ro_username c)) (Hpass : plain (ro_password c)) (Hport : plain port) (Hmode : plain mode).
Hypothesis Hat : p !! port = Some mode.

(** The controller after the first [power_off]. *)
Definition remembering : RouterOSController := set_saved (<[port := mode]> (saved_poe_out c)) (set_conn true c).

Lemma plain_off : plain (codes "off").
Proof. split; [by apply (bool_decide_unpack _)|by vm_compute]. Qed.
Lemma plain_forced : plain (codes "forced-on").
Proof. split; [by apply (bool_decide_unpack _)|by vm_compute]. Qed.

Lemma off_runs : saved_poe_out c !! port = None -> switch_runs (power_off fuel port) c p tt remembering (<[port := codes "off"]> p).
Proof.
  intros Hs. unfold power_off. apply switch_get. rewrite Hs. eapply switch_bind.
  - eapply switch_bind; [by apply (get_runs fuel Hfuel c port Huser Hpass Hport p mode)|]. apply switch_get, switch_put.
  - apply (set_runs fuel Hfuel remembering port Huser Hpass Hport p mode); [done|exact plain_off|done].
Qed.

Lemma off_again_runs q m : plain m -> q !! port = Some m ->
  switch_runs (power_off fuel port) remembering q tt remembering (<[port := codes "off"]> q).
Proof.
  intros Hm Hq. unfold power_off. apply switch_get. cbn [remembering set_saved saved_poe_out]. rewrite lookup_insert_eq.
  eapply switch_bind; [apply switch_ret|].
  apply (set_runs fuel Hfuel remembering port Huser Hpass Hport q m); [done|exact plain_off|done].
Qed.

Lemma offs_runs n q m : plain m -> q !! port = Some m ->
  switch_runs (offs fuel port n) remembering q tt remembering (if decide (n = 0%nat) then q else <[port := codes "off"]> q).
Proof.
  revert q m. induction n as [|n IH]; intros q m Hm Hq; [apply switch_ret|]. cbn [offs].
  eapply switch_bind; [by eapply off_again_runs|]. destruct n; [apply switch_ret|].
  specialize (IH (<[port := codes "off"]> q) (codes "off") plain_off (lookup_insert_eq _ _ _)).
  cbn [decide] in IH. by rewrite insert_insert_eq in IH.
Qed.

Lemma on_runs q m : plain m -> q !! port = Some m ->
  switch_runs (power_on fuel port) remembering q tt (set_saved (delete port (saved_poe_out remembering)) remembering)
    (<[port := if beq mode (codes "off") then codes "forced-on" else mode]> q).
Proof.
  intros Hm Hq. unfold power_on. apply switch_get. cbn [remembering set_saved saved_poe_out]. rewrite lookup_insert_eq.
  change (default (codes "forced-on") (Some mode)) with mode.
  eapply switch_bind; [apply switch_put|].
  set (c2 := set_saved (delete port (<[port := mode]> (saved_poe_out c))) remembering).
  change c2 with (set_conn true c2) at 2.
  apply (set_runs fuel Hfuel c2 port Huser Hpass Hport q m); [done| |done].
  destruct (beq mode (codes "off")); [exact plain_forced|done].
Qed.
End Cycle.

(** ** On any switch *)

(** The word that sets a mode. *)
Definition mode_word (mode : list Z) (d : bytes) : Prop := encode_word (codes "=poe-out=" ++ mode) = Ok d.

Lemma utf8_encode_app a s q : Forall (fun c => 0 <= c < 128) a -> utf8_encode (a ++ s) = Ok q ->
  exists p, q = a ++ p /\ utf8_encode s = Ok p.
Proof.
  intros Ha. revert q. induction Ha as [|c a Hc _ IH]; intros q E; [by exists q|].
  cbn [app utf8_encode] in E. unfold utf8_char in E. replace (c <? 0x80) with true in E by lia. cbn [res_bind] in E.
  destruct (utf8_encode (a ++ s)) as [r| |]; [|done..]. injection E as <-. destruct (IH r eq_refl) as (p & -> & Ep).
  by exists p.
Qed.

Lemma utf8_encode_ascii s q : utf8_encode s = Ok q -> Forall (fun c => 0 <= c < 128) q -> s = q.
Proof.
  revert q. induction s as [|c s IH]; intros q E Hq; [by injection E|].
  cbn [utf8_encode] in E. destruct (utf8_char c) as [b| |] eqn:Eb; cbn [res_bind] in E; [|done..].
  destruct (utf8_encode s) as [r| |]; [|done..]. injection E as <-. apply Forall_app in Hq as [Hb Hr].
  assert (Hc : b = [c]); [|subst; cbn; f_equal; by apply IH].
  unfold utf8_char in Eb. destruct (Z.ltb_spec c 0x80); [by injection Eb|].
  destruct (Z.ltb_spec c 0x800); [injection Eb as <-; apply Forall_cons in Hb as [Hb _]; Z.to_euclidean_division_equations; lia|].
  destruct (_ && _); [done|]. destruct (Z.ltb_spec c 0x10000); injection Eb as <-; apply Forall_cons in Hb as [Hb _];
    Z.to_euclidean_division_equations; lia.
Qed.

(** Two encoded words are equal only if their payloads are. *)
Lemma encode_length_det n m l r p q : 0 <= n -> 0 <= m -> encode_length n = Ok l -> encode_length m = Ok r ->
  l ++ p = r ++ q -> p = q.
Proof.
  intros Hn Hm El Er E.
  pose proof (read_length_encoded (T := Pipe) (Ob := unit) n l Hn El) as Hl.
  pose proof (read_length_encoded (T := Pipe) (Ob := unit) m r Hm Er) as Hr.
  set (w := World {| inbox := l ++ p; outbox := [] |} tt []).
  destruct (Hl w p eq_refl) as (w1 & E1 & P1 & _). destruct (Hr w q E) as (w2 & E2 & P2 & _).
  rewrite E1 in E2. injection E2 as _ <-. by rewrite <- P1, <- P2.
Qed.

Lemma encode_word_det v w d : encode_word v = Ok d -> encode_word w = Ok d ->
  exists q, utf8_encode v = Ok q /\ utf8_encode w = Ok q.
Proof.
  unfold encode_word. intros Ev Ew. destruct (utf8_encode v) as [p| |]; [|done..]. destruct (utf8_encode w) as [q| |]; [|done..].
  cbn [res_bind] in Ev, Ew. destruct (encode_length (len p)) as [l| |] eqn:El; [|done..]. destruct (encode_length (len q)) as [r| |] eqn:Er; [|done..].
  injection Ev as <-. injection Ew as Ew. exists q. split; [|done]. f_equal.
  symmetry. by apply (encode_length_det (len q) (len p) r l); [apply len_nonneg..| | |].
Qed.

(** Words with another beginning are not mode words. *)
Lemma not_mode_word a s d mode : Forall (fun c => 0 <= c < 128) a -> take 3 a <> take 3 (codes "=poe-out=") -> (3 <= length a)%nat ->
  encode_word (a ++ s) = Ok d -> ~ mode_word mode d.
Proof.
  intros Ha Hne Hl E Em. destruct (encode_word_det _ _ _ E Em) as (q & Eq & Em').
  apply utf8_encode_app in Eq as (p & -> & _); [|done].
  apply utf8_encode_app in Em' as (p' & Ep & _); [|by apply (bool_decide_unpack _)].
  destruct a as [|x [|y [|z a]]]; cbn in Hl; try lia. injection Ep as -> -> -> _. done.
Qed.

Lemma mode_word_inj m m' d : Forall (fun c => 0 <= c < 128) m' ->
  encode_word (codes "=poe-out=" ++ m) = Ok d -> mode_word m' d -> m = m'.
Proof.
  intros Hm E Em. destruct (encode_word_det _ _ _ E Em) as (q & Eq & Em').
  apply utf8_encode_app in Eq as (p & -> & Ep); [|by apply (bool_decide_unpack _)].
  apply utf8_encode_app in Em' as (p' & Ep' & Em'); [|by apply (bool_decide_unpack _)].
  apply app_inv_head in Ep' as ->. rewrite utf8_ascii in Em' by done. injection Em' as ->.
  by apply utf8_encode_ascii.
Qed.

(** No mode of [bad] is set. *)
Definition spares (bad : list Z -> Prop) (d : bytes) : Prop := forall mode, bad mode -> ~ mode_word mode d.

Section AnySwitch.
Context {T : Type} `{Stream T} (fuel : nat) (bad : list Z -> Prop).
Abbreviation MR := (M T RouterOSController).

Lemma sends_readexactly n : sends (spares bad) (readexactly n : MR _).
Proof. intros w. unfold readexactly. destruct (s_readexactly n (tr w)). by eexists. Qed.

Lemma sends_stream_op {A} (f : T -> res A * T) : sends (spares bad) (stream_op f : MR A).
Proof. intros w. unfold stream_op. destruct (f (tr w)). exists []. by rewrite app_nil_r. Qed.

Lemma sends_swrite d : spares bad d -> sends (spares bad) (swrite d : MR _).
Proof. intros Hd w. eexists. split; [done|]. by constructor. Qed.

Lemma spares_end : spares bad [0].
Proof.
  intros mode _ Em. destruct (encode_word_det [] _ [0] eq_refl Em) as (q & [= <-] & E).
  apply utf8_encode_app in E as (p & E & _); [done|by apply (bool_decide_unpack _)].
Qed.

(** The words of which a call may consist. *)
Definition fine (word : list Z) : Prop := forall d, encode_word word = Ok d -> spares bad d.

Lemma fine_prefix (a : string) s :
  bool_decide (Forall (fun c => 0 <= c < 128) (codes a)) && bool_decide (take 3 (codes a) <> take 3 (codes "=poe-out="))
    && bool_decide (3 <= length (codes a))%nat = true ->
  fine (codes a ++ s).
Proof. intros Ha d E mode _. b2p. by apply (not_mode_word (codes a) s). Qed.

Lemma fine_codes (a : string) :
  bool_decide (Forall (fun c => 0 <= c < 128) (codes a)) && bool_decide (take 3 (codes a) <> take 3 (codes "=poe-out="))
    && bool_decide (3 <= length (codes a))%nat = true ->
  fine (codes a).
Proof. intros Ha. rewrite <- (app_nil_r (codes a)). by apply fine_prefix. Qed.

Lemma sends_call words : Forall fine words -> sends (spares bad) (call fuel words : MR _).
Proof.
  intros Hw. unfold call. apply sends_bind; [|intros _].
  - unfold send_sentence. apply sends_bind; [|intros _; apply sends_bind; [apply sends_swrite, spares_end|intros _; apply sends_stream_op]].
    induction Hw as [|word words Hword _ IH]; [apply sends_ret|]. cbn [foreach]. apply sends_bind.
    + intros w. unfold bind at 1, lift. destruct (encode_word word) as [d| |] eqn:E; [|by exists []; rewrite app_nil_r..].
      apply sends_bind; [by apply sends_swrite, Hword|]. intros. apply sends_ret.
    + intros [[]|?|r]; [exact IH|apply sends_ret|destruct r].
  - unfold read_response, response_body, read_sentence, sentence_body, read_word, read_length, byte_at.
    sends_go; apply sends_readexactly.
Qed.

Ltac fine_words := repeat first [apply Forall_nil_2 | apply Forall_cons_2]; first [by apply fine_codes | by apply fine_prefix | idtac].

Lemma sends_connect : sends (spares bad) (connect fuel : MR _).
Proof.
  unfold connect, login, login_legacy. sends_go; first [apply sends_stream_op | apply sends_call; fine_words | idtac].
Qed.

Lemma sends_print port : sends (spares bad) (poe_print fuel port : MR _).
Proof. apply sends_call. fine_words. Qed.

Lemma sends_set_poe port mode : fine (codes "=poe-out=" ++ mode) -> sends (spares bad) (set_poe fuel port mode : MR _).
Proof.
  intros Hm. unfold set_poe. apply sends_bind; [exact sends_connect|intros _].
  apply sends_bind; [apply sends_print|intros reply]. destruct (parse_items reply) as [|i _]; [apply sends_raise|].
  destruct (i !! codes ".id") as [[|d id]|]; [apply sends_raise| |apply sends_raise].
  apply sends_bind; [|intros r; destruct (trapped r); [apply sends_raise|apply sends_ret]].
  apply sends_call. fine_words. done.
Qed.

Lemma sends_get_poe_out port : sends (spares bad) (get_poe_out fuel port : MR _).
Proof.
  unfold get_poe_out. apply sends_bind; [exact sends_connect|intros _].
  apply sends_bind; [apply sends_print|intros reply]. destruct (parse_items reply); apply sends_ret.
Qed.

End AnySwitch.

(** Whatever the switch answers, refuses or leaves unanswered, and
  whatever modes were saved before: [power_on] never asks for [poe-out=off],
  so it cannot leave a port it was to start switched off, and [power_off] and
  its look-up of the mode never ask for anything but [poe-out=off]. *)
Theorem power_one_way {T} `{Stream T} fuel port :
  sends (spares (fun mode => mode = codes "off")) (power_on fuel port : M T _ _)
  /\ sends (spares (fun mode => mode <> codes "off")) (power_off fuel port : M T _ _).
Proof.
  assert (Hoff : Forall (fun c => 0 <= c < 128) (codes "off")) by by apply (bool_decide_unpack _).
  split.
  - unfold power_on. apply sends_bind; [apply sends_get_obj|intros c]. apply sends_bind; [apply sends_put_obj|intros _].
    apply sends_set_poe. intros d E mode -> Em. apply mode_word_inj with (m' := codes "off") in E; [|done..].
    destruct (beq _ (codes "off")) eqn:Eb; [by vm_compute in E|]. b2p. done.
  - unfold power_off. apply sends_bind; [apply sends_get_obj|intros c]. apply sends_bind; [|intros _].
    + destruct (saved_poe_out c !! port); [apply sends_ret|]. sends_go. apply sends_get_poe_out.
    + apply sends_set_poe. intros d E mode Hne Em. by apply Hne, (mode_word_inj mode (codes "off") d Hoff Em).
Qed.

(** After a refused call the switch's [!done] stays in the stream, and the
  next call takes it for its own reply. *)
Lemma trap_leaves_done :
  let reply := say [[codes "!trap"; codes "=message=failure"]; [codes "!done"]; port_sentence (codes "ether3") (codes "auto-on"); [codes "!done"]] in
  let w := World {| inbox := reply; outbox := [] |} (RouterOS [] [] true ∅) [] in
  let m := (let* _ := call 9 [codes "/login"] in poe_print 9 (codes "ether3")) in
  (m w).1 = Ok [[codes "!done"]].
Proof. by vm_compute. Qed.

Section Keeping.
Context {T : Type} `{Stream T} (P : RouterOSController -> Prop).
Abbreviation MR := (M T RouterOSController).

Lemma keeps_readexactly n : keeps P (readexactly n : MR _).
Proof. apply keeps_same. intros w. unfold readexactly. destruct (s_readexactly n (tr w)). by eexists. Qed.
Lemma keeps_swrite d : keeps P (swrite d : MR _).
Proof. apply keeps_same. intros w. by eexists. Qed.
Lemma keeps_stream_op {A} (f : T -> res A * T) : keeps P (stream_op f : MR _).
Proof. apply keeps_same. intros w. unfold stream_op. destruct (f (tr w)). exists []. by rewrite app_nil_r. Qed.
Lemma keeps_call fuel words : keeps P (call fuel words : MR _).
Proof.
  unfold call, send_sentence, read_response, response_body, read_sentence, sentence_body, read_word, read_length, byte_at, drain.
  keeps_go; first [apply keeps_readexactly | apply keeps_swrite | apply keeps_stream_op].
Qed.
End Keeping.

(** Whatever comes of it, [power_on] has forgotten the mode it was to restore. *)
Lemma power_on_forgets {T} `{Stream T} fuel port (w : world T RouterOSController) :
  saved_poe_out (obj (power_on fuel port w).2) !! port = None.
Proof.
  set (P := fun c => saved_poe_out c !! port = None).
  assert (Hset : forall mode, keeps P (set_poe fuel port mode : M T _ _)).
  { intros mode. unfold set_poe, connect, login, login_legacy, poe_print.
    keeps_go; first [apply keeps_call | apply keeps_stream_op | done]. }
  unfold power_on, bind at 1 2, get_obj, put_obj. set (o := set_saved _ _).
  assert (Ho : P o) by apply lookup_delete_eq.
  match goal with |- context [set_poe fuel port ?m] =>
    by destruct (Hset m o Ho (World (tr w) o (log w)) eq_refl) as (l & _ & Hl)
  end.
Qed.

(** C35. [power_off] followed by [power_on] on a PoE switch: whatever mode
  the port was in, and however many times [power_off] is repeated in between,
  every call succeeds; after the last [power_off] the port is off, and
  [power_on] gives it back the mode it had before the first one, except that a
  port that was off to begin with comes up [forced-on]; no other port of the
  switch ever changes, and the controller forgets what it had saved. *)
Theorem poe_off_on fuel c p port mode n w :
  (8 <= fuel)%nat -> plain (ro_username c) -> plain (ro_password c) -> plain port -> plain mode ->
  p !! port = Some mode -> saved_poe_out c !! port = None -> tr w = MkSwitch [] [] p -> obj w = c ->
  exists w1 w2,
    offs fuel port (S n) w = (Ok tt, w1) /\ poe (tr w1) = <[port := codes "off"]> p
    /\ power_on fuel port w1 = (Ok tt, w2)
    /\ poe (tr w2) = <[port := if beq mode (codes "off") then codes "forced-on" else mode]> p
    /\ saved_poe_out (obj w2) = saved_poe_out c.
Proof.
  intros Hfuel Hu Hp Hport Hmode Hat Hs Et Eo.
  assert (Hoffs : switch_runs (offs fuel port (S n)) c p tt (remembering c port mode) (<[port := codes "off"]> p)).
  { cbn [offs]. eapply switch_bind; [by apply off_runs|].
    pose proof (offs_runs fuel Hfuel c port mode Hu Hp Hport n (<[port := codes "off"]> p) (codes "off") plain_off (lookup_insert_eq _ _ _)) as Hn.
    rewrite insert_insert_eq in Hn. by case_decide. }
  destruct (Hoffs w Et Eo) as (w1 & E1 & T1 & O1).
  destruct (on_runs fuel Hfuel c port mode Hu Hp Hport Hmode (<[port := codes "off"]> p) (codes "off") plain_off (lookup_insert_eq _ _ _) w1 T1 O1)
    as (w2 & E2 & T2 & O2).
  exists w1, w2. rewrite T1, T2, O2. split_and!; [done..|cbn; by rewrite insert_insert_eq|].
  cbn. by apply delete_insert_id.
Qed.

Example demo_switch : Switch := MkSwitch [] [] (<[codes "ether3" := codes "auto-on"]> (<[codes "ether4" := codes "off"]> ∅)).
Example demo_controller : RouterOSController := RouterOS (codes "admin") [] false ∅.

Example poe_off_on_witness :
  exists w1 w2,
    offs 8 (codes "ether4") 2 (World demo_switch demo_controller []) = (Ok tt, w1)
    /\ poe (tr w1) = <[codes "ether4" := codes "off"]> (poe demo_switch)
    /\ power_on 8 (codes "ether4") w1 = (Ok tt, w2)
    /\ poe (tr w2) = <[codes "ether4" := codes "forced-on"]> (poe demo_switch)
    /\ saved_poe_out (obj w2) = saved_poe_out demo_controller.
Proof.
  apply (poe_off_on 8 demo_controller (poe demo_switch) (codes "ether4") (codes "off") 1); [lia|..];
    first [reflexivity | split; [by apply (bool_decide_unpack _)|by vm_compute]].
Defined.
