(* ===== verification/Lines.v ===== *)
(** * Transports over serial ports, RFC 2217 and sockets

  Models [src/src/defib/transport/serial.py], [rfc2217.py], [socket.py] and
  the macOS wrapper and factory of [serial_platform.py].  The pyserial port
  and the kernel's socket are classes of their own, [Port] and [Sock]: what
  they do is outside the program.  A method is a computation over the port
  whose object is the transport's own state (the overflow buffer, the saved
  timeouts) and whose log holds what the port delivered; times are in
  microseconds.  The methods that need no unbounded loop make instances of
  [Transport], which keep its laws.

  Opening a port or a socket ([create]) is a call of the library; a timeout of
  the asyncio guard counts as a result of the port's read. *)

From stdpp Require Import pretty.
From S2P Require Import Prelude Text Tftp Transport.

(** ** The port *)

(** [p_read size timeout guard]: at most [size] bytes for a local port; the
    RFC 2217 backend may return more.  [TimeoutError] stands for the asyncio
    guard and for [SerialTimeoutException]. *)
Class Port (P : Type) := {
  p_read : Z -> option Z -> option Z -> P -> res bytes * P;
  p_write : bytes -> option Z -> P -> res unit * P;
  p_in_waiting : P -> res Z * P;
  p_out_waiting : P -> res Z * P;
  p_reset_input : P -> res unit * P;
  p_set_baudrate : Z -> P -> res unit * P;
  p_set_dtr : bool -> P -> res unit * P;
  p_set_rts : bool -> P -> res unit * P;
  p_time : P -> Z * P;
  p_sleep : Z -> P -> P
}.

Section PortCalls.
Context {P Ob : Type} `{Port P}.

Definition port_op {A} (f : P -> res A * P) : M P Ob A := fun w =>
  let (r, p) := f (tr w) in (r, World p (obj w) (log w)).
Definition port_read (n : Z) (timeout guard : option Z) : M P Ob bytes := fun w =>
  let (r, p) := p_read n timeout guard (tr w) in (r, World p (obj w) (log w ++ [EvRead r])).
Definition port_write (d : bytes) (timeout : option Z) : M P Ob unit := fun w =>
  let (r, p) := p_write d timeout (tr w) in (r, World p (obj w) (log w ++ [EvWrite d r])).
Definition port_time : M P Ob Z := port_op (fun p => let (t, p) := p_time p in (Ok t, p)).
Definition port_sleep (d : Z) : M P Ob unit := port_op (fun p => (Ok tt, p_sleep d p)).

(** A method as the class [Transport] has it: the log is the caller's. *)
Definition method {A} (m : M P Ob A) (t : P * Ob) : res A * (P * Ob) :=
  let (r, w) := m (World (fst t) (snd t) []) in (r, (tr w, obj w)).

End PortCalls.

Definition is_TimeoutError (e : exn) : bool := bool_decide (e = TimeoutError).
Definition is_OSError (e : exn) : bool := bool_decide (e ∈ [OSError; TimeoutError]).

(** ** SerialTransport *)

(** The attributes of the port that the methods set and restore. *)
Record SerialState := MkSerial { port_timeout : option Z; port_write_timeout : option Z }.
Definition set_timeout (t : option Z) (s : SerialState) : SerialState := MkSerial t (port_write_timeout s).
Definition set_write_timeout (t : option Z) (s : SerialState) : SerialState := MkSerial (port_timeout s) t.

Definition OUTPUT_DRAIN_TIMEOUT : Z := 5000000.
Definition OUTPUT_DRAIN_POLL : Z := 10000.

Section Methods.
Context {P : Type} `{Port P}.
Abbreviation MP := (M P SerialState).

(** [try: m finally: f] *)
Definition finally {A} (m : MP A) (f : MP unit) : MP A := fun w =>
  let (r, w) := m w in
  match f w with
  | (Ok _, w) => (r, w)
  | (Raise e, w) => (Raise e, w)
  | (Diverge, w) => (Diverge, w)
  end.

Definition set_field (f : SerialState -> SerialState) : MP unit := let* s := get_obj in put_obj (f s).

Definition serial_read (size : Z) (tmo : option Z) : MP bytes :=
  let* s := get_obj in
  let old_timeout := port_timeout s in
  finally
    (let* _ := set_field (set_timeout tmo) in
     let guard := (fun t => t * 2 + 1000000) <$> tmo in
     let* data := try_except (port_read size tmo guard) is_TimeoutError (fun _ => raise TransportTimeout) in
     if beq data [] && bool_decide (tmo <> None) then raise TransportTimeout else ret data)
    (set_field (set_timeout old_timeout)).

Definition serial_write (data : bytes) : MP unit :=
  let* s := get_obj in
  let old_wt := port_write_timeout s in
  let* _ := set_field (set_write_timeout (Some 5000000)) in
  finally
    (try_except (port_write data (Some 5000000)) is_TimeoutError (fun _ => raise TransportTimeout))
    (set_field (set_write_timeout old_wt)).

Definition serial_flush_input : MP unit := port_op p_reset_input.

Definition drain_body (deadline : Z) (_ : unit) : MP (ctl unit unit) :=
  let* queued := try_except (port_op p_out_waiting) is_OSError (fun _ => raise TransportError) in
  if queued <=? 0 then ret (Rtn tt) else
  let* now := port_time in
  if deadline <=? now then raise TransportTimeout else
  let* _ := port_sleep OUTPUT_DRAIN_POLL in
  ret (Next tt).

Definition serial_flush_output (fuel : nat) : MP unit :=
  let* now := port_time in
  let deadline := now + OUTPUT_DRAIN_TIMEOUT in
  let* _ := while fuel (drain_body deadline) tt in
  ret tt.

Definition serial_set_baudrate (baud : Z) : MP unit := port_op (p_set_baudrate baud).
Definition serial_bytes_waiting : MP Z := port_op p_in_waiting.

End Methods.

(** ** MacOSSerialTransport *)

Record MacState := MkMac { mac_serial : SerialState; ack_correction : bool; in_handshake : bool }.

(** [data.replace(b"\x55", b"\xaa")] *)
Definition correct_acks (data : bytes) : bytes := (fun b => if b =? 0x55 then 0xAA else b) <$> data.

Section Methods.
Context {P : Type} `{Port P}.

(** A method of the base class, on the base's part of the state. *)
Definition super {A} (m : M P SerialState A) : M P MacState A := fun w =>
  let (r, w') := m (World (tr w) (mac_serial (obj w)) (log w)) in
  (r, World (tr w') (MkMac (obj w') (ack_correction (obj w)) (in_handshake (obj w))) (log w')).

Definition macos_read (size : Z) (tmo : option Z) : M P MacState bytes :=
  let* data := super (serial_read size tmo) in
  let* s := get_obj in
  if ack_correction s && in_handshake s then ret (correct_acks data) else ret data.

Definition set_handshake_phase (active : bool) : M P MacState unit :=
  let* s := get_obj in put_obj (MkMac (mac_serial s) (ack_correction s) active).

(** [__init__]: what a new transport starts with. *)
Definition macos_init (ack_correction : bool) : MacState := MkMac (MkSerial None None) ack_correction true.

(** What [create] does to the port it has opened. *)
Definition macos_quietly (m : M P MacState unit) : M P MacState unit := try_except m is_Exception (fun _ => ret tt).
Definition macos_drained : M P MacState unit := macos_quietly (let* _ := port_read 4096 (Some 100000) None in ret tt).
Definition macos_set_up : M P MacState unit :=
  let* _ := macos_drained in
  let* _ := macos_quietly (
    let* _ := port_op (p_set_dtr false) in
    let* _ := port_op (p_set_rts false) in
    let* _ := port_sleep 50000 in
    let* _ := port_op (p_set_dtr true) in
    let* _ := port_op (p_set_rts true) in
    port_sleep 50000) in
  macos_drained.

End Methods.

(** ** Rfc2217Transport *)

(** The object is the overflow buffer. *)
Section Methods.
Context {P : Type} `{Port P}.
Abbreviation MP := (M P bytes).

Definition PYSERIAL_READ_QUANTUM : Z := 10000.

(** State of the loop: [buf]. *)
Definition rfc2217_read_body (size : Z) (deadline : option Z) (buf : bytes) : MP (ctl bytes bytes) :=
  let remaining := size - len buf in
  if remaining <=? 0 then ret (Rtn buf) else
  let* chunk := port_read remaining (Some PYSERIAL_READ_QUANTUM) None in
  let* buf' :=
    if beq chunk [] then ret buf else
    if remaining <? len chunk then
      let* over := get_obj in
      let* _ := put_obj (over ++ slice chunk remaining (len chunk)) in
      ret (buf ++ slice chunk 0 remaining)
    else ret (buf ++ chunk) in
  if negb (beq chunk []) && (size <=? len buf') then ret (Rtn buf') else
  match deadline with
  | None => ret (Next buf')
  | Some deadline =>
      let* now := port_time in
      if deadline <=? now then
        if beq buf' [] then raise TransportTimeout else ret (Rtn buf')
      else ret (Next buf')
  end.

Definition rfc2217_read (fuel : nat) (size : Z) (tmo : option Z) : MP bytes :=
  let* deadline :=
    match tmo with
    | None => ret None
    | Some t => let* now := port_time in ret (Some (now + t))
    end in
  let* over := get_obj in
  let take := Z.min size (len over) in
  let buf := slice over 0 take in
  let* _ := put_obj (slice over take (len over)) in
  if negb (beq over []) && (size <=? len buf) then ret buf else
  let* c := while fuel (rfc2217_read_body size deadline) buf in
  match c with
  | Rtn b | Next b | Brk b => ret b
  end.

Definition rfc2217_unread (data : bytes) : MP unit :=
  let* over := get_obj in
  put_obj (data ++ over).

Definition rfc2217_bytes_waiting : MP Z :=
  let* over := get_obj in
  let* n := port_op p_in_waiting in
  ret (len over + n).

Definition rfc2217_write (data : bytes) : MP unit := port_write data None.

Definition rfc2217_flush_input : MP unit :=
  let* _ := put_obj [] in
  port_op p_reset_input.

Definition rfc2217_flush_output : MP unit := ret tt.
Definition rfc2217_set_baudrate (baud : Z) : MP unit := port_op (p_set_baudrate baud).
Definition rfc2217_set_dtr (active : bool) : MP unit := port_op (p_set_dtr active).
Definition rfc2217_set_rts (active : bool) : MP unit := port_op (p_set_rts active).

End Methods.

(** ** SocketTransport *)

(** [k_recv n (Some t)] waits for [t] at most; [k_recv_now] does not wait and
    raises [OSError] when there is nothing ([BlockingIOError]). *)
Class Sock (K : Type) := {
  k_recv : Z -> option Z -> K -> res bytes * K;
  k_recv_now : Z -> K -> res bytes * K;
  k_sendall : bytes -> K -> res unit * K;
  k_time : K -> Z * K;
  k_sleep : Z -> K -> K
}.

Definition sock_method {K A} (m : M K bytes A) (t : K * bytes) : res A * (K * bytes) :=
  let (r, w) := m (World (fst t) (snd t) []) in (r, (tr w, obj w)).

Section Methods.
Context {K : Type} `{Sock K}.
Abbreviation MK := (M K bytes).

Definition socket_recv (n : Z) (tmo : option Z) : MK bytes := fun w =>
  let (r, k) := k_recv n tmo (tr w) in (r, World k (obj w) (log w ++ [EvRead r])).
Definition socket_recv_now (n : Z) : MK bytes := fun w =>
  let (r, k) := k_recv_now n (tr w) in (r, World k (obj w) (log w ++ [EvRead r])).
Definition socket_sendall (d : bytes) : MK unit := fun w =>
  let (r, k) := k_sendall d (tr w) in (r, World k (obj w) (log w ++ [EvWrite d r])).

Definition socket_read (size : Z) (tmo : option Z) : MK bytes :=
  let* buf := get_obj in
  if negb (beq buf []) then
    let chunk := slice buf 0 size in
    let* _ := put_obj (drop (length chunk) buf) in
    ret chunk
  else
    let* data := try_except (socket_recv size tmo) is_OSError
      (fun e => if is_TimeoutError e then raise TransportTimeout else raise TransportError) in
    if beq data [] then raise TransportError else ret data.

Definition socket_write (data : bytes) : MK unit :=
  try_except (socket_sendall data) is_OSError (fun _ => raise TransportError).

Definition socket_flush_body (_ : unit) : MK (ctl unit unit) :=
  let* data := try_except (let* d := socket_recv_now 4096 in ret (Some d)) is_OSError (fun _ => ret None) in
  match data with
  | None | Some [] => ret (Brk tt)
  | Some _ => ret (Next tt)
  end.

Definition socket_flush_input (fuel : nat) : MK unit :=
  let* _ := put_obj [] in
  let* _ := while fuel socket_flush_body tt in
  ret tt.

Definition socket_flush_output : MK unit := ret tt.

Definition socket_bytes_waiting : MK Z :=
  let* data := try_except (let* d := socket_recv_now 65536 in ret (Some d)) is_OSError (fun _ => ret None) in
  let* _ :=
    match data with
    | None | Some [] => ret tt
    | Some d => let* buf := get_obj in put_obj (buf ++ d)
    end in
  let* buf := get_obj in
  ret (len buf).

End Methods.

(** ** The factory *)

Inductive target :=
  | UnixSocket (path : list Z)
  | TcpSocket (host : list Z) (port : Z)
  | Rfc2217At (url : list Z)
  | RackPod (host : list Z) (bridge_port api_port : Z)
  | MacPort (device : list Z)
  | SerialPort (device : list Z).

(** [text.rpartition(sep)]: what precedes and follows the last [sep]. *)
Fixpoint rpartition_on (sep : Z) (l : list Z) : list Z * list Z :=
  match l with
  | [] => ([], [])
  | c :: l' =>
      if existsb (fun x => x =? sep) l' then let (a, b) := rpartition_on sep l' in (c :: a, b)
      else if c =? sep then ([], l')
      else ([], c :: l')
  end.

Definition to_int (l : list Z) : res Z := of_opt TransportError (int10 l).

(** The [api=] of the query: the last one counts. *)
Fixpoint api_port_of (kvs : list (list Z)) (api_port : Z) : res Z :=
  match kvs with
  | [] => Ok api_port
  | kv :: kvs =>
      if starts_with (codes "api=") kv then
        let! p := to_int (drop 4 kv) in api_port_of kvs p
      else api_port_of kvs api_port
  end.

Definition rack_target (endpoint : list Z) : res target :=
  let! (endpoint, api_port) :=
    match partition_on 63 endpoint with
    | Some (e, query) => let! p := api_port_of (split_on 38 query) 8080 in Ok (e, p)
    | None => Ok (endpoint, 8080)
    end in
  let! (host, bridge_port) :=
    match partition_on 58 endpoint with
    | Some (h, bp) => let! p := to_int bp in Ok (h, p)
    | None => Ok (endpoint, 9000)
    end in
  if beq host [] then Raise TransportError else Ok (RackPod host bridge_port api_port).

(** [create_transport], up to the opening of the transport it decides on. *)
Definition create_transport (device : list Z) (platform : list Z) : res target :=
  if starts_with (codes "socket://") device then Ok (UnixSocket (drop 9 device))
  else if starts_with (codes "tcp://") device then
    let (host, port_str) := rpartition_on 58 (drop 6 device) in
    if beq host [] || beq port_str [] then Raise TransportError else
    let! port_num := to_int port_str in
    Ok (TcpSocket host port_num)
  else if starts_with (codes "rfc2217://") device then Ok (Rfc2217At device)
  else if starts_with (codes "rack://") device then rack_target (drop 7 device)
  else if beq platform (codes "darwin") then Ok (MacPort device)
  else Ok (SerialPort device).

Definition normalize_port_name (platform device : list Z) : list Z :=
  if beq platform (codes "win32") && starts_with (codes "COM") (upper_codes device) then
    let port_num := drop 3 device in
    if negb (beq port_num []) && forallb is_digit_code port_num
       && match int10 port_num with Some n => 10 <=? n | None => false end
    then codes "\\.\" ++ upper_codes device else device
  else device.


(** ** What the library promises *)

(** Time on a port: [p_now] never goes back, a sleep lasts, and every call
    returns. *)
Class PortLaws (P : Type) `{Port P} := {
  p_now : P -> Z;
  p_time_law p : p_now p <= fst (p_time p) <= p_now (snd (p_time p));
  p_sleep_law d p : 0 <= d -> p_now p + d <= p_now (p_sleep d p);
  p_read_time n t g p : p_now p <= p_now (snd (p_read n t g p));
  p_out_time p : p_now p <= p_now (snd (p_out_waiting p));
  p_read_ret n t g p : fst (p_read n t g p) <> Diverge;
  p_write_ret d t p : fst (p_write d t p) <> Diverge;
  p_in_waiting_ret p : fst (p_in_waiting p) <> Diverge;
  p_out_waiting_ret p : fst (p_out_waiting p) <> Diverge;
  p_reset_input_ret p : fst (p_reset_input p) <> Diverge;
  p_set_baudrate_ret b p : fst (p_set_baudrate b p) <> Diverge
}.

(** A local port returns at most what was asked for. *)
Class LocalPort (P : Type) `{Port P} :=
  local_read n t g p d p' : p_read n t g p = (Ok d, p') -> 0 <= n -> len d <= n.

(** The RFC 2217 backend returns short only after its timeout, and its errors
    are the library's. *)
Class RemotePort (P : Type) `{PortLaws P} := {
  remote_read n q p d p' : p_read n (Some q) None p = (Ok d, p') -> len d < n -> p_now p + q <= p_now p';
  remote_error n t g p e : fst (p_read n t g p) = Raise e -> e <> TransportTimeout
}.

(** ** Loops against the clock *)

Section Paced.
Context {P Ob : Type} `{PortLaws P}.

(** A loop each of whose turns begins before [dl] and lasts [q] at least. *)
Lemma while_paced {S R} (body : S -> M P Ob (ctl S R)) q dl (Inv : S -> world P Ob -> Prop) :
  0 < q ->
  (forall s w, Inv s w -> fst (body s w) <> Diverge) ->
  (forall s w s' w', Inv s w -> body s w = (Ok (Next s'), w') -> Inv s' w' /\ p_now (tr w) < dl /\ p_now (tr w) + q <= p_now (tr w')) ->
  forall fuel s w, Inv s w -> dl - p_now (tr w) <= q * (Z.of_nat fuel - 1) -> (0 < fuel)%nat -> fst (while fuel body s w) <> Diverge.
Proof.
  intros Hq Hret Hstep fuel. induction fuel as [|fuel IH]; intros s w Hinv Hdl Hf; [lia|]. cbn [while]. unfold bind.
  pose proof (Hret s w Hinv) as Hr. destruct (body s w) as [[[s'|s'|r]|e|] w'] eqn:E; cbn; try done.
  destruct (Hstep _ _ _ _ Hinv E) as (Hinv' & Hlt & Hle). apply IH; [done|lia|nia].
Qed.

Lemma port_time_now (w : world P Ob) z w' : port_time w = (Ok z, w') -> p_now (tr w) <= z <= p_now (tr w').
Proof.
  unfold port_time, port_op. pose proof (p_time_law (tr w)). destruct (p_time (tr w)) as [t p]. by intros [= -> <-].
Qed.

End Paced.

(** ** flush_output of a serial port *)

Section Drain.
Context {P : Type} `{PortLaws P}.

Lemma drain_body_cases dl u (w : world P SerialState) :
  match drain_body dl u w with
  | (Ok (Next _), w') => p_now (tr w) < dl /\ p_now (tr w) + OUTPUT_DRAIN_POLL <= p_now (tr w')
  | (Ok (Rtn _), w') => exists p n, tr w' = snd (p_out_waiting p) /\ fst (p_out_waiting p) = Ok n /\ n <= 0
  | (Ok (Brk _), _) | (Diverge, _) => False
  | (Raise e, w') => e = TransportTimeout -> (exists p, fst (p_out_waiting p) = Raise TransportTimeout) \/ dl <= p_now (tr w')
  end.
Proof.
  unfold drain_body, bind, try_except, port_op.
  pose proof (p_out_waiting_ret (tr w)) as Hret. pose proof (p_out_time (tr w)) as Ht.
  destruct (p_out_waiting (tr w)) as [[n|e|] p] eqn:E; cbn in *; [|destruct (is_OSError e) eqn:Ee; cbn; [done|]|done].
  - destruct (Z.leb_spec n 0); cbn. { exists (tr w), n. by rewrite E. }
    pose proof (p_time_law p). unfold port_time, port_op. cbn. destruct (p_time p) as [z p2]. cbn in *.
    destruct (Z.leb_spec dl z); cbn; [lia|]. pose proof (p_sleep_law OUTPUT_DRAIN_POLL p2 ltac:(done)). lia.
  - intros ->. left. exists (tr w). by rewrite E.
Qed.

Lemma drain_ends fuel dl (w : world P SerialState) :
  dl - p_now (tr w) <= OUTPUT_DRAIN_TIMEOUT -> (502 <= fuel)%nat -> fst (while fuel (drain_body dl) tt w) <> Diverge.
Proof.
  intros Hdl Hf. apply (while_paced _ OUTPUT_DRAIN_POLL dl (fun _ _ => True)); [done| | |done| |lia].
  - intros [] v _. pose proof (drain_body_cases dl tt v). by destruct (drain_body dl tt v) as [[[]|e|] ?].
  - intros [] v s' v' _ E. pose proof (drain_body_cases dl tt v) as Hc. by rewrite E in Hc.
  - unfold OUTPUT_DRAIN_TIMEOUT, OUTPUT_DRAIN_POLL in *. lia.
Qed.

(** [SerialTransport.flush_output] against any port whose clock goes on:
  it always comes to an end, within 502 looks at the queue.  It returns only
  when the port has just reported that nothing is queued any more, so no byte
  is thrown away or left behind, and it gives up with [TransportTimeout]
  only when the five seconds have passed (unless the port itself failed with
  that error). *)
Theorem serial_flush_output_waits fuel (w : world P SerialState) :
  (502 <= fuel)%nat ->
  match serial_flush_output fuel w with
  | (Ok _, w') => exists p n, tr w' = snd (p_out_waiting p) /\ fst (p_out_waiting p) = Ok n /\ n <= 0
  | (Raise e, w') => e = TransportTimeout ->
      (exists p, fst (p_out_waiting p) = Raise TransportTimeout) \/ p_now (tr w) + OUTPUT_DRAIN_TIMEOUT <= p_now (tr w')
  | (Diverge, _) => False
  end.
Proof.
  intros Hf. unfold serial_flush_output, bind.
  destruct (port_time w) as [[z|e|] w1] eqn:Et; [|by unfold port_time, port_op in Et; destruct (p_time _)..].
  apply port_time_now in Et as [Hz1 Hz2]. set (dl := z + OUTPUT_DRAIN_TIMEOUT).
  assert (Hend : fst (while fuel (drain_body dl) tt w1) <> Diverge) by (apply drain_ends; [unfold dl; lia|done]).
  assert (Hpost : forall fuel v, match while fuel (drain_body dl) tt v with
    | (Ok _, w') => exists p n, tr w' = snd (p_out_waiting p) /\ fst (p_out_waiting p) = Ok n /\ n <= 0
    | (Raise e, w') => e = TransportTimeout -> (exists p, fst (p_out_waiting p) = Raise TransportTimeout) \/ dl <= p_now (tr w')
    | (Diverge, _) => True end).
  { clear. induction fuel as [|fuel IH]; intros v; [done|]. cbn [while]. unfold bind.
    pose proof (drain_body_cases dl tt v) as Hc. destruct (drain_body dl tt v) as [[[[]|[]|[]]|e|] v']; try done. apply IH. }
  specialize (Hpost fuel w1). destruct (while fuel _ tt w1) as [[c|e|] w2]; cbn in *; [done| |done].
  intros He. destruct (Hpost He) as [?|Hdl]; [by left|right]. unfold dl in Hdl. lia.
Qed.

End Drain.

(** ** The read of RFC 2217 *)

Section RfcRead.
Context {P : Type} `{RemotePort P}.

(** The look at the clock that ends a turn. *)
Definition look (dl : Z) (buf : bytes) : M P bytes (ctl bytes bytes) :=
  let* now := port_time in
  if dl <=? now then if beq buf [] then raise TransportTimeout else ret (Rtn buf) else ret (Next buf).

Lemma look_cases dl buf (w : world P bytes) :
  obj w = [] ->
  let '(r, w') := look dl buf w in
  log w' = log w /\ obj w' = [] /\ p_now (tr w) <= p_now (tr w') /\
  match r with
  | Ok (Rtn b) => b = buf /\ 0 < len buf /\ dl <= p_now (tr w')
  | Ok (Next b) => b = buf /\ p_now (tr w) < dl
  | Raise e => e = TransportTimeout /\ buf = [] /\ dl <= p_now (tr w')
  | _ => False
  end.
Proof.
  intros Ho. unfold look, bind. destruct (port_time w) as [[z|e|] w1] eqn:Et; [|by unfold port_time, port_op in Et; destruct (p_time _)..].
  apply port_time_now in Et as Hz. assert (Hw : log w1 = log w /\ obj w1 = obj w).
  { unfold port_time, port_op in Et. destruct (p_time (tr w)). by injection Et as <- <-. }
  destruct Hw as [Hl1 Ho1]. rewrite Ho in Ho1.
  destruct (Z.leb_spec dl z); [destruct (beq buf []) eqn:Eb; b2p|]; cbn; split_and!; try done; try lia.
  destruct buf; [done|]. rewrite len_cons. pose proof (len_nonneg buf). lia.
Qed.

(** One turn of the loop, from an empty overflow buffer: nothing the port
    delivers is lost, repeated or reordered. *)
Definition turn_ends size dl buf (w w' : world P bytes) (r : res (ctl bytes bytes)) : Prop :=
  exists l, log w' = log w ++ l /\
  match r with
  | Ok (Rtn b) => buf ++ reads l = b ++ obj w' /\ (len b = size \/ (0 < len b < size /\ dl <= p_now (tr w')))
  | Ok (Next b) => b = buf ++ reads l /\ obj w' = [] /\ len b <= size /\ p_now (tr w) < dl /\ p_now (tr w) + PYSERIAL_READ_QUANTUM <= p_now (tr w')
  | Ok (Brk _) => False
  | Raise e => e = TransportTimeout -> buf ++ reads l = [] /\ obj w' = [] /\ dl <= p_now (tr w')
  | Diverge => False
  end.

Lemma turn_look size dl buf chunk w p r w' :
  obj w = [] -> len (buf ++ chunk) < size -> p_now (tr w) + PYSERIAL_READ_QUANTUM <= p_now p ->
  look dl (buf ++ chunk) (World p (obj w) (log w ++ [EvRead (Ok chunk)])) = (r, w') -> turn_ends size dl buf w w' r.
Proof.
  intros Ho Hlen Hq E. pose proof (look_cases dl (buf ++ chunk) (World p (obj w) (log w ++ [EvRead (Ok chunk)])) Ho) as Hc.
  rewrite E in Hc. destruct Hc as (Hl & Ho' & Ht & Hr). exists [EvRead (Ok chunk)]. split; [done|].
  change (reads [EvRead (Ok chunk)]) with (chunk ++ []). rewrite app_nil_r. cbn in Ht. unfold PYSERIAL_READ_QUANTUM in *.
  destruct r as [[b|b|b]|e|]; cbn in Hr; try done.
  - destruct Hr as [-> Hr]. split_and!; [done..|lia|lia|lia].
  - destruct Hr as (-> & Hp & Hr). rewrite Ho', app_nil_r. split; [done|]. right. lia.
  - destruct Hr as (-> & Hb & Hr). intros _. by rewrite Hb.
Qed.

Lemma read_body_cases size dl buf (w : world P bytes) r w' :
  obj w = [] -> len buf <= size -> rfc2217_read_body size (Some dl) buf w = (r, w') -> turn_ends size dl buf w w' r.
Proof.
  intros Ho Hb. unfold rfc2217_read_body. destruct (Z.leb_spec (size - len buf) 0) as [Hle|Hrem].
  { intros [= <- <-]. exists []. cbn. rewrite !app_nil_r, Ho, app_nil_r. split_and!; [done..|]. left. lia. }
  unfold bind at 1, port_read. remember (size - len buf) as rem.
  pose proof (p_read_ret rem (Some PYSERIAL_READ_QUANTUM) None (tr w)) as Hret.
  pose proof (remote_read rem PYSERIAL_READ_QUANTUM (tr w)) as Hq.
  pose proof (remote_error rem (Some PYSERIAL_READ_QUANTUM) None (tr w)) as He.
  destruct (p_read rem (Some PYSERIAL_READ_QUANTUM) None (tr w)) as [[chunk|e|] p]; cbn in Hret, Hq, He; [| |done].
  2: { intros [= <- <-]. eexists. split; [done|]. intros ->. by destruct (He _ eq_refl). }
  specialize (Hq chunk p eq_refl). pose proof (len_nonneg buf).
  destruct (beq chunk []) eqn:Ec.
  { b2p. subst chunk. rewrite len_nil in Hq. intros E.
    apply (turn_look size dl buf [] w p); [done|rewrite app_nil_r; lia|by apply Hq|by rewrite app_nil_r]. }
  b2p. assert (0 < len chunk) by (destruct chunk; [done|rewrite len_cons; pose proof (len_nonneg chunk); lia]).
  destruct (Z.ltb_spec rem (len chunk)) as [Hover|Hfit].
  - assert (Hfull : len (buf ++ slice chunk 0 rem) = size) by (rewrite len_app, len_slice by lia; lia).
    unfold bind, put_obj, get_obj. cbn. replace (size <=? len (buf ++ slice chunk 0 rem)) with true by lia.
    intros [= <- <-]. eexists. split; [done|]. cbn. rewrite Ho, app_nil_r, <- app_assoc. split; [|by left].
    by rewrite app_nil_l, (slice_split chunk 0 rem (len chunk)), slice_all by lia.
  - destruct (Z.leb_spec size (len (buf ++ chunk))) as [Hfull|Hshort]; rewrite len_app in *.
    + unfold bind. cbn. replace (size <=? len (buf ++ chunk)) with true by (rewrite len_app; lia).
      intros [= <- <-]. eexists. split; [done|]. cbn. rewrite Ho, !app_nil_r. split; [done|]. left. rewrite len_app. lia.
    + unfold bind at 1. cbn. replace (size <=? len (buf ++ chunk)) with false by (rewrite len_app; lia).
      intros E. apply (turn_look size dl buf chunk w p); [done|rewrite len_app; lia|apply Hq; lia|exact E].
Qed.

(** The whole loop. *)
Lemma rfc2217_read_loop size dl fuel : forall buf (w : world P bytes) r w',
  obj w = [] -> len buf <= size -> dl - p_now (tr w) <= PYSERIAL_READ_QUANTUM * (Z.of_nat fuel - 1) -> (0 < fuel)%nat ->
  while fuel (rfc2217_read_body size (Some dl)) buf w = (r, w') ->
  exists l, log w' = log w ++ l /\
  match r with
  | Ok (Rtn b) => buf ++ reads l = b ++ obj w' /\ (len b = size \/ (0 < len b < size /\ dl <= p_now (tr w')))
  | Ok _ | Diverge => False
  | Raise e => e = TransportTimeout -> buf ++ reads l = [] /\ obj w' = [] /\ dl <= p_now (tr w')
  end.
Proof.
  induction fuel as [|fuel IH]; intros buf w r w' Ho Hb Hdl Hf; [lia|]. cbn [while]. unfold bind.
  destruct (rfc2217_read_body size (Some dl) buf w) as [r1 w1] eqn:E.
  apply read_body_cases in E as (l & Hl & Hr); [|done..].
  destruct r1 as [[b|b|b]|e|]; [|done|intros [= <- <-]; by exists l..|done].
  destruct Hr as (-> & Ho1 & Hb1 & Hlt & Hq). intros E2.
  apply IH in E2 as (l2 & Hl2 & Hr2); [|done|done|unfold PYSERIAL_READ_QUANTUM in *; lia|unfold PYSERIAL_READ_QUANTUM in *; lia].
  exists (l ++ l2). rewrite Hl2, Hl, app_assoc, reads_app. split; [done|]. by rewrite app_assoc.
Qed.

(** C33. [Rfc2217Transport.read] with a timeout, on any port whose clock goes
  on and whatever chunks the backend hands out, larger ones than asked for
  included: the read always comes to an end.  What it returns, followed by
  the overflow buffer it leaves, is the overflow buffer it found followed by
  what the port delivered, in order, so no byte of the line is lost, repeated
  or reordered from one read to the next; it returns exactly [size] bytes, or
  fewer (but at least one) only once the timeout has passed; and when it raises
  [TransportTimeout] the timeout has passed and nothing had arrived. *)
Theorem rfc2217_read_contract fuel size tmo (w : world P bytes) :
  0 < size -> 0 <= tmo -> tmo < PYSERIAL_READ_QUANTUM * (Z.of_nat fuel - 1) ->
  let '(r, w') := rfc2217_read fuel size (Some tmo) w in
  exists l, log w' = log w ++ l /\
  match r with
  | Ok d => obj w ++ reads l = d ++ obj w' /\ (len d = size \/ (0 < len d < size /\ p_now (tr w) + tmo <= p_now (tr w')))
  | Raise e => e = TransportTimeout -> obj w ++ reads l = [] /\ obj w' = [] /\ p_now (tr w) + tmo <= p_now (tr w')
  | Diverge => False
  end.
Proof.
  intros Hs Ht Hf. unfold rfc2217_read, bind at 1 2.
  destruct (port_time w) as [[z|e|] w1] eqn:Et; [|by unfold port_time, port_op in Et; destruct (p_time _)..].
  apply port_time_now in Et as Hz. assert (Hw : log w1 = log w /\ obj w1 = obj w).
  { unfold port_time, port_op in Et. destruct (p_time (tr w)). by injection Et as <- <-. }
  destruct Hw as [Hl1 Ho1]. unfold bind, ret, get_obj, put_obj. rewrite Ho1. set (over := obj w).
  pose proof (len_nonneg over) as Hover. cbn zeta.
  destruct (Z.leb_spec size (len over)) as [Henough|Hfew].
  - rewrite Z.min_l by done. assert (Hlen : len (slice over 0 size) = size) by (rewrite len_slice by lia; lia).
    replace (beq over []) with false by (symmetry; apply bool_decide_eq_false_2; intros Hn; rewrite Hn, len_nil in Henough; lia).
    rewrite Hlen, Z.leb_refl. cbn. exists []. rewrite !app_nil_r. split_and!; [done| |by left].
    by rewrite slice_split, slice_all by lia.
  - rewrite Z.min_r, slice_all by lia. replace (size <=? len over) with false by lia. rewrite andb_false_r.
    replace (slice over (len over) (len over)) with (@nil Z) by (by rewrite slice_drop_take, Z.sub_diag).
    set (w2 := World (tr w1) [] (log w1)).
    destruct (while fuel (rfc2217_read_body size (Some (z + tmo))) over w2) as [r w'] eqn:E.
    apply rfc2217_read_loop in E as (l & Hl & Hr); [|done|lia|cbn; unfold PYSERIAL_READ_QUANTUM in *; lia|unfold PYSERIAL_READ_QUANTUM in *; lia].
    cbn in Hl. destruct r as [[b|b|b]|e|]; try done; exists l; (split; [congruence|]).
    + destruct Hr as [Hr [Hd|[Hd Hd']]]; (split; [done|]); [by left|right; lia].
    + intros He. destruct (Hr He) as (? & ? & ?). split_and!; [done..|lia].
Qed.

End RfcRead.

(** A bridge that hands out whole chunks, on which a short read takes its time, with
  an output queue that drains while the program sleeps. *)
Record Bridge := MkBridge { chunks : list bytes; queued : Z; b_now : Z }.

Definition bridge_wait (d : Z) (b : Bridge) : Bridge := MkBridge (chunks b) (queued b) (b_now b + Z.max 0 d).

#[export] Instance Bridge_Port : Port Bridge := {|
  p_read n t g b :=
    match chunks b with
    | [] => (Ok [], bridge_wait (default 0 t) b)
    | c :: cs =>
        let b := MkBridge cs (queued b) (b_now b) in
        (Ok c, if len c <? n then bridge_wait (default 0 t) b else b)
    end;
  p_write d t b := (Ok tt, MkBridge (chunks b) (queued b + len d) (b_now b));
  p_in_waiting b := (Ok (len (concat (chunks b))), b);
  p_out_waiting b := (Ok (queued b), b);
  p_reset_input b := (Ok tt, MkBridge [] (queued b) (b_now b));
  p_set_baudrate _ b := (Ok tt, b);
  p_set_dtr _ b := (Ok tt, b);
  p_set_rts _ b := (Ok tt, b);
  p_time b := (b_now b, b);
  p_sleep d b := bridge_wait d (MkBridge (chunks b) (queued b - 100) (b_now b))
|}.

#[export] Instance Bridge_Laws : PortLaws Bridge.
Proof.
  refine {| p_now := b_now |}; intros; cbn; try done; try lia.
  - destruct (chunks p); cbn; [lia|]. case_match; cbn; lia.
  - by destruct (chunks p).
Defined.

#[export] Instance Bridge_Remote : RemotePort Bridge.
Proof.
  split.
  - intros n q p d p'. cbn. destruct (chunks p) as [|c cs]; [intros [= <- <-]; cbn; lia|].
    destruct (Z.ltb_spec (len c) n); intros [= <- <-]; cbn; lia.
  - intros n t g p e. cbn. by destruct (chunks p).
Qed.

Example rfc2217_read_witness :
  let w := World (MkBridge [[1; 2]; [3; 4; 5; 6]] 0 0) [9] [] in
  let run := rfc2217_read 7 4 (Some 50000) w in
  exists l, log (snd run) = log w ++ l /\
  match fst run with
  | Ok d => obj w ++ reads l = d ++ obj (snd run) /\ (len d = 4 \/ (0 < len d < 4 /\ 0 + 50000 <= b_now (tr (snd run))))
  | Raise e => e = TransportTimeout -> obj w ++ reads l = [] /\ obj (snd run) = [] /\ 0 + 50000 <= b_now (tr (snd run))
  | Diverge => False
  end.
Proof.
  pose proof (rfc2217_read_contract (P := Bridge) 7 4 50000 (World (MkBridge [[1; 2]; [3; 4; 5; 6]] 0 0) [9] [])
    ltac:(lia) ltac:(lia) ltac:(unfold PYSERIAL_READ_QUANTUM; lia)) as Hc.
  cbv zeta. revert Hc. by destruct (rfc2217_read 7 4 (Some 50000) _).
Defined.

Example serial_flush_output_witness :
  let w := World (MkBridge [] 250 0) (MkSerial None None) [] in
  match serial_flush_output 502 w with
  | (Ok _, w') => exists p n, tr w' = snd (p_out_waiting p) /\ fst (p_out_waiting p) = Ok n /\ n <= 0
  | (Raise e, w') => e = TransportTimeout ->
      (exists p : Bridge, fst (p_out_waiting p) = Raise TransportTimeout) \/ p_now (tr w) + OUTPUT_DRAIN_TIMEOUT <= p_now (tr w')
  | (Diverge, _) => False
  end.
Proof.
  intros w. assert (Hf : (502 <= 502)%nat) by lia. exact (serial_flush_output_waits 502 w Hf).
Defined.

(** ** What arrived on a socket comes out in order *)

Section SocketOrder.
Context {K : Type} `{Sock K}.

(** The calls a client makes; a read that timed out is tried again by the next. *)
Inductive socket_op :=
  | OpRead (size : Z) (tmo : option Z)
  | OpWaiting.

Fixpoint receive (ops : list socket_op) : M K bytes bytes :=
  match ops with
  | [] => ret []
  | OpRead size tmo :: ops =>
      let* d := try_except (socket_read size tmo) is_TransportTimeout (fun _ => ret []) in
      let* rest := receive ops in
      ret (d ++ rest)
  | OpWaiting :: ops =>
      let* _ := socket_bytes_waiting in
      receive ops
  end.

Lemma does_recv n tmo o (Q : res bytes -> list event -> bytes -> Prop) :
  (forall r, Q r [EvRead r] o) -> does (socket_recv (K := K) n tmo) o Q.
Proof. intros HQ w <-. unfold socket_recv. destruct (k_recv _ _ _) as [r k]. exists [EvRead r]. eauto. Qed.

Lemma does_recv_now n o (Q : res bytes -> list event -> bytes -> Prop) :
  (forall r, Q r [EvRead r] o) -> does (socket_recv_now (K := K) n) o Q.
Proof. intros HQ w <-. unfold socket_recv_now. destruct (k_recv_now _ _) as [r k]. exists [EvRead r]. eauto. Qed.

(** The bytes received and not yet handed out. *)
Definition conserves (buf : bytes) (r : res bytes) (l : list event) (buf' : bytes) : Prop :=
  match r with
  | Ok d => buf ++ reads l = d ++ buf'
  | Raise _ => buf ++ reads l = buf'
  | Diverge => True
  end.

Lemma read_conserves size tmo buf : does (socket_read (K := K) size tmo) buf (conserves buf).
Proof.
  unfold socket_read. apply does_bind, does_get_obj. destruct (beq buf []) eqn:Eb; cbn [negb]; b2p.
  - subst. apply does_bind, does_try, does_recv. intros [d|e|].
    + destruct (beq d []) eqn:Ed; b2p; [apply does_raise|apply does_ret]; cbn; by rewrite ?Ed, ?app_nil_r.
    + destruct (is_OSError e); [destruct (is_TimeoutError e); by apply does_raise|done].
    + done.
  - apply does_bind, does_put_obj, does_ret. cbn. unfold slice. rewrite app_nil_r, Z.sub_0_r, drop_0.
    symmetry. rewrite length_take. destruct (decide (Z.to_nat size <= length buf)%nat).
    + rewrite Nat.min_l by done. apply take_drop.
    + rewrite Nat.min_r, take_ge, drop_all, app_nil_r by lia. done.
Qed.

Lemma waiting_conserves buf :
  does (socket_bytes_waiting (K := K)) buf (fun r l buf' => r <> Diverge ->
    buf' = buf ++ reads l /\ match r with Ok k => k = len buf' | _ => True end).
Proof.
  unfold socket_bytes_waiting. apply does_bind, does_try, does_bind, does_recv_now. intros [d|e|].
  - apply does_ret. apply does_bind. destruct d as [|b d].
    + apply does_ret, does_bind, does_get_obj, does_ret. cbn. by rewrite app_nil_r.
    + apply does_bind, does_get_obj, does_put_obj, does_bind, does_get_obj, does_ret. cbn. by rewrite app_nil_r.
  - destruct (is_OSError e) eqn:Ee; [|cbn; by rewrite app_nil_r].
    apply does_ret, does_bind, does_ret, does_bind, does_get_obj, does_ret. cbn. by rewrite app_nil_r.
  - done.
Qed.

(** What arrives on a socket comes out of [SocketTransport] in order and
  once: for every sequence of reads of any sizes and timeouts (those that time
  out included) and of [bytes_waiting] calls, which pull data into the buffer,
  what the reads returned, followed by what is still buffered, is what was
  buffered before followed by what the kernel delivered. *)
Theorem socket_stream_order ops buf :
  does (receive ops) buf (fun r l buf' =>
    match r with
    | Ok d => buf ++ reads l = d ++ buf'
    | Raise _ => exists d, buf ++ reads l = d ++ buf'
    | Diverge => True
    end).
Proof.
  revert buf. induction ops as [|[size tmo|] ops IH]; intros buf; cbn [receive].
  - apply does_ret. cbn. by rewrite app_nil_r.
  - apply does_bind, does_try. eapply does_weaken; [apply read_conserves|]. intros [d|e|] l buf' Hr; cbn in Hr; [| |done].
    + apply does_bind. eapply does_weaken; [apply IH|]. intros [d'|e|] l' buf'' Hr'; [|destruct Hr' as [d' Hr']|done].
      * apply does_ret. rewrite app_nil_r, reads_app, app_assoc, Hr, <- !app_assoc. by f_equal.
      * exists (d ++ d'). rewrite reads_app, app_assoc, Hr, <- !app_assoc. by f_equal.
    + destruct (is_TransportTimeout e); [|by exists []].
      apply does_ret, does_bind. rewrite app_nil_r. eapply does_weaken; [apply IH|].
      intros [d'|e'|] l' buf'' Hr'; [|destruct Hr' as [d' Hr']|done].
      * apply does_ret. by rewrite app_nil_r, reads_app, app_assoc, Hr.
      * exists d'. by rewrite reads_app, app_assoc, Hr.
  - apply does_bind. eapply does_weaken; [apply waiting_conserves|]. intros [k|e|] l buf' Hr.
    + destruct (Hr ltac:(done)) as [-> _]. eapply does_weaken; [apply IH|].
      intros [d'|e'|] l' buf'' Hr'; [|destruct Hr' as [d' Hr']|done]; [|exists d']; by rewrite reads_app, app_assoc.
    + destruct (Hr ltac:(done)) as [-> _]. by exists [].
    + done.
Qed.

End SocketOrder.

(** ** Instances of the interface *)

Section SerialInstance.
Context {P : Type} `{PortLaws P}.

#[export] Instance Serial_Transport : Transport (P * SerialState) := {|
  t_read n tmo := method (serial_read n tmo);
  t_write d := method (serial_write d);
  t_flush_input := method serial_flush_input;
  t_flush_output := method (serial_flush_output 502);
  t_bytes_waiting := method serial_bytes_waiting;
  t_unread _ t := (Raise NotImplementedError, t);
  t_set_baudrate b := method (serial_set_baudrate b);
  t_monotonic t := let (z, p) := p_time (fst t) in (z, (p, snd t));
  t_sleep d t := (p_sleep d (fst t), snd t)
|}.

#[export] Instance MacOS_Transport : Transport (P * MacState) := {|
  t_read n tmo := method (macos_read n tmo);
  t_write d := method (super (serial_write d));
  t_flush_input := method (super serial_flush_input);
  t_flush_output := method (super (serial_flush_output 502));
  t_bytes_waiting := method (super serial_bytes_waiting);
  t_unread _ t := (Raise NotImplementedError, t);
  t_set_baudrate b := method (super (serial_set_baudrate b));
  t_monotonic t := let (z, p) := p_time (fst t) in (z, (p, snd t));
  t_sleep d t := (p_sleep d (fst t), snd t)
|}.

Lemma method_result {A} (m : M P SerialState A) t : fst (method m t) = fst (m (World (fst t) (snd t) [])).
Proof. unfold method. by destruct (m _). Qed.
Lemma super_result {A} (m : M P SerialState A) (t : P * MacState) :
  fst (method (super m) t) = fst (method m (fst t, mac_serial (snd t))).
Proof. unfold method, super. cbn. by destruct (m _). Qed.

Lemma read_outcome n tmo (w : world P SerialState) :
  fst (serial_read n tmo w) <> Diverge /\
  forall d, fst (serial_read n tmo w) = Ok d -> exists p p' g, p_read n tmo g p = (Ok d, p').
Proof.
  unfold serial_read, finally, set_field, bind, get_obj, put_obj, try_except, port_read. cbn.
  match goal with |- context [p_read n tmo ?g (tr w)] => pose proof (p_read_ret n tmo g (tr w)) as Hr; destruct (p_read n tmo g (tr w)) as [[d|e|] p] eqn:E end;
    cbn in *; [|destruct (is_TimeoutError e); cbn; done|done].
  destruct (_ && _); cbn; [done|]. split; [done|]. intros d' [= <-]. eauto.
Qed.

Lemma write_outcome d (w : world P SerialState) : fst (serial_write d w) <> Diverge.
Proof.
  unfold serial_write, finally, set_field, bind, get_obj, put_obj, try_except, port_write. cbn.
  pose proof (p_write_ret d (Some 5000000) (tr w)) as Hr. destruct (p_write d (Some 5000000) (tr w)) as [[[]|e|] p]; cbn in *;
    [done| |done]. by destruct (is_TimeoutError e).
Qed.

Lemma flush_outcome (w : world P SerialState) : fst (serial_flush_output 502 w) <> Diverge.
Proof.
  unfold serial_flush_output, bind.
  destruct (port_time w) as [[z|e|] w1] eqn:Et; [|by unfold port_time, port_op in Et; destruct (p_time _)..].
  apply port_time_now in Et as Hz.
  assert (He : fst (while 502 (drain_body (z + OUTPUT_DRAIN_TIMEOUT)) tt w1) <> Diverge) by (apply drain_ends; lia).
  by destruct (while 502 _ tt w1) as [[c|e|] w2].
Qed.

Lemma port_op_outcome {A} (f : P -> res A * P) (w : world P SerialState) : (forall p, fst (f p) <> Diverge) -> fst (port_op f w) <> Diverge.
Proof. intros Hf. unfold port_op. specialize (Hf (tr w)). by destruct (f (tr w)). Qed.

#[export] Instance Serial_Laws `{!LocalPort P} : TransportLaws (P * SerialState).
Proof.
  split; intros *; cbn.
  - intros E Hn. assert (Ed : fst (method (serial_read n tmo) t) = Ok d) by by rewrite E. rewrite method_result in Ed.
    apply read_outcome in Ed as (p & p' & g & Ep). by eapply local_read.
  - rewrite method_result. apply read_outcome.
  - rewrite method_result. apply write_outcome.
  - rewrite method_result. apply port_op_outcome, p_reset_input_ret.
  - rewrite method_result. apply flush_outcome.
  - rewrite method_result. apply port_op_outcome, p_in_waiting_ret.
  - done.
  - rewrite method_result. apply port_op_outcome. apply p_set_baudrate_ret.
Qed.

#[export] Instance MacOS_Laws `{!LocalPort P} : TransportLaws (P * MacState).
Proof.
  split; intros *; cbn [t_read t_write t_flush_input t_flush_output t_bytes_waiting t_unread t_set_baudrate MacOS_Transport];
    rewrite ?super_result, ?method_result; cbn [fst snd].
  - unfold method, macos_read, bind, get_obj. intros E Hn.
    pose proof (super_result (serial_read n tmo) t) as Hs. rewrite method_result in Hs. unfold method in Hs.
    destruct (super (serial_read n tmo) _) as [[d0|e|] w]; [|done..]. symmetry in Hs.
    apply read_outcome in Hs as (p & p' & g & Ep). apply local_read in Ep; [|done].
    cbn in E. destruct (_ && _); injection E as <- _; unfold correct_acks; rewrite ?len_fmap; done.
  - unfold method, macos_read, bind, get_obj.
    pose proof (super_result (serial_read n tmo) t) as Hs. rewrite method_result in Hs. unfold method in Hs.
    pose proof (proj1 (read_outcome n tmo (World (fst t) (mac_serial (snd t)) []))) as Hr.
    destruct (super (serial_read n tmo) _) as [[d0|e|] w]; cbn in *; [by destruct (_ && _)|done|congruence].
  - apply write_outcome.
  - apply port_op_outcome, p_reset_input_ret.
  - apply flush_outcome.
  - apply port_op_outcome, p_in_waiting_ret.
  - done.
  - apply port_op_outcome. apply p_set_baudrate_ret.
Qed.

End SerialInstance.

(** What the kernel promises: it hands out at most what was asked for, every
    call returns, and it holds finitely many bytes. *)
Class SockLaws (K : Type) `{Sock K} := {
  k_pending : K -> nat;
  k_recv_ok n t k d k' : k_recv n t k = (Ok d, k') -> 0 <= n -> len d <= n;
  k_recv_ret n t k : fst (k_recv n t k) <> Diverge;
  k_recv_now_ret n k : fst (k_recv_now n k) <> Diverge;
  k_recv_now_pending n k x d k' : k_recv_now n k = (Ok (x :: d), k') -> (k_pending k' < k_pending k)%nat;
  k_sendall_ret d k : fst (k_sendall d k) <> Diverge
}.

Section SocketInstance.
Context {K : Type} `{SockLaws K}.

#[export] Instance Socket_Transport : Transport (K * bytes) := {|
  t_read n tmo := sock_method (socket_read n tmo);
  t_write d := sock_method (socket_write d);
  t_flush_input t := sock_method (socket_flush_input (S (k_pending (fst t)))) t;
  t_flush_output := sock_method socket_flush_output;
  t_bytes_waiting := sock_method socket_bytes_waiting;
  t_unread _ t := (Raise NotImplementedError, t);
  t_set_baudrate := base_set_baudrate;
  t_monotonic t := let (z, k) := k_time (fst t) in (z, (k, snd t));
  t_sleep d t := (k_sleep d (fst t), snd t)
|}.

Lemma flush_body_cases u (w : world K bytes) :
  match socket_flush_body u w with
  | (Ok (Next _), w') => (k_pending (tr w') < k_pending (tr w))%nat
  | (Ok (Rtn _), _) | (Diverge, _) => False
  | _ => True
  end.
Proof.
  unfold socket_flush_body, bind, try_except, socket_recv_now.
  pose proof (k_recv_now_ret 4096 (tr w)) as Hr.
  destruct (k_recv_now 4096 (tr w)) as [[[|x d]|e|] k] eqn:E; cbn in *; [done| | |done].
  - by eapply k_recv_now_pending.
  - by destruct (is_OSError e).
Qed.

Lemma flush_ends fuel (w : world K bytes) : (k_pending (tr w) < fuel)%nat -> fst (while fuel socket_flush_body tt w) <> Diverge.
Proof.
  revert w. induction fuel as [|fuel IH]; intros w Hf; [lia|]. cbn [while]. unfold bind.
  pose proof (flush_body_cases tt w) as Hc. destruct (socket_flush_body tt w) as [[[[]|?|?]|?|] w']; try done.
  apply IH. lia.
Qed.

Lemma sock_result {A} (m : M K bytes A) t : fst (sock_method m t) = fst (m (World (fst t) (snd t) [])).
Proof. unfold sock_method. by destruct (m _). Qed.

Lemma sock_read_outcome n tmo (w : world K bytes) : 0 <= n ->
  match fst (socket_read n tmo w) with Ok d => len d <= n | Raise _ => True | Diverge => False end.
Proof.
  intros Hn. unfold socket_read, bind, get_obj, put_obj, try_except, socket_recv. destruct (negb (beq (obj w) [])); cbn.
  - rewrite len_slice by lia. lia.
  - pose proof (k_recv_ret n tmo (tr w)) as Hr. destruct (k_recv n tmo (tr w)) as [[d|e|] k] eqn:Er; cbn in *; [| |done].
    + destruct (beq d []); [done|]. by eapply k_recv_ok.
    + destruct (is_OSError e); [|done]. by destruct (is_TimeoutError e).
Qed.

Lemma sock_read_ret n tmo (w : world K bytes) : fst (socket_read n tmo w) <> Diverge.
Proof.
  unfold socket_read, bind, get_obj, put_obj, try_except, socket_recv. destruct (negb (beq (obj w) [])); cbn; [done|].
  pose proof (k_recv_ret n tmo (tr w)) as Hr. destruct (k_recv n tmo (tr w)) as [[d|e|] k]; cbn in *; [by destruct (beq d [])| |done].
  destruct (is_OSError e); [|done]. by destruct (is_TimeoutError e).
Qed.

Lemma sock_write_ret d (w : world K bytes) : fst (socket_write d w) <> Diverge.
Proof.
  unfold socket_write, try_except, socket_sendall. pose proof (k_sendall_ret d (tr w)).
  destruct (k_sendall d (tr w)) as [[?|e|] k]; cbn in *; [done|by destruct (is_OSError e)|done].
Qed.

Lemma sock_flush_ret (w : world K bytes) : fst (socket_flush_input (S (k_pending (tr w))) w) <> Diverge.
Proof.
  unfold socket_flush_input, bind, put_obj.
  pose proof (flush_ends (S (k_pending (tr w))) (World (tr w) [] (log w)) (Nat.lt_succ_diag_r _)) as He.
  by destruct (while _ _ _ _) as [[?|?|] ?].
Qed.

Lemma sock_waiting_ret (w : world K bytes) : fst (socket_bytes_waiting w) <> Diverge.
Proof.
  unfold socket_bytes_waiting, bind, get_obj, put_obj, try_except, socket_recv_now.
  pose proof (k_recv_now_ret 65536 (tr w)). destruct (k_recv_now 65536 (tr w)) as [[[|x d]|e|] k]; cbn in *; try done.
  by destruct (is_OSError e).
Qed.

#[export] Instance Socket_Laws : TransportLaws (K * bytes).
Proof.
  split; intros *; cbn [t_read t_write t_flush_input t_flush_output t_bytes_waiting t_unread t_set_baudrate Socket_Transport]; rewrite ?sock_result.
  - intros E Hn. pose proof (sock_read_outcome n tmo (World (fst t) (snd t) []) Hn) as Hr.
    by rewrite <- sock_result, E in Hr.
  - apply sock_read_ret.
  - apply sock_write_ret.
  - apply sock_flush_ret.
  - done.
  - apply sock_waiting_ret.
  - done.
  - done.
Qed.

End SocketInstance.

(** ** The macOS correction *)

(** No read of a [MacOSSerialTransport] that is still in its handshake phase
    returns the byte 0x55, and no method of the transport ends the phase. *)
Lemma macos_read_never_55 {P} `{Port P} size tmo (w : world P MacState) :
  ack_correction (obj w) = true -> in_handshake (obj w) = true ->
  let '(r, w') := macos_read size tmo w in
  in_handshake (obj w') = true /\ match r with Ok d => Forall (fun b => b <> 0x55) d | _ => True end.
Proof.
  intros Ha Hh. unfold macos_read, bind, get_obj, super.
  destruct (serial_read size tmo _) as [[d|e|] w1]; cbn; rewrite ?Ha, ?Hh; [|done..]. cbn. split; [done|].
  unfold correct_acks. apply Forall_fmap, Forall_true. intros b. cbn. destruct (Z.eqb_spec b 0x55); lia.
Qed.

(** ** The factory reads what is written *)

(** The text that names a target. *)
Definition print (t : target) : list Z :=
  match t with
  | UnixSocket path => codes "socket://" ++ path
  | TcpSocket host port => codes "tcp://" ++ host ++ codes ":" ++ str_int port
  | Rfc2217At url => url
  | RackPod host bridge_port api_port => codes "rack://" ++ host ++ codes ":" ++ str_int bridge_port ++ codes "?api=" ++ str_int api_port
  | MacPort device | SerialPort device => device
  end.

Definition schemes : list (list Z) := [codes "socket://"; codes "tcp://"; codes "rfc2217://"; codes "rack://"].
Definition plain_device (d : list Z) : Prop := Forall (fun s => starts_with s d = false) schemes.

Definition is_port (n : Z) : Prop := 0 <= n < 65536.

(** What can be named, on a platform. *)
Definition nameable (platform : list Z) (t : target) : Prop :=
  match t with
  | UnixSocket _ => True
  | TcpSocket host port => host <> [] /\ is_port port
  | Rfc2217At url => starts_with (codes "rfc2217://") url = true
  | RackPod host b a => host <> [] /\ Forall (fun c => c <> 58 /\ c <> 63) host /\ is_port b /\ is_port a
  | MacPort d => platform = codes "darwin" /\ plain_device d
  | SerialPort d => platform <> codes "darwin" /\ plain_device d
  end.

Lemma digit_char m : (m < 10)%N -> Z.of_N (Ascii.N_of_ascii (pretty_N_char m)) = 48 + Z.of_N m.
Proof. intros Hm. destruct m as [|[[[p|p|]|[p|p|]|]|[[p|p|]|[p|p|]|]|]]; try reflexivity; destruct p; try reflexivity; lia. Qed.

(** The decimal digits of a number, most significant first. *)
Lemma decimal_spec (x : N) : forall s (k : nat), (x < 10 ^ N.of_nat k)%N ->
  exists ds, codes (pretty_N_go x s) = ds ++ codes s /\ Forall (fun c => 48 <= c <= 57) ds /\ (length ds <= k)%nat
    /\ forall t b, dec_digits (ds ++ t) b 0 = dec_digits t (b || (0 <? Z.of_N x)) (Z.of_N x).
Proof.
  induction (N.lt_wf_0 x) as [x _ IH]. intros s k Hk.
  destruct (N.eq_0_gt_0_cases x) as [->|Hx].
  { exists []. split_and!; [done|constructor|cbn; lia|]. intros t b. cbn. by rewrite orb_false_r. }
  destruct k as [|k]; [cbn in Hk; lia|].
  rewrite pretty_N_go_step by done.
  destruct (IH (x / 10)%N (N.div_lt x 10 Hx eq_refl) (String.String (pretty_N_char (x mod 10)) s) k) as (ds & E & Hd & Hl & Hv).
  { apply N.Div0.div_lt_upper_bound. by rewrite <- N.pow_succ_r', <- Nat2N.inj_succ. }
  assert (Hc : Z.of_N (Ascii.N_of_ascii (pretty_N_char (x mod 10))) = 48 + Z.of_N (x mod 10)).
  { by apply digit_char, N.mod_lt. }
  exists (ds ++ [48 + Z.of_N (x mod 10)]). rewrite E, codes_cons, Hc. split_and!.
  - by rewrite <- app_assoc.
  - apply Forall_app. split; [done|]. constructor; [|constructor]. assert (Hm : (x mod 10 < 10)%N) by by apply N.mod_lt. revert Hm. generalize (x mod 10)%N. clear. intros m Hm. cbn beta. lia.
  - rewrite length_app. cbn. lia.
  - intros t b. rewrite <- app_assoc, Hv. cbn [app dec_digits].
    assert (Hm : (x mod 10 < 10)%N) by by apply N.mod_lt. pose proof (N.div_mod x 10 ltac:(done)) as Hdm.
    revert Hm Hdm Hx. generalize (x mod 10)%N (x / 10)%N. clear. intros m q Hm Hdm Hx.
    replace (48 + Z.of_N m =? 95) with false by lia.
    unfold is_digit_code. replace ((48 <=? 48 + Z.of_N m) && (48 + Z.of_N m <=? 57)) with true by lia.
    replace (b || (0 <? Z.of_N x)) with true by (symmetry; apply orb_true_iff; right; lia). f_equal. lia.
Qed.

Lemma port_ok n : is_port n -> int10 (str_int n) = Some n /\ Forall (fun c => 48 <= c <= 57) (str_int n) /\ str_int n <> [].
Proof.
  intros [Hn0 Hn]. destruct (decide (n = 0)) as [->|Hne].
  { split_and!; [by vm_compute| |by vm_compute]. by apply (bool_decide_unpack _). }
  destruct (decimal_spec (Z.to_N n) "" 5) as (ds & E & Hd & Hl & Hv); [cbn; lia|].
  assert (Es : str_int n = ds).
  { unfold str_int. transitivity (codes (pretty_N_go (Z.to_N n) "")); [|by rewrite E, app_nil_r]. f_equal.
    destruct n as [|p|p]; [done| |lia]. reflexivity. }
  rewrite Es. assert (Hv0 : dec_digits ds false 0 = Some n).
  { rewrite <- (app_nil_r ds), Hv. cbn. rewrite Z2N.id by done. by replace (0 <? n) with true by lia. }
  split_and!; [|done|by intros ->].
  unfold int10. replace (4300 <? len (List.filter is_digit_code ds)) with false.
  2: { symmetry. apply Z.ltb_ge. pose proof (List.filter_length_le is_digit_code ds). unfold len. lia. }
  rewrite strip_id by (eapply Forall_impl; [exact Hd|]; intros c Hc; unfold is_space_code; cbn in Hc; b2p; lia).
  destruct ds as [|c ds]; [done|]. apply Forall_cons in Hd as [Hc _].
  replace (c =? 43) with false by lia. replace (c =? 45) with false by lia. done.
Qed.

Lemma rpartition_app sep a b : Forall (fun c => c <> sep) b -> rpartition_on sep (a ++ sep :: b) = (a, b).
Proof.
  intros Hb. assert (Hn : existsb (fun x => x =? sep) b = false).
  { induction Hb as [|c b Hc _ IH]; [done|]. cbn. rewrite IH. replace (c =? sep) with false by (symmetry; by apply Z.eqb_neq). done. }
  induction a as [|c a IH]; cbn [app rpartition_on].
  - by rewrite Hn, Z.eqb_refl.
  - rewrite IH. replace (existsb _ (a ++ sep :: b)) with true; [done|].
    symmetry. rewrite existsb_app. cbn. rewrite Z.eqb_refl. by rewrite orb_true_r.
Qed.

Lemma to_int_port n : is_port n -> to_int (str_int n) = Ok n.
Proof. intros Hn. unfold to_int. by rewrite (proj1 (port_ok n Hn)). Qed.

(** The device names of [create_transport]: every target it can decide
  on (a Unix socket, a TCP endpoint with any host, colons included, and any
  port, an RFC 2217 URL, a rack pod with both of its ports, a serial port on
  its platform) is decided on again when its name is given, with exactly the
  path, host and ports that were written. *)
Theorem create_transport_print platform t : nameable platform t -> create_transport (print t) platform = Ok t.
Proof.
  destruct t as [path|host port|url|host b a|d|d]; cbn [nameable print]; unfold create_transport.
  - intros _. by rewrite starts_with_app.
  - intros [Hh Hp]. rewrite starts_with_app. change (starts_with (codes "socket://") _) with false. cbn iota.
    change (drop 6 (codes "tcp://" ++ ?x)) with x.
    change (host ++ codes ":" ++ str_int port) with (host ++ 58 :: str_int port).
    destruct (port_ok port Hp) as (_ & Hd & Hne). rewrite rpartition_app by (eapply Forall_impl; [exact Hd|]; cbn; lia).
    replace (beq host []) with false by (symmetry; by apply bool_decide_eq_false_2).
    replace (beq (str_int port) []) with false by (symmetry; by apply bool_decide_eq_false_2).
    cbn [orb]. by rewrite to_int_port.
  - intros Hu. apply starts_with_inv in Hu as [u ->]. by rewrite starts_with_app.
  - intros (Hh & Hc & Hb & Ha). rewrite starts_with_app. change (starts_with (codes "socket://") _) with false.
    change (starts_with (codes "tcp://") _) with false. change (starts_with (codes "rfc2217://") _) with false. cbn iota.
    unfold rack_target.
    change (drop 7 (codes "rack://" ++ ?x)) with x.
    destruct (port_ok b Hb) as (_ & Hbd & _). destruct (port_ok a Ha) as (_ & Had & _).
    change (codes "?api=" ++ str_int a) with (63 :: codes "api=" ++ str_int a).
    change (host ++ codes ":" ++ str_int b ++ 63 :: ?x) with (host ++ (58 :: str_int b) ++ 63 :: x).
    rewrite app_assoc, partition_on_app.
    2: { apply Forall_app. split; [eapply Forall_impl; [exact Hc|]; by intros c [_ ?]|].
         constructor; [done|]. eapply Forall_impl; [exact Hbd|]. cbn. lia. }
    rewrite split_on_partition, partition_on_none.
    2: { apply Forall_app. split; [by apply (bool_decide_unpack _)|]. eapply Forall_impl; [exact Had|]. cbn. lia. }
    cbn [api_port_of]. rewrite starts_with_app. change (drop 4 (codes "api=" ++ ?x)) with x. rewrite (to_int_port a Ha). cbn [res_bind].
    rewrite partition_on_app by (eapply Forall_impl; [exact Hc|]; by intros c [? _]).
    rewrite (to_int_port b Hb). cbn [res_bind].
    by replace (beq host []) with false by (symmetry; by apply bool_decide_eq_false_2).
  - intros [-> Hd]. unfold plain_device, schemes in Hd. rewrite !Forall_cons in Hd. destruct Hd as (-> & -> & -> & -> & _). done.
  - intros [Hp Hd]. unfold plain_device, schemes in Hd. rewrite !Forall_cons in Hd. destruct Hd as (-> & -> & -> & -> & _).
    by replace (beq platform (codes "darwin")) with false by (symmetry; by apply bool_decide_eq_false_2).
Qed.

Example create_transport_print_witness :
  create_transport (print (RackPod (codes "rack-node-001.local") 9000 8081)) (codes "linux")
    = Ok (RackPod (codes "rack-node-001.local") 9000 8081).
Proof.
  apply create_transport_print. split; [discriminate|]. split; [by apply (bool_decide_unpack _)|].
  split; unfold is_port; lia.
Defined.

