(* ===== verification/Rack.v ===== *)
(** * Rack pods

  Models [src/src/defib/power/rack.py] (the HTTP controller of a pod: power,
  staged TFTP files, the fastboot blob), [recovery/rack_fastboot.py] (the
  upload that the pod runs itself) and the baud rate control of
  [transport/rack.py].  The pod's HTTP API is a class of its own; the
  body of a reply is parsed by [loads] ([json.loads]), and [py_str] is
  Python's [str] of a JSON value. *)

From S2P Require Import Prelude Text Events Profiles Frames Transport HisiStandard.

(** ** HTTP *)

Inductive outcome :=
  | HOk (payload : bytes)
  | HError (code : Z) (payload : bytes)
  | HUnreachable.

Record request := Req { rq_method : string; rq_path : string; rq_body : option bytes; rq_timeout : Z }.

Class Http (T : Type) := {
  h_send : request -> T -> outcome * T;
  h_sleep : Z -> T -> T
}.

#[warnings="-register-all"]
Inductive json :=
  | JStr (s : string) | JNum (z : Z) | JFloat (truncated : Z) | JBool (b : bool) | JNull | JArr
  | JObj (members : list (string * json)).

Abbreviation dict := (list (string * json)).
Definition jget (key : string) (d : dict) : option json := assoc d key.

(** [bool(value)] *)
Definition truthy (v : json) : bool :=
  match v with
  | JStr s => negb (bool_decide (s = ""%string))
  | JNum z | JFloat z => negb (z =? 0)
  | JBool b => b
  | JNull => false
  | JArr => true
  | JObj l => negb (bool_decide (l = []))
  end.

Section Pod.
Context {T : Type} `{Http T}.
Variable loads : bytes -> res json.
Abbreviation MT := (M T unit).

Definition http (r : request) : MT outcome := fun w =>
  let (o, t) := h_send r (tr w) in (Ok o, World t (obj w) (log w)).
Definition pause (d : Z) : MT unit := fun w => (Ok tt, World (h_sleep d (tr w)) (obj w) (log w)).

(** [result if isinstance(result, dict) else {}] *)
Definition as_dict (v : json) : dict := match v with JObj l => l | _ => [] end.

Definition is_JSONDecodeError (e : exn) : bool := bool_decide (e = ValueError).

(** The end all senders share: a body that is not JSON counts as [{}]. *)
Definition parse_payload (payload : bytes) : MT dict :=
  try_except (let* v := lift (loads payload) in ret (as_dict v)) is_JSONDecodeError (fun _ => ret []).

(** [_http_send_sync] and [_post_sync] *)
Definition http_send (method path : string) (body : option bytes) (timeout : Z) : MT dict :=
  let* o := http (Req method path body timeout) in
  match o with
  | HOk payload => parse_payload payload
  | HError _ _ | HUnreachable => raise PowerControllerError
  end.

Definition post (path : string) : MT dict := http_send "POST" path (Some []) 10000000.

(** [_post_blob_sync]: a failure of the protocol comes as an HTTP error with a
    JSON body. *)
Definition post_blob (path : string) (body : bytes) (timeout : Z) : MT dict :=
  let* o := http (Req "POST" path (Some body) timeout) in
  match o with
  | HOk payload => parse_payload payload
  | HError _ payload =>
      try_except (let* v := lift (loads payload) in ret (as_dict v)) is_JSONDecodeError (fun _ => raise PowerControllerError)
  | HUnreachable => raise PowerControllerError
  end.

Definition power_off : MT unit := let* _ := post "/power/off" in ret tt.
Definition power_on : MT unit := let* _ := post "/power/on" in ret tt.

(** [off_duration] in microseconds; the default is 3.0 s. *)
Definition default_off_duration : Z := 3000000.
Definition power_cycle (off_duration : Z) : MT unit :=
  if off_duration <=? 2500000 then let* _ := post "/power/cycle" in ret tt
  else
    let* _ := post "/power/off" in
    let* _ := pause off_duration in
    let* _ := post "/power/on" in
    ret tt.

Definition has_slash (name : string) : bool := existsb (fun c => c =? 47) (codes name).

Definition tftp_put (name : string) (data : bytes) (timeout : Z) : MT dict :=
  if has_slash name || bool_decide (name = ""%string) then raise PowerControllerError
  else http_send "POST" ("/tftp/" +:+ name) (Some data) timeout.

Definition tftp_delete (name : string) (timeout : Z) : MT dict :=
  if has_slash name then raise PowerControllerError
  else http_send "DELETE" (if bool_decide (name = ""%string) then "/tftp"%string else "/tftp/" +:+ name) (Some []) timeout.

Definition tftp_clear (timeout : Z) : MT dict := http_send "DELETE" "/tftp" (Some []) timeout.
Definition tftp_list (timeout : Z) : MT dict := http_send "GET" "/tftp" None timeout.

(** [int(raw) if isinstance(raw, (int, float)) else 0]; a bool is an int. *)
Definition as_int (v : option json) : Z :=
  match v with
  | Some (JNum z) | Some (JFloat z) => z
  | Some (JBool b) => if b then 1 else 0
  | _ => 0
  end.

Definition psram_can_fit (total_bytes headroom_bytes : Z) : MT (bool * dict) :=
  let* stats := try_except (let* s := tftp_list 10000000 in ret (Some s)) is_Exception (fun _ => ret None) in
  match stats with
  | None => ret (false, [])
  | Some stats =>
      let largest := as_int (jget "psram_largest_free_block" stats) in
      ret (total_bytes + headroom_bytes <=? largest, stats)
  end.

(** *** The fastboot blob *)

(** [z.to_bytes(n, "big")] *)
Definition to_bytes (n z : Z) : res bytes := if fits n z then Ok (be_bytes n z) else Raise OverflowError.

Record bundle := Bundle {
  b_spl_address : Z; b_ddr_step_address : Z; b_uboot_address : Z;
  b_prestep0 : bytes; b_ddrstep0 : bytes; b_prestep1 : option bytes; b_spl : bytes; b_agent : bytes
}.

Definition fastboot_blob (b : bundle) : res bytes :=
  let! a0 := to_bytes 4 (b_spl_address b) in
  let! a1 := to_bytes 4 (b_ddr_step_address b) in
  let! a2 := to_bytes 4 (b_uboot_address b) in
  let! l0 := to_bytes 2 (len (b_prestep0 b)) in
  let! l1 := to_bytes 2 (len (b_ddrstep0 b)) in
  let p1 := default [] (b_prestep1 b) in
  let! l2 := to_bytes 2 (len p1) in
  let! l3 := to_bytes 4 (len (b_spl b)) in
  let! l4 := to_bytes 4 (len (b_agent b)) in
  Ok (a0 ++ a1 ++ a2 ++ l0 ++ b_prestep0 b ++ l1 ++ b_ddrstep0 b ++ l2 ++ p1 ++ l3 ++ b_spl b ++ l4 ++ b_agent b).

Definition fastboot (b : bundle) (timeout : Z) : MT dict :=
  let* blob := lift (fastboot_blob b) in
  post_blob "/fastboot" blob timeout.

(** ** run_rack_fastboot *)

Variable py_str : json -> string.

(** The bytes sent as SPL. *)
Definition rack_spl (firmware : bytes) (profile : SoCProfile) (agent_payload : option bytes) : res bytes :=
  let scan_buf := default firmware agent_payload in
  let! max := spl_max_size profile in
  let! limit := spl_sram_limit profile in
  let! spl_size := detect_spl_size scan_buf max limit in
  Ok (zero_long_ff_runs (ljust spl_size 0 (slice firmware 0 spl_size)) 12).

Definition rack_bundle (profile : SoCProfile) (firmware : bytes) (agent_payload : option bytes) : res bundle :=
  let! spl_bytes := rack_spl firmware profile agent_payload in
  let uboot_bytes := default firmware agent_payload in
  let! sa := spl_address profile in
  let! da := ddr_step_address profile in
  let! ua := uboot_address profile in
  let! p0 := prestep_data profile in
  let! d0 := ddr_step_data profile in
  let! p1 := prestep1_data profile in
  Ok (Bundle sa da ua (default [] p0) d0 p1 spl_bytes uboot_bytes).

(** [last_phase in (...)] *)
Definition phase_in (last_phase : string) (phases : list string) : bool := bool_decide (last_phase ∈ phases).

Definition rack_stages (last_phase : string) : list Stage :=
  (if phase_in last_phase ["frame_for_start"; "prestep0"; "ddrstep0"; "prestep1"; "spl"; "agent"; "done"] then [HANDSHAKE] else [])
  ++ (if phase_in last_phase ["prestep0"; "ddrstep0"; "prestep1"; "spl"; "agent"; "done"] then [DDR_INIT] else [])
  ++ (if phase_in last_phase ["spl"; "agent"; "done"] then [SPL] else [])
  ++ (if phase_in last_phase ["agent"; "done"] then [UBOOT] else [])
  ++ (if phase_in last_phase ["done"] then [COMPLETE] else []).

Definition rack_result (response : dict) : RecoveryResult :=
  let text key dflt := match jget key response with Some v => py_str v | None => dflt end in
  let stages := rack_stages (text "last_phase" ""%string) in
  if match jget "success" response with Some v => truthy v | None => false end then succeeded stages
  else failed stages ("rack fastboot failed at " +:+ text "failed_phase" "unknown" +:+ ": " +:+ text "error" "unknown")%string.

(** [load] is [load_profile] on the profiles of the package. *)
Variable load : string -> res SoCProfile.

Definition run_rack_fastboot (chip : string) (firmware : bytes) (agent_payload : option bytes) (timeout : Z) : MT RecoveryResult :=
  let* profile := lift (load chip) in
  let* b := lift (rack_bundle profile firmware agent_payload) in
  let* response := fastboot b timeout in
  ret (rack_result response).

(** ** RackTransport.set_baudrate *)

(** [dumps] is [json.dumps({"rate": baud}).encode("ascii")]. *)
Variable dumps : Z -> bytes.

Definition rack_set_baudrate (baud : Z) : MT unit :=
  let* o := http (Req "POST" "/uart/baud" (Some (dumps baud)) 5000000) in
  match o with
  | HOk _ => ret tt
  | HError _ _ | HUnreachable => raise TransportError
  end.

End Pod.

(** ** The blob is read back *)

(** A number of [n] bytes at the head of the input, and what follows. *)
Definition number (n : Z) (d : bytes) : option (Z * bytes) :=
  if len d <? n then None else Some (be_int (slice d 0 n), drop (Z.to_nat n) d).
(** A field preceded by its length in [n] bytes. *)
Definition field (n : Z) (d : bytes) : option (bytes * bytes) :=
  match number n d with
  | Some (k, d) => if len d <? k then None else Some (slice d 0 k, drop (Z.to_nat k) d)
  | None => None
  end.

(** The layout that the comment of [fastboot] gives. *)
Definition unblob (d : bytes) : option bundle :=
  match number 4 d with None => None | Some (sa, d) =>
  match number 4 d with None => None | Some (da, d) =>
  match number 4 d with None => None | Some (ua, d) =>
  match field 2 d with None => None | Some (p0, d) =>
  match field 2 d with None => None | Some (d0, d) =>
  match field 2 d with None => None | Some (p1, d) =>
  match field 4 d with None => None | Some (spl, d) =>
  match field 4 d with None => None | Some (agent, d) =>
  if beq d [] then Some (Bundle sa da ua p0 d0 (Some p1) spl agent) else None
  end end end end end end end end.

Lemma to_bytes_ok n z d : to_bytes n z = Ok d -> fits n z = true /\ d = be_bytes n z.
Proof. unfold to_bytes. destruct (fits n z); [|done]. by intros [= <-]. Qed.

Lemma number_app n z d : 0 <= n -> fits n z = true -> number n (be_bytes n z ++ d) = Some (z, d).
Proof.
  intros Hn Hf. pose proof (be_bytes_len n z Hn) as Hl. unfold number. rewrite len_app, Hl. pose proof (len_nonneg d).
  replace (n + len d <? n) with false by lia. rewrite slice_prefix, be_int_be_bytes by done. do 2 f_equal.
  apply drop_app_length'. unfold len in Hl. lia.
Qed.

Lemma field_app n x d : 0 <= n -> fits n (len x) = true -> field n (be_bytes n (len x) ++ x ++ d) = Some (x, d).
Proof.
  intros Hn Hf. unfold field. rewrite number_app by done. rewrite len_app. pose proof (len_nonneg d).
  replace (len x + len d <? len x) with false by lia. rewrite slice_prefix by done. do 2 f_equal.
  apply drop_app_length'. unfold len. lia.
Qed.

(** A bundle whose numbers and lengths fit their places. *)
Definition fits_blob (b : bundle) : bool :=
  fits 4 (b_spl_address b) && fits 4 (b_ddr_step_address b) && fits 4 (b_uboot_address b)
  && fits 2 (len (b_prestep0 b)) && fits 2 (len (b_ddrstep0 b)) && fits 2 (len (default [] (b_prestep1 b)))
  && fits 4 (len (b_spl b)) && fits 4 (len (b_agent b)).

(** The blob that [fastboot] posts to the pod can be read in one way
  only: taken apart along the documented layout it gives back the three
  addresses, the three register tables, the SPL and the agent, to the last
  byte (an absent second table counts as an empty one).  It is made exactly
  when every address and length fits its place; otherwise the call ends in
  [OverflowError] and nothing is truncated. *)
Theorem fastboot_blob_roundtrip b :
  match fastboot_blob b with
  | Ok d => fits_blob b = true
      /\ unblob d = Some (Bundle (b_spl_address b) (b_ddr_step_address b) (b_uboot_address b) (b_prestep0 b) (b_ddrstep0 b)
           (Some (default [] (b_prestep1 b))) (b_spl b) (b_agent b))
  | Raise e => fits_blob b = false /\ e = OverflowError
  | Diverge => False
  end.
Proof.
  unfold fastboot_blob, fits_blob, to_bytes.
  repeat match goal with
  | |- context [if fits ?n ?z then Ok _ else Raise _] => destruct (fits n z) eqn:?; cbn [res_bind andb]; [|by split]
  end.
  split; [done|]. unfold unblob. do 3 (rewrite number_app by done; cbn iota beta).
  do 4 (rewrite field_app by done; cbn iota beta).
  pose proof (field_app 4 (b_agent b) [] ltac:(done)) as Ha. rewrite app_nil_r in Ha. by rewrite Ha.
Qed.

(** ** The pod's upload and the host's *)

(** Without an agent of its own the pod is sent what the host would send, the
    image being at least as long as its SPL. *)
Lemma rack_spl_as_host profile firmware n d :
  spl_plan firmware profile None = Ok (n, d) -> 0 <= n <= len firmware ->
  rack_spl firmware profile None = Ok (zero_long_ff_runs d 12).
Proof.
  unfold spl_plan, rack_spl. cbn [default]. destruct (spl_max_size profile) as [m| |]; cbn [res_bind]; [|done..].
  destruct (spl_sram_limit profile) as [l| |]; cbn [res_bind]; [|done..].
  destruct (detect_spl_size firmware m l) as [k| |]; cbn [res_bind]; [|done..].
  intros [= -> <-] Hn. do 2 f_equal. unfold ljust. rewrite len_slice by lia.
  replace (n - Z.max 0 (Z.min n (len firmware) - 0)) with 0 by lia. apply app_nil_r.
Qed.

(** The stages a result lists are those of the upload, in order and without
    gaps, and a result lists [COMPLETE] only when the pod's last phase was
    [done]. *)
Lemma rack_stages_prefix p : exists k, rack_stages p = take k [HANDSHAKE; DDR_INIT; SPL; UBOOT; COMPLETE]
  /\ (k = 5%nat -> p = "done"%string).
Proof.
  unfold rack_stages, phase_in.
  destruct (decide (p = "done"%string)) as [->|Hd]; [by exists 5%nat|].
  destruct (decide (p = "agent"%string)) as [->|Ha]; [by exists 4%nat|].
  destruct (decide (p = "spl"%string)) as [->|Hs]; [by exists 3%nat|].
  destruct (decide (p = "prestep0"%string)) as [->|H0]; [by exists 2%nat|].
  destruct (decide (p = "ddrstep0"%string)) as [->|H1]; [by exists 2%nat|].
  destruct (decide (p = "prestep1"%string)) as [->|H2]; [by exists 2%nat|].
  destruct (decide (p = "frame_for_start"%string)) as [->|Hf]; [by exists 1%nat|].
  exists 0%nat. split; [|done].
  assert (Hno : forall l, Forall (fun q => p <> q) l -> bool_decide (p ∈ l) = false).
  { intros l Hl. apply bool_decide_eq_false_2. intros Hin. rewrite Forall_forall in Hl. by apply (Hl p). }
  rewrite !Hno by (by repeat constructor). done.
Qed.

(** [psram_can_fit] never fails (unless its task is cancelled), and says yes
    only on the pod's own word. *)
Lemma psram_can_fit_sound {T} `{Http T} loads total headroom (w : world T unit) :
  (forall d, loads d <> Diverge) ->
  fst (psram_can_fit loads total headroom w) = Raise CancelledError \/
  exists b stats w', psram_can_fit loads total headroom w = (Ok (b, stats), w')
    /\ (b = true -> total + headroom <= as_int (jget "psram_largest_free_block" stats)).
Proof.
  intros Hl. unfold psram_can_fit, tftp_list, http_send, http, parse_payload, bind, try_except, lift, ret, raise.
  assert (Hc : forall e, is_Exception e = false -> e = CancelledError) by by intros [].
  destruct (h_send _ (tr w)) as [[d|c d|] t]; [|by right; eexists _, _, _..].
  specialize (Hl d). destruct (loads d) as [v|e|]; cbn; [right; eexists _, _, _; (split; [reflexivity|]); by intros ?%Z.leb_le| |done].
  destruct (is_JSONDecodeError e); cbn; [right; eexists _, _, _; split; [reflexivity|by intros ?%Z.leb_le]|].
  destruct (is_Exception e) eqn:Ee; cbn; [right; by eexists _, _, _|left; f_equal; by apply Hc].
Qed.

(** With an agent the pod's path looks for the end of the SPL in the agent,
  the host's in the image the SPL comes from: for an agent of up to 16 KiB
  the pod is sent the whole window of the profile, wherever the SPL of the
  image ends. *)
Lemma rack_scans_the_agent profile firmware agent m l :
  spl_max_size profile = Ok m -> spl_sram_limit profile = Ok l -> len agent <= 0x4000 ->
  rack_spl firmware profile (Some agent) = Ok (zero_long_ff_runs (ljust m 0 (slice firmware 0 m)) 12).
Proof.
  intros Em El Ha. unfold rack_spl. rewrite Em, El. cbn [res_bind]. change (default firmware (Some agent)) with agent. unfold detect_spl_size, spl_scan.
  replace (Z.to_nat (Z.min (len agent) 0x10000 - 0x4000)) with 0%nat by lia. reflexivity.
Qed.

(** And the image for DDR goes out as it is, its runs of 0xFF included, which
  the host's path zeroes. *)
Lemma rack_keeps_ff_runs profile firmware b :
  rack_bundle profile firmware None = Ok b -> b_agent b = firmware.
Proof.
  unfold rack_bundle. intros E.
  repeat match type of E with res_bind ?m _ = _ => destruct m; cbn [res_bind] in E; [|done..] end. by injection E as <-.
Qed.

(** The default of [power_cycle] is above the bound for the pod's own cycle:
  it sends [/power/off] and [/power/on]. *)
Lemma default_cycle_is_driven {T} `{Http T} loads (w : world T unit) :
  power_cycle loads default_off_duration w
  = (let* _ := post loads "/power/off" in let* _ := pause default_off_duration in let* _ := post loads "/power/on" in ret tt) w.
Proof. reflexivity. Qed.
