(* ===== verification/Restore.v ===== *)
(** * Restoring a flash dump

  Models the [restore] command of [src/src/defib/cli/app.py]
  ([_restore_async]): the dump from a directory, a file or an ipctool backup,
  the start of U-Boot, the detection of its mode and of the flash, the network,
  the server that holds the partitions, and the writing of each.

  Texts and names are lists of character codes; those of the classes [\w] and
  [\d] are ASCII.  Messages, elapsed times, the opening and closing of the
  transport, the power controller and the servers are left out.
  [typer.Exit(n)] is [TyperExit n]. *)

From Stdlib Require Import Ascii.
From S2P Require Import Prelude Text Regex Rack Events Profiles Firmware Layout Capture Ubi Ymodem Flashdump DownloadCmd Session Vendors Install.
From S2P Require Import Transport.

Abbreviation partition := (list Z * bytes)%type.

(** ** The dump *)

(** [int(''.join(c for c in name if c.isdigit()) or '0')] *)
Definition name_number (name : list Z) : Z := digits_value 10 (List.filter is_digit_code name).

(** [sorted(..., key=name_number)], which is stable. *)
Fixpoint insert_part (p : partition) (l : list partition) : list partition :=
  match l with
  | [] => [p]
  | q :: l' => if name_number (fst p) <=? name_number (fst q) then p :: l else q :: insert_part p l'
  end.
Definition sort_parts (l : list partition) : list partition := foldr insert_part [] l.

(** [name: (\w+)\n\s+size: (0x[0-9a-fA-F]+)] and [type: (nand|nor)] *)
Definition YAML_PART_RE : re :=
  seqs [lit (codes "name: "); Group 1 (plus wd); chr 10; plus sp; lit (codes "size: "); Group 2 (Seq (lit (codes "0x")) (plus hexd))].
Definition YAML_TYPE_RE : re := Seq (lit (codes "type: ")) (Group 1 (Alt (lit (codes "nand")) (lit (codes "nor")))).

Definition MiB : Z := 1024 * 1024.

(** [f"{sz // MiB}M({pname})"] or in KiB *)
Definition mtd_def (name : list Z) (sz : Z) : list Z :=
  (if sz mod MiB =? 0 then dec_bytes (sz / MiB) ++ [77] else dec_bytes (sz / 1024) ++ [107]) ++ [40] ++ name ++ [41].

(** [int(size_hex, 16)] of a match of the second group *)
Definition yaml_part (m : place) : list Z * Z :=
  (default [] (group 1 m), digits_value 16 (removeprefix (codes "0x") (default [] (group 2 m)))).

(** The mtdparts of the header; the last partition fills the remainder. *)
Definition yaml_mtdparts (yaml : list Z) : option (list Z) :=
  match rev (yaml_part <$> re_finditer YAML_PART_RE yaml) with
  | [] => None
  | (last_name, _) :: before =>
      let defs := ((fun p => mtd_def (fst p) (snd p)) <$> rev before) ++ [codes "-(" ++ last_name ++ [41]] in
      let nand := match re_search YAML_TYPE_RE yaml with
                  | Some m => beq (default [] (group 1 m)) (codes "nand")
                  | None => false
                  end in
      Some ((if nand then codes "hinand" else codes "hi_sfc") ++ [58] ++ join [44] defs)
  end.

(** The loop over the data blocks: [while pos + 4 <= len(raw)]. *)
Fixpoint backup_blocks (fuel : nat) (raw : bytes) (pos block_num : Z) : list partition :=
  match fuel with
  | O => []
  | S fuel' =>
      if negb (pos + 4 <=? len raw) then [] else
      let block_len := le_int (slice raw pos (pos + 4)) in
      let pos := pos + 4 in
      if len raw <? pos + block_len then [] else
      (codes "mtd" ++ dec_bytes block_num, slice raw pos (pos + block_len))
        :: backup_blocks fuel' raw (pos + block_len) (block_num + 1)
  end.

Definition is_backup (raw : bytes) : bool := beq (slice raw 0 4) (codes "---" ++ [10]).

(** The partitions of an ipctool backup and the mtdparts to use. *)
Definition parse_backup (raw : bytes) (mtdparts_arg : list Z) : res (list partition * list Z) :=
  let null_pos := find_bytes [0] raw 0 (len raw) in
  if null_pos <? 0 then Raise ValueError else
  let yaml_text := utf8_decode (slice raw 0 null_pos) in
  let mtdparts := if beq mtdparts_arg [] then default [] (yaml_mtdparts yaml_text) else mtdparts_arg in
  Ok (backup_blocks (length raw) raw (null_pos + 1) 0, mtdparts).

(** What is found at the path: the files of a directory whose names match
    [mtd*], the contents of a file, or nothing. *)
Inductive dump_source := DumpDir (files : list partition) | DumpFile (raw : bytes) | DumpMissing.

Definition read_dump (d : dump_source) (mtdparts_arg : list Z) : res (list partition * list Z) :=
  match d with
  | DumpDir files => if bool_decide (files = []) then exit_ 1 else Ok (sort_parts files, mtdparts_arg)
  | DumpFile raw => if is_backup raw then parse_backup raw mtdparts_arg else Ok ([(codes "flash", raw)], mtdparts_arg)
  | DumpMissing => exit_ 1
  end.

Definition total_bytes (partitions : list partition) : Z := foldr Z.add 0 ((fun p => len (snd p)) <$> partitions).

(** ** U-Boot, the addresses and the power controller *)

Section Choices.
Variable head_url : string -> option validators.
Variable get_url : string -> option (validators * bytes).
Variable parse_date : string -> option Z.
Variable now : Z.

(** The path of the U-Boot to load, and the cache after. *)
Definition restore_uboot (uboot_path chip flash_type : string) (c : cache) : res string * cache :=
  if negb (bool_decide (uboot_path = ""%string)) then (Ok uboot_path, c) else
  let ft := Some (if bool_decide (lower flash_type = "nand"%string) then "nand"%string else "nor"%string) in
  match has_firmware head_url parse_date c chip ft with
  | Ok false => (exit_ 1, c)
  | Raise e => (Raise e, c)
  | Diverge => (Diverge, c)
  | Ok true =>
      match get_cached_path head_url parse_date c chip ft true with
      | Ok (Some n) => (Ok n, c)
      | Ok None => download_firmware head_url get_url parse_date now chip ft c
      | Raise e => (Raise e, c)
      | Diverge => (Diverge, c)
      end
  end.

(** The address this host uses to reach the world; [None] when it has none. *)
Variable local_address : option (list Z).

Definition restore_host_ip (host_ip : list Z) : list Z :=
  if beq host_ip [] then default (codes "192.168.1.10") local_address else host_ip.

(** [s.rsplit(".", 1)[0]] *)
Definition before_last_dot (s : list Z) : list Z :=
  match partition_on 46 (rev s) with Some (_, b) => rev b | None => s end.

Definition restore_device_ip (device_ip host_ip : list Z) : list Z :=
  if beq device_ip [] then before_last_dot host_ip ++ codes ".55" else device_ip.

Variable power_from_env : res power_kind.
Variable find_port_by_comment : string -> res string.

Definition restore_power (power_cycle : bool) (poe_port_override port : string) : res (option power_kind * option string) :=
  if negb power_cycle then Ok (None, None) else
  match power_from_env with
  | Raise _ => exit_ 1
  | Diverge => Diverge
  | Ok P_Other => exit_ 1
  | Ok P_Rack => Ok (Some P_Rack, Some ""%string)
  | Ok P_RouterOS =>
      if negb (bool_decide (poe_port_override = ""%string)) then Ok (Some P_RouterOS, Some poe_port_override) else
      match find_port_by_comment (device_label port) with
      | Ok p => Ok (Some P_RouterOS, Some p)
      | Raise _ => exit_ 1
      | Diverge => Diverge
      end
  end.

End Choices.

(** ** Where the partitions go *)

(** [[(i, p)]] of the partitions to write, the boot partition last. *)
Definition is_boot (ip : Z * partition) : bool :=
  (fst ip =? 0) || beq (fst (snd ip)) (codes "mtd0") || beq (fst (snd ip)) (codes "boot").

Definition enumerate {A} (l : list A) : list (Z * A) := imap (fun i x => (Z.of_nat i, x)) l.

Definition write_order (partitions : list partition) : list (Z * partition) :=
  let order := enumerate partitions in
  List.filter (fun ip => negb (is_boot ip)) order ++ List.filter is_boot order.

Definition KM : re := Chr (fun c => (lower_code c =? 107) || (lower_code c =? 109)).
(** [([\d]+)([kKmM]?)] *)
Definition SIZE_RE : re := Seq (Group 1 (plus dg)) (Group 2 (opt KM)).

(** The offsets of the partitions in a list of definitions, and the offset
    behind the last. *)
Fixpoint def_offsets (defs : list (list Z)) (i cur : Z) (offs : gmap Z Z) : gmap Z Z * Z :=
  match defs with
  | [] => (offs, cur)
  | pd :: rest =>
      let offs := <[i := cur]> offs in
      let pd := strip pd in
      if starts_with (codes "-(") pd then (offs, cur) else
      let cur :=
        match re_match SIZE_RE pd with
        | Some m =>
            let sz := group_dec 1 m in
            let u := upper_codes (default [] (group 2 m)) in
            cur + (if beq u [77] then sz * MiB else if beq u [75] then sz * 1024 else sz)
        | None => cur
        end in
      def_offsets rest (i + 1) cur offs
  end.

(** [s.split(":", 1)[1]] *)
Definition after_colon (s : list Z) : option (list Z) := snd <$> partition_on 58 s.

(** [_part_offsets] *)
Definition part_offsets (nand : bool) (mtdparts : list Z) (partitions : list partition) : gmap Z Z :=
  if negb (beq mtdparts []) && nand then
    let (offs, cur) := def_offsets (split_on 44 (default mtdparts (after_colon mtdparts))) 0 0 ∅ in
    foldl (fun offs i => if bool_decide (is_Some (offs !! i)) then offs else <[i := cur]> offs) offs (range (len partitions))
  else fst (foldl (fun s ip => (<[fst ip := snd s]> (fst s), snd s + len (snd (snd ip)))) (∅, 0) (enumerate partitions)).

(** [([\d]+[kKmM]?)\((\w+)\)] and [-\((\w+)\)] *)
Definition SIZED_RE : re := seqs [Group 1 (Seq (plus dg) (opt KM)); chr 40; Group 2 (plus wd); chr 41].
Definition FILL_RE : re := seqs [lit (codes "-("); Group 1 (plus wd); chr 41].

(** [int(sz_str)] with its unit *)
Definition sized (s : list Z) : Z :=
  let number := digits_value 10 (but_last 1 s) in
  if ends_with [77] (upper_codes s) then number * MiB
  else if ends_with [75] (upper_codes s) then number * 1024
  else digits_value 10 s.

(** [ubi_partmap]: names, offsets and sizes (0 for the remainder). *)
Abbreviation partmap := (gmap Z (list Z * Z * Z)).

Fixpoint parse_partmap (defs : list (list Z)) (i cur_off : Z) (pm : partmap) : partmap :=
  match defs with
  | [] => pm
  | pdef :: rest =>
      let pdef_s := strip pdef in
      match re_match FILL_RE pdef_s with
      | Some m => parse_partmap rest (i + 1) cur_off (<[i := (default [] (group 1 m), cur_off, 0)]> pm)
      | None =>
          match re_match SIZED_RE pdef_s with
          | None => parse_partmap rest (i + 1) cur_off pm
          | Some m =>
              let sz := sized (default [] (group 1 m)) in
              parse_partmap rest (i + 1) (cur_off + sz) (<[i := (default [] (group 2 m), cur_off, sz)]> pm)
          end
      end
  end.

(** [mtdparts=(hinand:[\S]+)] *)
Definition HINAND_RE : re := Seq (lit (codes "mtdparts=")) (Group 1 (Seq (lit (codes "hinand:")) (plus (Chr (fun c => negb (is_space_code c)))))).

(** [f"0x{n:x}"], also of a negative number *)
Definition fmt_hex (n : Z) : list Z := if n <? 0 then codes "0x-" ++ codes (hex_x (- n)) else hex0x n.

(** [((n + unit - 1) // unit) * unit] *)
Definition round_up (n unit_ : Z) : Z := (n + unit_ - 1) / unit_ * unit_.

(** ** Driving the device *)

(** The switch that powers the device, its saved mode being [forced-on]:
    [power_off], and [power_on] while a session runs. *)
Class Switch (T : Type) := {
  sw_off : string -> T -> res unit * T;
  sw_on : string -> T -> T;
  sw_outcome : T -> res unit * T
}.

(** The TFTP server on this host: its start with the files and a new value of
    one of them. *)
Class HostServer (T : Type) := {
  hs_start : list partition -> T -> res unit * T;
  hs_set : list Z -> bytes -> T -> T
}.

Section Drive.
Context {T : Type} `{Transport T, Http T, HostServer T}.
Variable fuel : nat.
Variable loads : bytes -> res json.
Abbreviation MI := (M T unit).

Definition quit {A} (code : Z) : MI A := raise (TyperExit code).

(** *** Phase 2: the mode of the console *)

Definition mode_body (start : Z) (buf : bytes) : MI (ctl bytes bool) :=
  let* now := monotonic in
  if negb (now - start <? 15000000) then ret (Brk buf) else
  let* _ := write [3] in
  let* data := try_except (let* d := read 256 (Some 200000) in ret (Some d)) is_Exception (fun _ => ret None) in
  match data with
  | None => ret (Next buf)
  | Some d =>
      let buf := buf ++ d in
      let text := decode_replace buf in
      if contains (codes "start download process") text then ret (Rtn true) else
      if prompt_in text then ret (Rtn false) else ret (Next buf)
  end.

Definition restore_mode : MI bool :=
  let* start := monotonic in
  let* c := while fuel (mode_body start) [] in
  match c with
  | Rtn m => ret m
  | _ => ret false
  end.

(** [_send] of either mode *)
Definition send_ (download_mode : bool) (cmd : list Z) (timeout : Z) : MI (list Z) :=
  if download_mode then let* r := DownloadCmd.send_command fuel cmd timeout in ret (snd r)
  else prompt_command fuel cmd timeout.

(** The function that runs a command, from here on. *)
Variable send : list Z -> Z -> MI (list Z).

(** *** Phase 3: the flash *)

Definition says_any (words : list string) (resp : list Z) : bool :=
  existsb (fun w => contains (codes w) (lower_codes resp)) words.

Definition restore_flash_type (flash_type : string) : MI string :=
  if negb (bool_decide (flash_type = "auto"%string)) then ret flash_type else
  let* resp := send (codes "nand info") 10000000 in
  if says_any ["device"%string] resp && negb (says_any ["error"%string] resp) then ret "nand"%string else
  let* resp := send (codes "sf probe 0") 10000000 in
  if negb (says_any ["error"; "fail"]%string resp) then ret "nor"%string else
  let* resp := send (codes "mmc dev 0") 10000000 in
  if negb (says_any ["error"%string] resp) then ret "emmc"%string else quit 1.

(** *** Phase 4: the server and the network *)

(** Whether the pod serves the files. *)
Definition restore_backend (tftp_via : string) (rack : bool) (partitions : list partition) : MI bool :=
  let use_pod := bool_decide (tftp_via = "pod"%string) || (bool_decide (tftp_via = "auto"%string) && rack) in
  if bool_decide (tftp_via = "pod"%string) && negb rack then quit 1 else
  if use_pod && bool_decide (tftp_via = "auto"%string) then
    let* r := psram_can_fit loads (total_bytes partitions) (256 * 1024) in ret (fst r)
  else ret use_pod.

Definition ping_body (serverip : list Z) (_ : Z) (_ : unit) : MI (ctl unit unit) :=
  let* resp := send (codes "ping " ++ serverip) 15000000 in
  if contains (codes "is alive") resp then ret (Brk tt) else
  let* _ := sleep 3000000 in
  ret (Next tt).

Definition restore_network (device_ip serverip : list Z) : MI unit :=
  let* _ := send (codes "setenv ipaddr " ++ device_ip) 60000000 in
  let* _ := send (codes "setenv serverip " ++ serverip) 60000000 in
  let* c := foreach (R := unit) (range 5) (ping_body serverip) tt in
  match c with
  | Brk _ => ret tt
  | _ => quit 1
  end.

(** [{name: data for name, data in partitions}] *)
Definition served_files (partitions : list partition) : list partition :=
  foldl (fun d p => put_item (fst p) (snd p) d) [] partitions.

Definition pod_put (name : list Z) (data : bytes) : MI unit :=
  let* _ := tftp_put loads (text_of name) data 180000000 in ret tt.

Definition restore_serve (pod : bool) (partitions : list partition) : MI unit :=
  if pod then
    let* _ := tftp_clear loads 10000000 in
    let* _ := foreach (R := Empty_set) (served_files partitions) (fun p _ => let* _ := pod_put (fst p) (snd p) in ret (Next tt)) tt in
    ret tt
  else effect (hs_start (served_files partitions)).

(** [_replace_in_tftp] *)
Definition replace_served (pod : bool) (name : list Z) (data : bytes) : MI unit :=
  if pod then pod_put name data else effect (fun t => (Ok tt, hs_set name data t)).

(** *** Phase 5: writing *)

Variable pod : bool.
Variable flash : string.
Variable ram_addr : Z.
Variable mtdparts_arg : list Z.
Variable partitions : list partition.

Definition is_flash (name : string) : bool := bool_decide (flash = name).

Definition load_cmd (word : string) (name : list Z) : list Z := codes word ++ codes " " ++ hex0x ram_addr ++ codes " " ++ name.

Definition loaded (resp : list Z) : bool := says_any ["done"; "bytes transferred"]%string resp.

(** TFTP into RAM: whether U-Boot reported it as done. *)
Definition fetch (name : list Z) : MI bool :=
  let* resp := send (load_cmd "tftpboot" name) 120000000 in
  let* resp := if says_any ["unknown command"%string] resp then send (load_cmd "tftp" name) 120000000 else ret resp in
  ret (loaded resp).

(** [f"... 0x{a:x} 0x{b:x} ..."] *)
Definition cmd_args (word : string) (args : list Z) : list Z := codes word ++ concat ((fun n => codes " " ++ fmt_hex n) <$> args).

(** The erase and the write of a partition that is not UBI. *)
Definition raw_commands (offset : Z) (data : bytes) : list (list Z) :=
  if is_flash "nand" then
    [cmd_args "nand erase" [offset; round_up (len data) 0x20000];
     cmd_args "nand write" [ram_addr; offset; round_up (len data) 2048]]
  else if is_flash "nor" then
    [cmd_args "sf erase" [offset; round_up (len data) 0x10000];
     cmd_args "sf write" [ram_addr; offset; len data]]
  else if is_flash "emmc" then
    [cmd_args "mmc erase" [offset / 512; (len data + 511) / 512];
     cmd_args "mmc write" [ram_addr; offset / 512; (len data + 511) / 512]]
  else [].

(** Commands, with their timeouts, whose answers are not looked at. *)
Fixpoint send_all (cs : list (list Z * Z)) : MI unit :=
  match cs with
  | [] => ret tt
  | (c, timeout) :: cs' => let* _ := send c timeout in send_all cs'
  end.

Definition write_raw (name : list Z) (data : bytes) (offset : Z) : MI unit :=
  let* ok := fetch name in
  if negb ok then ret tt else send_all ((fun c => (c, 120000000)) <$> raw_commands offset data).

(** The mtdparts for the UBI commands: those given, or those of the device. *)
Definition ubi_mtdparts : MI (option (list Z)) :=
  if negb (beq mtdparts_arg []) then ret (Some mtdparts_arg) else
  let* resp := send (codes "printenv bootargs") 5000000 in
  match re_search HINAND_RE resp with
  | Some m => ret (group 1 m)
  | None =>
      let* resp := send (codes "printenv mtdparts") 5000000 in
      ret (match re_search HINAND_RE resp with Some m => group 1 m | None => None end)
  end.

(** The partition map, made at the first UBI partition; [None] is the
    [continue] when there is no layout to be had. *)
Definition ubi_map (pm : option partmap) : MI (option partmap) :=
  match pm with
  | Some pm => ret (Some pm)
  | None =>
      let* v := ubi_mtdparts in
      match v with
      | None => ret None
      | Some mtdparts_val =>
          let nand_name := hd [] (split_on 58 mtdparts_val) in
          let* _ := send (codes "setenv mtdids nand0=" ++ nand_name) 60000000 in
          let* _ := send (codes "setenv mtdparts mtdparts=" ++ mtdparts_val) 60000000 in
          let* _ := send (codes "mtdparts") 60000000 in
          let* part_str := lift (of_opt IndexError (after_colon mtdparts_val)) in
          ret (Some (parse_partmap (split_on 44 part_str) 0 0 ∅))
      end
  end.

(** [[i for i, (n, d) in enumerate(partitions) if n == name][0]] *)
Definition index_of (name : list Z) : res Z :=
  of_opt IndexError (fst <$> List.find (fun ip => beq (fst (snd ip)) name) (enumerate partitions)).

(** [nand erase]; [ubi part]; [ubi create]; [ubi write] *)
Definition ubi_erase (real_off real_sz : Z) : list Z := cmd_args "nand erase" [real_off; real_sz].
Definition ubi_part (name : list Z) : list Z := codes "ubi part " ++ name.
Definition ubi_create (name : list Z) : list Z := codes "ubi create " ++ name.
Definition ubi_write (name : list Z) (size : Z) : list Z :=
  codes "ubi write " ++ hex0x ram_addr ++ codes " " ++ name ++ codes " " ++ hex0x size.

Definition write_ubi (name : list Z) (data : bytes) (pm : partmap) : MI unit :=
  let* idx := lift (index_of name) in
  match pm !! idx with
  | None => ret tt
  | Some (real_name, real_off, real_sz) =>
      let real_sz := if real_sz =? 0 then 0x8000000 - real_off else real_sz in
      let* ok := fetch name in
      if negb ok then ret tt else
      send_all [(ubi_erase real_off real_sz, 120000000); (ubi_part real_name, 120000000); (ubi_create real_name, 60000000);
        (ubi_write real_name (len data), 300000000)]
  end.

(** A UBIFS volume; the partition map after it. *)
Definition write_ubifs (name : list Z) (data : bytes) (pm : option partmap) : MI (option partmap) :=
  let* pm' := ubi_map pm in
  match pm' with
  | None => ret pm
  | Some m => let* _ := write_ubi name data m in ret (Some m)
  end.

(** The offset of a partition. *)
Definition offset_of (pm : option partmap) (part_idx : Z) : res Z :=
  match pm ≫= lookup part_idx with
  | Some (_, real_offset, _) => Ok real_offset
  | None => of_opt KeyError (part_offsets (is_flash "nand") mtdparts_arg partitions !! part_idx)
  end.

(** One turn of the loop; the state is [ubi_partmap]. *)
Definition write_body (ip : Z * partition) (pm : option partmap) : MI (ctl (option partmap) Empty_set) :=
  let '(part_idx, (name, data)) := ip in
  let* offset := lift (offset_of pm part_idx) in
  let nand := is_flash "nand" in
  let is_ubifs := nand && is_ubifs_image data in
  let* du :=
    if nand && is_ubi_image data then
      let* data := lift (extract_ubifs data 0x20000 0) in
      let* _ := replace_served pod name data in
      ret (data, true)
    else ret (data, is_ubifs) in
  let (data, is_ubifs) := du : bytes * bool in
  if nand && is_ubifs then
    let* pm := write_ubifs name data pm in
    ret (Next pm)
  else
    let* _ := write_raw name data offset in
    ret (Next pm).

Definition write_partitions : MI unit :=
  let* _ := foreach (write_order partitions) write_body None in
  let* _ := send (codes "reset") 5000000 in
  ret tt.

End Drive.

(** From the started U-Boot on. *)
Definition restore_flash {T} `{Transport T, Http T, HostServer T} (fuel : nat) (loads : bytes -> res json) (load_prof : string -> res SoCProfile)
    (chip flash_type tftp_via : string) (rack : bool) (mtdparts host_ip device_ip : list Z) (partitions : list partition) : M T unit unit :=
  let* download_mode := restore_mode fuel in
  let send := send_ fuel download_mode in
  let* flash := restore_flash_type send flash_type in
  let* pod := restore_backend loads tftp_via rack partitions in
  let serverip := if pod then codes "192.168.1.1" else host_ip in
  let device_ip := if pod then codes "192.168.1.20" else device_ip in
  let* _ := restore_network send device_ip serverip in
  let* _ := restore_serve loads pod partitions in
  write_partitions loads send pod flash (get_ram_staging_addr load_prof chip) mtdparts partitions.

(** ** The whole command *)

Section Restore.
Context {T : Type} `{Transport T, Http T, HostServer T, Switch T, Power T}.
Variable fuel : nat.
Variable loads : bytes -> res json.
Variable py_str : json -> string.
Variable str_exn : exn -> string.
Variable load_prof : string -> res SoCProfile.
Variable read_file : string -> res bytes.
Variable tar_members : bytes -> string + list (bytes * (string + bytes)).
Variable unix_time : Z.
(** The registered protocols, as [find_protocol] finds them. *)
Variable entry_points : option (list (option protocol_cls)).
Variable dir : gmap string string.
Variable reg : registry.
Abbreviation MI := (M T unit).

(** The session as a task, with the power coming on next to it. *)
Definition session_alongside (port : string) (session : MI RecoveryResult) : MI RecoveryResult := fun w =>
  let (r, w1) := session (World (sw_on port (tr w)) (obj w) (log w)) in
  let (p, t) := sw_outcome (tr w1) in
  let w2 := World t (obj w1) (log w1) in
  match p with
  | Ok _ => (r, w2)
  | Raise e => (Raise e, w2)
  | Diverge => (Diverge, w2)
  end.

(** Phase 1: U-Boot is loaded, by the pod or by a session. *)
Definition restore_load (chip uboot_path : string) (kind : option power_kind) (poe_port : option string) : MI RecoveryResult :=
  if is_rack kind then
    let* uboot_bytes := lift (read_file uboot_path) in
    run_rack_fastboot loads py_str load_prof chip uboot_bytes None 180000000
  else
    let port := match poe_port with Some ""%string => None | p => p end in
    let* _ := match port with
              | Some p => let* _ := effect (sw_off p) in sleep 3000000
              | None => ret tt
              end in
    let* _ := flush_input in
    let* s := lift (fst (session_init entry_points dir chip (Some uboot_path) None false None "nor" reg)) in
    let session := with_object (P_HiSiliconV500 None)
                     (let* r := Session.run fuel load_prof read_file tar_members str_exn unix_time s false 2 in ret (fst r)) in
    match port with
    | Some p => session_alongside p session
    | None => session
    end.

(** [_restore_async] from the chosen U-Boot and addresses on. *)
Definition restore_run (chip uboot_path flash_type tftp_via : string) (kind : option power_kind) (poe_port : option string)
    (mtdparts host_ip device_ip : list Z) (partitions : list partition) : MI unit :=
  let* result := restore_load chip uboot_path kind poe_port in
  if negb (r_success result) then quit 1 else
  restore_flash fuel loads load_prof chip flash_type tftp_via (is_rack kind) mtdparts host_ip device_ip partitions.

(** [_restore_async], with the cache of downloaded images after it. *)
Definition restore_async head_url get_url parse_date now local_address power_from_env find_port_by_comment
    (dump : dump_source) (chip port uboot_path flash_type tftp_via poe_port_override : string) (power_cycle : bool)
    (mtdparts_arg host_ip device_ip : list Z) (c : cache) : MI cache :=
  let* pm := lift (read_dump dump mtdparts_arg) in
  let (partitions, mtdparts) := pm : list partition * list Z in
  let (path, c') := restore_uboot head_url get_url parse_date now uboot_path chip flash_type c in
  let* path := lift path in
  let host_ip := restore_host_ip local_address host_ip in
  let device_ip := restore_device_ip device_ip host_ip in
  let* kp := lift (restore_power power_from_env find_port_by_comment power_cycle poe_port_override port) in
  let* _ := restore_run chip path flash_type tftp_via (fst kp) (snd kp) mtdparts host_ip device_ip partitions in
  ret c'.

End Restore.

(** ** Backups are read back *)

(** A backup: the header, a zero byte, the blocks with their lengths, and what
    is left of a last block that was cut off. *)
Definition backup_file (header : bytes) (blocks : list bytes) (tail : bytes) : bytes :=
  header ++ [0] ++ concat ((fun b => le_bytes 4 (len b) ++ b) <$> blocks) ++ tail.

Definition cut_off (tail : bytes) : Prop := len tail < 4 \/ len tail < 4 + le_int (slice tail 0 4).

Lemma backup_blocks_spec fuel pre blocks tail i :
  Forall (fun b => fits 4 (len b) = true) blocks -> cut_off tail -> (length blocks < fuel)%nat ->
  backup_blocks fuel (pre ++ concat ((fun b => le_bytes 4 (len b) ++ b) <$> blocks) ++ tail) (len pre) i =
    imap (fun k b => (codes "mtd" ++ dec_bytes (i + Z.of_nat k), b)) blocks.
Proof.
  intros Hb Ht. revert fuel pre i. induction Hb as [|b blocks Hb _ IH]; intros [|fuel] pre i Hf; [lia| |lia|]; cbn [backup_blocks].
  - cbn [fmap list_fmap concat app imap]. pose proof (len_nonneg tail). rewrite len_app.
    destruct (len pre + 4 <=? len pre + len tail) eqn:E; cbn [negb]; [|done]. b2p. rewrite slice_app_r by lia.
    replace (len pre - len pre) with 0 by lia. replace (len pre + 4 - len pre) with 4 by lia.
    destruct Ht as [Ht|Ht]; [lia|]. by replace (len pre + len tail <? len pre + 4 + le_int (slice tail 0 4)) with true by lia.
  - cbn [fmap list_fmap concat]. set (rest := concat ((fun b => le_bytes 4 (len b) ++ b) <$> blocks)).
    pose proof (le_bytes_len 4 (len b) ltac:(lia)) as H4. pose proof (len_nonneg b). pose proof (len_nonneg rest). pose proof (len_nonneg tail).
    rewrite <- !app_assoc, !len_app, H4.
    replace (len pre + 4 <=? len pre + (4 + (len b + (len rest + len tail)))) with true by lia. cbn [negb].
    rewrite slice_mid by (rewrite ?H4; lia). rewrite le_int_le_bytes by (done || lia).
    replace (len pre + (4 + (len b + (len rest + len tail))) <? len pre + 4 + len b) with false by lia.
    rewrite imap_cons. f_equal.
    + f_equal; [by rewrite Z.add_0_r|]. rewrite (app_assoc pre). by apply slice_mid; rewrite len_app, H4; lia.
    + rewrite (app_assoc pre), (app_assoc (pre ++ _)).
      replace (len pre + 4 + len b) with (len ((pre ++ le_bytes 4 (len b)) ++ b)) by (rewrite !len_app, H4; lia).
      rewrite IH by (cbn in Hf; lia). apply imap_ext. intros k x _. cbn. do 3 f_equal. lia.
Qed.

Lemma find_zero header rest :
  Forall (fun c => c <> 0) header -> find_bytes [0] (header ++ [0] ++ rest) 0 (len (header ++ [0] ++ rest)) = len header.
Proof.
  intros Hh. pose proof (len_nonneg header). pose proof (len_nonneg rest).
  destruct (find_bytes_spec [0] (header ++ [0] ++ rest) 0 (len (header ++ [0] ++ rest)) ltac:(lia)) as [[Hr Hno]|(Hr0 & Hr1 & Hat & Hfirst)].
  - exfalso. apply (Hno (len header)); [lia|rewrite !len_app; change (len [0]) with 1; lia|]. by apply slice_mid.
  - revert Hr0 Hr1 Hat Hfirst. generalize (find_bytes [0] (header ++ [0] ++ rest) 0 (len (header ++ [0] ++ rest))) as r.
    intros r Hr0 Hr1 Hat Hfirst. change (len [0]) with 1 in *.
    destruct (Z.lt_trichotomy r (len header)) as [Hlt|[?|Hgt]]; [exfalso|done|exfalso].
    + rewrite slice_app_l in Hat by lia. assert (Hin : 0 ∈ header); [|by rewrite Forall_forall in Hh; apply (Hh 0 Hin)].
      assert (In0 : 0 ∈ slice header r (r + 1)) by (rewrite Hat; by left).
      unfold slice in In0. apply elem_of_take in In0 as (k & Hk & _). rewrite lookup_drop in Hk. by eapply list_elem_of_lookup_2.
    + apply (Hfirst (len header)); [lia..|]. by apply slice_mid.
Qed.

(** C29. An ipctool backup is read back block for block, whatever the bytes in
    the blocks: the partitions are named [mtd0], [mtd1] and so on, a last
    block that was cut off is left out, and the layout is the one given or
    else the one of the header. *)
Theorem ipctool_backup_roundtrip header blocks tail mtdparts_arg :
  starts_with (codes "---" ++ [10]) header = true -> Forall (fun c => c <> 0) header ->
  Forall (fun b => len b < 2 ^ 32) blocks -> cut_off tail ->
  read_dump (DumpFile (backup_file header blocks tail)) mtdparts_arg =
    Ok (imap (fun i b => (codes "mtd" ++ dec_bytes (Z.of_nat i), b)) blocks,
        if beq mtdparts_arg [] then default [] (yaml_mtdparts (utf8_decode header)) else mtdparts_arg).
Proof.
  intros Hs Hz Hb Ht. unfold read_dump, is_backup, backup_file. apply starts_with_inv in Hs as [u ->].
  rewrite <- (app_assoc _ u). rewrite slice_prefix by done. unfold beq at 1. rewrite bool_decide_eq_true_2 by done.
  rewrite (app_assoc _ u). set (header := _ ++ u) in *.
  unfold parse_backup. set (rest := concat _ ++ tail). rewrite find_zero by done. pose proof (len_nonneg header).
  replace (len header <? 0) with false by lia. rewrite slice_prefix by done. do 2 f_equal. unfold rest. rewrite (app_assoc header).
  replace (len header + 1) with (len (header ++ [0])) by (rewrite len_app; done).
  rewrite backup_blocks_spec; [done| |done|].
  - eapply Forall_impl; [exact Hb|]. intros b Hlb. apply fits_spec. pose proof (len_nonneg b). split; [lia|exact Hlb].
  - rewrite !length_app. cbn [length]. assert (length blocks <= length (concat ((fun b => le_bytes 4 (len b) ++ b) <$> blocks)))%nat; [|lia].
    clear. induction blocks as [|b blocks IH]; [done|]. cbn [fmap list_fmap concat length]. rewrite !length_app.
    pose proof (le_bytes_len 4 (len b) ltac:(lia)). unfold len in *. lia.
Qed.

Theorem ipctool_backup_roundtrip_witness :
  let header := codes "---" ++ [10] ++ codes "partitions:" ++ [10; 32] ++ codes "name: boot" ++ [10; 32] ++ codes "size: 0x40000" ++ [10; 32] ++ codes "name: rootfs" ++ [10; 32] ++ codes "size: 0x500000" ++ [10] in
  read_dump (DumpFile (backup_file header [[1; 2; 3]; []; [0; 45]] [9; 0; 0; 0; 1])) [] =
    Ok ([(codes "mtd0", [1; 2; 3]); (codes "mtd1", []); (codes "mtd2", [0; 45])], codes "hi_sfc:256k(boot),-(rootfs)").
Proof.
  intros header. etransitivity; [apply (ipctool_backup_roundtrip header [[1; 2; 3]; []; [0; 45]] [9; 0; 0; 0; 1] [])|].
  - reflexivity.
  - apply (bool_decide_eq_true_1 _). vm_compute. reflexivity.
  - repeat constructor.
  - by right.
  - vm_compute. reflexivity.
Defined.
