(* ===== verification/RestoreSafe.v ===== *)
(** * What a restore writes, and in which order

  Safety of [Restore]: the commands that [restore] gives U-Boot, over any
  transport, pod and server and whatever the device answers, in the logic of
  [Commands]. *)

From S2P Require Import Prelude Text Regex Rack Profiles Layout Capture Ubi Ymodem Flashdump DownloadCmd Install Commands Restore.
From S2P Require Import Transport.

Lemma fmap_timed {A} (t : Z) (l : list A) : ((fun c => (c, t)) <$> l).*1 = l.
Proof. induction l as [|c l IH]; [done|]. cbn. by rewrite IH. Qed.

Section Safe.
Context {T : Type} `{Transport T, Http T, HostServer T}.
Variable fuel : nat.
Variable loads : bytes -> res json.
Variable download_mode : bool.
Abbreviation MI := (M T unit).
Abbreviation send := (send_ (T := T) fuel download_mode).
Abbreviation label := (list Z * res (list Z))%type.

(** [l] is what giving the command [c] appends to the log, with outcome [r]. *)
Definition rsays (c : list Z) (r : res (list Z)) (l : list event) : Prop :=
  exists (w : world T unit) tmo, fst (send c tmo w) = r /\ log (snd (send c tmo w)) = log w ++ l.
Abbreviation asks := (asks (T := T) (Ob := unit) rsays).
Abbreviation quietly := (quietly (T := T) (Ob := unit) rsays).

Lemma keeps_send P c tmo : keeps P (send c tmo).
Proof.
  unfold send_. pose proof (keeps_dl_send (T := T) (Ob := unit) fuel P). pose proof (keeps_prompt_command (T := T) (Ob := unit) fuel P).
  keeps_go.
Qed.

Lemma asks_send c tmo (Q : res (list Z) -> list label -> Prop) : (forall r, Q r [(c, r)]) -> asks (send c tmo) Q.
Proof.
  intros HQ w. destruct (keeps_send (fun o => o = obj w) c tmo (obj w) eq_refl w eq_refl) as (l & Hl & _).
  exists l. split; [done|]. exists [(c, fst (send c tmo w))]. split; [|apply HQ]. apply commands_one. by exists w, tmo.
Qed.

Lemma quietly_send c tmo : flash_write c = false -> quietly (send c tmo).
Proof. intros Hc. apply asks_send. intros r. by apply quiet_one. Qed.

(** ** The parts that leave the device alone *)

Lemma sends_effect {A} (f : T -> res A * T) : sends (Ob := unit) (eq [3]) (effect f).
Proof. intros w. exists []. rewrite app_nil_r. unfold effect. by destruct (f (tr w)). Qed.

Lemma sends_http r : sends (eq [3]) (http r).
Proof. intros w. exists []. rewrite app_nil_r. unfold http. by destruct (h_send r (tr w)). Qed.

Lemma sends_http_send method path body tmo : sends (eq [3]) (http_send loads method path body tmo).
Proof. unfold http_send, parse_payload. pose proof sends_http. sends_go. Qed.

Lemma sends_serve pod parts : sends (eq [3]) (restore_serve loads pod parts).
Proof.
  unfold restore_serve, tftp_clear, pod_put, tftp_put. pose proof sends_http_send. pose proof @sends_effect. sends_go.
Qed.

Lemma sends_replace pod name data : sends (eq [3]) (replace_served loads pod name data).
Proof. unfold replace_served, pod_put, tftp_put. pose proof sends_http_send. pose proof @sends_effect. sends_go. Qed.

Lemma sends_backend via rack parts : sends (eq [3]) (restore_backend loads via rack parts).
Proof. unfold restore_backend, psram_can_fit, tftp_list, quit. pose proof sends_http_send. sends_go. Qed.

Lemma sends_mode : sends (Ob := unit) (eq [3]) (restore_mode fuel).
Proof. unfold restore_mode, mode_body. sends_go. Qed.

Lemma quietly_flash_type flash_type : quietly (restore_flash_type send flash_type).
Proof. unfold restore_flash_type, quit. quiet_go; by apply quietly_send. Qed.

(** A ping was answered. *)
Definition pinged (serverip : list Z) (tr : list label) : Prop :=
  exists resp, In (codes "ping " ++ serverip, Ok resp) tr /\ contains (codes "is alive") resp = true.

Lemma asks_pings serverip (xs : list Z) :
  asks (foreach (R := unit) xs (ping_body send serverip) tt) (fun r tr => quiet tr /\ forall u, r = Ok (Brk u) -> pinged serverip tr).
Proof.
  induction xs as [|x xs IH]; cbn [foreach]; [by apply asks_ret|]. apply asks_bind. unfold ping_body at 1.
  apply asks_bind, asks_send. intros r.
  assert (Hq : quiet [(codes "ping " ++ serverip, r)]) by (by apply quiet_one).
  destruct r as [resp|e|]; [|by split..]. destruct (contains (codes "is alive") resp) eqn:Ec.
  - ask_ret. ask_ret. split; [done|]. intros u _. exists resp. split; [by left|done].
  - apply asks_bind. eapply asks_weaken; [apply asks_waits, sends_sleep|]. intros [u|e|] tr ->; [|by nil_r..].
    ask_ret. eapply asks_weaken; [apply IH|]. intros r tr [Hq' Hp]. split; [by apply (quiet_app [_])|].
    intros v Hv. destruct (Hp v Hv) as (a & Hin & Ha). exists a. split; [by right|done].
Qed.

Lemma asks_network device_ip serverip :
  asks (restore_network send device_ip serverip) (fun r tr => quiet tr /\ (r = Ok tt -> pinged serverip tr)).
Proof.
  unfold restore_network. apply asks_bind. eapply asks_weaken; [by apply quietly_send|]. intros [a|e|] t1 Hq1; [|by split..].
  apply asks_bind. eapply asks_weaken; [by apply quietly_send|]. intros [b|e|] t2 Hq2; [|split; [by apply quiet_app|done]..].
  apply asks_bind. eapply asks_weaken; [apply asks_pings|].
  assert (Hq : forall t, quiet t -> quiet (t1 ++ t2 ++ t)) by (intros t Ht; by repeat apply quiet_app).
  intros [[u|u|u]|e|] t [Ht Hp]; try (split; [by apply Hq|done]).
  - apply asks_raise. nil_r. by split; [apply Hq|].
  - ask_ret. split; [by apply Hq|]. intros _. destruct (Hp u eq_refl) as (resp & Hin & Hc). exists resp. split; [|done].
    apply in_app_iff. right. apply in_app_iff. by right.
  - apply asks_raise. nil_r. by split; [apply Hq|].
Qed.

(** ** One partition *)

Variable pod : bool.
Variable flash : string.
Variable ram_addr : Z.
Variable mtdparts_arg : list Z.
Variable partitions : list partition.

Abbreviation nand := (is_flash flash "nand").

(** A load of the file into RAM that U-Boot reported as done. *)
Definition fetched (name : list Z) (tr : list label) : Prop :=
  exists resp, loaded resp = true /\
    (tr = [(load_cmd ram_addr "tftpboot" name, Ok resp)] \/
     exists r0, says_any ["unknown command"%string] r0 = true /\
       tr = [(load_cmd ram_addr "tftpboot" name, Ok r0); (load_cmd ram_addr "tftp" name, Ok resp)]).

Lemma fetch_asks name :
  asks (fetch send ram_addr name) (fun r tr => quiet tr /\ (r = Ok true -> fetched name tr)).
Proof.
  unfold fetch. assert (Hq : forall w r, w = "tftpboot"%string \/ w = "tftp"%string -> quiet (R := res (list Z)) [(load_cmd ram_addr w name, r)]).
  { intros w r [-> | ->]; by apply quiet_one. }
  apply asks_bind, asks_send. intros [r0|e|]; [|split; [by apply Hq; left|done]..].
  apply asks_bind. destruct (says_any ["unknown command"%string] r0) eqn:Eu.
  - apply asks_send. intros [resp|e|].
    2,3: split; [apply (quiet_app [_] [_]); apply Hq; auto|done].
    ask_ret. split; [apply (quiet_app [_] [_]); apply Hq; auto|]. intros [= Hl]. exists resp. split; [done|right]. by exists r0.
  - ask_ret. ask_ret. split; [by apply Hq; left|]. intros [= Hl]. exists r0. split; [done|by left].
Qed.

(** The layout that a UBI partition map was made of. *)
Definition known (pm : option partmap) : Prop :=
  match pm with
  | None => True
  | Some m => nand = true /\ exists mtdparts parts, (mtdparts_arg <> [] -> mtdparts = mtdparts_arg) /\
      after_colon mtdparts = Some parts /\ m = parse_partmap (split_on 44 parts) 0 0 ∅
  end.

(** The commands that follow the load of a partition: the erase and the write
    at its offset, or those of a UBI volume, with the name and the size of its
    entry in the layout. *)
Inductive part_commands : Z * partition -> list (list Z) -> Prop :=
  | pc_raw i name data pm off :
      known pm -> offset_of flash mtdparts_arg partitions pm i = Ok off -> is_ubi_image data && nand = false ->
      part_commands (i, (name, data)) (raw_commands flash ram_addr off data)
  | pc_ubi i name data data' m idx vol off sz :
      nand = true -> known (Some m) -> index_of partitions name = Ok idx -> m !! idx = Some (vol, off, sz) ->
      (is_ubi_image data = false /\ is_ubifs_image data = true /\ data' = data \/
       is_ubi_image data = true /\ extract_ubifs data 0x20000 0 = Ok data') ->
      part_commands (i, (name, data))
        [ubi_erase off (if sz =? 0 then 0x8000000 - off else sz); ubi_part vol; ubi_create vol; ubi_write ram_addr vol (len data')].

(** The partition was written: nothing was changed before its load was done. *)
Definition restored (ip : Z * partition) (tr : list label) : Prop :=
  exists q v cs answers, tr = q ++ v ++ zip cs (Ok <$> answers) /\ quiet q /\ fetched (fst (snd ip)) v /\
    part_commands ip cs /\ length answers = length cs.

(** Or left out. *)
Definition handled (ip : Z * partition) (tr : list label) : Prop := quiet tr \/ restored ip tr.

(** It ended with an exception: at the latest at the first command that did
    not return. *)
Definition cut (ip : Z * partition) (tr : list label) : Prop :=
  quiet tr \/ exists q v cs answers r, tr = q ++ v ++ zip cs ((Ok <$> answers) ++ [r]) /\ quiet q /\ fetched (fst (snd ip)) v /\
    part_commands ip cs /\ (length answers < length cs)%nat.

Lemma send_all_asks cs :
  asks (send_all send cs) (fun r tr =>
    match r with
    | Ok _ => exists answers, tr = zip cs.*1 (Ok <$> answers) /\ length answers = length cs.*1
    | _ => exists answers r, tr = zip cs.*1 ((Ok <$> answers) ++ [r]) /\ (length answers < length cs.*1)%nat
    end).
Proof.
  induction cs as [|[c tmo] cs IH]; cbn [send_all]; [apply asks_ret; by exists []|].
  apply asks_bind, asks_send. intros [a|e|]; [|exists [], (Raise e)|exists [], Diverge]; [|split; [by destruct cs|cbn; lia]..].
  eapply asks_weaken; [exact IH|]. intros [u|e|] tr.
  - intros (answers & -> & Hl). exists (a :: answers). split; [done|cbn; lia].
  - intros (answers & r & -> & Hl). exists (a :: answers), r. split; [done|cbn; lia].
  - intros (answers & r & -> & Hl). exists (a :: answers), r. split; [done|cbn; lia].
Qed.

(** The two ends of a partition, behind commands [q] that change nothing. *)
Definition ends_part (ip : Z * partition) (q : list label) (r : bool) (tr : list label) : Prop :=
  if r then handled ip (q ++ tr) else cut ip (q ++ tr).

Definition is_Ok {A} (r : res A) : bool := match r with Ok _ => true | _ => false end.

Lemma ends_quiet ip q b tr : quiet q -> quiet tr -> ends_part ip q b tr.
Proof. intros Hq Ht. destruct b; left; by apply quiet_app. Qed.

Lemma write_group ip q v cs :
  quiet q -> fetched (fst (snd ip)) v -> part_commands ip cs.*1 ->
  asks (send_all send cs) (fun r tr => ends_part ip q (is_Ok r) (v ++ tr)).
Proof.
  intros Hq Hv Hc. eapply asks_weaken; [apply send_all_asks|]. intros [u|e|] tr; cbn [is_Ok ends_part].
  - intros (answers & -> & Hl). right. by exists q, v, cs.*1, answers.
  - intros (answers & r & -> & Hl). right. by exists q, v, cs.*1, answers, r.
  - intros (answers & r & -> & Hl). right. by exists q, v, cs.*1, answers, r.
Qed.

Lemma write_raw_asks i name data pm off q :
  known pm -> offset_of flash mtdparts_arg partitions pm i = Ok off -> is_ubi_image data && nand = false -> quiet q ->
  asks (write_raw send flash ram_addr name data off) (fun r tr => ends_part (i, (name, data)) q (is_Ok r) tr).
Proof.
  intros Hk Ho Hu Hq. unfold write_raw. apply asks_bind. eapply asks_weaken; [apply fetch_asks|].
  intros [[|]|e|] v [Hqv Hv]; cbn [negb]; [|ask_ret; by apply ends_quiet|by apply (ends_quiet _ _ false)..].
  apply write_group; [done|by apply Hv|]. rewrite fmap_timed. by eapply pc_raw.
Qed.

(** What holds of the result of code that changes nothing. *)
Lemma quiet_then {A B} (m : MI A) (f : A -> MI B) (Q : B -> Prop) :
  quietly m -> (forall a, asks (f a) (fun r tr => quiet tr /\ forall b, r = Ok b -> Q b)) ->
  asks (bind m f) (fun r tr => quiet tr /\ forall b, r = Ok b -> Q b).
Proof.
  intros Hm Hf. apply asks_bind. eapply asks_weaken; [exact Hm|]. intros [a|e|] t Ht; [|by split..].
  eapply asks_weaken; [apply Hf|]. intros r t' [Ht' HQ]. split; [by apply quiet_app|done].
Qed.

Lemma quiet_result {A} (m : MI A) (Q : A -> Prop) : quietly m -> yields m Q -> asks m (fun r tr => quiet tr /\ forall b, r = Ok b -> Q b).
Proof.
  intros Hm Hy w. destruct (Hm w) as (l & Hl & tr & Hc & Hq). exists l. split; [done|]. exists tr. split; [done|]. split; [done|].
  intros b Hb. destruct (m w) as [r w'] eqn:E. cbn in Hb. subst r. by eapply Hy.
Qed.

Lemma asks_mtdparts :
  asks (ubi_mtdparts send mtdparts_arg) (fun r tr => quiet tr /\
    forall v, r = Ok v -> mtdparts_arg <> [] -> v = Some mtdparts_arg).
Proof.
  unfold ubi_mtdparts. destruct (beq mtdparts_arg []) eqn:E; cbn [negb].
  - b2p. apply quiet_result; [quiet_go; by apply quietly_send|]. by intros w v w' _ Hne.
  - apply asks_ret. split; [done|]. by intros v [= ->].
Qed.

Lemma ubi_map_asks pm :
  nand = true -> known pm ->
  asks (ubi_map send mtdparts_arg pm) (fun r tr => quiet tr /\ forall m, r = Ok m -> known m).
Proof.
  intros Hn Hk. unfold ubi_map. destruct pm as [m|]; [apply asks_ret; split; [done|]; by intros m' [= <-]|].
  apply asks_bind. eapply asks_weaken; [apply asks_mtdparts|].
  intros [[v|]|e|] t0 [Hq0 Hv]; [|ask_ret; by split; [|intros m [= <-]]|by split..]. specialize (Hv _ eq_refl).
  apply (asks_weaken _ _ (fun r tr => quiet tr /\ forall m, r = Ok m -> known m)).
  2: { intros r tr [Hq Hm]. split; [by apply quiet_app|done]. }
  do 3 (apply quiet_then; [by apply quietly_send|intros _]). apply quiet_result; [quiet_go|].
  intros w m w'. unfold bind, lift. destruct (after_colon v) as [parts|] eqn:Ea; [|done]. intros [= <- _].
  split; [done|]. exists v, parts. split_and!; [|done..]. intros Hne. by injection (Hv Hne).
Qed.

Lemma write_ubi_asks i name data data' m q :
  nand = true -> known (Some m) -> quiet q ->
  (is_ubi_image data = false /\ is_ubifs_image data = true /\ data' = data \/
   is_ubi_image data = true /\ extract_ubifs data 0x20000 0 = Ok data') ->
  asks (write_ubi send ram_addr partitions name data' m) (fun r tr => ends_part (i, (name, data)) q (is_Ok r) tr).
Proof.
  intros Hn Hk Hq Hd. unfold write_ubi. apply asks_bind, asks_lift.
  destruct (index_of partitions name) as [idx|e|] eqn:Ei; [|by apply (ends_quiet _ _ false)..].
  destruct (m !! idx) as [[[vol off] sz]|] eqn:Em; [|ask_ret; by apply (ends_quiet _ _ true)].
  apply asks_bind. eapply asks_weaken; [apply fetch_asks|].
  intros [[|]|e|] v [Hqv Hv]; cbn [negb]; [|ask_ret; by apply (ends_quiet _ _ true)|by apply (ends_quiet _ _ false)..].
  apply write_group; [done|by apply Hv|]. by eapply pc_ubi.
Qed.

Lemma write_ubifs_asks i name data data' pm q :
  nand = true -> known pm -> quiet q ->
  (is_ubi_image data = false /\ is_ubifs_image data = true /\ data' = data \/
   is_ubi_image data = true /\ extract_ubifs data 0x20000 0 = Ok data') ->
  asks (write_ubifs send ram_addr mtdparts_arg partitions name data' pm) (fun r tr =>
    ends_part (i, (name, data)) q (is_Ok r) tr /\ forall m, r = Ok m -> known m).
Proof.
  intros Hn Hk Hq Hd. unfold write_ubifs. apply asks_bind. eapply asks_weaken; [by apply ubi_map_asks|].
  intros [[m|]|e|] t [Ht Hm]; [|ask_ret; split; [by apply (ends_quiet _ _ true)|by intros m [= <-]]|
    split; [by apply (ends_quiet _ _ false)|done]..].
  apply asks_bind. eapply asks_weaken; [apply (write_ubi_asks i name data data' m (q ++ t)); [done|by apply Hm|by apply quiet_app|done]|].
  intros [u|e|] t2; unfold ends_part; cbn [is_Ok]; rewrite <- app_assoc; [|done..]. intros Hh. ask_ret.
  split; [done|]. intros m' [= <-]. by apply Hm.
Qed.

Lemma write_body_asks ip pm :
  known pm ->
  asks (write_body loads send pod flash ram_addr mtdparts_arg partitions ip pm) (fun r tr =>
    match r with Ok (Next pm') => known pm' /\ handled ip tr | Ok (Brk _) => False | Ok (Rtn _) => False | _ => cut ip tr end).
Proof.
  intros Hk. destruct ip as [i [name data]]. unfold write_body. apply asks_bind, asks_lift.
  destruct (offset_of flash mtdparts_arg partitions pm i) as [off|e|] eqn:Eo; [|by left..]. nil_r.
  destruct nand eqn:En; cbn [andb]; [destruct (is_ubi_image data) eqn:Eu|].
  - apply asks_bind, asks_bind, asks_lift. destruct (extract_ubifs data 0x20000 0) as [data'|e|] eqn:Ee; [|by left..]. nil_r.
    apply asks_bind. eapply asks_weaken; [apply asks_waits, sends_replace|]. intros [u|e|] tr ->; [|by left..]. ask_ret. nil_r.
    apply asks_bind. eapply asks_weaken; [apply (write_ubifs_asks i name data data' pm []); [done..|by right]|].
    intros [m|e|] tr [Hh Hm]; [|exact Hh..]. ask_ret. split; [by apply Hm|exact Hh].
  - apply asks_bind, asks_ret. cbn beta iota. destruct (is_ubifs_image data) eqn:Ef; cbn [andb].
    + apply asks_bind. eapply asks_weaken; [apply (write_ubifs_asks i name data data pm []); [done..|by left]|].
      intros [m|e|] tr [Hh Hm]; [|exact Hh..]. ask_ret. split; [by apply Hm|exact Hh].
    + apply asks_bind. eapply asks_weaken; [apply (write_raw_asks i name data pm off []); [done..| |done]; by rewrite Eu|].
      intros [m|e|] tr Hh; [|exact Hh..]. ask_ret. split; [done|exact Hh].
  - apply asks_bind, asks_ret. cbn beta iota. cbn [andb].
    apply asks_bind. eapply asks_weaken; [apply (write_raw_asks i name data pm off []); [done..| |done]; by rewrite En, andb_false_r|].
    intros [m|e|] tr Hh; [|exact Hh..]. ask_ret. split; [done|exact Hh].
Qed.

(** ** The whole restore *)

(** Before the first change of the flash a ping was answered; then the
    partitions in order, each as [handled] says, and the reset. *)
Definition restore_outcome (serverip : list Z) (r : res unit) (tr : list label) : Prop :=
  r <> Ok tt /\ quiet tr \/
  exists t0 ts t, tr = t0 ++ concat ts ++ t /\ quiet t0 /\ pinged serverip t0 /\
    (r <> Ok tt /\ (exists dn ip rest, write_order partitions = dn ++ ip :: rest /\ Forall2 handled dn ts /\ cut ip t) \/
     Forall2 handled (write_order partitions) ts /\ exists x, t = [(codes "reset", x)] /\ (r = Ok tt -> is_Ok x = true)).

Lemma outcome_quiet serverip r t tr : quiet t -> restore_outcome serverip r tr -> restore_outcome serverip r (t ++ tr).
Proof.
  intros Ht [[Hr Hq]|(t0 & ts & t1 & -> & Hq & (a & Hin & Ha) & Ho)]; [left; split; [done|by apply quiet_app]|right].
  exists (t ++ t0), ts, t1. split_and!; [by rewrite <- app_assoc|by apply quiet_app| |done].
  exists a. split; [|done]. apply in_app_iff. by right.
Qed.

Lemma write_partitions_asks :
  asks (write_partitions loads send pod flash ram_addr mtdparts_arg partitions) (fun r tr =>
    exists ts t, tr = concat ts ++ t /\
      (r <> Ok tt /\ (exists dn ip rest, write_order partitions = dn ++ ip :: rest /\ Forall2 handled dn ts /\ cut ip t) \/
       Forall2 handled (write_order partitions) ts /\ exists x, t = [(codes "reset", x)] /\ (r = Ok tt -> is_Ok x = true))).
Proof.
  unfold write_partitions. apply asks_bind.
  eapply asks_weaken; [apply (asks_foreach _ known handled cut); [exact I|intros ip pm Hk; by apply write_body_asks]|].
  intros [[pm|pm|r]|e|] tr; try done.
  - intros (_ & ts & Hts & ->). apply asks_bind, asks_send. intros x. destruct x as [a|e|].
    + ask_ret. exists ts, [(codes "reset", Ok a)]. split; [done|]. right. split; [done|]. by exists (Ok a).
    + exists ts, [(codes "reset", Raise e)]. split; [done|]. right. split; [done|]. by exists (Raise e).
    + exists ts, [(codes "reset", Diverge)]. split; [done|]. right. split; [done|]. by exists Diverge.
  - intros (dn & ip & rest & ts & t & Ho & Hts & Hc & ->). exists ts, t. split; [done|]. left. split; [done|]. by exists dn, ip, rest.
  - intros (dn & ip & rest & ts & t & Ho & Hts & Hc & ->). exists ts, t. split; [done|]. left. split; [done|]. by exists dn, ip, rest.
Qed.

End Safe.

(** Every partition is written once, those with the boot loader behind the
    others. *)
Lemma filter_perm {A} (f : A -> bool) (l : list A) : List.filter (fun x => negb (f x)) l ++ List.filter f l ≡ₚ l.
Proof.
  induction l as [|x l IH]; [done|]. cbn [List.filter]. destruct (f x); cbn [negb]; [|cbn; by rewrite IH].
  rewrite <- Permutation_middle. by rewrite IH.
Qed.

Lemma filter_Forall {A} (f : A -> bool) (l : list A) : Forall (fun x => f x = true) (List.filter f l).
Proof. apply List.Forall_forall. by intros x [_ Hx]%filter_In. Qed.

Definition boot_last (partitions : list partition) (order : list (Z * partition)) : Prop :=
  order ≡ₚ enumerate partitions /\
  exists others boot, order = others ++ boot /\ Forall (fun ip => is_boot ip = false) others /\ Forall (fun ip => is_boot ip = true) boot.

Lemma write_order_boot_last partitions : boot_last partitions (write_order partitions).
Proof.
  split; [apply filter_perm|]. eexists _, _. split; [done|]. split; [|apply filter_Forall].
  eapply Forall_impl; [apply filter_Forall|]. intros ip Hip. by apply negb_true_iff.
Qed.

Section Whole.
Context {T : Type} `{Transport T, Http T, HostServer T}.
Variable fuel : nat.
Variable loads : bytes -> res json.

Lemma flash_type_asks dm flash_type :
  asks (rsays (T := T) fuel dm) (restore_flash_type (send_ fuel dm) flash_type) (fun r tr =>
    quiet tr /\ forall flash, r = Ok flash -> flash_type = "auto"%string \/ flash = flash_type).
Proof.
  apply quiet_result; [apply quietly_flash_type|]. intros w flash w'. unfold restore_flash_type.
  destruct (bool_decide (flash_type = "auto"%string)) eqn:E; b2p; cbn [negb]; [by left|]. intros [= <- _]. by right.
Qed.

Lemma restore_flash_commands load_prof chip flash_type tftp_via rack mtdparts host_ip device_ip partitions (w : world T unit) :
  let run := restore_flash fuel loads load_prof chip flash_type tftp_via rack mtdparts host_ip device_ip partitions w in
  exists download_mode (pod : bool) flash tr l,
    log (snd run) = log w ++ l /\ commands (rsays (T := T) fuel download_mode) tr l /\
    (flash_type = "auto"%string \/ flash = flash_type) /\
    restore_outcome flash (get_ram_staging_addr load_prof chip) mtdparts partitions
      (if pod then codes "192.168.1.1" else host_ip) (fst run) tr.
Proof.
  cbn zeta.
  destruct (restore_flash _ _ _ _ _ _ _ _ _ _ _ w) as [r0 w'] eqn:E. cbn [fst snd]. revert E.
  unfold restore_flash, bind at 1. destruct (sends_mode fuel w) as (l0 & Hl0 & Hw).
  destruct (restore_mode fuel w) as [[dm|e|] w0]; cbn [fst snd] in *.
  2,3: intros [= <- <-]; exists false, false, flash_type, [], l0; (split; [done|]; split; [rewrite <- (app_nil_r l0); apply commands_wait; [done|constructor]|by split; [right|left]]).
  match goal with |- ?m w0 = _ -> _ => assert (Hm : asks (rsays (T := T) fuel dm) m (fun r tr => exists (pod : bool) flash,
    (flash_type = "auto"%string \/ flash = flash_type) /\
    restore_outcome flash (get_ram_staging_addr load_prof chip) mtdparts partitions
      (if pod then codes "192.168.1.1" else host_ip) r tr)) end.
  - apply asks_bind. eapply asks_weaken; [apply flash_type_asks|]. intros [flash|e|] t0 [Hq0 Hf];
      [|by exists false, flash_type; split; [right|left]..]. specialize (Hf flash eq_refl).
    assert (Hstop : forall (r : res unit) t, r <> Ok tt -> quiet t -> exists (pod : bool) flash,
      (flash_type = "auto"%string \/ flash = flash_type) /\
      restore_outcome flash (get_ram_staging_addr load_prof chip) mtdparts partitions
        (if pod then codes "192.168.1.1" else host_ip) r (t0 ++ t)).
    { intros r t Hr Ht. exists false, flash. split; [done|left]. split; [done|by apply quiet_app]. }
    apply asks_bind. eapply asks_weaken; [apply asks_waits, sends_backend|]. intros [pod|e|] t ->; [|by apply Hstop..].
    apply asks_bind. eapply asks_weaken; [apply asks_network|]. intros [[]|e|] t [Hqt Hp]; [|by apply Hstop..].
    specialize (Hp eq_refl).
    apply asks_bind. eapply asks_weaken; [apply asks_waits, sends_serve|]. intros [[]|e|] t' ->; [|rewrite app_nil_r; by apply Hstop..].
    eapply asks_weaken; [apply write_partitions_asks|]. intros r tr (ts & t2 & -> & Ho). exists pod, flash. split; [done|].
    nil_r. apply outcome_quiet; [done|]. right. exists t, ts, t2. by split_and!.
  - destruct (Hm w0) as (l & Hl & tr & Hc & pod & flash & Hf & HQ). intros E. rewrite E in *. cbn [fst snd] in *.
    exists dm, pod, flash, tr, (l0 ++ l). split; [by rewrite Hl, Hl0, <- app_assoc|]. split; [by apply commands_wait|done].
Qed.
(** C8. A restore, whatever the device, the pod and the servers answer, is safe:
    the flash is not changed before a ping of the server was answered; then
    the partitions are taken in an order with the boot partition last, each
    exactly once; a partition is only erased and written after its own file
    was loaded into RAM by a command that U-Boot reported as done, and then by
    its erase and its write at its offset (or by the commands of its UBI
    volume) and by nothing else; after a call that failed nothing is sent.
    Success means that the reset was sent, and no more: a partition whose
    load failed is left out. *)
Theorem restore_safe load_prof chip flash_type tftp_via rack mtdparts host_ip device_ip partitions (w : world T unit) :
  let run := restore_flash fuel loads load_prof chip flash_type tftp_via rack mtdparts host_ip device_ip partitions w in
  boot_last partitions (write_order partitions) /\
  exists download_mode (pod : bool) flash tr l,
    log (snd run) = log w ++ l /\ commands (rsays (T := T) fuel download_mode) tr l /\
    (flash_type = "auto"%string \/ flash = flash_type) /\
    restore_outcome flash (get_ram_staging_addr load_prof chip) mtdparts partitions
      (if pod then codes "192.168.1.1" else host_ip) (fst run) tr.
Proof.
  cbn zeta. split; [apply write_order_boot_last|]. apply restore_flash_commands.
Qed.
(** A flash type the command does not know, such as [NAND] in capitals, for
    which the U-Boot for NAND is loaded, changes nothing at all. *)
Theorem unknown_flash_type_writes_nothing load_prof chip flash_type tftp_via rack mtdparts host_ip device_ip partitions (w : world T unit) :
  flash_type ∉ ["auto"; "nand"; "nor"; "emmc"]%string ->
  let run := restore_flash fuel loads load_prof chip flash_type tftp_via rack mtdparts host_ip device_ip partitions w in
  exists download_mode tr l, log (snd run) = log w ++ l /\ commands (rsays (T := T) fuel download_mode) tr l /\ quiet tr.
Proof.
  rewrite !not_elem_of_cons. intros (Ha & Hn & Hr & He & _). cbn zeta.
  pose proof (restore_flash_commands load_prof chip flash_type tftp_via rack mtdparts host_ip device_ip partitions w) as Hc.
  cbn zeta in Hc. destruct Hc as (dm & pod & flash & tr & l & Hl & Hc & [?|Hf] & Ho); [done|subst flash]. exists dm, tr, l.
  split; [done|]. split; [done|].
  assert (Hpc : forall ip cs, part_commands flash_type (get_ram_staging_addr load_prof chip) mtdparts partitions ip cs -> cs = []).
  { intros ip cs [i name data pm off|i name data data' m idx vol off sz Hnand]; unfold is_flash in *.
    - unfold raw_commands, is_flash. by rewrite !bool_decide_eq_false_2.
    - by rewrite bool_decide_eq_false_2 in Hnand. }
  assert (Hfq : forall name v, fetched (get_ram_staging_addr load_prof chip) name v -> quiet v).
  { intros name v (resp & _ & [-> |(r0 & _ & ->)]); done. }
  assert (Hzip : forall (rs : list (res (list Z))), zip ([] : list (list Z)) rs = []) by done.
  assert (Hh : forall ip t, handled flash_type (get_ram_staging_addr load_prof chip) mtdparts partitions ip t -> quiet t).
  { intros ip t [?|(q & v & cs & answers & -> & Hq & Hv & ->%Hpc & _)]; [done|]. apply quiet_app; [done|]. rewrite Hzip, app_nil_r. by eapply Hfq. }
  assert (Hcut : forall ip t, cut flash_type (get_ram_staging_addr load_prof chip) mtdparts partitions ip t -> quiet t).
  { intros ip t [?|(q & v & cs & answers & r & -> & Hq & Hv & ->%Hpc & Hlt)]; [done|]. cbn in Hlt. lia. }
  assert (Hts : forall ips ts, Forall2 (handled flash_type (get_ram_staging_addr load_prof chip) mtdparts partitions) ips ts -> quiet (concat ts)).
  { induction 1 as [|ip t ips ts Ht _ IH]; [done|]. apply quiet_app; [by eapply Hh|done]. }
  destruct Ho as [[_ ?]|(t0 & ts & t & -> & Hq & _ & [[_ (dn & ip & rest & _ & Hd & Hct)]|[Hd (x & -> & _)]])]; [done|..];
    (apply quiet_app; [done|apply quiet_app; [by eapply Hts|]]); [by eapply Hcut|done].
Qed.
End Whole.
