(* ===== verification/RestoreNor.v ===== *)
(** * A restore on a camera with a NOR flash

  The device side of [Restore]: a U-Boot shell that executes the commands of a
  restore on a NOR flash, and fetches files from the server of the host.  The
  theorems run [restore] against it. *)

From S2P Require Import Prelude Text Regex Rack Profiles Layout Ubi Ymodem UbootEnv Flashdump Install Commands UbootConsole Restore RestoreSafe.
From S2P Require Import Transport.

(** ** The camera *)

Record NorCam := mkNorCam {
  c_nor : bytes; c_probed : bool;                (* the chip, and whether [sf probe] was given *)
  c_served : list partition; c_ram : Z * bytes;  (* the server's files; the loaded file and its address *)
  c_rx : bytes; c_clock : Z
}.
Definition set_c_nor (f : bytes) (d : NorCam) : NorCam := mkNorCam f (c_probed d) (c_served d) (c_ram d) (c_rx d) (c_clock d).
Definition set_c_probed (b : bool) (d : NorCam) : NorCam := mkNorCam (c_nor d) b (c_served d) (c_ram d) (c_rx d) (c_clock d).
Definition set_c_served (l : list partition) (d : NorCam) : NorCam := mkNorCam (c_nor d) (c_probed d) l (c_ram d) (c_rx d) (c_clock d).
Definition set_c_ram (r : Z * bytes) (d : NorCam) : NorCam := mkNorCam (c_nor d) (c_probed d) (c_served d) r (c_rx d) (c_clock d).
Definition set_c_rx (rx : bytes) (d : NorCam) : NorCam := mkNorCam (c_nor d) (c_probed d) (c_served d) (c_ram d) rx (c_clock d).

Definition crlf : list Z := [13; 10].
Definition NO_FLASH : list Z := codes "No SPI flash selected. Please run sf probe" ++ crlf.
Definition BLOCK : Z := 0x10000.

(** [sf erase]: whole blocks of the chip. *)
Definition erase_nor (off size : Z) (f : bytes) : option bytes :=
  if (off mod BLOCK =? 0) && (size mod BLOCK =? 0) && (off + size <=? len f) then Some (splice f off (brep size 0xFF)) else None.

(** [sf write]: programming can only clear bits. *)
Definition program_nor (off : Z) (data f : bytes) : option bytes :=
  if off + len data <=? len f then Some (splice f off (zip_with Z.land (slice f off (off + len data)) data)) else None.

Definition flash_result (r : option bytes) (d : NorCam) : list Z * NorCam :=
  match r with
  | Some f => (codes "OK" ++ crlf, set_c_nor f d)
  | None => (codes "ERROR: outside of the chip" ++ crlf, d)
  end.

Definition fetch_file (addr : Z) (name : list Z) (d : NorCam) : list Z * NorCam :=
  match assoc (c_served d) name with
  | Some data => (codes "Bytes transferred = " ++ hex_arg (len data) ++ crlf ++ codes "done" ++ crlf, set_c_ram (addr, data) d)
  | None => (codes "TFTP error: File not found" ++ crlf, d)
  end.

(** What a command prints, and the state after it. *)
Definition nor_exec (cmd : list Z) (d : NorCam) : list Z * NorCam :=
  match split_ws cmd [] with
  | [c] => if beq c (codes "reset") then (codes "resetting ..." ++ crlf, set_c_probed false d) else (unknown_line c, d)
  | [c; a] => if beq c (codes "ping") then (codes "host " ++ a ++ codes " is alive" ++ crlf, d) else (unknown_line c, d)
  | [c; a; b] =>
      if beq c (codes "setenv") then ([], d)
      else if beq c (codes "tftpboot") || beq c (codes "tftp") then fetch_file (word_arg a) b d
      else if beq c (codes "sf") && beq a (codes "probe") then
        (codes "16384 KiB hi_sfc at 0:0 is now current" ++ crlf, set_c_probed true d)
      else (unknown_line c, d)
  | [c; a; o; n] =>
      if beq c (codes "sf") && beq a (codes "erase") then
        if c_probed d then flash_result (erase_nor (word_arg o) (word_arg n) (c_nor d)) d else (NO_FLASH, d)
      else (unknown_line c, d)
  | [c; a; r; o; n] =>
      if beq c (codes "sf") && beq a (codes "write") then
        if c_probed d then
          flash_result (program_nor (word_arg o) (slice (snd (c_ram d)) (word_arg r - fst (c_ram d)) (word_arg r - fst (c_ram d) + word_arg n)) (c_nor d)) d
        else (NO_FLASH, d)
      else (unknown_line c, d)
  | c :: _ => (unknown_line c, d)
  | [] => ([], d)
  end.

(** A line is executed; Ctrl-C prints a new prompt. *)
Definition NorCam_write (data : bytes) (d : NorCam) : res unit * NorCam :=
  if bool_decide (last data = Some 13) then
    let cmd := but_last 1 data in
    let (out, d') := nor_exec cmd d in
    (Ok tt, set_c_rx (c_rx d' ++ answer cmd out) d')
  else if beq data [3] then (Ok tt, set_c_rx (c_rx d ++ crlf ++ PROMPT) d) else (Ok tt, d).

Definition NorCam_read (size : Z) (tmo : option Z) (d : NorCam) : res bytes * NorCam :=
  if beq (c_rx d) [] then
    (Raise TransportTimeout, mkNorCam (c_nor d) (c_probed d) (c_served d) (c_ram d) [] (c_clock d + default 1000 tmo))
  else (Ok (slice (c_rx d) 0 size), set_c_rx (drop (Z.to_nat size) (c_rx d)) d).

#[export] Instance NorCam_Transport : Transport NorCam := {|
  t_read := NorCam_read;
  t_write := NorCam_write;
  t_flush_input d := (Ok tt, set_c_rx [] d);
  t_flush_output d := (Ok tt, d);
  t_bytes_waiting d := (Ok (len (c_rx d)), d);
  t_unread b d := (Ok tt, set_c_rx (b ++ c_rx d) d);
  t_set_baudrate _ d := (Ok tt, d);
  t_monotonic d := (c_clock d, d);
  t_sleep t d := mkNorCam (c_nor d) (c_probed d) (c_served d) (c_ram d) (c_rx d) (c_clock d + t)
|}.

#[export] Instance NorCam_Server : HostServer NorCam := {|
  hs_start files d := (Ok tt, set_c_served files d);
  hs_set name data d := set_c_served (put_item name data (c_served d)) d
|}.

(** There is no pod. *)
#[export] Instance NorCam_Http : Http NorCam := {|
  h_send _ d := (HUnreachable, d);
  h_sleep _ d := d
|}.

Lemma nor_exec_rx cmd d : c_rx (snd (nor_exec cmd d)) = c_rx d.
Proof. unfold nor_exec, fetch_file, flash_result. by repeat case_match. Qed.

#[export] Instance NorCam_Line : LineDevice NorCam.
Proof.
  refine {| ld_rx := c_rx; ld_set_rx := set_c_rx; ld_clock := c_clock; ld_exec := nor_exec |}; try done.
  - intros []. cbn. by intros ->.
  - apply nor_exec_rx.
  - intros size tmo d Hrx. cbn. unfold NorCam_read. replace (beq (c_rx d) []) with false by (symmetry; by apply bool_decide_eq_false). done.
  - intros cmd d. cbn. unfold NorCam_write. rewrite last_snoc, bool_decide_eq_true_2, but_last_snoc by done. by destruct (nor_exec cmd d).
Defined.

(** ** Runs on an idle camera *)

(** [runs m d a d']: with enough fuel [m] returns [a] and takes the camera from
    [d] to [d']. *)
Definition runs {A} (m : nat -> M NorCam unit A) (d : NorCam) (a : A) (d' : NorCam) : Prop :=
  exists need, forall fuel, (need <= fuel)%nat -> forall lg, exists lg', m fuel (World d tt lg) = (Ok a, World d' tt lg').

Lemma cam_runs_ret {A} (a : A) d : runs (fun _ => ret a) d a d.
Proof. exists 0%nat. intros fuel _ lg. by exists lg. Qed.

Lemma runs_lift {A} (a : A) (r : res A) d : r = Ok a -> runs (fun _ => lift r) d a d.
Proof. intros ->. exists 0%nat. intros fuel _ lg. by exists lg. Qed.

Lemma cam_runs_bind {A B} (m : nat -> M NorCam unit A) (f : nat -> A -> M NorCam unit B) d a d1 b d2 :
  runs m d a d1 -> runs (fun fuel => f fuel a) d1 b d2 -> runs (fun fuel => bind (m fuel) (f fuel)) d b d2.
Proof.
  intros [n1 Hm] [n2 Hf]. exists (Nat.max n1 n2). intros fuel Hn lg. destruct (Hm fuel ltac:(lia) lg) as (lg1 & E1).
  destruct (Hf fuel ltac:(lia) lg1) as (lg2 & E2). exists lg2. unfold bind. by rewrite E1.
Qed.

Lemma runs_effect {A} (f : NorCam -> res A * NorCam) d a d' : f d = (Ok a, d') -> runs (fun _ => effect f) d a d'.
Proof. intros E. exists 0%nat. intros fuel _ lg. exists lg. unfold effect. cbn. by rewrite E. Qed.

(** A text of the shell: ASCII and without a number sign. *)
Definition plain (l : list Z) : Prop := Forall (fun c => c < 128 /\ c <> 35) l.

Lemma plain_app a b : plain a -> plain b -> plain (a ++ b).
Proof. apply Forall_app_2. Qed.

Lemma plain_codes (s : string) : forallb (fun c => (c <? 128) && negb (c =? 35)) (codes s) = true -> plain (codes s).
Proof.
  intros Hs. apply List.Forall_forall. intros c Hc. rewrite forallb_forall in Hs. specialize (Hs c Hc). b2p. lia.
Qed.

Lemma runs_send cmd tmo out d d' :
  c_rx d = [] -> nor_exec cmd d = (out, d') -> plain cmd -> plain out -> 0 < tmo ->
  runs (fun fuel => send_ fuel false cmd tmo) d (answer cmd out) d'.
Proof.
  intros Hrx He Hc Ho Ht. exists (S (length (answer cmd out))). intros fuel Hf lg.
  apply (line_command (T := NorCam) fuel cmd tmo out d d' tt lg); [done..| | | |done|lia].
  - eapply Forall_impl; [exact Hc|]. by intros c [].
  - eapply Forall_impl; [exact Ho|]. by intros c [].
  - rewrite !app_assoc. change (codes "hisilicon #") with (codes "hisilicon " ++ [35]). rewrite app_assoc.
    apply calm_clean; [|done]. rewrite <- !app_assoc.
    repeat apply Forall_app_2; first [eapply Forall_impl; [eassumption|by intros c []] | by repeat constructor].
Qed.

(** ** The commands of a restore *)

Lemma fmt_hex_pos n : 0 <= n -> fmt_hex n = hex_arg n.
Proof. intros Hn. unfold fmt_hex. by replace (n <? 0) with false by (symmetry; by apply Z.ltb_ge). Qed.

Lemma plain_hex n : 0 <= n -> plain (hex_arg n).
Proof.
  intros Hn. destruct (hex_arg_word n Hn) as (_ & _ & Ha & Hh). apply Forall_and. by split.
Qed.

Lemma word_codes s : forallb (fun c => negb (is_space_code c)) (codes s) = true -> codes s <> [] -> word (codes s).
Proof.
  intros Hs Hne. split; [done|]. apply List.Forall_forall. intros c Hc. rewrite forallb_forall in Hs. by apply negb_true_iff, Hs.
Qed.

(** A name or an address: a word of plain characters. *)
Definition name_ok (l : list Z) : Prop := word l /\ plain l.

Ltac spaced := repeat match goal with |- context [codes " " ++ ?x] => change (codes " " ++ x) with (32 :: x) end.
Ltac words := spaced; repeat first [rewrite split_ws_word by (done || (apply word_codes; reflexivity || done)) | rewrite split_ws_last by done].

Lemma exec_setenv key v d : word key -> word v -> nor_exec (codes "setenv " ++ key ++ codes " " ++ v) d = ([], d).
Proof.
  intros Hk Hv. unfold nor_exec. change (codes "setenv " ++ ?x) with (codes "setenv" ++ 32 :: x). by words.
Qed.

Lemma exec_ping ip d : word ip -> nor_exec (codes "ping " ++ ip) d = (codes "host " ++ ip ++ codes " is alive" ++ crlf, d).
Proof.
  intros Hip. unfold nor_exec. change (codes "ping " ++ ?x) with (codes "ping" ++ 32 :: x).
  rewrite split_ws_word by (apply word_codes; reflexivity || done). by rewrite split_ws_last.
Qed.

Lemma exec_fetch w addr name d :
  w = "tftpboot"%string \/ w = "tftp"%string -> 0 <= addr -> word name ->
  nor_exec (load_cmd addr w name) d = fetch_file addr name d.
Proof.
  intros Hw Ha Hn. destruct (hex_arg_word addr Ha) as (Hwa & Hva & _). unfold nor_exec, load_cmd.
  change (hex0x addr) with (hex_arg addr). spaced.
  rewrite split_ws_word by (destruct Hw as [-> | ->]; apply word_codes; reflexivity || done).
  rewrite split_ws_word, split_ws_last by done. rewrite Hva. by destruct Hw as [-> | ->].
Qed.

(** The arguments of a command as it is read. *)
Lemma cmd_args_words (w1 w2 : string) (args : list Z) :
  word (codes w1) -> word (codes w2) -> Forall (Z.le 0) args ->
  split_ws (cmd_args (w1 +:+ " " +:+ w2) args) [] = codes w1 :: codes w2 :: (hex_arg <$> args).
Proof.
  intros Hw1 Hw2 Ha. unfold cmd_args. rewrite !codes_app, <- !app_assoc. change (codes " ") with [32]. cbn [app].
  rewrite split_ws_word by done. f_equal. revert Hw2. generalize (codes w2) as w. clear w1 w2 Hw1.
  induction Ha as [|a args Ha Hargs IH]; intros w Hw; cbn [fmap list_fmap concat].
  - rewrite app_nil_r. by apply split_ws_last.
  - rewrite fmt_hex_pos by done. cbn [app]. rewrite split_ws_word by done. f_equal.
    destruct (hex_arg_word a Ha) as (Hwa & _). by apply IH.
Qed.

Lemma cmd_args_plain s args : plain (codes s) -> Forall (Z.le 0) args -> plain (cmd_args s args).
Proof.
  intros Hs Ha. unfold cmd_args. apply plain_app; [done|]. induction Ha as [|a args Ha Hargs IH]; [constructor|].
  cbn [fmap list_fmap concat]. rewrite fmt_hex_pos by done. apply plain_app; [apply plain_app; [by apply plain_codes|by apply plain_hex]|done].
Qed.

Lemma exec_erase off size d :
  0 <= off -> 0 <= size ->
  nor_exec (cmd_args "sf erase" [off; size]) d =
    if c_probed d then flash_result (erase_nor off size (c_nor d)) d else (NO_FLASH, d).
Proof.
  intros Ho Hs. destruct (hex_arg_word off Ho) as (_ & Hvo & _), (hex_arg_word size Hs) as (_ & Hvs & _).
  unfold nor_exec. change "sf erase"%string with ("sf" +:+ " " +:+ "erase")%string.
  rewrite cmd_args_words by (by repeat constructor). cbn [fmap list_fmap]. by rewrite Hvo, Hvs.
Qed.

Lemma exec_write addr off size d :
  0 <= addr -> 0 <= off -> 0 <= size ->
  nor_exec (cmd_args "sf write" [addr; off; size]) d =
    if c_probed d
    then flash_result (program_nor off (slice (snd (c_ram d)) (addr - fst (c_ram d)) (addr - fst (c_ram d) + size)) (c_nor d)) d
    else (NO_FLASH, d).
Proof.
  intros Ha Ho Hs. destruct (hex_arg_word addr Ha) as (_ & Hva & _), (hex_arg_word off Ho) as (_ & Hvo & _), (hex_arg_word size Hs) as (_ & Hvs & _).
  unfold nor_exec. change "sf write"%string with ("sf" +:+ " " +:+ "write")%string.
  rewrite cmd_args_words by (by repeat constructor). cbn [fmap list_fmap]. by rewrite Hva, Hvo, Hvs.
Qed.

(** ** Phases 2 to 4 *)

(** An idle console. *)
Definition idle (d : NorCam) : Prop := c_rx d = [].

Lemma mode_turn (d : NorCam) lg :
  idle d -> exists lg', mode_body (c_clock d) [] (World d tt lg) = (Ok (Rtn false), World d tt lg').
Proof.
  intros Hd. destruct d as [nor pr served ram rx clk]. unfold idle in Hd. cbn in Hd. subst rx.
  unfold mode_body, bind at 1, monotonic. cbn [tr t_monotonic NorCam_Transport c_clock]. rewrite Z.sub_diag.
  change (negb (0 <? 15000000)) with false. cbn iota. unfold bind at 1, write. cbn -[codes contains prompt_in bind try_except read].
  unfold bind, try_except, read. cbn -[codes contains prompt_in]. eexists. reflexivity.
Qed.

Lemma runs_mode d : idle d -> runs restore_mode d false d.
Proof.
  intros Hd. exists 1%nat. intros [|fuel] Hf lg; [lia|]. destruct (mode_turn d lg Hd) as (lg' & E).
  exists lg'. unfold restore_mode, bind, monotonic. destruct d. cbn -[mode_body] in *. unfold bind. by rewrite E.
Qed.

Lemma plain_hash l : forallb (fun c => (c <? 128) && negb (c =? 35)) l = true -> plain l.
Proof.
  intros Hs. apply List.Forall_forall. intros c Hc. rewrite forallb_forall in Hs. specialize (Hs c Hc). b2p. lia.
Qed.

Ltac plain_go :=
  repeat lazymatch goal with
  | |- plain (hex_arg _) => apply plain_hex
  | |- plain (_ ++ _) => apply plain_app
  | |- plain (codes _) => apply plain_codes; reflexivity
  | |- plain crlf => apply plain_hash; reflexivity
  end; try done; try apply len_nonneg.

(** A run of a command whose output is a fixed text. *)
Lemma runs_fixed (s : string) tmo out d d' :
  idle d -> nor_exec (codes s) d = (out, d') -> forallb (fun c => (c <? 128) && negb (c =? 35)) (codes s ++ out) = true -> 0 < tmo ->
  runs (fun fuel => send_ fuel false (codes s) tmo) d (answer (codes s) out) d'.
Proof.
  intros Hd He Hp Ht. rewrite forallb_app in Hp. apply andb_true_iff in Hp as [H1 H2]. apply runs_send; [done..|by apply plain_hash|by apply plain_hash|done].
Qed.

(** Phase 3: [auto] finds the NOR, and selects it; a given type is taken as
    it is. *)
Lemma runs_flash_type (flash_type : string) d :
  idle d -> flash_type = "auto"%string \/ flash_type = "nor"%string ->
  runs (fun fuel => restore_flash_type (send_ fuel false) flash_type) d "nor"%string
    (if decide (flash_type = "auto"%string) then set_c_probed true d else d).
Proof.
  intros Hd Hft. unfold restore_flash_type. destruct (decide (flash_type = "auto"%string)) as [->|Hne].
  - change (negb (bool_decide ("auto"%string = "auto"%string))) with false. cbn iota.
    eapply cam_runs_bind; [by apply (runs_fixed "nand info" 10000000 (unknown_line (codes "nand")))|].
    replace (says_any _ _ && _) with false by (vm_compute; reflexivity). cbn iota.
    eapply cam_runs_bind; [by apply (runs_fixed "sf probe 0" 10000000 (codes "16384 KiB hi_sfc at 0:0 is now current" ++ crlf) d (set_c_probed true d))|].
    replace (says_any _ _) with false by (vm_compute; reflexivity). cbn iota. apply cam_runs_ret.
  - destruct Hft as [?| ->]; [done|]. apply cam_runs_ret.
Qed.

Lemma answer_contains p cmd out a b : out = a ++ p ++ b -> contains p (answer cmd out) = true.
Proof.
  intros ->. apply contains_spec. exists (cmd ++ [13; 10] ++ a), (b ++ PROMPT). unfold answer. by rewrite <- !app_assoc.
Qed.

Lemma lower_app a b : lower_codes (a ++ b) = lower_codes a ++ lower_codes b.
Proof. unfold lower_codes. apply fmap_app. Qed.

(** Phase 4. *)
Lemma runs_network device_ip serverip d :
  idle d -> name_ok device_ip -> name_ok serverip ->
  runs (fun fuel => restore_network (send_ fuel false) device_ip serverip) d tt d.
Proof.
  intros Hd [Hw1 Hp1] [Hw2 Hp2]. unfold restore_network.
  eapply cam_runs_bind; [apply (runs_send (codes "setenv ipaddr " ++ device_ip) _ [] d d); [done| |by apply plain_app; [apply plain_codes|]|constructor|done]|].
  { apply (exec_setenv (codes "ipaddr")); [by apply word_codes|done]. }
  eapply cam_runs_bind; [apply (runs_send (codes "setenv serverip " ++ serverip) _ [] d d); [done| |by apply plain_app; [apply plain_codes|]|constructor|done]|].
  { apply (exec_setenv (codes "serverip")); [by apply word_codes|done]. }
  change (range 5) with [0; 1; 2; 3; 4]. cbn [foreach].
  apply (cam_runs_bind _ (fun _ c => match c with Brk _ => ret tt | _ => quit 1 end) _ (Brk tt) d); [|apply cam_runs_ret].
  apply (cam_runs_bind _ (fun fuel c => match c with Next s' => foreach [1; 2; 3; 4] (ping_body (send_ fuel false) serverip) s' | c => ret c end) _ (Brk tt) d);
    [|apply cam_runs_ret].
  unfold ping_body. eapply cam_runs_bind; [apply runs_send; [done|by apply exec_ping| | |done]|].
  - plain_go.
  - plain_go.
  - rewrite (answer_contains (codes "is alive") _ _ (codes "host " ++ serverip ++ codes " ") crlf).
    + apply cam_runs_ret.
    + rewrite <- !app_assoc. done.
Qed.

(** ** Phase 5: a partition *)

Lemma runs_fetch ram name data d :
  idle d -> 0 <= ram -> name_ok name -> assoc (c_served d) name = Some data ->
  runs (fun fuel => fetch (send_ fuel false) ram name) d true (set_c_ram (ram, data) d).
Proof.
  intros Hd Hr [Hw Hp] Hs. unfold fetch.
  set (out := codes "Bytes transferred = " ++ hex_arg (len data) ++ crlf ++ codes "done" ++ crlf).
  assert (Hout : plain out) by (unfold out; plain_go).
  assert (Hcmd : forall w, w = "tftpboot"%string \/ w = "tftp"%string -> plain (load_cmd ram w name)).
  { intros w Hw'. unfold load_cmd. change (hex0x ram) with (hex_arg ram).
    destruct Hw' as [-> | ->]; plain_go. }
  assert (Hgo : forall w d, w = "tftpboot"%string \/ w = "tftp"%string -> idle d -> assoc (c_served d) name = Some data ->
    runs (fun fuel => send_ fuel false (load_cmd ram w name) 120000000) d (answer (load_cmd ram w name) out) (set_c_ram (ram, data) d)).
  { intros w d1 Hw' Hd1 Hs1. apply runs_send; [done| |by apply Hcmd|done..]. rewrite exec_fetch by done. unfold fetch_file. by rewrite Hs1. }
  assert (Hl : forall cmd, loaded (answer cmd out) = true).
  { intros cmd. unfold loaded, says_any, existsb. apply orb_true_intro. left. apply contains_spec.
    exists (lower_codes (cmd ++ [13; 10] ++ codes "Bytes transferred = " ++ hex_arg (len data) ++ crlf)), (lower_codes (crlf ++ PROMPT)).
    change (codes "done") with (lower_codes (codes "done")). rewrite <- !lower_app. unfold answer, out. by rewrite <- !app_assoc. }
  eapply cam_runs_bind; [by apply Hgo; [left|..]|]. destruct (says_any ["unknown command"%string] _).
  - eapply cam_runs_bind; [apply (Hgo "tftp"%string (set_c_ram (ram, data) d)); [by right|done..]|]. rewrite Hl. apply cam_runs_ret.
  - eapply cam_runs_bind; [apply cam_runs_ret|]. rewrite Hl. apply cam_runs_ret.
Qed.

Lemma land_erased data : is_bytes data -> zip_with Z.land (brep (len data) 0xFF) data = data.
Proof.
  intros Hd. unfold brep, len. rewrite Nat2Z.id. induction Hd as [|b data Hb Hd IH]; [done|]. cbn [length replicate zip_with].
  f_equal; [|exact IH]. rewrite Z.land_comm. change 255 with (Z.ones 8). rewrite Z.land_ones by lia. apply Z.mod_small. exact Hb.
Qed.

(** What becomes of the flash. *)
Definition flashed (d : NorCam) (off : Z) (data : bytes) : bytes := if c_probed d then splice (c_nor d) off data else c_nor d.

Lemma erase_then_program f off data :
  is_bytes data -> 0 <= off -> off mod BLOCK = 0 -> len data mod BLOCK = 0 -> off + len data <= len f ->
  exists f1, erase_nor off (round_up (len data) BLOCK) f = Some f1 /\ program_nor off data f1 = Some (splice f off data).
Proof.
  intros Hb Ho Hom Hlm Hf. pose proof (len_nonneg data).
  assert (Hru : round_up (len data) BLOCK = len data).
  { unfold round_up, BLOCK in *. Z.to_euclidean_division_equations. lia. }
  exists (splice f off (brep (len data) 0xFF)). unfold erase_nor. rewrite Hru, Hom, Hlm.
  replace (off + len data <=? len f) with true by (symmetry; by apply Z.leb_le). split; [done|].
  assert (Hle : len (brep (len data) 255) = len data) by (by apply len_brep).
  unfold program_nor. rewrite splice_len by (rewrite ?Hle; lia).
  replace (off + len data <=? len f) with true by (symmetry; by apply Z.leb_le). f_equal.
  pose proof (slice_splice f off (brep (len data) 0xFF) Ho) as Hsl. rewrite Hle in Hsl. rewrite Hsl, land_erased by done. by rewrite splice_over by (rewrite ?Hle; lia).
Qed.

Lemma runs_erase_write ram off data d :
  idle d -> 0 <= ram -> is_bytes data -> 0 <= off -> off mod BLOCK = 0 -> len data mod BLOCK = 0 -> off + len data <= len (c_nor d) ->
  c_ram d = (ram, data) ->
  runs (fun fuel => send_all (send_ fuel false) ((fun c => (c, 120000000)) <$> raw_commands "nor" ram off data)) d tt
    (set_c_nor (flashed d off data) d).
Proof.
  intros Hd Hr Hb Ho Hom Hlm Hf Hram. pose proof (len_nonneg data).
  assert (Hsz : 0 <= round_up (len data) BLOCK) by (unfold round_up, BLOCK; Z.to_euclidean_division_equations; lia).
  destruct (erase_then_program (c_nor d) off data) as (f1 & He & Hp); [done..|].
  change (raw_commands "nor" ram off data) with
    [cmd_args "sf erase" [off; round_up (len data) BLOCK]; cmd_args "sf write" [ram; off; len data]].
  cbn [fmap list_fmap send_all].
  assert (Hpe : plain (cmd_args "sf erase" [off; round_up (len data) BLOCK])) by (apply cmd_args_plain; [by apply plain_codes|by repeat constructor]).
  assert (Hpw : plain (cmd_args "sf write" [ram; off; len data])) by (apply cmd_args_plain; [by apply plain_codes|by repeat constructor]).
  assert (Hnf : plain NO_FLASH) by (by apply plain_hash).
  unfold flashed. destruct (c_probed d) eqn:Epr.
  - eapply cam_runs_bind; [apply (runs_send _ _ (codes "OK" ++ crlf) d (set_c_nor f1 d)); [done| |done|by apply plain_hash|done]|].
    { rewrite exec_erase, Epr by done. by rewrite He. }
    eapply cam_runs_bind; [apply (runs_send _ _ (codes "OK" ++ crlf) (set_c_nor f1 d) (set_c_nor (splice (c_nor d) off data) d));
      [done| |done|by apply plain_hash|done]|apply cam_runs_ret].
    rewrite exec_write by done. cbn [c_probed set_c_nor c_ram c_nor]. rewrite Epr, Hram. cbn [fst snd]. rewrite Z.sub_diag.
    replace (slice data 0 (0 + len data)) with data by (symmetry; rewrite <- (app_nil_r data) at 1; by apply slice_prefix).
    by rewrite Hp.
  - eapply cam_runs_bind; [apply (runs_send _ _ NO_FLASH d d); [done| |done..]; by rewrite exec_erase, Epr|].
    eapply cam_runs_bind; [apply (runs_send _ _ NO_FLASH d d); [done| |done..]; by rewrite exec_write, Epr|].
    destruct d. apply cam_runs_ret.
Qed.

Lemma runs_write_raw ram name off data d :
  idle d -> 0 <= ram -> name_ok name -> assoc (c_served d) name = Some data ->
  is_bytes data -> 0 <= off -> off mod BLOCK = 0 -> len data mod BLOCK = 0 -> off + len data <= len (c_nor d) ->
  runs (fun fuel => write_raw (send_ fuel false) "nor" ram name data off) d tt
    (set_c_ram (ram, data) (set_c_nor (flashed d off data) d)).
Proof.
  intros Hd Hr Hn Hs Hb Ho Hom Hlm Hf. unfold write_raw. eapply cam_runs_bind; [by apply runs_fetch|]. cbn [negb].
  apply (runs_erase_write ram off data (set_c_ram (ram, data) d)); done.
Qed.

(** ** All the partitions *)

Lemma enumerate_snoc {A} (l : list A) x : enumerate (l ++ [x]) = enumerate l ++ [(len l, x)].
Proof. unfold enumerate. rewrite imap_app. cbn. by rewrite Nat.add_0_r. Qed.

Lemma elem_of_enumerate {A} (l : list A) i x : (i, x) ∈ enumerate l <-> 0 <= i /\ l !! Z.to_nat i = Some x.
Proof.
  unfold enumerate. rewrite elem_of_lookup_imap. split.
  - intros (j & y & [= -> ->] & Hj). rewrite Nat2Z.id. split; [lia|done].
  - intros [Hi Hx]. exists (Z.to_nat i), x. split; [by rewrite Z2Nat.id|done].
Qed.

Lemma total_app a b : total_bytes (a ++ b) = total_bytes a + total_bytes b.
Proof. unfold total_bytes. induction a as [|p a IH]; cbn; [done|]. cbn in IH. rewrite IH. lia. Qed.

Lemma total_concat ps : total_bytes ps = len (concat ps.*2).
Proof. induction ps as [|p ps IH]; [done|]. cbn [fmap list_fmap concat]. rewrite len_app, <- IH. done. Qed.

(** On a flash without a layout a partition begins where those before it end. *)
Lemma flat_offsets mtdparts ps i :
  0 <= i < len ps -> part_offsets false mtdparts ps !! i = Some (total_bytes (take (Z.to_nat i) ps)).
Proof.
  unfold part_offsets. rewrite andb_false_r.
  set (F := fun l : list partition => foldl (fun (s : gmap Z Z * Z) ip => (<[fst ip := snd s]> (fst s), snd s + len (snd (snd ip)))) (∅, 0) (enumerate l)).
  change (0 <= i < len ps -> fst (F ps) !! i = Some (total_bytes (take (Z.to_nat i) ps))).
  assert (HF : forall l x, F (l ++ [x]) = (<[len l := snd (F l)]> (fst (F l)), snd (F l) + len (snd x))).
  { intros l x. unfold F. by rewrite enumerate_snoc, foldl_app. }
  assert (Ht : forall l, snd (F l) = total_bytes l).
  { intros l. induction l as [|x l IH] using rev_ind; [done|]. rewrite HF. cbn [snd]. rewrite IH, total_app. unfold total_bytes. cbn. lia. }
  induction ps as [|x ps IH] using rev_ind; [intros [? Hlt]; change (len []) with 0 in Hlt; lia|]. rewrite len_app. change (len [x]) with 1. intros Hi.
  rewrite HF. cbn [fst]. destruct (decide (i = len ps)) as [->|Hne].
  - rewrite lookup_insert_eq. unfold len. rewrite Nat2Z.id, take_app_length. by rewrite Ht.
  - rewrite lookup_insert_ne by done. rewrite IH by lia. rewrite take_app_le; [done|]. unfold len in *. lia.
Qed.

(** Distinct names: the server has every partition. *)
Lemma put_item_new {V} k (v : V) d : k ∉ d.*1 -> put_item k v d = d ++ [(k, v)].
Proof.
  induction d as [|[k' v'] d IH]; [done|]. cbn [fmap list_fmap fst]. rewrite not_elem_of_cons. intros [Hne Hin]. cbn [put_item].
  replace (beq k' k) with false by (symmetry; apply bool_decide_eq_false; congruence). by rewrite IH.
Qed.

Lemma served_files_id ps : NoDup ps.*1 -> served_files ps = ps.
Proof.
  unfold served_files. induction ps as [|[k v] ps IH] using rev_ind; [done|]. rewrite fmap_app, foldl_app. intros Hnd.
  apply NoDup_app in Hnd as (Hnd & Hx & _). rewrite IH by done. cbn [foldl fst snd]. rewrite put_item_new; [done|].
  intros Hin. apply (Hx _ Hin). by left.
Qed.

Lemma assoc_In {V} (d : list (list Z * V)) k v : NoDup d.*1 -> (k, v) ∈ d -> assoc d k = Some v.
Proof.
  unfold assoc. induction d as [|[k' v'] d IH]; [by intros _ ?%not_elem_of_nil|]. cbn [fmap list_fmap fst]. intros [Hk Hnd]%NoDup_cons.
  cbn [List.find fst]. intros [[= -> ->]|Hin]%elem_of_cons; [by rewrite bool_decide_eq_true_2|].
  rewrite bool_decide_eq_false_2; [by apply IH|]. intros ->. apply Hk. by apply (list_elem_of_fmap_2 fst) in Hin.
Qed.

(** The chip as a row of areas, one for each partition, and what is behind
    them. *)
Definition place (cs : list bytes) (ip : Z * partition) : list bytes := <[Z.to_nat (fst ip) := snd (snd ip)]> cs.

Definition areas (ps : list partition) (cs : list bytes) : Prop := length cs = length ps /\ len <$> cs = len <$> ps.*2.

Lemma areas_place ps cs ip : areas ps cs -> ip ∈ enumerate ps -> areas ps (place cs ip).
Proof.
  intros [Hl He] Hin. destruct ip as [i [name data]]. apply elem_of_enumerate in Hin as [Hi Hx]. unfold place. cbn [fst snd].
  split; [by rewrite length_insert|]. rewrite list_fmap_insert, He. apply list_insert_id. rewrite !list_lookup_fmap, Hx. done.
Qed.

Lemma splice_area ps cs rest i name data :
  areas ps cs -> (i, (name, data)) ∈ enumerate ps ->
  splice (concat cs ++ rest) (total_bytes (take (Z.to_nat i) ps)) data = concat (place cs (i, (name, data))) ++ rest.
Proof.
  intros [Hl He] Hin. apply elem_of_enumerate in Hin as [Hi Hx]. unfold place. cbn [fst snd].
  assert (Hlt : (Z.to_nat i < length cs)%nat) by (rewrite Hl; by eapply lookup_lt_Some).
  destruct (lookup_lt_is_Some_2 cs (Z.to_nat i) Hlt) as [c Hc].
  assert (Hlen : len c = len data).
  { apply (f_equal (fun l => l !! Z.to_nat i)) in He. rewrite !list_lookup_fmap, Hc, Hx in He. by injection He. }
  assert (Hpre : total_bytes (take (Z.to_nat i) ps) = len (concat (take (Z.to_nat i) cs))).
  { rewrite total_concat.
    assert (Hc2 : forall l l' : list bytes, len <$> l = len <$> l' -> len (concat l) = len (concat l')).
    { clear. induction l as [|x l IH]; intros [|y l']; cbn [fmap list_fmap concat]; try done. intros [= Hxy Hll]. rewrite !len_app, Hxy. by rewrite (IH l'). }
    apply Hc2. by rewrite !fmap_take, He. }
  rewrite Hpre. rewrite <- (take_drop_middle cs (Z.to_nat i) c Hc) at 1. rewrite insert_take_drop by done.
  rewrite !concat_app. cbn [concat]. rewrite <- !app_assoc. by apply splice_parts.
Qed.

Lemma place_other cs ip i : Z.to_nat (fst ip) <> i -> place cs ip !! i = cs !! i.
Proof. intros Hne. unfold place. by rewrite list_lookup_insert_ne. Qed.

(** Whatever the order, in the end every area holds its partition. *)
Lemma foldl_place ps order cs i x :
  Forall (fun ip => ip ∈ enumerate ps) order -> length cs = length ps -> ps !! i = Some x ->
  cs !! i = Some (snd x) \/ (Z.of_nat i, x) ∈ order -> foldl place cs order !! i = Some (snd x).
Proof.
  intros Ho. revert cs. induction Ho as [|[j y] order Hin Ho IH]; intros cs Hl Hx Hor; cbn [foldl].
  { destruct Hor as [?|?%not_elem_of_nil]; done. }
  apply IH; [unfold place; by rewrite length_insert|done|].
  apply elem_of_enumerate in Hin as [Hj Hy]. destruct (decide (Z.to_nat j = i)) as [<-|Hne].
  - left. assert (y = x) as -> by congruence. unfold place. cbn [fst snd]. rewrite list_lookup_insert_eq; [done|]. rewrite Hl. by eapply lookup_lt_Some.
  - rewrite place_other by done. destruct Hor as [?|[[= <- ->]|?]%elem_of_cons]; [by left| |by right]. lia.
Qed.

Lemma place_all ps cs order : areas ps cs -> order ≡ₚ enumerate ps -> foldl place cs order = ps.*2.
Proof.
  intros [Hl _] Hp. assert (Ho : Forall (fun ip => ip ∈ enumerate ps) order) by (apply Forall_forall; intros ip; by rewrite Hp).
  assert (Hlen : length (foldl place cs order) = length ps).
  { rewrite <- Hl. clear. revert cs. induction order as [|ip order IH]; intros cs; cbn [foldl]; [done|]. rewrite IH. unfold place. by rewrite length_insert. }
  apply list_eq. intros i. rewrite list_lookup_fmap. destruct (ps !! i) as [x|] eqn:Ex; cbn.
  - eapply foldl_place; [done..|]. right. rewrite Hp. apply elem_of_enumerate. rewrite Nat2Z.id. split; [lia|done].
  - apply lookup_ge_None. rewrite Hlen. by apply lookup_ge_None.
Qed.

(** A dump for a NOR: names that the shell can read, whole blocks of bytes,
    and room for all. *)
Record nor_dump (ps : list partition) (size : Z) : Prop := {
  nd_names : Forall (fun p => name_ok (fst p)) ps;
  nd_distinct : NoDup ps.*1;
  nd_bytes : Forall (fun p => is_bytes (snd p)) ps;
  nd_blocks : Forall (fun p => len (snd p) mod BLOCK = 0) ps;
  nd_size : total_bytes ps <= size
}.

Lemma blocks_total ps : Forall (fun p : partition => len (snd p) mod BLOCK = 0) ps -> total_bytes ps mod BLOCK = 0.
Proof.
  induction 1 as [|p ps Hp _ IH]; [done|]. change (total_bytes (p :: ps)) with (len (snd p) + total_bytes ps).
  rewrite Z.add_mod, Hp, IH by done. done.
Qed.

Section Parts.
Variable loads : bytes -> res json.
Variables (ram size : Z) (mtdparts : list Z) (ps : list partition).
Hypothesis Hram : 0 <= ram.
Hypothesis Hps : nor_dump ps size.

(** What stays the same while the partitions are written. *)
Definition serving (d : NorCam) : Prop := idle d /\ c_served d = ps /\ len (c_nor d) = size.

Lemma runs_write_body i name data d :
  serving d -> (i, (name, data)) ∈ enumerate ps ->
  let off := total_bytes (take (Z.to_nat i) ps) in
  runs (fun fuel => write_body loads (send_ fuel false) false "nor" ram mtdparts ps (i, (name, data)) None) d (Next None)
    (set_c_ram (ram, data) (set_c_nor (flashed d off data) d)) /\
  0 <= off /\ off + len data <= len (c_nor d).
Proof.
  intros (Hd & Hs & Hl) Hin off. destruct Hps as [Hn Hnd Hb Hbl Hsz]. apply elem_of_enumerate in Hin as [Hi Hx].
  assert (Hlt : (Z.to_nat i < length ps)%nat) by (by eapply lookup_lt_Some).
  pose proof (take_drop_middle ps (Z.to_nat i) _ Hx) as Hsplit.
  assert (Hoff : 0 <= off) by (unfold off; rewrite total_concat; apply len_nonneg).
  assert (Hend : off + len data <= len (c_nor d)).
  { rewrite Hl. etransitivity; [|exact Hsz]. rewrite <- Hsplit, total_app. change (total_bytes ((name, data) :: ?l)) with (len data + total_bytes l).
    pose proof (len_nonneg (concat (drop (S (Z.to_nat i)) ps).*2)). rewrite <- total_concat in *. unfold off. lia. }
  split; [|by split]. unfold write_body.
  eapply cam_runs_bind; [apply (runs_lift off)|].
  { unfold offset_of. cbn [mbind option_bind]. change (is_flash "nor" "nand") with false. rewrite flat_offsets; [done|]. unfold len. lia. }
  change (is_flash "nor" "nand") with false. cbn [andb]. eapply cam_runs_bind; [apply cam_runs_ret|]. cbn iota beta.
  pose proof (proj1 (Forall_lookup _ _) Hn _ _ Hx) as Hname. pose proof (proj1 (Forall_lookup _ _) Hb _ _ Hx) as Hbytes.
  pose proof (proj1 (Forall_lookup _ _) Hbl _ _ Hx) as Hblock. cbn [fst snd] in *.
  eapply cam_runs_bind; [|apply cam_runs_ret]. apply runs_write_raw; try done.
  - rewrite Hs. apply assoc_In; [done|]. by eapply list_elem_of_lookup_2.
  - apply blocks_total. by apply Forall_take.
Qed.

Lemma runs_write_parts rest order d cs :
  serving d -> Forall (fun ip => ip ∈ enumerate ps) order -> areas ps cs -> c_nor d = concat cs ++ rest ->
  exists d', runs (fun fuel => foreach order (write_body loads (send_ fuel false) false "nor" ram mtdparts ps) None) d (Next None) d' /\
    serving d' /\ c_probed d' = c_probed d /\
    c_nor d' = if c_probed d then concat (foldl place cs order) ++ rest else c_nor d.
Proof.
  intros Hd Ho. revert d Hd cs. induction Ho as [|[i [name data]] order Hin Ho IH]; intros d Hd cs Ha Hf; cbn [foreach foldl].
  { exists d. split; [apply cam_runs_ret|]. split_and!; [done..|]. by destruct (c_probed d). }
  destruct (runs_write_body i name data d Hd Hin) as (Hrun & Hoff & Hend). revert Hrun Hoff Hend.
  set (off := total_bytes (take (Z.to_nat i) ps)). intros Hrun Hoff Hend.
  set (d1 := set_c_ram (ram, data) (set_c_nor (flashed d off data) d)) in *.
  assert (Hd1 : serving d1).
  { destruct Hd as (H1 & H2 & H3). split_and!; [done..|]. cbn. unfold flashed. destruct (c_probed d); [|done]. by rewrite splice_len. }
  assert (Hp1 : c_probed d1 = c_probed d) by done.
  destruct (c_probed d) eqn:Ep.
  - destruct (IH d1 Hd1 (place cs (i, (name, data)))) as (d' & Hrun' & Hd' & Hp' & Hf'); [by apply areas_place| |].
    { cbn. unfold flashed. rewrite Ep, Hf. by apply splice_area. }
    exists d'. split; [by eapply cam_runs_bind|]. rewrite Hp1 in *. by split_and!.
  - destruct (IH d1 Hd1 cs Ha) as (d' & Hrun' & Hd' & Hp' & Hf').
    { cbn. unfold flashed. by rewrite Ep. }
    exists d'. split; [by eapply cam_runs_bind|]. rewrite Hp1 in *. split_and!; [done..|]. rewrite Hf'. cbn. unfold flashed. by rewrite Ep.
Qed.

End Parts.

(** A chip with room for the partitions has an area for each. *)
Lemma chip_areas ps f : total_bytes ps <= len f -> exists cs, areas ps cs /\ f = concat cs ++ drop (Z.to_nat (total_bytes ps)) f.
Proof.
  revert f. induction ps as [|p ps IH]; intros f Hf; [by exists []|].
  change (total_bytes (p :: ps)) with (len (snd p) + total_bytes ps) in *. pose proof (len_nonneg (snd p)).
  assert (0 <= total_bytes ps) by (rewrite total_concat; apply len_nonneg).
  destruct (IH (drop (length (snd p)) f)) as (cs & [Hl He] & Hc); [rewrite len_drop; unfold len in *; lia|].
  exists (take (length (snd p)) f :: cs). split; [split; [cbn; by rewrite Hl|]|].
  - cbn. rewrite He. f_equal. rewrite len_take. unfold len in *. lia.
  - cbn [concat]. rewrite <- (take_drop (length (snd p)) f) at 1. rewrite <- app_assoc. f_equal. rewrite Hc at 1. f_equal.
    rewrite drop_drop. f_equal. unfold len in *. lia.
Qed.

Section Restored.
Variable loads : bytes -> res json.
Variable load_prof : string -> res SoCProfile.
Variables (chip tftp_via : string) (mtdparts host_ip device_ip : list Z) (ps : list partition).
Hypothesis Hvia : tftp_via <> "pod"%string.
Hypothesis Hhost : name_ok host_ip.
Hypothesis Hdevice : name_ok device_ip.
Hypothesis Hram : 0 <= get_ram_staging_addr load_prof chip.

(** The restore of a dump on an idle camera ends in success, and has put every
    partition where it belongs if the flash was probed. *)
Lemma runs_restore flash_type d :
  idle d -> nor_dump ps (len (c_nor d)) -> flash_type = "auto"%string \/ flash_type = "nor"%string ->
  exists d', runs (fun fuel => restore_flash fuel loads load_prof chip flash_type tftp_via false mtdparts host_ip device_ip ps) d tt d' /\
    c_nor d' = if c_probed d || bool_decide (flash_type = "auto"%string)
               then concat ps.*2 ++ drop (Z.to_nat (total_bytes ps)) (c_nor d) else c_nor d.
Proof.
  intros Hd Hps Hft. set (d1 := if decide (flash_type = "auto"%string) then set_c_probed true d else d).
  assert (Hd1 : idle d1 /\ c_nor d1 = c_nor d /\ c_probed d1 = c_probed d || bool_decide (flash_type = "auto"%string)).
  { unfold d1. destruct (decide _) as [->|Hne]; [rewrite bool_decide_eq_true_2, orb_true_r by done|rewrite bool_decide_eq_false_2, orb_false_r by done]; by split_and!. }
  destruct Hd1 as (Hi1 & Hn1 & Hp1).
  destruct (chip_areas ps (c_nor d)) as (cs & Hcs & Hf); [by destruct Hps|].
  set (d2 := set_c_served ps d1).
  destruct (runs_write_parts loads (get_ram_staging_addr load_prof chip) (len (c_nor d)) mtdparts ps Hram Hps
    (drop (Z.to_nat (total_bytes ps)) (c_nor d)) (write_order ps) d2 cs) as (d3 & Hrun & (Hi3 & Hs3 & Hl3) & Hp3 & Hf3).
  { unfold d2. split_and!; [done..|]. cbn. by rewrite Hn1. }
  { apply Forall_forall. intros ip. destruct (write_order_boot_last ps) as [Hperm _]. by rewrite Hperm. }
  { done. } { cbn. by rewrite Hn1, <- Hf. }
  exists (set_c_probed false d3). split.
  - unfold restore_flash. eapply cam_runs_bind; [by apply runs_mode|]. cbn beta.
    eapply cam_runs_bind; [by apply runs_flash_type|]. fold d1. cbn beta.
    eapply (cam_runs_bind _ (fun fuel pod => _) _ false d1).
    { unfold restore_backend. rewrite (bool_decide_eq_false_2 _ Hvia), andb_false_r. cbn [orb andb]. apply cam_runs_ret. }
    cbn beta iota. eapply cam_runs_bind; [by apply runs_network|].
    eapply (cam_runs_bind _ _ _ tt d2).
    { unfold restore_serve. rewrite served_files_id by (by destruct Hps). by apply runs_effect. }
    unfold write_partitions. eapply cam_runs_bind; [exact Hrun|].
    eapply cam_runs_bind; [by apply (runs_fixed "reset" 5000000 (codes "resetting ..." ++ crlf))|]. apply cam_runs_ret.
  - cbn [c_nor set_c_probed]. rewrite Hf3. change (c_probed d2) with (c_probed d1). rewrite Hp1.
    destruct (_ || _); [|cbn; exact Hn1]. rewrite (place_all ps cs); [done..|]. by destruct (write_order_boot_last ps).
Qed.

End Restored.

(** C9. A restore of a dump to a camera with a NOR flash, served over the TFTP
    of the host, with the type of the flash detected or given as NOR.  The dump
    is one of whole 64 KiB blocks that fits the chip, and its partitions have
    distinct names that the shell can read.  It ends in success.  Where the
    type is detected, or the flash was probed before, every partition of the
    dump then stands at its place in the flash, byte for byte and in the order
    of the dump (whatever order they were written in), and the rest of the chip
    is as it was.  Where the type is given and the flash was not probed, the
    success is none: the flash is as it was. *)
Theorem restore_nor_delivers loads load_prof chip flash_type tftp_via mtdparts host_ip device_ip ps d :
  flash_type = "auto"%string \/ flash_type = "nor"%string ->
  tftp_via <> "pod"%string -> name_ok host_ip -> name_ok device_ip -> 0 <= get_ram_staging_addr load_prof chip ->
  idle d -> nor_dump ps (len (c_nor d)) ->
  exists need, forall fuel lg, (need <= fuel)%nat ->
    let run := restore_flash fuel loads load_prof chip flash_type tftp_via false mtdparts host_ip device_ip ps (World d tt lg) in
    fst run = Ok tt /\
    c_nor (tr (snd run)) = if bool_decide (flash_type = "auto"%string) || c_probed d
                           then concat ps.*2 ++ drop (Z.to_nat (total_bytes ps)) (c_nor d) else c_nor d.
Proof.
  intros Hft Hv Hh Hdv Hr Hd Hps.
  destruct (runs_restore loads load_prof chip tftp_via mtdparts host_ip device_ip ps Hv Hh Hdv Hr flash_type d Hd Hps Hft) as (d' & [need Hrun] & Hf).
  exists need. intros fuel lg Hn. cbn zeta. destruct (Hrun fuel Hn lg) as (lg' & ->). cbn [fst snd tr]. split; [done|].
  by rewrite Hf, orb_comm.
Qed.

(** Told that the flash is a NOR, the command does not select it: the erase and
    the write of every partition are refused, and it ends in success with the
    flash as it was. *)
Theorem explicit_nor_writes_nothing loads load_prof chip tftp_via mtdparts host_ip device_ip ps d :
  tftp_via <> "pod"%string -> name_ok host_ip -> name_ok device_ip -> 0 <= get_ram_staging_addr load_prof chip ->
  idle d -> nor_dump ps (len (c_nor d)) -> c_probed d = false ->
  exists need, forall fuel lg, (need <= fuel)%nat ->
    let run := restore_flash fuel loads load_prof chip "nor" tftp_via false mtdparts host_ip device_ip ps (World d tt lg) in
    fst run = Ok tt /\ c_nor (tr (snd run)) = c_nor d.
Proof.
  intros Hv Hh Hdv Hr Hd Hps Hp.
  destruct (runs_restore loads load_prof chip tftp_via mtdparts host_ip device_ip ps Hv Hh Hdv Hr "nor" d Hd Hps) as (d' & [need Hrun] & Hf);
    [by right|].
  exists need. intros fuel lg Hn. cbn zeta. destruct (Hrun fuel Hn lg) as (lg' & ->). cbn [fst snd tr]. split; [done|].
  rewrite Hf. by rewrite Hp.
Qed.

(** A layout without the name of its device is good enough for the offsets of
    the partitions, but the first UBI partition ends the command with
    [IndexError]. *)
Lemma layout_without_device {T} `{Transport T} (send : list Z -> Z -> M T unit (list Z)) mtdparts w :
  mtdparts <> [] -> after_colon mtdparts = None -> (forall c t w, exists a w', send c t w = (Ok a, w')) ->
  exists w', ubi_map send mtdparts None w = (Raise IndexError, w').
Proof.
  intros Hne Ha Hs. unfold ubi_map, ubi_mtdparts. replace (beq mtdparts []) with false by (symmetry; by apply bool_decide_eq_false).
  unfold bind, ret, lift. cbn [negb]. rewrite Ha.
  edestruct Hs as (a1 & w1 & ->). edestruct Hs as (a2 & w2 & ->). edestruct Hs as (a3 & w3 & ->). by eexists.
Qed.

Definition demo_dump : list partition := [(codes "mtd0", brep 0x10000 7); (codes "mtd1", brep 0x20000 9)].
Definition demo_camera : NorCam := mkNorCam (brep 0x100000 0) false [] (0, []) [] 0.

Lemma demo_dump_ok : nor_dump demo_dump (len (c_nor demo_camera)).
Proof.
  assert (Hl : forall n b, 0 <= n -> len (brep n b) = n) by (intros; by apply len_brep).
  split; unfold demo_dump; cbn [c_nor demo_camera].
  - apply Forall_cons_2; [|apply Forall_cons_2; [|apply Forall_nil_2]]; (split; [by apply word_codes|by apply plain_codes]).
  - apply (bool_decide_eq_true_1 _). reflexivity.
  - apply Forall_cons_2; [|apply Forall_cons_2; [|apply Forall_nil_2]]; cbn [snd]; unfold brep; by apply Forall_replicate.
  - apply Forall_cons_2; [|apply Forall_cons_2; [|apply Forall_nil_2]]; cbn [snd]; by rewrite Hl.
  - unfold total_bytes. cbn [fmap list_fmap foldr snd]. by rewrite !Hl.
Qed.

Theorem restore_nor_delivers_witness :
  exists need, forall fuel lg, (need <= fuel)%nat ->
    let run := restore_flash fuel (fun _ => Raise ValueError) (fun _ => Raise FileNotFoundError) "hi3516ev300" "auto" "host" false []
      (codes "192.168.1.10") (codes "192.168.1.55") demo_dump (World demo_camera tt lg) in
    fst run = Ok tt /\ c_nor (tr (snd run)) = concat demo_dump.*2 ++ drop (Z.to_nat (total_bytes demo_dump)) (c_nor demo_camera).
Proof.
  apply (restore_nor_delivers (fun _ => Raise ValueError) (fun _ => Raise FileNotFoundError) "hi3516ev300" "auto" "host" []
    (codes "192.168.1.10") (codes "192.168.1.55") demo_dump demo_camera).
  - by left.
  - done.
  - split; [by apply word_codes|by apply plain_codes].
  - split; [by apply word_codes|by apply plain_codes].
  - apply (bool_decide_eq_true_1 _). vm_compute. reflexivity.
  - done.
  - apply demo_dump_ok.
Defined.
