(* ===== verification/AgentSafe.v ===== *)
(** * What the flash agent's client does to a device

  The traces of [FlashAgentClient] over any transport and whatever the agent
  answers: what is written before and after the calls that change its memory,
  and that [write_memory] and [write_flash] report success only when the agent
  acknowledged what they sent.  A log tells what was received: [heard] reads
  the packets off its bytes. *)

From S2P Require Import Prelude Crc AgentProtocol AgentClient.
From S2P Require Import Transport.

(** ** What the client hears

  [hears s ps s']: the bytes [s] begin with the packets [ps], with whatever
  noise between them, and [s'] is what follows the last. *)
Inductive hears : bytes -> list (Z * bytes) -> bytes -> Prop :=
  | hears_nil s : hears s [] s
  | hears_cons s p f s1 ps s2 : consume s [] = (Some p, f, s1) -> hears s1 ps s2 -> hears s (p :: ps) s2.

(** [heard s l ps s']: nothing is written in [l], and with [s] left over from
    before, the packets received in [l] are [ps], READY aside; [s'] is left
    over. *)
Definition heard (s : bytes) (l : list event) (ps : list (Z * bytes)) (s' : bytes) : Prop :=
  writes l = [] /\ exists qs, hears (s ++ reads l) qs s' /\ ps = filter (fun q => fst q <> RSP_READY) qs.

Definition is_ack (p : Z * bytes) : Prop := fst p = RSP_ACK /\ snd p !! 0%nat = Some ACK_OK.

(** [l] writes [out] and does not look at what comes in. *)
Definition sent (out : list bytes) (l : list event) : Prop := writes l = out /\ reads l = [].

Lemma consume_suffix d f g f' r : consume d f = (g, f', r) -> r `suffix_of` d.
Proof.
  revert f. induction d as [|x d IH]; intros f; cbn; [by intros [= <- <- <-]|].
  repeat case_match; intros E; try (apply suffix_cons_r; by eapply IH). injection E as <- <- <-. by apply suffix_cons_r.
Qed.

Lemma hears_app s ps s' t : hears s ps s' -> hears (s ++ t) ps (s' ++ t).
Proof.
  induction 1 as [s|s p f s1 ps s2 Hc _ IH]; [constructor|]. econstructor; [|exact IH]. by rewrite consume_app, Hc.
Qed.

Lemma hears_trans s ps s1 qs s2 : hears s ps s1 -> hears s1 qs s2 -> hears s (ps ++ qs) s2.
Proof. induction 1; [done|]. intros. econstructor; eauto. Qed.

Lemma hears_suffix s ps s' : hears s ps s' -> s' `suffix_of` s.
Proof.
  induction 1 as [s|s p f s1 ps s2 Hc _ IH]; [done|]. etransitivity; [exact IH|]. by eapply consume_suffix.
Qed.

Lemma heard_nil s : heard s [] [] s.
Proof. split; [done|]. exists []. rewrite app_nil_r. split; [constructor|done]. Qed.

Lemma heard_app s l ps s1 l' ps' s2 : heard s l ps s1 -> heard s1 l' ps' s2 -> heard s (l ++ l') (ps ++ ps') s2.
Proof.
  intros (Hw & qs & Hq & ->) (Hw' & qs' & Hq' & ->). split; [by rewrite writes_app, Hw, Hw'|].
  exists (qs ++ qs'). rewrite filter_app, reads_app, app_assoc. split; [|done].
  eapply hears_trans; [by apply hears_app|done].
Qed.

Lemma sent_app o l o' l' : sent o l -> sent o' l' -> sent (o ++ o') (l ++ l').
Proof. intros [Hw Hr] [Hw' Hr']. split; [by rewrite writes_app, Hw, Hw'|by rewrite reads_app, Hr, Hr']. Qed.

Section Hears.
Context {T : Type} `{Transport T}.

(** Whatever becomes of a receive, it writes nothing and what it leaves over
    is the end of what came; the packet it returns is the first of it. *)
Definition received (s : bytes) (r : res (Z * bytes)) (l : list event) (a : agent) : Prop :=
  writes l = [] /\ leftover a `suffix_of` s ++ reads l /\
  forall p, r = Ok p -> exists f, consume (s ++ reads l) [] = (Some p, f, leftover a).

Lemma consume_m_does d f a (Q : res (option (Z * bytes) * bytes) -> list event -> agent -> Prop) :
  Q (Ok (fst (consume d f))) [] (set_leftover (snd (consume d f) ++ leftover a) a) -> does (T := T) (consume_m d f) a Q.
Proof.
  unfold consume_m. destruct (consume d f) as [[g f'] r]. intros HQ. cbn [fst snd] in HQ. do 4 does_step.
  does_step. destruct (beq r []) eqn:E; [|exact HQ]. b2p. subst r. by destruct a.
Qed.

Lemma recv_packet_received fuel tmo a : does (T := T) (recv_packet fuel tmo) a (fun r l a' => received (leftover a) r l a').
Proof.
  unfold recv_packet. do 4 does_step.
  assert (Hloop : forall deadline frame a', leftover a' = [] -> consume (leftover a) [] = (None, frame, []) ->
    does (T := T) (let* c := while fuel (recv_packet_body deadline) frame in
      match c with Rtn p => ret p | _ => raise TransportTimeout end) a' (fun r l a'' => received (leftover a) r l a'')).
  { intros deadline frame a1 H1 Hf. does_step.
    apply (does_while (fun f l o => writes l = [] /\ leftover o = [] /\ consume (leftover a ++ reads l) [] = (None, f, []))).
    - split_and!; [done|done|by rewrite app_nil_r].
    - intros f l o (Hw & Ho & Hc). unfold recv_packet_body. do 2 does_step.
      assert (Hstop : forall e, received (leftover a) (Raise e) l o) by (intros e; split_and!; [done|rewrite Ho; apply suffix_nil|done]).
      does_step; [do 2 does_step; rewrite ?app_nil_r; apply Hstop|]. do 2 does_step.
      does_step; [do 2 does_step; rewrite ?app_nil_r; apply Hstop|]. does_step. does_step. apply does_read.
      intros [d|e|]; [|destruct (is_TransportTimeout e); [does_step|]|]; cbn [app].
      2: { rewrite writes_app, reads_app. cbn. rewrite !app_nil_r. by split_and!. }
      2, 3: split_and!; [by rewrite writes_app, Hw|rewrite Ho; apply suffix_nil|done].
      does_step. apply consume_m_does. 
      pose proof (consume_app (leftover a ++ reads l) d []) as Happ. rewrite Hc in Happ.
      assert (Hrd : leftover a ++ reads (l ++ [EvRead (Ok d)]) = (leftover a ++ reads l) ++ d)
        by (rewrite reads_app; cbn; by rewrite app_nil_r, app_assoc).
      assert (Hwr : writes (l ++ [EvRead (Ok d)]) = []) by by rewrite writes_app, Hw.
      destruct (consume d f) as [[[p|] f'] rest] eqn:E; cbn [fst snd]; does_step.
      + does_step. cbn [app]. rewrite !app_nil_r. split_and!; [done| |].
        * cbn. rewrite Ho, app_nil_r, Hrd. apply suffix_app_r. by eapply consume_suffix.
        * intros p' [= <-]. exists f'. rewrite Hrd, Happ. cbn. by rewrite Ho, app_nil_r.
      + apply consume_none_rest in E as Hn. subst rest. rewrite !app_nil_r, Hwr, Hrd, Happ. by cbn; rewrite Ho.
    - intros s l o (Hw & Ho & _). split_and!; [done|rewrite Ho; apply suffix_nil|done]. }
  destruct (beq (leftover a) []) eqn:E; cbn [negb]; b2p.
  - do 2 does_step. cbn [app]. apply Hloop; [done|by rewrite E].
  - do 3 does_step. apply consume_m_does. destruct (consume (leftover a) []) as [[[p|] f] rest] eqn:Ec; cbn [fst snd app].
    + does_step. cbn. split_and!; [done|rewrite !app_nil_r; by eapply consume_suffix|].
      intros p' [= <-]. exists f. by rewrite !app_nil_r.
    + apply consume_none_rest in Ec as Hn. subst rest. by apply Hloop.
Qed.

(** A receive of the client: silent, and a packet it returns was heard. *)
Definition recv_heard (s : bytes) (r : res (Z * bytes)) (l : list event) (a : agent) : Prop :=
  writes l = [] /\ leftover a `suffix_of` s ++ reads l /\ forall p, r = Ok p -> heard s l [p] (leftover a).

Lemma hears_ready s qs s' : Forall (fun q => fst q = RSP_READY) qs -> hears s qs s' -> filter (fun q : Z * bytes => fst q <> RSP_READY) qs = [].
Proof. intros Hq _. induction Hq as [|q qs Hq _ IH]; [done|]. rewrite filter_cons_False by (intros Hn; by apply Hn). done. Qed.

Lemma recv_does fuel tmo a : does (T := T) (recv fuel tmo) a (fun r l a' => recv_heard (leftover a) r l a').
Proof.
  unfold recv, recv_response. do 3 does_step.
  apply (does_while (fun _ l o => writes l = [] /\ exists qs, Forall (fun q => fst q = RSP_READY) qs /\
    hears (leftover a ++ reads l) qs (leftover o))).
  - split; [done|]. exists []. rewrite app_nil_r. split; [constructor|constructor].
  - intros [] l o (Hw & qs & Hq & Hh). unfold recv_response_body. do 2 does_step.
    assert (Hs := hears_suffix _ _ _ Hh).
    does_step; [do 2 does_step; rewrite ?app_nil_r; by split_and!|].
    does_step. eapply does_weaken; [apply recv_packet_received|]. intros r l1 o1 (Hw1 & Hs1 & Hp). cbn [app].
    assert (Hw' : writes (l ++ l1) = []) by by rewrite writes_app, Hw, Hw1.
    assert (Hs' : leftover o1 `suffix_of` leftover a ++ reads (l ++ l1)).
    { rewrite reads_app, app_assoc. etransitivity; [exact Hs1|]. destruct Hs as [k ->]. rewrite <- app_assoc. by apply suffix_app_r. }
    destruct r as [[cmd data]|e|]; [|by split_and!..]. destruct (Hp _ eq_refl) as (f & Hc).
    assert (Hh' : hears (leftover a ++ reads (l ++ l1)) (qs ++ [(cmd, data)]) (leftover o1)).
    { rewrite reads_app, app_assoc. eapply hears_trans; [by apply hears_app|]. econstructor; [exact Hc|constructor]. }
    destruct (negb (cmd =? RSP_READY)) eqn:E; b2p; does_step; cbn [app]; rewrite ?app_nil_r.
    + does_step. rewrite ?app_nil_r. split_and!; [done..|]. intros p [= <-]. split; [done|]. eexists. split; [exact Hh'|].
      rewrite filter_app. rewrite (hears_ready _ _ _ Hq Hh). by rewrite filter_cons_True.
    + split; [done|]. eexists. split; [|exact Hh']. apply Forall_app. by split; [|constructor].
  - intros [] l o (Hw & qs & Hq & Hh). split_and!; [done|by eapply hears_suffix|done].
Qed.

End Hears.

(** ** What the client writes *)

(** A packet that asks for something, sets the rate or reboots: it leaves the
    flash alone. *)
Definition query (d : bytes) : Prop :=
  exists p, d = wire p /\ fst p ∈ [CMD_INFO; CMD_SET_BAUD; CMD_CRC32; CMD_REBOOT].

(** The layout of the flash as the client knows it. *)
Definition geometry (a : agent) : Z * Z * Z * Z := (flash_size a, ram_base a, sector_size a, flash_mem a).

Lemma pack_I_bytes zs data : pack_I zs = Ok data -> is_bytes data.
Proof.
  revert data. induction zs as [|z zs IH]; intros data; cbn; [intros [= <-]; constructor|].
  destruct (pack_le 4 z) as [a|e|] eqn:Ea; [|done..]. cbn. destruct (pack_I zs) as [b|e|]; [|done..].
  intros [= <-]. apply Forall_app. split; [|by apply IH].
  unfold pack_le in Ea. destruct (fits 4 z) eqn:Ef; [|done]. injection Ea as <-. by apply le_bytes_is_bytes.
Qed.

Lemma sends_lift_bind {T Ob A B} P (r : res A) (k : A -> M T Ob B) :
  (forall a, r = Ok a -> sends P (k a)) -> sends P (bind (lift r) k).
Proof. intros Hk. destruct r as [a|e|]; [by apply Hk|apply sends_raise|apply sends_diverge]. Qed.

Section Client.
Context {T : Type} `{Transport T}.
Variable fuel : nat.

Lemma sends_query cmd data :
  cmd ∈ [CMD_INFO; CMD_SET_BAUD; CMD_CRC32; CMD_REBOOT] -> is_bytes data -> sends (T := T) query (send_packet cmd data).
Proof.
  intros Hc Hd. eapply emits_weaken; [apply emits_send_packet; [|done]|].
  - unfold is_byte. repeat (apply elem_of_cons in Hc as [->|Hc]; [unfold CMD_INFO, CMD_SET_BAUD, CMD_CRC32, CMD_REBOOT; lia|]).
    by apply not_elem_of_nil in Hc.
  - intros r l ->. constructor; [|constructor]. by exists (cmd, data).
Qed.

Lemma sends_recv P tmo : sends (T := T) P (recv fuel tmo).
Proof. apply sends_silent, silent_recv. Qed.
Lemma sends_clear P : sends (T := T) P clear_rx_buffers.
Proof. apply sends_silent, silent_clear_rx. Qed.
Lemma sends_modify P f : sends (T := T) (Ob := agent) P (modify f).
Proof. unfold modify. sends_go. Qed.
Hint Resolve sends_recv sends_clear sends_modify : sends.

Lemma sends_agent_connect P tmo : sends (T := T) P (connect fuel tmo).
Proof.
  assert (silent (T := T) (wait_for_ready fuel tmo)) by (unfold wait_for_ready, wait_for_ready_body, wait_for_ready_drain; silence).
  unfold connect. apply sends_bind; [by apply sends_silent|]. intros b. sends_go.
Qed.

Lemma sends_get_info : sends (T := T) query (get_info fuel).
Proof.
  assert (sends (T := T) query (send_packet CMD_INFO [])) by (apply sends_query; [by left|constructor]).
  unfold get_info. sends_go.
Qed.

Lemma sends_set_baud baud : sends (T := T) query (set_baud fuel baud).
Proof.
  assert (Hi : sends (T := T) query (send_packet CMD_INFO [])) by (apply sends_query; [by left|constructor]).
  assert (Hb : forall data, is_bytes data -> sends (T := T) query (send_packet CMD_SET_BAUD data))
    by (intros; apply sends_query; [by right; left|done]).
  assert (Hr : forall b, sends (T := T) (Ob := agent) query (set_baudrate b)) by (intros; apply sends_silent, silent_set_baudrate).
  unfold set_baud, set_baud_host, set_baud_verify, set_baud_revert.
  apply sends_bind; [eauto with sends|intros _]. apply sends_bind; [eauto with sends|intros a].
  apply sends_lift_bind. intros payload Hp%pack_I_bytes. specialize (Hb _ Hp) as Hb'.
  assert (Hf : sends (T := T) query (let* fallback := lift (pack_I [FALLBACK_BAUD]) in send_packet CMD_SET_BAUD fallback)).
  { apply sends_lift_bind. intros f Hf%pack_I_bytes. by apply Hb. }
  generalize dependent (let* fallback := lift (pack_I [FALLBACK_BAUD]) in send_packet (T := T) CMD_SET_BAUD fallback). intros m Hm.
  sends_go.
Qed.

Lemma sends_switch_baud target : sends (T := T) query (switch_baud fuel target).
Proof. pose proof (sends_set_baud target). unfold switch_baud. sends_go. Qed.

Lemma sends_client_crc32 addr size : sends (T := T) query (client_crc32 fuel addr size).
Proof.
  unfold client_crc32. apply sends_bind; [eauto with sends|intros _]. apply sends_lift_bind. intros data Hd%pack_I_bytes.
  assert (sends (T := T) query (send_packet CMD_CRC32 data)) by (apply sends_query; [by do 2 right; left|done]). sends_go.
Qed.

Lemma sends_reboot : sends (T := T) query (reboot fuel).
Proof.
  assert (sends (T := T) query (send_packet CMD_REBOOT [])) by (apply sends_query; [by do 3 right; left|constructor]).
  unfold reboot. sends_go.
Qed.

(** *** The layout is kept *)

Lemma keeps_modify (P : agent -> Prop) f : (forall a, P a -> P (f a)) -> keeps (T := T) P (modify f).
Proof. intros Hf. unfold modify. keeps_go. Qed.

Ltac kept_go := keeps_go; repeat case_match; done.

Section Geometry.
Variable g : Z * Z * Z * Z.
Abbreviation kept := (fun a => geometry a = g).

Lemma keeps_send_packet cmd data : keeps (T := T) kept (send_packet cmd data).
Proof. unfold send_packet. kept_go. Qed.

Lemma keeps_recv tmo : keeps (T := T) kept (recv fuel tmo).
Proof. unfold recv, recv_response, recv_response_body, recv_packet, recv_packet_body, consume_m. kept_go. Qed.

Lemma keeps_clear : keeps (T := T) kept clear_rx_buffers.
Proof. by apply keeps_modify. Qed.

Lemma keeps_set_baudrate b : keeps (T := T) kept (set_baudrate b).
Proof. apply keeps_same. intros w. unfold set_baudrate. destruct (t_set_baudrate _ _). by eexists. Qed.
Hint Resolve keeps_send_packet keeps_recv keeps_clear keeps_set_baudrate : keeps.

Lemma keeps_switch_baud target : keeps (T := T) kept (switch_baud fuel target).
Proof. unfold switch_baud, set_baud, set_baud_host, set_baud_verify, set_baud_revert, modify. kept_go. Qed.

Lemma keeps_connect tmo : keeps (T := T) kept (connect fuel tmo).
Proof.
  unfold connect, wait_for_ready, wait_for_ready_body, wait_for_ready_drain, recv_packet, recv_packet_body, consume_m, modify. kept_go. Qed.

Lemma keeps_client_crc32 addr size : keeps (T := T) kept (client_crc32 fuel addr size).
Proof. unfold client_crc32. kept_go. Qed.

Lemma keeps_reboot : keeps (T := T) kept (reboot fuel).
Proof. unfold reboot. kept_go. Qed.

Lemma keeps_send_data data seq : keeps (T := T) kept (send_data_stream data seq).
Proof. unfold send_data_stream, send_data_body. kept_go. Qed.
Hint Resolve keeps_send_data : keeps.

Lemma keeps_write_flash_stream addr data ss : keeps (T := T) kept (write_flash_stream fuel addr data ss).
Proof. unfold write_flash_stream, write_flash_sector, write_flash_wait, write_flash_final. kept_go. Qed.

Lemma keeps_read_memory addr size fast : keeps (T := T) kept (read_memory fuel addr size fast).
Proof. pose proof (keeps_switch_baud DEFAULT_FAST_BAUD). unfold read_memory, read_memory_body. kept_go. Qed.

End Geometry.

(** *** Calls that only ask *)

(** [m] writes queries only and leaves the layout alone. *)
Definition polite {A} (m : M T agent A) : Prop :=
  forall a, does m a (fun _ l a' => Forall query (writes l) /\ geometry a' = geometry a).

Lemma polite_intro {A} (m : M T agent A) : sends (T := T) query m -> (forall g, keeps (T := T) (fun a => geometry a = g) m) -> polite m.
Proof. intros Hs Hk a w Hw. destruct (Hs w) as (l & Hl & Hq). destruct (Hk _ a eq_refl w Hw) as (l' & Hl' & Hg). exists l. by split. Qed.

Lemma polite_recv tmo : polite (recv fuel tmo).
Proof. apply polite_intro; [apply sends_recv|intros; apply keeps_recv]. Qed.
Lemma polite_clear : polite clear_rx_buffers.
Proof. apply polite_intro; [apply sends_clear|intros; apply keeps_clear]. Qed.
Lemma polite_switch_baud target : polite (switch_baud fuel target).
Proof. apply polite_intro; [apply sends_switch_baud|intros; apply keeps_switch_baud]. Qed.
Lemma polite_connect tmo : polite (connect fuel tmo).
Proof. apply polite_intro; [apply sends_agent_connect|intros; apply keeps_connect]. Qed.
Lemma polite_client_crc32 addr size : polite (client_crc32 fuel addr size).
Proof. apply polite_intro; [apply sends_client_crc32|intros; apply keeps_client_crc32]. Qed.
Lemma polite_reboot : polite (reboot fuel).
Proof. apply polite_intro; [apply sends_reboot|intros; apply keeps_reboot]. Qed.
Lemma polite_info : polite (send_packet CMD_INFO []).
Proof. apply polite_intro; [apply sends_query; [by left|constructor]|intros; apply keeps_send_packet]. Qed.

Lemma polite_bind {A B} (m : M T agent A) (k : A -> M T agent B) a Q :
  polite m ->
  (forall r l a', Forall query (writes l) -> geometry a' = geometry a ->
    match r with Ok x => does (k x) a' (fun r' l' o => Q r' (l ++ l') o) | Raise e => Q (Raise e) l a' | Diverge => Q Diverge l a' end) ->
  does (bind m k) a Q.
Proof. intros Hm Hk. apply does_bind. eapply does_weaken; [apply Hm|]. intros r l a' [Hq Hg]. apply (Hk r l a' Hq Hg). Qed.

(** [get_info] sets the layout to what the agent reports. *)
Lemma get_info_does a :
  does (T := T) (get_info fuel) a (fun r l a' => Forall query (writes l) /\
    match r with Ok (Some i) => flash_size a' = i_flash_size i /\ sector_size a' = i_sector_size i | Ok None => geometry a' = geometry a | _ => True end).
Proof.
  eapply does_weaken; [apply does_both with (P := fun _ l _ => Forall query (writes l))|intros r l a' [H1 H2]; split; [exact H1|exact H2]].
  { eapply does_weaken; [apply does_emits, sends_get_info|done]. }
  unfold get_info. apply polite_bind; [apply polite_clear|]. intros [[]|e|] l1 a1 _ G1; [|done..].
  apply polite_bind; [apply polite_info|]. intros [[]|e|] l2 a2 _ G2; [|done..].
  apply polite_bind; [apply polite_recv|]. intros [[cmd data]|e|] l3 a3 _ G3; [|done..].
  does_step; [does_step; congruence|]. cbn zeta.
  does_step. does_step. destruct (unpack_le 4 data 4) as [fs|e|]; [|done..].
  does_step. does_step. destruct (unpack_le 4 data 8) as [rb|e|]; [|done..].
  does_step. does_step. destruct (unpack_le 4 data 12) as [ss|e|]; [|done..].
  unfold modify. do 4 does_step. does_step.
  apply (does_weaken _ _ (fun _ _ a' => flash_size a' = fs /\ sector_size a' = ss)); [|intros [vc|e|] l a' Ha; [|done..]].
  { does_step; [|by does_step]. does_step. does_step. destruct (unpack_le 4 data 16); [|done..].
    does_step. does_step. destruct (unpack_le 4 data 20); [|done..]. by does_step. }
  does_step. apply (does_weaken _ _ (fun _ _ a' => flash_size a' = fs /\ sector_size a' = ss)); [|intros [fm|e|] l' b Hb; [by does_step|done..]].
  does_step; [|by does_step]. does_step. does_step. destruct (unpack_le 4 data 24); [|done..]. by do 5 does_step.
Qed.

(** The stream begins before [write_flash] returns. *)
Lemma write_flash_starts addr data ss a :
  does (T := T) (write_flash_stream fuel addr data ss) a (fun r l a' => geometry a' = geometry a /\ forall b, r = Ok b -> writes l <> []).
Proof.
  apply does_both; [by apply keeps_write_flash_stream|]. unfold write_flash_stream. cbn zeta.
  do 2 does_step. destruct (pack_I _) as [hdr|e|]; [|done..]. cbn [app].
  does_step. eapply does_weaken.
  { apply does_emits with (Q := fun r l => forall b, r = Ok b -> writes l <> []). unfold send_packet.
    apply emits_bind, emits_lift. destruct (build_packet _ _) as [pkt|e|]; [|done..]. by apply emits_write. }
  intros [[]|e|] l a1 Hl; [|done..]. specialize (Hl tt eq_refl).
  match goal with |- does ?m _ _ => assert (Hk : keeps (T := T) (fun a => geometry a = geometry a1) m) end.
  { pose proof (keeps_send_data (geometry a1)). pose proof (keeps_recv (geometry a1)).
    unfold write_flash_sector, write_flash_wait, write_flash_final. keeps_go. }
  eapply does_weaken; [by apply Hk|]. intros r l' a' _ b _. rewrite writes_app. by intros [? _]%app_eq_nil.
Qed.

End Client.

(** ** What was acknowledged

  [write_memory] sends the blocks of the image in windows, and sends those of
  a window whose acknowledgments did not come again, one by one. *)

(** A block on its own: its header, an OK, its DATA packets, an OK. *)
Definition block_acked (out : list bytes) (s : bytes) (l : list event) (s' : bytes) : Prop :=
  exists h t l1 l2 l3 l4 p1 p2 s1, out = h :: t /\ l = l1 ++ l2 ++ l3 ++ l4 /\
    sent [h] l1 /\ heard s l2 [p1] s1 /\ is_ack p1 /\ sent t l3 /\ heard s1 l4 [p2] s' /\ is_ack p2.

Section Blocks.
Variables (addr : Z) (data : bytes).

Fixpoint blocks_acked (js : list nat) (s : bytes) (l : list event) (s' : bytes) : Prop :=
  match js with
  | [] => l = [] /\ s' = s
  | j :: js' => exists l1 l2 s1, l = l1 ++ l2 /\ block_acked (bw addr data j) s l1 s1 /\ blocks_acked js' s1 l2 s'
  end.

(** [delivered i s l s']: in [l] the first [i] blocks of the image were sent,
    a window at a time, and each was acknowledged twice, either with its window
    or, after a window that was not, in an exchange of its own. *)
Inductive delivered : nat -> bytes -> list event -> bytes -> Prop :=
  | delivered_none s : delivered 0 s [] s
  | delivered_window i k s l s1 lw la ps s2 :
      delivered i s l s1 -> (i + k <= nblocks data)%nat -> sent (bws addr data (seq i k)) lw ->
      heard s1 la ps s2 -> length ps = (2 * k)%nat -> Forall is_ack ps -> delivered (i + k) s (l ++ lw ++ la) s2
  | delivered_again i k s l s1 lw la s2 lr s3 :
      delivered i s l s1 -> (i + k <= nblocks data)%nat -> sent (bws addr data (seq i k)) lw ->
      writes la = [] -> s2 `suffix_of` s1 ++ reads la -> blocks_acked (seq i k) s2 lr s3 ->
      delivered (i + k) s (l ++ lw ++ la ++ lr) s3.

Lemma blocks_acked_snoc js j s l s1 l' s2 :
  blocks_acked js s l s1 -> block_acked (bw addr data j) s1 l' s2 -> blocks_acked (js ++ [j]) s (l ++ l') s2.
Proof.
  revert s l. induction js as [|i js IH]; intros s l; cbn.
  - intros [-> ->] Hb. exists l', [], s2. by rewrite app_nil_r.
  - intros (l1 & l2 & s3 & -> & Hb & Hr) Hj. exists l1, (l2 ++ l'), s3. rewrite app_assoc. eauto.
Qed.

End Blocks.

(** [write_flash] sends a sector only when the agent has answered for the one
    before; [streamed j]: it has for the first [j]. *)
Section Sectors.
Variables (addr : Z) (data : bytes) (ss : Z).

Inductive streamed : nat -> bytes -> list event -> bytes -> Prop :=
  | streamed_none s : streamed 0 s [] s
  | streamed_sector j s l s1 ls lp p s2 :
      streamed j s l s1 -> (j < nsectors data ss)%nat -> sent (sector_wire data ss j) ls ->
      heard s1 lp [p] s2 -> fst p = RSP_DATA -> streamed (S j) s (l ++ ls ++ lp) s2.

(** A stream the agent is done with: an OK to the header, an answer to every
    sector, and an OK in the end, either after progress packets that came
    late or in place of the answer to a sector. *)
Definition flash_acked (s : bytes) (l : list event) (s' : bytes) : Prop :=
  exists lh la p s1 l1 j s2 l2, l = lh ++ la ++ l1 ++ l2 /\
    sent (take 1 (flash_wire addr data ss)) lh /\ heard s la [p] s1 /\ is_ack p /\ streamed j s1 l1 s2 /\
    ((j = nsectors data ss /\ exists ps q, heard s2 l2 (ps ++ [q]) s' /\ Forall (fun p => fst p = RSP_DATA) ps /\ is_ack q) \/
     ((j < nsectors data ss)%nat /\ exists ls lp q, l2 = ls ++ lp /\ sent (sector_wire data ss j) ls /\ heard s2 lp [q] s' /\ is_ack q)).

End Sectors.

Section Acknowledged.
Context {T : Type} `{Transport T}.
Variable fuel : nat.

(** [m] does not look at what comes in. *)
Definition mute {A} (m : M T agent A) : Prop := forall a, does m a (fun _ l a' => reads l = [] /\ a' = a).

Lemma mute_bind {A B} (m : M T agent A) (f : A -> M T agent B) : mute m -> (forall x, mute (f x)) -> mute (bind m f).
Proof.
  intros Hm Hf a. apply does_bind. eapply does_weaken; [apply Hm|]. intros [x|e|] l a' [Hr ->]; [|done..].
  eapply does_weaken; [apply Hf|]. intros r l' a'' [Hr' ->]. by rewrite reads_app, Hr, Hr'.
Qed.
Lemma mute_ret {A} (x : A) : mute (ret x).
Proof. intros a. by apply does_ret. Qed.
Lemma mute_lift {A} (r : res A) : mute (lift r).
Proof. intros a. by apply does_lift. Qed.
Lemma mute_foreach {S R X} (xs : list X) (body : X -> S -> M T agent (ctl S R)) s : (forall x s, mute (body x s)) -> mute (foreach xs body s).
Proof.
  intros Hb. revert s. induction xs as [|x xs IH]; intros s; [apply mute_ret|]. apply mute_bind; [apply Hb|].
  intros [s'|s'|r]; [apply IH|apply mute_ret..].
Qed.
Lemma mute_while {S R} n (body : S -> M T agent (ctl S R)) s : (forall s, mute (body s)) -> mute (while n body s).
Proof.
  intros Hb. revert s. induction n as [|n IH]; intros s; [by intros a; apply does_diverge|]. apply mute_bind; [apply Hb|].
  intros [s'|s'|r]; [apply IH|apply mute_ret..].
Qed.
Lemma mute_send_packet cmd data : mute (send_packet cmd data).
Proof. unfold send_packet. apply mute_bind; [apply mute_lift|]. intros pkt a. by apply does_write. Qed.
Lemma mute_send_data data seq : mute (send_data_stream data seq).
Proof.
  unfold send_data_stream, send_data_body. apply mute_bind; [|intros; apply mute_ret]. apply mute_while. intros [off sq].
  destruct (negb _); [apply mute_ret|]. apply mute_bind; [apply mute_lift|intros hdr].
  apply mute_bind; [apply mute_send_packet|]. intros; apply mute_ret.
Qed.

(** A call that writes [out] without looking at what comes in. *)
Lemma sends_does {A} (m : M T agent A) v out a :
  AgentClient.sends m v out -> mute m -> does m a (fun r l a' => a' = a /\ (r = Ok v -> sent out l)).
Proof.
  intros Hs Hm. eapply does_weaken; [apply does_both; [apply does_emits, Hs|apply Hm]|].
  intros r l a' [[_ Ho] [Hr ->]]. split; [done|]. intros Hv. split; [by apply Ho|done].
Qed.

Lemma send_packet_does cmd data a :
  is_byte cmd -> is_bytes data -> does (send_packet cmd data) a (fun r l a' => a' = a /\ sent [wire (cmd, data)] l).
Proof.
  intros Hc Hd. eapply does_weaken; [apply does_both; [by apply does_emits, emits_send_packet|apply mute_send_packet]|].
  by intros r l a' [Hw [Hr ->]].
Qed.

Lemma is_ack_ok_spec p : is_ack_ok p = Ok true -> is_ack p.
Proof.
  destruct p as [cmd d]. unfold is_ack_ok, is_ack, index. cbn [fst snd]. destruct (cmd =? RSP_ACK) eqn:E; [|done]. b2p.
  change (Z.to_nat 0) with 0%nat. destruct (d !! 0%nat) as [b|]; [|done]. cbn. intros [= Hb]. b2p. by subst.
Qed.

Lemma clear_rx_does a (Q : res unit -> list event -> agent -> Prop) :
  (forall a', leftover a' = leftover a -> geometry a' = geometry a -> Q (Ok tt) [] a') -> does (T := T) clear_rx_buffers a Q.
Proof. intros HQ. unfold clear_rx_buffers, modify. do 3 does_step. cbn [app]. by apply HQ. Qed.

Lemma write_block_does addr data a :
  is_bytes data ->
  does (write_block fuel addr data) a (fun r l a' => r = Ok true -> block_acked (block_wire CMD_WRITE addr data) (leftover a) l (leftover a')).
Proof.
  intros Hd. unfold write_block. does_step. apply clear_rx_does. intros a0 <- _.
  does_step. does_step. destruct (pack_I3 addr (len data) (crc32_of data)) as [-> | ->]; [|done].
  does_step. eapply does_weaken; [apply send_packet_does|].
  { by unfold is_byte, CMD_WRITE. } { repeat apply Forall_app_2; by apply le_bytes_is_bytes. }
  intros [[]|e|] l1 a1 [-> H1]; [|done..].
  does_step. eapply does_weaken; [apply recv_does|]. intros [p1|e|] l2 a2 (_ & _ & H2); [|done..]. specialize (H2 p1 eq_refl).
  does_step. does_step. destruct (is_ack_ok p1) as [[]|e|] eqn:A1; cbn [negb]; [|by does_step|done..].
  does_step. eapply does_weaken; [apply (sends_does _ tt); [by apply send_data_sends|apply mute_send_data]|].
  intros [[]|e|] l3 a3 [-> H3]; [|done..]. specialize (H3 eq_refl).
  does_step. eapply does_weaken; [apply recv_does|]. intros [p2|e|] l4 a4 (_ & _ & H4); [|done..]. specialize (H4 p2 eq_refl).
  does_step. intros A2. exists (wire (CMD_WRITE, le_bytes 4 addr ++ le_bytes 4 (len data) ++ le_bytes 4 (crc32_of data))), (data_wire data 0),
    l1, l2, l3, l4, p1, p2, (leftover a2). cbn [app]. rewrite app_nil_r. split_and!; try done; by apply is_ack_ok_spec.
Qed.

(** The acknowledgments of one block of a window: both were OK, or the result
    is [false]; in any case nothing is written. *)
Lemma suffix_step s l s1 l' s2 : s1 `suffix_of` s ++ reads l -> s2 `suffix_of` s1 ++ reads l' -> s2 `suffix_of` s ++ reads (l ++ l').
Proof. intros [k Hk] H2. rewrite reads_app, app_assoc, Hk, <- app_assoc. by apply suffix_app_r. Qed.

Definition acks_result (s : bytes) (n : nat) (r : res (ctl bool unit)) (l : list event) (a : agent) : Prop :=
  writes l = [] /\ leftover a `suffix_of` s ++ reads l /\
  match r with
  | Ok (Next b) | Ok (Brk b) => b = true -> exists ps, heard s l ps (leftover a) /\ length ps = (2 * n)%nat /\ Forall is_ack ps
  | _ => True
  end.

Lemma write_acks_body_does x st a :
  does (T := T) (write_acks_body fuel x st) a (fun r l a' => acks_result (leftover a) 1 r l a' /\
    match r with Ok (Next b) => b = true | Ok (Brk b) => b = false | _ => True end).
Proof.
  set (Q := fun (r : res (ctl bool unit)) l a' => _).
  assert (Hno : forall l a', writes l = [] -> leftover a' `suffix_of` leftover a ++ reads l ->
    Q (Ok (Brk false)) l a' /\ (forall e, Q (Raise e) l a') /\ Q Diverge l a') by (intros l a' Hw Hs; by split_and!).
  assert (Hcaught : forall e l a', writes l = [] -> leftover a' `suffix_of` leftover a ++ reads l ->
    if is_Exception e then does (T := T) (ret (Brk false)) a' (fun r l' a'' => Q r (l ++ l') a'') else Q (Raise e) l a').
  { intros e l a' Hw Hs. destruct (Hno l a' Hw Hs) as (H1 & H2 & _). destruct (is_Exception e); [|done]. apply does_ret. by rewrite app_nil_r. }
  unfold write_acks_body. do 2 does_step. eapply does_weaken; [apply recv_does|]. intros r1 l1 a1 (W1 & S1 & H1).
  destruct (Hno l1 a1 W1 S1) as (N1 & _ & D1). destruct r1 as [p1|e|]; [|by apply Hcaught|done]. specialize (H1 p1 eq_refl).
  do 2 does_step. destruct (is_ack_ok p1) as [[]|e|] eqn:A1; cbn [negb app]; rewrite ?app_nil_r;
    [|apply does_ret; by rewrite !app_nil_r|by apply Hcaught|done].
  does_step. eapply does_weaken; [apply recv_does|]. intros r2 l2 a2 (W2 & S2 & H2).
  assert (W : writes (l1 ++ l2) = []) by by rewrite writes_app, W1, W2.
  assert (Hsuf := suffix_step _ _ _ _ _ S1 S2).
  destruct (Hno _ a2 W Hsuf) as (N2 & _ & D2). destruct r2 as [p2|e|]; cbn [app]; [|by apply Hcaught|done]. specialize (H2 p2 eq_refl).
  do 2 does_step. destruct (is_ack_ok p2) as [[]|e|] eqn:A2; cbn [negb app]; rewrite ?app_nil_r;
    [|apply does_ret; by rewrite !app_nil_r|by apply Hcaught|done].
  apply does_ret. rewrite !app_nil_r. split; [|done]. split_and!; [done..|]. intros _. exists [p1; p2].
  split_and!; [|done|repeat constructor; by apply is_ack_ok_spec]. apply (heard_app _ _ [p1] _ _ [p2] _ H1 H2).
Qed.

Lemma write_acks_does xs a :
  does (T := T) (foreach xs (write_acks_body fuel) true) a (fun r l a' => acks_result (leftover a) (length xs) r l a').
Proof.
  apply (does_foreach (fun done b l o => b = true /\ acks_result (leftover a) (length done) (Ok (Next b)) l o)).
  - split; [done|]. split_and!; [done|rewrite app_nil_r; done|]. intros _. exists []. split_and!; [apply heard_nil|done|constructor].
  - intros done x rest b l o _ [-> (W & S & Hp)]. destruct (Hp eq_refl) as (ps & Hh & Hl & Ha).
    eapply does_weaken; [apply write_acks_body_does|]. intros r l1 o1 [(W1 & S1 & Hr) Hb].
    assert (W' : writes (l ++ l1) = []) by by rewrite writes_app, W, W1.
    assert (S' := suffix_step _ _ _ _ _ S S1).
    destruct r as [[b|b|[]]|e|]; [|subst b; by split_and!|by split_and!..].
    split; [exact Hb|]. split_and!; [done..|]. intros E. destruct (Hr E) as (qs & Hq & Hlq & Haq).
    exists (ps ++ qs). split_and!; [by eapply heard_app| |by apply Forall_app]. rewrite !length_app, Hl, Hlq. cbn. lia.
  - by intros b l o [_ Hr].
Qed.

Section Memory.
Variables (addr : Z) (data : bytes).
Hypothesis Hdata : is_bytes data.

Lemma mute_window x st : mute (write_window_body addr data x st).
Proof.
  destruct st as [off n]. unfold write_window_body. destruct (_ <=? _); [apply mute_ret|].
  apply mute_bind; [apply mute_lift|intros pl]. apply mute_bind; [apply mute_send_packet|intros _].
  apply mute_bind; [apply mute_send_data|intros _]. apply mute_ret.
Qed.

Lemma write_retry_does i k xs a :
  (i + k <= nblocks data)%nat -> (length xs <= k)%nat ->
  does (T := T) (foreach xs (write_retry_body fuel addr data) (boff data i)) a (fun r l a' =>
    match r with
    | Ok (Next off) => off = boff data (i + length xs) /\ blocks_acked addr data (seq i (length xs)) (leftover a) l (leftover a')
    | Ok (Brk _) => False
    | _ => True
    end).
Proof.
  intros Hk Hxs.
  apply (does_foreach (fun done off l o => off = boff data (i + length done) /\
    blocks_acked addr data (seq i (length done)) (leftover a) l (leftover o))).
  - cbn. by rewrite Nat.add_0_r.
  - intros done x rest off l o Heq [-> Hb]. set (m := length done) in *.
    assert (Him : (i + m < nblocks data)%nat).
    { apply (f_equal length) in Heq. rewrite length_app in Heq. cbn in Heq. lia. }
    destruct (block_facts data Hdata _ Him) as (Hb' & Hsl & Hlen & Hnext & Hbytes & Hlt).
    unfold write_retry_body. cbn zeta. replace (len data <=? boff data (i + m)) with false by (symmetry; apply Z.leb_gt; lia).
    rewrite Hsl, Hnext. does_step. eapply does_weaken; [by apply write_block_does|].
    intros [[]|e|] l1 o1 Hok; cbn [negb]; [|by does_step|done..]. does_step. rewrite app_nil_r, length_app, Hb' in *. cbn [length].
    fold m. rewrite Nat.add_1_r, Nat.add_succ_r. split; [done|]. rewrite seq_S.
    eapply blocks_acked_snoc; [exact Hb|]. by apply Hok.
  - by intros off l o [-> Hb].
Qed.

(** One window, from its first block to its last acknowledgment. *)
Lemma write_memory_acks_does i k window a :
  (i + k <= nblocks data)%nat ->
  does (write_memory_acks fuel addr data (boff data i) window (boff data (i + k)) (Z.of_nat k)) a (fun r l a' =>
    match r with
    | Ok (Next (off, _)) => off = boff data (i + k) /\
        ((exists ps, heard (leftover a) l ps (leftover a') /\ length ps = (2 * k)%nat /\ Forall is_ack ps) \/
         exists la s2 lr, l = la ++ lr /\ writes la = [] /\ s2 `suffix_of` leftover a ++ reads la /\
           blocks_acked addr data (seq i k) s2 lr (leftover a'))
    | Ok (Brk _) => False
    | Ok (Rtn b) => b = false
    | _ => True
    end).
Proof.
  intros Hk. unfold write_memory_acks. cbn zeta.
  assert (Hlen : length (range (Z.of_nat k)) = k) by (unfold range; rewrite length_fmap, length_seq; lia).
  does_step. eapply does_weaken; [apply write_acks_does|]. rewrite Hlen. intros [c|e|] l1 a1 (W1 & S1 & H1); [|done..].
  cbn zeta. destruct (match c with Next b | Brk b => b | Rtn _ => false end) eqn:Ec.
  { does_step. rewrite app_nil_r. split; [done|]. left. destruct c as [b|b|b]; [| |done]; by apply H1. }
  clear H1. does_step. apply clear_rx_does. intros a2 Ha2 _. do 2 does_step. cbn [app].
  does_step. eapply does_weaken; [apply (write_retry_does i k _ a2 Hk); by rewrite Hlen|]. rewrite Hlen.
  intros [[off|off|[]]|e|] l2 a3 H2; [|done|by does_step|done..].
  destruct H2 as [-> Hb]. does_step. split; [done|]. right. exists l1, (leftover a2), l2. rewrite app_nil_r, Ha2 in *. by split_and!.
Qed.

Lemma write_window_does i xs a :
  (i < nblocks data)%nat ->
  does (foreach xs (write_window_body addr data) (boff data i, 0)) a (fun r l a' => a' = a /\
    match r with
    | Ok (Next (off, n)) | Ok (Brk (off, n)) => exists k, (i + k <= nblocks data)%nat /\ off = boff data (i + k) /\ n = Z.of_nat k /\
        sent (bws addr data (seq i k)) l
    | Ok (Rtn _) => False
    | _ => True
    end).
Proof.
  intros Hi. eapply does_weaken; [apply does_both; [apply does_emits, (write_window_sends addr data Hdata i xs Hi)|apply mute_foreach, mute_window]|].
  intros r l a' [Hw [Hr ->]]. split; [done|].
  destruct r as [[[off n]|[off n]|u]|e|]; try done; destruct Hw as (k & Hk & Ho & Hn & Hw & _); exists k; by split_and!.
Qed.

(** The blocks of the image up to the offset are delivered. *)
Definition memory_inv (s0 : bytes) (s : Z * Z) (l : list event) (a : agent) : Prop :=
  exists i, (i <= nblocks data)%nat /\ fst s = boff data i /\ delivered addr data i s0 l (leftover a).

Lemma write_memory_turn_does s0 s l0 a :
  memory_inv s0 s l0 a ->
  does (write_memory_body fuel addr data s) a (fun r l a' =>
    match r with
    | Ok (Next s') => memory_inv s0 s' (l0 ++ l) a'
    | Ok (Brk _) => delivered addr data (nblocks data) s0 (l0 ++ l) (leftover a')
    | Ok (Rtn b) => b = false
    | _ => True
    end).
Proof.
  intros (i & Hi & Hoff & Hd). destruct s as [offset window]. cbn in Hoff. subst offset.
  unfold write_memory_body. cbn zeta. destruct (negb _) eqn:E; b2p.
  { does_step. rewrite app_nil_r. replace (nblocks data) with i; [done|].
    destruct (decide (i < nblocks data)%nat) as [Hlt|]; [|lia]. apply nblocks_bound in Hlt. unfold boff in E. lia. }
  assert (Hi' : (i < nblocks data)%nat) by (apply nblocks_bound; unfold boff in E; lia).
  does_step. eapply does_weaken; [by apply write_window_does|].
  assert (Hgo : forall off n l1, (exists k, (i + k <= nblocks data)%nat /\ off = boff data (i + k) /\ n = Z.of_nat k /\ sent (bws addr data (seq i k)) l1) ->
    does (write_memory_acks fuel addr data (boff data i) window off n) a (fun r l a' =>
      match r with
      | Ok (Next s') => memory_inv s0 s' (l0 ++ l1 ++ l) a'
      | Ok (Brk _) => delivered addr data (nblocks data) s0 (l0 ++ l1 ++ l) (leftover a')
      | Ok (Rtn b) => b = false
      | _ => True
      end)).
  { intros off n l1 (k & Hk & -> & -> & Hs). eapply does_weaken; [by apply write_memory_acks_does|].
    intros [[[off w']|u|b]|e|] l2 a2 H2; try done. destruct H2 as [-> H2]. exists (i + k)%nat. split_and!; [done|done|].
    destruct H2 as [(ps & Hh & Hl & Ha)|(la & s2 & lr & -> & Hw & Hsuf & Hb)]; [by eapply delivered_window|by eapply delivered_again]. }
  intros [[[off n]|[off n]|u]|e|] l1 a1 [-> H1]; [by apply Hgo|by apply Hgo|done..].
Qed.

Lemma write_memory_loop_does window a :
  does (let* c := while (S (length data)) (write_memory_body fuel addr data) (0, window) in
    match c with Rtn b => ret b | _ => ret true end) a (fun r l a' =>
    r = Ok true -> delivered addr data (nblocks data) (leftover a) l (leftover a')).
Proof.
  does_step. apply (does_while (memory_inv (leftover a))).
  - exists 0%nat. split_and!; [lia|unfold boff; pose proof (len_nonneg data); cbn; lia|constructor].
  - intros s l0 a0 Hs. eapply does_weaken; [by apply write_memory_turn_does|].
    intros [[s'|s'|b]|e|] l a' Hr; [done|does_step; by rewrite app_nil_r|subst b; by does_step|done..].
  - done.
Qed.

(** Whatever happens, only blocks of the image are written. *)
Lemma write_memory_loop_writes window :
  outputs (T := T) (let* c := while (S (length data)) (write_memory_body fuel addr data) (0, window) in
    match c with Rtn b => ret b | _ => ret true end) (fun _ o => partial addr data o).
Proof.
  apply outputs_bind. eapply outputs_weaken; [apply (outputs_while (progress_inv addr data)) with (Q := write_result addr data)|].
  - exists 0%nat, []. split_and!; try done; [lia|unfold boff; pose proof (len_nonneg data); cbn; lia|lia].
  - intros s o Hs. by apply write_memory_turn.
  - intros s o (i & bs & _ & _ & -> & Hbs & _). split; [by apply blocks_partial|done].
  - intros r o [Hp _]. destruct r as [[s|s|b]|e|]; [apply outputs_ret; by rewrite app_nil_r..|done|done].
Qed.

End Memory.

Section Flash.
Variables (addr : Z) (data : bytes) (ss : Z).
Hypothesis Hdata : is_bytes data.
Hypothesis Hss : 0 < ss.

Lemma write_flash_wait_does u a :
  does (T := T) (write_flash_wait fuel u) a (fun r l a' => match r with
    | Ok (Brk _) => exists p, heard (leftover a) l [p] (leftover a') /\ fst p = RSP_DATA
    | Ok (Rtn true) => exists p, heard (leftover a) l [p] (leftover a') /\ is_ack p
    | Ok (Next _) => False
    | _ => True
    end).
Proof.
  unfold write_flash_wait. does_step. eapply does_weaken; [apply recv_does|].
  intros [[cmd d]|e|] l1 a1 (_ & _ & H1); [|done..]. specialize (H1 _ eq_refl).
  destruct (cmd =? RSP_DATA) eqn:Ed; b2p.
  { do 2 does_step. destruct (index d 0) as [b|e|]; [|done..]. do 2 does_step. destruct (index d 1) as [b1|e|]; [|done..].
    do 2 does_step. destruct (index d 2) as [b2|e|]; [|done..]. do 2 does_step. destruct (index d 3) as [b3|e|]; [|done..].
    does_step. cbn [app]. rewrite app_nil_r. by exists (cmd, d). }
  destruct (cmd =? RSP_ACK) eqn:Ea; b2p; [|by does_step].
  do 2 does_step. unfold index. change (Z.to_nat 0) with 0%nat. destruct (d !! 0%nat) as [b|] eqn:Eb; [|done]. cbn.
  destruct (b =? ACK_OK) eqn:Eo; b2p; does_step; [|done]. rewrite app_nil_r. exists (cmd, d). split; [done|]. subst. by split.
Qed.

Lemma write_flash_final_does u a :
  does (T := T) (write_flash_final fuel u) a (fun r l a' => match r with
    | Ok (Next _) => exists p, heard (leftover a) l [p] (leftover a') /\ fst p = RSP_DATA
    | Ok (Rtn true) => exists p, heard (leftover a) l [p] (leftover a') /\ is_ack p
    | _ => True
    end).
Proof.
  unfold write_flash_final. does_step. eapply does_weaken; [apply recv_does|].
  intros [[cmd d]|e|] l1 a1 (_ & _ & H1); [|done..]. specialize (H1 _ eq_refl).
  destruct (cmd =? RSP_ACK) eqn:Ea; b2p.
  - do 2 does_step. unfold index. change (Z.to_nat 0) with 0%nat. destruct (d !! 0%nat) as [b|] eqn:Eb; [|done]. cbn. does_step.
    rewrite app_nil_r. destruct (b =? ACK_OK) eqn:Eo; [|done]. b2p. subst. by exists (RSP_ACK, d).
  - destruct (cmd =? RSP_DATA) eqn:Ed; b2p; does_step; [|done]. rewrite app_nil_r. by exists (cmd, d).
Qed.

Lemma final_does a :
  does (T := T) (let* c := while fuel (write_flash_final fuel) tt in match c with Rtn b => ret b | _ => ret false end) a
    (fun r l a' => r = Ok true -> exists ps q, heard (leftover a) l (ps ++ [q]) (leftover a') /\ Forall (fun p => fst p = RSP_DATA) ps /\ is_ack q).
Proof.
  does_step. apply (does_while (fun _ l o => exists ps, heard (leftover a) l ps (leftover o) /\ Forall (fun p => fst p = RSP_DATA) ps)).
  - exists []. split; [apply heard_nil|constructor].
  - intros [] l o (ps & Hh & Hp). eapply does_weaken; [apply write_flash_final_does|].
    intros [[u|u|b]|e|] l1 o1 H1; [|by does_step| |done..].
    + destruct H1 as (p & Hh1 & Hd). exists (ps ++ [p]). split; [by eapply heard_app|]. apply Forall_app. by split; [|constructor].
    + does_step. rewrite app_nil_r. intros [= ->]. destruct H1 as (p & Hh1 & Ha). exists ps, p. split_and!; [by eapply heard_app|done..].
  - done.
Qed.

Lemma write_flash_sectors_does a :
  does (foreach (range (num_sectors_of (len data) ss)) (write_flash_sector fuel data ss (sector_bitmap data ss)) 0) a (fun r l a' =>
    match r with
    | Ok (Next _) => streamed data ss (nsectors data ss) (leftover a) l (leftover a')
    | Ok (Brk _) => False
    | Ok (Rtn true) => exists j l' s2 ls lp q, l = l' ++ ls ++ lp /\ streamed data ss j (leftover a) l' s2 /\ (j < nsectors data ss)%nat /\
        sent (sector_wire data ss j) ls /\ heard s2 lp [q] (leftover a') /\ is_ack q
    | _ => True
    end).
Proof.
  unfold range. fold (nsectors data ss).
  apply (does_foreach (fun done off l o => off = Z.min (Z.of_nat (length done) * ss) (len data) /\ streamed data ss (length done) (leftover a) l (leftover o))).
  - cbn. pose proof (len_nonneg data). split; [lia|constructor].
  - intros done x rest off l o Hxs [-> Hst]. set (k := length done) in *.
    assert (Hx : (k < nsectors data ss)%nat /\ x = Z.of_nat k).
    { pose proof (f_equal (fun l => l !! k) Hxs) as Hl. rewrite list_lookup_fmap in Hl.
      unfold k in Hl at 2. rewrite list_lookup_middle in Hl by done.
      apply fmap_Some in Hl as (j & Hj & ->). apply lookup_seq in Hj as [-> Hj]. by split. }
    destruct Hx as [Hk ->]. assert (Hk' := Hk). apply (nsectors_bound data ss Hss) in Hk'.
    unfold write_flash_sector. cbn zeta. rewrite Z.min_l by lia. rewrite (bitmap_used data ss Hss) by done.
    does_step. apply does_lift. does_step. cbn [app].
    eapply does_weaken; [apply (sends_does _ tt); [by apply sector_sends|]|].
    { destruct (sector_used _ _ _); [apply mute_send_data|apply mute_ret]. }
    intros [[]|e|] l2 o2 [-> H2]; [|done..]. specialize (H2 eq_refl).
    does_step. eapply does_weaken; [apply write_flash_wait_does|]. intros [[u|u|b]|e|] l3 o3 H3; [done| | |done..].
    + destruct H3 as (p & Hp & Hd). does_step. rewrite app_nil_r, length_app. cbn [length]. fold k. rewrite Nat.add_1_r.
      split; [lia|]. by eapply streamed_sector.
    + does_step. rewrite app_nil_r. destruct b; [|done]. destruct H3 as (p & Hp & Ha). by exists k, l, (leftover o), l2, l3, p.
  - intros off l o [_ Hst]. by rewrite length_fmap, length_seq in Hst.
Qed.

Lemma write_flash_stream_does a :
  does (write_flash_stream fuel addr data ss) a (fun r l a' => r = Ok true -> flash_acked addr data ss (leftover a) l (leftover a')).
Proof.
  unfold write_flash_stream. cbn zeta.
  does_step. does_step. destruct (pack_I3 addr (len data) (crc32_of data)) as [-> | ->]; [|done]. cbn [app].
  does_step. eapply does_weaken; [apply send_packet_does|].
  { by unfold is_byte, CMD_FLASH_STREAM. } { repeat apply Forall_app_2; try by apply le_bytes_is_bytes. by apply bitmap_bytes. }
  intros [[]|e|] lh a1 [-> Hh]; [|done..].
  does_step. eapply does_weaken; [apply recv_does|]. intros [p|e|] la a2 (_ & _ & Hp); [|done..]. specialize (Hp p eq_refl).
  does_step. does_step. destruct (is_ack_ok p) as [[]|e|] eqn:Ap; cbn [negb]; [|by does_step|done..]. apply is_ack_ok_spec in Ap.
  does_step. eapply does_weaken; [apply write_flash_sectors_does|].
  intros [[off|off|b]|e|] l1 a3 H1; [|done| |done..]; cbn [app].
  - eapply does_weaken; [apply final_does|]. intros r l2 a4 H2 Hr. destruct (H2 Hr) as (ps & q & Hq & Hps & Ha).
    exists lh, la, p, (leftover a2), l1, (nsectors data ss), (leftover a3), l2. split_and!; try done. left. split; [done|]. by exists ps, q.
  - does_step. rewrite app_nil_r. intros [= ->]. destruct H1 as (j & l' & s2 & ls & lp & q & -> & Hst & Hj & Hs & Hq & Ha).
    exists lh, la, p, (leftover a2), l', j, s2, (ls ++ lp). split_and!; try done. right. split; [done|]. by exists ls, lp, q.
Qed.

End Flash.

End Acknowledged.

(** ** The calls *)

(** What both calls do first: the line is made fast for more than 4 KiB. *)
Definition change_speed {T} `{Transport T} (fuel : nat) (fast : bool) (n : Z) : M T agent bool :=
  let* _ := clear_rx_buffers in
  if fast && (4096 <? n) then switch_baud fuel DEFAULT_FAST_BAUD else ret true.

Section Calls.
Context {T : Type} `{Transport T}.
Variable fuel : nat.

Lemma change_speed_does fast n a :
  does (T := T) (change_speed fuel fast n) a (fun _ l a' => Forall query (writes l) /\ geometry a' = geometry a /\
    (fast = false \/ n <= 4096 -> l = [] /\ leftover a' = leftover a)).
Proof.
  unfold change_speed. does_step. apply clear_rx_does. intros a1 Hl Hg. cbn [app].
  destruct (fast && (4096 <? n)) eqn:E.
  - eapply does_weaken; [apply polite_switch_baud|]. intros r l a2 [Hq Hg2]. split_and!; [done|congruence|].
    apply andb_true_iff in E as [-> E]. b2p. intros [?|?]; [done|lia].
  - apply does_ret. by split_and!.
Qed.

(** [write_flash] once the line is fast. *)
Definition flash_rest (addr : Z) (data : bytes) : M T agent bool :=
  let* a := get_obj in write_flash_stream fuel addr data (int_or (sector_size a) 0x10000).

Lemma write_flash_split addr data fast w :
  write_flash fuel addr data fast w = (let* _ := change_speed fuel fast (len data) in flash_rest addr data) w.
Proof. reflexivity. Qed.

(** [write_memory] once the line is fast. *)
Definition memory_rest (addr : Z) (data : bytes) : M T agent bool :=
  let* c := while (S (length data)) (write_memory_body fuel addr data) (0, Z.min WRITE_WINDOW (blocks_of (len data))) in
  match c with Rtn b => ret b | _ => ret true end.

Lemma write_memory_split addr data fast w :
  write_memory fuel addr data fast w = (let* _ := change_speed fuel fast (len data) in memory_rest addr data) w.
Proof. reflexivity. Qed.

Lemma flash_rest_does addr data a :
  is_bytes data ->
  does (flash_rest addr data) a (fun r l a' => geometry a' = geometry a /\ (forall b, r = Ok b -> l <> []) /\
    let ss := int_or (sector_size a) 0x10000 in
    (0 <= sector_size a -> writes l `prefix_of` flash_wire addr data ss /\
      (r = Ok true -> flash_acked addr data ss (leftover a) l (leftover a')))).
Proof.
  intros Hd. unfold flash_rest. do 2 does_step. cbn [app]. set (ss := int_or _ _).
  eapply does_weaken; [apply does_both; [apply write_flash_starts|apply (does_both _ _ (fun r l a' => 0 <= sector_size a -> writes l `prefix_of` flash_wire addr data ss)
    (fun r l a' => 0 <= sector_size a -> r = Ok true -> flash_acked addr data ss (leftover a) l (leftover a')))]|].
  1, 2: destruct (decide (0 <= sector_size a)) as [Hs|Hs]; [|eapply does_weaken; [apply write_flash_starts|done]].
  1, 2: assert (Hpos : 0 < ss) by (unfold ss, int_or; case_match; b2p; lia); eapply does_weaken.
  - apply does_emits, (write_flash_sends fuel addr data ss Hd Hpos).
  - by intros.
  - by apply write_flash_stream_does.
  - intros r l a' Hx _. exact Hx.
  - intros r l a' [[Hg Hne] [Hp Ha]]. split; [done|]. split; [intros b Hb ->; by apply (Hne b Hb)|]. cbn zeta. auto.
Qed.

(** [write_flash]: after queries a beginning of the one correct stream. *)
Lemma write_flash_does addr data fast a :
  is_bytes data ->
  does (T := T) (write_flash fuel addr data fast) a (fun r l a' => geometry a' = geometry a /\
    exists pre fl, l = pre ++ fl /\ Forall query (writes pre) /\ (forall b, r = Ok b -> fl <> []) /\
      let ss := int_or (sector_size a) 0x10000 in
      (0 <= sector_size a -> writes fl `prefix_of` flash_wire addr data ss /\
        (r = Ok true -> exists s, flash_acked addr data ss s fl (leftover a')))).
Proof.
  intros Hd w Hw. rewrite write_flash_split. revert w Hw.
  change (does (let* _ := change_speed fuel fast (len data) in flash_rest addr data) a (fun r l a' => geometry a' = geometry a /\
    exists pre fl, l = pre ++ fl /\ Forall query (writes pre) /\ (forall b, r = Ok b -> fl <> []) /\
      let ss := int_or (sector_size a) 0x10000 in
      (0 <= sector_size a -> writes fl `prefix_of` flash_wire addr data ss /\
        (r = Ok true -> exists s, flash_acked addr data ss s fl (leftover a'))))).
  does_step. eapply does_weaken; [apply change_speed_does|]. intros [x|e|] l1 a1 (Q1 & G1 & _).
  2, 3: split; [done|]; exists l1, []; rewrite app_nil_r; split_and!; try done; intros ss _; split; [apply prefix_nil|done].
  assert (Hss : sector_size a1 = sector_size a) by (unfold geometry in G1; congruence).
  eapply does_weaken; [by apply flash_rest_does|]. rewrite Hss.
  intros r l2 a2 (G2 & Hne & Hp). split; [congruence|]. exists l1, l2. split_and!; try done. intros ss Hs0.
  destruct (Hp Hs0) as [Hpre Ha]. split; [done|]. intros Hr. exists (leftover a1). by apply Ha.
Qed.

(** The agent was asked for the CRC-32 of [n] bytes at [addr] and gave [v]. *)
Definition crc_given (addr n v : Z) (l : list event) : Prop :=
  exists lq lh p s s', l = lq ++ lh /\ sent [wire (CMD_CRC32, le_bytes 4 addr ++ le_bytes 4 n)] lq /\
    heard s lh [p] s' /\ fst p = RSP_CRC32 /\ unpack_le 4 (snd p) 0 = Ok v.

Lemma client_crc32_does addr n a :
  does (T := T) (client_crc32 fuel addr n) a (fun r l _ => forall v, r = Ok v -> crc_given addr n v l).
Proof.
  unfold client_crc32. does_step. apply clear_rx_does. intros a0 _ _. does_step. does_step. cbn.
  unfold pack_le. destruct (fits 4 addr); [|done]. destruct (fits 4 n); [|done]. cbn. rewrite app_nil_r.
  does_step. eapply does_weaken; [apply send_packet_does|].
  { by unfold is_byte, CMD_CRC32. } { apply Forall_app_2; by apply le_bytes_is_bytes. }
  intros [[]|e|] l1 a1 [-> H1]; [|done..].
  does_step. eapply does_weaken; [apply recv_does|]. intros [[cmd d]|e|] l2 a2 (_ & _ & H2); [|done..]. specialize (H2 _ eq_refl).
  destruct (cmd =? RSP_ACK); [by does_step|]. destruct (negb (cmd =? RSP_CRC32) || _) eqn:E; [by does_step|].
  apply orb_false_iff in E as [E _]. b2p. does_step. intros v Hv. rewrite app_nil_r.
  by exists l1, l2, (cmd, d), (leftover a0), (leftover a2).
Qed.

End Calls.

(** ** Properties *)

(** A call that changes the speed of the line and goes on. *)
Lemma after_change_speed {T} `{Transport T} fuel fast n (m : M T agent bool) (w : world T agent) Q :
  (forall a, geometry a = geometry (obj w) -> does m a (fun r l a' => Q (leftover a) r l a')) ->
  (forall s e a', Q s (Raise e) [] a') -> (forall s a', Q s Diverge [] a') ->
  let run := (let* _ := change_speed fuel fast n in m) w in
  let w1 := snd (change_speed fuel fast n w) in
  exists pre l, log w1 = log w ++ pre /\ Forall query (writes pre) /\
    (fast = false \/ n <= 4096 -> pre = [] /\ leftover (obj w1) = leftover (obj w)) /\
    log (snd run) = log w1 ++ l /\ Q (leftover (obj w1)) (fst run) l (obj (snd run)).
Proof.
  intros Hm HR HD. cbn zeta. destruct (change_speed_does (T := T) fuel fast n (obj w) w eq_refl) as (pre & Hl & Hq & Hg & Hn). unfold bind.
  destruct (change_speed fuel fast n w) as [[x|e|] w1]; cbn [fst snd] in *.
  - destruct (Hm (obj w1) Hg w1 eq_refl) as (l & Hl2 & HQ). exists pre, l. by split_and!.
  - exists pre, []. rewrite app_nil_r. by split_and!.
  - exists pre, []. rewrite app_nil_r. by split_and!.
Qed.

(** C3. [write_flash] over any transport, whatever the agent answers and
    whatever the size of the image: after the packets that make the line fast
    (none for up to 4 KiB, or when it is told not to) all it writes is a
    beginning of one fixed stream, the FLASH_STREAM header with the length, the
    CRC-32 and the bitmap and then, in order, the numbered DATA packets of the
    sectors that are not all 0xFF.  It returns [True] only if the agent said OK
    to the header and has answered for each sector before the next was sent,
    and its last answer was an OK: the final one, or one that it gave in place
    of the answer to a sector. *)
Theorem write_flash_stream_safe {T} `{Transport T} fuel addr data fast (w : world T agent) :
  is_bytes data -> 0 <= sector_size (obj w) ->
  let run := write_flash fuel addr data fast w in
  let w1 := snd (change_speed fuel fast (len data) w) in
  let ss := int_or (sector_size (obj w)) 0x10000 in
  exists pre l, log w1 = log w ++ pre /\ Forall query (writes pre) /\
    (fast = false \/ len data <= 4096 -> pre = [] /\ leftover (obj w1) = leftover (obj w)) /\
    log (snd run) = log w1 ++ l /\ writes l `prefix_of` flash_wire addr data ss /\
    (fst run = Ok true -> flash_acked addr data ss (leftover (obj w1)) l (leftover (obj (snd run)))).
Proof.
  intros Hd Hs. cbn zeta. rewrite write_flash_split.
  apply (after_change_speed fuel fast (len data) (flash_rest fuel addr data) w (fun s r l a' =>
    writes l `prefix_of` flash_wire addr data (int_or (sector_size (obj w)) 0x10000) /\
    (r = Ok true -> flash_acked addr data (int_or (sector_size (obj w)) 0x10000) s l (leftover a')))).
  - intros a Hg. eapply does_weaken; [by apply flash_rest_does|]. intros r l a' (_ & _ & HQ).
    replace (sector_size (obj w)) with (sector_size a) in * by (unfold geometry in Hg; congruence). by apply HQ.
  - intros. split; [apply prefix_nil|done].
  - intros. split; [apply prefix_nil|done].
Qed.

(** C5. [write_memory] over any transport, whatever the agent answers: after
    the packets that make the line fast (none for up to 4 KiB, or when it is
    told not to) all it ever writes is blocks of the image, each as its
    CMD_WRITE header (address, length, CRC-32 of the block) and its numbered
    DATA packets, the last of them possibly cut short when it stops early; and
    it returns [True] only if every block of the image was sent, in order, and
    acknowledged with an OK to the header and an OK to the data: the windows
    whose OKs all came, behind the window, and the blocks of the others one by
    one in a second try. *)
Theorem write_memory_complete {T} `{Transport T} fuel addr data fast (w : world T agent) :
  is_bytes data ->
  let run := write_memory fuel addr data fast w in
  let w1 := snd (change_speed fuel fast (len data) w) in
  exists pre l, log w1 = log w ++ pre /\ Forall query (writes pre) /\
    (fast = false \/ len data <= 4096 -> pre = [] /\ leftover (obj w1) = leftover (obj w)) /\
    log (snd run) = log w1 ++ l /\ partial addr data (writes l) /\
    (fst run = Ok true -> delivered addr data (nblocks data) (leftover (obj w1)) l (leftover (obj (snd run)))).
Proof.
  intros Hd. cbn zeta. rewrite write_memory_split.
  apply (after_change_speed fuel fast (len data) (memory_rest fuel addr data) w (fun s r l a' =>
    partial addr data (writes l) /\ (r = Ok true -> delivered addr data (nblocks data) s l (leftover a')))).
  - intros a _. apply (does_both (memory_rest fuel addr data) a (fun _ l _ => partial addr data (writes l))
      (fun r l a' => r = Ok true -> delivered addr data (nblocks data) (leftover a) l (leftover a'))).
    + by apply does_emits, write_memory_loop_writes.
    + by apply write_memory_loop_does.
  - intros. split; [by apply (blocks_partial addr data [])|done].
  - intros. split; [by apply (blocks_partial addr data [])|done].
Qed.

(** ** Witnesses *)

(** An agent that says OK to a block, and one that takes a stream of one
    sector. *)
Theorem write_memory_complete_witness :
  let w := w_mock [(RSP_ACK, [ACK_OK]); (RSP_ACK, [ACK_OK])] in
  let run := write_memory w_fuel 0x41000000 [1; 2; 3] true w in
  fst run = Ok true /\
  exists l, log (snd run) = l /\ delivered 0x41000000 [1; 2; 3] 1 [] l [].
Proof.
  intros w run. assert (E : fst run = Ok true) by (vm_compute; reflexivity). split; [exact E|].
  destruct (write_memory_complete w_fuel 0x41000000 [1; 2; 3] true w) as (pre & l & Hpre & _ & Hn & Hl & _ & Hd).
  { repeat constructor; unfold is_byte; lia. }
  destruct Hn as [-> Hs]; [right; vm_compute; discriminate|]. exists l. split.
  - rewrite Hpre in Hl. exact Hl.
  - specialize (Hd E). rewrite Hs in Hd. replace (leftover (obj (snd run))) with (@nil Z) in Hd by (vm_compute; reflexivity). exact Hd.
Defined.

Theorem write_flash_stream_safe_witness :
  let w := w_mock [(RSP_ACK, [ACK_OK]); (RSP_DATA, [1; 0; 1; 0]); (RSP_ACK, [ACK_OK])] in
  let run := write_flash w_fuel 0 [1; 2; 3] true w in
  fst run = Ok true /\
  exists l, log (snd run) = l /\ writes l `prefix_of` flash_wire 0 [1; 2; 3] 0x10000 /\ flash_acked 0 [1; 2; 3] 0x10000 [] l [].
Proof.
  intros w run. assert (E : fst run = Ok true) by (vm_compute; reflexivity). split; [exact E|].
  destruct (write_flash_stream_safe w_fuel 0 [1; 2; 3] true w) as (pre & l & Hpre & _ & Hn & Hl & Hp & Ha).
  { repeat constructor; unfold is_byte; lia. } { vm_compute. discriminate. }
  destruct Hn as [-> Hs]; [right; vm_compute; discriminate|]. exists l. split; [rewrite Hpre in Hl; exact Hl|].
  split; [exact Hp|]. specialize (Ha E). rewrite Hs in Ha.
  replace (leftover (obj (snd run))) with (@nil Z) in Ha by (vm_compute; reflexivity). exact Ha.
Defined.
