(* ===== verification/PowerCycle.v ===== *)
(** * Power cycles into a handshake

  Models [_power_cycle_into_handshake] of [src/src/defib/cli/app.py]: the
  device is switched off, the handshake is started, and the power comes back
  next to it, again with a fresh cycle when the handshake is not done in time.

  [asyncio.wait_for] and the cancelling of a task are the transport
  [Limited T]: from a cut-off time on, which may depend on what happens around
  the program, each call of the transport raises CancelledError, which the
  handlers of the handshakes let through.  A power controller is the class
  [Controller]: a call that is awaited changes the state of what is around the
  program; a call next to a running handshake is started ([ctl_start]), its
  effects come with the transport calls the handshake makes, and its outcome
  is waited for ([ctl_wait]).  [supports_independent_power] is
  [independent]. *)

From S2P Require Import Prelude Transport Ticks Events HisiStandard HisiV500.

(** ** Transports with a cut-off time *)

Record Limited (T : Type) := Limit { core : T; cutoff : T -> option Z }.
Arguments Limit {T} _ _.
Arguments core {T} _.
Arguments cutoff {T} _.

Section Limited.
Context {T : Type} `{Transport T}.

Definition time_left (p : Limited T) : option Z := (fun d => d - now (core p)) <$> cutoff p (core p).
Definition expired (p : Limited T) : bool := match time_left p with Some d => d <=? 0 | None => false end.

Definition limited {A} (f : T -> res A * T) (p : Limited T) : res A * Limited T :=
  if expired p then (Raise CancelledError, p) else
  let (r, t) := f (core p) in (r, Limit t (cutoff p)).

(** A read waits no longer than until the cut-off, and is lost when it is not
    over by then. *)
Definition limited_read (n : Z) (tmo : option Z) (p : Limited T) : res bytes * Limited T :=
  if expired p then (Raise CancelledError, p) else
  let tmo := match time_left p, tmo with
             | Some d, Some x => Some (Z.min x d)
             | Some d, None => Some d
             | None, x => x
             end in
  let (r, t) := t_read n tmo (core p) in
  let p := Limit t (cutoff p) in
  (if expired p then Raise CancelledError else r, p).

#[export] Instance Limited_Transport : Transport (Limited T) := {|
  t_read := limited_read;
  t_write d := limited (t_write d);
  t_flush_input := limited t_flush_input;
  t_flush_output := limited t_flush_output;
  t_bytes_waiting := limited t_bytes_waiting;
  t_unread d := limited (t_unread d);
  t_set_baudrate b := limited (t_set_baudrate b);
  t_monotonic p := let (n, t) := t_monotonic (core p) in (n, Limit t (cutoff p));
  t_sleep d p := Limit (t_sleep d (core p)) (cutoff p)
|}.

(** [await asyncio.wait_for(m, ...)]; [None] is its TimeoutError. *)
Definition wait_for {Ob A} (limit : T -> option Z) (m : M (Limited T) Ob A) : M T Ob (option A) := fun w =>
  let (r, w') := m (World (Limit (tr w) limit) (obj w) (log w)) in
  (match r with
   | Ok a => Ok (Some a)
   | Raise CancelledError => Ok None
   | Raise e => Raise e
   | Diverge => Diverge
   end, World (core (tr w')) (obj w') (log w')).

End Limited.

(** ** Power controllers *)

Inductive power_op := PowerOff | PowerOn | PowerCycle.

Class Controller (T : Type) := {
  ctl_call : power_op -> string -> T -> res unit * T;
  ctl_start : power_op -> string -> T -> T;
  (** What the started call has come to, and when; [None] while it runs. *)
  ctl_returned : T -> option (res unit * Z);
  ctl_wait : T -> res unit * T
}.

(** The handshake is given [timeout] from the return of the call on, if any,
    and no time after the call failed. *)
Definition call_cutoff {T} `{Controller T} (timeout : option Z) (t : T) : option Z :=
  match ctl_returned t with
  | Some (Ok _, at_) => Z.add at_ <$> timeout
  | Some (_, at_) => Some at_
  | None => None
  end.

(** A task next to a call of the controller; [inl] is the exception of the
    call, which cancels the task, whatever it has come to. *)
Definition beside {T Ob A} `{Transport T, Controller T} (op : power_op) (port : string) (timeout : option Z)
    (task : M (Limited T) Ob A) : M T Ob (exn + option A) := fun w =>
  let (r, w1) := wait_for (call_cutoff timeout) task (World (ctl_start op port (tr w)) (obj w) (log w)) in
  let (p, t) := ctl_wait (tr w1) in
  (match p with Ok _ => let! o := r in Ok (inr o) | Raise e => Ok (inl e) | Diverge => Diverge end, World t (obj w1) (log w1)).

Definition no_attempt : HandshakeResult := mkHandshake false None None None.

Section Cycle.
Context {T Ob : Type} `{Transport T} `{Controller T}.
Variable independent : bool.
Variable port : string.
Variable start_handshake : M (Limited T) Ob HandshakeResult.
Variables off_duration handshake_timeout : Z.
Variable proactive : bool.

Definition power_call (op : power_op) : M T Ob unit := effect (ctl_call op port).

(** The handshake of a reactive protocol after the pulse: it is given its time
    from 50 ms after its start. *)
Definition handshake_alone : M T Ob (option HandshakeResult) :=
  let* start := monotonic in
  wait_for (fun _ => Some (start + 50000 + handshake_timeout)) start_handshake.

Definition handshake_beside (op : power_op) : M T Ob (option HandshakeResult) :=
  let* r := beside op port (Some handshake_timeout) start_handshake in
  match r with inl e => raise e | inr hs => ret hs end.

(** One attempt; the state is [hs]. *)
Definition cycle_body (_ : Z) (_ : HandshakeResult) : M T Ob (ctl HandshakeResult HandshakeResult) :=
  let* _ := if independent then let* _ := power_call PowerOff in sleep off_duration else ret tt in
  let pulse_first := negb independent && negb proactive in
  let* _ := if pulse_first then power_call PowerCycle else ret tt in
  let* _ := flush_input in
  let* hs := if independent then handshake_beside PowerOn
             else if pulse_first then handshake_alone
             else handshake_beside PowerCycle in
  let hs := default no_attempt hs in
  if hs_success hs then ret (Rtn hs) else ret (Next hs).

Definition power_cycle_into_handshake (attempts : Z) : M T Ob HandshakeResult :=
  let* c := foreach (map (Z.add 1) (range attempts)) cycle_body no_attempt in
  match c with
  | Rtn hs | Next hs | Brk hs => ret hs
  end.

End Cycle.

(** ** Programs that leave a part of the transport's state alone *)

Section Leaves.
Context {T X : Type} `{Transport T}.
Variable f : T -> X.

(** No call of the transport touches it. *)
Record untouched : Prop := {
  un_read n tmo t : f (snd (t_read n tmo t)) = f t;
  un_write d t : f (snd (t_write d t)) = f t;
  un_flush_input t : f (snd (t_flush_input t)) = f t;
  un_flush_output t : f (snd (t_flush_output t)) = f t;
  un_bytes_waiting t : f (snd (t_bytes_waiting t)) = f t;
  un_unread d t : f (snd (t_unread d t)) = f t;
  un_set_baudrate b t : f (snd (t_set_baudrate b t)) = f t;
  un_monotonic t : f (snd (t_monotonic t)) = f t;
  un_sleep d t : f (t_sleep d t) = f t
}.

Context {Ob : Type}.

Definition leaves {A} (m : M T Ob A) : Prop := forall w, f (tr (snd (m w))) = f (tr w).

Lemma leaves_bind {A B} (m : M T Ob A) (k : A -> M T Ob B) : leaves m -> (forall a, leaves (k a)) -> leaves (bind m k).
Proof.
  intros Hm Hk w. specialize (Hm w). unfold bind. destruct (m w) as [[a|e|] w']; cbn in *; [|done..]. by rewrite Hk.
Qed.

Lemma leaves_try {A} (m : M T Ob A) p h : leaves m -> (forall e, leaves (h e)) -> leaves (try_except m p h).
Proof.
  intros Hm Hh w. specialize (Hm w). unfold try_except. destruct (m w) as [[a|e|] w']; cbn in *; [done| |done].
  destruct (p e); [by rewrite Hh|done].
Qed.

Lemma leaves_while {S R} fuel (body : S -> M T Ob (ctl S R)) s : (forall s, leaves (body s)) -> leaves (while fuel body s).
Proof.
  intros Hb. revert s. induction fuel as [|fuel IH]; intros s; [done|]. cbn. apply leaves_bind; [done|]. by intros [s'|s'|r].
Qed.

Hypothesis Hf : untouched.

Lemma leaves_read n tmo : leaves (read n tmo).
Proof. intros w. unfold read. pose proof (un_read Hf n tmo (tr w)). by destruct (t_read _ _ _). Qed.
Lemma leaves_write d : leaves (write d).
Proof. intros w. unfold write. pose proof (un_write Hf d (tr w)). by destruct (t_write _ _). Qed.
Lemma leaves_flush_input : leaves flush_input.
Proof. intros w. unfold flush_input. pose proof (un_flush_input Hf (tr w)). by destruct (t_flush_input _). Qed.
Lemma leaves_flush_output : leaves flush_output.
Proof. intros w. unfold flush_output. pose proof (un_flush_output Hf (tr w)). by destruct (t_flush_output _). Qed.
Lemma leaves_bytes_waiting : leaves bytes_waiting.
Proof. intros w. unfold bytes_waiting. pose proof (un_bytes_waiting Hf (tr w)). by destruct (t_bytes_waiting _). Qed.
Lemma leaves_monotonic : leaves monotonic.
Proof. intros w. unfold monotonic. pose proof (un_monotonic Hf (tr w)). by destruct (t_monotonic _). Qed.
Lemma leaves_sleep d : leaves (sleep d).
Proof. intros w. apply (un_sleep Hf). Qed.

End Leaves.

Create HintDb leaves.
#[export] Hint Resolve leaves_read leaves_write leaves_flush_input leaves_flush_output leaves_bytes_waiting leaves_monotonic
  leaves_sleep : leaves.

Ltac leaves_go :=
  repeat first
    [ solve [eauto with leaves]
    | progress cbn zeta
    | apply leaves_bind; [|intros ?]
    | apply leaves_try; [|intros ?]
    | apply leaves_while; intros ?
    | progress case_match
    | by intros ? ].

Lemma leaves_std_handshake {T X Ob} `{Transport T} (f : T -> X) fuel cont : untouched f -> leaves f (handshake (Ob := Ob) fuel cont).
Proof. intros Hf. unfold handshake, handshake_body, handshake_byte. leaves_go. Qed.

Lemma leaves_v500_handshake {T X} `{Transport T} (f : T -> X) fuel : untouched f -> leaves f (v500_handshake fuel).
Proof. intros Hf. unfold v500_handshake, v500_handshake_body, v500_poll. leaves_go. Qed.

(** ** What the controller is told *)

(** A device whose controller keeps a record of the calls. *)
Record Recorded (T : Type) := Rec { device : T; ops : list power_op }.
Arguments Rec {T} _ _.
Arguments device {T} _.
Arguments ops {T} _.

Definition recorded {T A} (f : T -> A * T) (p : Recorded T) : A * Recorded T :=
  let (r, t) := f (device p) in (r, Rec t (ops p)).

#[export] Instance Recorded_Transport {T} `{Transport T} : Transport (Recorded T) := {|
  t_read n tmo := recorded (t_read n tmo);
  t_write d := recorded (t_write d);
  t_flush_input := recorded t_flush_input;
  t_flush_output := recorded t_flush_output;
  t_bytes_waiting := recorded t_bytes_waiting;
  t_unread d := recorded (t_unread d);
  t_set_baudrate b := recorded (t_set_baudrate b);
  t_monotonic := recorded t_monotonic;
  t_sleep d p := Rec (t_sleep d (device p)) (ops p)
|}.

#[export] Instance Recorded_Controller {T} `{Controller T} : Controller (Recorded T) := {|
  ctl_call op port p := let (r, t) := ctl_call op port (device p) in (r, Rec t (ops p ++ [op]));
  ctl_start op port p := Rec (ctl_start op port (device p)) (ops p ++ [op]);
  ctl_returned p := ctl_returned (device p);
  ctl_wait := recorded ctl_wait
|}.

Lemma untouched_ops {T} `{Transport T} : untouched (T := Recorded T) ops.
Proof.
  split; intros *; cbn; unfold recorded; try done; match goal with |- context [let (r, t) := ?c in _] => by destruct c end.
Qed.

Lemma untouched_core {T X} `{Transport T} (f : T -> X) : untouched f -> untouched (fun p : Limited T => f (core p)).
Proof.
  intros Hf. split; intros *; cbn; unfold limited_read, limited.
  - destruct (expired t); [done|]. set (x := match time_left t with Some _ => _ | None => _ end).
    pose proof (un_read _ Hf n x (core t)). by destruct (t_read n x (core t)).
  - destruct (expired t); [done|]. pose proof (un_write _ Hf d (core t)). by destruct (t_write _ _).
  - destruct (expired t); [done|]. pose proof (un_flush_input _ Hf (core t)). by destruct (t_flush_input _).
  - destruct (expired t); [done|]. pose proof (un_flush_output _ Hf (core t)). by destruct (t_flush_output _).
  - destruct (expired t); [done|]. pose proof (un_bytes_waiting _ Hf (core t)). by destruct (t_bytes_waiting _).
  - destruct (expired t); [done|]. pose proof (un_unread _ Hf d (core t)). by destruct (t_unread _ _).
  - destruct (expired t); [done|]. pose proof (un_set_baudrate _ Hf b (core t)). by destruct (t_set_baudrate _ _).
  - pose proof (un_monotonic _ Hf (core t)). by destruct (t_monotonic _).
  - apply (un_sleep _ Hf).
Qed.

Section Ops.
Context {T Ob : Type} `{Transport T} `{Controller T}.

(** Running [m] tells the controller [l], and the outcome and [l] satisfy [Q]. *)
Definition tells {A} (m : M (Recorded T) Ob A) (Q : res A -> list power_op -> Prop) : Prop :=
  forall w, exists l, ops (tr (snd (m w))) = ops (tr w) ++ l /\ Q (fst (m w)) l.

Lemma tells_nothing {A} (m : M (Recorded T) Ob A) (Q : res A -> list power_op -> Prop) :
  leaves ops m -> (forall r, Q r []) -> tells m Q.
Proof. intros Hm HQ w. exists []. rewrite app_nil_r. by split. Qed.

Lemma tells_ret {A} (a : A) (Q : res A -> list power_op -> Prop) : Q (Ok a) [] -> tells (ret a) Q.
Proof. intros HQ w. exists []. rewrite app_nil_r. by split. Qed.

Lemma tells_weaken {A} (m : M (Recorded T) Ob A) (P Q : res A -> list power_op -> Prop) :
  tells m P -> (forall r l, P r l -> Q r l) -> tells m Q.
Proof. intros Hm HPQ w. destruct (Hm w) as (l & ? & ?). eauto. Qed.

Lemma tells_bind {A B} (m : M (Recorded T) Ob A) (k : A -> M (Recorded T) Ob B) Q :
  tells m (fun r l => match r with
    | Ok a => tells (k a) (fun r' l' => Q r' (l ++ l'))
    | Raise e => Q (Raise e) l
    | Diverge => Q Diverge l
    end) -> tells (bind m k) Q.
Proof.
  intros Hm w. destruct (Hm w) as (l & Hl & HQ). unfold bind. destruct (m w) as [[a|e|] w1]; cbn in *; [|by exists l..].
  destruct (HQ w1) as (l' & Hl' & HQ'). exists (l ++ l'). rewrite Hl', Hl, app_assoc. by split.
Qed.

Lemma tells_call op port (Q : res unit -> list power_op -> Prop) : (forall r, Q r [op]) -> tells (power_call port op) Q.
Proof. intros HQ w. exists [op]. unfold power_call, effect. cbn. destruct (ctl_call _ _ _). by split. Qed.

Lemma wait_for_ops {A} limit (m : M (Limited (Recorded T)) Ob A) :
  leaves (fun p => ops (core p)) m -> leaves ops (wait_for limit m).
Proof. intros Hm w. unfold wait_for. specialize (Hm (World (Limit (tr w) limit) (obj w) (log w))). by destruct (m _). Qed.

Lemma tells_beside {A} op port tmo (m : M (Limited (Recorded T)) Ob A) (Q : res (exn + option A) -> list power_op -> Prop) :
  leaves (fun p => ops (core p)) m -> (forall r, Q r [op]) -> tells (beside op port tmo m) Q.
Proof.
  intros Hm HQ w. exists [op]. unfold beside.
  pose proof (wait_for_ops (call_cutoff tmo) m Hm (World (ctl_start op port (tr w)) (obj w) (log w))) as Hw.
  destruct (wait_for _ _ _) as [r w1]. cbn in *. unfold recorded. destruct (ctl_wait _) as [p t]. by split.
Qed.

Variable independent : bool.
Variable port : string.
Variable start_handshake : M (Limited (Recorded T)) Ob HandshakeResult.
Hypothesis Hhs : leaves (fun p => ops (core p)) start_handshake.
Variables off_duration handshake_timeout : Z.
Variable proactive : bool.

Definition cycle_ops : list power_op := if independent then [PowerOff; PowerOn] else [PowerCycle].

(** How an attempt ends, and what the controller was told in it. *)
Definition cycle_post (r : res (ctl HandshakeResult HandshakeResult)) (l : list power_op) : Prop :=
  match r with
  | Ok (Rtn hs) => l = cycle_ops /\ hs_success hs = true
  | Ok (Next hs) => l = cycle_ops /\ hs_success hs = false
  | Ok (Brk _) => False
  | _ => l `prefix_of` cycle_ops
  end.

(** The end of an attempt: [m] tells the controller [post]. *)
Lemma outcome_tells pre post (m : M (Recorded T) Ob (option HandshakeResult)) :
  tells m (fun _ l => l = post) -> pre ++ post = cycle_ops ->
  tells (let* hs := m in let hs := default no_attempt hs in if hs_success hs then ret (Rtn hs) else ret (Next hs))
    (fun r l => cycle_post r (pre ++ l)).
Proof.
  intros Hm Hc. apply tells_bind. eapply tells_weaken; [exact Hm|]. intros [o|e|] l ->; cbn zeta; [|rewrite Hc; by cbn..].
  destruct (hs_success _) eqn:E; apply tells_ret; by rewrite app_nil_r, Hc.
Qed.

Lemma cycle_body_tells x hs :
  tells (cycle_body independent port start_handshake off_duration handshake_timeout proactive x hs) cycle_post.
Proof.
  assert (Hfl : forall pre (k : unit -> M (Recorded T) Ob _), pre `prefix_of` cycle_ops ->
    tells (k tt) (fun r l => cycle_post r (pre ++ l)) -> tells (bind flush_input k) (fun r l => cycle_post r (pre ++ l))).
  { intros pre k Hp Hk. apply tells_bind, tells_nothing; [apply leaves_flush_input, untouched_ops|].
    rewrite ?app_nil_r. by intros [[]|e|]; cbn; rewrite ?app_nil_r. }
  assert (Hb : forall op, tells (handshake_beside port start_handshake handshake_timeout op) (fun _ l => l = [op])).
  { intros op. apply tells_bind, tells_beside; [done|]. intros [[e|o]|e|]; [by apply tells_nothing|by apply tells_ret|done..]. }
  unfold cycle_body. destruct independent eqn:Ei; [|destruct proactive]; cbn [negb andb].
  - apply tells_bind, tells_bind, tells_call. intros [[]|e|]; [|unfold cycle_post, cycle_ops; rewrite Ei; by eexists..].
    apply tells_nothing; [apply leaves_sleep, untouched_ops|]. intros [[]|e|]; [|unfold cycle_post, cycle_ops; rewrite Ei; by eexists..].
    apply tells_bind, tells_ret. cbn [app]. apply (Hfl [PowerOff]); [unfold cycle_post, cycle_ops; rewrite Ei; by eexists|].
    apply (outcome_tells [PowerOff] [PowerOn]); [done|]. unfold cycle_ops. by rewrite Ei.
  - apply tells_bind, tells_ret, tells_bind, tells_ret, (Hfl []); [by eexists|].
    apply (outcome_tells [] [PowerCycle]); [done|]. unfold cycle_ops. by rewrite Ei.
  - apply tells_bind, tells_ret, tells_bind, tells_call. intros [[]|e|]; [|unfold cycle_post, cycle_ops; rewrite Ei; by eexists..].
    apply (Hfl [PowerCycle]); [unfold cycle_post, cycle_ops; rewrite Ei; by eexists|].
    apply (outcome_tells [PowerCycle] []); [|unfold cycle_ops; by rewrite Ei].
    apply tells_nothing; [|done]. apply leaves_bind; [apply leaves_monotonic, untouched_ops|]. intros t. by apply wait_for_ops.
Qed.

Lemma cycles_tell xs hs :
  tells (foreach xs (cycle_body independent port start_handshake off_duration handshake_timeout proactive) hs) (fun r l =>
    exists k last, l = concat (replicate k cycle_ops) ++ last /\
      match r with
      | Ok (Rtn hs') => last = [] /\ (k <= length xs)%nat /\ hs_success hs' = true
      | Ok (Next hs') => last = [] /\ k = length xs /\ (hs_success hs = false -> hs_success hs' = false)
      | Ok (Brk _) => False
      | _ => (k < length xs)%nat /\ last `prefix_of` cycle_ops
      end).
Proof.
  revert hs. induction xs as [|x xs IH]; intros hs; cbn [foreach]; [apply tells_ret; by exists 0%nat, []|].
  apply tells_bind. eapply tells_weaken; [apply cycle_body_tells|]. intros [[hs'|hs'|hs']|e|] l Hl; cbn in Hl; try done.
  - destruct Hl as [-> Hs]. eapply tells_weaken; [apply IH|]. intros r l' (k & last & -> & Hr).
    exists (S k), last. cbn. rewrite app_assoc. split; [done|]. destruct r as [[s|s|s]|e|]; intuition lia.
  - destruct Hl as [-> Hs]. apply tells_ret. exists 1%nat, []. cbn. rewrite !app_nil_r. split_and!; try done. lia.
  - exists 0%nat, l. cbn. split_and!; [done|lia|done].
  - exists 0%nat, l. cbn. split_and!; [done|lia|done].
Qed.

End Ops.

(** ** Properties *)

(** C34. Power-cycling a device into a handshake never leaves it switched off
    on its own: over any transport and controller, whatever the device does,
    the controller is told whole cycles (off and then on, or a pulse where it
    cannot hold the device off), at most [attempts] of them, and exactly
    [attempts] when no handshake succeeded.  Only when a call of the
    controller, of the line or of the handshake raises does it end inside a
    cycle, and then no further one is begun. *)
Theorem power_cycles_complete {T Ob} `{Transport T} `{Controller T} independent port
    (start_handshake : M (Limited (Recorded T)) Ob HandshakeResult) off_duration handshake_timeout proactive attempts
    (w : world (Recorded T) Ob) :
  leaves (fun p => ops (core p)) start_handshake -> 0 <= attempts ->
  let (r, w') := power_cycle_into_handshake independent port start_handshake off_duration handshake_timeout proactive attempts w in
  exists k last, ops (tr w') = ops (tr w) ++ concat (replicate k (cycle_ops independent)) ++ last /\
    match r with
    | Ok hs => last = [] /\ Z.of_nat k <= attempts /\ (hs_success hs = false -> Z.of_nat k = attempts)
    | _ => Z.of_nat k < attempts /\ last `prefix_of` cycle_ops independent
    end.
Proof.
  intros Hh Ha. assert (Hl : length (map (Z.add 1) (range attempts)) = Z.to_nat attempts).
  { unfold range. by rewrite length_map, length_fmap, length_seq. }
  pose proof (cycles_tell independent port start_handshake Hh off_duration handshake_timeout proactive
    (map (Z.add 1) (range attempts)) no_attempt) as Hc. rewrite Hl in Hc. clear Hl.
  assert (Ht : tells (power_cycle_into_handshake independent port start_handshake off_duration handshake_timeout proactive attempts)
    (fun r l => exists k last, l = concat (replicate k (cycle_ops independent)) ++ last /\
      match r with
      | Ok hs => last = [] /\ Z.of_nat k <= attempts /\ (hs_success hs = false -> Z.of_nat k = attempts)
      | _ => Z.of_nat k < attempts /\ last `prefix_of` cycle_ops independent
      end)).
  { apply tells_bind. eapply tells_weaken; [exact Hc|]. intros [c|e|] l (k & last & -> & Hr).
    - destruct c as [s|s|s]; [| |]; apply tells_ret; exists k, last; rewrite app_nil_r; split; try done; intuition (congruence || lia).
    - exists k, last. split; [done|]. intuition lia.
    - exists k, last. split; [done|]. intuition lia. }
  destruct (Ht w) as (l & Hl & k & last & -> & Hr). destruct (power_cycle_into_handshake _ _ _ _ _ _ _ w) as [r w'].
  exists k, last. by split.
Qed.

(** A line that is silent, and a controller whose calls take no time. *)
Record Plug := { plug_line : MockTransport; switched_at : Z }.

Definition plugged {A} (f : MockTransport -> A * MockTransport) (p : Plug) : A * Plug :=
  let (r, t) := f (plug_line p) in (r, {| plug_line := t; switched_at := switched_at p |}).

#[export] Instance Plug_Transport : Transport Plug := {|
  t_read n tmo := plugged (t_read n tmo);
  t_write d := plugged (t_write d);
  t_flush_input := plugged t_flush_input;
  t_flush_output := plugged t_flush_output;
  t_bytes_waiting := plugged t_bytes_waiting;
  t_unread d := plugged (t_unread d);
  t_set_baudrate b := plugged (t_set_baudrate b);
  t_monotonic := plugged t_monotonic;
  t_sleep d p := {| plug_line := t_sleep d (plug_line p); switched_at := switched_at p |}
|}.

#[export] Instance Plug_Controller : Controller Plug := {|
  ctl_call _ _ p := (Ok tt, p);
  ctl_start _ _ p := {| plug_line := plug_line p; switched_at := clock (plug_line p) |};
  ctl_returned p := Some (Ok tt, switched_at p);
  ctl_wait p := (Ok tt, p)
|}.

Abbreviation silent_plug := (World (T := Recorded Plug) (Ob := unit) (Rec {| plug_line := Mock [] [] false false 0; switched_at := 0 |} []) tt []).
Abbreviation two_attempts := (power_cycle_into_handshake (T := Recorded Plug) (Ob := unit) true ""
  (HisiStandard.handshake 20 true) 3000000 5000 false 2 silent_plug).

(** Two attempts of five milliseconds: both time out, and the device is on. *)
Theorem power_cycles_complete_witness :
  fst two_attempts = Ok no_attempt /\
  (let (r, w') := two_attempts in
   exists k last, ops (tr w') = [] ++ concat (replicate k (cycle_ops true)) ++ last /\
     match r with
     | Ok hs => last = [] /\ Z.of_nat k <= 2 /\ (hs_success hs = false -> Z.of_nat k = 2)
     | _ => Z.of_nat k < 2 /\ last `prefix_of` cycle_ops true
     end).
Proof.
  split; [vm_compute; reflexivity|].
  apply (power_cycles_complete (T := Plug) true "" (HisiStandard.handshake 20 true) 3000000 5000 false 2 silent_plug); [|lia].
  apply leaves_std_handshake, (untouched_core (T := Recorded Plug)), untouched_ops.
Defined.
