(* ===== verification/AgentCommands.v ===== *)
(** * The agent commands

  Models the [agent] commands of [src/src/defib/cli/app.py]: [upload] (for the
  standard, the V500 and the CV6xx boot protocol), [flash], [info], [read],
  [write], [scan] and [membw], with [_parse_size], and the choice of an agent
  binary in [agent/client.py] ([agent_binary_for], [get_agent_binary]).

  Messages, progress, elapsed times, the closing of the power controller and
  the attaching of a Vectis controller to the line are left out; what follows
  from a message's text does not depend on it.  [typer.Exit(n)] is
  [TyperExit n].  A callback of the scan that raises does so when the scan is
  over.  Texts are lists of character codes. *)

From Stdlib Require Import Ascii.
From S2P Require Import Prelude Text Events Profiles HisiStandard HisiV500 HisiCv6xx Firmware Session Vendors Install AgentProtocol AgentClient PowerCycle.
From S2P Require Import Transport.

(** ** Integers and sizes *)

(** The digits of [int(s, base)], with single underscores between them;
    [sep] says that no underscore may come next. *)
Fixpoint int_digits (base acc : Z) (sep : bool) (s : list Z) : option Z :=
  match s with
  | [] => if sep then None else Some acc
  | c :: s' =>
      if c =? 95 then if sep then None else int_digits base acc true s' else
      match hex_value c with
      | Some d => if d <? base then int_digits base (acc * base + d) false s' else None
      | None => None
      end
  end.

(** After a prefix such as [0x] an underscore may come first. *)
Definition int_prefixed (base : Z) (s : list Z) : option Z :=
  match s with
  | 95 :: s' => int_digits base 0 true s'
  | _ => int_digits base 0 true s
  end.

(** [int(s, 0)] of a literal without sign: a decimal one begins with 0 only
    if it is zero. *)
Definition int_literal (s : list Z) : option Z :=
  match s with
  | 48 :: c :: s' =>
      if lower_code c =? 120 then int_prefixed 16 s'
      else if lower_code c =? 111 then int_prefixed 8 s'
      else if lower_code c =? 98 then int_prefixed 2 s'
      else match int_digits 10 0 true s with Some 0 => Some 0 | _ => None end
  | _ => int_digits 10 0 true s
  end.

(** [int(s, 0)] and [int(s)] *)
Definition py_int (base0 : bool) (s : list Z) : res Z :=
  let digits := if base0 then int_literal else int_digits 10 0 true in
  of_opt ValueError
    match strip s with
    | 43 :: s' => digits s'
    | 45 :: s' => Z.opp <$> digits s'
    | s' => digits s'
    end.

Definition size_suffixes : list (list Z * Z) :=
  [(codes "KB", 1024); (codes "MB", 1024 * 1024); (codes "GB", 1024 * 1024 * 1024)].

(** [_parse_size] *)
Definition parse_size (s : list Z) : res Z :=
  let s := upper_codes (strip s) in
  match List.find (fun p => ends_with (fst p) s) size_suffixes with
  | Some (suffix, mult) => let! n := py_int false (but_last (length suffix) s) in Ok (n * mult)
  | None => py_int true s
  end.

(** ** The agent binary *)

Definition CHIP_TO_AGENT : list (string * string) :=
  [("hi3516ev300", "hi3516ev300"); ("hi3516ev200", "hi3516ev200"); ("gk7205v200", "gk7205v200");
   ("gk7205v300", "gk7205v200"); ("gk7202v300", "gk7205v200"); ("gk7605v100", "gk7205v200");
   ("hi3516cv300", "hi3516cv300"); ("hi3516cv500", "hi3516cv500"); ("hi3516av300", "hi3516cv500");
   ("hi3516dv300", "hi3516cv500"); ("hi3519v101", "hi3519v101"); ("hi3516av200", "hi3519v101");
   ("hi3516cv610", "hi3516cv610"); ("hi3516cv608", "hi3516cv610"); ("hi3518ev200", "hi3518ev200");
   ("hi3520dv200", "hi3520dv200"); ("hi3536dv100", "hi3536dv100"); ("gk7205v500", "gk7205v500");
   ("gk7205v510", "gk7205v500"); ("gk7205v530", "gk7205v500")]%string.

Definition agent_binary_for (chip : string) : option string := assoc CHIP_TO_AGENT (base_chip chip).

Section Binary.
(** The directory of [DEFIB_AGENT_DIR], empty when it is not set, the ones of
    the package, the cache and the checkout, and the files there are. *)
Variables override_dir package_dir cache_dir checkout_dir : string.
Variable path_exists : string -> bool.

Definition agent_search_path (agent_name chip : string) : list string :=
  let names := List.filter (fun n => negb (bool_decide (n = ""%string))) [base_chip chip; agent_name] in
  let filenames := (fun n => "agent-" +:+ n +:+ ".bin") <$> (if bool_decide (base_chip chip = agent_name) then take 1 names else names) in
  let directories := (if bool_decide (override_dir = ""%string) then [] else [override_dir]) ++ [package_dir; cache_dir; checkout_dir] in
  concat ((fun d => (fun f => d +:+ "/" +:+ f) <$> filenames) <$> directories).

Definition get_agent_binary (chip : string) : option string :=
  match agent_binary_for chip with
  | None => None
  | Some agent_name => List.find path_exists (agent_search_path agent_name chip)
  end.

End Binary.

(** ** The commands *)

(** The serial port: [create_transport] and [close]. *)
Class TtyPort (T : Type) := {
  port_open : T -> res unit * T;
  port_close : T -> T
}.

(** What a command works on: the client and the output file. *)
Record command := Command { cl : agent; out_file : option bytes }.

Definition V500_CHIP_IDS : list (Z * string) :=
  [(0x72050500, "v500"); (0x72050510, "v510"); (0x72050530, "v530")]%string.

Definition MANUAL_HANDSHAKE_TIMEOUT : Z := 60000000.

Definition cap_map : list (Z * string) :=
  [(0, "flash_stream"); (1, "sector_bitmap"); (2, "page_skip"); (3, "set_baud"); (4, "reboot"); (5, "selfupdate"); (6, "scan"); (7, "membw")]%string.
Definition cap_names (caps : Z) : list string := snd <$> List.filter (fun p => Z.testbit caps (fst p)) cap_map.

Section Commands.
Context {T : Type} `{Transport T} `{Controller T} `{TtyPort T}.
Variable fuel : nat.
Variable load_prof : string -> res SoCProfile.
Variable read_file : string -> res bytes.
Variable unix_time : Z.
(** [get_agent_binary] of a chip. *)
Variable agent_path : string -> option string.
(** The cache of downloaded images, and the release server. *)
Variable head_url : string -> option validators.
Variable get_url : string -> option (validators * bytes).
Variable parse_date : string -> option Z.
Variable now : Z.
Variable c : cache.
(** The power controller of the environment, and whether it can hold a device
    off. *)
Variable power_from_env : res power_kind.
Variable independent : power_kind -> bool.
Variable find_port_by_comment : string -> res string.
(** [find_protocol] *)
Variable entry_points : option (list (option protocol_cls)).
Variable dir : gmap string string.
Variable reg : registry.

Abbreviation MC := (M T command).

Definition stop {A} (code : Z) : MC A := raise (TyperExit code).

(** A method of [client]. *)
Definition on_client {A} (m : M T agent A) : MC A := fun w =>
  let (r, w') := m (World (tr w) (cl (obj w)) (log w)) in
  (r, World (tr w') (Command (obj w') (out_file (obj w))) (log w')).

(** [client = FlashAgentClient(transport)] *)
Definition new_client : MC unit := let* o := get_obj in put_obj (Command FlashAgentClient_init (out_file o)).

Definition open_port : MC unit := effect port_open.
Definition close_port : MC unit := effect (fun t => (Ok tt, port_close t)).
Definition close_and_stop {A} (code : Z) : MC A := let* _ := close_port in stop code.

(** [try: m finally: await transport.close()] *)
Definition closing {A} (m : MC A) : MC A := fun w =>
  let (r, w') := m w in (r, snd (close_port w')).

(** *** Upload *)

(** [_resolve_power_port]: only RouterOS names its ports. *)
Definition resolve_power_port (kind : power_kind) (port poe_port_override : string) : res string :=
  match kind with
  | P_RouterOS =>
      if negb (bool_decide (poe_port_override = ""%string)) then Ok poe_port_override
      else find_port_by_comment (device_label port)
  | _ => Ok ""%string
  end.

(** The controller and its port; [None] when there is none. *)
Definition agent_power (power_cycle : bool) (port poe_port_override : string) : res (option (power_kind * string)) :=
  if negb power_cycle then Ok None else
  match (let! kind := power_from_env in let! p := resolve_power_port kind port poe_port_override in Ok (Some (kind, p))) with
  | Raise _ => exit_ 1
  | r => r
  end.

(** The boot image whose SPL is sent: the profile's own, or the whole U-Boot
    of the chip. *)
Definition agent_spl (chip : string) (profile : SoCProfile) : res bytes :=
  let! cached := get_cached_path head_url parse_date c chip None true in
  let (name, c') := match cached with
                    | Some n => (Ok n, c)
                    | None => download_firmware head_url get_url parse_date now chip None c
                    end in
  let! name := name in
  match spl_data profile with
  | Some d => Ok d
  | None => let! f := of_opt FileNotFoundError (cached_file c' name) in Ok (f_data f)
  end.

(** The wait for an agent that was started. *)
Definition agent_ready : MC (option info) :=
  let* _ := new_client in
  let* ok := on_client (connect fuel 10000000) in
  if negb ok then stop 1 else on_client (get_info fuel).

(** The upload of the standard protocol; [power] is the power port and whether
    the device can be held off. *)
Definition boot_standard (profile : SoCProfile) (agent_data spl : bytes) (power : option (bool * string)) : MC unit :=
  let* hs :=
    match power with
    | Some (ind, port) =>
        try_except
          (power_cycle_into_handshake ind port (HisiStandard.handshake fuel true) 3000000 15000000 false 2)
          (fun e => bool_decide (e = PowerControllerError)) (fun _ => close_and_stop 1)
    | None => HisiStandard.handshake fuel false
    end in
  if negb (hs_success hs) then close_and_stop 1 else
  let* result := send_firmware fuel (Some profile) agent_data (Some spl) in
  if negb (r_success result) then close_and_stop 1 else ret tt.

(** The port is opened again before the agent is spoken to. *)
Definition reopen : MC unit :=
  let* _ := close_port in
  let* _ := sleep 2000000 in
  open_port.

Definition upload_standard (chip port poe_port_override : string) (power_cycle : bool) (agent_data : bytes) : MC (option info) :=
  let* profile := lift (load_prof chip) in
  let* spl := lift (agent_spl chip profile) in
  let* power := lift (agent_power power_cycle port poe_port_override) in
  let* _ := open_port in
  let* _ := boot_standard profile agent_data spl ((fun p => (independent (fst p), snd p)) <$> power) in
  let* _ := reopen in
  let* i := agent_ready in
  let* _ := close_port in
  ret i.

(** The donor image and the boot image made of it. *)
Definition v500_image_of (chip : string) (donor_path : option string) (agent_data : bytes) : res bytes :=
  let donor := match donor_path with
               | Some p => read_file p
               | None =>
                   let (name, c') := download_v500_donor head_url get_url parse_date now chip c in
                   let! n := name in let! f := of_opt FileNotFoundError (cached_file c' n) in Ok (f_data f)
               end in
  let wrapped := let! d := donor in wrap_v500_payload d agent_data V500_AGENT_LOAD_ADDR in
  match wrapped with
  | Raise e => if is_ValueError e || bool_decide (e = OSError \/ e = FileNotFoundError \/ e = ConnectionError) then exit_ 1 else Raise e
  | r => r
  end.

(** The member a board answered as is not the one it was said to be. *)
Definition wrong_member (chip : string) (donor_path : option string) (hs : HandshakeResult) : bool :=
  match assoc V500_CHIP_IDS (default 0 (hs_chip_id hs)) with
  | Some detected => bool_decide (donor_path = None) && negb (bool_decide (Some detected = v500_member chip))
  | None => false
  end.

Definition boot_v500 (chip : string) (donor_path : option string) (wrapped : bytes) (power : option (bool * string)) : M T (option Z) unit :=
  let* hs :=
    match power with
    | Some (ind, port) =>
        try_except (power_cycle_into_handshake ind port (v500_handshake fuel) 3000000 15000000 true 2)
          (fun e => bool_decide (e = PowerControllerError)) (fun _ => raise (TyperExit 1))
    | None =>
        let* start := monotonic in
        let* hs := wait_for (fun _ => Some (start + MANUAL_HANDSHAKE_TIMEOUT)) (v500_handshake fuel) in
        match hs with Some hs => ret hs | None => raise (TyperExit 1) end
    end in
  if negb (hs_success hs) then raise (TyperExit 1) else
  if wrong_member chip donor_path hs then raise (TyperExit 1) else
  let* result := v500_send_firmware fuel wrapped in
  if negb (r_success result) then raise (TyperExit 1) else ret tt.

Definition upload_v500 (chip port poe_port_override : string) (power_cycle : bool) (donor_path : option string) (agent_data : bytes)
    : MC (option info) :=
  let* wrapped := lift (v500_image_of chip donor_path agent_data) in
  let* power := lift (agent_power power_cycle port poe_port_override) in
  let* _ := try_except open_port is_Exception (fun _ => stop 1) in
  closing
    (let* _ := with_object None (boot_v500 chip donor_path wrapped ((fun p => (independent (fst p), snd p)) <$> power)) in
     agent_ready).

(** The handshake next to the pulse of the reset; it has no time limit.
    [false] is a failure that closes the port. *)
Definition boot_cv6xx (composite wrapped : bytes) (power : bool) : M T HiSiliconCV6xx bool :=
  let* _ := flush_input in
  let* r := if power then beside PowerCycle "" None (cv6xx_handshake fuel)
            else let* hs := cv6xx_handshake fuel in ret (inr (Some hs)) in
  match r with
  | inr (Some hs) =>
      if negb (hs_success hs) then ret false else
      let* result := cv6xx_send_firmware fuel unix_time composite (Some wrapped) in
      ret (r_success result)
  | _ => ret false
  end.

Definition upload_cv6xx (composite_path : option string) (power_cycle : bool) (agent_data : bytes) : MC (option info) :=
  match composite_path with
  | None => stop 2
  | Some path =>
      let* composite := lift (read_file path) in
      let* parts := match parse_cv6xx_boot composite with Raise _ => stop 2 | r => lift r end in
      let* wrapped := lift (wrap_cv6xx_payload (uboot_data parts) agent_data) in
      let* _ := if power_cycle then let* _ := lift power_from_env in ret tt else ret tt in
      let* _ := open_port in
      let* ok := with_object (cv6xx_init DDR_TRAINING_WAIT DDR_TRAINING_TIMEOUT) (boot_cv6xx composite wrapped power_cycle) in
      if negb ok then close_and_stop 1 else
      let* _ := new_client in
      let* ready := on_client (connect fuel 10000000) in
      if negb ready then close_and_stop 1 else
      let* i := on_client (get_info fuel) in
      let* _ := close_port in
      ret i
  end.

(** [_agent_upload_async] *)
Definition agent_upload (chip port poe_port_override : string) (composite_path : option string) (power_cycle : bool) : MC (option info) :=
  match agent_path chip with
  | None => stop 1
  | Some path =>
      let* agent_data := lift (read_file path) in
      let* cls := lift (fst (find_protocol entry_points dir chip reg)) in
      match cls with
      | C_HiSiliconCV6xx => upload_cv6xx composite_path power_cycle agent_data
      | C_HiSiliconV500 => upload_v500 chip port poe_port_override power_cycle composite_path agent_data
      | _ => upload_standard chip port poe_port_override power_cycle agent_data
      end
  end.

(** *** Flash *)

(** The agent is written to, from the open port on. *)
Definition flash_phases (firmware : bytes) (verify reboot_device : bool) : MC unit :=
  let* _ := new_client in
  let* ok := on_client (connect fuel 10000000) in
  if negb ok then close_and_stop 1 else
  let* i := on_client (get_info fuel) in
  let size := match i with Some i => i_flash_size i | None => 0 end in
  if (0 <? size) && (size <? len firmware) then close_and_stop 1 else
  let* ok := on_client (write_flash fuel 0 firmware true) in
  if negb ok then close_and_stop 1 else
  let* _ :=
    if verify : bool then
      let* o := get_obj in
      let* dev_crc := on_client (client_crc32 fuel (flash_mem (cl o)) (len firmware)) in
      if negb (dev_crc =? crc32_of firmware) then close_and_stop 1 else ret tt
    else ret tt in
  let* _ := if reboot_device : bool then on_client (reboot fuel) else ret tt in
  close_port.

(** [_agent_flash_async]; [firmware] is what the file holds, if there is one. *)
Definition agent_flash (chip : string) (firmware : option bytes) (verify reboot_device : bool) : MC unit :=
  match firmware with
  | None => stop 1
  | Some firmware =>
      match agent_path chip with
      | None => stop 1
      | Some path =>
          let* agent_data := lift (read_file path) in
          let* profile := lift (load_prof chip) in
          let* spl := lift (agent_spl chip profile) in
          let* _ := open_port in
          let* _ := boot_standard profile agent_data spl None in
          let* _ := reopen in
          flash_phases firmware verify reboot_device
      end
  end.

(** *** The commands that speak to a running agent *)

(** [connect] within five seconds, or the end. *)
Definition attach : MC unit :=
  let* _ := open_port in
  let* _ := new_client in
  let* ok := on_client (connect fuel 5000000) in
  if negb ok then close_and_stop 1 else ret tt.

Definition agent_info : MC (option info) :=
  let* _ := attach in
  let* i := on_client (get_info fuel) in
  let* _ := close_port in
  ret i.

Definition save (data : bytes) : MC unit := let* o := get_obj in put_obj (Command (cl o) (Some data)).

Definition agent_read (addr size : option (list Z)) (verify : bool) : MC unit :=
  let* _ := attach in
  let* i := match addr, size with
            | Some _, Some _ => ret None
            | _, _ =>
                let* i := on_client (get_info fuel) in
                match i with Some _ => ret i | None => close_and_stop 1 end
            end in
  let* o := get_obj in
  let* address := match addr with Some a => lift (py_int true a) | None => ret (flash_mem (cl o)) end in
  let* n := match size with
            | Some s => lift (parse_size s)
            | None => match i with Some i => ret (i_flash_size i) | None => raise KeyError end
            end in
  let* data := on_client (read_memory fuel address n true) in
  let* _ := save data in
  let* _ :=
    if verify && (0 <? len data) then
      let* device_crc := on_client (client_crc32 fuel address (len data)) in
      if negb (crc32_of data =? device_crc) then close_and_stop 1 else ret tt
    else ret tt in
  close_port.

Definition agent_write (addr : list Z) (input_file : string) (verify : bool) : MC unit :=
  let* address := lift (py_int true addr) in
  let* data := lift (read_file input_file) in
  let* _ := attach in
  let* ok := on_client (write_memory fuel address data true) in
  if negb ok then close_and_stop 1 else
  let* _ :=
    if verify : bool then
      let* matches := on_client (AgentClient.verify fuel address data) in
      if negb matches then close_and_stop 1 else ret tt
    else ret tt in
  close_port.

(** *** Scan *)

Definition readable (s : SectorResult) : bool := bool_decide (s_status s = GOOD \/ s_status s = UNSTABLE).

(** One sector of the dump; the state is [recoverable]. *)
Definition dump_sector (sz : Z) (s : SectorResult) (recoverable : bytes) : MC (ctl bytes Empty_set) :=
  if readable s then
    let* o := get_obj in
    let* data := on_client (read_memory fuel (flash_mem (cl o) + s_address s) sz true) in
    ret (Next (recoverable ++ data))
  else ret (Next (recoverable ++ brep sz 0xFF)).

Definition dump_recoverable (sz : Z) (sectors : list SectorResult) : MC unit :=
  let* r := foreach sectors (dump_sector sz) [] in
  match r with
  | Next d | Brk d => save d
  | Rtn e => match e with end
  end.

(** [on_sector]: [sector_chars[result.index] = ...] *)
Definition on_sector (num_sectors : Z) (result : SectorResult) : res unit :=
  if s_index result <? num_sectors then Ok tt else Raise IndexError.

Definition agent_scan (dump : bool) : MC ScanResult :=
  let* _ := attach in
  let* i := on_client (get_info fuel) in
  let size := match i with Some i => i_flash_size i | None => 0 end in
  let sz := match i with Some i => i_sector_size i | None => 0x10000 end in
  let num_sectors := if sz =? 0 then 0 else size / sz in
  if num_sectors =? 0 then close_and_stop 1 else
  let* scan := on_client (scan_flash fuel (on_sector num_sectors)) in
  let* _ := if dump : bool then dump_recoverable sz (sc_sectors scan) else ret tt in
  let* _ := close_port in
  ret scan.

Definition agent_membw (size : list Z) (iters : Z) (addr : list Z) : MC MembwResult :=
  let* n := lift (parse_size size) in
  let* a := lift (py_int true addr) in
  let* _ := attach in
  let* r := try_except (on_client (membw fuel n iters a)) (fun e => bool_decide (e = RuntimeError)) (fun _ => close_and_stop 1) in
  let* _ := close_port in
  ret r.

End Commands.
