(* ===== verification/AgentCmdSafe.v ===== *)
(** * What the agent commands do to a device

  The traces of the agent commands over any transport, device and power
  controller: what is uploaded before the agent is spoken to, what is written
  to the agent, and when a command ends without an error. *)

From S2P Require Import Prelude Text Events Profiles HisiStandard HisiV500 HisiCv6xx Firmware Session Vendors Install AgentProtocol AgentClient AgentSafe PowerCycle AgentCommands.
From S2P Require Import Transport.

(** ** The boot phase *)

Lemma does_self {T Ob A} (m : M T Ob A) o Q :
  does m o Q -> does m o (fun r l o' => Q r l o' /\ exists w1 w2, obj w1 = o /\ m w1 = (r, w2) /\ log w2 = log w1 ++ l).
Proof.
  intros Hm w Hw. destruct (Hm w Hw) as (l & Hl & HQ). exists l. split; [done|]. split; [done|].
  exists w, (snd (m w)). by rewrite <- surjective_pairing.
Qed.

Lemma does_effect {T Ob A} (f : T -> res A * T) o (Q : res A -> list event -> Ob -> Prop) :
  (forall r, Q r [] o) -> does (effect f) o Q.
Proof. intros HQ w <-. exists []. unfold effect. destruct (f (tr w)). rewrite app_nil_r. by split. Qed.

Lemma close_and_stop_does {T} `{Transport T, Controller T, TtyPort T} {A} code o (Q : res A -> list event -> command -> Prop) :
  (forall r, (forall a, r <> Ok a) -> Q r [] o) -> does (T := T) (close_and_stop code) o Q.
Proof. intros HQ. apply does_bind, does_effect. intros [[]|e|]; [apply does_raise|..]; by apply HQ. Qed.

Ltac stops := apply close_and_stop_does; intros [?|?|] Hstop; [exfalso; by eapply Hstop|try done..].

(** [m] only adds to the log. *)
Abbreviation logged := (keeps (fun _ => True)).

Section Boot.
Context {T : Type} `{Transport T} `{Controller T}.

Lemma logged_effect {Ob A} (f : T -> res A * T) : logged (effect (Ob := Ob) f).
Proof. intros o _. by apply does_effect. Qed.

Lemma logged_wait_for {Ob A} limit (m : M (Limited T) Ob A) : logged m -> logged (wait_for limit m).
Proof.
  intros Hm o _ w <-. destruct (Hm (obj w) I (World (Limit (tr w) limit) (obj w) (log w)) eq_refl) as (l & Hl & _).
  exists l. unfold wait_for. by destruct (m _) as [r w'].
Qed.

Lemma logged_beside {Ob A} op port tmo (m : M (Limited T) Ob A) : logged m -> logged (beside op port tmo m).
Proof.
  intros Hm o _ w <-. unfold beside.
  destruct (logged_wait_for (call_cutoff tmo) m Hm (obj w) I (World (ctl_start op port (tr w)) (obj w) (log w)) eq_refl) as (l & Hl & _).
  exists l. destruct (wait_for _ _ _) as [r w1]. destruct (ctl_wait _). by split.
Qed.

Lemma logged_cycle {Ob} ind port (m : M (Limited T) Ob HandshakeResult) off tmo pro n :
  logged m -> logged (power_cycle_into_handshake ind port m off tmo pro n).
Proof.
  intros Hm. pose proof (fun lim => logged_wait_for lim m Hm) as Hw. pose proof (fun op => logged_beside op port (Some tmo) m Hm) as Hb.
  assert (He : forall op, logged (power_call (T := T) (Ob := Ob) port op)) by (intros; apply logged_effect).
  unfold power_cycle_into_handshake, cycle_body, handshake_alone, handshake_beside. keeps_go.
Qed.

Lemma logged_std_handshake {T'} `{Transport T'} {Ob} fuel cont : logged (HisiStandard.handshake (T := T') (Ob := Ob) fuel cont).
Proof. unfold HisiStandard.handshake, handshake_body, handshake_byte. keeps_go. Qed.

(** A boot phase of the standard protocol that ends: the agent is the last
    thing that was uploaded, every frame of it acknowledged. *)
Lemma boot_standard_does `{TtyPort T} fuel profile agent_data spl power o :
  does (boot_standard (T := T) fuel profile agent_data spl power) o (fun r l _ => r = Ok tt ->
    exists hs up, l = hs ++ up /\ std_uploaded profile agent_data (Some spl) up).
Proof.
  assert (Hhs : logged (match power with
    | Some (ind, port) => try_except (power_cycle_into_handshake ind port (HisiStandard.handshake (T := Limited T) fuel true) 3000000 15000000 false 2)
          (fun e => bool_decide (e = PowerControllerError)) (fun _ => close_and_stop 1)
    | None => HisiStandard.handshake (T := T) (Ob := command) fuel false end)).
  { destruct power as [[ind port]|]; [|apply logged_std_handshake].
    apply keeps_try; [apply logged_cycle, logged_std_handshake|intros e]. unfold close_and_stop. apply keeps_bind; [apply logged_effect|intros _]. apply keeps_raise. }
  unfold boot_standard. does_step. eapply does_weaken; [by apply Hhs|]. intros [hs|e|] l o1 _; [|done..].
  does_step; [stops|]. does_step.
  eapply does_weaken; [apply does_emits, send_firmware_emits|]. intros [r|e|] l1 o2 Hr; [|done..].
  destruct (r_success r) eqn:Es; cbn [negb]; [|stops]. does_step. intros _.
  destruct (Hr r eq_refl Es) as (_ & p & [= <-] & Hu). exists l, l1. by rewrite app_nil_r.
Qed.

End Boot.

(** ** Flashing *)

Section Flash.
Context {T : Type} `{Transport T} `{Controller T} `{TtyPort T}.
Variable fuel : nat.

Lemma does_on_client {A} (m : M T agent A) o Q :
  does m (cl o) Q -> does (on_client m) o (fun r l o' => out_file o' = out_file o /\ Q r l (cl o')).
Proof.
  intros Hm w <-. destruct (Hm (World (tr w) (cl (obj w)) (log w)) eq_refl) as (l & Hl & HQ). exists l. unfold on_client.
  destruct (m _) as [r w']. by split.
Qed.

Lemma polite_client {A} (m : M T agent A) o :
  polite m -> does (on_client m) o (fun _ l o' => Forall query (writes l) /\ geometry (cl o') = geometry (cl o)).
Proof. intros Hm. eapply does_weaken; [apply does_on_client, Hm|]. by intros r l o' [_ ?]. Qed.



End Flash.

(** ** Uploading *)

Section Upload.
Context {T : Type} `{Transport T} `{Controller T} `{TtyPort T}.
Variable fuel : nat.
Variable load_prof : string -> res SoCProfile.
Variable read_file : string -> res bytes.
Variable unix_time : Z.
Variable agent_path : string -> option string.
Variable head_url : string -> option validators.
Variable get_url : string -> option (validators * bytes).
Variable parse_date : string -> option Z.
Variable now : Z.
Variable c : cache.
Variable power_from_env : res power_kind.
Variable independent : power_kind -> bool.
Variable find_port_by_comment : string -> res string.

(** What the log of an upload shows: every frame was acknowledged, and the
    agent is in it where the boot ROM runs it. *)
Definition agent_sent (chip : string) (composite_path : option string) (agent_data : bytes) (cls : protocol_cls) (up : list event) : Prop :=
  match cls with
  | C_HiSiliconCV6xx => exists path composite parts wrapped l0 l5 text,
      composite_path = Some path /\ read_file path = Ok composite /\ parse_cv6xx_boot composite = Ok parts /\
      wrap_cv6xx_payload (uboot_data parts) agent_data = Ok wrapped /\ up = l0 ++ l5 /\
      table_sent unix_time parts l0 text /\ contains SPL_TABLE_REJECTED text = false /\ area_sent wrapped UBOOT_LOAD_ADDR l5
  | C_HiSiliconV500 => exists wrapped,
      v500_image_of read_file head_url get_url parse_date now c chip composite_path agent_data = Ok wrapped /\ v500_uploaded wrapped up
  | _ => exists profile spl, load_prof chip = Ok profile /\
      agent_spl head_url get_url parse_date now c chip profile = Ok spl /\ std_uploaded profile agent_data (Some spl) up
  end.

(** A log of an upload and of what was asked of the agent after it. *)
Definition upload_log (sent : list event -> Prop) (l : list event) : Prop :=
  exists pre up post, l = pre ++ up ++ post /\ sent up /\ Forall query (writes post).

Lemma upload_log_query sent l l' : upload_log sent l -> Forall query (writes l') -> upload_log sent (l ++ l').
Proof.
  intros (pre & up & post & -> & Hs & Hq) Hq'. exists pre, up, (post ++ l'). rewrite <- !app_assoc, writes_app.
  split_and!; [done|done|by apply Forall_app].
Qed.

Lemma agent_ready_does o :
  does (T := T) (agent_ready fuel) o (fun r l _ => forall i, r = Ok i -> Forall query (writes l)).
Proof.
  unfold agent_ready, new_client. do 4 does_step.
  does_step. eapply does_weaken; [apply polite_client, polite_connect|]. intros [ok|e|] l1 o1 [Q1 _]; [|done..].
  destruct ok; cbn [negb]; [|by apply does_raise].
  eapply does_weaken; [apply does_on_client, get_info_does|]. intros r l2 o2 [_ [Q2 _]] i _. rewrite writes_app. by apply Forall_app.
Qed.

Lemma upload_standard_does chip port override power_cycle agent_data o :
  does (T := T) (upload_standard fuel load_prof head_url get_url parse_date now c power_from_env independent find_port_by_comment
    chip port override power_cycle agent_data) o (fun r l _ => forall i, r = Ok i ->
    upload_log (agent_sent chip None agent_data C_HiSiliconStandard) l).
Proof.
  unfold upload_standard, reopen.
  do 2 does_step. destruct (load_prof chip) as [profile|e|] eqn:Ep; [|done..].
  do 2 does_step. destruct (agent_spl _ _ _ _ _ _ _) as [spl|e|] eqn:Es; [|done..].
  do 2 does_step. destruct (agent_power _ _ _ _ _) as [power|e|]; [|done..].
  does_step. apply does_effect. intros [[]|e|]; [|done..].
  does_step. eapply does_weaken; [apply boot_standard_does|]. intros [[]|e|] l1 o1 Hb; [|done..].
  destruct (Hb eq_refl) as (hs & up & -> & Hu). clear Hb.
  do 2 does_step. apply does_effect. intros [[]|e|]; [|done..]. do 2 does_step. apply does_effect. intros [[]|e|]; [|done..].
  does_step. eapply does_weaken; [apply agent_ready_does|]. intros [i|e|] l2 o2 Q2; [|done..].
  does_step. apply does_effect. intros [[]|e|]; [|done..]. does_step. intros i' _.
  exists hs, up, l2. cbn [app]. rewrite !app_nil_r. rewrite <- app_assoc. split_and!; [done| |by eapply Q2].
  by exists profile, spl.
Qed.

Lemma boot_v500_does chip donor_path wrapped power o :
  does (T := T) (boot_v500 fuel chip donor_path wrapped power) o (fun r l _ => r = Ok tt ->
    exists hs up, l = hs ++ up /\ v500_uploaded wrapped up).
Proof.
  assert (Hh : forall T' (HT : Transport T'), logged (v500_handshake (T := T') fuel)).
  { intros. unfold v500_handshake, v500_handshake_body, v500_poll. keeps_go. }
  unfold boot_v500. does_step.
  apply (does_weaken _ _ (fun _ _ _ => True)).
  { match goal with |- does ?m _ _ => enough (Hk : logged m) by (by apply Hk) end.
    destruct power as [[ind port]|].
    - apply keeps_try; [apply logged_cycle, Hh|intros; apply keeps_raise].
    - apply keeps_bind; [apply keeps_monotonic|intros start]. apply keeps_bind; [apply logged_wait_for, Hh|].
      intros [hs|]; [apply keeps_ret|apply keeps_raise]. }
  intros [hs|e|] l o1 _; [|done..]. destruct (negb _); [by does_step|]. destruct (wrong_member _ _ _); [by does_step|].
  does_step. eapply does_weaken; [apply does_emits, v500_send_emits|]. intros [r|e|] l1 o2 Hr; [|done..].
  destruct (r_success r) eqn:Es; cbn [negb]; [|by does_step]. does_step. intros _. destruct (Hr r eq_refl Es) as [_ Hu].
  exists l, l1. by rewrite app_nil_r.
Qed.

Lemma does_with_object {X Ob A} (x : X) (m : M T X A) (o : Ob) Q :
  does m x Q -> does (with_object x m) o (fun r l o' => o' = o /\ exists x', Q r l x').
Proof.
  intros Hm w <-. destruct (Hm (World (tr w) x (log w)) eq_refl) as (l & Hl & HQ). exists l. unfold with_object.
  destruct (m _) as [r w']. by eauto.
Qed.

Lemma does_closing {A} (m : M T command A) o (Q : res A -> list event -> command -> Prop) :
  does m o Q -> does (closing m) o Q.
Proof.
  intros Hm w Hw. destruct (Hm w Hw) as (l & Hl & HQ). exists l. unfold closing. destruct (m w) as [r w'].
  unfold close_port, effect. by split.
Qed.

Lemma upload_v500_does chip port override power_cycle donor_path agent_data o :
  does (T := T) (upload_v500 fuel read_file head_url get_url parse_date now c power_from_env independent find_port_by_comment
    chip port override power_cycle donor_path agent_data) o (fun r l _ => forall i, r = Ok i ->
    upload_log (agent_sent chip donor_path agent_data C_HiSiliconV500) l).
Proof.
  unfold upload_v500.
  do 2 does_step. destruct (v500_image_of _ _ _ _ _ _ _ _ _) as [wrapped|e|] eqn:Ew; [|done..].
  do 2 does_step. destruct (agent_power _ _ _ _ _) as [power|e|]; [|done..].
  do 2 does_step. apply does_effect. intros [[]|e|]; [|by destruct (is_Exception e); [apply does_raise|]|done].
  apply does_closing. does_step. eapply does_weaken; [apply does_with_object, boot_v500_does|].
  intros [[]|e|] l1 o1 [-> [x Hb]]; [|done..]. destruct (Hb eq_refl) as (hs & up & -> & Hu).
  eapply does_weaken; [apply agent_ready_does|]. intros r l2 o2 Q2 i Hi. cbn [app].
  exists hs, up, l2. rewrite <- app_assoc. split_and!; [done| |by eapply Q2]. by exists wrapped.
Qed.

Lemma boot_cv6xx_does composite wrapped parts power o :
  parse_cv6xx_boot composite = Ok parts ->
  does (T := T) (boot_cv6xx fuel unix_time composite wrapped power) o (fun r l _ => r = Ok true ->
    exists hs l0 l5 text, l = hs ++ l0 ++ l5 /\ table_sent unix_time parts l0 text /\
      contains SPL_TABLE_REJECTED text = false /\ area_sent wrapped UBOOT_LOAD_ADDR l5).
Proof.
  intros Hp. assert (Hh : forall T' (HT : Transport T'), logged (cv6xx_handshake (T := T') fuel)).
  { intros. unfold cv6xx_handshake, cv6xx_handshake_body, poll_chunk. keeps_go. }
  unfold boot_cv6xx. does_step. does_step; [|done..]. does_step.
  apply (does_weaken _ _ (fun _ _ _ => True)).
  { match goal with |- does ?m _ _ => enough (Hk : logged m) by (by apply Hk) end. destruct power; [apply logged_beside, Hh|].
    apply keeps_bind; [apply Hh|intros; apply keeps_ret]. }
  intros [[e|[hs|]]|e|] l o1 _; [by does_step| |by does_step|done..]. destruct (negb _); [by does_step|].
  does_step. eapply does_weaken; [apply does_emits, (cv6xx_send_emits fuel unix_time composite parts (Some wrapped) Hp)|].
  intros [r|e|] l1 o2 Hr; [|done..]. does_step. intros [= Es]. destruct (Hr r eq_refl) as [Hs _].
  destruct (Hs Es) as (_ & l0 & l5 & text & -> & Ht & Hrej & _ & Ha). cbn in Ha. exists (EvFlushInput (Ok tt) :: l), l0, l5, text.
  rewrite app_nil_r. by split_and!.
Qed.

Lemma upload_cv6xx_does chip composite_path power_cycle agent_data o :
  does (T := T) (upload_cv6xx fuel read_file unix_time power_from_env composite_path power_cycle agent_data) o (fun r l _ => forall i, r = Ok i ->
    upload_log (agent_sent chip composite_path agent_data C_HiSiliconCV6xx) l).
Proof.
  unfold upload_cv6xx. destruct composite_path as [path|]; [|by apply does_raise].
  do 2 does_step. destruct (read_file path) as [composite|e|] eqn:Er; [|done..]. cbn [app].
  does_step. destruct (parse_cv6xx_boot composite) as [parts|e|] eqn:Ep; [|by apply does_raise|by does_step]. does_step. cbn [app].
  do 2 does_step. destruct (wrap_cv6xx_payload _ _) as [wrapped|e|] eqn:Ew; [|done..]. cbn [app].
  does_step. apply (does_weaken _ _ (fun _ l _ => l = [])).
  { destruct power_cycle; [|by does_step]. do 2 does_step. destruct power_from_env; [by does_step|done..]. }
  intros [[]|e|] l o1 ->; [|done..]. cbn [app]. does_step. apply does_effect. intros [[]|e|]; [|done..]. cbn [app].
  does_step. eapply does_weaken; [apply does_with_object, (boot_cv6xx_does composite wrapped parts); done|].
  intros [ok|e|] l1 o2 [-> [x Hb]]; [|done..]. destruct ok; cbn [negb]; [|stops].
  destruct (Hb eq_refl) as (hs & l0 & l5 & text & -> & Ht & Hrej & Ha). unfold new_client. do 4 does_step.
  does_step. eapply does_weaken; [apply polite_client, polite_connect|]. intros [ok|e|] l2 o3 [Q2 _]; [|done..].
  destruct ok; cbn [negb]; [|stops].
  does_step. eapply does_weaken; [apply does_on_client, get_info_does|]. intros [i|e|] l3 o4 [_ [Q3 _]]; [|done..].
  does_step. apply does_effect. intros [[]|e|]; [|done..]. does_step. intros i' _. cbn [app]. rewrite !app_nil_r.
  exists hs, (l0 ++ l5), (l2 ++ l3). rewrite <- app_assoc, writes_app. split_and!; [done| |by apply Forall_app].
  by exists path, composite, parts, wrapped, l0, l5, text.
Qed.

(** C11. An agent upload that ends without an error has brought the agent into
    the device: over any transport, device and power controller, the log holds
    the agent binary of the chip as the upload of the chip's boot protocol (as
    the second stage after the SPL, inside the donor's boot image, or behind
    the composite's U-Boot header), whose every frame was acknowledged, and
    nothing but queries was written after it. *)
Theorem agent_upload_safe entry_points dir reg chip port override composite_path power_cycle
    (w w' : world T command) i :
  agent_upload fuel load_prof read_file unix_time agent_path head_url get_url parse_date now c power_from_env independent
    find_port_by_comment entry_points dir reg chip port override composite_path power_cycle w = (Ok i, w') ->
  exists path agent_data cls l, agent_path chip = Some path /\ read_file path = Ok agent_data /\
    fst (find_protocol entry_points dir chip reg) = Ok cls /\
    log w' = log w ++ l /\ upload_log (agent_sent chip composite_path agent_data cls) l.
Proof.
  intros Hrun.
  assert (Hd : does (agent_upload fuel load_prof read_file unix_time agent_path head_url get_url parse_date now c power_from_env independent
    find_port_by_comment entry_points dir reg chip port override composite_path power_cycle) (obj w) (fun r l _ => forall i, r = Ok i ->
      exists path agent_data cls, agent_path chip = Some path /\ read_file path = Ok agent_data /\
        fst (find_protocol entry_points dir chip reg) = Ok cls /\ upload_log (agent_sent chip composite_path agent_data cls) l)).
  2: { destruct (Hd w eq_refl) as (l & Hl & HQ). rewrite Hrun in Hl, HQ. destruct (HQ i eq_refl) as (path & d & cls & H1' & H2' & H3' & H4').
       exists path, d, cls, l. by split_and!. }
  unfold agent_upload. destruct (agent_path chip) as [path|] eqn:Epath; [|by apply does_raise].
  do 2 does_step. destruct (read_file path) as [agent_data|e|] eqn:Er; [|done..].
  do 2 does_step. destruct (fst (find_protocol _ _ _ _)) as [cls|e|] eqn:Ec; [|done..]. cbn [app].
  assert (Hfin : forall m : M T command (option info),
    does m (obj w) (fun r l _ => forall i, r = Ok i -> upload_log (agent_sent chip composite_path agent_data cls) l) ->
    does m (obj w) (fun r l _ => forall i, r = Ok i -> exists path' d cls', Some path = Some path' /\ read_file path' = Ok d /\
        Ok cls = Ok cls' /\ upload_log (agent_sent chip composite_path d cls') l)).
  { intros m Hm. eapply does_weaken; [exact Hm|]. intros r l ? HQ i' Hi. exists path, agent_data, cls. split_and!; [done..|by eapply HQ]. }
  apply Hfin. destruct cls; [apply upload_standard_does|apply upload_v500_does|apply upload_cv6xx_does|apply upload_standard_does].
Qed.


End Upload.

(** ** A board that takes an agent *)

(** A line on which every write is answered from a script, and each opening of
    the port begins the next one: a greeting, the answers to the first writes
    and the answer to all others. *)
Record Script := { sc_line : MockTransport; sc_replies : list bytes; sc_other : bytes; sc_sessions : list (bytes * list bytes * bytes) }.

Definition scripted {A} (f : MockTransport -> A * MockTransport) (p : Script) : A * Script :=
  let (r, t) := f (sc_line p) in (r, Build_Script t (sc_replies p) (sc_other p) (sc_sessions p)).

Definition script_write (d : bytes) (p : Script) : res unit * Script :=
  let (r, t) := Mock_write d (sc_line p) in
  let answer := match sc_replies p with x :: _ => x | [] => sc_other p end in
  (r, Build_Script (Mock_enqueue_rx answer t) (tail (sc_replies p)) (sc_other p) (sc_sessions p)).

#[export] Instance Script_Transport : Transport Script := {|
  t_read n tmo := scripted (t_read n tmo);
  t_write := script_write;
  t_flush_input := scripted t_flush_input;
  t_flush_output := scripted t_flush_output;
  t_bytes_waiting := scripted t_bytes_waiting;
  t_unread d := scripted (t_unread d);
  t_set_baudrate b := scripted (t_set_baudrate b);
  t_monotonic := scripted t_monotonic;
  t_sleep d p := Build_Script (Mock_sleep d (sc_line p)) (sc_replies p) (sc_other p) (sc_sessions p)
|}.

#[export] Instance Script_Port : TtyPort Script := {|
  port_open p :=
    match sc_sessions p with
    | [] => (Raise TransportError, p)
    | (greeting, answers, other) :: rest =>
        (Ok tt, Build_Script (Mock greeting (tx_log (sc_line p)) false false (clock (sc_line p))) answers other rest)
    end;
  port_close p := p
|}.

#[export] Instance Script_Controller : Controller Script := {|
  ctl_call _ _ p := (Ok tt, p);
  ctl_start _ _ p := p;
  ctl_returned p := Some (Ok tt, clock (sc_line p));
  ctl_wait p := (Ok tt, p)
|}.

Definition demo_info : bytes := [0xEF; 0x40; 0x18; 0] ++ le_bytes 4 0x1000000 ++ le_bytes 4 0x80000000 ++ le_bytes 4 0x10000.
Definition demo_firmware : bytes := [1; 2; 3].
Definition demo_agent : Script :=
  Build_Script (Mock [] [] false false 0) [] []
    [(brep 5 0x20, [[]], [0xAA]);
     (wire (RSP_READY, []),
      [wire (RSP_INFO, demo_info); wire (RSP_ACK, [0]); wire (RSP_DATA, [0; 0; 0; 0]) ++ wire (RSP_ACK, [0]);
       wire (RSP_CRC32, le_bytes 4 (crc32_of demo_firmware)); wire (RSP_ACK, [0])], [])].
Definition demo_path (chip : string) : option string := get_agent_binary "" "/p" "/c" "/a" (fun p => bool_decide (p = "/c/agent-hi3519v101.bin"%string)) chip.
Definition demo_read (p : string) : res bytes := if bool_decide (p = "/c/agent-hi3519v101.bin"%string) then Ok [7; 8; 9] else Raise FileNotFoundError.
Definition demo_load (chip : string) : res SoCProfile := Ok example_profile.
Definition demo_cache : cache := Cache {["u-boot-hi3516av200-universal.bin" := File (brep 64 1) 0]}%string ∅.
Abbreviation start_agent := (World demo_agent (Command FlashAgentClient_init None) []).
Abbreviation demo_flash := (agent_flash 300 demo_load demo_read demo_path (fun _ => None) (fun _ => None) (fun _ => None) 0 demo_cache
  "hi3516av200" (Some demo_firmware) true true start_agent).


Definition demo_dir : gmap string string := {["hi3516av200.json" := "{}"]}%string.
Abbreviation demo_upload := (agent_upload 300 demo_load demo_read 0 demo_path (fun _ => None) (fun _ => None) (fun _ => None) 0 demo_cache
  (Raise KeyError) (fun _ => true) (fun _ => Raise KeyError) shipped_entry_points demo_dir (Registry [] false) "hi3516av200" "/dev/ttyUSB0" "" None false start_agent).

Theorem agent_upload_safe_witness :
  exists i, fst demo_upload = Ok (Some i) /\
  exists path agent_data cls l, demo_path "hi3516av200" = Some path /\ demo_read path = Ok agent_data /\
    fst (find_protocol shipped_entry_points demo_dir "hi3516av200" (Registry [] false)) = Ok cls /\
    log (snd demo_upload) = [] ++ l /\
    upload_log (agent_sent demo_load demo_read 0 (fun _ => None) (fun _ => None) (fun _ => None) 0 demo_cache "hi3516av200" None agent_data cls) l.
Proof.
  set (i := mkInfo [0xEF; 0x40; 0x18] 0x1000000 0x80000000 0x10000 None None). exists i.
  assert (E : fst demo_upload = Ok (Some i)) by (vm_compute; reflexivity). split; [exact E|].
  apply (agent_upload_safe 300 demo_load demo_read 0 demo_path (fun _ => None) (fun _ => None) (fun _ => None) 0 demo_cache
    (Raise KeyError) (fun _ => true) (fun _ => Raise KeyError) shipped_entry_points demo_dir (Registry [] false) "hi3516av200" "/dev/ttyUSB0" ""
    None false start_agent (snd demo_upload) (Some i)).
  apply (pair_fst demo_upload _ E).
Defined.
