(* ===== verification/AgentDump.v ===== *)
(** * The dumps of the agent commands

  [agent scan] saves what can be read of a flash with bad sectors, and
  [agent read] what it read: where each byte of the file comes from. *)

From S2P Require Import Prelude Text Session AgentProtocol AgentClient AgentSafe PowerCycle AgentCommands AgentCmdSafe.
From S2P Require Import Transport.

(** ** Reads are whole *)

Lemma read_memory_len {T} `{Transport T} fuel addr size fast :
  yields (T := T) (read_memory fuel addr size fast) (fun d => len d = size).
Proof.
  unfold read_memory. do 4 (apply yields_bind; intros ?).
  apply yields_after with (P := fun c => match c with Rtn d => len d = size | _ => False end).
  2: { intros [s|s|d] Hc; [done|done|]. by apply yields_ret. }
  generalize ([] : bytes, 0). generalize fuel at 1. intros n. induction n as [|n IH]; intros s; cbn [while]; [apply yields_diverge|].
  apply yields_after with (P := fun c => match c with Rtn d => len d = size | Brk _ => False | Next _ => True end).
  - destruct s as [received seq]. unfold read_memory_body. destruct (len received =? size) eqn:E; cbn [negb]; yields_go; try done. by b2p.
  - intros [s'|s'|d] Hc; [apply IH|done|by apply yields_ret].
Qed.

(** ** Scans *)

(** The sectors are numbered in order and each is at its place. *)
Definition placed (sz : Z) (sectors : list SectorResult) : Prop :=
  forall i s, sectors !! i = Some s -> s_index s = Z.of_nat i /\ s_address s = Z.of_nat i * sz.

Lemma placed_nil sz : placed sz [].
Proof. by intros i s Hi%lookup_nil_Some || intros i s; rewrite lookup_nil. Qed.

Lemma placed_snoc sz sectors st crc :
  placed sz sectors -> placed sz (sectors ++ [mkSector (len sectors) (len sectors * sz) st crc]).
Proof.
  intros Hp i s [Hi|(Hi & E)]%lookup_app_Some; [by apply Hp|]. apply list_lookup_singleton_Some in E as [E <-]. cbn.
  unfold len. replace i with (length sectors) by lia. by split.
Qed.

Lemma scan_entries_placed cb n data num sz sectors off sectors' :
  placed sz sectors -> scan_entries cb n data num sz sectors off = Ok sectors' -> placed sz sectors'.
Proof.
  revert sectors off. induction n as [|n IH]; intros sectors off Hp; cbn; [done|].
  destruct (_ && _); [|by intros [= <-]]. destruct (index data off) as [b|e|]; [|done..]. cbn.
  destruct (unpack_le 4 data (off + 1)) as [crc|e|]; [|done..]. cbn. destruct (cb _) as [[]|e|]; [|done..]. cbn. apply IH. by apply placed_snoc.
Qed.

#[local] Arguments scan_entries : simpl never.

Section Scan.
Context {T : Type} `{Transport T}.
Variable fuel : nat.
Variable g : Z * Z * Z * Z.
Abbreviation kept := (fun a => geometry a = g).
Variables fs rb sz mem : Z.
Variable cb : SectorResult -> res unit.
Hypothesis Hg : g = (fs, rb, sz, mem).
Hypothesis Hfs : fs <> 0.
Hypothesis Hsz : sz <> 0.

Lemma kept_geometry a : geometry a = g -> flash_size a = fs /\ sector_size a = sz /\ flash_mem a = mem.
Proof. rewrite Hg. unfold geometry. by intros [= -> _ -> ->]. Qed.

Abbreviation good := (fun (r : res ScanResult) (a' : agent) => geometry a' = g /\ forall sc, r = Ok sc -> placed sz (sc_sectors sc)).

Lemma scan_compat_does a : geometry a = g -> does (T := T) (scan_flash_compat fuel cb) a (fun r _ a' => good r a').
Proof.
  intros Ha. destruct (kept_geometry a Ha) as (Efs & Esz & Emem). unfold scan_flash_compat. do 2 does_step. cbn zeta.
  rewrite Esz, Efs. replace (int_or sz 0x10000) with sz by (unfold int_or; case_match; b2p; lia).
  replace (fs =? 0) with false by lia. do 4 does_step. rewrite Emem.
  does_step. eapply does_weaken.
  { apply (does_foreach (fun done sectors _ a' => geometry a' = g /\ placed sz sectors /\ len sectors = len done)
      _ _ _ _ (fun r _ a' => geometry a' = g /\ match r with Ok (Next s) | Ok (Brk s) => placed sz s | _ => True end)).
    - split_and!; [done|apply placed_nil|done].
    - intros dn x rest sectors l0 a0 Hx (Ha0 & Hp & Hlen).
      assert (Ei : x = len dn).
      { pose proof (f_equal (fun l => l !! length dn) Hx) as E. unfold range in E. rewrite list_lookup_fmap in E.
        rewrite list_lookup_middle in E by done. apply fmap_Some in E as (k & Hk & ->). apply lookup_seq in Hk as [-> _]. done. }
      assert (Hcrc : forall ad (n : Z), keeps (T := T) kept (client_crc32 fuel ad n)) by (intros; apply keeps_client_crc32).
      unfold scan_compat_body. does_step.
      apply (does_weaken _ _ (fun _ _ a' => geometry a' = g)).
      { match goal with |- does ?m _ _ => enough (Hk : keeps (T := T) kept m) by (by apply Hk) end. keeps_go. }
      intros [[crc1|]|e|] l1 a1 Ha1; [|do 2 does_step; destruct (cb _) as [[]|e|]; [|done..]; does_step; rewrite Ei, <- Hlen; split_and!; [done|by apply placed_snoc|]|done..].
      2: { unfold len in *. rewrite !length_app. cbn. lia. }
      does_step. apply (does_weaken _ _ (fun _ _ a' => geometry a' = g)).
      { match goal with |- does ?m _ _ => enough (Hk : keeps (T := T) kept m) by (by apply Hk) end. keeps_go. }
      intros [st|e|] l2 a2 Ha2; [|done..]. do 2 does_step. destruct (cb _) as [[]|e|]; [|done..]. does_step. rewrite Ei, <- Hlen. split_and!; [done|by apply placed_snoc|].
      unfold len in *. rewrite !length_app. cbn. lia.
    - intros s l0 o0 (? & ? & _). by split. }
  intros [[s|s|r]|e|] l a' [Ha' Hp]; try done; does_step; (split; [done|]); intros sc [= <-]; [done|done|apply placed_nil].
Qed.

Lemma scan_flash_does a : geometry a = g -> does (T := T) (scan_flash fuel cb) a (fun r _ a' => good r a').
Proof.
  intros Ha. unfold scan_flash. pose proof (keeps_switch_baud (T := T) fuel g DEFAULT_FAST_BAUD) as Hs.
  does_step. eapply does_weaken; [by apply (keeps_clear (T := T) g)|]. intros [[]|e|] l1 a1 G1; [|done..].
  does_step. eapply does_weaken; [by apply Hs|]. intros [b|e|] l2 a2 G2; [|done..].
  does_step. eapply does_weaken; [by apply (keeps_send_packet (T := T) g)|]. intros [[]|e|] l3 a3 G3; [|done..].
  does_step. eapply does_weaken; [by apply (keeps_recv (T := T) fuel g)|]. intros [[cmd data]|e|] l4 a4 G4; [|done..].
  does_step; [eapply does_weaken; [by apply scan_compat_does|done]|]. does_step; [by does_step|].
  do 2 does_step. destruct (unpack_le 4 data 0) as [num|e|]; [|done..]. does_step.
  apply (does_weaken _ _ (fun r _ a' => geometry a' = g /\ match r with Ok (Next s) | Ok (Brk s) => placed sz (fst s) | _ => True end)).
  { apply (does_while (fun s _ a' => geometry a' = g /\ placed sz (fst s))); [split; [done|apply placed_nil]| |by intros s l0 a0 [? _]].
    intros [sectors c] l0 a0 [Ha0 Hp]. unfold scan_flash_body. does_step; [by does_step|].
    does_step. eapply does_weaken; [by apply (keeps_recv (T := T) fuel g)|]. intros [[cmd' data']|e|] l5 a5 G5; [|done..].
    does_step; [by does_step|]. does_step; [by does_step|]. do 2 does_step. destruct (kept_geometry a5 G5) as (_ & -> & _).
    do 2 does_step. destruct (scan_entries cb (S (length data')) data' num sz sectors 0) as [sectors'|e|] eqn:E; [|done..]. does_step. split; [done|].
    by eapply scan_entries_placed. }
  intros [c|e|] l5 a5 [G5 Hp]; [|done..].
  set (sc := match c with Next s | Brk s => s | Rtn _ => ([], cmd) end).
  assert (Hsc : placed sz (fst sc)) by (destruct c; [done|done|apply placed_nil]). destruct sc as [sectors cmd'].
  does_step. apply (does_weaken _ _ (fun _ _ a' => geometry a' = g)).
  { destruct (negb (cmd' =? RSP_ACK)); [by apply (keeps_recv (T := T) fuel g)|by does_step]. }
  intros [p|e|] l6 a6 G6; [|done..]. do 3 does_step. split; [done|]. by intros sc [= <-].
Qed.

End Scan.

(** ** The file of a scan *)

Section Dump.
Context {T : Type} `{Transport T} `{Controller T} `{TtyPort T}.
Variable fuel : nat.

(** What the dump holds of a sector: what was read at its address, or 0xFF. *)
Definition sector_dump (mem sz : Z) (s : SectorResult) (d : bytes) : Prop :=
  len d = Z.max 0 sz /\
  if readable s then exists w1 w2, read_memory (T := T) fuel (mem + s_address s) sz true w1 = (Ok d, w2)
  else d = brep sz 0xFF.

Lemma dump_sectors_does g sz sectors o :
  geometry (cl o) = g ->
  does (T := T) (dump_recoverable fuel sz sectors) o (fun r _ o' => geometry (cl o') = g /\
    (r = Ok tt -> exists datas, out_file o' = Some (concat datas) /\ Forall2 (sector_dump (flash_mem (cl o)) sz) sectors datas)).
Proof.
  intros Hg. assert (Hmem : forall o', geometry (cl o') = g -> flash_mem (cl o') = flash_mem (cl o)) by (unfold geometry in *; congruence).
  unfold dump_recoverable. does_step.
  apply (does_weaken _ _ (fun r _ o' => geometry (cl o') = g /\
    match r with Ok (Next d) => exists datas, d = concat datas /\ Forall2 (sector_dump (flash_mem (cl o)) sz) sectors datas
            | Ok (Brk _) => False | _ => True end)).
  { apply (does_foreach (fun dn d _ o' => geometry (cl o') = g /\
      exists datas, d = concat datas /\ Forall2 (sector_dump (flash_mem (cl o)) sz) dn datas)); [split; [done|by exists []]| |done].
    intros dn s rest d l0 o0 _ (G0 & datas & -> & Hd). unfold dump_sector. destruct (readable s) eqn:Er.
    - do 2 does_step. rewrite (Hmem _ G0). does_step.
      eapply does_weaken; [apply does_on_client, does_self, (keeps_read_memory (T := T) fuel g); exact G0|].
      intros [d|e|] l o1 [_ [G1 (w1 & w2 & _ & Hr & _)]]; [|done..]. does_step. split; [done|].
      exists (datas ++ [d]). rewrite concat_app. cbn. rewrite app_nil_r. split; [done|]. apply Forall2_app; [done|].
      constructor; [|constructor]. unfold sector_dump. rewrite Er. pose proof (read_memory_len _ _ _ _ _ _ _ Hr) as Hl.
      cbn in Hl. pose proof (len_nonneg d). split; [lia|by eauto].
    - does_step. split; [done|]. exists (datas ++ [brep sz 0xFF]). rewrite concat_app. cbn [concat]. rewrite app_nil_r.
      split; [done|]. apply Forall2_app; [done|]. constructor; [|constructor]. unfold sector_dump. rewrite Er. split; [|done].
      unfold len, brep. rewrite length_replicate. lia. }
  intros [[d|d|[]]|e|] l o1 [G1 Hd]; try done. destruct Hd as (datas & -> & Hd). unfold save. do 3 does_step. split; [done|].
  intros _. by exists datas.
Qed.

(** The pieces of a file that are all of one size. *)
Lemma slice_concat (sz : Z) (datas : list bytes) i d :
  0 <= sz -> Forall (fun d => len d = sz) datas -> datas !! i = Some d ->
  slice (concat datas) (Z.of_nat i * sz) (Z.of_nat i * sz + sz) = d.
Proof.
  intros Hs Hd Hi. rewrite <- (take_drop_middle _ _ _ Hi), concat_app. cbn [concat].
  assert (Hp : len (concat (take i datas)) = Z.of_nat i * sz).
  { assert (Hl : length (take i datas) = i) by (rewrite length_take; apply lookup_lt_Some in Hi; lia).
    rewrite <- Hl at 2. apply Forall_take with (n := i) in Hd. clear -Hd. induction Hd as [|x l Hx _ IH]; [done|].
    cbn [concat length]. rewrite len_app, IH. lia. }
  apply slice_mid; [done|]. rewrite Forall_lookup in Hd. rewrite (Hd i d Hi). lia.
Qed.

(** C25. The file that [agent scan] saves is as good as the scan: over any
    transport and whatever the agent reports, a scan that ends leaves a file
    with every sector at its own address, those found good or unstable as
    [read_memory] returned them and whole, and 0xFF in the place of all others;
    a sector that cannot be read after all leaves no file. *)
Theorem agent_scan_dump (w w' : world T command) scan :
  agent_scan fuel true w = (Ok scan, w') ->
  let sz := sector_size (cl (obj w')) in
  exists file, out_file (obj w') = Some file /\
    (0 <= sz -> len file = scan_total scan * sz /\
     forall i s, sc_sectors scan !! i = Some s -> s_index s = Z.of_nat i /\ s_address s = s_index s * sz /\
       sector_dump (flash_mem (cl (obj w'))) sz s (slice file (s_address s) (s_address s + sz))).
Proof.
  intros Hrun.
  assert (Hd : does (T := T) (agent_scan fuel true) (obj w) (fun r _ o' => forall sc, r = Ok sc ->
    placed (sector_size (cl o')) (sc_sectors sc) /\
    exists datas, out_file o' = Some (concat datas) /\
      Forall2 (sector_dump (flash_mem (cl o')) (sector_size (cl o'))) (sc_sectors sc) datas)).
  { unfold agent_scan, attach, new_client. does_step. does_step. apply does_effect. intros [[]|e|]; [|done..].
    do 5 does_step. eapply does_weaken; [apply polite_client, polite_connect|]. intros [ok|e|] l1 o1 _; [|done..].
    destruct ok; cbn [negb]; [|stops]. does_step.
    does_step. eapply does_weaken; [apply does_on_client, get_info_does|]. intros [i|e|] l2 o2 [_ [_ G2]]; [|done..].
    destruct i as [i|]; [|cbn; stops]. destruct G2 as [Gf Gs]. cbn zeta. rewrite <- Gf, <- Gs.
    destruct (sector_size (cl o2) =? 0) eqn:Ez; [cbn; stops|]. destruct (_ / _ =? 0) eqn:En; [stops|]. b2p.
    assert (Hfs : flash_size (cl o2) <> 0) by (intros E; by rewrite E, Z.div_0_l in En).
    does_step. eapply does_weaken.
    { apply does_on_client, (scan_flash_does fuel (geometry (cl o2)) _ _ _ _ _ eq_refl Hfs Ez). done. }
    intros [sc|e|] l3 o3 [_ [G3 Hp]]; [|done..]. specialize (Hp sc eq_refl).
    assert (Hs3 : sector_size (cl o3) = sector_size (cl o2)) by (unfold geometry in G3; congruence).
    does_step.
    eapply does_weaken; [by apply (dump_sectors_does (geometry (cl o2)))|]. intros [[]|e|] l4 o4 [G4 Hf]; [|done..].
    does_step. apply does_effect. intros [[]|e|]; [|done..]. does_step. intros sc' [= <-].
    replace (sector_size (cl o4)) with (sector_size (cl o2)) by (unfold geometry in G4; congruence).
    replace (flash_mem (cl o4)) with (flash_mem (cl o3)) by (unfold geometry in *; congruence). split; [done|by apply Hf]. }
  destruct (Hd w eq_refl) as (l & _ & HQ). rewrite Hrun in HQ. destruct (HQ scan eq_refl) as (Hp & datas & Hf & Hds). cbn in Hf, Hp, Hds.
  exists (concat datas). split; [done|]. intros Hs. assert (Hl : Forall (fun d => len d = sector_size (cl (obj w'))) datas).
  { apply Forall_forall. intros d (i & Hi)%list_elem_of_lookup. destruct (Forall2_lookup_r _ _ _ _ _ Hds Hi) as (s & _ & Hlen & _). lia. }
  split.
  - unfold scan_total, len at 2. rewrite (Forall2_length _ _ _ Hds). clear -Hl.
    induction Hl as [|d datas Hd _ IH]; [done|]. cbn [concat length]. rewrite len_app, IH. lia.
  - intros i s Hi. destruct (Hp i s Hi) as [Hidx Ha]. destruct (Forall2_lookup_l _ _ _ _ _ Hds Hi) as (d & Hd' & Hsd).
    rewrite Ha, Hidx. split_and!; [done|done|]. by rewrite (slice_concat _ _ _ _ Hs Hl Hd').
Qed.

(** The file that [agent read] saves is whole: over any transport, when the
    command ends without an error the file is what [read_memory] returned for
    the address and the size asked for, or for all of the flash the agent
    reports, it has that size, and unless told not to verify (or nothing was
    read) the agent gave its CRC-32 for that memory. *)
Theorem agent_read_saves addr size verify (w w' : world T command) :
  agent_read fuel addr size verify w = (Ok tt, w') ->
  exists address n data w1 w2, out_file (obj w') = Some data /\
    match addr with Some a => py_int true a = Ok address | None => address = flash_mem (cl (obj w')) end /\
    match size with Some s => parse_size s = Ok n | None => n = flash_size (cl (obj w')) end /\
    read_memory fuel address n true w1 = (Ok data, w2) /\ len data = n /\
    (verify = true -> 0 < n -> exists w3 w4, client_crc32 fuel address n w3 = (Ok (crc32_of data), w4)).
Proof.
  intros Hrun.
  assert (Hd : does (T := T) (agent_read fuel addr size verify) (obj w) (fun r _ o' => r = Ok tt ->
    exists address n data w1 w2, out_file o' = Some data /\
      match addr with Some a => py_int true a = Ok address | None => address = flash_mem (cl o') end /\
      match size with Some s => parse_size s = Ok n | None => n = flash_size (cl o') end /\
      read_memory (T := T) fuel address n true w1 = (Ok data, w2) /\ len data = n /\
      (verify = true -> 0 < n -> exists w3 w4, client_crc32 (T := T) fuel address n w3 = (Ok (crc32_of data), w4)))).
  2: { destruct (Hd w eq_refl) as (l & _ & HQ). rewrite Hrun in HQ. by apply HQ. }
  unfold agent_read, attach, new_client. does_step. does_step. apply does_effect. intros [[]|e|]; [|done..].
  do 5 does_step. eapply does_weaken; [apply polite_client, polite_connect|]. intros [ok|e|] l1 o1 _; [|done..].
  destruct ok; cbn [negb]; [|stops]. does_step.
  does_step. apply (does_weaken _ _ (fun r _ o' => forall i, r = Ok i -> size = None -> exists i', i = Some i' /\ flash_size (cl o') = i_flash_size i')).
  { assert (Hi : does (T := T) (let* i := on_client (get_info fuel) in match i with Some _ => ret i | None => close_and_stop 1 end) o1
      (fun r _ o' => forall i, r = Ok i -> exists i', i = Some i' /\ flash_size (cl o') = i_flash_size i')).
    { does_step. eapply does_weaken; [apply does_on_client, get_info_does|]. intros [[i|]|e|] l2 o2 [_ [_ G2]]; [|stops|done..].
      destruct G2 as [Gf _]. does_step. intros i' [= <-]. by exists i. }
    destruct addr, size; [by does_step|..]; (eapply does_weaken; [exact Hi|]; intros r l2 o' HQ i Hr _; by apply HQ). }
  intros [i|e|] l2 o2 Hi; [|done..]. specialize (Hi i eq_refl). do 2 does_step.
  does_step. apply (does_weaken _ _ (fun r _ o' => o' = o2 /\ forall address, r = Ok address ->
    match addr with Some a => py_int true a = Ok address | None => address = flash_mem (cl o2) end)).
  { destruct addr; does_step; (split; [done|]); [done|by intros ? [= <-]]. }
  intros [address|e|] l3 o3 [-> Ha]; [|done..]. specialize (Ha address eq_refl).
  does_step. apply (does_weaken _ _ (fun r _ o' => o' = o2 /\ forall n, r = Ok n ->
    match size with Some s => parse_size s = Ok n | None => n = flash_size (cl o2) end)).
  { destruct size; [does_step; by split|]. destruct (Hi eq_refl) as (i' & -> & Hf). does_step. split; [done|]. by intros n [= <-]. }
  intros [n|e|] l4 o4 [-> Hn]; [|done..]. specialize (Hn n eq_refl).
  does_step. eapply does_weaken; [apply does_on_client, does_self, (keeps_read_memory (T := T) fuel (geometry (cl o2))); done|].
  intros [data|e|] l5 o5 [_ [G5 (w1 & w2 & _ & Hr & _)]]; [|done..]. pose proof (read_memory_len _ _ _ _ _ _ _ Hr) as Hl. cbn in Hl.
  unfold save. do 4 does_step.
  does_step. apply (does_weaken _ _ (fun r _ o' => geometry (cl o') = geometry (cl o2) /\ out_file o' = Some data /\ (r = Ok tt -> verify = true -> 0 < n ->
    exists w3 w4, client_crc32 (T := T) fuel address n w3 = (Ok (crc32_of data), w4)))).
  { destruct (verify && (0 <? len data)) eqn:Ev.
    - does_step. eapply does_weaken; [apply does_on_client, does_self, (polite_client_crc32 fuel address (len data))|].
      intros r l6 o6 [Ho [[_ G6] (w3 & w4 & _ & Hc & _)]]. cbn in Ho, G6. rewrite G5 in G6. destruct r as [v|e|]; [|by split_and!..].
      destruct (crc32_of data =? v) eqn:E; cbn [negb]; [|stops; by split_and!]. b2p. does_step. split_and!; [done|done|].
      intros _ _ _. exists w3, w4. by rewrite E, <- Hl.
    - does_step. split_and!; [done|done|]. intros _ -> Hn0. cbn in Ev. b2p. lia. }
  intros [[]|e|] l6 o6 (G6 & Ho & Hc); [|done..]. apply does_effect. intros r _. exists address, n, data, w1, w2.
  assert (Hg : flash_mem (cl o6) = flash_mem (cl o2) /\ flash_size (cl o6) = flash_size (cl o2)) by (unfold geometry in G6; split; congruence).
  destruct Hg as [-> ->]. split_and!; try done. by apply Hc.
Qed.

End Dump.

(** ** A flash with a bad sector *)

Definition demo_sectors : bytes := concat [0 :: le_bytes 4 0x11; 2 :: le_bytes 4 0; 4 :: le_bytes 4 0x22].
Definition demo_bad_flash : Script :=
  Build_Script (Mock [] [] false false 0) [] []
    [(wire (RSP_READY, []),
      [wire (RSP_INFO, [0xEF; 0x40; 0x18; 0] ++ le_bytes 4 12 ++ le_bytes 4 0x80000000 ++ le_bytes 4 4); wire (RSP_ACK, [1]);
       wire (RSP_SCAN, le_bytes 4 3) ++ wire (RSP_SCAN, demo_sectors) ++ wire (RSP_ACK, [0]);
       wire (RSP_DATA, [0; 0; 1; 2; 3; 4]) ++ wire (RSP_ACK, [0]); wire (RSP_DATA, [0; 0; 9; 10; 11; 12]) ++ wire (RSP_ACK, [0])], [])].
Definition demo_scan_result : ScanResult := mkScan [mkSector 0 0 GOOD 0x11; mkSector 1 4 STUCK_ZERO 0; mkSector 2 8 UNSTABLE 0x22] 12 4.
Abbreviation demo_scan := (agent_scan 300 true (World demo_bad_flash (Command FlashAgentClient_init None) [])).

Theorem agent_scan_dump_witness :
  fst demo_scan = Ok demo_scan_result /\ out_file (obj (snd demo_scan)) = Some [1; 2; 3; 4; 255; 255; 255; 255; 9; 10; 11; 12] /\
  let sz := sector_size (cl (obj (snd demo_scan))) in
  exists file, out_file (obj (snd demo_scan)) = Some file /\
    (0 <= sz -> len file = scan_total demo_scan_result * sz /\
     forall i s, sc_sectors demo_scan_result !! i = Some s -> s_index s = Z.of_nat i /\ s_address s = s_index s * sz /\
       sector_dump (T := Script) 300 (flash_mem (cl (obj (snd demo_scan)))) sz s (slice file (s_address s) (s_address s + sz))).
Proof.
  assert (E : fst demo_scan = Ok demo_scan_result) by (vm_compute; reflexivity). split; [exact E|]. split; [vm_compute; reflexivity|].
  apply (agent_scan_dump 300 (World demo_bad_flash (Command FlashAgentClient_init None) [])). apply (pair_fst demo_scan _ E).
Defined.

Definition demo_memory : Script :=
  Build_Script (Mock [] [] false false 0) [] []
    [(wire (RSP_READY, []),
      [wire (RSP_DATA, [0; 0; 1; 2; 3; 4]) ++ wire (RSP_ACK, [0]); wire (RSP_CRC32, le_bytes 4 (crc32_of [1; 2; 3; 4]))], [])].
Abbreviation demo_saved := (agent_read 300 (Some (codes "0x1400_0000")) (Some (codes " 4 ")) true (World demo_memory (Command FlashAgentClient_init None) [])).

Theorem agent_read_saves_witness :
  fst demo_saved = Ok tt /\
  exists address n data w1 w2, out_file (obj (snd demo_saved)) = Some data /\
    py_int true (codes "0x1400_0000") = Ok address /\ parse_size (codes " 4 ") = Ok n /\
    read_memory (T := Script) 300 address n true w1 = (Ok data, w2) /\ len data = n /\
    (true = true -> 0 < n -> exists w3 w4, client_crc32 (T := Script) 300 address n w3 = (Ok (crc32_of data), w4)).
Proof.
  assert (E : fst demo_saved = Ok tt) by (vm_compute; reflexivity). split; [exact E|].
  apply (agent_read_saves 300 (Some (codes "0x1400_0000")) (Some (codes " 4 ")) true (World demo_memory (Command FlashAgentClient_init None) [])).
  apply (pair_fst demo_saved _ E).
Defined.
